(* ===== verification/_CoqProject ===== *)
-Q . S2P
Prelude.v
Bytes.v
Bitmap.v
Replacer.v
Posix.v
Disk.v
BufferPool.v
BufferPoolFacts.v
BufferPoolSpec.v
Txn.v
Lock.v
LockFacts.v
LockSpec.v
PagePool.v
RmFile.v
RmPageFacts.v
RmTable.v
RmFileFacts.v
RmSpec.v
Log.v
LogFacts.v
LogSpec.v
TxnManager.v
IxDefs.v
IxNode.v
IxCompare.v
IxNodeFacts.v
IxNodeSpec.v
IxIndex.v
PinPool.v
IxTree.v
IxPage.v
IxInsert.v
Values.v
ValuesSpec.v
SmMeta.v
SmMetaSpec.v
Managers.v
ManagersSpec.v
IxSpec.v
Executors.v
JoinSpec.v
Engine.v
Dml.v
Rollback.v
Recovery.v
SmManager.v
Ast.v
Analyze.v
AnalyzeSpec.v
Planner.v
PlannerSpec.v
IndexScan.v
IndexScanSpec.v
Printer.v
PrinterSpec.v
QlManager.v
QlSpec.v
Csv.v
TableExecutors.v
ScanSpec.v
Portal.v
PortalSpec.v
Server.v
ServerSpec.v
RollbackSpec.v
Apart.v
DmlSpec.v
SmSpec.v
RecoverySpec.v
Parser.v
Grammar.v
LrSpec.v
LrCorrect.v
ParserSim.v
ParserSpec.v
Lexer.v
LexerSpec.v
Frontend.v
FrontendSpec.v
