(* ===== verification/Prelude.v ===== *)
(** * DB-RTE (RMDB): a verification library

    DB-RTE is a relational database server in C++ ([src/src]).  A request of a
    client is parsed, analyzed against the catalogue, planned, turned into a tree
    of executors and run; the executors read and change record files and B+-tree
    indexes through a buffer pool, take locks, write a log and record what an
    abort has to undo.  This library models those parts, from the system calls and
    the bytes of a request up to its answer, and proves what they promise each other.

    ** The parts and where they are

    Each component has a file with its data and operations, named after the
    source, and one or more files with its theory: [...Facts] for lemmas, [...Spec]
    for the theorems and, in a [...Demo] module, for runs on concrete data.

    - [Prelude]: outcomes (a result, an exception of [errors.h], or behaviour the
      language leaves undefined), the state-and-error monad [M], tactics, lists.
      [Bytes]: object representations, reads and writes inside a buffer, machine
      integers with their wrap-around.
    - [Posix], [Disk]: the system calls as an interface with laws, an in-memory
      file system that satisfies them, and [storage/disk_manager.*].
    - [Replacer], [BufferPool]: [replacer/*] (the abstract class as a type class,
      LRU as its instance) and [storage/page.h], [storage/buffer_pool_manager.*].
      [PagePool] and [PinPool] are the contracts of the pool towards record files
      and indexes; [PoolInstance] shows that the pool keeps them.
    - [Bitmap], [RmFile], [RmPageFacts], [RmTable], [RmFileFacts], [RmSpec]:
      [record/*], record files on the bytes of their pages.
    - [Txn], [Lock]: [transaction/transaction.h], [txn_defs.h] and
      [transaction/concurrency/lock_manager.*].  [Log]: [recovery/log_manager.*].
      [TxnManager], [Rollback]: [transaction/transaction_manager.*].  [Recovery]:
      [recovery/log_recovery.*].
    - [IxDefs], [IxNode], [IxIndex]: [index/ix_defs.h], [ix_index_handle.*],
      [ix_scan.*], nodes on the bytes of their pages; [IxCompare], [IxTree],
      [IxPage], [IxInsert] are the theory of keys and trees.  [Managers]:
      [record/rm_manager.h] and [index/ix_manager.h].
    - [Values]: [common/common.h], [common/datetime_utils.hpp].  [SmMeta]:
      [system/sm_meta.h].  [Engine]: the managers [rmdb.cpp] creates, as one state,
      with the handles of tables and indexes as views of it.  [SmManager]:
      [system/sm_manager.cpp].
    - [Ast], [Analyze], [Planner]: [parser/ast.h], [analyze/*], [optimizer/*].
    - [Executors]: [execution/executor_abstract.h] as a type class, projection, the
      two joins and sorting over any executors.  [TableExecutors], [IndexScan]:
      the scans.  [Dml]: insert, delete and update.
    - [Printer], [QlManager], [Csv], [Portal], [Server]: [record_printer.h],
      [common/context.h], [execution/execution_manager.*], the tokenizer it uses,
      [portal.h], and what [client_handler] of [rmdb.cpp] does with a request.
    - [Parser], [Lexer]: [parser/yacc.tab.*] and [parser/lex.yy.cpp], the generated
      automata with their tables, the actions and the literals.  [Grammar]:
      [parser/yacc.y], and at the head of [LexerSpec] the patterns of
      [parser/lex.l], what the automata were generated from.  [LrSpec], [LrCorrect]
      are the theory of the tables, by item sets that are checked against them;
      [ParserSim], [ParserSpec] carry it over to [yyparse], [LexerSpec] does the same
      for [yylex] by derivatives of the patterns.  [Frontend], [FrontendSpec]:
      [client_handler] from the received bytes on.

    State is passed explicitly; an operation of a component runs on the part of a
    larger state that holds it ([zoom]).  A pointer to a frame, a transaction or a
    handle is its key.  Locks are taken with the no-wait policy of the source, so
    every operation is a function of the state and threads are interleavings of
    operations ([LockSpec.steps]); page latches of the index are explicit.
    Uninitialised memory is an argument ([g], [r0], [garbage]); so are the order in
    which a hash table is traversed, [std::sort], [std::stof], [strerror] and the
    texts of the standard library's exceptions.

    ** What is shown

    - Front end (C3, C22, C35): the scanner delivers the longest matches of [lex.l],
      the parser accepts exactly the sentences of [yacc.y] that its stack has room
      for and builds their trees, both end on every text, and together they turn
      exactly the texts that begin with a statement into its tree.
    - Buffer pool (C1, C2, C4-C6): an invariant of every state reached by operations
      that return, as long as no page is asked for whose identity a recycled frame
      still carries and unpins are honest (runs in [BpmDemo] show that the code
      needs this); what fetching, creating and flushing pages do on every branch;
      what was written is what is read, through evictions.
    - Locks and transactions (C8, C11, C12, C14, C23): the lock functions refine a
      multi-granularity specification, held locks never conflict, locking is
      two-phase from the first release on, commit releases what the transaction holds and unblocks the
      requests it was in the way of.
    - Record files (C15, C19): inserting changes exactly the record in question
      (so do deleting and updating, and the page layout fits: lemmas of [RmSpec]),
      a scan ends and visits every record once.
    - Statements that write (C17, C18, C20): insert, delete and update change exactly
      the rows they are about, log them in order and note them in the write set;
      insertions and updates can be rolled back from there.  [Apart] shows that
      tables and log do not disturb each other; [DmlSpec] has the statements.
    - Log, rollback, recovery (C10, C21, C24): records read back (and the log
      grows in order, a lemma of [LogSpec]), undoing a write set restores the table, the analysis pass
      reads the log and finds the transactions that did not end.
    - Indexes (C25-C27, C31, C32): the key order, both searches in a node, node
      insertion (with the keys it drops), lookup in a tree of any height, insertion
      into one leaf with its split and all links (and a new index is an empty tree,
      a lemma of [ManagersSpec]).
    - Values and catalogue (C29, C36, C37, C40): what is stored and read back of a
      literal for every pair of types, conditions and index keys order alike, the
      catalogue file reads back, creating a table.
    - Queries (C7, C9, C16, C30, C33, C34, C38, C39): the analyzer accepts exactly the
      statements that denote a query whose literals fit; the plan has the rows of
      the statement, as filtered products of its tables; a sequential scan and the
      block join deliver their rows; the key range of an index scan misses none or
      fails as said; aggregates; the output of the four printing commands stays in
      its buffer; and a select over a sequential scan of one table answers exactly
      its matching records, by comparisons of the numbers and texts in their columns
      ([ValuesSpec.sql_op], [JoinSpec.RowSpec]).
    - Server (C13, C28): a text that is no statement, and a statement the analyzer
      refuses, are answered and leave the database as it was, for a client with
      and without a running transaction; where the code overflows instead is said.

    Executors are related by [ExecutorLaws] (what an executor promises whoever
    drives it): scans, projections and joins are shown to keep it, [SortExecutor]
    and [QlManager] rely on it only, so trees of operators are verified by
    stacking ([PortalSpec]).

    ** Bounds

    Loops whose end depends on the data take fuel; running out is the fault
    [Diverges].  The theorems say how much is enough: more than the number of
    records for a scan and for [select_from], a turn per pair of rows for the
    join, the height of the tree for the index, the length of the write set for
    [abort], nine turns a token and 200 more for the parser, the length of the
    buffer for the scanner.  Sizes are those of the source: 4096-byte pages, the 8192-byte answer,
    the join buffer of 2048 rows, the 200 slots of the parser's stack.

    ** Not modelled

    Sockets, threads, signals and [main]; source locations, error messages and
    debugging traces of the generated parser, and the parts of the scanner that read
    files; [create_db] and [drop_db], which run shell commands in another working
    directory; debugging output; tests and vendored libraries.  A [std::map] keyed by
    [PageId] is a finite map, although [PageId::operator<] is no strict order.  Side
    effects written inside [assert] happen, as in a build with assertions.  Floating
    point is IEEE binary32 through the standard library's [SpecFloat]; the payload
    of a NaN is not kept. *)

From stdpp Require Export base gmap sets list strings numbers fin_maps.
From Stdlib Require Export ZArith Lia.

#[global] Open Scope Z_scope.
#[global] Set Default Goal Selector "!".
#[global] Set Warnings "-clear-no-such-hyp".
#[global] Arguments Z.to_nat : simpl never.
#[global] Arguments Z.of_nat : simpl never.

(** ** Outcomes and the state-and-error monad

    A C++ operation either returns, throws one of the exceptions of
    [src/src/errors.h] (or [TransactionAbortException]), or meets behaviour the
    language leaves undefined (null dereference, out-of-bounds access, signed
    overflow) or a failed [assert].  An exception keeps the state mutated so
    far, so the state is returned in every case. *)

Inductive AbortReason : Type :=
| LOCK_ON_SHIRINKING
| UPGRADE_CONFLICT
| DEADLOCK_PREVENTION.

Inductive error : Type :=
| RMDBError (msg : string)
| InternalError (msg : string)
| UnixError
| FileNotOpenError (fd : Z)
| FileNotClosedError (filename : string)
| FileExistsError (filename : string)
| FileNotFoundError (filename : string)
| RecordNotFoundError (page_no slot_no : Z)
| InvalidRecordSizeError (record_size : Z)
| InvalidColLengthError (col_len : Z)
| IndexEntryNotFoundError
| IndexDeleteNotFoundError
| DatabaseNotFoundError (db_name : string)
| DatabaseExistsError (db_name : string)
| TableNotFoundError (tab_name : string)
| TableExistsError (tab_name : string)
| ColumnNotFoundError (col_name : string)
| IndexNotFoundError (tab_name : string) (col_names : list string)
| IndexExistsError (tab_name : string) (col_names : list string)
| InvalidValueCountError
| StringOverflowError
| IncompatibleTypeError (lhs rhs : string)
| AmbiguousColumnError (col_name : string)
| PageNotExistError (table_name : string) (page_no : Z)
| InvalidTypeError
| TransactionAbortException (txn_id : Z) (abort_reason : AbortReason)
| EscapedListError (what_arg : string)  (* boost::escaped_list_error *)
| InvalidArgument  (* std::invalid_argument *)
| OutOfRange       (* std::out_of_range *)
| LengthError.     (* std::length_error *)

Inductive fault : Type :=
| NullDeref
| OutOfBounds
| SignedOverflow
| DivideByZero
| AssertFailed
| Deadlock        (* a latch the thread already holds *)
| BadUnlock       (* a latch the thread does not hold *)
| UseAfterFree
| Diverges.       (* a loop or recursion beyond its bound *)

Inductive outcome (A : Type) : Type :=
| Ret (a : A)
| Throw (e : error)
| Stuck (w : fault).
Arguments Ret {A} a.
Arguments Throw {A} e.
Arguments Stuck {A} w.

#[global] Instance outcome_ret : MRet outcome := fun A a => Ret a.
#[global] Instance outcome_bind : MBind outcome := fun A B k m =>
  match m with Ret a => k a | Throw e => Throw e | Stuck w => Stuck w end.
Definition ensure (w : fault) (b : bool) : outcome unit := if b then Ret tt else Stuck w.
Definition or_stuck {A} (w : fault) (o : option A) : outcome A := match o with Some a => Ret a | None => Stuck w end.

Definition M (S A : Type) : Type := S -> outcome A * S.

Section monad.
Context {S : Type}.

#[global] Instance M_ret : MRet (M S) := fun A a s => (Ret a, s).

#[global] Instance M_bind : MBind (M S) := fun A B k m s =>
  match m s with
  | (Ret a, s') => k a s'
  | (Throw e, s') => (Throw e, s')
  | (Stuck w, s') => (Stuck w, s')
  end.

Definition throw {A} (e : error) : M S A := fun s => (Throw e, s).
Definition stuck {A} (w : fault) : M S A := fun s => (Stuck w, s).
Definition gets {A} (f : S -> A) : M S A := fun s => (Ret (f s), s).
Definition modify (f : S -> S) : M S unit := fun s => (Ret tt, f s).
Definition assert (b : bool) : M S unit :=
  if b then mret tt else stuck AssertFailed.

(** [vector::at], [map::at]: out of range throws; [operator[]] on a raw array
    or pointer out of range is undefined. *)
Definition unwrap {A} (w : fault) (o : option A) : M S A :=
  match o with Some a => mret a | None => stuck w end.

(** A computation that does not touch the state. *)
Definition lift {A} (o : outcome A) : M S A := fun s => (o, s).

Fixpoint forM {A} (l : list A) (body : A -> M S unit) : M S unit :=
  match l with
  | [] => mret tt
  | x :: l => body x ;; forM l body
  end.

End monad.

(** Run an operation of a component on the part of a larger state that holds it. *)
Definition zoom {S T A} (get : S -> T) (put : T -> S -> S) (m : M T A) : M S A :=
  fun s => let '(r, t) := m (get s) in (r, put t s).

(** ** Reasoning about runs *)

Section monad_facts.
Context {S : Type}.

Lemma mret_run {A} (a : A) (s : S) : (mret a : M S A) s = (Ret a, s).
Proof. reflexivity. Qed.

Lemma bind_run {A B} (m : M S A) (k : A -> M S B) (s s1 : S) (a : A) :
  m s = (Ret a, s1) -> (m ≫= k) s = k a s1.
Proof. intros H. unfold mbind, M_bind. by rewrite H. Qed.

Lemma bind_throw {A B} (m : M S A) (k : A -> M S B) (s s1 : S) (e : error) :
  m s = (Throw e, s1) -> (m ≫= k) s = (Throw e, s1).
Proof. intros H. unfold mbind, M_bind. by rewrite H. Qed.

Lemma bind_stuck {A B} (m : M S A) (k : A -> M S B) (s s1 : S) (w : fault) :
  m s = (Stuck w, s1) -> (m ≫= k) s = (Stuck w, s1).
Proof. intros H. unfold mbind, M_bind. by rewrite H. Qed.

Lemma bind_Ret_inv {A B} (m : M S A) (k : A -> M S B) (s s' : S) (b : B) :
  (m ≫= k) s = (Ret b, s') ->
  exists a s1, m s = (Ret a, s1) /\ k a s1 = (Ret b, s').
Proof.
  unfold mbind, M_bind. intros H. destruct (m s) as [[a|e|w] s1]; [by eauto|done|done].
Qed.

Lemma bind_assoc {A B C} (m : M S A) (k : A -> M S B) (h : B -> M S C) (s : S) :
  ((m ≫= k) ≫= h) s = (m ≫= (fun a => k a ≫= h)) s.
Proof. unfold mbind, M_bind. by destruct (m s) as [[a|e|w] s1]. Qed.

Lemma bind_ext {A B} (m : M S A) (k h : A -> M S B) (s : S) : (forall a t, k a t = h a t) -> (m ≫= k) s = (m ≫= h) s.
Proof. intros H. unfold mbind, M_bind. by destruct (m s) as [[a|e|w] s1]. Qed.

Lemma bind_ext_l {A B} (m n : M S A) (k : A -> M S B) (s : S) : m s = n s -> (m ≫= k) s = (n ≫= k) s.
Proof. intros H. unfold mbind, M_bind. by rewrite H. Qed.

Lemma unwrap_inv {A} (w : fault) (o : option A) (a : A) (s s' : S) :
  unwrap w o s = (Ret a, s') -> o = Some a /\ s' = s.
Proof. destruct o; [|done]. by intros [= <- <-]. Qed.

Lemma assert_inv (b : bool) (u : unit) (s s' : S) :
  assert b s = (Ret u, s') -> b = true /\ s' = s.
Proof. destruct b; [|done]. by intros [= <- <-]. Qed.

Lemma forM_app {A} (l1 l2 : list A) (body : A -> M S unit) (s : S) :
  forM (l1 ++ l2) body s = (forM l1 body ;; forM l2 body) s.
Proof.
  revert s. induction l1 as [|x l1 IH]; intros s; [done|].
  simpl. rewrite bind_assoc. unfold mbind, M_bind.
  destruct (body x s) as [[[]|e|w] s1]; [|done|done]. apply IH.
Qed.

(** A loop whose body preserves [I] at every step preserves [I]. *)
Lemma forM_inv {A} (I : S -> Prop) (l : list A) (body : A -> M S unit) (s s' : S) :
  (forall x t t', x ∈ l -> I t -> body x t = (Ret tt, t') -> I t') ->
  I s -> forM l body s = (Ret tt, s') -> I s'.
Proof.
  revert s. induction l as [|x l IH]; intros s Hb Hs Hrun.
  - by inversion Hrun; subst.
  - simpl in Hrun. apply bind_Ret_inv in Hrun as ([] & s1 & H1 & H2).
    eapply IH; [|eapply Hb; [left|exact Hs|exact H1]|exact H2].
    intros y t t' Hy. apply Hb. by right.
Qed.

End monad_facts.

Lemma zoom_run {S T A} (get : S -> T) (put : T -> S -> S) (m : M T A) (s : S) (r : outcome A) (t : T) :
  m (get s) = (r, t) -> zoom get put m s = (r, put t s).
Proof. intros H. unfold zoom. by rewrite H. Qed.

Lemma zoom_inv {S T A} (get : S -> T) (put : T -> S -> S) (m : M T A) (s s' : S) (r : outcome A) :
  zoom get put m s = (r, s') -> exists t, m (get s) = (r, t) /\ s' = put t s.
Proof. unfold zoom. destruct (m (get s)) as [r' t]. intros [= <- <-]. eauto. Qed.

(** Split a successful run into the successful runs of its parts. *)
Ltac inv_run :=
  repeat match goal with
  | H : (_ ≫= _) _ = (Ret _, _) |- _ =>
      let a := fresh "r" in let s := fresh "s" in
      let H1 := fresh "Hrun" in
      apply bind_Ret_inv in H; destruct H as (a & s & H1 & H)
  | H : mret _ _ = (Ret _, _) |- _ => rewrite mret_run in H; simplify_eq
  | H : gets _ _ = (Ret _, _) |- _ => unfold gets in H; simplify_eq
  | H : modify _ _ = (Ret _, _) |- _ => unfold modify in H; simplify_eq
  | H : throw _ _ = (Ret _, _) |- _ => unfold throw in H; discriminate H
  | H : stuck _ _ = (Ret _, _) |- _ => unfold stuck in H; discriminate H
  end.

(** Execute the next primitive of a run in the goal. *)
Ltac step_run :=
  first
    [ rewrite mret_run
    | erewrite bind_run by (first [reflexivity | eassumption])
    | erewrite bind_throw by (first [reflexivity | eassumption])
    | erewrite bind_stuck by (first [reflexivity | eassumption]) ].

Lemma obind_Ret {A B} (m : outcome A) (k : A -> outcome B) (b : B) : (m ≫= k) = Ret b <-> exists a, m = Ret a /\ k a = Ret b.
Proof.
  unfold mbind, outcome_bind. destruct m as [a|e|w]; [|by split; [discriminate|intros (? & ? & _)]..].
  split; [eauto|]. by intros (a' & [= <-] & H).
Qed.

Lemma option_bind_Some {A B} (a : A) (k : A -> option B) : (Some a ≫= k) = k a.
Proof. reflexivity. Qed.

(** ** Lists *)

Lemma filter_ext_elem {A} (f g : A -> bool) (l : list A) :
  (forall y, y ∈ l -> g y = f y) -> List.filter g l = List.filter f l.
Proof.
  induction l as [|y l IH]; intros H; [done|]. simpl.
  rewrite H by left. rewrite IH; [done|]. intros z Hz. apply H. by right.
Qed.

(** Predicates that differ at exactly one element of a duplicate-free list. *)
Lemma filter_length_ext {A} (f g : A -> bool) (l : list A) (x : A) :
  NoDup l -> x ∈ l -> f x = false -> g x = true ->
  (forall y, y ∈ l -> y <> x -> g y = f y) ->
  length (List.filter g l) = S (length (List.filter f l)).
Proof.
  intros Hnd Hx Hf Hg Heq. induction l as [|y l IH]; [by apply elem_of_nil in Hx|].
  apply NoDup_cons in Hnd as [Hy Hnd]. simpl. apply elem_of_cons in Hx as [<-|Hx].
  - rewrite Hf, Hg. simpl. f_equal. f_equal. apply filter_ext_elem.
    intros z Hz. apply Heq; [by right|]. by intros ->.
  - rewrite Heq; [|left|by intros ->].
    assert (length (List.filter g l) = S (length (List.filter f l))) as E.
    { apply IH; [done|done|]. intros z Hz. apply Heq. by right. }
    destruct (f y); simpl; lia.
Qed.
