(* ===== verification/Bytes.v ===== *)
(** * Byte buffers and machine integers

    A [char] buffer is a [list Z] of byte values 0..255.  [slice] and [splice]
    are what [memcpy] out of and into a buffer do; [le_bytes]/[le_val] are the
    little-endian object representation that reading an integer through a cast
    pointer, or [memcpy] of an integer's bytes, sees on the platforms the program
    targets. *)

From S2P Require Import Prelude.

Declare Scope bytes_scope.
Delimit Scope bytes_scope with bytes.

(** ** Fixed-width integers *)

Definition INT32_MIN : Z := - 2 ^ 31.
Definition INT32_MAX : Z := 2 ^ 31 - 1.
Definition in_i32 (z : Z) : bool := (INT32_MIN <=? z) && (z <=? INT32_MAX).
Definition INT64_MIN : Z := - 2 ^ 63.
Definition INT64_MAX : Z := 2 ^ 63 - 1.
Definition in_i64 (z : Z) : bool := (INT64_MIN <=? z) && (z <=? INT64_MAX).
Definition wrap_u (w z : Z) : Z := z mod 2 ^ w.
Definition wrap_s (w z : Z) : Z := (z + 2 ^ (w - 1)) mod 2 ^ w - 2 ^ (w - 1).

(** Signed 32-bit arithmetic: overflow is undefined behaviour. *)
Definition int_op {S} (z : Z) : M S Z :=
  if in_i32 z then mret z else stuck SignedOverflow.

(** ** Buffers *)

Definition slice {A} (o n : nat) (l : list A) : list A := take n (drop o l).
Definition splice {A} (o : nat) (d l : list A) : list A :=
  take o l ++ d ++ drop (o + length d) l.

Notation "l .[ o , n ]" := (slice o n l) (at level 1, format "l .[ o ,  n ]") : bytes_scope.

(** Bounds-checked accesses: outside the buffer is undefined behaviour. *)
Definition mem_read (o n : Z) (l : list Z) : option (list Z) :=
  if (0 <=? o) && (0 <=? n) && (o + n <=? Z.of_nat (length l))
  then Some (slice (Z.to_nat o) (Z.to_nat n) l) else None.
Definition mem_write (o : Z) (d l : list Z) : option (list Z) :=
  if (0 <=? o) && (o + Z.of_nat (length d) <=? Z.of_nat (length l))
  then Some (splice (Z.to_nat o) d l) else None.

(** ** Little-endian representation *)

Fixpoint le_bytes (n : nat) (v : Z) : list Z :=
  match n with
  | O => []
  | S n => v mod 256 :: le_bytes n (v / 256)
  end.
Fixpoint le_val (l : list Z) : Z :=
  match l with
  | [] => 0
  | b :: l => b + 256 * le_val l
  end.

Definition i32_bytes (v : Z) : list Z := le_bytes 4 v.
Definition i32_val (l : list Z) : Z := wrap_s 32 (le_val l).
Definition i64_bytes (v : Z) : list Z := le_bytes 8 v.
Definition i64_val (l : list Z) : Z := wrap_s 64 (le_val l).
Definition u32_bytes (v : Z) : list Z := le_bytes 4 v.
Definition u32_val (l : list Z) : Z := le_val l.
Definition u64_bytes (v : Z) : list Z := le_bytes 8 v.
Definition u64_val (l : list Z) : Z := le_val l.

#[global] Arguments i32_bytes : simpl never.
#[global] Arguments i64_bytes : simpl never.
#[global] Arguments u32_bytes : simpl never.
#[global] Arguments u64_bytes : simpl never.

Definition is_byte (b : Z) : bool := (0 <=? b) && (b <? 256).

(** [memcmp]: the sign of the first difference, bytes compared as unsigned. *)
Fixpoint memcmp (a b : list Z) : Z :=
  match a, b with
  | x :: a, y :: b => if x <? y then -1 else if y <? x then 1 else memcmp a b
  | _, _ => 0
  end.

(** ** Facts *)

Lemma length_slice {A} (o n : nat) (l : list A) :
  (o + n <= length l)%nat -> length (slice o n l) = n.
Proof. intros H. unfold slice. rewrite length_take, length_drop. lia. Qed.

Lemma length_splice {A} (o : nat) (d l : list A) :
  (o + length d <= length l)%nat -> length (splice o d l) = length l.
Proof. intros H. unfold splice. rewrite !length_app, length_take, length_drop. lia. Qed.

Lemma lookup_slice {A} (o n i : nat) (l : list A) :
  slice o n l !! i = if decide (i < n)%nat then l !! (o + i)%nat else None.
Proof.
  unfold slice. case_decide.
  - by rewrite lookup_take_lt, lookup_drop by lia.
  - by rewrite lookup_take_ge by lia.
Qed.

Lemma lookup_splice {A} (o i : nat) (d l : list A) :
  (o + length d <= length l)%nat ->
  splice o d l !! i =
    if decide (o <= i < o + length d)%nat then d !! (i - o)%nat else l !! i.
Proof.
  intros H. unfold splice. case_decide as Hd.
  - rewrite lookup_app_r by (rewrite length_take; lia).
    rewrite length_take, Nat.min_l by lia.
    by rewrite lookup_app_l by lia.
  - destruct (decide (i < o)%nat).
    + rewrite lookup_app_l by (rewrite length_take; lia). by rewrite lookup_take_lt.
    + rewrite lookup_app_r by (rewrite length_take; lia).
      rewrite length_take, Nat.min_l by lia.
      rewrite lookup_app_r, lookup_drop by lia. f_equal. lia.
Qed.

(** Two lists that agree at every index are equal; [list_ext] reduces a buffer
    equation to a case analysis on the index. *)
Ltac list_ext :=
  apply list_eq; let i := fresh "i" in intros i;
  repeat first [ rewrite lookup_slice | rewrite lookup_splice by lia ];
  repeat case_decide; try reflexivity; try (f_equal; lia); try lia.

Lemma slice_splice_same {A} (o : nat) (d l : list A) :
  (o + length d <= length l)%nat -> slice o (length d) (splice o d l) = d.
Proof.
  intros H. list_ext. symmetry. apply lookup_ge_None_2. lia.
Qed.

Lemma slice_splice_disjoint {A} (o o' n : nat) (d l : list A) :
  (o + length d <= length l)%nat ->
  (o' + n <= o)%nat \/ (o + length d <= o')%nat ->
  slice o' n (splice o d l) = slice o' n l.
Proof. intros H Hd. list_ext. Qed.

Lemma splice_splice_same {A} (o : nat) (d d' l : list A) :
  length d = length d' -> (o + length d <= length l)%nat ->
  splice o d' (splice o d l) = splice o d' l.
Proof.
  intros Hl H. apply list_eq. intros i.
  rewrite !lookup_splice by (rewrite ?length_splice; lia).
  repeat case_decide; [done|lia|done].
Qed.

(** A read inside the written range sees the written data. *)
Lemma slice_splice_inside {A} (o o' n : nat) (d l : list A) :
  (o + length d <= length l)%nat -> (o <= o')%nat -> (o' + n <= o + length d)%nat ->
  slice o' n (splice o d l) = slice (o' - o) n d.
Proof. intros H H1 H2. list_ext. Qed.

Lemma slice_slice {A} (o n o' n' : nat) (l : list A) :
  (o' + n' <= n)%nat -> slice o' n' (slice o n l) = slice (o + o') n' l.
Proof. intros H. list_ext. Qed.

Lemma slice_app_r {A} (o n : nat) (l k : list A) :
  (length l <= o)%nat -> slice o n (l ++ k) = slice (o - length l) n k.
Proof.
  intros H. unfold slice. rewrite drop_app. rewrite drop_ge by lia. done.
Qed.

Lemma slice_app_l {A} (o n : nat) (l k : list A) :
  (o + n <= length l)%nat -> slice o n (l ++ k) = slice o n l.
Proof.
  intros H. apply list_eq. intros i. rewrite !lookup_slice. case_decide; [|done].
  by rewrite lookup_app_l by lia.
Qed.

Lemma slice_all {A} (n : nat) (l : list A) : length l = n -> slice 0 n l = l.
Proof. intros <-. unfold slice. by rewrite drop_0, firstn_all. Qed.

Lemma slice_0_app {A} (l k : list A) (n : nat) : length l = n -> slice 0 n (l ++ k) = l.
Proof. intros H. rewrite slice_app_l by lia. by apply slice_all. Qed.

(** *** Checked accesses *)

Lemma mem_read_Some (o n : Z) (l d : list Z) :
  mem_read o n l = Some d <->
  0 <= o /\ 0 <= n /\ o + n <= Z.of_nat (length l) /\ d = slice (Z.to_nat o) (Z.to_nat n) l.
Proof.
  unfold mem_read. destruct (_ && _) eqn:E; split.
  - intros [= <-]. repeat split; lia.
  - by intros (_ & _ & _ & ->).
  - done.
  - lia.
Qed.

Lemma mem_write_Some (o : Z) (d l l' : list Z) :
  mem_write o d l = Some l' <->
  0 <= o /\ o + Z.of_nat (length d) <= Z.of_nat (length l) /\ l' = splice (Z.to_nat o) d l.
Proof.
  unfold mem_write. destruct (_ && _) eqn:E; split.
  - intros [= <-]. repeat split; lia.
  - by intros (_ & _ & ->).
  - done.
  - lia.
Qed.

Lemma length_mem_read (o n : Z) (l d : list Z) :
  mem_read o n l = Some d -> length d = Z.to_nat n.
Proof. rewrite mem_read_Some. intros (? & ? & ? & ->). apply length_slice. lia. Qed.

Lemma length_mem_write (o : Z) (d l l' : list Z) :
  mem_write o d l = Some l' -> length l' = length l.
Proof. rewrite mem_write_Some. intros (? & ? & ->). apply length_splice. lia. Qed.

(** *** Integers *)

Lemma length_le_bytes (n : nat) (v : Z) : length (le_bytes n v) = n.
Proof. revert v. induction n as [|n IH]; intros v; simpl; [done|]. by rewrite IH. Qed.

Lemma le_val_le_bytes (n : nat) (v : Z) : le_val (le_bytes n v) = v mod 2 ^ (8 * Z.of_nat n).
Proof.
  revert v. induction n as [|n IH]; intros v.
  - simpl. by rewrite Z.mod_1_r.
  - cbn [le_bytes le_val]. rewrite IH.
    replace (8 * Z.of_nat (S n)) with (8 + 8 * Z.of_nat n) by lia.
    rewrite Z.pow_add_r by lia. change (2 ^ 8) with 256.
    rewrite Z.rem_mul_r by lia. lia.
Qed.

Lemma wrap_s_id (w z : Z) : 0 < w -> - 2 ^ (w - 1) <= z < 2 ^ (w - 1) -> wrap_s w z = z.
Proof.
  intros Hw Hz. unfold wrap_s.
  assert (2 ^ w = 2 * 2 ^ (w - 1)) as E.
  { rewrite <- Z.pow_succ_r by lia. f_equal. lia. }
  rewrite Z.mod_small; lia.
Qed.

Lemma wrap_s_mod (w z : Z) : 0 < w -> wrap_s w (z mod 2 ^ w) = wrap_s w z.
Proof.
  intros Hw. unfold wrap_s. f_equal.
  rewrite Z.add_mod_idemp_l; [done|]. pose proof (Z.pow_pos_nonneg 2 w); lia.
Qed.

Lemma wrap_s_range (z : Z) : in_i32 (wrap_s 32 z) = true.
Proof.
  unfold wrap_s, in_i32, INT32_MIN, INT32_MAX. change (2 ^ (32 - 1)) with 2147483648. change (2 ^ 32) with 4294967296.
  pose proof (Z.mod_pos_bound (z + 2147483648) 4294967296). lia.
Qed.

Lemma i32_val_range (l : list Z) : in_i32 (i32_val l) = true.
Proof.
  unfold i32_val, wrap_s, in_i32, INT32_MIN, INT32_MAX. change (2 ^ (32 - 1)) with 2147483648. change (2 ^ 32) with 4294967296.
  pose proof (Z.mod_pos_bound (le_val l + 2147483648) 4294967296 ltac:(lia)). lia.
Qed.

Lemma i64_val_range (l : list Z) : in_i64 (i64_val l) = true.
Proof.
  unfold i64_val, wrap_s, in_i64, INT64_MIN, INT64_MAX. change (2 ^ (64 - 1)) with 9223372036854775808. change (2 ^ 64) with 18446744073709551616.
  pose proof (Z.mod_pos_bound (le_val l + 9223372036854775808) 18446744073709551616 ltac:(lia)). lia.
Qed.

Lemma i32_roundtrip (v : Z) : in_i32 v = true -> i32_val (i32_bytes v) = v.
Proof.
  intros H. unfold i32_val, i32_bytes. rewrite le_val_le_bytes.
  change (8 * Z.of_nat 4) with 32. rewrite wrap_s_mod by lia.
  apply wrap_s_id; unfold in_i32, INT32_MIN, INT32_MAX in H; lia.
Qed.

Lemma i64_roundtrip (v : Z) : in_i64 v = true -> i64_val (i64_bytes v) = v.
Proof.
  intros H. unfold i64_val, i64_bytes. rewrite le_val_le_bytes.
  change (8 * Z.of_nat 8) with 64. rewrite wrap_s_mod by lia.
  apply wrap_s_id; unfold in_i64, INT64_MIN, INT64_MAX in H; lia.
Qed.

Lemma u32_roundtrip (v : Z) : 0 <= v < 2 ^ 32 -> u32_val (u32_bytes v) = v.
Proof.
  intros H. unfold u32_val, u32_bytes. rewrite le_val_le_bytes.
  apply Z.mod_small. lia.
Qed.

Lemma u64_roundtrip (v : Z) : 0 <= v < 2 ^ 64 -> u64_val (u64_bytes v) = v.
Proof.
  intros H. unfold u64_val, u64_bytes. rewrite le_val_le_bytes.
  apply Z.mod_small. lia.
Qed.

Lemma length_i32_bytes v : length (i32_bytes v) = 4%nat.
Proof. apply length_le_bytes. Qed.
Lemma length_i64_bytes v : length (i64_bytes v) = 8%nat.
Proof. apply length_le_bytes. Qed.
Lemma length_u32_bytes v : length (u32_bytes v) = 4%nat.
Proof. apply length_le_bytes. Qed.
Lemma length_u64_bytes v : length (u64_bytes v) = 8%nat.
Proof. apply length_le_bytes. Qed.

Lemma le_bytes_is_byte (n : nat) (v : Z) : Forall (fun b => is_byte b = true) (le_bytes n v).
Proof.
  revert v. induction n as [|n IH]; intros v; simpl; constructor; [|apply IH].
  pose proof (Z.mod_pos_bound v 256). unfold is_byte. lia.
Qed.

Lemma memcmp_refl (a : list Z) : memcmp a a = 0.
Proof. induction a as [|x a IH]; simpl; [done|]. rewrite Z.ltb_irrefl. exact IH. Qed.

Lemma memcmp_eq (a b : list Z) : length a = length b -> memcmp a b = 0 -> a = b.
Proof.
  revert b. induction a as [|x a IH]; intros [|y b]; simpl; try done.
  intros [= Hl]. destruct (x <? y) eqn:E1; [done|]. destruct (y <? x) eqn:E2; [done|].
  intros H. f_equal; [lia|]. by apply IH.
Qed.

Lemma memcmp_antisym (a b : list Z) : memcmp b a = - memcmp a b.
Proof.
  revert b. induction a as [|x a IH]; intros [|y b]; simpl; try done.
  destruct (x <? y) eqn:E1, (y <? x) eqn:E2; try lia. apply IH.
Qed.

Lemma memcmp_trans (a b c : list Z) :
  length a = length b -> length b = length c ->
  memcmp a b <= 0 -> memcmp b c <= 0 -> memcmp a c <= 0.
Proof.
  revert b c. induction a as [|x a IH]; intros [|y b] [|z c]; simpl; try done; try lia.
  intros [= H1] [= H2].
  destruct (x <? y) eqn:E1, (y <? x) eqn:E2, (y <? z) eqn:E3, (z <? y) eqn:E4,
    (x <? z) eqn:E5, (z <? x) eqn:E6; try lia. by apply IH.
Qed.

Create HintDb bytes.
Create Rewrite HintDb bytes.
#[export] Hint Rewrite length_i32_bytes length_i64_bytes length_u32_bytes length_u64_bytes
  @length_app @length_replicate length_le_bytes : bytes.
#[export] Hint Resolve i32_roundtrip i64_roundtrip u32_roundtrip u64_roundtrip
  memcmp_refl le_bytes_is_byte : bytes.
