(* ===== verification/Bitmap.v ===== *)
(** * The slot bitmap of a record page ([src/src/record/bitmap.h])

    Bit [pos] of the bitmap lives in byte [pos / 8], most significant bit
    first.  A [char] is its byte value 0..255, so [bm[i] |= get_bit(pos)] is
    [Z.lor] and [bm[i] &= (char)~get_bit(pos)] is [Z.land] with the complement
    of the mask in a byte. *)

From S2P Require Import Prelude Bytes.

Definition BITMAP_WIDTH : Z := 8.
Definition BITMAP_HIGHEST_BIT : Z := 128.

Module Bitmap.

Definition get_bucket (pos : Z) : Z := Z.quot pos BITMAP_WIDTH.

Definition get_bit (pos : Z) : Z := Z.shiftr BITMAP_HIGHEST_BIT (Z.rem pos BITMAP_WIDTH).

(** Indexing outside the bitmap is undefined: [None]. *)
Definition byte_at (bm : list Z) (i : Z) : option Z :=
  if 0 <=? i then bm !! Z.to_nat i else None.

Definition update_byte (f : Z -> Z) (bm : list Z) (i : Z) : option (list Z) :=
  b ← byte_at bm i; Some (<[Z.to_nat i := f b]> bm).

Definition init (bm : list Z) (size : Z) : option (list Z) :=
  mem_write 0 (replicate (Z.to_nat size) 0) bm.

Definition set (bm : list Z) (pos : Z) : option (list Z) :=
  update_byte (fun b => Z.lor b (get_bit pos)) bm (get_bucket pos).

Definition reset (bm : list Z) (pos : Z) : option (list Z) :=
  update_byte (fun b => Z.land b (wrap_u 8 (Z.lnot (get_bit pos)))) bm (get_bucket pos).

Definition is_set (bm : list Z) (pos : Z) : option bool :=
  b ← byte_at bm (get_bucket pos); Some (negb (Z.land b (get_bit pos) =? 0)).

(** The loop of [next_bit] from index [i]; [fuel] bounds the remaining
    iterations, [max_n - i] of them. *)
Fixpoint next_bit_loop (fuel : nat) (bit : bool) (bm : list Z) (max_n i : Z) : option Z :=
  match fuel with
  | O => Some max_n
  | S fuel =>
      if i <? max_n then
        b ← is_set bm i;
        if eqb b bit then Some i else next_bit_loop fuel bit bm max_n (i + 1)
      else Some max_n
  end.

Definition next_bit (bit : bool) (bm : list Z) (max_n curr : Z) : option Z :=
  next_bit_loop (Z.to_nat (max_n - (curr + 1))) bit bm max_n (curr + 1).

Definition first_bit (bit : bool) (bm : list Z) (max_n : Z) : option Z :=
  next_bit bit bm max_n (-1).

(** ** Specification: a bitmap denotes a finite set of positions *)

(** Bit [pos], read directly: bit [7 - pos mod 8] of byte [pos / 8]. *)
Definition bit_of (bm : list Z) (pos : Z) : bool :=
  match bm !! Z.to_nat (pos / 8) with
  | Some b => Z.testbit b (7 - pos mod 8)
  | None => false
  end.

(** The bitmap covers the positions below [n]. *)
Definition covers (bm : list Z) (n : Z) : Prop := n <= 8 * Z.of_nat (length bm).

(** The number of set positions below [n]. *)
Definition popcount (bm : list Z) (n : Z) : Z :=
  Z.of_nat (length (List.filter (bit_of bm) (seqZ 0 n))).

(** ** Masks *)

Lemma get_bit_pow (pos : Z) : 0 <= pos -> get_bit pos = 2 ^ (7 - pos mod 8).
Proof.
  intros H. unfold get_bit, BITMAP_HIGHEST_BIT, BITMAP_WIDTH.
  rewrite Z.rem_mod_nonneg by lia.
  pose proof (Z.mod_pos_bound pos 8).
  rewrite Z.shiftr_div_pow2 by lia. change 128 with (2 ^ 7).
  rewrite <- Z.pow_sub_r by lia. done.
Qed.

Lemma get_bucket_div (pos : Z) : 0 <= pos -> get_bucket pos = pos / 8.
Proof. intros H. unfold get_bucket, BITMAP_WIDTH. by rewrite Z.quot_div_nonneg by lia. Qed.

Lemma byte_at_covered (bm : list Z) (pos n : Z) :
  covers bm n -> 0 <= pos < n ->
  exists b, byte_at bm (get_bucket pos) = Some b /\ bm !! Z.to_nat (pos / 8) = Some b.
Proof.
  intros Hc Hp. unfold covers in Hc. rewrite get_bucket_div by lia.
  assert (0 <= pos / 8) by (apply Z.div_pos; lia).
  assert (pos / 8 < Z.of_nat (length bm)) by (apply Z.div_lt_upper_bound; lia).
  destruct (lookup_lt_is_Some_2 bm (Z.to_nat (pos / 8))) as [b Hb]; [lia|].
  exists b. unfold byte_at. split; [|done]. by rewrite Zle_imp_le_bool by lia.
Qed.

Lemma land_pow_testbit (b i : Z) : 0 <= i -> negb (Z.land b (2 ^ i) =? 0) = Z.testbit b i.
Proof.
  intros Hi. destruct (Z.testbit b i) eqn:E.
  - apply negb_true_iff, Z.eqb_neq. intros H0.
    assert (Z.testbit (Z.land b (2 ^ i)) i = false) as H1 by (by rewrite H0, Z.bits_0).
    rewrite Z.land_spec, E, Z.pow2_bits_true in H1 by lia. done.
  - apply negb_false_iff, Z.eqb_eq. apply Z.bits_inj'. intros j Hj.
    rewrite Z.land_spec, Z.bits_0. destruct (decide (i = j)) as [->|].
    + by rewrite E.
    + rewrite Z.pow2_bits_false by lia. apply andb_false_r.
Qed.

Lemma lor_pow_testbit (b i j : Z) :
  0 <= i -> Z.testbit (Z.lor b (2 ^ i)) j = (if decide (i = j) then true else Z.testbit b j).
Proof.
  intros Hi. rewrite Z.lor_spec. case_decide as E.
  - subst. rewrite Z.pow2_bits_true by lia. apply orb_true_r.
  - rewrite Z.pow2_bits_false by lia. apply orb_false_r.
Qed.

Lemma clear_pow_testbit (b i j : Z) :
  0 <= i < 8 -> 0 <= j < 8 ->
  Z.testbit (Z.land b (wrap_u 8 (Z.lnot (2 ^ i)))) j
  = (if decide (i = j) then false else Z.testbit b j).
Proof.
  intros Hi Hj. rewrite Z.land_spec. unfold wrap_u.
  rewrite Z.mod_pow2_bits_low by lia. rewrite Z.lnot_spec by lia. case_decide as E.
  - subst. rewrite Z.pow2_bits_true by lia. apply andb_false_r.
  - rewrite Z.pow2_bits_false by lia. apply andb_true_r.
Qed.

(** ** Reading and updating one bit *)

Lemma is_set_spec (bm : list Z) (pos n : Z) :
  covers bm n -> 0 <= pos < n -> is_set bm pos = Some (bit_of bm pos).
Proof.
  intros Hc Hp. destruct (byte_at_covered bm pos n Hc Hp) as (b & H1 & H2).
  unfold is_set, bit_of. rewrite H1, H2. simpl.
  pose proof (Z.mod_pos_bound pos 8).
  rewrite get_bit_pow by lia. by rewrite land_pow_testbit by lia.
Qed.

(** Updating one byte changes the bits of that byte only. *)
Lemma update_byte_spec (f : Z -> Z) (bm : list Z) (pos n : Z) (v : bool) :
  covers bm n -> 0 <= pos < n ->
  (forall b j, 0 <= j < 8 ->
     Z.testbit (f b) j = if decide (7 - pos mod 8 = j) then v else Z.testbit b j) ->
  exists bm', update_byte f bm (get_bucket pos) = Some bm' /\
    length bm' = length bm /\
    forall q, 0 <= q < n -> bit_of bm' q = if decide (q = pos) then v else bit_of bm q.
Proof.
  intros Hc Hp Hf. destruct (byte_at_covered bm pos n Hc Hp) as (b & H1 & H2).
  unfold update_byte. rewrite H1. eexists. split; [reflexivity|].
  split; [apply length_insert|]. intros q Hq. unfold bit_of.
  rewrite get_bucket_div by lia.
  pose proof (Z.mod_pos_bound q 8). pose proof (Z.mod_pos_bound pos 8).
  pose proof (Z_div_mod_eq_full q 8). pose proof (Z_div_mod_eq_full pos 8).
  assert (0 <= pos / 8) by (apply Z.div_pos; lia).
  assert (0 <= q / 8) by (apply Z.div_pos; lia).
  destruct (decide (q / 8 = pos / 8)) as [E|E].
  - rewrite E, list_lookup_insert_eq by (by eapply lookup_lt_Some).
    rewrite Hf by lia. rewrite H2. repeat case_decide; [done|lia|lia|done].
  - rewrite list_lookup_insert_ne by lia. case_decide; [subst; done|done].
Qed.

Lemma set_spec (bm : list Z) (pos n : Z) :
  covers bm n -> 0 <= pos < n ->
  exists bm', set bm pos = Some bm' /\ length bm' = length bm /\
    forall q, 0 <= q < n -> bit_of bm' q = if decide (q = pos) then true else bit_of bm q.
Proof.
  intros Hc Hp. apply (update_byte_spec _ bm pos n true Hc Hp).
  intros b j Hj. pose proof (Z.mod_pos_bound pos 8).
  rewrite get_bit_pow by lia. apply lor_pow_testbit. lia.
Qed.

Lemma reset_spec (bm : list Z) (pos n : Z) :
  covers bm n -> 0 <= pos < n ->
  exists bm', reset bm pos = Some bm' /\ length bm' = length bm /\
    forall q, 0 <= q < n -> bit_of bm' q = if decide (q = pos) then false else bit_of bm q.
Proof.
  intros Hc Hp. apply (update_byte_spec _ bm pos n false Hc Hp).
  intros b j Hj. pose proof (Z.mod_pos_bound pos 8).
  rewrite get_bit_pow by lia. apply clear_pow_testbit; lia.
Qed.

Lemma init_spec (bm : list Z) (size : Z) :
  size = Z.of_nat (length bm) ->
  exists bm', init bm size = Some bm' /\ length bm' = length bm /\
    forall q, bit_of bm' q = false.
Proof.
  intros ->. unfold init, mem_write. rewrite length_replicate, Nat2Z.id.
  rewrite (proj2 (Z.leb_le (0 + _) _)) by lia. simpl.
  eexists. split; [reflexivity|]. unfold splice. simpl.
  rewrite length_replicate, drop_all, app_nil_r, length_replicate. split; [done|].
  intros q. unfold bit_of. destruct (replicate _ _ !! _) eqn:E; [|done].
  apply lookup_replicate in E as [-> _]. apply Z.bits_0.
Qed.

(** ** Searching *)

(** [r] is the least position in [i, max_n) whose bit is [bit], or [max_n]. *)
Definition is_next (bit : bool) (bm : list Z) (max_n i r : Z) : Prop :=
  i <= r <= max_n /\
  (forall q, i <= q < r -> bit_of bm q = negb bit) /\
  (r < max_n -> bit_of bm r = bit).

Lemma next_bit_loop_spec (fuel : nat) (bit : bool) (bm : list Z) (max_n i : Z) :
  covers bm max_n -> 0 <= i <= max_n -> max_n - i <= Z.of_nat fuel ->
  exists r, next_bit_loop fuel bit bm max_n i = Some r /\ is_next bit bm max_n i r.
Proof.
  intros Hc. revert i. induction fuel as [|fuel IH]; intros i Hi Hf; simpl.
  - exists max_n. split; [done|]. split; [lia|]. split; [|lia]. intros; lia.
  - destruct (Z.ltb_spec i max_n).
    2: { exists max_n. split; [done|]. split; [lia|]. split; [|lia]. intros; lia. }
    rewrite (is_set_spec bm i max_n) by (done || lia). simpl.
    destruct (eqb (bit_of bm i) bit) eqn:E.
    + exists i. apply eqb_prop in E. split; [done|]. split; [lia|]. split; [|done]. intros; lia.
    + destruct (IH (i + 1)) as (r & Hr & Hb & Hq & Hlt); [lia|lia|].
      exists r. split; [done|]. split; [lia|]. split; [|done].
      intros q Hq'. destruct (decide (q = i)) as [->|]; [|apply Hq; lia].
      by destruct (bit_of bm i), bit.
Qed.

Lemma next_bit_spec (bit : bool) (bm : list Z) (max_n curr : Z) :
  covers bm max_n -> -1 <= curr < max_n ->
  exists r, next_bit bit bm max_n curr = Some r /\ is_next bit bm max_n (curr + 1) r.
Proof. intros Hc Hi. unfold next_bit. apply next_bit_loop_spec; [done|lia|lia]. Qed.

(** ** Counting *)

Lemma popcount_range (bm : list Z) (n : Z) : 0 <= n -> 0 <= popcount bm n <= n.
Proof.
  intros Hn. unfold popcount. split; [lia|].
  pose proof (List.filter_length_le (bit_of bm) (seqZ 0 n)) as H.
  rewrite length_seqZ in H. lia.
Qed.

(** Setting a clear bit increases the count by one; clearing a set bit
    decreases it by one. *)
Lemma popcount_set (bm bm' : list Z) (n pos : Z) :
  0 <= pos < n -> bit_of bm pos = false ->
  (forall q, 0 <= q < n -> bit_of bm' q = if decide (q = pos) then true else bit_of bm q) ->
  popcount bm' n = popcount bm n + 1.
Proof.
  intros Hp H0 Hb. unfold popcount.
  rewrite (filter_length_ext (bit_of bm) (bit_of bm') _ pos); [lia|..].
  - apply NoDup_seqZ.
  - apply elem_of_seqZ. lia.
  - done.
  - rewrite Hb by lia. by rewrite decide_True.
  - intros y Hy Hne. apply elem_of_seqZ in Hy. rewrite Hb by lia. by rewrite decide_False.
Qed.

Lemma popcount_reset (bm bm' : list Z) (n pos : Z) :
  0 <= pos < n -> bit_of bm pos = true ->
  (forall q, 0 <= q < n -> bit_of bm' q = if decide (q = pos) then false else bit_of bm q) ->
  popcount bm' n = popcount bm n - 1.
Proof.
  intros Hp H0 Hb. unfold popcount.
  rewrite (filter_length_ext (bit_of bm') (bit_of bm) _ pos); [lia|..].
  - apply NoDup_seqZ.
  - apply elem_of_seqZ. lia.
  - rewrite Hb by lia. by rewrite decide_True.
  - done.
  - intros y Hy Hne. apply elem_of_seqZ in Hy. rewrite Hb by lia. by rewrite decide_False.
Qed.

(** A page whose count is below its capacity has a clear bit, and the search
    for one succeeds. *)
Lemma popcount_full (bm : list Z) (n : Z) :
  0 <= n -> (forall q, 0 <= q < n -> bit_of bm q = true) -> popcount bm n = n.
Proof.
  intros Hn Hall. unfold popcount.
  assert (forall l, (forall q, q ∈ l -> bit_of bm q = true) -> List.filter (bit_of bm) l = l) as Hf.
  { intros l. induction l as [|q l IH]; intros H; [done|]. simpl.
    rewrite H by set_solver. f_equal. apply IH. set_solver. }
  rewrite Hf; [rewrite length_seqZ; lia|].
  intros q Hq. apply elem_of_seqZ in Hq. apply Hall. lia.
Qed.

Lemma popcount_empty (bm : list Z) (n : Z) :
  0 <= n -> (forall q, 0 <= q < n -> bit_of bm q = false) -> popcount bm n = 0.
Proof.
  intros Hn Hall. unfold popcount.
  assert (forall l, (forall q, q ∈ l -> bit_of bm q = false) -> List.filter (bit_of bm) l = []) as Hf.
  { intros l. induction l as [|q l IH]; intros H; [done|]. simpl.
    rewrite H by set_solver. apply IH. set_solver. }
  rewrite Hf; [done|]. intros q Hq. apply elem_of_seqZ in Hq. apply Hall. lia.
Qed.

End Bitmap.
