(* ===== verification/Replacer.v ===== *)
(** * Frame replacement ([src/src/replacer])

    [Replacer] is the abstract class of [replacer.h] that the buffer pool is
    written against; [ReplacerLaws] states what the pool relies on; the module
    [Lru] is [LRUReplacer], a doubly linked list of frame ids with a hash map
    of iterators into it, and discharges the laws.

    A [std::list] iterator is modelled as the identity of a list node: every
    [push_front] allocates a fresh node, [erase(it)] removes the node with that
    identity, and erasing through an iterator whose node is gone is undefined
    behaviour.  [latch_] makes every operation atomic. *)

From S2P Require Import Prelude.

(** ** The interface *)

Class Replacer (R : Type) : Type := {
  rp_new : Z -> R;
  rp_victim : M R (option Z);
  rp_pin : Z -> M R unit;
  rp_unpin : Z -> M R unit;
  rp_Size : R -> Z
}.

(** The evictable frames as a set: a victim is taken from the set, pinning
    removes, unpinning adds, and no operation fails. *)
Class ReplacerLaws (R : Type) `{Replacer R} : Type := {
  rp_inv : R -> Prop;
  rp_frames : R -> gset Z;
  rp_new_ok : forall n, rp_inv (rp_new n) /\ rp_frames (rp_new n) = ∅;
  rp_victim_ok : forall r, rp_inv r ->
    exists o r', rp_victim r = (Ret o, r') /\ rp_inv r' /\
      match o with
      | None => rp_frames r = ∅ /\ r' = r
      | Some f => f ∈ rp_frames r /\ rp_frames r' = rp_frames r ∖ {[f]}
      end;
  rp_pin_ok : forall f r, rp_inv r ->
    exists r', rp_pin f r = (Ret tt, r') /\ rp_inv r' /\ rp_frames r' = rp_frames r ∖ {[f]};
  rp_unpin_ok : forall f r, rp_inv r ->
    exists r', rp_unpin f r = (Ret tt, r') /\ rp_inv r' /\ rp_frames r' = {[f]} ∪ rp_frames r
}.

Module Lru.

Record LRUReplacer : Type := mkLRU {
  LRUlist_ : list (nat * Z);    (* (node, frame id), most recently unpinned first *)
  LRUhash_ : gmap Z nat;        (* frame id -> iterator *)
  max_size_ : Z;
  next_node : nat               (* the next node identity push_front allocates *)
}.

Definition make (num_pages : Z) : LRUReplacer :=
  {| LRUlist_ := []; LRUhash_ := ∅; max_size_ := num_pages; next_node := 0 |}.

Definition set_list (l : list (nat * Z)) (r : LRUReplacer) : LRUReplacer :=
  {| LRUlist_ := l; LRUhash_ := LRUhash_ r; max_size_ := max_size_ r; next_node := next_node r |}.
Definition set_hash (h : gmap Z nat) (r : LRUReplacer) : LRUReplacer :=
  {| LRUlist_ := LRUlist_ r; LRUhash_ := h; max_size_ := max_size_ r; next_node := next_node r |}.

(** [list.erase(it)] *)
Definition erase_node (it : nat) (l : list (nat * Z)) : option (list (nat * Z)) :=
  if decide (it ∈ l.*1) then Some (filter (fun p => p.1 <> it) l) else None.

Definition push_front (f : Z) (r : LRUReplacer) : LRUReplacer :=
  {| LRUlist_ := (next_node r, f) :: LRUlist_ r; LRUhash_ := LRUhash_ r;
     max_size_ := max_size_ r; next_node := S (next_node r) |}.

Definition victim : M LRUReplacer (option Z) := fun r =>
  match last (LRUlist_ r) with
  | None => (Ret None, r)
  | Some (_, frame_id) =>
      let r := set_hash (delete frame_id (LRUhash_ r)) r in
      let r := set_list (removelast (LRUlist_ r)) r in
      (Ret (Some frame_id), r)
  end.

Definition pin (frame_id : Z) : M LRUReplacer unit := fun r =>
  match LRUhash_ r !! frame_id with
  | Some it =>
      match erase_node it (LRUlist_ r) with
      | Some l => (Ret tt, set_hash (delete frame_id (LRUhash_ r)) (set_list l r))
      | None => (Stuck OutOfBounds, r)
      end
  | None => (Ret tt, r)
  end.

Definition unpin (frame_id : Z) : M LRUReplacer unit := fun r =>
  match LRUhash_ r !! frame_id with
  | None =>
      let it := next_node r in
      let r := push_front frame_id r in
      (Ret tt, set_hash (<[frame_id := it]> (LRUhash_ r)) r)
  | Some _ => (Ret tt, r)
  end.

Definition Size (r : LRUReplacer) : Z := Z.of_nat (length (LRUlist_ r)).

#[export] Instance lru_Replacer : Replacer LRUReplacer := {|
  rp_new := make; rp_victim := victim; rp_pin := pin; rp_unpin := unpin; rp_Size := Size
|}.

(** ** Specification: the recency list

    Abstractly the replacer is the list of evictable frames, most recently
    unpinned first. *)

Definition frames (r : LRUReplacer) : list Z := (LRUlist_ r).*2.

Definition spec_victim (l : list Z) : option Z * list Z := (last l, removelast l).
Definition spec_pin (f : Z) (l : list Z) : list Z := filter (fun g => g <> f) l.
Definition spec_unpin (f : Z) (l : list Z) : list Z := if decide (f ∈ l) then l else f :: l.

(** The hash map holds exactly the iterators of the list nodes. *)
Record wf (r : LRUReplacer) : Prop := {
  wf_nodes : NoDup (LRUlist_ r).*1;
  wf_frames : NoDup (frames r);
  wf_fresh : forall n f, (n, f) ∈ LRUlist_ r -> (n < next_node r)%nat;
  wf_hash : forall f n, LRUhash_ r !! f = Some n <-> (n, f) ∈ LRUlist_ r
}.

Lemma wf_make n : wf (make n).
Proof.
  split; simpl; try constructor.
  - intros n' f H. by apply elem_of_nil in H.
  - by rewrite lookup_empty.
  - intros H. by apply elem_of_nil in H.
Qed.

Lemma hash_frames (r : LRUReplacer) (f : Z) :
  wf r -> is_Some (LRUhash_ r !! f) <-> f ∈ frames r.
Proof.
  intros W. unfold frames. rewrite list_elem_of_fmap. split.
  - intros [n Hn]. exists (n, f). split; [done|]. by apply (wf_hash _ W).
  - intros ([n g] & -> & H). exists n. by apply (wf_hash _ W).
Qed.

Lemma removelast_snoc {A} (l : list A) (x : A) : removelast (l ++ [x]) = l.
Proof. apply removelast_last. Qed.

Lemma last_split {A} (l : list A) (x : A) : last l = Some x -> l = removelast l ++ [x].
Proof.
  intros H. apply last_Some in H as [k ->]. by rewrite removelast_snoc.
Qed.

Lemma victim_refines (r : LRUReplacer) :
  wf r ->
  exists r', victim r = (Ret (spec_victim (frames r)).1, r') /\
    frames r' = (spec_victim (frames r)).2 /\ wf r'.
Proof.
  intros W. unfold victim, spec_victim, frames. rewrite fmap_last.
  destruct (last (LRUlist_ r)) as [[n f]|] eqn:E; simpl.
  - eexists. split; [reflexivity|]. apply last_split in E.
    set (k := removelast (LRUlist_ r)) in *. simpl.
    destruct W as [W1 W2 W3 W4]. unfold frames in W2.
    rewrite E in W1, W2. rewrite fmap_app in W1. rewrite fmap_app in W2. simpl in W1, W2.
    apply NoDup_app in W1 as (W1 & D1 & _). apply NoDup_app in W2 as (W2 & D2 & _).
    assert (f ∉ k.*2) as Hf by (intros H; apply (D2 f H); by left).
    assert (n ∉ k.*1) as Hn by (intros H; apply (D1 n H); by left).
    split; [rewrite E, fmap_app; symmetry; apply removelast_snoc|].
    split; simpl; [done|done| |].
    + intros n' f' H. apply (W3 n' f'). rewrite E. set_solver.
    + intros f' n'. rewrite lookup_delete_Some, W4, E, elem_of_app, list_elem_of_singleton.
      split; [naive_solver|]. intros H. split; [|by left].
      intros ->. apply Hf, list_elem_of_fmap. by exists (n', f').
  - eexists. split; [reflexivity|]. apply last_None in E. simpl. by rewrite E.
Qed.

Lemma pin_refines (f : Z) (r : LRUReplacer) :
  wf r -> exists r', pin f r = (Ret tt, r') /\ frames r' = spec_pin f (frames r) /\ wf r'.
Proof.
  intros W. unfold pin, spec_pin. destruct (LRUhash_ r !! f) as [n|] eqn:E.
  - pose proof E as Hin. apply (wf_hash _ W) in Hin.
    unfold erase_node. rewrite decide_True.
    2: { apply list_elem_of_fmap. by exists (n, f). }
    eexists. split; [reflexivity|]. destruct W as [W1 W2 W3 W4].
    assert (forall p, p ∈ LRUlist_ r -> p.1 <> n <-> p.2 <> f) as Hiff.
    { intros [m g] Hp. apply W4 in Hp. apply W4 in Hin. simpl. split.
      - intros Hne ->. congruence.
      - intros Hne ->. apply Hne. apply W4 in Hp, Hin.
        clear -W1 Hp Hin. induction (LRUlist_ r) as [|[a b] l IH]; [set_solver|].
        simpl in W1. apply NoDup_cons in W1 as [Ha W1].
        assert (forall c, (n, c) ∈ l -> n ∈ l.*1) by (intros c Hc; apply list_elem_of_fmap; by exists (n, c)).
        set_solver. }
    assert (forall l, (forall p, p ∈ l -> p ∈ LRUlist_ r) ->
      (filter (fun p => p.1 <> n) l).*2 = filter (fun g => g <> f) l.*2) as Hmap.
    { intros l. induction l as [|p l IH]; intros Hs; [done|].
      rewrite filter_cons, fmap_cons, filter_cons.
      pose proof (Hiff p (Hs p ltac:(left))).
      repeat case_decide; try tauto; rewrite ?fmap_cons, IH; set_solver. }
    assert (forall p, p ∈ filter (fun p => p.1 <> n) (LRUlist_ r) <-> p ∈ LRUlist_ r /\ p.2 <> f) as Hel.
    { intros p. rewrite list_elem_of_filter. split; [intros [? ?]|intros [? ?]]; split; auto; by apply Hiff. }
    unfold frames. simpl. split; [by apply Hmap|]. split; simpl.
    + eapply sublist_NoDup; [exact W1|apply fmap_sublist, sublist_filter].
    + unfold frames. simpl. rewrite Hmap by done. by apply NoDup_filter.
    + intros n' f' H. apply Hel in H as [H _]. by apply (W3 n' f').
    + intros f' n'. rewrite lookup_delete_Some, W4, Hel. simpl. naive_solver.
  - exists r. split; [done|]. split; [|done].
    assert (f ∉ frames r) as Hf.
    { intros H. apply hash_frames in H; [|done]. rewrite E in H. by destruct H. }
    clear -Hf. induction (frames r) as [|g l IH]; [done|]. rewrite filter_cons.
    rewrite decide_True by set_solver. f_equal. set_solver.
Qed.

Lemma unpin_refines (f : Z) (r : LRUReplacer) :
  wf r -> exists r', unpin f r = (Ret tt, r') /\ frames r' = spec_unpin f (frames r) /\ wf r'.
Proof.
  intros W. unfold unpin, spec_unpin. destruct (LRUhash_ r !! f) as [n|] eqn:E.
  - rewrite decide_True by (apply hash_frames; eauto). by exists r.
  - assert (f ∉ frames r) as Hf.
    { intros H. apply hash_frames in H; [|done]. rewrite E in H. by destruct H. }
    rewrite decide_False by done. eexists. split; [reflexivity|]. split; [done|].
    destruct W as [W1 W2 W3 W4]. split; simpl.
    + constructor; [|done]. intros H. apply list_elem_of_fmap in H as ([m g] & Hm & H).
      simpl in Hm. subst. apply W3 in H. lia.
    + unfold frames. simpl. by constructor.
    + intros n' f' H. apply elem_of_cons in H as [[= -> ->]|H]; [lia|]. apply W3 in H. lia.
    + intros f' n'. rewrite lookup_insert_Some, W4, elem_of_cons. split.
      * intros [[-> ->]|[? ?]]; [by left|by right].
      * intros [[= -> ->]|H]; [by left|]. right. split; [|done].
        intros ->. apply Hf, list_elem_of_fmap. by exists (n', f').
Qed.

(** ** The laws *)

Lemma elem_of_removelast {A} (l : list A) (x y : A) :
  NoDup l -> last l = Some x -> y ∈ removelast l <-> y ∈ l /\ y <> x.
Proof.
  intros Hnd Hl. apply last_split in Hl. set (k := removelast l) in *. rewrite Hl in Hnd |- *.
  apply NoDup_app in Hnd as (_ & D & _). set_solver.
Qed.

#[export] Program Instance lru_ReplacerLaws : ReplacerLaws LRUReplacer := {|
  rp_inv := wf; rp_frames := fun r => list_to_set (frames r)
|}.
Next Obligation. intros n. split; [apply wf_make|done]. Qed.
Next Obligation.
  intros r W. destruct (victim_refines r W) as (r' & Hv & Hf & W').
  eexists _, r'. split; [exact Hv|]. split; [done|]. simpl in *.
  destruct (last (frames r)) as [f|] eqn:E.
  - split; [apply elem_of_list_to_set; apply last_split in E; rewrite E; set_solver|].
    apply set_eq. intros g. rewrite Hf, elem_of_difference, !elem_of_list_to_set, elem_of_singleton.
    by rewrite (elem_of_removelast _ f) by (done || apply W).
  - apply last_None in E. split; [by rewrite E|].
    unfold victim in Hv. unfold frames in E. apply fmap_nil_inv in E. rewrite E in Hv. simpl in Hv. congruence.
Qed.
Next Obligation.
  intros f r W. destruct (pin_refines f r W) as (r' & Hv & Hf & W').
  exists r'. split; [exact Hv|]. split; [done|]. rewrite Hf. unfold spec_pin.
  apply set_eq. intros g. rewrite elem_of_difference, !elem_of_list_to_set, list_elem_of_filter. set_solver.
Qed.
Next Obligation.
  intros f r W. destruct (unpin_refines f r W) as (r' & Hv & Hf & W').
  exists r'. split; [exact Hv|]. split; [done|]. rewrite Hf. unfold spec_unpin.
  case_decide; set_solver.
Qed.

End Lru.
