(* ===== verification/Posix.v ===== *)
(** * The operating system, as the program uses it

    The system calls [DiskManager] makes ([lseek], [read], [write], [open],
    [close], [unlink], [stat], [system]) are not code of the repository: they
    are the parameter [FileSystem] of every definition that reaches the disk.
    [FileSystemLaws] states the documented behaviour the program relies on, as
    safety laws (what a successful call did); [FileSystemReliable] adds that
    calls on an open descriptor succeed.  [MemFS] is a concrete file system
    that satisfies both, used to evaluate the model on concrete inputs. *)

From S2P Require Import Prelude Bytes.

Inductive errno : Type := EEXIST | ENOENT | EOTHER.
Inductive file_kind : Type := S_ISREG | S_ISDIR.

Class FileSystem : Type := {
  FS : Type;
  sys_lseek : FS -> Z -> Z -> Z * FS;                  (* SEEK_SET *)
  sys_lseek_end : FS -> Z -> Z * FS;                   (* offset 0, SEEK_END *)
  sys_write : FS -> Z -> list Z -> Z * FS;             (* bytes written, or -1 *)
  sys_read : FS -> Z -> Z -> Z * list Z * FS;          (* bytes read, or -1 *)
  sys_open : FS -> string -> (errno + Z) * FS;         (* O_RDWR *)
  sys_creat : FS -> string -> (errno + Z) * FS;        (* O_CREAT, O_EXCL, O_RDWR *)
  sys_close : FS -> Z -> FS;
  sys_unlink : FS -> string -> Z * FS;
  sys_stat : FS -> string -> option (file_kind * Z);
  sys_system : FS -> string -> Z * FS
}.

(** Writing [d] at offset [o] of a file: a gap past the end reads as zeros. *)
Definition pwrite (bs : list Z) (o : nat) (d : list Z) : list Z :=
  take o (bs ++ replicate (o - length bs) 0) ++ d ++ drop (o + length d) bs.

Class FileSystemLaws `{FileSystem} : Type := {
  fd_ino : FS -> Z -> option Z;          (* the file an open descriptor refers to *)
  ino_bytes : FS -> Z -> list Z;         (* the content of a file *)
  fd_pos : FS -> Z -> Z;                 (* the file offset of a descriptor *)
  lseek_law : forall fs fd off r fs', sys_lseek fs fd off = (r, fs') ->
    (forall x, fd_ino fs' x = fd_ino fs x) /\ (forall i, ino_bytes fs' i = ino_bytes fs i) /\
    (r <> -1 -> r = off /\ 0 <= off /\ fd_pos fs' fd = off);
  lseek_end_law : forall fs fd r fs', sys_lseek_end fs fd = (r, fs') ->
    (forall x, fd_ino fs' x = fd_ino fs x) /\ (forall i, ino_bytes fs' i = ino_bytes fs i) /\
    (forall i, fd_ino fs fd = Some i -> fd_pos fs' fd = Z.of_nat (length (ino_bytes fs i)));
  write_law : forall fs fd d r fs', sys_write fs fd d = (r, fs') ->
    (forall x, fd_ino fs' x = fd_ino fs x) /\
    (forall i, fd_ino fs fd <> Some i -> ino_bytes fs' i = ino_bytes fs i) /\
    (r = Z.of_nat (length d) -> exists i, fd_ino fs fd = Some i /\
       ino_bytes fs' i = pwrite (ino_bytes fs i) (Z.to_nat (fd_pos fs fd)) d);
  read_law : forall fs fd n r d fs', sys_read fs fd n = (r, d, fs') ->
    (forall x, fd_ino fs' x = fd_ino fs x) /\ (forall i, ino_bytes fs' i = ino_bytes fs i) /\
    (0 < n -> r = n -> exists i, fd_ino fs fd = Some i /\
       fd_pos fs fd + n <= Z.of_nat (length (ino_bytes fs i)) /\
       d = slice (Z.to_nat (fd_pos fs fd)) (Z.to_nat n) (ino_bytes fs i));
  open_law : forall fs p fd fs', sys_open fs p = (inr fd, fs') ->
    0 <= fd /\ fd_ino fs fd = None /\ is_Some (fd_ino fs' fd) /\
    (forall x, x <> fd -> fd_ino fs' x = fd_ino fs x) /\
    (forall i, ino_bytes fs' i = ino_bytes fs i);
  open_fail_law : forall fs p e fs', sys_open fs p = (inl e, fs') ->
    (forall x, fd_ino fs' x = fd_ino fs x) /\ (forall i, ino_bytes fs' i = ino_bytes fs i);
  close_law : forall fs fd,
    fd_ino (sys_close fs fd) fd = None /\
    (forall x, x <> fd -> fd_ino (sys_close fs fd) x = fd_ino fs x) /\
    (forall x i, x <> fd -> fd_ino fs x = Some i -> ino_bytes (sys_close fs fd) i = ino_bytes fs i)
}.

Class FileSystemReliable `{FileSystemLaws} : Prop := {
  lseek_ok : forall fs fd off, is_Some (fd_ino fs fd) -> 0 <= off -> (sys_lseek fs fd off).1 = off;
  write_ok : forall fs fd d, is_Some (fd_ino fs fd) -> (sys_write fs fd d).1 = Z.of_nat (length d);
  read_ok : forall fs fd n i, fd_ino fs fd = Some i -> 0 <= n -> 0 <= fd_pos fs fd ->
    fd_pos fs fd + n <= Z.of_nat (length (ino_bytes fs i)) -> (sys_read fs fd n).1.1 = n
}.

(** Names: [creat] with [O_EXCL] makes an empty file nobody has open, [open]
    opens the file the name refers to, and a file with a name outlives its
    descriptors.  [fd_room] says that one more descriptor can be opened;
    descriptor numbers stay below the limit of the process. *)
Class FileSystemPaths `{FileSystemLaws} : Type := {
  path_ino : FS -> string -> option Z;
  fd_room : FS -> Prop;
  fd_valid : Z -> Prop;
  lseek_path : forall fs fd off q, path_ino (sys_lseek fs fd off).2 q = path_ino fs q;
  write_path : forall fs fd d q, path_ino (sys_write fs fd d).2 q = path_ino fs q;
  read_path : forall fs fd n q, path_ino (sys_read fs fd n).2 q = path_ino fs q;
  close_path : forall fs fd q, path_ino (sys_close fs fd) q = path_ino fs q;
  close_keeps : forall fs fd q i, path_ino fs q = Some i -> ino_bytes (sys_close fs fd) i = ino_bytes fs i;
  close_room : forall fs fd, fd_valid fd -> fd_room (sys_close fs fd);
  valid_range : forall fd, fd_valid fd -> 0 <= fd < 8192;
  open_path : forall fs p fd fs', sys_open fs p = (inr fd, fs') ->
    fd_valid fd /\ path_ino fs p = fd_ino fs' fd /\ forall q, path_ino fs' q = path_ino fs q;
  open_ok : forall fs p, is_Some (path_ino fs p) -> fd_room fs -> exists fd fs', sys_open fs p = (inr fd, fs');
  creat_path : forall fs p fd fs', sys_creat fs p = (inr fd, fs') ->
    fd_valid fd /\ fd_ino fs fd = None /\ exists i, path_ino fs' p = Some i /\ fd_ino fs' fd = Some i /\ ino_bytes fs' i = [] /\
      (forall q, q <> p -> path_ino fs' q = path_ino fs q) /\ (forall q, path_ino fs q <> Some i) /\
      (forall x, x <> fd -> fd_ino fs' x = fd_ino fs x) /\ (forall x, fd_ino fs x <> Some i) /\
      (forall j, j <> i -> ino_bytes fs' j = ino_bytes fs j);
  creat_ok : forall fs p, path_ino fs p = None -> sys_stat fs p = None -> fd_room fs -> exists fd fs', sys_creat fs p = (inr fd, fs')
}.

(** Distinct open descriptors refer to distinct files. *)
Definition fd_distinct `{FileSystemLaws} (fs : FS) : Prop :=
  forall x y i, fd_ino fs x = Some i -> fd_ino fs y = Some i -> x = y.

(** ** A concrete file system *)

Module MemFS.

Record t : Type := mk {
  paths : gmap string (file_kind * Z);   (* name -> kind, file *)
  data : gmap Z (list Z);                (* file -> content *)
  fds : gmap Z (Z * nat)                  (* descriptor -> file, offset *)
}.

Definition bytes_of (fs : t) (i : Z) : list Z := default [] (data fs !! i).

Definition lseek (fs : t) (fd off : Z) : Z * t :=
  match fds fs !! fd with
  | Some (i, _) =>
      if off <? 0 then (-1, fs)
      else (off, {| paths := paths fs; data := data fs; fds := <[fd := (i, Z.to_nat off)]> (fds fs) |})
  | None => (-1, fs)
  end.

Definition lseek_end (fs : t) (fd : Z) : Z * t :=
  match fds fs !! fd with
  | Some (i, _) => lseek fs fd (Z.of_nat (length (bytes_of fs i)))
  | None => (-1, fs)
  end.

Definition write (fs : t) (fd : Z) (d : list Z) : Z * t :=
  match fds fs !! fd with
  | Some (i, pos) =>
      (Z.of_nat (length d),
       {| paths := paths fs;
          data := <[i := pwrite (bytes_of fs i) pos d]> (data fs);
          fds := <[fd := (i, (pos + length d)%nat)]> (fds fs) |})
  | None => (-1, fs)
  end.

Definition read (fs : t) (fd n : Z) : Z * list Z * t :=
  match fds fs !! fd with
  | Some (i, pos) =>
      if n <? 0 then (-1, [], fs) else
      let d := slice pos (Z.to_nat n) (bytes_of fs i) in
      let r := if Z.of_nat pos + n <=? Z.of_nat (length (bytes_of fs i)) then n
               else Z.of_nat (length d) in
      (r, d, fs)
  | None => (-1, [], fs)
  end.

(** The lowest free descriptor, of the 1024 a process has. *)
Definition free_fd (fs : t) : option Z := List.find (fun x => bool_decide (fds fs !! x = None)) (seqZ 3 1021).

Definition open_at (fs : t) (fd i : Z) : (errno + Z) * t :=
  (inr fd, {| paths := paths fs; data := data fs; fds := <[fd := (i, O)]> (fds fs) |}).

Definition open (fs : t) (p : string) : (errno + Z) * t :=
  match paths fs !! p with
  | Some (S_ISREG, i) => match free_fd fs with Some fd => open_at fs fd i | None => (inl EOTHER, fs) end
  | _ => (inl ENOENT, fs)
  end.

(** A file number nothing refers to. *)
Definition used (fs : t) : gset Z := dom (data fs) ∪ (list_to_set (map_to_list (fds fs)).*2.*1 ∪ list_to_set (map_to_list (paths fs)).*2.*2).
Definition new_ino (fs : t) : Z := fresh (used fs).

Definition creat (fs : t) (p : string) : (errno + Z) * t :=
  match paths fs !! p with
  | Some _ => (inl EEXIST, fs)
  | None =>
      let i := new_ino fs in
      match free_fd fs with
      | Some fd => open_at {| paths := <[p := (S_ISREG, i)]> (paths fs); data := <[i := []]> (data fs); fds := fds fs |} fd i
      | None => (inl EOTHER, fs)
      end
  end.

Definition close (fs : t) (fd : Z) : t :=
  {| paths := paths fs; data := data fs; fds := delete fd (fds fs) |}.

Definition unlink (fs : t) (p : string) : Z * t :=
  match paths fs !! p with
  | Some (S_ISREG, _) => (0, {| paths := delete p (paths fs); data := data fs; fds := fds fs |})
  | _ => (-1, fs)
  end.

Definition stat (fs : t) (p : string) : option (file_kind * Z) :=
  match paths fs !! p with
  | Some (k, i) => Some (k, Z.of_nat (length (bytes_of fs i)))
  | None => None
  end.

Definition system (fs : t) (cmd : string) : Z * t := (0, fs).

Definition empty : t := {| paths := ∅; data := ∅; fds := ∅ |}.

#[export] Instance memfs : FileSystem := {|
  FS := t; sys_lseek := lseek; sys_lseek_end := lseek_end; sys_write := write; sys_read := read;
  sys_open := open; sys_creat := creat; sys_close := close; sys_unlink := unlink;
  sys_stat := stat; sys_system := system
|}.

Definition ino (fs : t) (fd : Z) : option Z := fst <$> fds fs !! fd.
Definition pos (fs : t) (fd : Z) : Z := Z.of_nat (default O (snd <$> fds fs !! fd)).

Lemma ino_insert (m : gmap Z (Z * nat)) (fd i x : Z) (p p' : nat) :
  m !! fd = Some (i, p) -> fst <$> <[fd := (i, p')]> m !! x = fst <$> m !! x.
Proof.
  intros H. rewrite lookup_insert. case_decide as E; [subst; by rewrite H|done].
Qed.

Lemma lseek_laws (fs : t) (fd off r : Z) (fs' : t) :
  lseek fs fd off = (r, fs') ->
  (forall x, ino fs' x = ino fs x) /\ (forall i, bytes_of fs' i = bytes_of fs i) /\
  (r <> -1 -> r = off /\ 0 <= off /\ pos fs' fd = off).
Proof.
  unfold lseek, ino, pos, bytes_of. destruct (fds fs !! fd) as [[i p]|] eqn:E.
  - destruct (Z.ltb_spec off 0); intros [= <- <-]; simpl; [done|].
    split; [intros x; by eapply ino_insert|]. split; [done|]. rewrite lookup_insert_eq. simpl. lia.
  - by intros [= <- <-].
Qed.

Lemma free_fd_Some (fs : t) (fd : Z) : free_fd fs = Some fd -> fds fs !! fd = None /\ 3 <= fd < 1024.
Proof.
  intros [H1 H2]%List.find_some. apply list_elem_of_In, elem_of_seqZ in H1. by apply bool_decide_eq_true in H2.
Qed.

Lemma open_laws (fs : t) (p : string) (fd : Z) (fs' : t) :
  open fs p = (inr fd, fs') ->
  0 <= fd /\ ino fs fd = None /\ is_Some (ino fs' fd) /\
  (forall x, x <> fd -> ino fs' x = ino fs x) /\ (forall i, bytes_of fs' i = bytes_of fs i).
Proof.
  unfold open, open_at, ino, bytes_of.
  destruct (paths fs !! p) as [[[] i]|]; [|done|done].
  destruct (free_fd fs) as [x|] eqn:E; [|done]. intros [= <- <-]. simpl.
  apply free_fd_Some in E as [E1 E2]. rewrite E1, lookup_insert_eq. split_and!; try done; [lia|].
  intros y Hy. by rewrite lookup_insert_ne.
Qed.

#[export] Program Instance memfs_laws : FileSystemLaws := {|
  fd_ino := ino; ino_bytes := bytes_of; fd_pos := pos
|}.
Next Obligation. exact lseek_laws. Qed.
Next Obligation.
  unfold lseek_end. intros fs fd r fs' H. simpl in H. unfold lseek_end in H.
  destruct (fds fs !! fd) as [[i p]|] eqn:E.
  - destruct (lseek_laws _ _ _ _ _ H) as (H1 & H2 & H3). split; [done|]. split; [done|].
    unfold ino. rewrite E. intros j [= <-]. apply H3. unfold lseek in H. rewrite E in H.
    destruct (Z.ltb_spec (Z.of_nat (length (bytes_of fs i))) 0); [lia|]. simplify_eq. lia.
  - simplify_eq. split; [done|]. split; [done|]. unfold ino. by rewrite E.
Qed.
Next Obligation.
  intros fs fd d r fs' H. simpl in H. unfold write in H.
  unfold ino, bytes_of, pos. destruct (fds fs !! fd) as [[i p]|] eqn:E; simplify_eq; simpl.
  - split; [intros x; by eapply ino_insert|]. split.
    + intros j Hj. rewrite lookup_insert_ne; [done|congruence].
    + intros _. exists i. rewrite lookup_insert_eq. simpl. by rewrite Nat2Z.id.
  - split; [done|]. split; [done|]. intros; exfalso; lia.
Qed.
Next Obligation.
  intros fs fd n r d fs' H. simpl in H. unfold read in H. unfold ino, bytes_of, pos.
  destruct (fds fs !! fd) as [[i p]|] eqn:E; simpl.
  - destruct (Z.ltb_spec n 0); simplify_eq; [split_and!; try done; intros; exfalso; lia|].
    split; [done|]. split; [done|]. intros Hn Hr. exists i. split; [done|].
    unfold bytes_of in Hr. destruct (Z.leb_spec (Z.of_nat p + n) (Z.of_nat (length (default [] (data fs' !! i))))); [by rewrite Nat2Z.id|].
    exfalso. unfold slice in Hr. rewrite length_take, length_drop in Hr. lia.
  - simplify_eq. split; [done|]. split; [done|]. intros; exfalso; lia.
Qed.
Next Obligation. exact open_laws. Qed.
Next Obligation.
  intros fs p e fs' H. simpl in H. unfold open, open_at in H.
  repeat case_match; simplify_eq; done.
Qed.
Next Obligation.
  intros fs fd. unfold ino. simpl. rewrite lookup_delete_eq. split_and!; try done.
  intros x Hx. by rewrite lookup_delete_ne.
Qed.

#[export] Instance memfs_reliable : FileSystemReliable.
Proof.
  split.
  - intros fs fd off [i Hi] Ho. simpl in *. unfold ino in Hi. unfold lseek.
    destruct (fds fs !! fd) as [[j p]|]; [|done]. by destruct (Z.ltb_spec off 0); [lia|].
  - intros fs fd d [i Hi]. simpl in *. unfold ino in Hi. unfold write.
    by destruct (fds fs !! fd) as [[j p]|].
  - intros fs fd n i Hi Hn Hp Hl. simpl in *. unfold ino, pos, read in *.
    destruct (fds fs !! fd) as [[j p]|]; simplify_eq/=. destruct (Z.ltb_spec n 0); [lia|]. simpl.
    by rewrite Zle_imp_le_bool.
Qed.

Definition path_of (fs : t) (p : string) : option Z := match paths fs !! p with Some (S_ISREG, i) => Some i | _ => None end.

Lemma used_fd (fs : t) (x i : Z) : ino fs x = Some i -> i ∈ used fs.
Proof.
  unfold ino, used. destruct (fds fs !! x) as [[j k]|] eqn:E; [|done]. intros [= <-]. rewrite !elem_of_union, elem_of_list_to_set. right. left.
  apply list_elem_of_fmap. exists (j, k). split; [done|]. apply list_elem_of_fmap. exists (x, (j, k)). split; [done|]. by apply elem_of_map_to_list.
Qed.
Lemma used_path (fs : t) (p : string) (i : Z) : path_of fs p = Some i -> i ∈ used fs.
Proof.
  unfold path_of, used. destruct (paths fs !! p) as [[[] j]|] eqn:E; [|done|done]. intros [= <-]. rewrite !elem_of_union, !elem_of_list_to_set. right. right.
  apply list_elem_of_fmap. exists (S_ISREG, j). split; [done|]. apply list_elem_of_fmap. exists (p, (S_ISREG, j)). split; [done|]. by apply elem_of_map_to_list.
Qed.

#[export] Program Instance memfs_paths : FileSystemPaths := {|
  path_ino := path_of; fd_room := fun fs => is_Some (free_fd fs); fd_valid := fun x => 3 <= x < 1024
|}.
Next Obligation. intros fs fd off q. simpl. unfold lseek. by repeat case_match. Qed.
Next Obligation. intros fs fd d q. simpl. unfold write. by repeat case_match. Qed.
Next Obligation. intros fs fd n q. simpl. unfold read. by repeat case_match. Qed.
Next Obligation. done. Qed.
Next Obligation. done. Qed.
Next Obligation.
  intros fs fd Hv. simpl. unfold free_fd. destruct (List.find _ _) eqn:E; [done|]. exfalso.
  assert (In fd (seqZ 3 1021)) as Hin by (apply list_elem_of_In, elem_of_seqZ; simpl in Hv; lia).
  apply (List.find_none _ _ E) in Hin. apply bool_decide_eq_false in Hin. apply Hin. apply lookup_delete_eq.
Qed.
Next Obligation. intros fd Hv. simpl in Hv. lia. Qed.
Next Obligation.
  intros fs p fd fs' H. simpl in *. unfold open, open_at in H. unfold path_of, ino.
  destruct (paths fs !! p) as [[[] i]|] eqn:Ep; [|done|done]. destruct (free_fd fs) as [x|] eqn:E; [|done]. injection H as <- <-.
  apply free_fd_Some in E as [_ E]. simpl. by rewrite lookup_insert_eq.
Qed.
Next Obligation.
  intros fs p [i Hi] [x Hx]. simpl in *. unfold path_of in Hi. unfold open, open_at. destruct (paths fs !! p) as [[[] j]|]; [|done|done].
  rewrite Hx. eauto.
Qed.
Next Obligation.
  intros fs p fd fs' H. simpl in *. unfold creat in H. destruct (paths fs !! p) eqn:Ep; [done|].
  destruct (free_fd fs) as [x|] eqn:E; [|done]. apply free_fd_Some in E as [E1 E2]. unfold open_at in H. injection H as <- <-.
  assert (new_ino fs ∉ used fs) as Hf by exact (is_fresh (used fs)). set (i := new_ino fs) in *.
  split; [done|]. split; [unfold ino; by rewrite E1|]. exists i. unfold path_of, ino, bytes_of. simpl. rewrite !lookup_insert_eq. split_and!; try done.
  - intros q Hq. by rewrite lookup_insert_ne.
  - intros q Hq. by apply Hf, (used_path _ q).
  - intros y Hy. by rewrite lookup_insert_ne.
  - intros y Hy. by apply Hf, (used_fd _ y).
  - intros j Hj. by rewrite lookup_insert_ne.
Qed.
Next Obligation.
  intros fs p Hp Hs [x Hx]. simpl in *. unfold stat in Hs. unfold creat, open_at. destruct (paths fs !! p) as [[k i]|]; [done|]. rewrite Hx. eauto.
Qed.

End MemFS.
