(* ===== verification/Disk.v ===== *)
(** * The disk manager ([src/src/storage/disk_manager.{h,cpp}])

    [DiskManager] keeps the table of open files, the number of pages allocated
    per descriptor and the log descriptor; its pages live in the operating
    system, the [FileSystem] parameter.  The abstract view is [disk_page]: the
    content of page [page_no] of an open file, where bytes past the end of the
    file read as zero; [page_present] says a page lies inside the file. *)

From S2P Require Import Prelude Bytes Posix.

(** [src/src/common/config.h] *)
Definition INVALID_FRAME_ID : Z := -1.
Definition INVALID_PAGE_ID : Z := -1.
Definition INVALID_TXN_ID : Z := -1.
Definition INVALID_TIMESTAMP : Z := -1.
Definition INVALID_LSN : Z := -1.
Definition HEADER_PAGE_ID : Z := 0.
Definition PAGE_SIZE : Z := 4096.
Definition BUFFER_POOL_SIZE : Z := 65536.
Definition LOG_BUFFER_SIZE : Z := 1024 * PAGE_SIZE.
Definition LOG_FILE_NAME : string := "db.log".
Definition DB_META_NAME : string := "db.meta".

Definition MAX_FD : Z := 8192.

Module Disk.
Section disk.
Context `{FileSystem}.

Record DiskManager : Type := mkDM {
  path2fd_ : gmap string Z;
  fd2path_ : gmap Z string;
  log_fd_ : Z;
  fd2pageno_ : gmap Z Z;       (* an array of MAX_FD counters, zero by default *)
  dm_fs : FS                   (* the file system the process runs on *)
}.

Definition make (fs : FS) : DiskManager :=
  {| path2fd_ := ∅; fd2path_ := ∅; log_fd_ := -1; fd2pageno_ := ∅; dm_fs := fs |}.

Definition set_fs (fs : FS) (d : DiskManager) : DiskManager :=
  {| path2fd_ := path2fd_ d; fd2path_ := fd2path_ d; log_fd_ := log_fd_ d;
     fd2pageno_ := fd2pageno_ d; dm_fs := fs |}.
Definition set_pageno (m : gmap Z Z) (d : DiskManager) : DiskManager :=
  {| path2fd_ := path2fd_ d; fd2path_ := fd2path_ d; log_fd_ := log_fd_ d;
     fd2pageno_ := m; dm_fs := dm_fs d |}.
Definition set_files (p : gmap string Z) (f : gmap Z string) (d : DiskManager) : DiskManager :=
  {| path2fd_ := p; fd2path_ := f; log_fd_ := log_fd_ d;
     fd2pageno_ := fd2pageno_ d; dm_fs := dm_fs d |}.
Definition SetLogFd (log_fd : Z) (d : DiskManager) : DiskManager :=
  {| path2fd_ := path2fd_ d; fd2path_ := fd2path_ d; log_fd_ := log_fd;
     fd2pageno_ := fd2pageno_ d; dm_fs := dm_fs d |}.

(** A system call on the process's file system. *)
Definition sys {A} (f : FS -> A * FS) : M DiskManager A := fun d =>
  let '(r, fs) := f (dm_fs d) in (Ret r, set_fs fs d).

Definition fd_in_range (fd : Z) : bool := (0 <=? fd) && (fd <? MAX_FD).

(** [page_no * PAGE_SIZE] is an [int] product. *)
Definition write_page (fd page_no : Z) (offset : list Z) (num_bytes : Z) : M DiskManager unit :=
  o ← int_op (page_no * PAGE_SIZE);
  pos ← sys (fun fs => sys_lseek fs fd o);
  if pos =? -1 then throw UnixError else
  buf ← unwrap OutOfBounds (mem_read 0 num_bytes offset);
  write_size ← sys (fun fs => sys_write fs fd buf);
  if negb (write_size =? num_bytes) then throw (InternalError "DiskManager::write_page Error")
  else mret tt.

(** The second component of the state is the caller's buffer, which a short
    read overwrites in part before the exception is thrown. *)
Definition read_page (fd page_no num_bytes : Z) : M (DiskManager * list Z) unit :=
  let disk {A} (m : M DiskManager A) := zoom fst (fun d s => (d, s.2)) m in
  o ← int_op (page_no * PAGE_SIZE);
  pos ← disk (sys (fun fs => sys_lseek fs fd o));
  if pos =? -1 then throw UnixError else
  buf ← gets snd;
  _ ← unwrap OutOfBounds (mem_read 0 num_bytes buf);
  r ← disk (sys (fun fs => sys_read fs fd num_bytes));
  let '(read_size, got) := r in
  modify (fun s => (s.1, splice 0 (take (Z.to_nat num_bytes) got) s.2)) ;;
  if negb (read_size =? num_bytes) then throw (InternalError "DiskManager::read_page Error")
  else mret tt.

Definition get_fd2pageno (fd : Z) : M DiskManager Z := fun d =>
  if fd_in_range fd then (Ret (default 0 (fd2pageno_ d !! fd)), d) else (Stuck OutOfBounds, d).
Definition set_fd2pageno (fd start_page_no : Z) : M DiskManager unit := fun d =>
  if fd_in_range fd then (Ret tt, set_pageno (<[fd := start_page_no]> (fd2pageno_ d)) d)
  else (Stuck OutOfBounds, d).

Definition allocate_page (fd : Z) : M DiskManager Z :=
  assert (fd_in_range fd) ;;
  n ← get_fd2pageno fd;
  n' ← int_op (n + 1);
  set_fd2pageno fd n' ;;
  mret n.

Definition deallocate_page (page_id : Z) : M DiskManager unit := mret tt.

Definition is_dir (path : string) (d : DiskManager) : bool :=
  match sys_stat (dm_fs d) path with Some (S_ISDIR, _) => true | _ => false end.
Definition is_file (path : string) (d : DiskManager) : bool :=
  match sys_stat (dm_fs d) path with Some (S_ISREG, _) => true | _ => false end.

Definition create_dir (path : string) : M DiskManager unit :=
  r ← sys (fun fs => sys_system fs (String.append "mkdir " path));
  if r <? 0 then throw UnixError else mret tt.
Definition destroy_dir (path : string) : M DiskManager unit :=
  r ← sys (fun fs => sys_system fs (String.append "rm -r " path));
  if r <? 0 then throw UnixError else mret tt.

Definition create_file (path : string) : M DiskManager unit :=
  r ← sys (fun fs => sys_creat fs path);
  match r with
  | inl EEXIST => throw (FileExistsError path)
  | inl _ => throw UnixError
  | inr fd => sys (fun fs => (tt, sys_close fs fd))
  end.

Definition destroy_file (path : string) : M DiskManager unit :=
  opened ← gets (fun d => path2fd_ d !! path);
  match opened with
  | Some _ => throw (FileNotClosedError path)
  | None =>
      result ← sys (fun fs => sys_unlink fs path);
      if negb (result =? 0) then throw (FileNotFoundError path) else mret tt
  end.

Definition open_file (path : string) : M DiskManager Z :=
  opened ← gets (fun d => path2fd_ d !! path);
  match opened with
  | Some _ => throw (FileNotClosedError path)
  | None =>
      r ← sys (fun fs => sys_open fs path);
      match r with
      | inl ENOENT => throw (FileNotFoundError path)
      | inl _ => throw UnixError
      | inr fd =>
          modify (fun d => set_files (<[path := fd]> (path2fd_ d)) (<[fd := path]> (fd2path_ d)) d) ;;
          mret fd
      end
  end.

Definition close_file (fd : Z) : M DiskManager unit :=
  path ← gets (fun d => fd2path_ d !! fd);
  match path with
  | None => throw (FileNotOpenError fd)
  | Some path =>
      sys (fun fs => (tt, sys_close fs fd)) ;;
      modify (fun d => set_files (delete path (path2fd_ d)) (delete fd (fd2path_ d)) d) ;;
      set_fd2pageno fd 0
  end.

(** [st_size] is narrowed to [int]. *)
Definition get_file_size (file_name : string) (d : DiskManager) : Z :=
  match sys_stat (dm_fs d) file_name with
  | Some (_, st_size) => wrap_s 32 st_size
  | None => -1
  end.

Definition get_file_name (fd : Z) : M DiskManager string :=
  path ← gets (fun d => fd2path_ d !! fd);
  match path with
  | None => throw (FileNotOpenError fd)
  | Some path => mret path
  end.

Definition get_file_fd (file_name : string) : M DiskManager Z :=
  fd ← gets (fun d => path2fd_ d !! file_name);
  match fd with
  | None => open_file file_name
  | Some fd => mret fd
  end.

Definition open_log : M DiskManager unit :=
  log_fd ← gets log_fd_;
  if log_fd =? -1 then (fd ← open_file LOG_FILE_NAME; modify (SetLogFd fd)) else mret tt.

(** The bytes read and the returned count; [-1] when [offset] is past the end. *)
Definition read_log (size offset : Z) : M DiskManager (Z * list Z) :=
  open_log ;;
  file_size ← gets (get_file_size LOG_FILE_NAME);
  if file_size <? offset then mret (-1, []) else
  rest ← int_op (file_size - offset);
  let size := Z.min size rest in
  if size =? 0 then mret (0, []) else
  log_fd ← gets log_fd_;
  _ ← sys (fun fs => sys_lseek fs log_fd offset);
  r ← sys (fun fs => sys_read fs log_fd size);
  let '(bytes_read, data) := r in
  assert (bytes_read =? size) ;;
  mret (bytes_read, data).

Definition write_log (log_data : list Z) : M DiskManager unit :=
  open_log ;;
  log_fd ← gets log_fd_;
  _ ← sys (fun fs => sys_lseek_end fs log_fd);
  bytes_write ← sys (fun fs => sys_write fs log_fd log_data);
  if negb (bytes_write =? Z.of_nat (length log_data)) then throw UnixError else mret tt.

End disk.
Arguments DiskManager {_}.

(** ** The page view of the disk *)

(** [n] bytes at offset [o], zero past the end of the buffer. *)
Definition zslice (o n : nat) (bs : list Z) : list Z := take n (drop o bs ++ replicate n 0).

Section views.
Context `{FileSystemLaws}.

Definition page_off (page_no : Z) : nat := Z.to_nat (page_no * PAGE_SIZE).
Definition page_len : nat := Z.to_nat PAGE_SIZE.

Definition file_bytes (d : DiskManager) (fd : Z) : option (list Z) :=
  ino_bytes (dm_fs d) <$> fd_ino (dm_fs d) fd.
Definition disk_page (d : DiskManager) (fd page_no : Z) : list Z :=
  match file_bytes d fd with
  | Some bs => zslice (page_off page_no) page_len bs
  | None => []
  end.
Definition page_present (d : DiskManager) (fd page_no : Z) : Prop :=
  match file_bytes d fd with
  | Some bs => 0 <= page_no /\ (page_off page_no + page_len <= length bs)%nat
  | None => False
  end.
Definition fd_open (d : DiskManager) (fd : Z) : Prop := is_Some (fd_ino (dm_fs d) fd).

(** Page numbers whose byte offset is an [int]. *)
Definition page_no_ok (page_no : Z) : bool := (0 <=? page_no) && (page_no <? 2 ^ 19).

(** ** Buffers with zero fill *)

Lemma lookup_zslice (o n i : nat) (bs : list Z) :
  zslice o n bs !! i = if decide (i < n)%nat then Some (default 0 (bs !! (o + i)%nat)) else None.
Proof.
  unfold zslice. case_decide; [|by rewrite lookup_take_ge by lia].
  rewrite lookup_take_lt by lia. rewrite lookup_app, lookup_drop.
  destruct (bs !! (o + i)%nat) eqn:E; [done|]. apply lookup_replicate_2.
  rewrite length_drop. apply lookup_ge_None in E. lia.
Qed.

Lemma length_zslice (o n : nat) (bs : list Z) : length (zslice o n bs) = n.
Proof. unfold zslice. rewrite length_take, length_app, length_drop, length_replicate. lia. Qed.

Lemma zslice_slice (o n : nat) (bs : list Z) :
  (o + n <= length bs)%nat -> zslice o n bs = slice o n bs.
Proof.
  intros Hl. apply list_eq. intros i. rewrite lookup_zslice, lookup_slice. case_decide; [|done].
  destruct (lookup_lt_is_Some_2 bs (o + i)%nat) as [x ->]; [lia|done].
Qed.

Lemma pwrite_total (bs d : list Z) (o i : nat) :
  default 0 (pwrite bs o d !! i) =
  if decide (o <= i < o + length d)%nat then default 0 (d !! (i - o)%nat) else default 0 (bs !! i).
Proof.
  unfold pwrite. destruct (decide (i < o)%nat) as [Hi|Hi].
  - rewrite decide_False by lia.
    rewrite lookup_app_l by (rewrite length_take, length_app, length_replicate; lia).
    rewrite lookup_take_lt, lookup_app by lia. destruct (bs !! i) eqn:E; [done|].
    apply lookup_ge_None in E. rewrite lookup_replicate_2; [done|lia].
  - assert (length (take o (bs ++ replicate (o - length bs) 0)) = o) as Hl
      by (rewrite length_take, length_app, length_replicate; lia).
    rewrite lookup_app_r, Hl by lia. case_decide.
    + by rewrite lookup_app_l by lia.
    + rewrite lookup_app_r, lookup_drop by lia. do 2 f_equal. lia.
Qed.

Lemma length_pwrite (bs d : list Z) (o : nat) :
  length (pwrite bs o d) = (Nat.max (length bs) (o + length d))%nat.
Proof.
  unfold pwrite. rewrite !length_app, length_take, length_drop, length_app, length_replicate. lia.
Qed.

Lemma zslice_pwrite_same (bs d : list Z) (o : nat) : zslice o (length d) (pwrite bs o d) = d.
Proof.
  apply list_eq. intros i. rewrite lookup_zslice, pwrite_total. case_decide.
  - rewrite decide_True by lia. replace (o + i - o)%nat with i by lia.
    destruct (lookup_lt_is_Some_2 d i) as [x ->]; [lia|done].
  - symmetry. apply lookup_ge_None. lia.
Qed.

Lemma zslice_pwrite_disjoint (bs d : list Z) (o o' n : nat) :
  (o' + n <= o)%nat \/ (o + length d <= o')%nat ->
  zslice o' n (pwrite bs o d) = zslice o' n bs.
Proof.
  intros Hd. apply list_eq. intros i. rewrite !lookup_zslice, pwrite_total.
  case_decide; [|done]. by rewrite decide_False by lia.
Qed.

(** ** Page writes and reads *)

Lemma sys_inv {A} (f : FS -> A * FS) (d d' : DiskManager) (r : outcome A) :
  sys f d = (r, d') -> exists a, r = Ret a /\ f (dm_fs d) = (a, dm_fs d') /\ d' = set_fs (dm_fs d') d.
Proof. unfold sys. destruct (f (dm_fs d)) as [a fs] eqn:E. intros [= <- <-]. eauto. Qed.

Lemma int_op_Ret {S} (z : Z) (s : S) : in_i32 z = true -> int_op z s = (Ret z, s).
Proof. unfold int_op. by intros ->. Qed.

Lemma int_op_inv {S} (z r : Z) (s s' : S) : int_op z s = (Ret r, s') -> r = z /\ s' = s /\ in_i32 z = true.
Proof. unfold int_op. destruct (in_i32 z) eqn:E; [|done]. by intros [= <- <-]. Qed.

Lemma page_no_ok_off (page_no : Z) : page_no_ok page_no = true -> in_i32 (page_no * PAGE_SIZE) = true.
Proof. unfold page_no_ok, in_i32, INT32_MIN, INT32_MAX, PAGE_SIZE. lia. Qed.

Lemma page_off_off (page_no : Z) : page_off page_no = Z.to_nat (page_no * PAGE_SIZE).
Proof. done. Qed.

Lemma page_off_disjoint (p q : Z) :
  0 <= p -> 0 <= q -> p <> q ->
  (page_off q + page_len <= page_off p)%nat \/ (page_off p + page_len <= page_off q)%nat.
Proof. unfold page_off, page_len, PAGE_SIZE. lia. Qed.

(** Everything but the file system is untouched. *)
Definition same_tables (d d' : DiskManager) : Prop :=
  path2fd_ d' = path2fd_ d /\ fd2path_ d' = fd2path_ d /\ log_fd_ d' = log_fd_ d /\
  fd2pageno_ d' = fd2pageno_ d.

Lemma set_fs_tables (fs : FS) (d : DiskManager) : same_tables d (set_fs fs d).
Proof. done. Qed.

Lemma set_fs_set_fs (fs fs' : FS) (d : DiskManager) : set_fs fs (set_fs fs' d) = set_fs fs d.
Proof. done. Qed.

(** What a page write that returns has done. *)
Record page_written (d d' : DiskManager) (fd page_no : Z) (data : list Z) : Prop := {
  pw_tables : same_tables d d';
  pw_ino : forall x, fd_ino (dm_fs d') x = fd_ino (dm_fs d) x;
  pw_nonneg : 0 <= page_no;
  pw_open : fd_open d fd;
  pw_page : disk_page d' fd page_no = data;
  pw_present : page_present d' fd page_no;
  pw_other : fd_distinct (dm_fs d) -> forall fd' p, 0 <= p -> (fd', p) <> (fd, page_no) ->
    disk_page d' fd' p = disk_page d fd' p;
  pw_mono : forall fd' p, page_present d fd' p -> page_present d' fd' p
}.

Lemma write_page_inv (fd page_no : Z) (data : list Z) (d d' : DiskManager) :
  length data = page_len ->
  write_page fd page_no data PAGE_SIZE d = (Ret tt, d') ->
  page_written d d' fd page_no data.
Proof.
  intros Hlen Hrun. unfold write_page in Hrun.
  apply bind_Ret_inv in Hrun as (o & s1 & H1 & Hrun). apply int_op_inv in H1 as (-> & -> & Hr).
  apply bind_Ret_inv in Hrun as (pos & s2 & H2 & Hrun). apply sys_inv in H2 as (? & [= <-] & H2 & E2).
  destruct (Z.eqb_spec pos (-1)) as [|Hpos]; [done|].
  apply bind_Ret_inv in Hrun as (buf & s3 & H3 & Hrun).
  apply unwrap_inv in H3 as [H3 ->]. apply mem_read_Some in H3 as (_ & _ & _ & ->).
  rewrite (slice_all _ data) in Hrun by done.
  apply bind_Ret_inv in Hrun as (ws & s4 & H4 & Hrun). apply sys_inv in H4 as (? & [= <-] & H4 & E4).
  destruct (Z.eqb_spec ws PAGE_SIZE) as [->|]; [|done]. simpl in Hrun. injection Hrun as ->.
  destruct (lseek_law _ _ _ _ _ H2) as (Hi2 & Hb2 & Hp2). specialize (Hp2 Hpos) as (-> & Hnn & Hp2).
  destruct (write_law _ _ _ _ _ H4) as (Hi4 & Ho4 & Hw4).
  destruct Hw4 as (i & Hi & Hw4); [by rewrite Hlen|].
  rewrite Hp2 in Hw4. fold (page_off page_no) in Hw4. rewrite Hb2 in Hw4.
  assert (forall x, fd_ino (dm_fs d') x = fd_ino (dm_fs d) x) as Hino.
  { intros x. by rewrite Hi4, Hi2. }
  assert (fd_ino (dm_fs d) fd = Some i) as Hfd by by rewrite <- Hi2.
  assert (forall j, j <> i -> ino_bytes (dm_fs d') j = ino_bytes (dm_fs d) j) as Hoth.
  { intros j Hj. rewrite Ho4, Hb2; [done|congruence]. }
  assert (0 <= page_no) by (unfold PAGE_SIZE in Hnn; lia).
  split; [|done|done|by exists i| | | |].
  - rewrite E4, E2. done.
  - unfold disk_page, file_bytes. rewrite Hino, Hfd. simpl. rewrite Hw4, <- Hlen.
    apply zslice_pwrite_same.
  - unfold page_present, file_bytes. rewrite Hino, Hfd. simpl. rewrite Hw4, length_pwrite, Hlen. lia.
  - intros Hd fd' p Hp Hne. unfold disk_page, file_bytes. rewrite Hino.
    destruct (fd_ino (dm_fs d) fd') as [j|] eqn:Ej; [|done]. simpl.
    destruct (decide (j = i)) as [->|Hj]; [|by rewrite Hoth].
    assert (fd' = fd) as -> by (by eapply Hd). rewrite Hw4.
    apply zslice_pwrite_disjoint. rewrite Hlen. apply page_off_disjoint; [done|done|congruence].
  - intros fd' p. unfold page_present, file_bytes. rewrite Hino.
    destruct (fd_ino (dm_fs d) fd') as [j|] eqn:Ej; [|done]. simpl.
    destruct (decide (j = i)) as [->|Hj]; [|by rewrite Hoth].
    rewrite Hw4, length_pwrite. lia.
Qed.

Lemma read_page_inv (fd page_no : Z) (buf buf' : list Z) (d d' : DiskManager) :
  length buf = page_len ->
  read_page fd page_no PAGE_SIZE (d, buf) = (Ret tt, (d', buf')) ->
  buf' = disk_page d fd page_no /\ page_present d fd page_no /\ same_tables d d' /\
  (forall x, fd_ino (dm_fs d') x = fd_ino (dm_fs d) x) /\
  (forall i, ino_bytes (dm_fs d') i = ino_bytes (dm_fs d) i).
Proof.
  intros Hlen Hrun. unfold read_page in Hrun.
  apply bind_Ret_inv in Hrun as (o & s1 & H1 & Hrun). apply int_op_inv in H1 as (-> & -> & Hr).
  apply bind_Ret_inv in Hrun as (pos & s2 & H2 & Hrun). apply zoom_inv in H2 as (d2 & H2 & ->).
  apply sys_inv in H2 as (? & [= <-] & H2 & E2). simpl in H2, E2.
  destruct (Z.eqb_spec pos (-1)) as [|Hpos]; [done|].
  apply bind_Ret_inv in Hrun as (b & s3 & H3 & Hrun). unfold gets in H3. injection H3 as <- <-.
  apply bind_Ret_inv in Hrun as (b & s3 & H3 & Hrun). simpl in H3.
  apply unwrap_inv in H3 as [H3 ->]. clear H3.
  apply bind_Ret_inv in Hrun as ([rs got] & s4 & H4 & Hrun). apply zoom_inv in H4 as (d4 & H4 & ->).
  apply sys_inv in H4 as (? & [= <-] & H4 & E4). simpl in H4, E4, Hrun.
  apply bind_Ret_inv in Hrun as ([] & s5 & H5 & Hrun). unfold modify in H5. injection H5 as <-.
  destruct (Z.eqb_spec rs PAGE_SIZE) as [->|]; [|done]. simpl in Hrun. apply pair_eq in Hrun as [_ Hrun]. apply pair_eq in Hrun as [-> <-].
  destruct (lseek_law _ _ _ _ _ H2) as (Hi2 & Hb2 & Hp2). specialize (Hp2 Hpos) as (-> & Hnn & Hp2).
  destruct (read_law _ _ _ _ _ _ H4) as (Hi4 & Hb4 & Hr4).
  destruct Hr4 as (i & Hi & Hl & ->); [done|done|].
  rewrite Hp2, !Hb2 in *. rewrite Hi2 in Hi. fold (page_off page_no).
  change (Z.to_nat PAGE_SIZE) with page_len.
  assert (page_off page_no + page_len <= length (ino_bytes (dm_fs d) i))%nat as Hfit.
  { unfold page_off, page_len. unfold PAGE_SIZE in *. lia. }
  unfold disk_page, page_present, file_bytes. rewrite Hi. simpl.
  rewrite zslice_slice by done. split_and!; try done.
  - rewrite take_ge by (rewrite length_slice; lia). unfold splice.
    rewrite length_slice, drop_ge by lia. simpl. by rewrite app_nil_r.
  - unfold PAGE_SIZE in Hnn. lia.
  - by rewrite E4, E2.
  - intros x. by rewrite Hi4, Hi2.
  - intros j. by rewrite Hb4, Hb2.
Qed.

(** A write inside the first page leaves every other page alone. *)
Lemma write_header_inv (fd : Z) (data : list Z) (n : Z) (d d' : DiskManager) :
  Z.of_nat (length data) = n -> n <= PAGE_SIZE -> fd_distinct (dm_fs d) ->
  write_page fd 0 data n d = (Ret tt, d') ->
  same_tables d d' /\ (forall x, fd_ino (dm_fs d') x = fd_ino (dm_fs d) x) /\
  (forall fd' p, 1 <= p -> disk_page d' fd' p = disk_page d fd' p) /\
  (forall fd' p, page_present d fd' p -> page_present d' fd' p).
Proof.
  intros Hlen Hn Hd Hrun. unfold write_page in Hrun.
  apply bind_Ret_inv in Hrun as (o & s1 & H1 & Hrun). apply int_op_inv in H1 as (-> & -> & Hr).
  apply bind_Ret_inv in Hrun as (pos & s2 & H2 & Hrun). apply sys_inv in H2 as (? & [= <-] & H2 & E2).
  destruct (Z.eqb_spec pos (-1)) as [|Hpos]; [done|].
  apply bind_Ret_inv in Hrun as (buf & s3 & H3 & Hrun).
  apply unwrap_inv in H3 as [H3 ->]. apply mem_read_Some in H3 as (_ & _ & _ & ->).
  rewrite (slice_all _ data) in Hrun by lia.
  apply bind_Ret_inv in Hrun as (ws & s4 & H4 & Hrun). apply sys_inv in H4 as (? & [= <-] & H4 & E4).
  destruct (Z.eqb_spec ws n) as [->|]; [|done]. simpl in Hrun. injection Hrun as ->.
  destruct (lseek_law _ _ _ _ _ H2) as (Hi2 & Hb2 & Hp2). specialize (Hp2 Hpos) as (-> & _ & Hp2).
  destruct (write_law _ _ _ _ _ H4) as (Hi4 & Ho4 & Hw4). destruct Hw4 as (i & Hi & Hw4); [done|].
  rewrite Hp2, Hb2 in Hw4. rewrite Hi2 in Hi.
  assert (forall x, fd_ino (dm_fs d') x = fd_ino (dm_fs d) x) as Hino by (intros x; by rewrite Hi4, Hi2).
  assert (forall j, j <> i -> ino_bytes (dm_fs d') j = ino_bytes (dm_fs d) j) as Hoth.
  { intros j Hj. rewrite Ho4, Hb2; [done|]. rewrite Hi2. congruence. }
  split_and!; [by rewrite E4, E2|done| |].
  - intros fd' p Hp. unfold disk_page, file_bytes. rewrite Hino.
    destruct (fd_ino (dm_fs d) fd') as [j|] eqn:Ej; [|done]. simpl.
    destruct (decide (j = i)) as [->|Hj]; [|by rewrite Hoth]. rewrite Hw4.
    apply zslice_pwrite_disjoint. right. unfold page_off, PAGE_SIZE in *. lia.
  - intros fd' p. unfold page_present, file_bytes. rewrite Hino.
    destruct (fd_ino (dm_fs d) fd') as [j|] eqn:Ej; [|done]. simpl.
    destruct (decide (j = i)) as [->|Hj]; [|by rewrite Hoth]. rewrite Hw4, length_pwrite. lia.
Qed.

(** Reads change nothing the page view sees. *)
Lemma page_view_ext (d d' : DiskManager) :
  (forall x, fd_ino (dm_fs d') x = fd_ino (dm_fs d) x) ->
  (forall i, ino_bytes (dm_fs d') i = ino_bytes (dm_fs d) i) ->
  (forall fd p, disk_page d' fd p = disk_page d fd p) /\
  (forall fd p, page_present d' fd p <-> page_present d fd p).
Proof.
  intros Hi Hb. assert (forall fd, file_bytes d' fd = file_bytes d fd) as E.
  { intros fd. unfold file_bytes. rewrite Hi. destruct (fd_ino _ fd); [|done]. simpl. by rewrite Hb. }
  split; intros fd p; [unfold disk_page|unfold page_present]; by rewrite E.
Qed.

Lemma page_written_distinct (d d' : DiskManager) (fd p : Z) (data : list Z) :
  page_written d d' fd p data -> fd_distinct (dm_fs d) -> fd_distinct (dm_fs d').
Proof. intros W Hd x y i. rewrite !(pw_ino _ _ _ _ _ W). apply Hd. Qed.

Lemma allocate_page_inv (fd : Z) (d d' : DiskManager) (n : Z) :
  allocate_page fd d = (Ret n, d') ->
  fd_in_range fd = true /\ n = default 0 (fd2pageno_ d !! fd) /\
  d' = set_pageno (<[fd := n + 1]> (fd2pageno_ d)) d.
Proof.
  intros Hrun. unfold allocate_page in Hrun.
  apply bind_Ret_inv in Hrun as ([] & s1 & H1 & Hrun). apply assert_inv in H1 as [Hr ->].
  apply bind_Ret_inv in Hrun as (m & s2 & H2 & Hrun). unfold get_fd2pageno in H2. rewrite Hr in H2.
  injection H2 as <- <-.
  apply bind_Ret_inv in Hrun as (m' & s3 & H3 & Hrun). apply int_op_inv in H3 as (-> & -> & _).
  apply bind_Ret_inv in Hrun as ([] & s4 & H4 & Hrun). unfold set_fd2pageno in H4. rewrite Hr in H4.
  injection H4 as <-. injection Hrun as <- <-. done.
Qed.

Lemma allocate_page_run (fd : Z) (d : DiskManager) (n : Z) :
  fd_in_range fd = true -> n = default 0 (fd2pageno_ d !! fd) -> in_i32 (n + 1) = true ->
  allocate_page fd d = (Ret n, set_pageno (<[fd := n + 1]> (fd2pageno_ d)) d).
Proof.
  intros Hr -> Hn. unfold allocate_page. erewrite bind_run by (rewrite Hr; reflexivity).
  erewrite bind_run by (unfold get_fd2pageno; rewrite Hr; reflexivity).
  erewrite bind_run by (by apply int_op_Ret).
  by erewrite bind_run by (unfold set_fd2pageno; rewrite Hr; reflexivity).
Qed.

(** ** Progress *)

Lemma write_bytes_run {FR : FileSystemReliable} (fd page_no : Z) (data : list Z) (n : Z) (d : DiskManager) :
  Z.of_nat (length data) = n -> page_no_ok page_no = true -> fd_open d fd ->
  exists d', write_page fd page_no data n d = (Ret tt, d').
Proof.
  intros Hlen Hp Hfd. unfold write_page.
  rewrite (bind_run _ _ _ _ _ (int_op_Ret _ d (page_no_ok_off _ Hp))).
  destruct (sys_lseek (dm_fs d) fd (page_no * PAGE_SIZE)) as [r fs1] eqn:E1.
  assert (r = page_no * PAGE_SIZE) as ->.
  { pose proof (lseek_ok (dm_fs d) fd (page_no * PAGE_SIZE) Hfd) as L. rewrite E1 in L. apply L.
    unfold page_no_ok, PAGE_SIZE in *. lia. }
  erewrite bind_run by (unfold sys; rewrite E1; reflexivity).
  destruct (Z.eqb_spec (page_no * PAGE_SIZE) (-1)); [unfold page_no_ok, PAGE_SIZE in *; lia|].
  assert (mem_read 0 n data = Some data) as Hm.
  { apply mem_read_Some. split_and!; [done|lia|lia|]. symmetry. apply slice_all. lia. }
  erewrite bind_run by (rewrite Hm; reflexivity).
  destruct (sys_write fs1 fd data) as [w fs2] eqn:E2.
  assert (w = n) as ->.
  { pose proof (write_ok fs1 fd data) as L. rewrite E2 in L. simpl in L. rewrite L.
    - done.
    - destruct (lseek_law _ _ _ _ _ E1) as (Hi & _ & _). by rewrite Hi. }
  erewrite bind_run by (unfold sys; simpl; rewrite E2; reflexivity).
  rewrite Z.eqb_refl. eexists. reflexivity.
Qed.

Lemma write_page_run {FR : FileSystemReliable} (fd page_no : Z) (data : list Z) (d : DiskManager) :
  length data = page_len -> page_no_ok page_no = true -> fd_open d fd ->
  exists d', write_page fd page_no data PAGE_SIZE d = (Ret tt, d').
Proof. intros Hlen. apply write_bytes_run. rewrite Hlen. done. Qed.

Lemma read_page_run {FR : FileSystemReliable} (fd page_no : Z) (buf : list Z) (d : DiskManager) :
  length buf = page_len -> page_no_ok page_no = true -> page_present d fd page_no ->
  exists d', read_page fd page_no PAGE_SIZE (d, buf) = (Ret tt, (d', disk_page d fd page_no)).
Proof.
  intros Hlen Hp Hpres.
  assert (exists s', read_page fd page_no PAGE_SIZE (d, buf) = (Ret tt, s')) as [[d' b'] E].
  2: { destruct (read_page_inv _ _ _ _ _ _ Hlen E) as (-> & _). by exists d'. }
  unfold page_present, file_bytes in Hpres.
  destruct (fd_ino (dm_fs d) fd) as [i|] eqn:Ei; [|done]. simpl in Hpres. destruct Hpres as [Hp0 Hl].
  unfold read_page. erewrite bind_run by (apply int_op_Ret, page_no_ok_off, Hp).
  destruct (sys_lseek (dm_fs d) fd (page_no * PAGE_SIZE)) as [r fs1] eqn:E1.
  assert (r = page_no * PAGE_SIZE) as ->.
  { pose proof (lseek_ok (dm_fs d) fd (page_no * PAGE_SIZE)) as L. rewrite E1 in L. apply L; [by rewrite Ei|].
    unfold page_no_ok, PAGE_SIZE in *. lia. }
  erewrite bind_run by (apply zoom_run; unfold sys; simpl; rewrite E1; reflexivity).
  destruct (Z.eqb_spec (page_no * PAGE_SIZE) (-1)); [unfold page_no_ok, PAGE_SIZE in *; lia|].
  erewrite bind_run by reflexivity. simpl.
  assert (exists x, mem_read 0 PAGE_SIZE buf = Some x) as [x Hm].
  { unfold mem_read. rewrite Hlen. change (Z.of_nat page_len) with PAGE_SIZE. by eexists. }
  erewrite bind_run by (rewrite Hm; reflexivity).
  destruct (sys_read fs1 fd PAGE_SIZE) as [[rr got] fs2] eqn:E2.
  destruct (lseek_law _ _ _ _ _ E1) as (Hi & Hb & Hpos).
  destruct Hpos as (_ & _ & Hpos); [unfold page_no_ok, PAGE_SIZE in *; lia|].
  assert (rr = PAGE_SIZE) as ->.
  { pose proof (read_ok fs1 fd PAGE_SIZE i) as L. rewrite E2 in L. simpl in L.
    rewrite Hi, Hpos, Hb in L. apply L; [done|done|unfold PAGE_SIZE; lia|].
    unfold page_off, page_len, PAGE_SIZE in *. lia. }
  erewrite bind_run by (apply zoom_run; unfold sys; simpl; rewrite E2; reflexivity).
  eexists. reflexivity.
Qed.

(** The byte offset of a page past the first 2^19 does not fit an [int]. *)
Lemma write_page_overflow (fd page_no : Z) (data : list Z) (d : DiskManager) :
  2 ^ 19 <= page_no -> write_page fd page_no data PAGE_SIZE d = (Stuck SignedOverflow, d).
Proof.
  intros Hp. unfold write_page, mbind, M_bind, int_op, in_i32, INT32_MIN, INT32_MAX, PAGE_SIZE.
  destruct (Z.leb_spec (page_no * 4096) (2 ^ 31 - 1)); [lia|]. by rewrite andb_false_r.
Qed.

(** ** The open-file tables *)

(** [path2fd_] and [fd2path_] are inverse, and list exactly open descriptors. *)
Record tables_ok (d : DiskManager) : Prop := {
  to_inv : forall path fd, path2fd_ d !! path = Some fd <-> fd2path_ d !! fd = Some path;
  to_open : forall fd path, fd2path_ d !! fd = Some path -> fd_open d fd
}.

Lemma open_file_inv (path : string) (d d' : DiskManager) (fd : Z) :
  open_file path d = (Ret fd, d') ->
  path2fd_ d !! path = None /\ sys_open (dm_fs d) path = (inr fd, dm_fs d') /\
  d' = set_files (<[path := fd]> (path2fd_ d)) (<[fd := path]> (fd2path_ d)) (set_fs (dm_fs d') d).
Proof.
  intros Hrun. unfold open_file in Hrun.
  apply bind_Ret_inv in Hrun as (o & s1 & H1 & Hrun). unfold gets in H1. injection H1 as <- <-.
  destruct (path2fd_ d !! path) eqn:Ep; [done|].
  apply bind_Ret_inv in Hrun as (r & s2 & H2 & Hrun). apply sys_inv in H2 as (? & [= <-] & H2 & E2).
  destruct r as [[]|fd']; [done|done|done|].
  unfold mbind, M_bind, modify in Hrun. injection Hrun as <- <-. simpl. split; [done|]. split; [done|].
  by rewrite E2.
Qed.

Lemma open_file_tables (path : string) (d d' : DiskManager) (fd : Z) :
  tables_ok d -> open_file path d = (Ret fd, d') -> tables_ok d' /\ path2fd_ d' !! path = Some fd.
Proof.
  intros [T1 T2] Hrun. apply open_file_inv in Hrun as (Ep & Ho & ->).
  destruct (open_law _ _ _ _ Ho) as (_ & Hnone & Hsome & Hoth & _). simpl in *.
  assert (fd2path_ d !! fd = None) as Efd.
  { destruct (fd2path_ d !! fd) as [q|] eqn:E; [|done]. apply T2 in E as [? E]. congruence. }
  split; [|by rewrite lookup_insert_eq]. split; simpl.
  - intros p f. rewrite !lookup_insert_Some, T1. split.
    + intros [[<- <-]|[Hp Hf]]; [by left|]. right. split; [intros ->; congruence|done].
    + intros [[<- <-]|[Hf Hp]]; [by left|]. right. split; [|done].
      intros ->. apply T1 in Hp. congruence.
  - intros f p. unfold fd_open. simpl. rewrite lookup_insert_Some. intros [[<- _]|[Hf Hp]]; [done|].
    rewrite Hoth by done. by eapply T2.
Qed.

Lemma close_file_tables (fd : Z) (d d' : DiskManager) :
  tables_ok d -> close_file fd d = (Ret tt, d') ->
  tables_ok d' /\ fd2path_ d' !! fd = None /\ default 0 (fd2pageno_ d' !! fd) = 0.
Proof.
  intros [T1 T2] Hrun. unfold close_file in Hrun.
  apply bind_Ret_inv in Hrun as (o & s1 & H1 & Hrun). unfold gets in H1. injection H1 as <- <-.
  destruct (fd2path_ d !! fd) as [path|] eqn:Ep; [|done].
  unfold mbind, M_bind, modify, sys, set_fd2pageno in Hrun. simpl in Hrun.
  destruct (fd_in_range fd); [|done]. injection Hrun as <-. simpl.
  destruct (close_law (dm_fs d) fd) as (_ & Hoth & _).
  rewrite lookup_delete_eq, lookup_insert_eq. split; [|done]. split; simpl.
  - intros p f. rewrite !lookup_delete_Some, T1. split; intros [? Hf]; split; try done.
    + intros ->. congruence.
    + intros ->. apply T1 in Hf, Ep. congruence.
  - intros f p. unfold fd_open. simpl. rewrite lookup_delete_Some. intros [Hf Hp].
    rewrite Hoth by done. by eapply T2.
Qed.

End views.
End Disk.
