(* ===== verification/BufferPool.v ===== *)
(** * The buffer pool ([src/src/storage/buffer_pool_manager.{h,cpp}], [page.h])

    [BufferPoolManager] caches disk pages in an array of frames.  The model is
    generic in the replacement policy (the [Replacer] interface) and in the
    operating system (the [FileSystem] interface); [Lru] and [MemFS] instantiate
    both.  A [Page*] is the index of its frame.  [latch_] makes every public
    operation atomic, so an interleaving of threads is a sequence of operations.

    An [unordered_map] is traversed in an unspecified order: the operations that
    iterate over [page_table_] take the traversal as an argument. *)

From S2P Require Import Prelude Bytes Posix Disk Replacer.
Import Disk.

(** ** Pages *)

Record PageId : Type := mkPageId { fd : Z; page_no : Z }.

#[export] Instance PageId_eq_dec : EqDecision PageId.
Proof. solve_decision. Defined.
#[export] Program Instance PageId_countable : Countable PageId :=
  inj_countable' (fun p => (fd p, page_no p)) (fun q => mkPageId q.1 q.2) _.
Next Obligation. by intros []. Qed.

(** [PageId::operator<] *)
Definition PageId_ltb (a b : PageId) : bool := (fd a <? fd b) || (page_no a <? page_no b).

Record Page : Type := mkPage {
  id_ : PageId;
  data_ : list Z;
  is_dirty_ : bool;
  pin_count_ : Z
}.

Definition set_id (i : PageId) (p : Page) : Page :=
  {| id_ := i; data_ := data_ p; is_dirty_ := is_dirty_ p; pin_count_ := pin_count_ p |}.
Definition set_data (d : list Z) (p : Page) : Page :=
  {| id_ := id_ p; data_ := d; is_dirty_ := is_dirty_ p; pin_count_ := pin_count_ p |}.
Definition set_dirty (b : bool) (p : Page) : Page :=
  {| id_ := id_ p; data_ := data_ p; is_dirty_ := b; pin_count_ := pin_count_ p |}.
Definition set_pin (n : Z) (p : Page) : Page :=
  {| id_ := id_ p; data_ := data_ p; is_dirty_ := is_dirty_ p; pin_count_ := n |}.

Definition zero_page : list Z := replicate page_len 0.
Definition reset_memory (p : Page) : Page := set_data zero_page p.

Definition OFFSET_PAGE_HDR : Z := 4.
Definition get_page_lsn (p : Page) : Z := i32_val (slice 0 4 (data_ p)).
Definition set_page_lsn (page_lsn : Z) (p : Page) : Page :=
  set_data (splice 0 (i32_bytes page_lsn) (data_ p)) p.

Module Bpm.
Section bpm.
Context {R : Type} `{Replacer R} `{FileSystem}.

Record BufferPoolManager : Type := mkBPM {
  pool_size_ : Z;
  pages_ : list Page;
  page_table_ : gmap PageId Z;
  free_list_ : list Z;
  replacer_ : R;
  disk_manager_ : DiskManager
}.

Definition set_pages (x : list Page) (s : BufferPoolManager) : BufferPoolManager :=
  {| pool_size_ := pool_size_ s; pages_ := x; page_table_ := page_table_ s;
     free_list_ := free_list_ s; replacer_ := replacer_ s; disk_manager_ := disk_manager_ s |}.
Definition set_table (x : gmap PageId Z) (s : BufferPoolManager) : BufferPoolManager :=
  {| pool_size_ := pool_size_ s; pages_ := pages_ s; page_table_ := x;
     free_list_ := free_list_ s; replacer_ := replacer_ s; disk_manager_ := disk_manager_ s |}.
Definition set_free (x : list Z) (s : BufferPoolManager) : BufferPoolManager :=
  {| pool_size_ := pool_size_ s; pages_ := pages_ s; page_table_ := page_table_ s;
     free_list_ := x; replacer_ := replacer_ s; disk_manager_ := disk_manager_ s |}.
Definition set_replacer (x : R) (s : BufferPoolManager) : BufferPoolManager :=
  {| pool_size_ := pool_size_ s; pages_ := pages_ s; page_table_ := page_table_ s;
     free_list_ := free_list_ s; replacer_ := x; disk_manager_ := disk_manager_ s |}.
Definition set_disk (x : DiskManager) (s : BufferPoolManager) : BufferPoolManager :=
  {| pool_size_ := pool_size_ s; pages_ := pages_ s; page_table_ := page_table_ s;
     free_list_ := free_list_ s; replacer_ := replacer_ s; disk_manager_ := x |}.

(** The constructor.  [PageId::fd] has no initializer: [garbage] is what the
    memory held. *)
Definition make (garbage : Z) (pool_size : nat) (d : DiskManager) : BufferPoolManager :=
  {| pool_size_ := Z.of_nat pool_size;
     pages_ := replicate pool_size
       {| id_ := mkPageId garbage INVALID_PAGE_ID; data_ := zero_page; is_dirty_ := false; pin_count_ := 0 |};
     page_table_ := ∅;
     free_list_ := Z.of_nat <$> seq 0 pool_size;
     replacer_ := rp_new (Z.of_nat pool_size);
     disk_manager_ := d |}.

(** [pages_[f]] *)
Definition frame (s : BufferPoolManager) (f : Z) : option Page :=
  if 0 <=? f then pages_ s !! Z.to_nat f else None.
Definition put_frame (f : Z) (p : Page) (s : BufferPoolManager) : BufferPoolManager :=
  set_pages (<[Z.to_nat f := p]> (pages_ s)) s.

Definition get_frame (f : Z) : M BufferPoolManager Page := fun s =>
  match frame s f with Some p => (Ret p, s) | None => (Stuck OutOfBounds, s) end.
Definition upd_frame (f : Z) (g : Page -> Page) : M BufferPoolManager unit :=
  p ← get_frame f; modify (put_frame f (g p)).

Definition on_replacer {A} (m : M R A) : M BufferPoolManager A := zoom replacer_ set_replacer m.
Definition on_disk {A} (m : M DiskManager A) : M BufferPoolManager A := zoom disk_manager_ set_disk m.

Definition find_victim_page : M BufferPoolManager (option Z) :=
  free ← gets free_list_;
  match free with
  | frame_id :: rest => modify (set_free rest) ;; mret (Some frame_id)
  | [] => on_replacer rp_victim
  end.

(** [page] is the frame of the [Page*] argument. *)
Definition update_page (page : Z) (new_page_id : PageId) (new_frame_id : Z) : M BufferPoolManager unit :=
  p ← get_frame page;
  (if is_dirty_ p then
     on_disk (write_page (fd (id_ p)) (page_no (id_ p)) (data_ p) PAGE_SIZE) ;;
     upd_frame page (set_dirty false)
   else mret tt) ;;
  modify (fun s => set_table (delete (id_ p) (page_table_ s)) s) ;;
  if new_frame_id =? INVALID_FRAME_ID then mret tt else
  upd_frame page (set_id new_page_id) ;;
  (* unordered_map::emplace keeps an existing entry *)
  modify (fun s => set_table
    (match page_table_ s !! new_page_id with
     | Some _ => page_table_ s
     | None => <[new_page_id := new_frame_id]> (page_table_ s)
     end) s).

(** [read_page] into the frame's [data_]. *)
Definition read_into (f : Z) (pid : PageId) : M BufferPoolManager unit :=
  p ← get_frame f;
  zoom (fun s => (disk_manager_ s, data_ p))
       (fun r s => put_frame f (set_data r.2 p) (set_disk r.1 s))
       (read_page (fd pid) (page_no pid) PAGE_SIZE).

Definition incr_pin (f : Z) : M BufferPoolManager unit :=
  p ← get_frame f;
  n ← int_op (pin_count_ p + 1);
  upd_frame f (set_pin n).

(** [Page*] result: [None] is [nullptr]. *)
Definition fetch_page (page_id : PageId) : M BufferPoolManager (option Z) :=
  record ← gets (fun s => page_table_ s !! page_id);
  match record with
  | Some target_frame_id =>
      on_replacer (rp_pin target_frame_id) ;;
      incr_pin target_frame_id ;;
      mret (Some target_frame_id)
  | None =>
      victim ← find_victim_page;
      match victim with
      | None => mret None
      | Some victim_frame_id =>
          update_page victim_frame_id page_id victim_frame_id ;;
          read_into victim_frame_id page_id ;;
          on_replacer (rp_pin victim_frame_id) ;;
          incr_pin victim_frame_id ;;
          mret (Some victim_frame_id)
      end
  end.

Definition unpin_page (page_id : PageId) (is_dirty : bool) : M BufferPoolManager bool :=
  record ← gets (fun s => page_table_ s !! page_id);
  match record with
  | None => mret false
  | Some f =>
      p ← get_frame f;
      if pin_count_ p =? 0 then mret false else
      n ← int_op (pin_count_ p - 1);
      upd_frame f (set_pin n) ;;
      (if n =? 0 then on_replacer (rp_unpin f) else mret tt) ;;
      upd_frame f (fun p => set_dirty (is_dirty_ p || is_dirty) p) ;;
      mret true
  end.

Definition flush_page (page_id : PageId) : M BufferPoolManager bool :=
  record ← gets (fun s => page_table_ s !! page_id);
  match record with
  | None => mret false
  | Some f =>
      p ← get_frame f;
      on_disk (write_page (fd page_id) (page_no page_id) (data_ p) PAGE_SIZE) ;;
      upd_frame f (set_dirty false) ;;
      mret true
  end.

(** The [PageId*] argument carries the file in and the page number out. *)
Definition new_page (file : Z) : M BufferPoolManager (option (Z * PageId)) :=
  victim ← find_victim_page;
  match victim with
  | None => mret None
  | Some victim_frame_id =>
      n ← on_disk (allocate_page file);
      let page_id := mkPageId file n in
      update_page victim_frame_id page_id victim_frame_id ;;
      upd_frame victim_frame_id reset_memory ;;
      on_replacer (rp_pin victim_frame_id) ;;
      incr_pin victim_frame_id ;;
      mret (Some (victim_frame_id, page_id))
  end.

Definition delete_page (page_id : PageId) : M BufferPoolManager bool :=
  record ← gets (fun s => page_table_ s !! page_id);
  match record with
  | None => mret true
  | Some target_frame =>
      p ← get_frame target_frame;
      if negb (pin_count_ p =? 0) then mret false else
      update_page target_frame page_id INVALID_FRAME_ID ;;
      modify (fun s => set_free (free_list_ s ++ [target_frame]) s) ;;
      mret true
  end.

(** The first loop of [delete_all_page]: the frames to delete, or [None] when
    one of them is pinned. *)
Fixpoint collect_frames (file : Z) (order : list (PageId * Z)) : M BufferPoolManager (option (list Z)) :=
  match order with
  | [] => mret (Some [])
  | (page_id, frame_id) :: order =>
      if negb (fd page_id =? file) then collect_frames file order else
      p ← get_frame frame_id;
      if negb (pin_count_ p =? 0) then mret None else
      r ← collect_frames file order;
      mret (cons frame_id <$> r)
  end.

Definition delete_all_page (order : list (PageId * Z)) (file : Z) : M BufferPoolManager bool :=
  r ← collect_frames file order;
  match r with
  | None => mret false
  | Some target_frames =>
      forM target_frames (fun frame_id =>
        p ← get_frame frame_id;
        update_page frame_id (id_ p) INVALID_FRAME_ID ;;
        modify (fun s => set_free (free_list_ s ++ [frame_id]) s)) ;;
      mret true
  end.

Definition flush_all_pages (order : list (PageId * Z)) (file : Z) : M BufferPoolManager unit :=
  forM order (fun entry =>
    let '(page_id, frame_id) := entry in
    if negb (fd page_id =? file) then mret tt else
    p ← get_frame frame_id;
    on_disk (write_page file (page_no page_id) (data_ p) PAGE_SIZE) ;;
    upd_frame frame_id (set_dirty false)).

Definition flush_all_page (order : list (PageId * Z)) : M BufferPoolManager unit :=
  forM order (fun entry =>
    let '(page_id, frame_id) := entry in
    p ← get_frame frame_id;
    if negb (is_dirty_ p) then mret tt else
    on_disk (write_page (fd page_id) (page_no page_id) (data_ p) PAGE_SIZE) ;;
    upd_frame frame_id (set_dirty false)).

(** What a client does with a [Page*] it has fetched: change [data_] through
    [get_data()], or [mark_dirty]. *)
Definition modify_data (f : Z) (g : list Z -> list Z) : M BufferPoolManager unit :=
  upd_frame f (fun p => set_data (g (data_ p)) p).
Definition mark_dirty (f : Z) : M BufferPoolManager unit := upd_frame f (set_dirty true).

End bpm.
Arguments BufferPoolManager R {_}.
End Bpm.
