(* ===== verification/BufferPoolFacts.v ===== *)
(** * Correctness of the buffer pool

    [logical] is what the pool promises to its clients: the content of every
    page of every open file, wherever it is cached.  [inv] is the representation
    invariant.  Every operation preserves [inv] and either leaves [logical]
    alone or changes it at one page; [flush_*] make the disk agree with it. *)

From S2P Require Import Prelude Bytes Posix Disk Replacer BufferPool.
Import Disk.

Module BpmFacts.
Import Bpm.
Section facts.
Context {R : Type} {RO : Replacer R} {RL : ReplacerLaws R} {FO : FileSystem} {FL : FileSystemLaws}.
Abbreviation BPM := (BufferPoolManager R).
Implicit Types s : BPM.

Definition dpage (d : DiskManager) (pid : PageId) : list Z := disk_page d (fd pid) (page_no pid).
Definition present (d : DiskManager) (pid : PageId) : Prop := page_present d (fd pid) (page_no pid).

Definition logical (s : BPM) (pid : PageId) : list Z :=
  match page_table_ s !! pid ≫= frame s with
  | Some p => data_ p
  | None => dpage (disk_manager_ s) pid
  end.

(** The frame content and the disk agree. *)
Definition synced (d : DiskManager) (p : Page) : Prop :=
  dpage d (id_ p) = data_ p /\ present d (id_ p).

Record inv (s : BPM) : Prop := {
  i_len : Z.of_nat (length (pages_ s)) = pool_size_ s;
  i_data : forall f p, frame s f = Some p -> length (data_ p) = page_len;
  i_pin : forall f p, frame s f = Some p -> 0 <= pin_count_ p;
  i_table : forall pid f, page_table_ s !! pid = Some f ->
    (exists p, frame s f = Some p /\ id_ p = pid) /\ 0 <= page_no pid;
  i_free_nodup : NoDup (free_list_ s);
  i_free : forall f, f ∈ free_list_ s -> exists p, frame s f = Some p /\ pin_count_ p = 0 /\
    is_dirty_ p = false /\ page_table_ s !! id_ p = None;
  i_cover : forall f p, frame s f = Some p -> f ∈ free_list_ s \/ page_table_ s !! id_ p = Some f;
  i_repl : rp_inv (replacer_ s);
  i_evict : forall f, f ∈ rp_frames (replacer_ s) -> exists p, frame s f = Some p /\ pin_count_ p = 0;
  i_unpinned : forall f p, frame s f = Some p -> page_table_ s !! id_ p = Some f ->
    pin_count_ p = 0 -> f ∈ rp_frames (replacer_ s);
  i_fds : fd_distinct (dm_fs (disk_manager_ s));
  i_clean : forall f p, frame s f = Some p -> page_table_ s !! id_ p = Some f ->
    pin_count_ p = 0 -> is_dirty_ p = false -> synced (disk_manager_ s) p
}.

(** No frame waiting on the free list, the next one to be used apart, still
    carries the identity [pid]. *)
Definition not_stale (pid : PageId) (s : BPM) : Prop :=
  forall g p, g ∈ tail (free_list_ s) -> frame s g = Some p -> id_ p <> pid.

(** ** Frames *)

Lemma frame_put_eq (s : BPM) (f : Z) (p q : Page) :
  frame s f = Some p -> frame (put_frame f q s) f = Some q.
Proof.
  unfold frame, put_frame. simpl. destruct (0 <=? f); [|done]. intros H.
  apply list_lookup_insert_eq. by eapply lookup_lt_Some.
Qed.

Lemma frame_put_ne (s : BPM) (f g : Z) (p q : Page) :
  frame s f = Some p -> f <> g -> frame (put_frame f q s) g = frame s g.
Proof.
  unfold frame, put_frame. simpl. intros H Hne.
  destruct (Z.leb_spec 0 f); [|done]. destruct (Z.leb_spec 0 g); [|done].
  apply list_lookup_insert_ne. lia.
Qed.

Lemma frame_put (s : BPM) (f g : Z) (p q : Page) :
  frame s f = Some p ->
  frame (put_frame f q s) g = if decide (g = f) then Some q else frame s g.
Proof.
  intros H. case_decide as E; [subst; by eapply frame_put_eq|]. by eapply frame_put_ne.
Qed.

Lemma put_put (s : BPM) (f : Z) (p q : Page) : put_frame f q (put_frame f p s) = put_frame f q s.
Proof. unfold put_frame, set_pages. simpl. by rewrite list_insert_insert_eq. Qed.

Lemma length_put (s : BPM) (f : Z) (q : Page) : length (pages_ (put_frame f q s)) = length (pages_ s).
Proof. apply length_insert. Qed.

Lemma get_frame_run (s : BPM) (f : Z) (p : Page) : frame s f = Some p -> get_frame f s = (Ret p, s).
Proof. unfold get_frame. by intros ->. Qed.

Lemma get_frame_inv (s s' : BPM) (f : Z) (p : Page) :
  get_frame f s = (Ret p, s') -> frame s f = Some p /\ s' = s.
Proof. unfold get_frame. destruct (frame s f); [|done]. by intros [= -> ->]. Qed.

Lemma upd_frame_run (s : BPM) (f : Z) (g : Page -> Page) (p : Page) :
  frame s f = Some p -> upd_frame f g s = (Ret tt, put_frame f (g p) s).
Proof. intros H. unfold upd_frame. by rewrite (bind_run _ _ _ _ _ (get_frame_run _ _ _ H)). Qed.

Lemma upd_frame_inv (s s' : BPM) (f : Z) (g : Page -> Page) (u : unit) :
  upd_frame f g s = (Ret u, s') -> exists p, frame s f = Some p /\ s' = put_frame f (g p) s.
Proof.
  intros Hrun. unfold upd_frame in Hrun. apply bind_Ret_inv in Hrun as (p & s1 & H1 & Hrun).
  apply get_frame_inv in H1 as [H1 ->]. injection Hrun as _ <-. eauto.
Qed.

Lemma incr_pin_inv (s s' : BPM) (f : Z) (u : unit) :
  incr_pin f s = (Ret u, s') ->
  exists p, frame s f = Some p /\ s' = put_frame f (set_pin (pin_count_ p + 1) p) s.
Proof.
  intros Hrun. unfold incr_pin in Hrun. apply bind_Ret_inv in Hrun as (p & s1 & H1 & Hrun).
  apply get_frame_inv in H1 as [H1 ->].
  apply bind_Ret_inv in Hrun as (n & s2 & H2 & Hrun). apply int_op_inv in H2 as (-> & -> & _).
  apply upd_frame_inv in Hrun as (q & Hq & ->). exists p. by simplify_eq.
Qed.

Lemma incr_pin_run (s : BPM) (f : Z) (p : Page) :
  frame s f = Some p -> in_i32 (pin_count_ p + 1) = true ->
  incr_pin f s = (Ret tt, put_frame f (set_pin (pin_count_ p + 1) p) s).
Proof.
  intros H Hn. unfold incr_pin. rewrite (bind_run _ _ _ _ _ (get_frame_run _ _ _ H)).
  erewrite bind_run by (by apply int_op_Ret). by apply upd_frame_run.
Qed.

Lemma on_replacer_inv {A} (m : M R A) (s s' : BPM) (r : outcome A) :
  on_replacer m s = (r, s') -> exists x, m (replacer_ s) = (r, x) /\ s' = set_replacer x s.
Proof. apply zoom_inv. Qed.

Lemma on_disk_inv {A} (m : M DiskManager A) (s s' : BPM) (r : outcome A) :
  on_disk m s = (r, s') -> exists x, m (disk_manager_ s) = (r, x) /\ s' = set_disk x s.
Proof. apply zoom_inv. Qed.

(** ** Finding a frame *)

(** [s1] is [s] with frame [f] claimed from the free list or the replacer. *)
Record claimed (s : BPM) (f : Z) (s1 : BPM) : Prop := {
  cl_frame : exists p, frame s f = Some p /\ pin_count_ p = 0;
  cl_state : exists free r, s1 = set_free free (set_replacer r s);
  cl_repl : rp_inv (replacer_ s1);
  cl_frames : rp_frames (replacer_ s1) ⊆ rp_frames (replacer_ s) /\
    rp_frames (replacer_ s) ∖ {[f]} ⊆ rp_frames (replacer_ s1);
  cl_free : free_list_ s = f :: free_list_ s1 \/
    (free_list_ s = [] /\ free_list_ s1 = [] /\ exists p, frame s f = Some p /\ page_table_ s !! id_ p = Some f)
}.

Lemma find_victim_spec (s : BPM) :
  inv s -> exists o s1, find_victim_page s = (Ret o, s1) /\
    match o with
    | Some f => claimed s f s1
    | None => s1 = s /\ forall f p, frame s f = Some p -> 0 < pin_count_ p
    end.
Proof.
  intros I. unfold find_victim_page, gets. rewrite (bind_run _ _ s s (free_list_ s)) by done.
  destruct (free_list_ s) as [|f free] eqn:Ef.
  - destruct (rp_victim_ok _ (i_repl _ I)) as (o & r & Hv & Hr & Ho).
    exists o, (set_replacer r s). unfold on_replacer. split; [by apply zoom_run|].
    destruct o as [f|].
    + destruct Ho as [Hf Hfr]. destruct (i_evict _ I f Hf) as (p & Hp & Hpin). split.
      * eauto.
      * exists [], r. unfold set_free, set_replacer. simpl. by rewrite <- Ef.
      * done.
      * simpl. rewrite Hfr. set_solver.
      * right. simpl. split_and!; [done|done|]. exists p. split; [done|].
        destruct (i_cover _ I f p Hp) as [Hin|Hm]; [|done]. rewrite Ef in Hin. by apply elem_of_nil in Hin.
    + destruct Ho as [Hem ->]. split; [by destruct s|]. intros f p Hp.
      pose proof (i_pin _ I f p Hp). destruct (decide (pin_count_ p = 0)) as [E|]; [|lia].
      destruct (i_cover _ I f p Hp) as [Hin|Hm].
      * rewrite Ef in Hin. by apply elem_of_nil in Hin.
      * pose proof (i_unpinned _ I f p Hp Hm E). set_solver.
  - exists (Some f), (set_free free s). split; [done|]. split; simpl.
    + destruct (i_free _ I f) as (p & Hp & Hpin & _); [rewrite Ef; left|eauto].
    + exists free, (replacer_ s). by destruct s.
    + apply I.
    + set_solver.
    + left. done.
Qed.

(** ** Writing a frame back *)

(** The disk after a dirty page [p] has been written back, or a clean one left. *)
Record written_back (p : Page) (d d' : DiskManager) : Prop := {
  wb_page : forall pid, 0 <= page_no pid ->
    dpage d' pid = if decide (is_dirty_ p = true /\ pid = id_ p) then data_ p else dpage d pid;
  wb_present : forall pid, present d pid -> present d' pid;
  wb_dirty : is_dirty_ p = true -> present d' (id_ p);
  wb_ino : forall x, fd_ino (dm_fs d') x = fd_ino (dm_fs d) x;
  wb_pageno : fd2pageno_ d' = fd2pageno_ d
}.

Lemma written_back_fds (p : Page) (d d' : DiskManager) :
  written_back p d d' -> fd_distinct (dm_fs d) -> fd_distinct (dm_fs d').
Proof. intros W Hd x y i. rewrite !(wb_ino _ _ _ W). apply Hd. Qed.

Lemma written_back_refl (p : Page) (d : DiskManager) : is_dirty_ p = false -> written_back p d d.
Proof.
  intros E. split; [|done|by rewrite E|done|done]. intros pid _. rewrite decide_False; [done|].
  rewrite E. naive_solver.
Qed.

Lemma written_back_write (p : Page) (d d' : DiskManager) :
  length (data_ p) = page_len -> fd_distinct (dm_fs d) -> is_dirty_ p = true ->
  write_page (fd (id_ p)) (page_no (id_ p)) (data_ p) PAGE_SIZE d = (Ret tt, d') ->
  written_back p d d'.
Proof.
  intros Hl Hd Hdirty Hrun. apply write_page_inv in Hrun as W; [|done]. split.
  - intros [x y] Hn. case_decide as E.
    + destruct E as [_ ->]. apply W.
    + unfold dpage. simpl in *. apply (pw_other _ _ _ _ _ W Hd); [done|].
      destruct (id_ p) as [x' y']. simpl. intros [= -> ->]. naive_solver.
  - intros pid. apply W.
  - intros _. apply W.
  - apply W.
  - apply W.
Qed.

(** A later step that leaves the page view alone. *)
Lemma written_back_view (p : Page) (d d' d2 : DiskManager) :
  written_back p d d' ->
  (forall x, fd_ino (dm_fs d2) x = fd_ino (dm_fs d') x) ->
  (forall i, ino_bytes (dm_fs d2) i = ino_bytes (dm_fs d') i) ->
  fd2pageno_ d2 = fd2pageno_ d' -> written_back p d d2.
Proof.
  intros W Hi Hb Hno. destruct (page_view_ext _ _ Hi Hb) as [Hv Hp]. split.
  - intros pid Hn. unfold dpage. rewrite Hv. by apply W.
  - intros pid Hpr. apply Hp. by apply W.
  - intros E. apply Hp. by apply (wb_dirty _ _ _ W).
  - intros x. rewrite Hi. apply W.
  - rewrite Hno. apply W.
Qed.

Lemma update_page_inv (s s' : BPM) (f : Z) (pid : PageId) (nf : Z) (p : Page) :
  frame s f = Some p -> length (data_ p) = page_len -> fd_distinct (dm_fs (disk_manager_ s)) ->
  update_page f pid nf s = (Ret tt, s') ->
  exists d', written_back p (disk_manager_ s) d' /\
    s' = if decide (nf = INVALID_FRAME_ID)
         then set_table (delete (id_ p) (page_table_ s))
                (put_frame f (set_dirty false p) (set_disk d' s))
         else set_table (match delete (id_ p) (page_table_ s) !! pid with
                         | Some _ => delete (id_ p) (page_table_ s)
                         | None => <[pid := nf]> (delete (id_ p) (page_table_ s)) end)
                (put_frame f (set_id pid (set_dirty false p)) (set_disk d' s)).
Proof.
  intros Hp Hl Hd Hrun. unfold update_page in Hrun.
  rewrite (bind_run _ _ _ _ _ (get_frame_run _ _ _ Hp)) in Hrun.
  apply bind_Ret_inv in Hrun as ([] & s1 & H1 & Hrun).
  assert (exists d', written_back p (disk_manager_ s) d' /\
    s1 = put_frame f (set_dirty false p) (set_disk d' s)) as (d' & W & ->).
  { destruct (is_dirty_ p) eqn:Ed.
    - apply bind_Ret_inv in H1 as ([] & s2 & H2 & H1). apply on_disk_inv in H2 as (d' & H2 & ->).
      exists d'. split; [by apply written_back_write|].
      apply upd_frame_inv in H1 as (q & Hq & ->). unfold frame in *. simpl in Hq.
      by simplify_eq.
    - injection H1 as <-. exists (disk_manager_ s). split; [by apply written_back_refl|].
      replace (set_dirty false p) with p by (destruct p; simpl in *; by subst).
      unfold put_frame, set_pages, set_disk, frame in *. destruct (0 <=? f); [|done].
      rewrite list_insert_id by done. by destruct s. }
  exists d'. split; [done|].
  apply bind_Ret_inv in Hrun as ([] & s2 & H2 & Hrun). injection H2 as <-.
  unfold INVALID_FRAME_ID in *. destruct (Z.eqb_spec nf (-1)) as [->|Hne].
  - rewrite decide_True by done. by injection Hrun as <-.
  - rewrite decide_False by done.
    apply bind_Ret_inv in Hrun as ([] & s3 & H3 & Hrun). injection Hrun as <-.
    apply upd_frame_inv in H3 as (q & Hq & ->).
    change (frame (put_frame f (set_dirty false p) (set_disk d' s)) f = Some q) in Hq.
    rewrite (frame_put_eq (set_disk d' s) f p) in Hq by done. injection Hq as <-.
    unfold set_table, put_frame, set_pages. simpl. by rewrite list_insert_insert_eq.
Qed.

Lemma update_page_run {FR : FileSystemReliable} (s : BPM) (f : Z) (pid : PageId) (nf : Z) (p : Page) :
  frame s f = Some p -> length (data_ p) = page_len ->
  (is_dirty_ p = true -> page_no_ok (page_no (id_ p)) = true /\ fd_open (disk_manager_ s) (fd (id_ p))) ->
  exists s', update_page f pid nf s = (Ret tt, s').
Proof.
  intros Hp Hl Hd. unfold update_page. rewrite (bind_run _ _ _ _ _ (get_frame_run _ _ _ Hp)).
  destruct (is_dirty_ p) eqn:Ed.
  - destruct Hd as [Hok Hopen]; [done|].
    destruct (write_page_run (fd (id_ p)) (page_no (id_ p)) (data_ p) (disk_manager_ s)) as [d' Hw]; [done..|].
    erewrite bind_run.
    2: { erewrite bind_run by (apply zoom_run; exact Hw). apply upd_frame_run. exact Hp. }
    erewrite bind_run by reflexivity. destruct (nf =? INVALID_FRAME_ID); [by eexists|].
    erewrite bind_run; [by eexists|]. apply upd_frame_run.
    by apply (frame_put_eq (set_disk d' s) f p).
  - erewrite bind_run by reflexivity. erewrite bind_run by reflexivity.
    destruct (nf =? INVALID_FRAME_ID); [by eexists|].
    erewrite bind_run; [by eexists|]. apply upd_frame_run. exact Hp.
Qed.

(** ** Loading a page into a claimed frame *)

(** The pool after [pid] with content [data] has replaced the page in frame [f]. *)
Definition loaded (s : BPM) (f : Z) (p : Page) (pid : PageId) (data : list Z)
    (free : list Z) (r : R) (d : DiskManager) : BPM :=
  {| pool_size_ := pool_size_ s;
     pages_ := <[Z.to_nat f := mkPage pid data false 1]> (pages_ s);
     page_table_ := <[pid := f]> (delete (id_ p) (page_table_ s));
     free_list_ := free; replacer_ := r; disk_manager_ := d |}.

Lemma frame_loaded (s : BPM) (f g : Z) (p : Page) pid data free r d :
  frame s f = Some p ->
  frame (loaded s f p pid data free r d) g =
  if decide (g = f) then Some (mkPage pid data false 1) else frame s g.
Proof. intros H. exact (frame_put s f g p _ H). Qed.

(** Consider a frame [g]: the changed one, or another one; [L] is the lemma
    that says what the frames are. *)
Ltac at_frame L :=
  let g := fresh "g" in let q := fresh "q" in let E := fresh "E" in
  intros g q; erewrite L by eassumption;
  match goal with |- context [decide (g = ?f)] => destruct (decide (g = f)) as [E|E] end; [subst g|].

(** The frame being replaced is mapped at most under its own identity. *)
Lemma claimed_table (s s1 : BPM) (f : Z) (p : Page) :
  inv s -> claimed s f s1 -> frame s f = Some p ->
  (page_table_ s !! id_ p = Some f /\ f ∉ free_list_ s) \/
  (page_table_ s !! id_ p = None /\ is_dirty_ p = false /\ free_list_ s = f :: free_list_ s1).
Proof.
  intros I C Hp. destruct (cl_free _ _ _ C) as [E|(E & _ & q & Hq & Hm)].
  - right. destruct (i_free _ I f) as (q & Hq & _ & Hd & Hn); [rewrite E; left|]. by simplify_eq.
  - left. simplify_eq. split; [done|]. rewrite E. apply not_elem_of_nil.
Qed.

(** A page mapped elsewhere keeps its mapping. *)
Lemma mapped_other (s : BPM) (f g : Z) (p q : Page) :
  inv s -> frame s f = Some p -> frame s g = Some q -> f <> g ->
  page_table_ s !! id_ q = Some g ->
  page_table_ s !! id_ p = Some f \/ page_table_ s !! id_ p = None -> id_ q <> id_ p.
Proof. intros I Hp Hq Hne Hm Ho E. rewrite E in Hm. destruct Ho; congruence. Qed.

Lemma synced_written_back (p q : Page) (d d' : DiskManager) :
  written_back p d d' -> (is_dirty_ p = true -> id_ q <> id_ p) -> 0 <= page_no (id_ q) ->
  synced d q -> synced d' q.
Proof.
  intros W Hne Hn [H1 H2]. split; [|by apply W]. rewrite (wb_page _ _ _ W) by done.
  rewrite decide_False; [done|]. intros [E1 E2]. by apply Hne.
Qed.

Lemma loaded_inv (s s1 : BPM) (f : Z) (p : Page) (pid : PageId) (data : list Z) (r : R) (d : DiskManager) :
  inv s -> claimed s f s1 -> frame s f = Some p ->
  page_table_ s !! pid = None -> not_stale pid s -> 0 <= page_no pid ->
  length data = page_len -> written_back p (disk_manager_ s) d ->
  rp_inv r -> rp_frames r = rp_frames (replacer_ s1) ∖ {[f]} ->
  inv (loaded s f p pid data (free_list_ s1) r d).
Proof.
  intros I C Hp Hmiss Hst Hno Hl W Hr Hfr.
  pose proof (claimed_table s s1 f p I C Hp) as HT.
  assert (page_table_ s !! id_ p = Some f \/ page_table_ s !! id_ p = None) as HT' by naive_solver.
  assert (forall g, g ∈ free_list_ s1 -> g <> f /\ g ∈ free_list_ s) as Hfree.
  { intros g Hg. pose proof (i_free_nodup _ I) as Hnd.
    destruct (cl_free _ _ _ C) as [E|(E & E' & _)].
    - rewrite E in Hnd |- *. apply NoDup_cons in Hnd as [Hnd _]. split; [by intros ->|by right].
    - rewrite E' in Hg. by apply elem_of_nil in Hg. }
  assert (forall g q, g <> f -> frame s g = Some q -> page_table_ s !! id_ q = Some g ->
    page_table_ (loaded s f p pid data (free_list_ s1) r d) !! id_ q = Some g) as Hkeep.
  { intros g q Hne Hq Hm. simpl. assert (id_ q <> pid) by congruence.
    rewrite lookup_insert_ne, lookup_delete_ne; [done| |done].
    intros E. by apply (mapped_other s f g p q). }
  assert (forall g q, g <> f ->
    page_table_ (loaded s f p pid data (free_list_ s1) r d) !! id_ q = Some g ->
    page_table_ s !! id_ q = Some g) as Hback.
  { intros g q Hne. simpl. rewrite lookup_insert_Some, lookup_delete_Some. naive_solver. }
  split; [|at_frame (frame_loaded s f)|at_frame (frame_loaded s f)| | | |at_frame (frame_loaded s f)
    | | |at_frame (frame_loaded s f)| |at_frame (frame_loaded s f)].
  - simpl. rewrite length_insert. apply I.
  - intros [= <-]. done.
  - by apply (i_data _ I).
  - intros [= <-]. done.
  - by apply (i_pin _ I).
  - intros pid' g. simpl. rewrite lookup_insert_Some, lookup_delete_Some.
    intros [[<- <-]|(Hne & Hne' & Hm)].
    + split; [|done]. eexists. rewrite (frame_loaded s f f p) by done. by rewrite decide_True.
    + destruct (i_table _ I _ _ Hm) as [(q & Hq & Eq) Hn]. split; [|done]. exists q.
      rewrite (frame_loaded s f g p) by done. rewrite decide_False; [done|]. intros ->. congruence.
  - simpl. destruct (cl_free _ _ _ C) as [E|(_ & -> & _)]; [|constructor].
    pose proof (i_free_nodup _ I) as Hnd. rewrite E in Hnd. by apply NoDup_cons in Hnd as [_ Hnd].
  - intros g Hg. simpl in Hg. destruct (Hfree g Hg) as [Hne Hg'].
    destruct (i_free _ I g Hg') as (q & Hq & Hpin & Hd & Hn). exists q.
    rewrite (frame_loaded s f g p), decide_False by done. split_and!; [done..|]. simpl.
    rewrite lookup_insert_ne, lookup_delete_None; [by right|]. intros Epid.
    destruct (cl_free _ _ _ C) as [E|(E & E' & _)].
    + apply (Hst g q); [by rewrite E|done|done].
    + rewrite E' in Hg. by apply elem_of_nil in Hg.
  - intros [= <-]. right. simpl. apply lookup_insert_eq.
  - intros Hq. destruct (i_cover _ I g q Hq) as [Hin|Hm].
    + left. simpl. destruct (cl_free _ _ _ C) as [Ef|(Ef & _ & _)].
      * rewrite Ef in Hin. apply elem_of_cons in Hin as [->|Hin]; [done|done].
      * rewrite Ef in Hin. by apply elem_of_nil in Hin.
    + right. by apply Hkeep.
  - done.
  - intros g. simpl. rewrite Hfr. intros Hg. assert (g <> f) by set_solver.
    destruct (i_evict _ I g) as (q & Hq & Hpin).
    { pose proof (cl_frames _ _ _ C). set_solver. }
    exists q. by rewrite (frame_loaded s f g p), decide_False by done.
  - intros [= <-]. done.
  - intros Hq Hm Hpin. simpl. rewrite Hfr. apply Hback in Hm; [|done].
    pose proof (i_unpinned _ I g q Hq Hm Hpin). pose proof (cl_frames _ _ _ C). set_solver.
  - simpl. eapply written_back_fds; [done|]. apply I.
  - intros [= <-]. done.
  - intros Hq Hm Hpin Hd. apply Hback in Hm; [|done]. simpl.
    eapply synced_written_back; [done| | |by apply (i_clean _ I g)].
    + intros _ E'. by apply (mapped_other s f g p q).
    + by apply (i_table _ I _ _ Hm).
Qed.

Lemma loaded_logical (s s1 : BPM) (f : Z) (p : Page) (pid : PageId) (data free : list Z) (r : R) (d : DiskManager) :
  inv s -> claimed s f s1 -> frame s f = Some p ->
  page_table_ s !! pid = None -> written_back p (disk_manager_ s) d ->
  forall pid', 0 <= page_no pid' ->
  logical (loaded s f p pid data free r d) pid' = if decide (pid' = pid) then data else logical s pid'.
Proof.
  intros I C Hp Hmiss W pid' Hn. unfold logical. simpl page_table_. simpl disk_manager_.
  pose proof (claimed_table s s1 f p I C Hp) as HT.
  case_decide as E; [subst|].
  - rewrite lookup_insert_eq. simpl. rewrite (frame_loaded s f f p) by done. by rewrite decide_True.
  - rewrite lookup_insert_ne by done. destruct (decide (pid' = id_ p)) as [->|Hne].
    + rewrite lookup_delete_eq. simpl. rewrite (wb_page _ _ _ W) by done.
      destruct HT as [[Hm _]|(Hm & Hd & _)]; rewrite Hm; simpl.
      * rewrite Hp. case_decide as Ed; [done|]. destruct (cl_frame _ _ _ C) as (q & Hq & Hpin).
        rewrite Hp in Hq. injection Hq as <-. apply (i_clean _ I f p); [done|done|done|].
        destruct (is_dirty_ p); [|done]. by destruct Ed.
      * rewrite decide_False; [done|]. rewrite Hd. naive_solver.
    + rewrite lookup_delete_ne by done. destruct (page_table_ s !! pid') as [g|] eqn:Eg; simpl.
      * destruct (i_table _ I _ _ Eg) as [(q & Hq & Eq) _].
        rewrite (frame_loaded s f g p) by done. rewrite decide_False, Hq; [done|]. intros ->. congruence.
      * rewrite (wb_page _ _ _ W) by done. rewrite decide_False; [done|]. naive_solver.
Qed.

(** ** Changing a mapped frame in place *)

(** The disk changed at most at page [pid]. *)
Record disk_only (pid : PageId) (d d' : DiskManager) : Prop := {
  do_other : forall pid', 0 <= page_no pid' -> pid' <> pid -> dpage d' pid' = dpage d pid';
  do_present : forall pid', present d pid' -> present d' pid';
  do_ino : forall x, fd_ino (dm_fs d') x = fd_ino (dm_fs d) x
}.

Lemma disk_only_refl (pid : PageId) (d : DiskManager) : disk_only pid d d.
Proof. done. Qed.

Lemma disk_only_write (pid : PageId) (data : list Z) (d d' : DiskManager) :
  length data = page_len -> fd_distinct (dm_fs d) ->
  write_page (fd pid) (page_no pid) data PAGE_SIZE d = (Ret tt, d') ->
  disk_only pid d d' /\ dpage d' pid = data /\ present d' pid.
Proof.
  intros Hl Hd Hrun. apply write_page_inv in Hrun as W; [|done]. split_and!; [|apply W..]. split.
  - intros [x y] Hn Hne. apply (pw_other _ _ _ _ _ W Hd); [done|]. destruct pid. simpl. congruence.
  - intros pid'. apply W.
  - apply W.
Qed.

Definition touched (s : BPM) (f : Z) (q : Page) (r : R) (d : DiskManager) : BPM :=
  set_disk d (set_replacer r (put_frame f q s)).

Lemma frame_touched (s : BPM) (f g : Z) (p q : Page) (r : R) (d : DiskManager) :
  frame s f = Some p ->
  frame (touched s f q r d) g = if decide (g = f) then Some q else frame s g.
Proof. apply frame_put. Qed.

Lemma touched_inv (s : BPM) (f : Z) (p q : Page) (r : R) (d : DiskManager) :
  inv s -> frame s f = Some p -> page_table_ s !! id_ p = Some f -> id_ q = id_ p ->
  length (data_ q) = page_len -> 0 <= pin_count_ q -> rp_inv r ->
  rp_frames r = (if decide (pin_count_ q = 0) then {[f]} ∪ rp_frames (replacer_ s)
                 else rp_frames (replacer_ s) ∖ {[f]}) ->
  disk_only (id_ p) (disk_manager_ s) d ->
  (pin_count_ q = 0 -> is_dirty_ q = false -> synced d q) ->
  inv (touched s f q r d).
Proof.
  intros I Hp Hm Hid Hl Hpin Hr Hfr D Hsync.
  assert (f ∉ free_list_ s) as Hnf.
  { intros Hin. destruct (i_free _ I f Hin) as (p' & Hp' & _ & _ & Hn). congruence. }
  split; [|at_frame (frame_touched s f)|at_frame (frame_touched s f)| | | |at_frame (frame_touched s f)
    | | |at_frame (frame_touched s f)| |at_frame (frame_touched s f)].
  - simpl. rewrite length_insert. apply I.
  - by intros [= <-].
  - by apply (i_data _ I).
  - by intros [= <-].
  - by apply (i_pin _ I).
  - intros pid g Hg. simpl in Hg. destruct (i_table _ I _ _ Hg) as [(p' & Hp' & Eid) Hn]. split; [|done].
    rewrite (frame_touched s f g p) by done. destruct (decide (g = f)); [subst|by eauto].
    exists q. split; [done|]. rewrite Hp in Hp'. congruence.
  - apply I.
  - intros g Hg. destruct (i_free _ I g Hg) as (p' & Hp' & Hrest). exists p'.
    rewrite (frame_touched s f g p) by done. rewrite decide_False; [done|]. by intros ->.
  - intros [= <-]. right. simpl. by rewrite Hid.
  - apply I.
  - done.
  - intros g. simpl. rewrite Hfr. rewrite (frame_touched s f g p) by done.
    destruct (decide (pin_count_ q = 0)), (decide (g = f)); intros Hg; try (by eauto);
      try (apply (i_evict _ I g)); set_solver.
  - intros [= <-] _ E0. simpl. rewrite Hfr, decide_True by done. set_solver.
  - intros Hq Hmq E0. simpl. rewrite Hfr. pose proof (i_unpinned _ I g q0 Hq Hmq E0).
    case_decide; set_solver.
  - simpl. intros x y i. rewrite !(do_ino _ _ _ D). apply I.
  - intros [= <-] _. apply Hsync.
  - intros Hq Hmq E0 Ed. simpl in *. destruct (i_clean _ I g q0 Hq Hmq E0 Ed) as [S1 S2].
    split; [|by apply D]. rewrite (do_other _ _ _ D); [done| |].
    + by apply (i_table _ I _ _ Hmq).
    + intros E'. congruence.
Qed.

Lemma touched_logical (s : BPM) (f : Z) (p q : Page) (r : R) (d : DiskManager) (pid : PageId) :
  inv s -> frame s f = Some p -> page_table_ s !! id_ p = Some f ->
  disk_only (id_ p) (disk_manager_ s) d -> 0 <= page_no pid ->
  logical (touched s f q r d) pid = if decide (pid = id_ p) then data_ q else logical s pid.
Proof.
  intros I Hp Hm D Hn. unfold logical. simpl page_table_. simpl disk_manager_.
  case_decide as E; [subst|].
  - rewrite Hm. simpl. rewrite (frame_touched s f f p) by done. by rewrite decide_True.
  - destruct (page_table_ s !! pid) as [g|] eqn:Eg; simpl; [|by apply D].
    destruct (i_table _ I _ _ Eg) as [(q' & Hq & Eq) _]. rewrite (frame_touched s f g p) by done.
    rewrite decide_False, Hq; [done|]. intros ->. congruence.
Qed.

(** ** The number of pins held on a page *)

Definition pins (s : BPM) (pid : PageId) : Z :=
  match page_table_ s !! pid ≫= frame s with Some p => pin_count_ p | None => 0 end.

Lemma touched_pins (s : BPM) (f : Z) (p q : Page) (r : R) (d : DiskManager) (pid : PageId) :
  inv s -> frame s f = Some p -> page_table_ s !! id_ p = Some f ->
  pins (touched s f q r d) pid = if decide (pid = id_ p) then pin_count_ q else pins s pid.
Proof.
  intros I Hp Hm. unfold pins. simpl page_table_. case_decide as E; [subst|].
  - rewrite Hm. simpl. rewrite (frame_touched s f f p) by done. by rewrite decide_True.
  - destruct (page_table_ s !! pid) as [g|] eqn:Eg; simpl; [|done].
    destruct (i_table _ I _ _ Eg) as [(q' & Hq & Eq) _]. rewrite (frame_touched s f g p) by done.
    rewrite decide_False, Hq; [done|]. intros ->. congruence.
Qed.

Lemma loaded_pins (s s1 : BPM) (f : Z) (p : Page) (pid : PageId) (data free : list Z) (r : R) (d : DiskManager) pid' :
  inv s -> claimed s f s1 -> frame s f = Some p -> page_table_ s !! pid = None ->
  pins (loaded s f p pid data free r d) pid' = if decide (pid' = pid) then 1 else pins s pid'.
Proof.
  intros I C Hp Hmiss. unfold pins. simpl page_table_.
  case_decide as E; [subst|].
  - rewrite lookup_insert_eq. simpl. rewrite (frame_loaded s f f p) by done. by rewrite decide_True.
  - rewrite lookup_insert_ne by done. destruct (decide (pid' = id_ p)) as [->|Hne].
    + rewrite lookup_delete_eq. simpl. destruct (claimed_table s s1 f p I C Hp) as [[Hm _]|(Hm & _)]; rewrite Hm; [|done].
      simpl. rewrite Hp. destruct (cl_frame _ _ _ C) as (q & Hq & Hpin). congruence.
    + rewrite lookup_delete_ne by done. destruct (page_table_ s !! pid') as [g|] eqn:Eg; simpl; [|done].
      destruct (i_table _ I _ _ Eg) as [(q & Hq & Eq) _].
      rewrite (frame_loaded s f g p) by done. rewrite decide_False, Hq; [done|]. intros ->. congruence.
Qed.

(** ** The operations *)

(** Nothing a client can see has changed, the pins of [pid] apart. *)
Definition same_view_but (pid : PageId) (s s' : BPM) : Prop :=
  (forall pid', 0 <= page_no pid' -> pid' <> pid -> logical s' pid' = logical s pid') /\
  (forall pid', pid' <> pid -> pins s' pid' = pins s pid').

(** The page [pid] is cached in frame [f] with content [data] and [n] pins. *)
Definition cached (s : BPM) (pid : PageId) (f : Z) (data : list Z) (n : Z) : Prop :=
  page_table_ s !! pid = Some f /\
  exists p, frame s f = Some p /\ id_ p = pid /\ data_ p = data /\ pin_count_ p = n.

Lemma read_into_inv (s s' : BPM) (f : Z) (p : Page) (pid : PageId) (u : unit) :
  frame s f = Some p -> length (data_ p) = page_len ->
  read_into f pid s = (Ret u, s') ->
  exists d', s' = put_frame f (set_data (dpage (disk_manager_ s) pid) p) (set_disk d' s) /\
    present (disk_manager_ s) pid /\
    (forall x, fd_ino (dm_fs d') x = fd_ino (dm_fs (disk_manager_ s)) x) /\
    (forall i, ino_bytes (dm_fs d') i = ino_bytes (dm_fs (disk_manager_ s)) i) /\
    fd2pageno_ d' = fd2pageno_ (disk_manager_ s).
Proof.
  intros Hp Hl Hrun. unfold read_into in Hrun. rewrite (bind_run _ _ _ _ _ (get_frame_run _ _ _ Hp)) in Hrun.
  apply zoom_inv in Hrun as ([d' b'] & Hrun & ->). destruct u.
  destruct (read_page_inv _ _ _ _ _ _ Hl Hrun) as (-> & Hpr & (_ & _ & _ & Hno) & Hi & Hb). by exists d'.
Qed.

Lemma dpage_length (d : DiskManager) (pid : PageId) : present d pid -> length (dpage d pid) = page_len.
Proof.
  unfold present, dpage, page_present, disk_page. destruct (file_bytes d (fd pid)); [|done].
  intros _. apply length_zslice.
Qed.

Lemma claimed_frame (s s1 : BPM) (f g : Z) : claimed s f s1 -> frame s1 g = frame s g.
Proof. intros C. by destruct (cl_state _ _ _ C) as (free & r & ->). Qed.

Lemma claimed_parts (s s1 : BPM) (f : Z) : claimed s f s1 ->
  pool_size_ s1 = pool_size_ s /\ pages_ s1 = pages_ s /\ page_table_ s1 = page_table_ s /\
  disk_manager_ s1 = disk_manager_ s.
Proof. intros C. by destruct (cl_state _ _ _ C) as (free & r & ->). Qed.

(** Reuse of a claimed frame, up to the point where the new content arrives. *)
Lemma replace_frame (s s1 s2 : BPM) (f : Z) (p : Page) (pid : PageId) :
  inv s -> claimed s f s1 -> frame s f = Some p -> page_table_ s !! pid = None ->
  update_page f pid f s1 = (Ret tt, s2) ->
  exists d', written_back p (disk_manager_ s1) d' /\
    s2 = set_table (<[pid := f]> (delete (id_ p) (page_table_ s)))
           (put_frame f (set_id pid (set_dirty false p)) (set_disk d' s1)).
Proof.
  intros I C Hp Hmiss Hrun. destruct (claimed_parts _ _ _ C) as (_ & _ & Et & Ed).
  assert (0 <= f) as Hf by (unfold frame in Hp; destruct (Z.leb_spec 0 f); done).
  apply (update_page_inv s1 s2 f pid f p) in Hrun as (d' & W & E).
  - exists d'. split; [done|]. rewrite decide_False in E by (unfold INVALID_FRAME_ID; lia).
    rewrite Et in E. assert (delete (id_ p) (page_table_ s) !! pid = None) as En by (apply lookup_delete_None; by right).
    by rewrite En in E.
  - by rewrite (claimed_frame s s1 f).
  - by apply (i_data _ I f).
  - rewrite Ed. apply I.
Qed.

(** [allocate_page] only moves the page counters. *)
Lemma inv_pageno (s : BPM) (m : gmap Z Z) : inv s -> inv (set_disk (set_pageno m (disk_manager_ s)) s).
Proof. by intros []; split. Qed.

Lemma claimed_disk (s s1 : BPM) (f : Z) (d : DiskManager) :
  claimed s f s1 -> claimed (set_disk d s) f (set_disk d s1).
Proof. intros [C1 (free & r & E) C3 C4 C5]. split; try done. exists free, r. by rewrite E. Qed.

Lemma finish_load {A} (s s1 s3 s' : BPM) (f : Z) (p : Page) (pid : PageId) (data : list Z) (d : DiskManager) (x y : A) :
  claimed s f s1 -> frame s f = Some p ->
  s3 = set_table (<[pid := f]> (delete (id_ p) (page_table_ s)))
         (put_frame f (mkPage pid data false 0) (set_disk d s1)) ->
  (on_replacer (rp_pin f) ;; incr_pin f ;; mret x) s3 = (Ret y, s') ->
  y = x /\ exists r, rp_inv r /\ rp_frames r = rp_frames (replacer_ s1) ∖ {[f]} /\
    s' = loaded s f p pid data (free_list_ s1) r d.
Proof.
  intros C Hp E3 Hrun. destruct (claimed_parts _ _ _ C) as (E1 & E1' & E1'' & E1d).
  apply bind_Ret_inv in Hrun as ([] & s4 & H4 & Hrun). apply on_replacer_inv in H4 as (r & H4 & E4).
  destruct (rp_pin_ok f (replacer_ s1) (cl_repl _ _ _ C)) as (r' & H4' & Hr & Hfr).
  assert (replacer_ s3 = replacer_ s1) as Er by by rewrite E3. rewrite Er, H4' in H4.
  injection H4 as ->.
  apply bind_Ret_inv in Hrun as ([] & s5 & H5 & Hrun). apply incr_pin_inv in H5 as (q & Hq & E5).
  injection Hrun as <- <-. split; [done|]. exists r. split_and!; [done|done|].
  assert (q = mkPage pid data false 0) as ->.
  { rewrite E4, E3 in Hq. change (frame (put_frame f (mkPage pid data false 0) s1) f = Some q) in Hq.
    rewrite (frame_put_eq s1 f p) in Hq; [congruence|]. by rewrite (claimed_frame s s1 f). }
  rewrite E5, E4, E3. unfold loaded, put_frame, set_pages, set_replacer, set_table, set_disk. simpl.
  by rewrite list_insert_insert_eq, E1, E1'.
Qed.

Lemma loaded_spec (s s1 : BPM) (f : Z) (p : Page) (pid : PageId) (data : list Z) (r : R) (d : DiskManager) :
  inv s -> claimed s f s1 -> frame s f = Some p ->
  page_table_ s !! pid = None -> not_stale pid s -> 0 <= page_no pid ->
  length data = page_len -> written_back p (disk_manager_ s) d ->
  rp_inv r -> rp_frames r = rp_frames (replacer_ s1) ∖ {[f]} ->
  let s' := loaded s f p pid data (free_list_ s1) r d in
  inv s' /\ cached s' pid f data 1 /\ same_view_but pid s s'.
Proof.
  intros I C Hp Hmiss Hst Hn Hl W Hr Hfr s'. split_and!.
  - by apply (loaded_inv s s1).
  - split; [apply lookup_insert_eq|]. exists (mkPage pid data false 1).
    unfold s'. rewrite (frame_loaded s f f p) by done. by rewrite decide_True.
  - split.
    + intros pid' Hn' Hne. unfold s'. rewrite (loaded_logical s s1) by done. by rewrite decide_False.
    + intros pid' Hne. unfold s'. rewrite (loaded_pins s s1) by done. by rewrite decide_False.
Qed.

(** The state after a page has been loaded from outside the pool. *)
Definition load_shape (s : BPM) (f : Z) (pid : PageId) (data : list Z) (s' : BPM) : Prop :=
  exists s1 p r d, claimed s f s1 /\ frame s f = Some p /\ rp_inv r /\
    rp_frames r = rp_frames (replacer_ s1) ∖ {[f]} /\ written_back p (disk_manager_ s) d /\
    s' = loaded s f p pid data (free_list_ s1) r d.

Lemma fetch_miss_shape (s s' : BPM) (pid : PageId) (o : option Z) :
  inv s -> 0 <= page_no pid -> page_table_ s !! pid = None ->
  fetch_page pid s = (Ret o, s') ->
  match o with
  | None => s' = s /\ forall f p, frame s f = Some p -> 0 < pin_count_ p
  | Some f => load_shape s f pid (logical s pid) s' /\ length (logical s pid) = page_len /\
      present (disk_manager_ s') pid /\ dpage (disk_manager_ s') pid = logical s pid
  end.
Proof.
  intros I Hn Hmiss Hrun. unfold fetch_page in Hrun.
  rewrite (bind_run _ _ s s None) in Hrun by (by unfold gets; rewrite Hmiss).
  apply bind_Ret_inv in Hrun as (v & s1 & H1 & Hrun).
  destruct (find_victim_spec s I) as (v' & s1' & H1' & C).
  rewrite H1 in H1'. injection H1' as <- <-. destruct v as [f|]; [|injection Hrun as <- <-; done].
  destruct (cl_frame _ _ _ C) as (p & Hp & Hpin). destruct (claimed_parts _ _ _ C) as (_ & _ & _ & E1d).
  apply bind_Ret_inv in Hrun as ([] & s2 & H2 & Hrun).
  apply (replace_frame s s1 s2 f p pid I C Hp Hmiss) in H2 as (d2 & W & E2).
  set (p2 := set_id pid (set_dirty false p)) in *.
  assert (frame s2 f = Some p2) as Hp2.
  { rewrite E2. apply (frame_put_eq (set_disk d2 s1) f p p2). by rewrite <- (claimed_frame s s1 f) in Hp. }
  assert (disk_manager_ s2 = d2) as Ed2 by by rewrite E2.
  apply bind_Ret_inv in Hrun as ([] & s3 & H3 & Hrun).
  apply (read_into_inv s2 s3 f p2) in H3 as (d3 & E3 & Hpr & Hi & Hb & Hno); [|done|by apply (i_data _ I f p Hp)].
  rewrite Ed2 in *. rewrite E1d in W.
  assert (dpage d2 pid = logical s pid) as Hlog.
  { rewrite (wb_page _ _ _ W) by done. unfold logical. rewrite Hmiss. simpl.
    rewrite decide_False; [done|]. intros [Hd ->].
    destruct (claimed_table s s1 f p I C Hp) as [[? _]|(_ & ? & _)]; congruence. }
  apply (finish_load s s1 s3 s' f p pid (dpage d2 pid) d3) in Hrun as (-> & r & Hr & Hfr & ->); [|done|done|].
  - rewrite <- Hlog. split_and!; [|by apply dpage_length|by apply (page_view_ext d2 d3 Hi Hb)
      |by apply (page_view_ext d2 d3 Hi Hb)].
    exists s1, p, r, d3. split_and!; try done. by eapply written_back_view.
  - rewrite E3, E2. unfold put_frame, set_pages, set_table, set_disk, p2. simpl.
    rewrite list_insert_insert_eq. unfold set_data, set_id. simpl. by rewrite Hpin.
Qed.

Lemma load_shape_spec (s s' : BPM) (f : Z) (pid : PageId) (data : list Z) :
  inv s -> page_table_ s !! pid = None -> not_stale pid s -> 0 <= page_no pid -> length data = page_len ->
  load_shape s f pid data s' -> inv s' /\ cached s' pid f data 1 /\ same_view_but pid s s'.
Proof. intros I Hm Hst Hn Hl (s1 & p & r & d & C & Hp & Hr & Hfr & W & ->). by apply loaded_spec. Qed.

Lemma fetch_miss_inv (s s' : BPM) (pid : PageId) (o : option Z) :
  inv s -> not_stale pid s -> 0 <= page_no pid -> page_table_ s !! pid = None ->
  fetch_page pid s = (Ret o, s') ->
  match o with
  | None => s' = s /\ forall f p, frame s f = Some p -> 0 < pin_count_ p
  | Some f => (inv s' /\ cached s' pid f (logical s pid) 1 /\ same_view_but pid s s') /\
      present (disk_manager_ s') pid
  end.
Proof.
  intros I Hst Hn Hmiss Hrun. pose proof (fetch_miss_shape s s' pid o I Hn Hmiss Hrun) as Hs.
  destruct o as [f|]; [|done]. destruct Hs as (Hs & Hl & Hp & _). split; [by apply load_shape_spec|done].
Qed.

Lemma fetch_hit_shape (s s' : BPM) (pid : PageId) (f : Z) (p : Page) (o : option Z) :
  inv s -> page_table_ s !! pid = Some f -> frame s f = Some p ->
  fetch_page pid s = (Ret o, s') ->
  o = Some f /\ exists r, rp_inv r /\ rp_frames r = rp_frames (replacer_ s) ∖ {[f]} /\
    s' = touched s f (set_pin (pin_count_ p + 1) p) r (disk_manager_ s).
Proof.
  intros I Hhit Hp Hrun. unfold fetch_page in Hrun.
  rewrite (bind_run _ _ s s (Some f)) in Hrun by (by unfold gets; rewrite Hhit).
  destruct (i_table _ I _ _ Hhit) as [(p' & Hp' & Eid) _].
  assert (p' = p) as -> by congruence.
  apply bind_Ret_inv in Hrun as ([] & s1 & H1 & Hrun). apply on_replacer_inv in H1 as (r & H1 & E1).
  destruct (rp_pin_ok f (replacer_ s) (i_repl _ I)) as (r' & H1' & Hr & Hfr).
  rewrite H1' in H1. injection H1 as ->.
  apply bind_Ret_inv in Hrun as ([] & s2 & H2 & Hrun). apply incr_pin_inv in H2 as (q & Hq & E2).
  injection Hrun as <- <-. rewrite E1 in Hq. change (frame s f = Some q) in Hq.
  assert (q = p) as -> by congruence.
  split; [done|]. exists r. split_and!; [done|done|]. rewrite E2, E1. by destruct s.
Qed.

Lemma fetch_hit_inv (s s' : BPM) (pid : PageId) (f : Z) (p : Page) (o : option Z) :
  inv s -> page_table_ s !! pid = Some f -> frame s f = Some p ->
  fetch_page pid s = (Ret o, s') ->
  o = Some f /\ inv s' /\ cached s' pid f (logical s pid) (pin_count_ p + 1) /\ same_view_but pid s s'.
Proof.
  intros I Hhit Hp Hrun. destruct (fetch_hit_shape s s' pid f p o I Hhit Hp Hrun) as (-> & r & Hr & Hfr & ->).
  destruct (i_table _ I _ _ Hhit) as [(p' & Hp' & Eid) _]. assert (p' = p) as -> by congruence.
  set (q := set_pin (pin_count_ p + 1) p). pose proof (i_pin _ I f p Hp).
  assert (logical s pid = data_ p) as Hlog by (unfold logical; rewrite Hhit; simpl; by rewrite Hp).
  split; [done|]. split_and!.
  - apply (touched_inv s f p q); try done; simpl.
    + by rewrite Eid.
    + by apply (i_data _ I f).
    + lia.
    + rewrite decide_False by lia. done.
    + lia.
  - split; [done|]. exists q. rewrite (frame_touched s f f p), decide_True by done. done.
  - split.
    + intros pid' Hn Hne. rewrite (touched_logical s f p) by (done || by rewrite Eid).
      rewrite decide_False; [done|congruence].
    + intros pid' Hne. rewrite (touched_pins s f p) by (done || by rewrite Eid).
      rewrite decide_False; [done|congruence].
Qed.

(** The claim behind [fetch_page], hit or miss. *)
Lemma fetch_page_inv (s s' : BPM) (pid : PageId) (o : option Z) :
  inv s -> not_stale pid s -> 0 <= page_no pid ->
  fetch_page pid s = (Ret o, s') ->
  match o with
  | None => s' = s /\ page_table_ s !! pid = None /\ forall f p, frame s f = Some p -> 0 < pin_count_ p
  | Some f => inv s' /\ cached s' pid f (logical s pid) (pins s pid + 1) /\ same_view_but pid s s'
  end.
Proof.
  intros I Hst Hn Hrun. destruct (page_table_ s !! pid) as [f|] eqn:E.
  - destruct (i_table _ I _ _ E) as [(p & Hp & Eid) _].
    destruct (fetch_hit_inv s s' pid f p o I E Hp Hrun) as (-> & I' & C & V).
    split_and!; [done| |done]. unfold pins. rewrite E. simpl. by rewrite Hp.
  - pose proof (fetch_miss_inv s s' pid o I Hst Hn E Hrun) as Hf. destruct o as [f|]; [|naive_solver].
    destruct Hf as ((I' & C & V) & _). split_and!; [done| |done]. unfold pins. by rewrite E.
Qed.

(** The pool after [allocate_page]. *)
Definition with_count (s : BPM) (file n : Z) : BPM :=
  set_disk (set_pageno (<[file := n]> (fd2pageno_ (disk_manager_ s))) (disk_manager_ s)) s.

Lemma new_page_shape (s s' : BPM) (file : Z) (o : option (Z * PageId)) (n : Z) :
  inv s -> n = default 0 (fd2pageno_ (disk_manager_ s) !! file) -> 0 <= n ->
  page_table_ s !! mkPageId file n = None ->
  new_page file s = (Ret o, s') ->
  match o with
  | None => s' = s /\ forall f p, frame s f = Some p -> 0 < pin_count_ p
  | Some (f, pid) => pid = mkPageId file n /\ load_shape (with_count s file (n + 1)) f pid zero_page s' /\
      fd2pageno_ (disk_manager_ s') = <[file := n + 1]> (fd2pageno_ (disk_manager_ s))
  end.
Proof.
  intros I -> Hn Hmiss Hrun. set (n := default 0 _) in *. set (pid := mkPageId file n) in *.
  unfold new_page in Hrun. apply bind_Ret_inv in Hrun as (v & s1 & H1 & Hrun).
  destruct (find_victim_spec s I) as (v' & s1' & H1' & C).
  rewrite H1 in H1'. injection H1' as <- <-. destruct v as [f|]; [|injection Hrun as <- <-; done].
  destruct (cl_frame _ _ _ C) as (p & Hp & Hpin). destruct (claimed_parts _ _ _ C) as (_ & _ & E1t & E1d).
  assert (frame s1 f = Some p) as Hp1 by (by rewrite (claimed_frame s s1 f)).
  apply bind_Ret_inv in Hrun as (m & s1a & Ha & Hrun). apply on_disk_inv in Ha as (da & Ha & Ea).
  rewrite E1d in Ha. apply allocate_page_inv in Ha as (_ & -> & Eda). fold n in Eda, Hrun. fold pid in Hrun.
  apply bind_Ret_inv in Hrun as ([] & s2 & H2 & Hrun).
  (* allocate_page only touched the counters *)
  set (sa := set_disk da s) in *.
  assert (inv sa) as Ia by (unfold sa; rewrite Eda; by apply inv_pageno).
  assert (claimed sa f s1a) as Ca by (rewrite Ea; by apply claimed_disk).
  apply (replace_frame sa s1a s2 f p pid Ia Ca Hp Hmiss) in H2 as (d2 & W & E2).
  assert (frame s2 f = Some (set_id pid (set_dirty false p))) as Hp2.
  { rewrite E2, Ea. exact (frame_put_eq (set_disk d2 s1) f p _ Hp1). }
  apply bind_Ret_inv in Hrun as ([] & s3 & H3 & Hrun). apply upd_frame_inv in H3 as (p2' & Hp2' & E3).
  rewrite Hp2 in Hp2'. injection Hp2' as <-. rewrite Ea in W. simpl in W.
  apply (finish_load sa s1a s3 s' f p pid zero_page d2) in Hrun as (-> & r & Hr & Hfr & ->); [|done|done|].
  - split; [done|]. split; [|simpl; by rewrite (wb_pageno _ _ _ W), Eda].
    unfold with_count. rewrite <- Eda. exists s1a, p, r, d2. split_and!; try done.
  - rewrite E3, E2. unfold put_frame, set_pages, set_table, set_disk. simpl.
    rewrite list_insert_insert_eq. unfold reset_memory, set_data, set_id. simpl. by rewrite Hpin.
Qed.

Lemma new_page_inv (s s' : BPM) (file : Z) (o : option (Z * PageId)) (n : Z) :
  inv s -> n = default 0 (fd2pageno_ (disk_manager_ s) !! file) -> 0 <= n ->
  page_table_ s !! mkPageId file n = None -> not_stale (mkPageId file n) s ->
  new_page file s = (Ret o, s') ->
  match o with
  | None => s' = s /\ forall f p, frame s f = Some p -> 0 < pin_count_ p
  | Some (f, pid) => pid = mkPageId file n /\
      (inv s' /\ cached s' pid f zero_page 1 /\ same_view_but pid s s') /\
      default 0 (fd2pageno_ (disk_manager_ s') !! file) = n + 1
  end.
Proof.
  intros I En Hn Hmiss Hst Hrun. pose proof (new_page_shape s s' file o n I En Hn Hmiss Hrun) as Hs.
  destruct o as [[f pid]|]; [|done]. destruct Hs as (-> & Hs & Ec). split; [done|].
  assert (inv (with_count s file (n + 1))) as Ia by by apply inv_pageno.
  split; [|by rewrite Ec, lookup_insert_eq].
  apply load_shape_spec in Hs as (I' & C' & [V1 V2]); try done; try apply length_replicate.
Qed.

(** The frame a mapped page lives in. *)
Lemma mapped_frame (s : BPM) (pid : PageId) (f : Z) :
  inv s -> page_table_ s !! pid = Some f ->
  exists p, frame s f = Some p /\ id_ p = pid /\ page_table_ s !! id_ p = Some f /\
    length (data_ p) = page_len /\ 0 <= pin_count_ p /\ 0 <= page_no pid.
Proof.
  intros I Hm. destruct (i_table _ I _ _ Hm) as [(p & Hp & E) Hn]. exists p. rewrite E.
  split_and!; [done..|by apply (i_data _ I f)|by apply (i_pin _ I f)|done].
Qed.

(** What [unpin_page] leaves in the frame. *)
Definition unpinned (p : Page) (b : bool) : Page :=
  set_dirty (is_dirty_ p || b) (set_pin (pin_count_ p - 1) p).

Lemma unpin_page_shape (s s' : BPM) (pid : PageId) (b r : bool) :
  inv s -> unpin_page pid b s = (Ret r, s') ->
  if r then exists f p x, page_table_ s !! pid = Some f /\ frame s f = Some p /\ pin_count_ p <> 0 /\ rp_inv x /\
    s' = touched s f (unpinned p b) x (disk_manager_ s) /\
    rp_frames x = (if decide (pin_count_ p - 1 = 0) then {[f]} ∪ rp_frames (replacer_ s)
                   else rp_frames (replacer_ s) ∖ {[f]})
  else s' = s /\ pins s pid = 0.
Proof.
  intros I Hrun. unfold unpin_page in Hrun.
  rewrite (bind_run _ _ s s (page_table_ s !! pid)) in Hrun by done.
  destruct (page_table_ s !! pid) as [f|] eqn:Hm.
  2: { injection Hrun as <- <-. split; [done|]. unfold pins. by rewrite Hm. }
  destruct (mapped_frame s pid f I Hm) as (p & Hp & _).
  rewrite (bind_run _ _ _ _ _ (get_frame_run _ _ _ Hp)) in Hrun.
  destruct (Z.eqb_spec (pin_count_ p) 0) as [E0|E0].
  { injection Hrun as <- <-. split; [done|]. unfold pins. rewrite Hm. simpl. by rewrite Hp. }
  apply bind_Ret_inv in Hrun as (n & s1 & H1 & Hrun). apply int_op_inv in H1 as (-> & -> & _).
  apply bind_Ret_inv in Hrun as ([] & s2 & H2 & Hrun). rewrite (upd_frame_run _ _ _ _ Hp) in H2. injection H2 as <-.
  set (q := set_pin (pin_count_ p - 1) p) in *.
  apply bind_Ret_inv in Hrun as ([] & s3 & H3 & Hrun).
  assert (exists x, rp_inv x /\ s3 = set_replacer x (put_frame f q s) /\
    rp_frames x = (if decide (pin_count_ p - 1 = 0) then {[f]} ∪ rp_frames (replacer_ s)
                   else rp_frames (replacer_ s) ∖ {[f]})) as (x & Hx & -> & Hfr).
  { destruct (Z.eqb_spec (pin_count_ p - 1) 0) as [E1|E1].
    - apply on_replacer_inv in H3 as (x & H3 & ->). exists x. simpl in H3.
      destruct (rp_unpin_ok f (replacer_ s) (i_repl _ I)) as (x' & H3' & Hx & Hfr).
      rewrite H3 in H3'. injection H3' as <-. by rewrite decide_True.
    - injection H3 as <-. exists (replacer_ s). rewrite decide_False by done.
      split_and!; [apply I|by destruct s|]. apply set_eq. intros g.
      rewrite elem_of_difference, elem_of_singleton. split; [|by intros [? _]]. intros Hg. split; [done|].
      intros ->. destruct (i_evict _ I f Hg) as (p' & Hp' & E'). congruence. }
  apply bind_Ret_inv in Hrun as ([] & s4 & H4 & Hrun). injection Hrun as <- <-.
  apply upd_frame_inv in H4 as (q0 & Hq0 & ->).
  change (frame (put_frame f q s) f = Some q0) in Hq0. rewrite (frame_put_eq s f p) in Hq0 by done.
  injection Hq0 as <-. exists f, p, x. split_and!; try done.
  unfold touched, put_frame, set_pages, set_replacer, set_disk. simpl. by rewrite list_insert_insert_eq.
Qed.

(** [unpin_page] on a page that is unmapped or not pinned changes nothing. *)
Lemma unpin_page_inv (s s' : BPM) (pid : PageId) (b r : bool) :
  inv s ->
  (pins s pid = 1 -> b = false -> forall f p, page_table_ s !! pid = Some f -> frame s f = Some p ->
     is_dirty_ p = false -> synced (disk_manager_ s) p) ->
  unpin_page pid b s = (Ret r, s') ->
  if r then inv s' /\ (forall pid', 0 <= page_no pid' -> logical s' pid' = logical s pid') /\
    (forall pid', pins s' pid' = if decide (pid' = pid) then pins s pid - 1 else pins s pid') /\ 0 < pins s pid
  else s' = s /\ pins s pid = 0.
Proof.
  intros I Hcl Hrun. apply unpin_page_shape in Hrun; [|done]. destruct r; [|done].
  destruct Hrun as (f & p & x & Hm & Hp & Hpin0 & Hx & -> & Hfr).
  destruct (mapped_frame s pid f I Hm) as (p' & Hp' & Eid & Hm' & Hl & Hpin & Hn). assert (p' = p) as -> by congruence.
  assert (pins s pid = pin_count_ p) as Epins by (unfold pins; rewrite Hm; simpl; by rewrite Hp).
  split_and!; [|intros pid' Hn'|intros pid'|lia].
  - apply (touched_inv s f p (unpinned p b)); try done; [simpl; lia|]. simpl. intros E1 Ed.
    apply orb_false_iff in Ed as [Ed Eb]. destruct (Hcl ltac:(lia) Eb f p Hm Hp Ed) as [S1 S2]. done.
  - rewrite (touched_logical s f p) by done. destruct (decide (pid' = id_ p)) as [E|E]; [|done].
    subst pid'. unfold logical. rewrite Hm'. simpl. by rewrite Hp.
  - rewrite (touched_pins s f p), Eid, Epins by done. done.
Qed.

(** What writing the cached page [pid] to disk does. *)
Record flushed (pid : PageId) (s s' : BPM) : Prop := {
  fl_inv : inv s';
  fl_logical : forall pid', 0 <= page_no pid' -> logical s' pid' = logical s pid';
  fl_pins : forall pid', pins s' pid' = pins s pid';
  fl_table : page_table_ s' = page_table_ s;
  fl_disk : dpage (disk_manager_ s') pid = logical s pid /\ present (disk_manager_ s') pid;
  fl_only : disk_only pid (disk_manager_ s) (disk_manager_ s');
  fl_frame : forall g p, frame s g = Some p ->
    exists b, frame s' g = Some (set_dirty b p) /\ (b = is_dirty_ p \/ page_table_ s !! pid = Some g)
}.

Lemma flush_frame_inv (s s' : BPM) (pid : PageId) (f : Z) (p : Page) :
  inv s -> page_table_ s !! pid = Some f -> frame s f = Some p ->
  (on_disk (write_page (fd pid) (page_no pid) (data_ p) PAGE_SIZE) ;; upd_frame f (set_dirty false)) s = (Ret tt, s') ->
  flushed pid s s'.
Proof.
  intros I Hm Hp Hrun.
  destruct (mapped_frame s pid f I Hm) as (p' & Hp' & Eid & Hm' & Hl & Hpin & Hn).
  assert (p' = p) as -> by congruence.
  apply bind_Ret_inv in Hrun as ([] & s1 & H1 & Hrun). apply on_disk_inv in H1 as (d' & H1 & ->).
  apply disk_only_write in H1 as (D & Hd & Hpr); [|done|apply I].
  apply upd_frame_inv in Hrun as (q & Hq & ->). change (frame s f = Some q) in Hq.
  assert (q = p) as -> by congruence. pose proof D as D0. rewrite <- Eid in D.
  assert (put_frame f (set_dirty false p) (set_disk d' s) = touched s f (set_dirty false p) (replacer_ s) d') as ->
    by (by destruct s).
  assert (logical s pid = data_ p) as Hlog by (unfold logical; rewrite Hm; simpl; by rewrite Hp).
  split; [|intros pid' Hn'|intros pid'|done|by rewrite Hlog|done|intros g q Hq'].
  - apply (touched_inv s f p); try done; [apply I| |].
    + apply set_eq. intros g. simpl. case_decide as E.
      * pose proof (i_unpinned _ I f p Hp Hm' E). set_solver.
      * assert (f ∉ rp_frames (replacer_ s)); [|set_solver].
        intros Hin. destruct (i_evict _ I f Hin) as (p' & Hp'' & E'). congruence.
    + intros _ _. unfold synced. simpl. by rewrite Eid, Hd.
  - rewrite (touched_logical s f p) by done. case_decide as E; [|done]. subst. by rewrite Hlog.
  - rewrite (touched_pins s f p) by done. case_decide as E; [|done]. subst. unfold pins. rewrite Hm. simpl. by rewrite Hp.
  - rewrite (frame_touched s f g p) by done. case_decide as E.
    + subst. exists false. split; [congruence|by right].
    + exists (is_dirty_ q). split; [|by left]. rewrite Hq'. by destruct q.
Qed.

Lemma flush_page_inv (s s' : BPM) (pid : PageId) (r : bool) :
  inv s -> flush_page pid s = (Ret r, s') ->
  if r then flushed pid s s' else s' = s /\ page_table_ s !! pid = None.
Proof.
  intros I Hrun. unfold flush_page in Hrun.
  rewrite (bind_run _ _ s s (page_table_ s !! pid)) in Hrun by done.
  destruct (page_table_ s !! pid) as [f|] eqn:Hm; [|by injection Hrun as <- <-].
  destruct (mapped_frame s pid f I Hm) as (p & Hp & _).
  rewrite (bind_run _ _ _ _ _ (get_frame_run _ _ _ Hp)) in Hrun.
  apply bind_Ret_inv in Hrun as ([] & s1 & H1 & Hrun).
  apply bind_Ret_inv in Hrun as ([] & s2 & H2 & Hrun). injection Hrun as <- <-.
  apply (flush_frame_inv s s2 pid f p); try done. by rewrite (bind_run _ _ _ _ _ H1).
Qed.

(** *** Flushing many pages, in any order *)

(** [s'] is [s] with some of its dirty frames written back. *)
Record flushed_some (s s' : BPM) : Prop := {
  fs_inv : inv s';
  fs_logical : forall pid, 0 <= page_no pid -> logical s' pid = logical s pid;
  fs_pins : forall pid, pins s' pid = pins s pid;
  fs_table : page_table_ s' = page_table_ s;
  fs_ino : forall x, fd_ino (dm_fs (disk_manager_ s')) x = fd_ino (dm_fs (disk_manager_ s)) x
}.

Lemma flushed_some_refl (s : BPM) : inv s -> flushed_some s s.
Proof. by split. Qed.

Lemma flushed_step (s s1 s2 : BPM) (pid : PageId) :
  flushed pid s s1 -> flushed_some s1 s2 -> flushed_some s s2.
Proof.
  intros F G. split.
  - apply G.
  - intros pid' Hn. rewrite (fs_logical _ _ G) by done. by apply F.
  - intros pid'. rewrite (fs_pins _ _ G). apply F.
  - rewrite (fs_table _ _ G). apply F.
  - intros x. rewrite (fs_ino _ _ G). apply F.
Qed.

(** A page is on disk as the clients see it. *)
Definition durable (s : BPM) (pid : PageId) : Prop :=
  dpage (disk_manager_ s) pid = logical s pid /\ present (disk_manager_ s) pid.

Lemma flushed_durable (s s' : BPM) (pid pid' : PageId) :
  flushed pid s s' -> 0 <= page_no pid' -> durable s pid' \/ pid' = pid -> durable s' pid'.
Proof.
  intros F Hn Hd. destruct (decide (pid' = pid)) as [->|Hne].
  - destruct (fl_disk _ _ _ F) as [D1 D2]. split; [|done]. rewrite (fl_logical _ _ _ F) by done. done.
  - destruct Hd as [[D1 D2]|]; [|done]. split; [|by apply (do_present _ _ _ (fl_only _ _ _ F))].
    rewrite (fl_logical _ _ _ F) by done. rewrite <- D1. by apply (do_other _ _ _ (fl_only _ _ _ F)).
Qed.

(** The loops of [flush_all_pages] and [flush_all_page]: [skip] is the test of
    the [continue]. *)
Lemma flush_loop_inv (skip : PageId -> Page -> bool) (body : PageId * Z -> M BPM unit)
    (order : list (PageId * Z)) (s s' : BPM) :
  (forall pid f p t, frame t f = Some p -> body (pid, f) t =
    (if skip pid p then mret tt else
     on_disk (write_page (fd pid) (page_no pid) (data_ p) PAGE_SIZE) ;; upd_frame f (set_dirty false)) t) ->
  (forall pid p b, skip pid p = false -> skip pid (set_dirty b p) = false \/ b = false) ->
  inv s -> (forall pid f, (pid, f) ∈ order -> page_table_ s !! pid = Some f) ->
  forM order body s = (Ret tt, s') ->
  flushed_some s s' /\
  (forall pid, 0 <= page_no pid -> durable s pid -> durable s' pid) /\
  (forall pid f p, (pid, f) ∈ order -> frame s f = Some p -> skip pid p = false -> durable s' pid).
Proof.
  intros Hbody Hskip. revert s. induction order as [|[pid f] order IH]; intros s I Hin Hrun.
  - injection Hrun as <-. split_and!; [by apply flushed_some_refl|done|]. intros pid f p H. by apply elem_of_nil in H.
  - simpl in Hrun. assert (page_table_ s !! pid = Some f) as Hm by (apply Hin; left).
    destruct (mapped_frame s pid f I Hm) as (p & Hp & Eid & _ & _ & _ & Hn).
    apply bind_Ret_inv in Hrun as ([] & s1 & H1 & Hrun).
    rewrite (Hbody pid f p s Hp) in H1.
    destruct (skip pid p) eqn:Esk.
    + injection H1 as <-. destruct (IH s) as (F & D1 & D2); [done| |done|].
      { intros pid' f' H. apply Hin. by right. }
      split_and!; [done|done|]. intros pid' f' q Hel Hq Hs. apply elem_of_cons in Hel as [[= -> ->]|H]; [congruence|by eapply D2].
    + apply flush_frame_inv in H1 as F; [|done..].
      destruct (IH s1) as (G & D1 & D2); [apply F| |done|].
      { intros pid' f' H. rewrite (fl_table _ _ _ F). apply Hin. by right. }
      split_and!; [by eapply flushed_step| |].
      * intros pid' Hn' Hd. apply D1; [done|]. eapply flushed_durable; [done|done|by left].
      * intros pid' f' q Hel Hq Hs. apply elem_of_cons in Hel as [[= -> ->]|H].
        { apply D1; [done|]. eapply flushed_durable; [done|done|by right]. }
        assert (page_table_ s !! pid' = Some f') as Hm' by (apply Hin; by right).
        destruct (fl_frame _ _ _ F f' q Hq) as (b & Hb & Eb).
        destruct (Hskip pid' q b Hs) as [Hs'| ->]; [by eapply D2|]. destruct Eb as [Eb|Eb].
        { eapply D2; [done|exact Hb|]. destruct q. simpl in Eb. by subst. }
        assert (pid' = pid) as ->.
        { destruct (mapped_frame s pid' f' I Hm') as (q' & Hq' & Eid' & _). congruence. }
        apply D1; [done|]. eapply flushed_durable; [done|done|by right].
Qed.

Lemma order_mapped (s : BPM) (order : list (PageId * Z)) :
  order ≡ₚ map_to_list (page_table_ s) ->
  forall pid f, (pid, f) ∈ order <-> page_table_ s !! pid = Some f.
Proof. intros E pid f. rewrite E. apply elem_of_map_to_list. Qed.

Lemma logical_length (s : BPM) (pid : PageId) (f : Z) :
  inv s -> page_table_ s !! pid = Some f -> length (logical s pid) = page_len.
Proof.
  intros I Hm. destruct (mapped_frame s pid f I Hm) as (p & Hp & _ & _ & Hl & _).
  unfold logical. rewrite Hm. simpl. by rewrite Hp.
Qed.

(** A client changes the content of a page it has pinned. *)
(** Changing a page in place: it must be pinned or already known to be dirty. *)
Lemma modify_data_any (s s' : BPM) (pid : PageId) (f : Z) (g : list Z -> list Z) (u : unit) :
  inv s -> page_table_ s !! pid = Some f ->
  (forall p, frame s f = Some p -> pin_count_ p = 0 -> is_dirty_ p = true) ->
  length (g (logical s pid)) = page_len ->
  modify_data f g s = (Ret u, s') ->
  inv s' /\ logical s' pid = g (logical s pid) /\
  (forall pid', 0 <= page_no pid' -> pid' <> pid -> logical s' pid' = logical s pid') /\
  (forall pid', pins s' pid' = pins s pid').
Proof.
  intros I Hm Hdirty Hg Hrun. destruct (mapped_frame s pid f I Hm) as (p & Hp & Eid & Hm' & Hl & Hpin & Hn).
  unfold modify_data in Hrun. rewrite (upd_frame_run _ _ _ _ Hp) in Hrun. injection Hrun as _ <-.
  assert (pins s pid = pin_count_ p) as Epins by (unfold pins; rewrite Hm; simpl; by rewrite Hp).
  assert (logical s pid = data_ p) as Hlog by (unfold logical; rewrite Hm; simpl; by rewrite Hp).
  set (q := set_data (g (data_ p)) p).
  assert (put_frame f q s = touched s f q (replacer_ s) (disk_manager_ s)) as -> by (by destruct s).
  split_and!; [| |intros pid' Hn' Hne|intros pid'].
  - apply (touched_inv s f p q); try done; [by rewrite Hlog in Hg|apply I| |].
    + simpl. apply set_eq. intros h. destruct (decide (pin_count_ p = 0)) as [E0|E0].
      * pose proof (i_unpinned _ I f p Hp Hm' E0). set_solver.
      * assert (f ∉ rp_frames (replacer_ s)); [|set_solver].
        intros Hin. destruct (i_evict _ I f Hin) as (p' & Hp' & E'). assert (p' = p) by congruence. subst. lia.
    + simpl. intros E0 Ed. rewrite (Hdirty p Hp E0) in Ed. done.
  - rewrite (touched_logical s f p) by done. by rewrite Eid, Hlog, decide_True.
  - rewrite (touched_logical s f p) by done. by rewrite Eid, decide_False.
  - rewrite (touched_pins s f p) by done. case_decide as E; [|done]. subst. by rewrite Epins.
Qed.

Lemma modify_data_inv (s s' : BPM) (pid : PageId) (f : Z) (g : list Z -> list Z) (u : unit) :
  inv s -> page_table_ s !! pid = Some f -> 0 < pins s pid ->
  length (g (logical s pid)) = page_len ->
  modify_data f g s = (Ret u, s') ->
  inv s' /\ logical s' pid = g (logical s pid) /\
  (forall pid', 0 <= page_no pid' -> pid' <> pid -> logical s' pid' = logical s pid') /\
  (forall pid', pins s' pid' = pins s pid').
Proof.
  intros I Hm Hpos Hg Hrun. eapply modify_data_any; try done. intros p Hp E0.
  assert (pins s pid = pin_count_ p) as Epins by (unfold pins; rewrite Hm; simpl; by rewrite Hp). lia.
Qed.

(** ** Deleting pages *)

(** The pool after the unpinned page [p] of frame [f] has been dropped. *)
Definition released (s : BPM) (f : Z) (p : Page) (d : DiskManager) : BPM :=
  set_free (free_list_ s ++ [f]) (set_table (delete (id_ p) (page_table_ s))
    (put_frame f (set_dirty false p) (set_disk d s))).

Lemma frame_released (s : BPM) (f g : Z) (p : Page) (d : DiskManager) :
  frame s f = Some p ->
  frame (released s f p d) g = if decide (g = f) then Some (set_dirty false p) else frame s g.
Proof. intros Hp. exact (frame_put s f g p _ Hp). Qed.

Lemma released_inv (s : BPM) (f : Z) (p : Page) (d : DiskManager) :
  inv s -> frame s f = Some p -> page_table_ s !! id_ p = Some f -> pin_count_ p = 0 ->
  written_back p (disk_manager_ s) d -> inv (released s f p d).
Proof.
  intros I Hp Hm Hpin W.
  assert (f ∉ free_list_ s) as Hnf.
  { intros Hin. destruct (i_free _ I f Hin) as (p' & Hp' & _ & _ & Hn). congruence. }
  split; [|at_frame (frame_released s f)|at_frame (frame_released s f)| | | |at_frame (frame_released s f)
    | | |at_frame (frame_released s f)| |at_frame (frame_released s f)].
  - simpl. rewrite length_insert. apply I.
  - intros [= <-]. exact (i_data _ I f p Hp).
  - by apply (i_data _ I).
  - intros [= <-]. exact (i_pin _ I f p Hp).
  - by apply (i_pin _ I).
  - intros pid g. simpl. rewrite lookup_delete_Some. intros [Hne Hg].
    destruct (i_table _ I _ _ Hg) as [(q & Hq & Eq) Hn]. split; [|done]. exists q.
    rewrite (frame_released s f g p) by done. rewrite decide_False; [done|]. intros ->. congruence.
  - simpl. apply NoDup_app. split_and!; [apply I| |apply NoDup_singleton]. intros g Hg.
    rewrite list_elem_of_singleton. by intros ->.
  - intros g. simpl. rewrite elem_of_app, list_elem_of_singleton, (frame_released s f g p) by done.
    intros [Hg| ->].
    + rewrite decide_False by (by intros ->). destruct (i_free _ I g Hg) as (q & Hq & H1 & H2 & Hn).
      exists q. split_and!; [done..|]. apply lookup_delete_None. by right.
    + rewrite decide_True by done. exists (set_dirty false p). split_and!; [done..|]. simpl. apply lookup_delete_eq.
  - intros [= <-]. left. simpl. set_solver.
  - intros Hq. simpl. destruct (i_cover _ I g q Hq) as [Hin|Hmq]; [left; set_solver|].
    right. rewrite lookup_delete_ne; [done|congruence].
  - apply I.
  - intros g Hg. rewrite (frame_released s f g p) by done. case_decide; [by eauto|]. by apply (i_evict _ I).
  - intros [= <-]. simpl. by rewrite lookup_delete_eq.
  - simpl. rewrite lookup_delete_Some. intros Hq [_ Hmq]. by apply (i_unpinned _ I g q).
  - simpl. eapply written_back_fds; [done|apply I].
  - intros [= <-]. simpl. by rewrite lookup_delete_eq.
  - simpl. rewrite lookup_delete_Some. intros Hq [Hne Hmq] H1 H2.
    eapply synced_written_back; [done|by intros _ ?| |by apply (i_clean _ I g)]. by apply (i_table _ I _ _ Hmq).
Qed.

Lemma released_view (s : BPM) (f : Z) (p : Page) (d : DiskManager) :
  inv s -> frame s f = Some p -> page_table_ s !! id_ p = Some f -> pin_count_ p = 0 ->
  written_back p (disk_manager_ s) d ->
  (forall pid, 0 <= page_no pid -> logical (released s f p d) pid = logical s pid) /\
  (forall pid, pins (released s f p d) pid = pins s pid).
Proof.
  intros I Hp Hm Hpin W. split; [intros pid Hn; unfold logical|intros pid; unfold pins]; simpl page_table_; simpl disk_manager_.
  all: destruct (decide (pid = id_ p)) as [->|Hne];
    [rewrite lookup_delete_eq, Hm; simpl; rewrite Hp|
     rewrite lookup_delete_ne by done; destruct (page_table_ s !! pid) as [g|] eqn:Eg; simpl].
  - rewrite (wb_page _ _ _ W) by done. case_decide as Ed; [done|]. apply (i_clean _ I f p); try done.
    destruct (is_dirty_ p); [|done]. by destruct Ed.
  - destruct (i_table _ I _ _ Eg) as [(q & Hq & Eq) _].
    rewrite (frame_released s f g p) by done. rewrite decide_False, Hq; [done|]. intros ->. congruence.
  - rewrite (wb_page _ _ _ W) by done. rewrite decide_False; [done|]. naive_solver.
  - by symmetry.
  - destruct (i_table _ I _ _ Eg) as [(q & Hq & Eq) _].
    rewrite (frame_released s f g p) by done. rewrite decide_False, Hq; [done|]. intros ->. congruence.
  - done.
Qed.

Lemma update_released (s s1 : BPM) (f : Z) (p : Page) (pid : PageId) :
  inv s -> frame s f = Some p ->
  update_page f pid INVALID_FRAME_ID s = (Ret tt, s1) ->
  exists d, written_back p (disk_manager_ s) d /\ set_free (free_list_ s1 ++ [f]) s1 = released s f p d.
Proof.
  intros I Hp Hrun. apply (update_page_inv s s1 f pid _ p) in Hrun as (d & W & E); [|done|by apply (i_data _ I f)|apply I].
  rewrite decide_True in E by done. exists d. split; [done|]. by rewrite E.
Qed.

Lemma delete_page_inv (s s' : BPM) (pid : PageId) (r : bool) :
  inv s -> delete_page pid s = (Ret r, s') ->
  inv s' /\ (forall pid', 0 <= page_no pid' -> logical s' pid' = logical s pid') /\
  (forall pid', pins s' pid' = pins s pid') /\
  (if r then page_table_ s' !! pid = None else s' = s /\ pins s pid <> 0).
Proof.
  intros I Hrun. unfold delete_page in Hrun.
  rewrite (bind_run _ _ s s (page_table_ s !! pid)) in Hrun by done.
  destruct (page_table_ s !! pid) as [f|] eqn:Hm; [|by injection Hrun as <- <-].
  destruct (mapped_frame s pid f I Hm) as (p & Hp & Eid & Hm' & Hl & Hpin & Hn).
  rewrite (bind_run _ _ _ _ _ (get_frame_run _ _ _ Hp)) in Hrun.
  destruct (Z.eqb_spec (pin_count_ p) 0) as [E0|E0]; simpl in Hrun.
  - apply bind_Ret_inv in Hrun as ([] & s1 & H1 & Hrun). injection Hrun as <- <-.
    apply (update_released s s1 f p) in H1 as (d & W & ->); [|done|done].
    destruct (released_view s f p d) as [V1 V2]; try done.
    split_and!; [by apply released_inv|done|done|]. simpl. rewrite <- Eid. apply lookup_delete_eq.
  - injection Hrun as <- <-. split_and!; try done. unfold pins. rewrite Hm. simpl. by rewrite Hp.
Qed.

(** *** [delete_all_page] *)

Definition droppable (s : BPM) (f : Z) : Prop :=
  exists p, frame s f = Some p /\ page_table_ s !! id_ p = Some f /\ pin_count_ p = 0.

Lemma collect_frames_inv (file : Z) (order : list (PageId * Z)) (s s' : BPM) (o : option (list Z)) :
  inv s -> (forall pid f, (pid, f) ∈ order -> page_table_ s !! pid = Some f) ->
  collect_frames file order s = (Ret o, s') ->
  s' = s /\
  match o with
  | Some l => l = (filter (fun e => fd e.1 = file) order).*2 /\ Forall (droppable s) l
  | None => exists pid f, (pid, f) ∈ order /\ fd pid = file /\ 0 < pins s pid
  end.
Proof.
  intros I. revert o. induction order as [|[pid f] order IH]; intros o Hin Hrun.
  - injection Hrun as <- <-. by repeat split.
  - simpl in Hrun. assert (page_table_ s !! pid = Some f) as Hm by (apply Hin; left).
    assert (forall pid' f', (pid', f') ∈ order -> page_table_ s !! pid' = Some f') as Hin'.
    { intros pid' f' H. apply Hin. by right. }
    rewrite filter_cons. simpl. destruct (Z.eqb_spec (fd pid) file) as [E|E]; simpl in Hrun.
    + rewrite decide_True by done.
      destruct (mapped_frame s pid f I Hm) as (p & Hp & Eid & Hm' & _ & Hpin & _).
      rewrite (bind_run _ _ _ _ _ (get_frame_run _ _ _ Hp)) in Hrun.
      destruct (Z.eqb_spec (pin_count_ p) 0) as [E0|E0]; simpl in Hrun.
      * apply bind_Ret_inv in Hrun as (o' & s1 & H1 & Hrun). injection Hrun as <- <-.
        destruct (IH o' Hin' H1) as [-> Ho]. split; [done|]. destruct o' as [l|]; simpl.
        { destruct Ho as [-> Hl]. split; [done|]. constructor; [|done]. by exists p. }
        destruct Ho as (pid' & f' & H' & ?). exists pid', f'. split; [by right|done].
      * injection Hrun as <- <-. split; [done|]. exists pid, f. split_and!; [left|done|].
        unfold pins. rewrite Hm. simpl. rewrite Hp. lia.
    + rewrite decide_False by done. destruct (IH o Hin' Hrun) as [-> Ho]. split; [done|].
      destruct o as [l|]; [done|]. destruct Ho as (pid' & f' & H' & ?). exists pid', f'. split; [by right|done].
Qed.

Lemma delete_loop_inv (l : list Z) (s s' : BPM) :
  inv s -> NoDup l -> Forall (droppable s) l ->
  forM l (fun frame_id =>
    p ← get_frame frame_id;
    update_page frame_id (id_ p) INVALID_FRAME_ID ;;
    modify (fun s => set_free (free_list_ s ++ [frame_id]) s)) s = (Ret tt, s') ->
  inv s' /\ (forall pid, 0 <= page_no pid -> logical s' pid = logical s pid) /\
  (forall pid, pins s' pid = pins s pid) /\
  (forall pid f, page_table_ s' !! pid = Some f <-> page_table_ s !! pid = Some f /\ f ∉ l).
Proof.
  revert s. induction l as [|f l IH]; intros s I Hnd Hl Hrun.
  - injection Hrun as <-. split_and!; try done. intros pid f. set_solver.
  - apply NoDup_cons in Hnd as [Hf Hnd]. inversion Hl as [|? ? (p & Hp & Hm & Hpin) Hl']; subst.
    simpl in Hrun. apply bind_Ret_inv in Hrun as ([] & s1 & H1 & Hrun).
    rewrite (bind_run _ _ _ _ _ (get_frame_run _ _ _ Hp)) in H1.
    apply bind_Ret_inv in H1 as ([] & s2 & H2 & H1). injection H1 as <-.
    apply (update_released s s2 f p) in H2 as (d & W & E); [|done|done]. rewrite E in Hrun.
    destruct (released_view s f p d) as [V1 V2]; try done.
    destruct (IH (released s f p d)) as (I' & L' & P' & T'); [by apply released_inv|done| |done|].
    { rewrite Forall_forall in Hl' |- *. intros g Hg. destruct (Hl' g Hg) as (q & Hq & Hmq & Hpq).
      exists q. rewrite (frame_released s f g p) by done. assert (g <> f) by (by intros ->).
      rewrite decide_False by done. split_and!; [done| |done]. simpl.
      rewrite lookup_delete_ne; [done|congruence]. }
    split_and!; [done|..].
    + intros pid Hn. rewrite L' by done. by apply V1.
    + intros pid. rewrite P'. apply V2.
    + intros pid g. rewrite T'. simpl. rewrite lookup_delete_Some. split.
      * intros [[Hne Hg] Hgl]. split; [done|]. intros [->|?]%elem_of_cons; [|done].
        destruct (i_table _ I _ _ Hg) as [(q & Hq & Eq) _]. congruence.
      * intros [Hg Hgl]. split; [|set_solver]. split; [|done]. intros E'. rewrite <- E' in Hg. set_solver.
Qed.

Lemma delete_all_page_inv (order : list (PageId * Z)) (file : Z) (s s' : BPM) (r : bool) :
  inv s -> order ≡ₚ map_to_list (page_table_ s) -> delete_all_page order file s = (Ret r, s') ->
  inv s' /\ (forall pid, 0 <= page_no pid -> logical s' pid = logical s pid) /\
  (forall pid, pins s' pid = pins s pid) /\
  (if r then forall pid f, page_table_ s' !! pid = Some f <-> page_table_ s !! pid = Some f /\ fd pid <> file
   else s' = s /\ exists pid, fd pid = file /\ 0 < pins s pid).
Proof.
  intros I Ho Hrun. pose proof (order_mapped s order Ho) as Hom. unfold delete_all_page in Hrun.
  apply bind_Ret_inv in Hrun as (o & s1 & H1 & Hrun).
  apply (collect_frames_inv file order s s1 o I) in H1 as [-> Hc]; [|intros pid f; apply Hom].
  destruct o as [l|].
  2: { injection Hrun as <- <-. split_and!; try done. destruct Hc as (pid & f & _ & ? & ?). by exists pid. }
  destruct Hc as [-> Hl]. apply bind_Ret_inv in Hrun as ([] & s2 & H2 & Hrun). injection Hrun as <- <-.
  assert (forall f, f ∈ (filter (fun e => fd e.1 = file) order).*2 <-> exists pid, page_table_ s !! pid = Some f /\ fd pid = file) as Hel.
  { intros f. rewrite list_elem_of_fmap. setoid_rewrite list_elem_of_filter. split.
    - intros ([pid g] & -> & Hf & Hin). exists pid. split; [by apply Hom|done].
    - intros (pid & Hm & Hf). exists (pid, f). split_and!; [done|done|by apply Hom]. }
  apply delete_loop_inv in H2 as (I' & L' & P' & T'); [|done| |done].
  - split_and!; [done|done|done|]. intros pid f. rewrite T', Hel. split.
    + intros [Hm Hno]. split; [done|]. intros E. apply Hno. by exists pid.
    + intros [Hm Hne]. split; [done|]. intros (pid' & Hm' & E).
      destruct (mapped_frame _ _ _ I Hm) as (p & Hp & Ep & _), (mapped_frame _ _ _ I Hm') as (p' & Hp' & Ep' & _).
      congruence.
  - assert (forall k : list (PageId * Z), NoDup k -> (forall e, e ∈ k -> page_table_ s !! e.1 = Some e.2) -> NoDup k.*2) as Hnd.
    { intros k. induction k as [|[a b] k IH]; intros Hk Hmk; [constructor|]. simpl. apply NoDup_cons in Hk as [Hk1 Hk2].
      constructor; [|apply IH; [done|]; intros e He; apply Hmk; by right].
      intros ([a' b'] & -> & Hin)%list_elem_of_fmap. assert (page_table_ s !! a = Some b') as Ha by (apply (Hmk (a, b')); left).
      assert (page_table_ s !! a' = Some b') as Ha' by (apply (Hmk (a', b')); by right).
      destruct (mapped_frame _ _ _ I Ha) as (p & Hp & Ep & _), (mapped_frame _ _ _ I Ha') as (p' & Hp' & Ep' & _).
      apply Hk1. simpl. congruence. }
    apply Hnd; [apply NoDup_filter; rewrite Ho; apply NoDup_map_to_list|].
    intros [pid f] [_ H]%list_elem_of_filter. by apply Hom.
Qed.

(** *** The constructor *)

Lemma make_inv (garbage : Z) (n : nat) (d : DiskManager) :
  fd_distinct (dm_fs d) -> inv (make garbage n d).
Proof.
  intros Hd. destruct (rp_new_ok (Z.of_nat n)) as [Hr Hf].
  assert (forall f p, frame (make garbage n d) f = Some p ->
    p = {| id_ := mkPageId garbage INVALID_PAGE_ID; data_ := zero_page; is_dirty_ := false; pin_count_ := 0 |} /\
    0 <= f < Z.of_nat n) as Hfr.
  { intros f p. unfold frame. simpl. destruct (Z.leb_spec 0 f); [|done].
    intros [-> Hlt]%lookup_replicate. split; [done|lia]. }
  split; simpl; try done.
  - by rewrite length_replicate.
  - intros f p [-> _]%Hfr. apply length_replicate.
  - intros f p [-> _]%Hfr. done.
  - apply NoDup_fmap; [apply _|apply NoDup_seq].
  - intros f (i & -> & Hi)%list_elem_of_fmap. apply elem_of_seq in Hi.
    assert (exists p, frame (make garbage n d) (Z.of_nat i) = Some p) as [p Hp].
    { unfold frame. simpl. rewrite Zle_imp_le_bool by lia.
      rewrite Nat2Z.id, lookup_replicate_2 by lia. by eexists. }
    exists p. split; [done|]. apply Hfr in Hp as [-> _]. done.
  - intros f p [-> Hb]%Hfr. left. apply list_elem_of_fmap. exists (Z.to_nat f).
    rewrite elem_of_seq. lia.
  - intros f. rewrite Hf. set_solver.
Qed.

End facts.
End BpmFacts.
