(* ===== verification/BufferPoolSpec.v ===== *)
(** * The buffer pool's contract

    Progress of the operations on a reliable operating system, the reachable
    states as a step relation, and the properties of the pool. *)

From S2P Require Import Prelude Bytes Posix Disk Replacer BufferPool BufferPoolFacts.
Import Disk.

Module BpmSpec.
Import Bpm BpmFacts.
Section spec.
Context {R : Type} {RO : Replacer R} {RL : ReplacerLaws R} {FO : FileSystem} {FL : FileSystemLaws}.
Abbreviation BPM := (BufferPoolManager R).
Implicit Types s : BPM.

(** Every cached page can be written: its file is open and its offset an [int]. *)
Definition writable (s : BPM) : Prop :=
  forall pid f, page_table_ s !! pid = Some f ->
    page_no_ok (page_no pid) = true /\ fd_open (disk_manager_ s) (fd pid).

(** ** Progress *)

Lemma pin_replacer_run (s : BPM) (f : Z) :
  rp_inv (replacer_ s) -> exists r, on_replacer (rp_pin f) s = (Ret tt, set_replacer r s).
Proof.
  intros Hr. destruct (rp_pin_ok f _ Hr) as (r & E & _). exists r. by apply zoom_run.
Qed.

Lemma finish_run {A} (s : BPM) (f : Z) (p : Page) (x : A) :
  rp_inv (replacer_ s) -> frame s f = Some p -> in_i32 (pin_count_ p + 1) = true ->
  exists s', (on_replacer (rp_pin f) ;; incr_pin f ;; mret x) s = (Ret x, s').
Proof.
  intros Hr Hp Hn. destruct (pin_replacer_run s f Hr) as [r E].
  rewrite (bind_run _ _ _ _ _ E). erewrite bind_run by (apply incr_pin_run; [exact Hp|done]).
  by eexists.
Qed.

(** Claiming and rewriting a frame succeeds whenever some frame is not pinned. *)
Lemma claim_run {FR : FileSystemReliable} (s : BPM) (pid : PageId) :
  inv s -> writable s -> page_table_ s !! pid = None ->
  (exists f p, frame s f = Some p /\ pin_count_ p = 0) ->
  exists f p s1 s2, find_victim_page s = (Ret (Some f), s1) /\ claimed s f s1 /\ frame s f = Some p /\
    pin_count_ p = 0 /\ update_page f pid f s1 = (Ret tt, s2).
Proof.
  intros I Hw Hmiss (g & q & Hq & Hpq).
  destruct (find_victim_spec s I) as (o & s1 & Hv & Ho). destruct o as [f|].
  2: { destruct Ho as [_ Ho]. specialize (Ho g q Hq). lia. }
  destruct (cl_frame _ _ _ Ho) as (p & Hp & Hpin). destruct (claimed_parts _ _ _ Ho) as (_ & _ & _ & Ed).
  destruct (update_page_run s1 f pid f p) as [s2 Hu].
  - by rewrite (claimed_frame s s1 f).
  - by apply (i_data _ I f).
  - intros Hd. rewrite Ed. destruct (claimed_table s s1 f p I Ho Hp) as [[Hm _]|(_ & Hd' & _)].
    + by apply (Hw _ f).
    + congruence.
  - by exists f, p, s1, s2.
Qed.

Lemma fetch_page_run {FR : FileSystemReliable} (s : BPM) (pid : PageId) :
  inv s -> writable s -> page_no_ok (page_no pid) = true ->
  (page_table_ s !! pid = None ->
     present (disk_manager_ s) pid /\ exists f p, frame s f = Some p /\ pin_count_ p = 0) ->
  pins s pid < INT32_MAX ->
  exists f s', fetch_page pid s = (Ret (Some f), s').
Proof.
  intros I Hw Hok Hmiss Hpins. unfold fetch_page.
  rewrite (bind_run _ _ s s (page_table_ s !! pid)) by done.
  destruct (page_table_ s !! pid) as [f|] eqn:Hm.
  - destruct (mapped_frame s pid f I Hm) as (p & Hp & Eid & Hm' & Hl & Hpin & Hn).
    assert (pins s pid = pin_count_ p) as Epins by (unfold pins; rewrite Hm; simpl; by rewrite Hp).
    destruct (finish_run s f p (Some f)) as [s' E]; [apply I|done| |by exists f, s'].
    unfold in_i32, INT32_MIN, INT32_MAX in *. lia.
  - destruct (Hmiss eq_refl) as [Hpr Hfree].
    destruct (claim_run s pid I Hw Hm Hfree) as (f & p & s1 & s2 & Hv & C & Hp & Hpin & Hu).
    rewrite (bind_run _ _ _ _ _ Hv), (bind_run _ _ _ _ _ Hu).
    apply (replace_frame s s1 s2 f p pid I C Hp Hm) in Hu as (d2 & W & E2).
    destruct (claimed_parts _ _ _ C) as (_ & _ & _ & E1d). rewrite E1d in W.
    set (p2 := set_id pid (set_dirty false p)) in *.
    assert (frame s2 f = Some p2) as Hp2.
    { rewrite E2. apply (frame_put_eq (set_disk d2 s1) f p p2). by rewrite <- (claimed_frame s s1 f) in Hp. }
    destruct (read_page_run (fd pid) (page_no pid) (data_ p2) (disk_manager_ s2)) as [d3 Hrd].
    { by apply (i_data _ I f p Hp). } { done. } { rewrite E2. simpl. by apply (wb_present _ _ _ W pid). }
    erewrite bind_run.
    2: { unfold read_into. rewrite (bind_run _ _ _ _ _ (get_frame_run _ _ _ Hp2)). apply zoom_run. exact Hrd. }
    set (s3 := put_frame f _ _).
    destruct (finish_run s3 f (set_data (dpage (disk_manager_ s2) pid) p2) (Some f)) as [s' E].
    + unfold s3. rewrite E2. simpl. apply C.
    + unfold s3. simpl. by apply (frame_put_eq (set_disk d3 s2) f p2).
    + simpl. by rewrite Hpin.
    + by exists f, s'.
Qed.

Lemma new_page_run {FR : FileSystemReliable} (s : BPM) (file n : Z) :
  inv s -> writable s -> n = default 0 (fd2pageno_ (disk_manager_ s) !! file) ->
  fd_in_range file = true -> 0 <= n -> n < INT32_MAX -> page_table_ s !! mkPageId file n = None ->
  (exists f p, frame s f = Some p /\ pin_count_ p = 0) ->
  exists f s', new_page file s = (Ret (Some (f, mkPageId file n)), s').
Proof.
  intros I Hw -> Hr Hn0 Hn Hmiss Hfree. unfold new_page. set (n := default 0 _) in *. set (pid := mkPageId file n) in *.
  set (da := set_pageno (<[file := n + 1]> (fd2pageno_ (disk_manager_ s))) (disk_manager_ s)).
  destruct (find_victim_spec s I) as (o & s1 & Hv & Ho). destruct o as [f|].
  2: { destruct Ho as [_ Ho], Hfree as (g & q & Hq & Hpq). specialize (Ho g q Hq). lia. }
  rewrite (bind_run _ _ _ _ _ Hv).
  destruct (cl_frame _ _ _ Ho) as (p & Hp & Hpin). destruct (claimed_parts _ _ _ Ho) as (_ & _ & _ & Ed).
  erewrite bind_run.
  2: { apply zoom_run. rewrite Ed. apply (allocate_page_run file (disk_manager_ s) n); [done|done|].
       unfold in_i32, INT32_MIN, INT32_MAX in *. lia. }
  fold pid da. assert (frame s1 f = Some p) as Hp1 by by rewrite (claimed_frame s s1 f).
  assert (inv (set_disk da s)) as Ia by by apply inv_pageno.
  pose proof (claimed_disk s s1 f da Ho) as Ca.
  destruct (update_page_run (set_disk da s1) f pid f p) as [s2 Hu]; [done|by apply (i_data _ I f)| |].
  { intros Hd. simpl. destruct (claimed_table s s1 f p I Ho Hp) as [[Hm _]|(_ & Hd' & _)]; [|congruence].
    destruct (Hw _ f Hm) as [H1 H2]. done. }
  rewrite (bind_run _ _ _ _ _ Hu).
  apply (replace_frame (set_disk da s) (set_disk da s1) s2 f p pid Ia Ca Hp Hmiss) in Hu as (d2 & W & E2).
  assert (frame s2 f = Some (set_id pid (set_dirty false p))) as Hp2.
  { rewrite E2. exact (frame_put_eq (set_disk d2 s1) f p _ Hp1). }
  rewrite (bind_run _ _ _ _ _ (upd_frame_run _ _ reset_memory _ Hp2)).
  destruct (finish_run (put_frame f (reset_memory (set_id pid (set_dirty false p))) s2) f
    (reset_memory (set_id pid (set_dirty false p))) (Some (f, pid))) as [s' E].
  - rewrite E2. simpl. apply Ho.
  - by eapply frame_put_eq.
  - simpl. by rewrite Hpin.
  - by exists f, s'.
Qed.

Lemma flush_page_run {FR : FileSystemReliable} (s : BPM) (pid : PageId) (f : Z) :
  inv s -> writable s -> page_table_ s !! pid = Some f -> exists s', flush_page pid s = (Ret true, s').
Proof.
  intros I Hw Hm. destruct (mapped_frame s pid f I Hm) as (p & Hp & Eid & Hm' & Hl & _).
  destruct (Hw pid f Hm) as [Hok Hop]. destruct (write_page_run (fd pid) (page_no pid) (data_ p) (disk_manager_ s)) as [d' E]; [done..|].
  unfold flush_page. rewrite (bind_run _ _ s s (Some f)) by (by unfold gets; rewrite Hm).
  rewrite (bind_run _ _ _ _ _ (get_frame_run _ _ _ Hp)). erewrite bind_run by (apply zoom_run; exact E).
  erewrite bind_run by (apply upd_frame_run; exact Hp). by eexists.
Qed.

Lemma unpin_page_run (s : BPM) (pid : PageId) (b : bool) :
  inv s -> 0 < pins s pid <= INT32_MAX -> exists s', unpin_page pid b s = (Ret true, s').
Proof.
  intros I Hpins. unfold unpin_page. rewrite (bind_run _ _ s s (page_table_ s !! pid)) by done.
  destruct (page_table_ s !! pid) as [f|] eqn:Hm; [|unfold pins in Hpins; rewrite Hm in Hpins; simpl in Hpins; lia].
  destruct (mapped_frame s pid f I Hm) as (p & Hp & _).
  assert (pins s pid = pin_count_ p) as Epins by (unfold pins; rewrite Hm; simpl; by rewrite Hp).
  rewrite (bind_run _ _ _ _ _ (get_frame_run _ _ _ Hp)). destruct (Z.eqb_spec (pin_count_ p) 0); [lia|].
  erewrite bind_run by (apply int_op_Ret; unfold in_i32, INT32_MIN, INT32_MAX in *; lia).
  erewrite bind_run by (apply upd_frame_run; exact Hp).
  set (q := set_pin _ p). pose proof (frame_put_eq s f p q Hp) as Hq.
  destruct (_ =? 0).
  - destruct (rp_unpin_ok f (replacer_ s) (i_repl _ I)) as (r & Er & _).
    erewrite bind_run by (apply zoom_run; exact Er).
    erewrite bind_run by (apply upd_frame_run; exact Hq). by eexists.
  - erewrite bind_run by reflexivity. erewrite bind_run by (apply upd_frame_run; exact Hq). by eexists.
Qed.

(** ** Sequences of operations *)

Lemma mark_dirty_inv (s s' : BPM) (pid : PageId) (f : Z) (u : unit) :
  inv s -> page_table_ s !! pid = Some f -> mark_dirty f s = (Ret u, s') ->
  inv s' /\ (forall pid', 0 <= page_no pid' -> logical s' pid' = logical s pid').
Proof.
  intros I Hm Hrun. destruct (mapped_frame s pid f I Hm) as (p & Hp & Eid & Hm' & Hl & Hpin & Hn).
  unfold mark_dirty in Hrun. rewrite (upd_frame_run _ _ _ _ Hp) in Hrun. injection Hrun as _ <-.
  assert (put_frame f (set_dirty true p) s = touched s f (set_dirty true p) (replacer_ s) (disk_manager_ s)) as ->
    by (by destruct s).
  split; [|intros pid' Hn'].
  - apply (touched_inv s f p); try done; [apply I|]. apply set_eq. intros g. simpl. case_decide as E.
    + pose proof (i_unpinned _ I f p Hp Hm' E). set_solver.
    + assert (f ∉ rp_frames (replacer_ s)); [|set_solver].
      intros Hin. destruct (i_evict _ I f Hin) as (p' & Hp' & E'). congruence.
  - rewrite (touched_logical s f p) by done. case_decide as E; [|done].
    subst. unfold logical. rewrite Hm. simpl. by rewrite Hp.
Qed.

(** A client that unpins with [is_dirty = false] has not left unsaved changes. *)
Definition honest_unpin (s : BPM) (pid : PageId) (is_dirty : bool) : Prop :=
  is_dirty = false -> forall f p, page_table_ s !! pid = Some f -> frame s f = Some p ->
  is_dirty_ p = false -> synced (disk_manager_ s) p.

(** One operation of a client.  The label is the page whose content the
    operation may change.  Pages are fetched and created only under identities
    that no recycled frame still carries ([not_stale]). *)
Inductive step : option PageId -> BPM -> BPM -> Prop :=
| step_fetch s s' pid o : not_stale pid s -> 0 <= page_no pid ->
    fetch_page pid s = (Ret o, s') -> step None s s'
| step_unpin s s' pid b r : honest_unpin s pid b ->
    unpin_page pid b s = (Ret r, s') -> step None s s'
| step_modify s s' pid f g : page_table_ s !! pid = Some f -> 0 < pins s pid ->
    (forall l, length (g l) = length l) -> modify_data f g s = (Ret tt, s') -> step (Some pid) s s'
| step_mark_dirty s s' pid f : page_table_ s !! pid = Some f ->
    mark_dirty f s = (Ret tt, s') -> step None s s'
| step_flush s s' pid r : flush_page pid s = (Ret r, s') -> step None s s'
| step_flush_all_page s s' order : order ≡ₚ map_to_list (page_table_ s) ->
    flush_all_page order s = (Ret tt, s') -> step None s s'
| step_flush_all_pages s s' order file : order ≡ₚ map_to_list (page_table_ s) ->
    flush_all_pages order file s = (Ret tt, s') -> step None s s'
| step_new s s' file n o : n = default 0 (fd2pageno_ (disk_manager_ s) !! file) -> 0 <= n ->
    page_table_ s !! mkPageId file n = None -> not_stale (mkPageId file n) s ->
    new_page file s = (Ret o, s') -> step (Some (mkPageId file n)) s s'
| step_delete s s' pid r : delete_page pid s = (Ret r, s') -> step None s s'
| step_delete_all s s' order file r : order ≡ₚ map_to_list (page_table_ s) ->
    delete_all_page order file s = (Ret r, s') -> step None s s'.

Inductive steps (untouched : PageId -> Prop) : BPM -> BPM -> Prop :=
| steps_refl s : steps untouched s s
| steps_cons s1 s2 s3 l : step l s1 s2 -> (forall pid, l = Some pid -> ~ untouched pid) ->
    steps untouched s2 s3 -> steps untouched s1 s3.

Lemma flush_all_page_inv (s s' : BPM) (order : list (PageId * Z)) :
  inv s -> order ≡ₚ map_to_list (page_table_ s) -> flush_all_page order s = (Ret tt, s') ->
  flushed_some s s' /\
  (forall pid f p, page_table_ s !! pid = Some f -> frame s f = Some p ->
     is_dirty_ p = true \/ pin_count_ p = 0 -> durable s' pid).
Proof.
  intros I Ho Hrun. pose proof (order_mapped s order Ho) as Hom.
  eapply (flush_loop_inv (fun _ p => negb (is_dirty_ p))) in Hrun as (F & D1 & D2);
    [| |intros pid p b H; destruct b; [by left|by right]|done|intros pid f; apply Hom].
  2: { intros pid f p t Hp. by rewrite (bind_run _ _ _ _ _ (get_frame_run _ _ _ Hp)). }
  split; [done|]. intros pid f p Hm Hp Hd. destruct (is_dirty_ p) eqn:Ed.
  - apply (D2 pid f p); [by apply Hom|done|by rewrite Ed].
  - destruct (mapped_frame s pid f I Hm) as (p' & Hp' & Eid & Hm' & _ & _ & Hn).
    assert (p' = p) as -> by congruence. apply D1; [done|].
    destruct (i_clean _ I f p Hp Hm') as [S1 S2]; [naive_solver|done|]. rewrite Eid in S1, S2. split; [|done].
    unfold logical. rewrite Hm. simpl. by rewrite Hp.
Qed.

Lemma flush_all_pages_inv (s s' : BPM) (order : list (PageId * Z)) (file : Z) :
  inv s -> order ≡ₚ map_to_list (page_table_ s) -> flush_all_pages order file s = (Ret tt, s') ->
  flushed_some s s' /\ (forall pid f, page_table_ s !! pid = Some f -> fd pid = file -> durable s' pid).
Proof.
  intros I Ho Hrun. pose proof (order_mapped s order Ho) as Hom.
  eapply (flush_loop_inv (fun pid _ => negb (fd pid =? file))) in Hrun as (F & D1 & D2);
    [| |intros; by left|done|intros pid f; apply Hom].
  - split; [done|]. intros pid f Hm E. destruct (mapped_frame s pid f I Hm) as (p & Hp & _).
    apply (D2 pid f p); [by apply Hom|done|]. by rewrite E, Z.eqb_refl.
  - intros pid f p t Hp. simpl. destruct (Z.eqb_spec (fd pid) file) as [->|]; simpl; [|done].
    by rewrite (bind_run _ _ _ _ _ (get_frame_run _ _ _ Hp)).
Qed.

(** Every operation keeps the invariant and the content of unlabelled pages. *)
Lemma step_inv (s s' : BPM) (l : option PageId) :
  step l s s' -> inv s ->
  inv s' /\ forall pid, 0 <= page_no pid -> l <> Some pid -> logical s' pid = logical s pid.
Proof.
  intros Hst I. destruct Hst as
    [s s' pid o Hns Hn Hrun|s s' pid b r Hh Hrun|s s' pid f g Hm Hp Hg Hrun|s s' pid f Hm Hrun|s s' pid r Hrun
    |s s' order Ho Hrun|s s' order file Ho Hrun|s s' file n o En Hn Hm Hns Hrun|s s' pid r Hrun|s s' order file r Ho Hrun].
  - pose proof (fetch_page_inv s s' pid o I Hns Hn Hrun) as Hf. destruct o as [f|]; [|destruct Hf as (-> & _); done].
    destruct Hf as (I' & (Hm & p & Hp & _ & Hd & _) & V & _). split; [done|]. intros pid' Hn' _.
    destruct (decide (pid' = pid)) as [->|]; [|by apply V]. rewrite <- Hd. unfold logical at 1. rewrite Hm. simpl. by rewrite Hp.
  - apply unpin_page_inv in Hrun; [|done|intros _ Hb; by apply Hh].
    destruct r; [destruct Hrun as (I' & L & _)|destruct Hrun as [-> _]]; [|done]. split; [done|]. intros; by apply L.
  - assert (length (g (logical s pid)) = page_len) as Hg' by (rewrite Hg; by eapply logical_length).
    destruct (modify_data_inv s s' pid f g tt I Hm Hp Hg' Hrun) as (I' & _ & L & _). split; [done|].
    intros pid' Hn' Hne. apply L; [done|congruence].
  - destruct (mark_dirty_inv s s' pid f tt I Hm Hrun) as (I' & L). split; [done|]. intros; by apply L.
  - apply flush_page_inv in Hrun; [|done]. destruct r; [|destruct Hrun as [-> _]; done].
    split; [apply Hrun|]. intros; by apply (fl_logical _ _ _ Hrun).
  - destruct (flush_all_page_inv s s' order I Ho Hrun) as [F _]. split; [apply F|]. intros; by apply F.
  - destruct (flush_all_pages_inv s s' order file I Ho Hrun) as [F _]. split; [apply F|]. intros; by apply F.
  - pose proof (new_page_inv s s' file o n I En Hn Hm Hns Hrun) as Hf. destruct o as [[f pid]|]; [|destruct Hf as (-> & _); done].
    destruct Hf as (-> & (I' & _ & [V _]) & _). split; [done|]. intros pid' Hn' Hne. apply V; [done|congruence].
  - destruct (delete_page_inv s s' pid r I Hrun) as (I' & L & _). split; [done|]. intros; by apply L.
  - destruct (delete_all_page_inv order file s s' r I Ho Hrun) as (I' & L & _). split; [done|]. intros; by apply L.
Qed.

Lemma steps_inv (P : PageId -> Prop) (s s' : BPM) :
  steps P s s' -> inv s ->
  inv s' /\ forall pid, 0 <= page_no pid -> P pid -> logical s' pid = logical s pid.
Proof.
  induction 1 as [s|s1 s2 s3 l Hst Hl _ IH]; intros I; [done|].
  destruct (step_inv _ _ _ Hst I) as [I2 L2]. destruct (IH I2) as [I3 L3]. split; [done|].
  intros pid Hn HP. rewrite L3 by done. apply L2; [done|]. intros ->. by apply (Hl pid).
Qed.

(** The flushing loops end when every cached page can be written. *)
Lemma flush_loop_run {FR : FileSystemReliable} (skip : PageId -> Page -> bool) (body : PageId * Z -> M BPM unit)
    (order : list (PageId * Z)) (s : BPM) :
  (forall pid f p t, frame t f = Some p -> body (pid, f) t =
    (if skip pid p then mret tt else
     on_disk (write_page (fd pid) (page_no pid) (data_ p) PAGE_SIZE) ;; upd_frame f (set_dirty false)) t) ->
  inv s -> writable s -> (forall pid f, (pid, f) ∈ order -> page_table_ s !! pid = Some f) ->
  exists s', forM order body s = (Ret tt, s').
Proof.
  intros Hbody. revert s. induction order as [|[pid f] order IH]; intros s I Hw Hin; [by eexists|].
  assert (page_table_ s !! pid = Some f) as Hm by (apply Hin; left).
  destruct (mapped_frame s pid f I Hm) as (p & Hp & Eid & Hm' & Hl & _). simpl.
  destruct (skip pid p) eqn:Esk.
  - erewrite bind_run by (rewrite (Hbody pid f p s Hp), Esk; reflexivity). apply IH; [done|done|].
    intros pid' f' H. apply Hin. by right.
  - destruct (Hw pid f Hm) as [Hok Hop].
    destruct (write_page_run (fd pid) (page_no pid) (data_ p) (disk_manager_ s)) as [d' E]; [done..|].
    assert (body (pid, f) s = (Ret tt, put_frame f (set_dirty false p) (set_disk d' s))) as Hb.
    { rewrite (Hbody pid f p s Hp), Esk. erewrite bind_run by (apply zoom_run; exact E). by apply upd_frame_run. }
    rewrite (bind_run _ _ _ _ _ Hb). rewrite (Hbody pid f p s Hp), Esk in Hb.
    apply flush_frame_inv in Hb as F; [|done..]. apply IH; [apply F| |].
    + intros pid' f'. rewrite (fl_table _ _ _ F). intros Hm2. destruct (Hw _ _ Hm2) as [H1 H2]. split; [done|].
      unfold fd_open. by rewrite (do_ino _ _ _ (fl_only _ _ _ F)).
    + intros pid' f' H. rewrite (fl_table _ _ _ F). apply Hin. by right.
Qed.

(** ** Properties *)


(** C2: on a reliable operating system [fetch_page] returns a frame whenever the
    page is cached, or on disk with some frame unpinned; the frame holds the
    page's current content, gains one pin, and no other page is affected. *)
Theorem fetch_page_correct {FR : FileSystemReliable} (s : BPM) (pid : PageId) :
  inv s -> writable s -> not_stale pid s -> page_no_ok (page_no pid) = true ->
  (page_table_ s !! pid = None ->
     present (disk_manager_ s) pid /\ exists f p, frame s f = Some p /\ pin_count_ p = 0) ->
  pins s pid < INT32_MAX ->
  exists f s', fetch_page pid s = (Ret (Some f), s') /\ inv s' /\
    cached s' pid f (logical s pid) (pins s pid + 1) /\ same_view_but pid s s'.
Proof.
  intros I Hw Hns Hok Hmiss Hpins. destruct (fetch_page_run s pid I Hw Hok Hmiss Hpins) as (f & s' & E).
  exists f, s'. split; [done|]. eapply (fetch_page_inv s s' pid (Some f)); try done. unfold page_no_ok in Hok. lia.
Qed.

(** [fetch_page] gives up ([nullptr]) only when every frame of the pool is
    pinned, and then changes nothing. *)
Theorem fetch_page_none (s s' : BPM) (pid : PageId) :
  inv s -> not_stale pid s -> 0 <= page_no pid -> fetch_page pid s = (Ret None, s') ->
  s' = s /\ page_table_ s !! pid = None /\ forall f p, frame s f = Some p -> 0 < pin_count_ p.
Proof. intros I Hns Hn Hrun. exact (fetch_page_inv s s' pid None I Hns Hn Hrun). Qed.

(** C4: no update is lost: a page fetched, changed and unpinned dirty is read
    back with the change after any sequence of operations of [step] (evictions,
    flushes and the use of other pages included) that does not change that page.
    The operations in between return without an exception and keep the rules of
    [step] (identities that are not stale, honest unpins, changes of pinned pages
    only), and the page's own identity is not stale at either fetch. *)
Theorem bpm_read_your_writes (s s1 s2 s3 s4 s5 : BPM) (pid : PageId) (f f' : Z) (g : list Z -> list Z) :
  inv s -> not_stale pid s -> 0 <= page_no pid -> (forall l, length (g l) = length l) ->
  fetch_page pid s = (Ret (Some f), s1) -> modify_data f g s1 = (Ret tt, s2) ->
  unpin_page pid true s2 = (Ret true, s3) -> steps (fun q => q = pid) s3 s4 ->
  not_stale pid s4 -> fetch_page pid s4 = (Ret (Some f'), s5) ->
  exists p, frame s5 f' = Some p /\ id_ p = pid /\ data_ p = g (logical s pid).
Proof.
  intros I Hns Hn Hg H1 H2 H3 H4 Hns4 H5.
  destruct (fetch_page_inv s s1 pid (Some f) I Hns Hn H1) as (I1 & (Hm1 & p1 & Hp1 & Eid1 & Hd1 & Hpin1) & _).
  assert (pins s1 pid = pins s pid + 1 /\ logical s1 pid = logical s pid) as [Ep El].
  { unfold pins at 1, logical at 1. rewrite Hm1. simpl. rewrite Hp1. done. }
  assert (0 <= pins s pid).
  { unfold pins. destruct (page_table_ s !! pid) as [k|] eqn:Ek; simpl; [|done].
    destruct (frame s k) eqn:Efk; [|done]. by apply (i_pin _ I k). }
  destruct (modify_data_inv s1 s2 pid f g tt I1 Hm1) as (I2 & L2 & _);
    [lia|rewrite Hg; by eapply logical_length|done|].
  apply unpin_page_inv in H3 as (I3 & L3 & _); [|done|done].
  destruct (steps_inv _ _ _ H4 I3) as [I4 L4].
  destruct (fetch_page_inv s4 s5 pid (Some f') I4 Hns4 Hn H5) as (_ & (_ & p & Hp & Eid & Hd & _) & _).
  exists p. split_and!; [done|done|]. rewrite Hd, L4, L3, L2, El by done. done.
Qed.

(** C5: [new_page] returns a pinned zero page under the next page number of the
    file, advances the counter, and leaves every other page alone. *)
Theorem new_page_correct {FR : FileSystemReliable} (s : BPM) (file n : Z) :
  inv s -> writable s -> n = default 0 (fd2pageno_ (disk_manager_ s) !! file) ->
  fd_in_range file = true -> 0 <= n < INT32_MAX -> page_table_ s !! mkPageId file n = None ->
  not_stale (mkPageId file n) s -> (exists f p, frame s f = Some p /\ pin_count_ p = 0) ->
  exists f s', new_page file s = (Ret (Some (f, mkPageId file n)), s') /\ inv s' /\
    cached s' (mkPageId file n) f zero_page 1 /\ same_view_but (mkPageId file n) s s' /\
    default 0 (fd2pageno_ (disk_manager_ s') !! file) = n + 1.
Proof.
  intros I Hw En Hr Hn Hm Hns Hfree.
  destruct (new_page_run s file n I Hw En Hr) as (f & s' & E); [lia|lia|done|done|].
  exists f, s'. split; [done|].
  pose proof (new_page_inv s s' file _ n I En ltac:(lia) Hm Hns E) as (_ & (I' & C & V) & Hc). done.
Qed.

(** C6: after [flush_page] of a cached page the disk holds the page's current
    content, and the clients' view is unchanged. *)
Theorem flush_page_durable {FR : FileSystemReliable} (s : BPM) (pid : PageId) (f : Z) :
  inv s -> writable s -> page_table_ s !! pid = Some f ->
  exists s', flush_page pid s = (Ret true, s') /\ inv s' /\
    disk_page (disk_manager_ s') (fd pid) (page_no pid) = logical s pid /\
    (forall pid', 0 <= page_no pid' -> logical s' pid' = logical s pid').
Proof.
  intros I Hw Hm. destruct (flush_page_run s pid f I Hw Hm) as [s' E]. exists s'. split; [done|].
  pose proof (flush_page_inv s s' pid true I E) as F. split_and!; apply F.
Qed.

(** [flush_all_page], in whatever order the hash table is traversed,
    terminates normally and leaves every cached page that was dirty or unpinned
    on disk with its current content. *)
Theorem flush_all_page_durable {FR : FileSystemReliable} (s : BPM) (order : list (PageId * Z)) :
  inv s -> writable s -> order ≡ₚ map_to_list (page_table_ s) ->
  exists s', flush_all_page order s = (Ret tt, s') /\ inv s' /\
    (forall pid, 0 <= page_no pid -> logical s' pid = logical s pid) /\
    (forall pid f p, page_table_ s !! pid = Some f -> frame s f = Some p ->
       is_dirty_ p = true \/ pin_count_ p = 0 -> disk_page (disk_manager_ s') (fd pid) (page_no pid) = logical s pid).
Proof.
  intros I Hw Ho. pose proof (order_mapped s order Ho) as Hom.
  destruct (flush_loop_run (fun _ p => negb (is_dirty_ p)) (fun entry =>
    let '(page_id, frame_id) := entry in
    p ← get_frame frame_id;
    if negb (is_dirty_ p) then mret tt else
    on_disk (write_page (fd page_id) (page_no page_id) (data_ p) PAGE_SIZE) ;;
    upd_frame frame_id (set_dirty false)) order s) as [s' E]; [|done|done|intros pid f; apply Hom|].
  { intros pid f p t Hp. by rewrite (bind_run _ _ _ _ _ (get_frame_run _ _ _ Hp)). }
  exists s'. split; [exact E|]. destruct (flush_all_page_inv s s' order I Ho E) as [F D].
  split_and!; [apply F|apply F|]. intros pid f p Hm Hp Hd. destruct (D pid f p Hm Hp Hd) as [D1 _].
  rewrite <- (fs_logical _ _ F); [exact D1|]. by destruct (mapped_frame s pid f I Hm) as (_ & _ & _ & _ & _ & _ & ?).
Qed.

(** [delete_all_page] on a file with a pinned page changes nothing and says
    so; otherwise it unmaps exactly that file's pages, and no page content is
    lost. *)
Theorem delete_all_page_correct (order : list (PageId * Z)) (file : Z) (s s' : BPM) (r : bool) :
  inv s -> order ≡ₚ map_to_list (page_table_ s) -> delete_all_page order file s = (Ret r, s') ->
  inv s' /\ (forall pid, 0 <= page_no pid -> logical s' pid = logical s pid) /\
  (if r then forall pid f, page_table_ s' !! pid = Some f <-> page_table_ s !! pid = Some f /\ fd pid <> file
   else s' = s /\ exists pid, fd pid = file /\ 0 < pins s pid).
Proof. intros I Ho Hrun. destruct (delete_all_page_inv order file s s' r I Ho Hrun) as (? & ? & _ & ?). done. Qed.

End spec.
End BpmSpec.

(** ** A concrete pool

    Three frames over one file of three pages, on the LRU policy and the
    in-memory file system. *)

Module BpmDemo.
Import Bpm BpmFacts BpmSpec Replacer.Lru Posix.MemFS.

Definition demo_fs : MemFS.t :=
  {| paths := {[ "t"%string := (S_ISREG, 10) ]};
     data := {[ 10 := replicate (3 * page_len) 7 ]};
     fds := {[ 5 := (10, O) ]} |}.
Definition demo_dm : DiskManager := set_pageno {[ 5 := 3 ]} (Disk.make demo_fs).
Definition demo : BufferPoolManager LRUReplacer := Bpm.make 0 3 demo_dm.
Definition pA : PageId := mkPageId 5 0.
Definition pB : PageId := mkPageId 5 1.
Definition pC : PageId := mkPageId 5 2.
Definition set_byte0 (b : Z) (l : list Z) : list Z := match l with [] => [] | _ :: l => b :: l end.

Definition st {A} (m : M (BufferPoolManager LRUReplacer) A) (s : BufferPoolManager LRUReplacer) :
  BufferPoolManager LRUReplacer := (m s).2.

Lemma run_eq {A} (m : M (BufferPoolManager LRUReplacer) A) (s : BufferPoolManager LRUReplacer) (a : A) :
  (m s).1 = Ret a -> m s = (Ret a, st m s).
Proof. unfold st. destruct (m s). simpl. by intros ->. Qed.

Lemma demo_distinct : fd_distinct (dm_fs demo_dm).
Proof.
  intros x y i. simpl. unfold ino. simpl. rewrite !lookup_singleton.
  repeat case_decide; simpl; try done. congruence.
Qed.

Lemma demo_inv : inv demo.
Proof. apply make_inv, demo_distinct. Qed.

Lemma demo_writable : writable demo.
Proof. intros pid f E. simpl in E. by rewrite lookup_empty in E. Qed.

Lemma demo_stale (pid : PageId) : page_no pid <> -1 -> not_stale pid demo.
Proof.
  intros Hn g p Hg Hp. assert (page_no (id_ p) = -1) as E.
  { unfold frame in Hp. destruct (0 <=? g); [|done]. by apply lookup_replicate in Hp as [-> _]. }
  congruence.
Qed.

Lemma demo_present (pid : PageId) : fd pid = 5 -> 0 <= page_no pid < 3 -> present demo_dm pid.
Proof.
  intros E Hp. unfold present, page_present. rewrite E.
  replace (file_bytes demo_dm 5) with (Some (replicate (3 * page_len) 7)) by reflexivity.
  rewrite length_replicate. unfold page_off, page_len, PAGE_SIZE. lia.
Qed.

Lemma demo_fetch_step : steps (fun _ => False) demo (st (fetch_page pA) demo).
Proof.
  apply (steps_cons _ _ (st (fetch_page pA) demo) _ None); [|intros ? [=]|constructor]. eapply step_fetch; [apply (demo_stale pA); done|done|].
  apply (run_eq _ _ (Some 0)). vm_compute. reflexivity.
Qed.


Lemma fetch_page_correct_witness :
  exists f s', fetch_page pA demo = (Ret (Some f), s') /\ inv s' /\
    cached s' pA f (logical demo pA) (pins demo pA + 1) /\ same_view_but pA demo s'.
Proof.
  apply (fetch_page_correct demo pA).
  - apply demo_inv.
  - apply demo_writable.
  - by apply demo_stale.
  - reflexivity.
  - intros _. split.
    + by apply demo_present.
    + exists 0. eexists. split; reflexivity.
  - reflexivity.
Defined.

(** The pool with all frames pinned. *)
Definition full : BufferPoolManager LRUReplacer :=
  st (fetch_page pC) (st (fetch_page pB) (st (fetch_page pA) demo)).

Lemma full_steps : steps (fun _ => False) demo full.
Proof.
  eapply (steps_cons _ _ (st (fetch_page pA) demo) _ None); [|intros ? [=]|].
  { eapply step_fetch; [apply (demo_stale pA); done|done|]. apply (run_eq _ _ (Some 0)). vm_compute. reflexivity. }
  eapply (steps_cons _ _ (st (fetch_page pB) (st (fetch_page pA) demo)) _ None); [|intros ? [=]|].
  { eapply (step_fetch _ _ pB); [|done|apply (run_eq _ _ (Some 1)); vm_compute; reflexivity].
    intros g p Hg. vm_compute in Hg. apply list_elem_of_singleton in Hg as ->. vm_compute. intros [= <-]. discriminate. }
  eapply (steps_cons _ _ full _ None); [|intros ? [=]|constructor].
  eapply (step_fetch _ _ pC); [|done|apply (run_eq _ _ (Some 2)); vm_compute; reflexivity].
  intros g p Hg. vm_compute in Hg. by apply elem_of_nil in Hg.
Qed.

Lemma full_inv : inv full.
Proof. exact (proj1 (steps_inv _ _ _ full_steps demo_inv)). Qed.

Lemma full_none : fetch_page (mkPageId 5 3) full = (Ret None, st (fetch_page (mkPageId 5 3)) full).
Proof. apply (run_eq (fetch_page (mkPageId 5 3))). vm_compute. reflexivity. Qed.

Lemma full_stale (pid : PageId) : not_stale pid full.
Proof. intros g p Hg. vm_compute in Hg. by apply elem_of_nil in Hg. Qed.

Lemma fetch_page_none_witness :
  (fetch_page (mkPageId 5 3) full).1 = Ret None /\ forall f p, frame full f = Some p -> 0 < pin_count_ p.
Proof.
  split; [by rewrite full_none|].
  exact (proj2 (proj2 (fetch_page_none full _ (mkPageId 5 3) full_inv (full_stale _) ltac:(done) full_none))).
Defined.

(** Fetch page A, change a byte, unpin it dirty, then fill the pool so that A is
    evicted, and fetch A again. *)
Definition changed : BufferPoolManager LRUReplacer :=
  st (unpin_page pA true) (st (modify_data 0 (set_byte0 9)) (st (fetch_page pA) demo)).

Lemma changed_run :
  fetch_page pA demo = (Ret (Some 0), st (fetch_page pA) demo) /\
  modify_data 0 (set_byte0 9) (st (fetch_page pA) demo) =
    (Ret tt, st (modify_data 0 (set_byte0 9)) (st (fetch_page pA) demo)) /\
  unpin_page pA true (st (modify_data 0 (set_byte0 9)) (st (fetch_page pA) demo)) = (Ret true, changed).
Proof.
  split_and!; [apply (run_eq (fetch_page pA))|apply (run_eq (modify_data 0 (set_byte0 9)))
    |unfold changed; apply (run_eq (unpin_page pA true))]; vm_compute; reflexivity.
Qed.

Lemma changed_stale (pid : PageId) : page_no pid <> -1 -> not_stale pid changed.
Proof.
  intros Hn g p Hg. assert (g = 2) as -> by (vm_compute in Hg; by apply list_elem_of_singleton in Hg).
  vm_compute. intros [= <-]. intros <-. by apply Hn.
Qed.

Lemma changed_fetch_B : fetch_page pB changed = (Ret (Some 1), st (fetch_page pB) changed).
Proof. apply (run_eq (fetch_page pB)). vm_compute. reflexivity. Qed.

Lemma changed_steps : steps (fun q => q = pA) changed (st (fetch_page pB) changed).
Proof.
  apply (steps_cons _ _ (st (fetch_page pB) changed) _ None); [|intros ? [=]|constructor].
  exact (step_fetch _ _ pB (Some 1) (changed_stale pB ltac:(done)) ltac:(done) changed_fetch_B).
Qed.

Lemma changed_refetch :
  fetch_page pA (st (fetch_page pB) changed) = (Ret (Some 0), st (fetch_page pA) (st (fetch_page pB) changed)).
Proof. apply (run_eq (fetch_page pA)). vm_compute. reflexivity. Qed.

Lemma set_byte0_length (b : Z) (l : list Z) : length (set_byte0 b l) = length l.
Proof. by destruct l. Qed.

Lemma bpm_read_your_writes_witness :
  exists p, frame (st (fetch_page pA) (st (fetch_page pB) changed)) 0 = Some p /\
    id_ p = pA /\ data_ p = set_byte0 9 (logical demo pA).
Proof.
  destruct changed_run as (H1 & H2 & H3).
  refine (bpm_read_your_writes demo _ _ _ _ _ pA 0 0 (set_byte0 9) demo_inv (demo_stale pA ltac:(done)) ltac:(done)
    (set_byte0_length 9) H1 H2 H3 changed_steps _ changed_refetch).
  intros g p Hg. exfalso. apply (elem_of_nil g). vm_compute in Hg. exact Hg.
Defined.

Lemma new_page_correct_witness :
  exists f s', new_page 5 demo = (Ret (Some (f, mkPageId 5 3)), s') /\ inv s' /\
    cached s' (mkPageId 5 3) f zero_page 1 /\ same_view_but (mkPageId 5 3) demo s' /\
    default 0 (fd2pageno_ (disk_manager_ s') !! 5) = 3 + 1.
Proof.
  apply (new_page_correct demo 5 3 demo_inv demo_writable); try reflexivity.
  - split; reflexivity || discriminate.
  - by apply demo_stale.
  - exists 0. eexists. split; reflexivity.
Defined.

Lemma demo_fetched_inv : inv (st (fetch_page pA) demo).
Proof. exact (proj1 (steps_inv _ _ _ demo_fetch_step demo_inv)). Qed.

Lemma changed_inv : inv changed.
Proof.
  destruct changed_run as (H1 & H2 & H3).
  destruct (modify_data_inv (st (fetch_page pA) demo)
    (st (modify_data 0 (set_byte0 9)) (st (fetch_page pA) demo)) pA 0 (set_byte0 9) tt demo_fetched_inv) as (I2 & _);
    [vm_compute; reflexivity|vm_compute; reflexivity| |exact H2|].
  { rewrite set_byte0_length. apply (logical_length _ _ 0); [apply demo_fetched_inv|vm_compute; reflexivity]. }
  exact (proj1 (unpin_page_inv _ _ pA true true I2 ltac:(done) H3)).
Qed.

Lemma changed_table : page_table_ changed = {[ pA := 0 ]}.
Proof. apply (bool_decide_unpack _). vm_compute. exact I. Qed.

Lemma changed_writable : writable changed.
Proof.
  intros pid f. rewrite changed_table. intros [<- <-]%lookup_singleton_Some. split; [done|].
  exists 10. vm_compute. reflexivity.
Qed.

Lemma flush_page_durable_witness :
  exists s', flush_page pA changed = (Ret true, s') /\ inv s' /\
    disk_page (disk_manager_ s') (fd pA) (page_no pA) = logical changed pA /\
    (forall pid', 0 <= page_no pid' -> logical s' pid' = logical changed pid').
Proof.
  apply (flush_page_durable changed pA 0 changed_inv changed_writable). by rewrite changed_table.
Defined.

Lemma changed_order : [(pA, 0)] ≡ₚ map_to_list (page_table_ changed).
Proof. rewrite changed_table. by rewrite map_to_list_singleton. Qed.

Lemma flush_all_page_durable_witness :
  exists s', flush_all_page [(pA, 0)] changed = (Ret tt, s') /\ inv s' /\
    (forall pid, 0 <= page_no pid -> logical s' pid = logical changed pid) /\
    (forall pid f p, page_table_ changed !! pid = Some f -> frame changed f = Some p ->
       is_dirty_ p = true \/ pin_count_ p = 0 ->
       disk_page (disk_manager_ s') (fd pid) (page_no pid) = logical changed pid).
Proof. exact (flush_all_page_durable changed [(pA, 0)] changed_inv changed_writable changed_order). Defined.

Lemma delete_all_page_correct_witness :
  (delete_all_page [(pA, 0)] 5 changed).1 = Ret true /\ inv (st (delete_all_page [(pA, 0)] 5) changed).
Proof.
  assert (delete_all_page [(pA, 0)] 5 changed = (Ret true, st (delete_all_page [(pA, 0)] 5) changed)) as E.
  { apply (run_eq (delete_all_page [(pA, 0)] 5)). vm_compute. reflexivity. }
  split; [by rewrite E|].
  exact (proj1 (delete_all_page_correct [(pA, 0)] 5 changed _ true changed_inv changed_order E)).
Defined.

(** ** What the invariant's side conditions rule out *)

(** Fetch A, unpin and delete it, then fetch A, B and C. *)
Definition stale_run : M (BufferPoolManager LRUReplacer) (option Z * option Z * option Z) :=
  _ ← fetch_page pA; _ ← unpin_page pA false; _ ← delete_page pA;
  a ← fetch_page pA; b ← fetch_page pB; c ← fetch_page pC; mret (a, b, c).

(** [delete_page] leaves the old identity in the recycled frame, so reusing
    that frame later erases the table entry of a page that is cached and pinned
    elsewhere: A sits pinned in frame 1, yet the page table no longer knows it
    and its owner cannot unpin it. *)
Theorem delete_page_stale_identity :
  (stale_run demo).1 = Ret (Some 1, Some 2, Some 0) /\
  (id_ <$> frame (st stale_run demo) 1 = Some pA) /\
  (pin_count_ <$> frame (st stale_run demo) 1 = Some 1) /\
  page_table_ (st stale_run demo) !! pA = None /\
  (unpin_page pA true (st stale_run demo)).1 = Ret false.
Proof. split_and!; vm_compute; reflexivity. Qed.

(** A [fetch_page] that fails because the page is not in the file leaves the
    page mapped: the next [fetch_page] of the same page reports success and hands
    out the frame's old content. *)
Theorem fetch_page_failure_poisons :
  (fetch_page (mkPageId 5 3) demo).1 = Throw (InternalError "DiskManager::read_page Error") /\
  (fetch_page (mkPageId 5 3) (st (fetch_page (mkPageId 5 3)) demo)).1 = Ret (Some 0).
Proof. split; vm_compute; reflexivity. Qed.

End BpmDemo.
