(* ===== verification/Txn.v ===== *)
(** * Transactions and their data ([src/src/defs.h], [txn_defs.h], [transaction.h])

    The data a transaction carries: state of the two-phase protocol, write set
    for rollback, lock set, last log sequence number.  [Transaction*] is the
    identifier of an entry of the transaction store. *)

From S2P Require Import Prelude Bytes Disk.

(** Record identifier. *)
Record Rid : Type := mkRid { rid_page_no : Z; rid_slot_no : Z }.

#[export] Instance Rid_eq_dec : EqDecision Rid.
Proof. solve_decision. Defined.
#[export] Program Instance Rid_countable : Countable Rid :=
  inj_countable' (fun r => (rid_page_no r, rid_slot_no r)) (fun q => mkRid q.1 q.2) _.
Next Obligation. by intros []. Qed.

Inductive TransactionState : Type := DEFAULT | GROWING | SHRINKING | COMMITTED | ABORTED.
Inductive IsolationLevel : Type := READ_UNCOMMITTED | REPEATABLE_READ | READ_COMMITTED | SERIALIZABLE.
Inductive WType : Type := INSERT_TUPLE | DELETE_TUPLE | UPDATE_TUPLE.
Inductive LockDataType : Type := TABLE | RECORD.

#[export] Instance TransactionState_eq_dec : EqDecision TransactionState.
Proof. solve_decision. Defined.
#[export] Instance LockDataType_eq_dec : EqDecision LockDataType.
Proof. solve_decision. Defined.
#[export] Program Instance LockDataType_countable : Countable LockDataType :=
  inj_countable' (fun t => match t with TABLE => false | RECORD => true end)
                 (fun b : bool => if b then RECORD else TABLE) _.
Next Obligation. by intros []. Qed.

(** A lockable object; a table lock carries the rid (-1, -1). *)
Record LockDataId : Type := mkLockDataId { ld_fd : Z; ld_rid : Rid; ld_type : LockDataType }.

#[export] Instance LockDataId_eq_dec : EqDecision LockDataId.
Proof. solve_decision. Defined.
#[export] Program Instance LockDataId_countable : Countable LockDataId :=
  inj_countable' (fun l => (ld_fd l, ld_rid l, ld_type l)) (fun q => mkLockDataId q.1.1 q.1.2 q.2) _.
Next Obligation. by intros []. Qed.

Definition TableLock (fd : Z) : LockDataId := mkLockDataId fd (mkRid (-1) (-1)) TABLE.
Definition RecordLock (fd : Z) (rid : Rid) : LockDataId := mkLockDataId fd rid RECORD.

(** [LockDataId::Get], the hash key: 64-bit two's complement shifts. *)
Definition LockDataId_Get (l : LockDataId) : Z :=
  match ld_type l with
  | TABLE => ld_fd l
  | RECORD =>
      wrap_s 64 (Z.lor (Z.lor (Z.lor (wrap_s 64 (Z.shiftl 1 63)) (Z.shiftl (ld_fd l) 31))
        (Z.shiftl (rid_page_no (ld_rid l)) 16)) (rid_slot_no (ld_rid l)))
  end.

(** The undo information of one write; [wr_record] is empty for an insertion. *)
Record WriteRecord : Type := mkWriteRecord {
  wtype_ : WType;
  tab_name_ : string;
  wr_rid : Rid;
  wr_record : list Z
}.

Record Transaction : Type := mkTxn {
  txn_mode_ : bool;
  state_ : TransactionState;
  isolation_level_ : IsolationLevel;
  prev_lsn_ : Z;
  txn_id_ : Z;
  write_set_ : list WriteRecord;
  lock_set_ : gset LockDataId
}.

(** The constructor; [txn_mode_] has no initializer. *)
Definition make_txn (garbage : bool) (txn_id : Z) : Transaction :=
  {| txn_mode_ := garbage; state_ := DEFAULT; isolation_level_ := SERIALIZABLE;
     prev_lsn_ := INVALID_LSN; txn_id_ := txn_id; write_set_ := []; lock_set_ := ∅ |}.

Definition set_txn_mode (b : bool) (t : Transaction) : Transaction :=
  {| txn_mode_ := b; state_ := state_ t; isolation_level_ := isolation_level_ t;
     prev_lsn_ := prev_lsn_ t; txn_id_ := txn_id_ t; write_set_ := write_set_ t; lock_set_ := lock_set_ t |}.
Definition set_state (x : TransactionState) (t : Transaction) : Transaction :=
  {| txn_mode_ := txn_mode_ t; state_ := x; isolation_level_ := isolation_level_ t;
     prev_lsn_ := prev_lsn_ t; txn_id_ := txn_id_ t; write_set_ := write_set_ t; lock_set_ := lock_set_ t |}.
Definition set_prev_lsn (x : Z) (t : Transaction) : Transaction :=
  {| txn_mode_ := txn_mode_ t; state_ := state_ t; isolation_level_ := isolation_level_ t;
     prev_lsn_ := x; txn_id_ := txn_id_ t; write_set_ := write_set_ t; lock_set_ := lock_set_ t |}.
Definition set_write_set (x : list WriteRecord) (t : Transaction) : Transaction :=
  {| txn_mode_ := txn_mode_ t; state_ := state_ t; isolation_level_ := isolation_level_ t;
     prev_lsn_ := prev_lsn_ t; txn_id_ := txn_id_ t; write_set_ := x; lock_set_ := lock_set_ t |}.
Definition set_lock_set (x : gset LockDataId) (t : Transaction) : Transaction :=
  {| txn_mode_ := txn_mode_ t; state_ := state_ t; isolation_level_ := isolation_level_ t;
     prev_lsn_ := prev_lsn_ t; txn_id_ := txn_id_ t; write_set_ := write_set_ t; lock_set_ := x |}.
Definition append_write_record (w : WriteRecord) (t : Transaction) : Transaction :=
  set_write_set (write_set_ t ++ [w]) t.
