(* ===== verification/Lock.v ===== *)
(** * The lock manager ([src/src/transaction/concurrency/lock_manager.{h,cpp}])

    Multi-granularity two-phase locking with the no-wait policy: a request that
    conflicts aborts its transaction at once.  Each function holds [latch_] for
    its whole body, so operations interleave as whole steps. *)

From S2P Require Import Prelude Bytes Txn.

Inductive LockMode : Type := SHARED | EXCLUSIVE | INTENTION_SHARED | INTENTION_EXCLUSIVE | S_IX.
Inductive GroupLockMode : Type := NON_LOCK | IS | IX | S | X | SIX.

#[export] Instance LockMode_eq_dec : EqDecision LockMode.
Proof. solve_decision. Defined.
#[export] Instance GroupLockMode_eq_dec : EqDecision GroupLockMode.
Proof. solve_decision. Defined.

Record LockRequest : Type := mkRequest { req_txn : Z; lock_mode_ : LockMode; granted_ : bool }.
Record LockRequestQueue : Type := mkQueue {
  request_queue_ : list LockRequest;
  group_lock_mode_ : GroupLockMode
}.

Module Lock.

(** The lock table, and the transactions the requests refer to. *)
Record LockManager : Type := mkLM {
  lock_table_ : gmap LockDataId LockRequestQueue;
  txns : gmap Z Transaction
}.

Definition set_table (x : gmap LockDataId LockRequestQueue) (s : LockManager) : LockManager :=
  {| lock_table_ := x; txns := txns s |}.
Definition set_txns (x : gmap Z Transaction) (s : LockManager) : LockManager :=
  {| lock_table_ := lock_table_ s; txns := x |}.

Definition get_txn (txn : Z) : M LockManager Transaction := fun s =>
  match txns s !! txn with Some t => (Ret t, s) | None => (Stuck NullDeref, s) end.
Definition upd_txn (txn : Z) (f : Transaction -> Transaction) : M LockManager unit :=
  t ← get_txn txn; modify (fun s => set_txns (<[txn := f t]> (txns s)) s).

Definition check_lock (txn : Z) : M LockManager bool :=
  t ← get_txn txn;
  match state_ t with
  | ABORTED | COMMITTED => mret false
  | GROWING => mret true
  | SHRINKING => throw (TransactionAbortException txn LOCK_ON_SHIRINKING)
  | DEFAULT => upd_txn txn (set_state GROWING) ;; mret true
  end.

Definition empty_queue : LockRequestQueue := mkQueue [] NON_LOCK.

(** [emplace] of an empty queue when the object has none yet. *)
Definition get_queue (id : LockDataId) : M LockManager LockRequestQueue := fun s =>
  match lock_table_ s !! id with
  | Some q => (Ret q, s)
  | None => (Ret empty_queue, set_table (<[id := empty_queue]> (lock_table_ s)) s)
  end.
Definition put_queue (id : LockDataId) (q : LockRequestQueue) : M LockManager unit :=
  modify (fun s => set_table (<[id := q]> (lock_table_ s)) s).

(** [std::find_if] for the request of a transaction. *)
Definition find_request (txn : Z) (q : list LockRequest) : option (nat * LockRequest) :=
  list_find (fun r => req_txn r = txn) q.

(** [txn_itr->lock_mode_ = m] *)
Definition set_mode (i : nat) (m : LockMode) (q : list LockRequest) : list LockRequest :=
  alter (fun r => mkRequest (req_txn r) m (granted_ r)) i q.

(** The last lines of every locking function. *)
Definition grant (txn : Z) (id : LockDataId) (m : LockMode) (g : GroupLockMode) (q : LockRequestQueue) :
  M LockManager bool :=
  upd_txn txn (fun t => set_lock_set ({[id]} ∪ lock_set_ t) t) ;;
  put_queue id (mkQueue (request_queue_ q ++ [mkRequest txn m true]) g) ;;
  mret true.

Definition upgrade (id : LockDataId) (i : nat) (m : LockMode) (g : GroupLockMode) (q : LockRequestQueue) :
  M LockManager bool :=
  put_queue id (mkQueue (set_mode i m (request_queue_ q)) g) ;; mret true.

Definition prevent {A} (txn : Z) : M LockManager A :=
  throw (TransactionAbortException txn DEADLOCK_PREVENTION).

Definition count_mode (m : LockMode) (q : list LockRequest) : nat :=
  length (filter (fun r => lock_mode_ r = m) q).

Definition lock_shared_on_record (txn : Z) (rid : Rid) (tab_fd : Z) : M LockManager bool :=
  ok ← check_lock txn;
  if negb ok then mret false else
  let id := RecordLock tab_fd rid in
  q ← get_queue id;
  match find_request txn (request_queue_ q) with
  | Some _ => mret true
  | None =>
      match group_lock_mode_ q with
      | NON_LOCK | S => grant txn id SHARED S q
      | _ => prevent txn
      end
  end.

Definition lock_exclusive_on_record (txn : Z) (rid : Rid) (tab_fd : Z) : M LockManager bool :=
  ok ← check_lock txn;
  if negb ok then mret false else
  let id := RecordLock tab_fd rid in
  q ← get_queue id;
  match find_request txn (request_queue_ q) with
  | Some (i, r) =>
      if decide (lock_mode_ r = EXCLUSIVE) then mret true else
      if decide (group_lock_mode_ q = S /\ length (request_queue_ q) = 1%nat)
      then upgrade id i EXCLUSIVE X q
      else prevent txn
  | None =>
      if decide (group_lock_mode_ q = NON_LOCK) then grant txn id EXCLUSIVE X q else prevent txn
  end.

Definition lock_shared_on_table (txn : Z) (tab_fd : Z) : M LockManager bool :=
  ok ← check_lock txn;
  if negb ok then mret false else
  let id := TableLock tab_fd in
  q ← get_queue id;
  match find_request txn (request_queue_ q) with
  | Some (i, r) =>
      match lock_mode_ r with
      | SHARED | S_IX | EXCLUSIVE => mret true
      | INTENTION_SHARED =>
          match group_lock_mode_ q with
          | IS | S => upgrade id i SHARED S q
          | _ => prevent txn
          end
      | INTENTION_EXCLUSIVE =>
          if decide (count_mode INTENTION_EXCLUSIVE (request_queue_ q) <> 1%nat) then prevent txn
          else upgrade id i S_IX SIX q
      end
  | None =>
      match group_lock_mode_ q with
      | NON_LOCK | S | IS => grant txn id SHARED S q
      | _ => prevent txn
      end
  end.

Definition lock_exclusive_on_table (txn : Z) (tab_fd : Z) : M LockManager bool :=
  ok ← check_lock txn;
  if negb ok then mret false else
  let id := TableLock tab_fd in
  q ← get_queue id;
  match find_request txn (request_queue_ q) with
  | Some (i, r) =>
      if decide (lock_mode_ r = EXCLUSIVE) then mret true else
      if decide (length (request_queue_ q) <> 1%nat) then prevent txn
      else upgrade id i EXCLUSIVE X q
  | None =>
      if decide (group_lock_mode_ q = NON_LOCK) then grant txn id EXCLUSIVE X q else prevent txn
  end.

Definition lock_IS_on_table (txn : Z) (tab_fd : Z) : M LockManager bool :=
  ok ← check_lock txn;
  if negb ok then mret false else
  let id := TableLock tab_fd in
  q ← get_queue id;
  match find_request txn (request_queue_ q) with
  | Some _ => mret true
  | None =>
      match group_lock_mode_ q with
      | X => prevent txn
      | NON_LOCK => grant txn id INTENTION_SHARED IS q
      | g => grant txn id INTENTION_SHARED g q
      end
  end.

Definition lock_IX_on_table (txn : Z) (tab_fd : Z) : M LockManager bool :=
  ok ← check_lock txn;
  if negb ok then mret false else
  let id := TableLock tab_fd in
  q ← get_queue id;
  match find_request txn (request_queue_ q) with
  | Some (i, r) =>
      match lock_mode_ r with
      | INTENTION_EXCLUSIVE | S_IX | EXCLUSIVE => mret true
      | SHARED =>
          if decide (count_mode SHARED (request_queue_ q) <> 1%nat) then prevent txn
          else upgrade id i S_IX SIX q
      | INTENTION_SHARED =>
          match group_lock_mode_ q with
          | IS | IX => upgrade id i INTENTION_EXCLUSIVE IX q
          | _ => prevent txn
          end
      end
  | None =>
      match group_lock_mode_ q with
      | NON_LOCK | IS | IX => grant txn id INTENTION_EXCLUSIVE IX q
      | _ => prevent txn
      end
  end.

(** The strongest mode held, as [unlock] recomputes it from the mode counts. *)
Definition group_of (q : list LockRequest) : GroupLockMode :=
  if decide (count_mode EXCLUSIVE q <> 0%nat) then X
  else if decide (count_mode S_IX q <> 0%nat) then SIX
  else if decide (count_mode INTENTION_EXCLUSIVE q <> 0%nat) then IX
  else if decide (count_mode SHARED q <> 0%nat) then S
  else if decide (count_mode INTENTION_SHARED q <> 0%nat) then IS
  else NON_LOCK.

(** [request_queue_.erase(txn_itr)] when the transaction has a request. *)
Definition drop_request (txn : Z) (l : list LockRequest) : list LockRequest :=
  match find_request txn l with
  | Some (i, _) => delete i l
  | None => l
  end.

Definition unlock (txn : Z) (id : LockDataId) : M LockManager bool :=
  t ← get_txn txn;
  match state_ t with
  | ABORTED | COMMITTED => mret false
  | st =>
      (if decide (st = GROWING) then upd_txn txn (set_state SHRINKING) else mret tt) ;;
      o ← gets (fun s => lock_table_ s !! id);
      match o with
      | None => mret true
      | Some q =>
          let l := drop_request txn (request_queue_ q) in
          put_queue id (mkQueue l (group_of l)) ;;
          mret true
      end
  end.

End Lock.
