(* ===== verification/LockFacts.v ===== *)
(** * Correctness of the lock manager

    Every queue of the lock table holds pairwise compatible requests of distinct
    transactions, its group mode is the strongest mode held, and every granted
    request is in its owner's lock set; every operation preserves this. *)

From S2P Require Import Prelude Bytes Txn Lock.

Module LockFacts.
Import Lock.

(** The compatibility matrix of multi-granularity locking. *)
Definition compat (a b : LockMode) : bool :=
  match a, b with
  | INTENTION_SHARED, EXCLUSIVE | EXCLUSIVE, INTENTION_SHARED => false
  | INTENTION_SHARED, _ | _, INTENTION_SHARED => true
  | INTENTION_EXCLUSIVE, INTENTION_EXCLUSIVE => true
  | SHARED, SHARED => true
  | _, _ => false
  end.

(** [covers a b]: holding [a] gives the rights of [b]. *)
Definition covers (a b : LockMode) : bool :=
  match a, b with
  | EXCLUSIVE, _ => true
  | S_IX, EXCLUSIVE => false
  | S_IX, _ => true
  | SHARED, (SHARED | INTENTION_SHARED) => true
  | INTENTION_EXCLUSIVE, (INTENTION_EXCLUSIVE | INTENTION_SHARED) => true
  | INTENTION_SHARED, INTENTION_SHARED => true
  | _, _ => false
  end.

Definition grp (m : LockMode) : GroupLockMode :=
  match m with
  | SHARED => S | EXCLUSIVE => X | INTENTION_SHARED => IS | INTENTION_EXCLUSIVE => IX | S_IX => SIX
  end.

Definition rank (m : LockMode) : nat :=
  match m with
  | INTENTION_SHARED => 0 | SHARED => 1 | INTENTION_EXCLUSIVE => 2 | S_IX => 3 | EXCLUSIVE => 4
  end.

Definition pairwise_compat (l : list LockRequest) : Prop :=
  forall i j a b, i <> j -> l !! i = Some a -> l !! j = Some b -> compat (lock_mode_ a) (lock_mode_ b) = true.

Record queue_ok (id : LockDataId) (q : LockRequestQueue) : Prop := {
  q_nodup : NoDup (req_txn <$> request_queue_ q);
  q_compat : pairwise_compat (request_queue_ q);
  q_group : group_lock_mode_ q = group_of (request_queue_ q);
  q_record : ld_type id = RECORD -> forall r, r ∈ request_queue_ q -> lock_mode_ r = SHARED \/ lock_mode_ r = EXCLUSIVE
}.

Record inv (s : LockManager) : Prop := {
  l_queue : forall id q, lock_table_ s !! id = Some q -> queue_ok id q;
  l_set : forall id q r, lock_table_ s !! id = Some q -> r ∈ request_queue_ q ->
    exists t, txns s !! req_txn r = Some t /\ id ∈ lock_set_ t
}.

(** Transaction [txn] holds [m] on [id]. *)
Definition holds (s : LockManager) (txn : Z) (id : LockDataId) (m : LockMode) : Prop :=
  exists q r, lock_table_ s !! id = Some q /\ r ∈ request_queue_ q /\ req_txn r = txn /\ lock_mode_ r = m.

(** ** Group modes *)

Lemma count_mode_zero (m : LockMode) (l : list LockRequest) :
  count_mode m l = 0%nat <-> forall r, r ∈ l -> lock_mode_ r <> m.
Proof.
  unfold count_mode. rewrite length_zero_iff_nil. split.
  - intros E r Hr Hm. assert (r ∈ filter (fun r => lock_mode_ r = m) l) as H by by apply list_elem_of_filter.
    rewrite E in H. by apply elem_of_nil in H.
  - intros H. apply elem_of_nil_inv. intros r [Hm Hr]%list_elem_of_filter. by apply (H r).
Qed.

Lemma count_mode_pos (m : LockMode) (l : list LockRequest) (r : LockRequest) :
  r ∈ l -> lock_mode_ r = m -> count_mode m l <> 0%nat.
Proof. intros Hr Hm E. exact (proj1 (count_mode_zero m l) E r Hr Hm). Qed.

Lemma count_mode_two (m : LockMode) (l : list LockRequest) (i j : nat) (a b : LockRequest) :
  (i < j)%nat -> l !! i = Some a -> l !! j = Some b -> lock_mode_ a = m -> lock_mode_ b = m ->
  (2 <= count_mode m l)%nat.
Proof.
  intros Hij Ha Hb Ma Mb. apply list_elem_of_split_length in Ha as (l1 & l2 & -> & El).
  assert (b ∈ l2) as Hb2.
  { rewrite lookup_app_r in Hb by lia. replace (j - length l1)%nat with (Datatypes.S (j - length l1 - 1)) in Hb by lia.
    simpl in Hb. by eapply list_elem_of_lookup_2. }
  unfold count_mode. rewrite filter_app, length_app, filter_cons, decide_True by done. simpl.
  pose proof (count_mode_pos m l2 b Hb2 Mb) as Hp. unfold count_mode in Hp. lia.
Qed.

Lemma group_of_intro (m : LockMode) (l : list LockRequest) (r : LockRequest) :
  r ∈ l -> lock_mode_ r = m -> (forall r', r' ∈ l -> (rank (lock_mode_ r') <= rank m)%nat) ->
  group_of l = grp m.
Proof.
  intros Hr Hm Hrank. pose proof (count_mode_pos m l r Hr Hm) as Hpos.
  assert (forall m', (rank m < rank m')%nat -> count_mode m' l = 0%nat) as Hz.
  { intros m' Hlt. apply count_mode_zero. intros r' Hr' <-. specialize (Hrank r' Hr'). lia. }
  unfold group_of. clear Hr Hm Hrank. destruct m; simpl in *;
    repeat first [ done | rewrite decide_True by done; done
                 | rewrite decide_False by (rewrite Hz by (simpl; lia); tauto) ].
Qed.

Lemma group_of_elim (l : list LockRequest) (r : LockRequest) :
  r ∈ l -> exists m, group_of l = grp m /\ (rank (lock_mode_ r) <= rank m)%nat.
Proof.
  intros Hr. pose proof (count_mode_pos (lock_mode_ r) l r Hr eq_refl) as Hp. unfold group_of.
  repeat case_decide; [exists EXCLUSIVE|exists S_IX|exists INTENTION_EXCLUSIVE|exists SHARED|exists INTENTION_SHARED|];
    try (split; [done|]); destruct (lock_mode_ r); simpl; try lia; tauto.
Qed.

(** The requests of a queue are bounded by its group mode. *)
Lemma group_bound (m : LockMode) (l : list LockRequest) (r : LockRequest) :
  group_of l = grp m -> r ∈ l -> (rank (lock_mode_ r) <= rank m)%nat.
Proof. intros E Hr. destruct (group_of_elim l r Hr) as (m' & E' & Hle). destruct m, m'; simpl in *; congruence || lia. Qed.

Lemma group_none (l : list LockRequest) : group_of l = NON_LOCK -> l = [].
Proof. intros E. destruct l as [|r l]; [done|]. destruct (group_of_elim (r :: l) r) as (m & E' & _); [left|]. destruct m; simpl in *; congruence. Qed.

(** ** Queues *)

Lemma find_request_None (txn : Z) (l : list LockRequest) :
  find_request txn l = None -> forall r, r ∈ l -> req_txn r <> txn.
Proof. intros E. apply list_find_None in E. rewrite Forall_forall in E. exact E. Qed.

Lemma find_request_Some (txn : Z) (l : list LockRequest) (i : nat) (r : LockRequest) :
  find_request txn l = Some (i, r) -> l !! i = Some r /\ req_txn r = txn.
Proof. intros E. apply list_find_Some in E as (H1 & H2 & _). done. Qed.

Lemma lookup_set_mode (i j : nat) (m : LockMode) (l : list LockRequest) :
  set_mode i m l !! j =
  if decide (i = j) then (fun r => mkRequest (req_txn r) m (granted_ r)) <$> l !! j else l !! j.
Proof.
  unfold set_mode. case_decide as E; [subst; apply list_lookup_alter_eq|by apply list_lookup_alter_ne].
Qed.

Lemma compat_sym (a b : LockMode) : compat a b = compat b a.
Proof. by destruct a, b. Qed.

Lemma pairwise_grant (l : list LockRequest) (r : LockRequest) :
  pairwise_compat l -> (forall a, a ∈ l -> compat (lock_mode_ a) (lock_mode_ r) = true) ->
  pairwise_compat (l ++ [r]).
Proof.
  intros Hc Hn i j a b Hne Ha Hb.
  apply lookup_snoc_Some in Ha as [[Hi Ha]|[Hi <-]], Hb as [[Hj Hb]|[Hj <-]].
  - by apply (Hc i j).
  - apply Hn. by eapply list_elem_of_lookup_2.
  - rewrite compat_sym. apply Hn. by eapply list_elem_of_lookup_2.
  - lia.
Qed.

Lemma pairwise_upgrade (l : list LockRequest) (i : nat) (m : LockMode) :
  pairwise_compat l -> (forall j a, j <> i -> l !! j = Some a -> compat (lock_mode_ a) m = true) ->
  pairwise_compat (set_mode i m l).
Proof.
  intros Hc Hn j k a b Hne. rewrite !lookup_set_mode. repeat case_decide; subst; try done.
  - intros Ha Hb. apply fmap_Some in Ha as (a' & Ha & ->). simpl. rewrite compat_sym. by apply (Hn k).
  - intros Ha Hb. apply fmap_Some in Hb as (b' & Hb & ->). simpl. by apply (Hn j).
  - intros Ha Hb. by apply (Hc j k).
Qed.

Lemma pairwise_delete (l : list LockRequest) (i : nat) : pairwise_compat l -> pairwise_compat (delete i l).
Proof.
  intros Hc j k a b Hne.
  assert (forall x y, delete i l !! x = Some y -> l !! (if decide (x < i)%nat then x else Datatypes.S x) = Some y) as Hd.
  { intros x y H. case_decide; [by rewrite list_lookup_delete_lt in H|by rewrite list_lookup_delete_ge in H by lia]. }
  intros Ha%Hd Hb%Hd. eapply Hc; [|exact Ha|exact Hb]. repeat case_decide; lia.
Qed.

Lemma elem_of_set_mode (i : nat) (m : LockMode) (l : list LockRequest) (r' : LockRequest) :
  r' ∈ set_mode i m l ->
  (exists r, l !! i = Some r /\ r' = mkRequest (req_txn r) m (granted_ r)) \/
  (exists j, j <> i /\ l !! j = Some r').
Proof.
  intros [j Hj]%list_elem_of_lookup. rewrite lookup_set_mode in Hj. case_decide as E.
  - subst. apply fmap_Some in Hj as (r & Hr & ->). left. eauto.
  - right. exists j. split; [done|done].
Qed.

Lemma set_mode_txns (i : nat) (m : LockMode) (l : list LockRequest) :
  req_txn <$> set_mode i m l = req_txn <$> l.
Proof.
  apply list_eq. intros j. rewrite !list_lookup_fmap, lookup_set_mode. case_decide; [|done].
  by destruct (l !! j).
Qed.

Lemma queue_grant (id : LockDataId) (q : LockRequestQueue) (txn : Z) (m m' : LockMode) :
  queue_ok id q -> find_request txn (request_queue_ q) = None ->
  (forall a, a ∈ request_queue_ q -> compat (lock_mode_ a) m = true) ->
  (forall a, a ∈ request_queue_ q -> (rank (lock_mode_ a) <= rank m')%nat) ->
  (rank m <= rank m')%nat ->
  m = m' \/ (exists a, a ∈ request_queue_ q /\ lock_mode_ a = m') ->
  (ld_type id = RECORD -> m = SHARED \/ m = EXCLUSIVE) ->
  queue_ok id (mkQueue (request_queue_ q ++ [mkRequest txn m true]) (grp m')).
Proof.
  intros Q Hf Hc Hr Hm Htop Hrec. split; simpl.
  - rewrite fmap_app. apply NoDup_app. split_and!; [apply Q| |apply NoDup_singleton].
    intros x (r & -> & Hin)%list_elem_of_fmap. simpl. intros E%list_elem_of_singleton.
    by apply (find_request_None _ _ Hf r).
  - by apply pairwise_grant; [apply Q|].
  - symmetry. destruct Htop as [->|(a & Ha & Em)].
    + apply (group_of_intro _ _ (mkRequest txn m' true)); [set_solver|done|].
      intros r' [H|H]%elem_of_app; [by apply Hr|]. by apply list_elem_of_singleton in H as ->.
    + apply (group_of_intro _ _ a); [set_solver|done|].
      intros r' [H|H]%elem_of_app; [by apply Hr|]. by apply list_elem_of_singleton in H as ->.
  - intros Ht r' [H|H]%elem_of_app; [by apply (q_record _ _ Q)|].
    apply list_elem_of_singleton in H as ->. by apply Hrec.
Qed.

Lemma queue_upgrade (id : LockDataId) (q : LockRequestQueue) (i : nat) (r : LockRequest) (m : LockMode) :
  queue_ok id q -> request_queue_ q !! i = Some r ->
  (forall j a, j <> i -> request_queue_ q !! j = Some a ->
     compat (lock_mode_ a) m = true /\ (rank (lock_mode_ a) <= rank m)%nat) ->
  (ld_type id = RECORD -> m = EXCLUSIVE) ->
  queue_ok id (mkQueue (set_mode i m (request_queue_ q)) (grp m)).
Proof.
  intros Q Hi Ho Hrec. split; simpl.
  - rewrite set_mode_txns. apply Q.
  - apply pairwise_upgrade; [apply Q|]. intros j a Hj Ha. by apply (Ho j).
  - symmetry. apply (group_of_intro _ _ (mkRequest (req_txn r) m (granted_ r))); [|done|].
    + apply (list_elem_of_lookup_2 _ i). rewrite lookup_set_mode, decide_True, Hi by done. done.
    + intros r' [(r0 & _ & ->)|(j & Hj & Hr')]%elem_of_set_mode; [done|]. by apply (Ho j).
  - intros Ht r' [(r0 & _ & ->)|(j & Hj & Hr')]%elem_of_set_mode.
    + simpl. right. by apply Hrec.
    + apply (q_record _ _ Q Ht). by eapply list_elem_of_lookup_2.
Qed.

(** ** The reference lock function

    Asked for mode [m] on [id], with [held] the mode the transaction has there
    already: nothing to do when [held] covers [m]; otherwise the two are joined,
    and the result is granted exactly when it is compatible with every other
    transaction's request. *)

Definition join (held m : LockMode) : LockMode :=
  if covers held m then held else if covers m held then m else S_IX.

Definition others_allow (txn : Z) (m : LockMode) (l : list LockRequest) : bool :=
  forallb (fun a => (req_txn a =? txn) || compat (lock_mode_ a) m) l.

Definition spec_queue (txn : Z) (id : LockDataId) (m : LockMode) (q : LockRequestQueue) : M LockManager bool :=
  let l := request_queue_ q in
  match find_request txn l with
  | Some (i, r) =>
      if covers (lock_mode_ r) m then mret true else
      let t := join (lock_mode_ r) m in
      if others_allow txn t l then upgrade id i t (group_of (set_mode i t l)) q else prevent txn
  | None =>
      if others_allow txn m l then grant txn id m (group_of (l ++ [mkRequest txn m true])) q else prevent txn
  end.

Definition spec_lock (txn : Z) (id : LockDataId) (m : LockMode) : M LockManager bool :=
  ok ← check_lock txn;
  if negb ok then mret false else q ← get_queue id; spec_queue txn id m q.

Lemma check_lock_inv (txn : Z) (s s' : LockManager) (o : outcome bool) :
  check_lock txn s = (o, s') -> lock_table_ s' = lock_table_ s /\
  (forall t, is_Some (txns s !! t) <-> is_Some (txns s' !! t)) /\
  (forall x t, txns s !! x = Some t -> exists t', txns s' !! x = Some t' /\ lock_set_ t' = lock_set_ t /\ (x <> txn -> t' = t)) /\
  (o = Ret true -> exists t, txns s' !! txn = Some t /\ state_ t = GROWING).
Proof.
  unfold check_lock, mbind, M_bind, get_txn. destruct (txns s !! txn) as [t|] eqn:Et.
  2: { intros [= <- <-]. split_and!; try done. intros x t H. by exists t. }
  destruct (state_ t) eqn:Es; simpl.
  - unfold upd_txn, mbind, M_bind, get_txn. rewrite Et. simpl. intros [= <- <-]. simpl. split_and!; [done| | |].
    + intros x. destruct (decide (x = txn)) as [->|]; [rewrite lookup_insert_eq, Et|rewrite lookup_insert_ne by done]; done.
    + intros x t' H. destruct (decide (x = txn)) as [->|]; [rewrite lookup_insert_eq|rewrite lookup_insert_ne by done].
      * exists (set_state GROWING t). split; [done|]. split; [simpl; congruence|done].
      * by exists t'.
    + intros _. exists (set_state GROWING t). by rewrite lookup_insert_eq.
  - intros [= <- <-]. split_and!; try done; [intros x t' H; by exists t'|]. intros _. by exists t.
  - intros [= <- <-]. split_and!; try done. intros x t' H. by exists t'.
  - intros [= <- <-]. split_and!; try done. intros x t' H. by exists t'.
  - intros [= <- <-]. split_and!; try done. intros x t' H. by exists t'.
Qed.

Lemma empty_queue_ok (id : LockDataId) : queue_ok id empty_queue.
Proof.
  split; simpl; [constructor| |done|].
  - intros i j a b _ H. done.
  - intros _ r H. by apply elem_of_nil in H.
Qed.

Lemma lock_ext (txn : Z) (id : LockDataId) (k1 k2 : LockRequestQueue -> M LockManager bool) (s : LockManager) :
  inv s -> (forall q, queue_ok id q -> k1 q = k2 q) ->
  (ok ← check_lock txn; if negb ok then mret false else q ← get_queue id; k1 q) s =
  (ok ← check_lock txn; if negb ok then mret false else q ← get_queue id; k2 q) s.
Proof.
  intros I Hk. unfold mbind, M_bind. destruct (check_lock txn s) as [o s1] eqn:E.
  apply check_lock_inv in E as [Et _]. destruct o as [[]|e|w]; simpl; try done.
  unfold get_queue. rewrite Et. destruct (lock_table_ s !! id) as [q|] eqn:Eq.
  - rewrite Hk; [done|]. by apply (l_queue _ I).
  - rewrite Hk; [done|]. apply empty_queue_ok.
Qed.

(** The strongest mode decides compatibility with the whole queue. *)
Lemma group_top (m : LockMode) (l : list LockRequest) :
  group_of l = grp m -> exists i r, l !! i = Some r /\ lock_mode_ r = m.
Proof.
  intros E. assert (count_mode m l <> 0%nat) as Hc.
  { intros Hz. unfold group_of in E. repeat case_decide; destruct m; simpl in E; try discriminate; tauto. }
  unfold count_mode in Hc. destruct (filter (fun r => lock_mode_ r = m) l) as [|r k] eqn:Ef; [done|].
  assert (r ∈ filter (fun r => lock_mode_ r = m) l) as Hr by (rewrite Ef; left).
  apply list_elem_of_filter in Hr as [Hm Hr]. apply list_elem_of_lookup in Hr as [i Hi]. by exists i, r.
Qed.

Lemma compat_group (l : list LockRequest) (m' m : LockMode) :
  pairwise_compat l -> group_of l = grp m' ->
  forallb (fun a => compat (lock_mode_ a) m) l = compat m' m.
Proof.
  intros Hp Hg. destruct (group_top m' l Hg) as (i & r & Hi & Hr).
  apply eq_bool_prop_intro. rewrite forallb_True, Forall_forall. split.
  - intros H. rewrite <- Hr. apply H. by eapply list_elem_of_lookup_2.
  - intros Hc a Ha. pose proof (group_bound m' l a Hg Ha) as Hle.
    apply list_elem_of_lookup in Ha as [j Hj]. destruct (decide (j = i)) as [->|Hne].
    + assert (a = r) by congruence. by subst.
    + pose proof (Hp j i a r Hne Hj Hi) as Hc'. rewrite Hr in Hc'.
      destruct (lock_mode_ a), m', m; simpl in *; try done; lia.
Qed.

Lemma others_allow_new (txn : Z) (m : LockMode) (l : list LockRequest) :
  (forall r, r ∈ l -> req_txn r <> txn) ->
  others_allow txn m l = forallb (fun a => compat (lock_mode_ a) m) l.
Proof.
  unfold others_allow. induction l as [|r l IH]; intros H; [done|]. simpl.
  destruct (Z.eqb_spec (req_txn r) txn) as [E|_]; [exfalso; apply (H r); [left|done]|]. simpl.
  rewrite IH; [done|]. intros r' Hr'. apply H. by right.
Qed.

Lemma others_allow_spec (txn : Z) (m : LockMode) (l : list LockRequest) (i : nat) (r : LockRequest) :
  NoDup (req_txn <$> l) -> l !! i = Some r -> req_txn r = txn ->
  others_allow txn m l = true <-> (forall j a, j <> i -> l !! j = Some a -> compat (lock_mode_ a) m = true).
Proof.
  intros Hnd Hi Hr. unfold others_allow. rewrite forallb_forall. setoid_rewrite <- list_elem_of_In. split.
  - intros H j a Hj Ha. specialize (H a (list_elem_of_lookup_2 _ _ _ Ha)). apply orb_true_iff in H as [E%Z.eqb_eq|H]; [|done].
    exfalso. apply Hj. eapply NoDup_lookup; [exact Hnd|rewrite list_lookup_fmap, Ha; reflexivity|].
    rewrite list_lookup_fmap, Hi. simpl. congruence.
  - intros H a [j Ha]%list_elem_of_lookup. destruct (decide (j = i)) as [->|Hj].
    + rewrite Hi in Ha. injection Ha as <-. by rewrite Hr, Z.eqb_refl.
    + rewrite (H j a) by done. apply orb_true_r.
Qed.

(** When the transaction's own request is compatible with [m], only the group
    mode matters. *)
Lemma others_allow_own (txn : Z) (m : LockMode) (l : list LockRequest) (i : nat) (r : LockRequest) :
  NoDup (req_txn <$> l) -> l !! i = Some r -> req_txn r = txn -> compat (lock_mode_ r) m = true ->
  others_allow txn m l = forallb (fun a => compat (lock_mode_ a) m) l.
Proof.
  intros Hnd Hi Hr Hc. apply eq_bool_prop_intro. rewrite !Is_true_true.
  rewrite (others_allow_spec txn m l i r) by done. rewrite forallb_forall. setoid_rewrite <- list_elem_of_In. split.
  - intros H a [j Ha]%list_elem_of_lookup. destruct (decide (j = i)) as [->|Hj]; [|by apply (H j)].
    rewrite Hi in Ha. by injection Ha as <-.
  - intros H j a _ Ha. apply H. by eapply list_elem_of_lookup_2.
Qed.

Lemma group_cases (l : list LockRequest) : l = [] \/ exists m, group_of l = grp m.
Proof.
  destruct l as [|r l]; [by left|]. right. destruct (group_of_elim (r :: l) r) as (m & E & _); [left|]. by exists m.
Qed.

Lemma grant_group (l : list LockRequest) (txn : Z) (m mt : LockMode) :
  group_of l = grp mt ->
  group_of (l ++ [mkRequest txn m true]) = grp (if Nat.leb (rank m) (rank mt) then mt else m).
Proof.
  intros Hg. destruct (Nat.leb_spec (rank m) (rank mt)) as [Hle|Hlt].
  - destruct (group_top mt l Hg) as (i & r & Hi & Hr).
    apply (group_of_intro _ _ r); [apply elem_of_app; left; by eapply list_elem_of_lookup_2|done|].
    intros r' [H|H]%elem_of_app; [by apply (group_bound mt l)|]. by apply list_elem_of_singleton in H as ->.
  - apply (group_of_intro _ _ (mkRequest txn m true)); [set_solver|done|].
    intros r' [H|H]%elem_of_app; [pose proof (group_bound mt l r' Hg H); lia|]. by apply list_elem_of_singleton in H as ->.
Qed.

Lemma compat_rank (a t : LockMode) : t <> INTENTION_SHARED -> compat a t = true -> (rank a <= rank t)%nat.
Proof. destruct a, t; simpl; intros; try done; lia. Qed.

Lemma upgrade_group (l : list LockRequest) (i : nat) (r : LockRequest) (t : LockMode) :
  l !! i = Some r -> t <> INTENTION_SHARED ->
  (forall j a, j <> i -> l !! j = Some a -> compat (lock_mode_ a) t = true) ->
  group_of (set_mode i t l) = grp t.
Proof.
  intros Hi Ht Ho. apply (group_of_intro _ _ (mkRequest (req_txn r) t (granted_ r))); [|done|].
  - apply (list_elem_of_lookup_2 _ i). rewrite lookup_set_mode, decide_True, Hi by done. done.
  - intros r' [(r0 & _ & ->)|(j & Hj & Hr')]%elem_of_set_mode; [done|]. apply compat_rank; [done|]. by apply (Ho j).
Qed.

(** The branch of a transaction without a request on the object: the code's test
    on the group mode is the compatibility test. *)
Lemma new_request_eq (txn : Z) (id : LockDataId) (m : LockMode) (q : LockRequestQueue)
    (code : GroupLockMode -> option GroupLockMode) :
  queue_ok id q -> find_request txn (request_queue_ q) = None ->
  code NON_LOCK = Some (grp m) ->
  (forall mt, code (grp mt) =
     if compat mt m then Some (grp (if Nat.leb (rank m) (rank mt) then mt else m)) else None) ->
  match code (group_lock_mode_ q) with Some g => grant txn id m g q | None => prevent txn end =
  if others_allow txn m (request_queue_ q)
  then grant txn id m (group_of (request_queue_ q ++ [mkRequest txn m true])) q else prevent txn.
Proof.
  intros Q Hf H0 H1. rewrite (q_group _ _ Q). rewrite others_allow_new by by apply find_request_None.
  destruct (group_cases (request_queue_ q)) as [E|[mt E]].
  - rewrite E. simpl. change (group_of []) with NON_LOCK. rewrite H0.
    assert (group_of [mkRequest txn m true] = grp m) as ->; [|done].
    apply (group_of_intro _ _ (mkRequest txn m true)); [left|done|]. by intros r' ->%list_elem_of_singleton.
  - rewrite (compat_group _ mt m) by (done || apply Q). rewrite E, H1.
    destruct (compat mt m); [|done]. by rewrite (grant_group _ txn m mt).
Qed.

(** The branches of a transaction that already has a request. *)
Lemma upgrade_eq (txn : Z) (id : LockDataId) (q : LockRequestQueue) (i : nat) (r : LockRequest) (t : LockMode) (b : bool) :
  queue_ok id q -> find_request txn (request_queue_ q) = Some (i, r) -> t <> INTENTION_SHARED ->
  b = others_allow txn t (request_queue_ q) ->
  (if b then upgrade id i t (grp t) q else prevent txn) =
  if others_allow txn t (request_queue_ q)
  then upgrade id i t (group_of (set_mode i t (request_queue_ q))) q else prevent txn.
Proof.
  intros Q [Hi Hr]%find_request_Some Ht ->. destruct (others_allow txn t (request_queue_ q)) eqn:E; [|done].
  rewrite (upgrade_group _ i r t); [done|done|done|]. by apply (others_allow_spec txn t _ i r (q_nodup _ _ Q)).
Qed.

(** Nobody else is in the queue exactly when an exclusive lock is compatible. *)
Lemma alone_allow (txn : Z) (id : LockDataId) (q : LockRequestQueue) (i : nat) (r : LockRequest) :
  queue_ok id q -> find_request txn (request_queue_ q) = Some (i, r) ->
  others_allow txn EXCLUSIVE (request_queue_ q) = bool_decide (length (request_queue_ q) = 1%nat).
Proof.
  intros Q [Hi Hr]%find_request_Some. apply eq_bool_prop_intro. rewrite bool_decide_spec, Is_true_true.
  rewrite (others_allow_spec txn EXCLUSIVE _ i r (q_nodup _ _ Q) Hi Hr).
  pose proof (lookup_lt_Some _ _ _ Hi) as Hlt. split.
  - intros H. destruct (decide (length (request_queue_ q) = 1%nat)) as [|Hne]; [done|exfalso].
    assert (exists j, j <> i /\ (j < length (request_queue_ q))%nat) as (j & Hj & Hjl).
    { destruct i; [exists 1%nat|exists 0%nat]; lia. }
    destruct (lookup_lt_is_Some_2 _ _ Hjl) as [a Ha].
    specialize (H j a Hj Ha). by destruct (lock_mode_ a).
  - intros E j a Hj Ha. apply lookup_lt_Some in Ha. lia.
Qed.

(** Nobody else holds [m] exactly when [S_IX] is compatible with the others. *)
Lemma single_allow (txn : Z) (id : LockDataId) (q : LockRequestQueue) (i : nat) (r : LockRequest) (m : LockMode) :
  queue_ok id q -> find_request txn (request_queue_ q) = Some (i, r) -> lock_mode_ r = m ->
  m = SHARED \/ m = INTENTION_EXCLUSIVE ->
  others_allow txn S_IX (request_queue_ q) = bool_decide (count_mode m (request_queue_ q) = 1%nat).
Proof.
  intros Q [Hi Hr]%find_request_Some Hm Hcase. apply eq_bool_prop_intro. rewrite bool_decide_spec, Is_true_true.
  rewrite (others_allow_spec txn S_IX _ i r (q_nodup _ _ Q) Hi Hr). split.
  - intros H. assert (forall l k, l !! k = Some r -> (forall j a, j <> k -> l !! j = Some a -> lock_mode_ a <> m) -> count_mode m l = 1%nat) as Hone.
    { intros l. induction l as [|a l IH]; intros [|k] Hk Ho; [done|done| |].
      - injection Hk as ->. unfold count_mode. rewrite filter_cons, decide_True by done. simpl.
        assert (count_mode m l = 0%nat) as E; [|unfold count_mode in E; lia].
        apply count_mode_zero. intros a [j Hj]%list_elem_of_lookup. by apply (Ho (Datatypes.S j)).
      - unfold count_mode. rewrite filter_cons, decide_False by (by apply (Ho 0%nat a)).
        apply (IH k Hk). intros j b Hj Hb. apply (Ho (Datatypes.S j) b); [lia|done]. }
    apply (Hone _ i Hi). intros j a Hj Ha. specialize (H j a Hj Ha). destruct Hcase as [->| ->], (lock_mode_ a); done.
  - intros E j a Hj Ha. pose proof (q_compat _ _ Q j i a r Hj Ha Hi) as Hc. rewrite Hm in Hc.
    destruct (decide (lock_mode_ a = m)) as [Ea|Ea].
    + exfalso. destruct (decide (i < j)%nat).
      * pose proof (count_mode_two m _ i j r a ltac:(lia) Hi Ha Hm Ea). lia.
      * pose proof (count_mode_two m _ j i a r ltac:(lia) Ha Hi Ea Hm). lia.
    + destruct Hcase as [->| ->], (lock_mode_ a); simpl in *; done.
Qed.

End LockFacts.
