(* ===== verification/LockSpec.v ===== *)
(** * The lock manager's contract

    The six locking functions are the reference function [spec_lock]; sequences
    of operations keep the table conflict-free; two-phase locking. *)

From S2P Require Import Prelude Bytes Txn Lock LockFacts.

Module LockSpec.
Import Lock LockFacts.

(** ** The code refines the reference function *)

Lemma shared_record_queue (txn : Z) (id : LockDataId) (q : LockRequestQueue) :
  ld_type id = RECORD -> queue_ok id q ->
  match find_request txn (request_queue_ q) with
  | Some _ => mret true
  | None => match group_lock_mode_ q with NON_LOCK | S => grant txn id SHARED S q | _ => prevent txn end
  end = spec_queue txn id SHARED q.
Proof.
  intros Ht Q. unfold spec_queue. destruct (find_request txn (request_queue_ q)) as [[i r]|] eqn:Ef.
  - apply find_request_Some in Ef as [Hi Hr].
    destruct (q_record _ _ Q Ht r) as [->| ->]; [by eapply list_elem_of_lookup_2|done|done].
  - rewrite <- (new_request_eq txn id SHARED q (fun g => match g with
      NON_LOCK | S => Some S
    | IS => Some S
    | _ => None end) Q Ef); [|done|by intros []].
    rewrite (q_group _ _ Q). destruct (group_of (request_queue_ q)) eqn:Eg; try done.
    destruct (group_top INTENTION_SHARED _ Eg) as (i & r & Hi & Hr).
    destruct (q_record _ _ Q Ht r) as [E|E]; [by eapply list_elem_of_lookup_2|congruence|congruence].
Qed.

Lemma exclusive_record_queue (txn : Z) (id : LockDataId) (q : LockRequestQueue) :
  ld_type id = RECORD -> queue_ok id q ->
  match find_request txn (request_queue_ q) with
  | Some (i, r) =>
      if decide (lock_mode_ r = EXCLUSIVE) then mret true else
      if decide (group_lock_mode_ q = S /\ length (request_queue_ q) = 1%nat)
      then upgrade id i EXCLUSIVE X q
      else prevent txn
  | None =>
      if decide (group_lock_mode_ q = NON_LOCK) then grant txn id EXCLUSIVE X q else prevent txn
  end = spec_queue txn id EXCLUSIVE q.
Proof.
  intros Ht Q. unfold spec_queue. destruct (find_request txn (request_queue_ q)) as [[i r]|] eqn:Ef.
  - pose proof Ef as [Hi Hr]%find_request_Some.
    destruct (q_record _ _ Q Ht r) as [E|E]; [by eapply list_elem_of_lookup_2| |by rewrite E].
    rewrite E. rewrite decide_False by done. change (covers SHARED EXCLUSIVE) with false. simpl.
    change (join SHARED EXCLUSIVE) with EXCLUSIVE.
    rewrite <- (upgrade_eq txn id q i r EXCLUSIVE (bool_decide (length (request_queue_ q) = 1%nat)));
      [|done|done|done|by rewrite (alone_allow txn id q i r)].
    case_bool_decide as El; [|rewrite decide_False by naive_solver; done].
    rewrite decide_True; [done|]. split; [|done]. rewrite (q_group _ _ Q).
    destruct (request_queue_ q) as [|a [|b l]]; try done. destruct i; [|done]. injection Hi as ->.
    apply (group_of_intro SHARED _ r); [left|done|]. intros r' ->%list_elem_of_singleton. by rewrite E.
  - rewrite <- (new_request_eq txn id EXCLUSIVE q (fun g => match g with NON_LOCK => Some X | _ => None end) Q Ef);
      [|done|by intros []].
    by destruct (group_lock_mode_ q).
Qed.

Lemma shared_table_queue (txn : Z) (id : LockDataId) (q : LockRequestQueue) :
  queue_ok id q ->
  match find_request txn (request_queue_ q) with
  | Some (i, r) =>
      match lock_mode_ r with
      | SHARED | S_IX | EXCLUSIVE => mret true
      | INTENTION_SHARED =>
          match group_lock_mode_ q with
          | IS | S => upgrade id i SHARED S q
          | _ => prevent txn
          end
      | INTENTION_EXCLUSIVE =>
          if decide (count_mode INTENTION_EXCLUSIVE (request_queue_ q) <> 1%nat) then prevent txn
          else upgrade id i S_IX SIX q
      end
  | None =>
      match group_lock_mode_ q with
      | NON_LOCK | S | IS => grant txn id SHARED S q
      | _ => prevent txn
      end
  end = spec_queue txn id SHARED q.
Proof.
  intros Q. unfold spec_queue. destruct (find_request txn (request_queue_ q)) as [[i r]|] eqn:Ef.
  - pose proof Ef as [Hi Hr]%find_request_Some. destruct (lock_mode_ r) eqn:Em; try done; simpl.
    + change (join INTENTION_SHARED SHARED) with SHARED.
      assert (exists mt, group_of (request_queue_ q) = grp mt) as [mt Eg].
      { destruct (group_of_elim _ r (list_elem_of_lookup_2 _ _ _ Hi)) as (m & ? & _). by exists m. }
      rewrite <- (upgrade_eq txn id q i r SHARED (compat mt SHARED)); [|done|done|done|].
      * rewrite (q_group _ _ Q), Eg. by destruct mt.
      * rewrite (others_allow_own txn SHARED _ i r (q_nodup _ _ Q) Hi Hr) by (by rewrite Em).
        by rewrite (compat_group _ mt) by (done || apply Q).
    + change (join INTENTION_EXCLUSIVE SHARED) with S_IX.
      rewrite <- (upgrade_eq txn id q i r S_IX (bool_decide (count_mode INTENTION_EXCLUSIVE (request_queue_ q) = 1%nat)));
        [|done|done|done|by rewrite (single_allow txn id q i r INTENTION_EXCLUSIVE) by (done || by right)].
      case_bool_decide; [rewrite decide_False by tauto|rewrite decide_True by done]; done.
  - rewrite <- (new_request_eq txn id SHARED q (fun g => match g with NON_LOCK | S | IS => Some S | _ => None end) Q Ef);
      [|done|by intros []].
    by destruct (group_lock_mode_ q).
Qed.

Lemma exclusive_table_queue (txn : Z) (id : LockDataId) (q : LockRequestQueue) :
  queue_ok id q ->
  match find_request txn (request_queue_ q) with
  | Some (i, r) =>
      if decide (lock_mode_ r = EXCLUSIVE) then mret true else
      if decide (length (request_queue_ q) <> 1%nat) then prevent txn
      else upgrade id i EXCLUSIVE X q
  | None =>
      if decide (group_lock_mode_ q = NON_LOCK) then grant txn id EXCLUSIVE X q else prevent txn
  end = spec_queue txn id EXCLUSIVE q.
Proof.
  intros Q. unfold spec_queue. destruct (find_request txn (request_queue_ q)) as [[i r]|] eqn:Ef.
  - case_decide as E; [by rewrite E|].
    assert (covers (lock_mode_ r) EXCLUSIVE = false /\ join (lock_mode_ r) EXCLUSIVE = EXCLUSIVE) as [-> ->]
      by (by destruct (lock_mode_ r)).
    rewrite <- (upgrade_eq txn id q i r EXCLUSIVE (bool_decide (length (request_queue_ q) = 1%nat)));
      [|done|done|done|by rewrite (alone_allow txn id q i r)].
    case_bool_decide; [rewrite decide_False by tauto|rewrite decide_True by done]; done.
  - rewrite <- (new_request_eq txn id EXCLUSIVE q (fun g => match g with NON_LOCK => Some X | _ => None end) Q Ef);
      [|done|by intros []].
    by destruct (group_lock_mode_ q).
Qed.

Lemma IS_table_queue (txn : Z) (id : LockDataId) (q : LockRequestQueue) :
  queue_ok id q ->
  match find_request txn (request_queue_ q) with
  | Some _ => mret true
  | None =>
      match group_lock_mode_ q with
      | X => prevent txn
      | NON_LOCK => grant txn id INTENTION_SHARED IS q
      | g => grant txn id INTENTION_SHARED g q
      end
  end = spec_queue txn id INTENTION_SHARED q.
Proof.
  intros Q. unfold spec_queue. destruct (find_request txn (request_queue_ q)) as [[i r]|] eqn:Ef.
  - by destruct (lock_mode_ r).
  - rewrite <- (new_request_eq txn id INTENTION_SHARED q
      (fun g => match g with X => None | NON_LOCK => Some IS | g => Some g end) Q Ef); [|done|by intros []].
    by destruct (group_lock_mode_ q).
Qed.

Lemma IX_table_queue (txn : Z) (id : LockDataId) (q : LockRequestQueue) :
  queue_ok id q ->
  match find_request txn (request_queue_ q) with
  | Some (i, r) =>
      match lock_mode_ r with
      | INTENTION_EXCLUSIVE | S_IX | EXCLUSIVE => mret true
      | SHARED =>
          if decide (count_mode SHARED (request_queue_ q) <> 1%nat) then prevent txn
          else upgrade id i S_IX SIX q
      | INTENTION_SHARED =>
          match group_lock_mode_ q with
          | IS | IX => upgrade id i INTENTION_EXCLUSIVE IX q
          | _ => prevent txn
          end
      end
  | None =>
      match group_lock_mode_ q with
      | NON_LOCK | IS | IX => grant txn id INTENTION_EXCLUSIVE IX q
      | _ => prevent txn
      end
  end = spec_queue txn id INTENTION_EXCLUSIVE q.
Proof.
  intros Q. unfold spec_queue. destruct (find_request txn (request_queue_ q)) as [[i r]|] eqn:Ef.
  - pose proof Ef as [Hi Hr]%find_request_Some. destruct (lock_mode_ r) eqn:Em; try done; simpl.
    + change (join SHARED INTENTION_EXCLUSIVE) with S_IX.
      rewrite <- (upgrade_eq txn id q i r S_IX (bool_decide (count_mode SHARED (request_queue_ q) = 1%nat)));
        [|done|done|done|by rewrite (single_allow txn id q i r SHARED) by (done || by left)].
      case_bool_decide; [rewrite decide_False by tauto|rewrite decide_True by done]; done.
    + change (join INTENTION_SHARED INTENTION_EXCLUSIVE) with INTENTION_EXCLUSIVE.
      assert (exists mt, group_of (request_queue_ q) = grp mt) as [mt Eg].
      { destruct (group_of_elim _ r (list_elem_of_lookup_2 _ _ _ Hi)) as (m & ? & _). by exists m. }
      rewrite <- (upgrade_eq txn id q i r INTENTION_EXCLUSIVE (compat mt INTENTION_EXCLUSIVE)); [|done|done|done|].
      * rewrite (q_group _ _ Q), Eg. by destruct mt.
      * rewrite (others_allow_own txn INTENTION_EXCLUSIVE _ i r (q_nodup _ _ Q) Hi Hr) by (by rewrite Em).
        by rewrite (compat_group _ mt) by (done || apply Q).
  - rewrite <- (new_request_eq txn id INTENTION_EXCLUSIVE q
      (fun g => match g with NON_LOCK | IS | IX => Some IX | _ => None end) Q Ef); [|done|by intros []].
    by destruct (group_lock_mode_ q).
Qed.

(** ** Effects of one request *)

(** Changing the queue of [id] changes the locks held on [id] only. *)
Lemma holds_put (s : LockManager) (id id' : LockDataId) (q : LockRequestQueue) (x : gmap Z Transaction) (txn : Z) (m : LockMode) :
  holds {| lock_table_ := <[id := q]> (lock_table_ s); txns := x |} txn id' m <->
  if decide (id' = id) then exists r, r ∈ request_queue_ q /\ req_txn r = txn /\ lock_mode_ r = m
  else holds s txn id' m.
Proof.
  unfold holds. simpl. case_decide as E.
  - subst. rewrite lookup_insert_eq. split; [intros (? & r & [= <-] & ?); by exists r|intros (r & ?); by exists q, r].
  - rewrite lookup_insert_ne by done. done.
Qed.

Lemma holds_table (s s' : LockManager) (txn : Z) (id : LockDataId) (m : LockMode) :
  lock_table_ s' = lock_table_ s -> holds s' txn id m <-> holds s txn id m.
Proof. unfold holds. by intros ->. Qed.

Lemma inv_txns (s s' : LockManager) :
  inv s -> lock_table_ s' = lock_table_ s ->
  (forall x t, txns s !! x = Some t -> exists t', txns s' !! x = Some t' /\ lock_set_ t' = lock_set_ t) -> inv s'.
Proof.
  intros I Et Hx. split; rewrite Et; [apply I|]. intros id q r Hq Hr.
  destruct (l_set _ I id q r Hq Hr) as (t & Ht & Hin). destruct (Hx _ _ Ht) as (t' & Ht' & E).
  exists t'. by rewrite E.
Qed.

Lemma inv_put (s : LockManager) (id : LockDataId) (q : LockRequestQueue) (x : gmap Z Transaction) :
  inv s -> queue_ok id q ->
  (forall r, r ∈ request_queue_ q -> exists t, x !! req_txn r = Some t /\ id ∈ lock_set_ t) ->
  (forall i t, txns s !! i = Some t -> exists t', x !! i = Some t' /\ lock_set_ t ⊆ lock_set_ t') ->
  inv {| lock_table_ := <[id := q]> (lock_table_ s); txns := x |}.
Proof.
  intros I Q Hr Hx. split; simpl.
  - intros id' q' [[<- <-]|[Hne Hq]]%lookup_insert_Some; [done|]. by apply (l_queue _ I).
  - intros id' q' r [[<- <-]|[Hne Hq]]%lookup_insert_Some Hin; [by apply Hr|].
    destruct (l_set _ I id' q' r Hq Hin) as (t & Ht & Hid). destruct (Hx _ _ Ht) as (t' & Ht' & Hs).
    exists t'. split; [done|]. set_solver.
Qed.

(** Another transaction holds a lock that conflicts with what [txn] would get. *)
Definition conflict (s : LockManager) (txn : Z) (id : LockDataId) (m : LockMode) : Prop :=
  exists txn' m' held, txn' <> txn /\ holds s txn' id m' /\
    (held = m \/ exists m0, holds s txn id m0 /\ held = join m0 m) /\ compat m' held = false.

(** The outcome of asking for mode [m] on [id]. *)
Record request_result (s : LockManager) (txn : Z) (id : LockDataId) (m : LockMode) (o : outcome bool) (s' : LockManager) : Prop := {
  rr_inv : inv s';
  rr_others : forall txn' id' m', txn' <> txn \/ id' <> id -> holds s' txn' id' m' <-> holds s txn' id' m';
  rr_outcome : match o with
    | Ret true => exists m', holds s' txn id m' /\ covers m' m = true
    | Ret false => s' = s
    | Throw e => (e = TransactionAbortException txn LOCK_ON_SHIRINKING /\ s' = s) \/
        (e = TransactionAbortException txn DEADLOCK_PREVENTION /\ conflict s txn id m)
    | Stuck _ => txns s !! txn = None
    end;
  rr_txns : forall x t, txns s !! x = Some t -> x <> txn -> txns s' !! x = Some t
}.

Lemma not_allowed (txn : Z) (m : LockMode) (l : list LockRequest) :
  others_allow txn m l = false -> exists r, r ∈ l /\ req_txn r <> txn /\ compat (lock_mode_ r) m = false.
Proof.
  unfold others_allow. induction l as [|r l IH]; [done|]. simpl. intros [[E1 E2]%orb_false_iff|E]%andb_false_iff.
  - exists r. split; [left|]. split; [by apply Z.eqb_neq|done].
  - destruct (IH E) as (r' & H1 & H2). exists r'. split; [by right|done].
Qed.

Lemma covers_join (held m : LockMode) : covers (join held m) m = true.
Proof. by destruct held, m. Qed.
Lemma join_not_IS (held m : LockMode) : covers held m = false -> join held m <> INTENTION_SHARED.
Proof. by destruct held, m. Qed.
Lemma join_record (held m : LockMode) :
  (held = SHARED \/ held = EXCLUSIVE) -> (m = SHARED \/ m = EXCLUSIVE) -> covers held m = false -> join held m = EXCLUSIVE.
Proof. by intros [->| ->] [->| ->]. Qed.

Lemma upgrade_result (s : LockManager) (txn : Z) (id : LockDataId) (m : LockMode) (q : LockRequestQueue) (i : nat) (r : LockRequest) :
  inv s -> lock_table_ s !! id = Some q -> find_request txn (request_queue_ q) = Some (i, r) ->
  (ld_type id = RECORD -> m = SHARED \/ m = EXCLUSIVE) -> covers (lock_mode_ r) m = false ->
  let t := join (lock_mode_ r) m in
  others_allow txn t (request_queue_ q) = true ->
  request_result s txn id m (Ret true)
    {| lock_table_ := <[id := mkQueue (set_mode i t (request_queue_ q)) (group_of (set_mode i t (request_queue_ q)))]> (lock_table_ s);
       txns := txns s |}.
Proof.
  intros I Hq Ef Hrec Ec t Ea. pose proof (l_queue _ I _ _ Hq) as Q.
  apply find_request_Some in Ef as [Hi Hr]. pose proof (list_elem_of_lookup_2 _ _ _ Hi) as Hin.
  rewrite (others_allow_spec txn t _ i r (q_nodup _ _ Q) Hi Hr) in Ea.
  assert (t <> INTENTION_SHARED) as Ht by by apply join_not_IS.
  rewrite (upgrade_group _ i r t) by done.
  split; [| | |done].
  - apply inv_put; [done| | |intros x y Hx; by exists y].
    + apply (queue_upgrade id q i r t); try done.
      * intros j a Hj Ha. split; [by apply (Ea j)|]. apply compat_rank; [done|by apply (Ea j)].
      * intros E. apply join_record; [by apply (q_record _ _ Q)|by apply Hrec|done].
    + intros x [(r0 & Hr0 & ->)|(j & Hj & Hxj)]%elem_of_set_mode; simpl.
      * apply (l_set _ I id q r0 Hq). by eapply list_elem_of_lookup_2.
      * apply (l_set _ I id q x Hq). by eapply list_elem_of_lookup_2.
  - intros txn' id' m' Hne. rewrite holds_put. case_decide as E; [|done]. subst id'. unfold holds. rewrite Hq. split.
    + intros (x & Hx & E1 & E2). exists q, x. split; [done|]. split; [|done]. simpl in Hx.
      apply elem_of_set_mode in Hx as [(r0 & Hr0 & ->)|(j & Hj & Hxj)]; [|by eapply list_elem_of_lookup_2].
      simpl in E1. assert (r0 = r) by congruence. subst. naive_solver.
    + intros (? & x & [= <-] & Hx & E1 & E2). apply list_elem_of_lookup in Hx as [j Hj].
      exists x. split; [|done]. apply (list_elem_of_lookup_2 _ j). simpl. rewrite lookup_set_mode, decide_False; [done|].
      intros <-. assert (x = r) by congruence. subst. naive_solver.
  - exists t. split; [|by apply covers_join]. rewrite holds_put, decide_True by done.
    exists (mkRequest (req_txn r) t (granted_ r)). split; [|done]. simpl.
    apply (list_elem_of_lookup_2 _ i). rewrite lookup_set_mode, decide_True, Hi by done. done.
Qed.

Lemma grant_result (s : LockManager) (txn : Z) (id : LockDataId) (m : LockMode) (q : LockRequestQueue) (t : Transaction) :
  inv s -> lock_table_ s !! id = Some q -> find_request txn (request_queue_ q) = None -> txns s !! txn = Some t ->
  (ld_type id = RECORD -> m = SHARED \/ m = EXCLUSIVE) -> others_allow txn m (request_queue_ q) = true ->
  request_result s txn id m (Ret true)
    {| lock_table_ := <[id := mkQueue (request_queue_ q ++ [mkRequest txn m true])
                               (group_of (request_queue_ q ++ [mkRequest txn m true]))]> (lock_table_ s);
       txns := <[txn := set_lock_set ({[id]} ∪ lock_set_ t) t]> (txns s) |}.
Proof.
  intros I Hq Ef Ht Hrec Ea. pose proof (l_queue _ I _ _ Hq) as Q.
  assert (forall a, a ∈ request_queue_ q -> compat (lock_mode_ a) m = true) as Hc.
  { rewrite others_allow_new in Ea by by apply find_request_None. rewrite forallb_forall in Ea.
    intros a Ha. apply Ea. by apply list_elem_of_In. }
  set (x := <[txn := set_lock_set ({[id]} ∪ lock_set_ t) t]> (txns s)).
  assert (forall i u, txns s !! i = Some u -> exists u', x !! i = Some u' /\ lock_set_ u ⊆ lock_set_ u') as Hx.
  { intros i u Hu. unfold x. destruct (decide (i = txn)) as [->|]; [rewrite lookup_insert_eq|rewrite lookup_insert_ne by done].
    - eexists. split; [done|]. simpl. assert (u = t) by congruence. subst. set_solver.
    - exists u. done. }
  split.
  - apply inv_put; [done| | |done].
    + destruct (group_cases (request_queue_ q)) as [E|[mt E]].
      * rewrite E. simpl. assert (group_of [mkRequest txn m true] = grp m) as ->.
        { apply (group_of_intro _ _ (mkRequest txn m true)); [left|done|]. by intros r' ->%list_elem_of_singleton. }
        pose proof (queue_grant id empty_queue txn m m (empty_queue_ok id) eq_refl) as G. simpl in G.
        apply G; try done; try (by left); intros a Ha; by apply elem_of_nil in Ha.
      * rewrite (grant_group _ txn m mt) by done. apply queue_grant; try done.
        -- intros a Ha. pose proof (group_bound mt _ a E Ha). destruct (Nat.leb_spec (rank m) (rank mt)); lia.
        -- destruct (Nat.leb_spec (rank m) (rank mt)); lia.
        -- destruct (Nat.leb_spec (rank m) (rank mt)); [right|by left].
           destruct (group_top mt _ E) as (k & r & Hk & Hr). exists r. split; [by eapply list_elem_of_lookup_2|done].
    + intros r [Hr|Hr]%elem_of_app.
      * destruct (l_set _ I id q r Hq Hr) as (u & Hu & Hid). destruct (Hx _ _ Hu) as (u' & Hu' & Hs).
        exists u'. split; [done|set_solver].
      * apply list_elem_of_singleton in Hr as ->. simpl. unfold x. rewrite lookup_insert_eq.
        eexists. split; [done|]. simpl. set_solver.
  - intros txn' id' m' Hne. rewrite holds_put. case_decide as E; [|done]. subst id'. unfold holds. rewrite Hq. simpl.
    setoid_rewrite elem_of_app. setoid_rewrite list_elem_of_singleton. split.
    + intros (r & [Hr| ->] & E1 & E2); [by exists q, r|]. simpl in E1. naive_solver.
    + intros (? & r & [= <-] & Hr & E1 & E2). exists r. by split; [left|].
  - exists m. split; [|by destruct m]. rewrite holds_put, decide_True by done.
    exists (mkRequest txn m true). split; [|done]. simpl. set_solver.
  - intros i u Hu Hne. simpl. unfold x. by rewrite lookup_insert_ne.
Qed.

Lemma spec_queue_result (s : LockManager) (txn : Z) (id : LockDataId) (m : LockMode) (q : LockRequestQueue) (o : outcome bool) (s' : LockManager) :
  inv s -> is_Some (txns s !! txn) -> lock_table_ s !! id = Some q ->
  (ld_type id = RECORD -> m = SHARED \/ m = EXCLUSIVE) ->
  spec_queue txn id m q s = (o, s') -> request_result s txn id m o s'.
Proof.
  intros I [t Ht] Hq Hrec Hrun. unfold spec_queue in Hrun.
  destruct (find_request txn (request_queue_ q)) as [[i r]|] eqn:Ef.
  - pose proof Ef as [Hi Hr]%find_request_Some. pose proof (list_elem_of_lookup_2 _ _ _ Hi) as Hin.
    destruct (covers (lock_mode_ r) m) eqn:Ec.
    { injection Hrun as <- <-. split; try done. exists (lock_mode_ r). split; [by exists q, r|done]. }
    destruct (others_allow txn (join (lock_mode_ r) m) (request_queue_ q)) eqn:Ea.
    + injection Hrun as <- <-. by apply upgrade_result.
    + injection Hrun as <- <-. split; try done. right. split; [done|].
      destruct (not_allowed _ _ _ Ea) as (r' & Hr' & Hne & Hc). exists (req_txn r'), (lock_mode_ r'), (join (lock_mode_ r) m).
      split_and!; [done|by exists q, r'| |done]. right. exists (lock_mode_ r). split; [by exists q, r|done].
  - destruct (others_allow txn m (request_queue_ q)) eqn:Ea.
    + unfold grant in Hrun. erewrite bind_run in Hrun.
      2: { unfold upd_txn. erewrite bind_run by (unfold get_txn; rewrite Ht; reflexivity). reflexivity. }
      injection Hrun as <- <-. by apply grant_result.
    + injection Hrun as <- <-. split; try done. right. split; [done|].
      destruct (not_allowed _ _ _ Ea) as (r' & Hr' & Hne & Hc). exists (req_txn r'), (lock_mode_ r'), m.
      split_and!; [done|by exists q, r'|by left|done].
Qed.

(** Adding an empty queue, or starting the growing phase, changes no lock. *)
Lemma request_result_pre (s s0 : LockManager) (txn : Z) (id : LockDataId) (m : LockMode) (o : outcome bool) (s' : LockManager) :
  (forall txn' id' m', holds s0 txn' id' m' <-> holds s txn' id' m') ->
  (forall x t, txns s !! x = Some t -> x <> txn -> txns s0 !! x = Some t) ->
  (o <> Ret false /\ forall e, o <> Throw (TransactionAbortException txn e) \/ e <> LOCK_ON_SHIRINKING) ->
  (txns s0 !! txn = None -> txns s !! txn = None) ->
  request_result s0 txn id m o s' -> request_result s txn id m o s'.
Proof.
  intros Hh Hx [Hne Hse] Hn R. split.
  - apply R.
  - intros txn' id' m' H. rewrite (rr_others _ _ _ _ _ _ R) by done. apply Hh.
  - pose proof (rr_outcome _ _ _ _ _ _ R) as Ho. destruct o as [[]|e|w]; try done; [| by apply Hn].
    destruct Ho as [[-> _]|[-> (txn' & m' & held & H1 & H2 & H3 & H4)]].
    + by destruct (Hse LOCK_ON_SHIRINKING).
    + right. split; [done|]. exists txn', m', held. split_and!; [done|by apply Hh| |done].
      destruct H3 as [->|(m0 & H3 & ->)]; [by left|]. right. exists m0. split; [by apply Hh|done].
  - intros x t Ht Hxn. apply R; [by apply Hx|done].
Qed.

Lemma spec_queue_outcome (s : LockManager) (txn : Z) (id : LockDataId) (m : LockMode) (q : LockRequestQueue) (o : outcome bool) (s' : LockManager) :
  spec_queue txn id m q s = (o, s') ->
  o <> Ret false /\ forall e, o <> Throw (TransactionAbortException txn e) \/ e <> LOCK_ON_SHIRINKING.
Proof.
  intros Hrun. assert (o = Ret true \/ o = Throw (TransactionAbortException txn DEADLOCK_PREVENTION) \/ o = Stuck NullDeref) as Ho.
  { unfold spec_queue in Hrun. destruct (find_request txn (request_queue_ q)) as [[i r]|].
    - destruct (covers _ _); [left; by injection Hrun as <-|].
      destruct (others_allow _ _ _); [left; by injection Hrun as <-|right; left; by injection Hrun as <-].
    - destruct (others_allow _ _ _); [|right; left; by injection Hrun as <-].
      unfold grant, upd_txn, mbind, M_bind, get_txn in Hrun. destruct (txns s !! txn); [left|right; right]; by injection Hrun as <-. }
  destruct Ho as [->|[->| ->]]; (split; [discriminate|]); intros []; first [by right|left; discriminate].
Qed.

Lemma spec_lock_result (s : LockManager) (txn : Z) (id : LockDataId) (m : LockMode) (o : outcome bool) (s' : LockManager) :
  inv s -> (ld_type id = RECORD -> m = SHARED \/ m = EXCLUSIVE) ->
  spec_lock txn id m s = (o, s') -> request_result s txn id m o s'.
Proof.
  intros I Hrec Hrun. unfold spec_lock, mbind, M_bind in Hrun.
  destruct (check_lock txn s) as [o1 s1] eqn:Ec. pose proof Ec as (Et & Hdom & Hx & Hg)%check_lock_inv.
  destruct o1 as [[]|e|w].
  - simpl in Hrun. assert (inv s1) as I1.
    { apply (inv_txns s); [done|done|]. intros x t Hxt. destruct (Hx x t Hxt) as (t' & ? & ? & _). by exists t'. }
    destruct (Hg eq_refl) as (t & Ht & _).
    assert (forall x u, txns s !! x = Some u -> x <> txn -> txns s1 !! x = Some u) as Hkeep.
    { intros x u Hu Hne. destruct (Hx x u Hu) as (u' & Hu' & _ & E). by rewrite Hu', E. }
    assert (txns s1 !! txn = None -> txns s !! txn = None) as Hno by (intros E; congruence).
    unfold get_queue in Hrun. destruct (lock_table_ s1 !! id) as [q|] eqn:Eq; simpl in Hrun.
    + apply (request_result_pre s s1); try done; [intros; by apply holds_table|by eapply spec_queue_outcome|].
      eapply spec_queue_result; [done|by exists t|done|done|done].
    + set (s2 := set_table (<[id := empty_queue]> (lock_table_ s1)) s1) in *.
      apply (request_result_pre s s2); try done.
      * intros txn' id' m'. unfold s2, set_table. rewrite holds_put. case_decide as E; [|by apply holds_table].
        subst. unfold holds. rewrite <- Et, Eq. simpl. split; [intros (r & H & _); by apply elem_of_nil in H|naive_solver].
      * by eapply spec_queue_outcome.
      * eapply spec_queue_result; [|by exists t|apply lookup_insert_eq|done|done].
        apply inv_put; [done|apply empty_queue_ok| |intros x u Hu; by exists u].
        intros r H. by apply elem_of_nil in H.
  - simpl in Hrun. injection Hrun as <- <-.
    assert (s1 = s) as ->; [|by split].
    unfold check_lock, mbind, M_bind, get_txn in Ec. destruct (txns s !! txn) as [t|] eqn:E; [|done].
    destruct (state_ t); simpl in Ec; try (by injection Ec); unfold upd_txn, mbind, M_bind, get_txn in Ec; rewrite E in Ec; done.
  - injection Hrun as <- <-. unfold check_lock, mbind, M_bind, get_txn in Ec. destruct (txns s !! txn) as [t|] eqn:E; [|done].
    destruct (state_ t); simpl in Ec; try done.
    + unfold upd_txn, mbind, M_bind, get_txn in Ec. by rewrite E in Ec.
    + injection Ec as <- <-. split; try done. by left.
  - injection Hrun as <- <-. unfold check_lock, mbind, M_bind, get_txn in Ec. destruct (txns s !! txn) as [t|] eqn:E.
    + destruct (state_ t); simpl in Ec; try done. unfold upd_txn, mbind, M_bind, get_txn in Ec. by rewrite E in Ec.
    + injection Ec as <- <-. by split.
Qed.

(** ** Releasing *)

Lemma elem_of_delete_request (txn : Z) (l : list LockRequest) (i : nat) (r x : LockRequest) :
  NoDup (req_txn <$> l) -> find_request txn l = Some (i, r) ->
  x ∈ delete i l <-> x ∈ l /\ req_txn x <> txn.
Proof.
  intros Hnd [Hi Hr]%find_request_Some. rewrite <- (take_drop_middle _ _ _ Hi) in Hnd |- *.
  rewrite fmap_app in Hnd. simpl in Hnd. apply NoDup_app in Hnd as (_ & H1 & H2). apply NoDup_cons in H2 as [H2 _].
  assert (length (take i l) = i) as El by (apply length_take_le; apply lookup_lt_Some in Hi; lia).
  assert (delete i (take i l ++ r :: drop (Datatypes.S i) l) = take i l ++ drop (Datatypes.S i) l) as ->.
  { rewrite <- El at 1. by rewrite delete_middle. }
  rewrite !elem_of_app, elem_of_cons. split.
  - intros [H|H].
    + split; [by left|]. intros E. apply (H1 (req_txn x)); [apply list_elem_of_fmap; by exists x|rewrite E, Hr; left].
    + split; [by right; right|]. intros E. apply H2. rewrite Hr, <- E. apply list_elem_of_fmap. by exists x.
  - intros [[H|[->|H]] Hne]; [by left|done|by right].
Qed.

Lemma elem_of_drop_request (txn : Z) (l : list LockRequest) (x : LockRequest) :
  NoDup (req_txn <$> l) -> x ∈ drop_request txn l <-> x ∈ l /\ req_txn x <> txn.
Proof.
  intros Hnd. unfold drop_request. destruct (find_request txn l) as [[i r]|] eqn:Ef.
  - by apply (elem_of_delete_request txn l i r x).
  - split; [|by intros [? _]]. intros Hx. split; [done|]. by apply (find_request_None _ _ Ef).
Qed.

Lemma drop_queue_ok (txn : Z) (id : LockDataId) (q : LockRequestQueue) :
  queue_ok id q -> let l := drop_request txn (request_queue_ q) in queue_ok id (mkQueue l (group_of l)).
Proof.
  intros Q l. split; simpl; [| |done|].
  - unfold l, drop_request. destruct (find_request _ _) as [[i r]|]; [|apply Q].
    eapply sublist_NoDup; [apply (q_nodup _ _ Q)|]. apply fmap_sublist, sublist_delete.
  - unfold l, drop_request. destruct (find_request _ _) as [[i r]|]; [apply pairwise_delete|]; apply Q.
  - intros Ht x [Hx _]%(elem_of_drop_request txn _ x (q_nodup _ _ Q)). by apply (q_record _ _ Q).
Qed.

(** [unlock] drops the transaction's request on that object, whatever its mode,
    and ends the growing phase. *)
Lemma unlock_result (s : LockManager) (txn : Z) (id : LockDataId) (t : Transaction) :
  inv s -> txns s !! txn = Some t -> state_ t <> ABORTED -> state_ t <> COMMITTED ->
  exists s', unlock txn id s = (Ret true, s') /\ inv s' /\
    txns s' = <[txn := set_state (if decide (state_ t = GROWING) then SHRINKING else state_ t) t]> (txns s) /\
    (forall txn' id' m', holds s' txn' id' m' <-> holds s txn' id' m' /\ (txn' <> txn \/ id' <> id)).
Proof.
  intros I Ht Ha Hc. set (t' := set_state (if decide (state_ t = GROWING) then SHRINKING else state_ t) t).
  set (s1 := {| lock_table_ := lock_table_ s; txns := <[txn := t']> (txns s) |}).
  assert (inv s1) as I1.
  { apply (inv_txns s); [done|done|]. intros x u Hu. simpl.
    destruct (decide (x = txn)) as [->|]; [rewrite lookup_insert_eq|rewrite lookup_insert_ne by done; by exists u].
    eexists. split; [done|]. simpl. congruence. }
  assert (unlock txn id s =
    match lock_table_ s !! id with
    | None => (Ret true, s1)
    | Some q => let l := drop_request txn (request_queue_ q) in
        (Ret true, {| lock_table_ := <[id := mkQueue l (group_of l)]> (lock_table_ s); txns := <[txn := t']> (txns s) |})
    end) as E.
  { unfold unlock. erewrite bind_run by (unfold get_txn; rewrite Ht; reflexivity). unfold t' in *.
    destruct (state_ t) eqn:Es; try done.
    all: unfold mbind, M_bind, gets, put_queue, modify, upd_txn, mbind, M_bind, get_txn, s1, set_table, set_txns.
    all: simpl; try rewrite Ht; simpl.
    all: try (rewrite (insert_id (txns s) txn (set_state DEFAULT t)) by (rewrite Ht; f_equal; destruct t; simpl in *; by subst)).
    all: try (rewrite (insert_id (txns s) txn (set_state SHRINKING t)) by (rewrite Ht; f_equal; destruct t; simpl in *; by subst)).
    all: destruct (lock_table_ s !! id) as [q|] eqn:Eq; simpl; try rewrite Eq; first [reflexivity|destruct s; reflexivity]. }
  assert (forall q, lock_table_ s !! id = Some q -> forall r, r ∈ request_queue_ q -> exists u, <[txn := t']> (txns s) !! req_txn r = Some u /\ id ∈ lock_set_ u) as Hset.
  { intros q Hq r Hr. exact (l_set _ I1 id q r Hq Hr). }
  rewrite E. destruct (lock_table_ s !! id) as [q|] eqn:Hq.
  - pose proof (l_queue _ I _ _ Hq) as Q.
    pose proof (fun x => elem_of_drop_request txn (request_queue_ q) x (q_nodup _ _ Q)) as Hl.
    eexists. split; [reflexivity|]. split; [|split; [done|]].
    + apply (inv_put s1); [done|by apply drop_queue_ok| |intros x u Hu; by exists u].
      intros r [Hr _]%Hl. by apply (Hset q).
    + intros txn' id' m'. rewrite holds_put. case_decide as Eid.
      * subst. unfold holds. rewrite Hq. simpl. setoid_rewrite Hl. split.
        -- intros (r & [Hr Hne] & E1 & E2). split; [by exists q, r|]. left. congruence.
        -- intros [(? & r & [= <-] & Hr & E1 & E2) Hne]. exists r. split_and!; try done. naive_solver.
      * naive_solver.
  - eexists. split; [reflexivity|]. split; [done|]. split; [done|]. intros txn' id' m'.
    rewrite (holds_table s s1) by done. split; [|by intros [? _]]. intros Hh. split; [done|].
    destruct (decide (id' = id)) as [->|]; [|by right]. destruct Hh as (q & r & Hq' & _). congruence.
Qed.

(** ** Sequences of operations *)

Inductive LockOp : Type :=
| SharedOnRecord (rid : Rid) (tab_fd : Z)
| ExclusiveOnRecord (rid : Rid) (tab_fd : Z)
| SharedOnTable (tab_fd : Z)
| ExclusiveOnTable (tab_fd : Z)
| ISOnTable (tab_fd : Z)
| IXOnTable (tab_fd : Z).

Definition op_run (op : LockOp) (txn : Z) : M LockManager bool :=
  match op with
  | SharedOnRecord rid fd => lock_shared_on_record txn rid fd
  | ExclusiveOnRecord rid fd => lock_exclusive_on_record txn rid fd
  | SharedOnTable fd => lock_shared_on_table txn fd
  | ExclusiveOnTable fd => lock_exclusive_on_table txn fd
  | ISOnTable fd => lock_IS_on_table txn fd
  | IXOnTable fd => lock_IX_on_table txn fd
  end.
Definition op_id (op : LockOp) : LockDataId :=
  match op with
  | SharedOnRecord rid fd | ExclusiveOnRecord rid fd => RecordLock fd rid
  | SharedOnTable fd | ExclusiveOnTable fd | ISOnTable fd | IXOnTable fd => TableLock fd
  end.
Definition op_mode (op : LockOp) : LockMode :=
  match op with
  | SharedOnRecord _ _ | SharedOnTable _ => SHARED
  | ExclusiveOnRecord _ _ | ExclusiveOnTable _ => EXCLUSIVE
  | ISOnTable _ => INTENTION_SHARED
  | IXOnTable _ => INTENTION_EXCLUSIVE
  end.

Lemma op_run_spec (op : LockOp) (txn : Z) (s : LockManager) :
  inv s -> op_run op txn s = spec_lock txn (op_id op) (op_mode op) s.
Proof.
  intros I. destruct op; apply (lock_ext txn); try done; intros q Q.
  - by apply shared_record_queue.
  - by apply exclusive_record_queue.
  - by apply shared_table_queue.
  - by apply exclusive_table_queue.
  - by apply IS_table_queue.
  - by apply IX_table_queue.
Qed.

Lemma op_result (op : LockOp) (txn : Z) (s s' : LockManager) (o : outcome bool) :
  inv s -> op_run op txn s = (o, s') -> request_result s txn (op_id op) (op_mode op) o s'.
Proof.
  intros I Hrun. rewrite (op_run_spec op txn s I) in Hrun. apply spec_lock_result; [done| |done].
  destruct op; simpl; try done; intros _; [by left|by right].
Qed.

Lemma unlock_any (txn : Z) (id : LockDataId) (s s' : LockManager) (o : outcome bool) :
  inv s -> unlock txn id s = (o, s') ->
  inv s' /\ (forall txn' id' m', holds s' txn' id' m' -> holds s txn' id' m') /\
  (forall x t, txns s !! x = Some t -> exists t', txns s' !! x = Some t' /\
     (t' = t \/ t' = set_state SHRINKING t /\ state_ t = GROWING)).
Proof.
  intros I Hrun. destruct (txns s !! txn) as [t|] eqn:Ht.
  2: { unfold unlock, mbind, M_bind, get_txn in Hrun. rewrite Ht in Hrun. injection Hrun as <- <-. split_and!; try done; by eauto. }
  destruct (decide (state_ t = ABORTED \/ state_ t = COMMITTED)) as [Hd|Hd].
  - unfold unlock, mbind, M_bind, get_txn in Hrun. rewrite Ht in Hrun.
    assert (s' = s) as -> by (destruct Hd as [E|E]; rewrite E in Hrun; by injection Hrun).
    split_and!; try done; by eauto.
  - destruct (unlock_result s txn id t I Ht) as (s2 & E & I2 & Etx & Hh); [tauto|tauto|].
    rewrite E in Hrun. injection Hrun as <- <-. split_and!; [done|by intros ? ? ? [? _]%Hh|].
    intros x u Hu. rewrite Etx. destruct (decide (x = txn)) as [->|]; [rewrite lookup_insert_eq|rewrite lookup_insert_ne by done; by eauto].
    assert (u = t) by congruence. subst. eexists. split; [done|]. case_decide; [by right|left]. by destruct t.
Qed.

(** What threads do with the lock manager: request, release, begin, finish. *)
Inductive step (s : LockManager) : LockManager -> Prop :=
| step_lock txn op o s' : op_run op txn s = (o, s') -> step s s'
| step_unlock txn id o s' : unlock txn id s = (o, s') -> step s s'
| step_begin txn garbage : txns s !! txn = None ->
    step s (set_txns (<[txn := make_txn garbage txn]> (txns s)) s)
| step_finish txn t st : txns s !! txn = Some t -> st = COMMITTED \/ st = ABORTED ->
    step s (set_txns (<[txn := set_state st t]> (txns s)) s).

Inductive steps : LockManager -> LockManager -> Prop :=
| steps_refl s : steps s s
| steps_cons s1 s2 s3 : step s1 s2 -> steps s2 s3 -> steps s1 s3.

Definition init : LockManager := {| lock_table_ := ∅; txns := ∅ |}.

Lemma init_inv : inv init.
Proof. split; intros id q; simpl; by rewrite lookup_empty. Qed.

Lemma lock_step_inv (s s' : LockManager) : step s s' -> inv s -> inv s'.
Proof.
  intros [txn op o s1 H|txn id o s1 H|txn g H|txn t st H _] I.
  - by apply (op_result op txn s s1 o).
  - by apply (unlock_any txn id s s1 o).
  - apply (inv_txns s); [done|done|]. intros x t Ht. simpl. exists t. rewrite lookup_insert_ne; [done|congruence].
  - apply (inv_txns s); [done|done|]. intros x u Hu. simpl.
    destruct (decide (x = txn)) as [->|]; [rewrite lookup_insert_eq|rewrite lookup_insert_ne by done; by exists u].
    eexists. split; [done|]. simpl. congruence.
Qed.

Lemma lock_steps_inv (s s' : LockManager) : steps s s' -> inv s -> inv s'.
Proof. induction 1 as [|? ? ? H _ IH]; [done|]. intros I. apply IH. by eapply lock_step_inv. Qed.

(** A transaction past its growing phase. *)
Definition past_growing (s : LockManager) (txn : Z) : Prop :=
  exists t, txns s !! txn = Some t /\ (state_ t = SHRINKING \/ state_ t = COMMITTED \/ state_ t = ABORTED).

Lemma check_past (s s' : LockManager) (txn : Z) (o : outcome bool) :
  past_growing s txn -> check_lock txn s = (o, s') -> s' = s /\ o <> Ret true.
Proof.
  intros (t & Ht & Hst) Hrun. unfold check_lock, mbind, M_bind, get_txn in Hrun. rewrite Ht in Hrun.
  destruct Hst as [E|[E|E]]; rewrite E in Hrun; by injection Hrun as <- <-.
Qed.

Lemma step_past (s s' : LockManager) (txn : Z) :
  inv s -> step s s' -> past_growing s txn ->
  past_growing s' txn /\ forall id m, holds s' txn id m -> holds s txn id m.
Proof.
  intros I Hst Hp. pose proof Hp as (t & Ht & Hs). destruct Hst as [tx op o s1 Hrun|tx id o s1 Hrun|tx g Hx|tx u st Hx Hst].
  - destruct (decide (tx = txn)) as [->|Hne].
    + rewrite (op_run_spec op txn s I) in Hrun. unfold spec_lock, mbind, M_bind in Hrun.
      destruct (check_lock txn s) as [o1 s2] eqn:Ec. destruct (check_past _ _ _ _ Hp Ec) as [-> Ho].
      assert (s1 = s) as -> by (destruct o1 as [[]|e|w]; [done|by injection Hrun|by injection Hrun|by injection Hrun]). done.
    + pose proof (op_result op tx s s1 o I Hrun) as R. split.
      * exists t. split; [by apply (rr_txns _ _ _ _ _ _ R)|done].
      * intros id m H. apply (rr_others _ _ _ _ _ _ R); [by left|done].
  - destruct (unlock_any tx id s s1 o I Hrun) as (_ & Hh & Htx). split; [|intros; by apply Hh].
    destruct (Htx txn t Ht) as (t' & Ht' & [->|[-> E]]); [by exists t|]. exists (set_state SHRINKING t). split; [done|by left].
  - split; [|done]. exists t. simpl. rewrite lookup_insert_ne; [done|congruence].
  - split; [|done]. destruct (decide (tx = txn)) as [->|Hne].
    + exists (set_state st u). simpl. rewrite lookup_insert_eq. split; [done|]. by right.
    + exists t. simpl. by rewrite lookup_insert_ne.
Qed.

(** A transaction that holds a lock has begun to grow. *)
Definition holders_active (s : LockManager) : Prop :=
  forall txn id m, holds s txn id m -> exists t, txns s !! txn = Some t /\ state_ t <> DEFAULT.

Lemma spec_queue_states (txn : Z) (id : LockDataId) (m : LockMode) (q : LockRequestQueue) (s s' : LockManager) (o : outcome bool) (t : Transaction) :
  txns s !! txn = Some t -> spec_queue txn id m q s = (o, s') ->
  exists t', txns s' !! txn = Some t' /\ state_ t' = state_ t.
Proof.
  intros Ht Hrun. unfold spec_queue in Hrun. destruct (find_request txn (request_queue_ q)) as [[i r]|].
  - destruct (covers _ _); [injection Hrun as <- <-; by exists t|].
    destruct (others_allow _ _ _); injection Hrun as <- <-; by exists t.
  - destruct (others_allow _ _ _); [|injection Hrun as <- <-; by exists t].
    unfold grant, upd_txn, mbind, M_bind, get_txn in Hrun. rewrite Ht in Hrun. injection Hrun as <- <-.
    simpl. rewrite lookup_insert_eq. by eexists.
Qed.

(** A request leaves everything as it was or finds its transaction growing. *)
Lemma spec_lock_growing (txn : Z) (id : LockDataId) (m : LockMode) (s s' : LockManager) (o : outcome bool) :
  spec_lock txn id m s = (o, s') ->
  (s' = s /\ o <> Ret true) \/ exists t, txns s' !! txn = Some t /\ state_ t = GROWING.
Proof.
  intros Hrun. unfold spec_lock, mbind, M_bind in Hrun. destruct (check_lock txn s) as [o1 s1] eqn:Ec.
  assert (o1 = Ret true \/ o1 <> Ret true) as [->|Hn] by (destruct o1 as [[]|e|w]; auto).
  - right. destruct (proj2 (proj2 (proj2 (check_lock_inv _ _ _ _ Ec))) eq_refl) as (t & Ht & Es). simpl in Hrun.
    assert (txns (get_queue id s1).2 !! txn = Some t) as Ht2
      by (unfold get_queue; destruct (lock_table_ s1 !! id); exact Ht).
    assert (exists q, (get_queue id s1).1 = Ret q) as [q Eq]
      by (unfold get_queue; destruct (lock_table_ s1 !! id); by eexists).
    destruct (get_queue id s1) as [oq s2]. simpl in *. subst oq.
    destruct (spec_queue_states _ _ _ _ _ _ _ _ Ht2 Hrun) as (t' & Ht' & E). exists t'. split; [done|congruence].
  - left. assert (s1 = s) as ->.
    { unfold check_lock, mbind, M_bind, get_txn in Ec. destruct (txns s !! txn) as [t|] eqn:Et; [|by injection Ec].
      destruct (state_ t); try (by injection Ec). unfold upd_txn, mbind, M_bind, get_txn in Ec. rewrite Et in Ec.
      by injection Ec as <- <-. }
    destruct o1 as [[]|e|w]; try done; by injection Hrun as <- <-.
Qed.

Lemma step_active (s s' : LockManager) : inv s -> step s s' -> holders_active s -> holders_active s'.
Proof.
  intros I Hst Ha tx id m Hh. destruct Hst as [txn op o s1 Hrun|txn id1 o s1 Hrun|txn g Hx|txn u st Hx Hst].
  - destruct (decide (tx = txn)) as [->|Hne].
    + pose proof Hrun as Hrun'. rewrite (op_run_spec op txn s I) in Hrun'.
      destruct (spec_lock_growing _ _ _ _ _ _ Hrun') as [[-> _]|(t & Ht & E)]; [by apply (Ha txn id m)|].
      exists t. split; [done|congruence].
    + pose proof (op_result op txn s s1 o I Hrun) as R. apply (rr_others _ _ _ _ _ _ R) in Hh; [|by left].
      destruct (Ha _ _ _ Hh) as (t & Ht & E). exists t. split; [by apply (rr_txns _ _ _ _ _ _ R)|done].
  - destruct (unlock_any txn id1 s s1 o I Hrun) as (_ & Hb & Htx). destruct (Ha _ _ _ (Hb _ _ _ Hh)) as (t & Ht & E).
    destruct (Htx _ _ Ht) as (t' & Ht' & [->|[-> _]]); eexists; split; eauto.
  - destruct (Ha _ _ _ Hh) as (t & Ht & E). exists t. simpl. rewrite lookup_insert_ne; [done|congruence].
  - destruct (Ha _ _ _ Hh) as (t & Ht & E). simpl.
    destruct (decide (tx = txn)) as [->|Hne]; [rewrite lookup_insert_eq|rewrite lookup_insert_ne by done; by exists t].
    exists (set_state st u). split; [done|]. by destruct Hst as [->| ->].
Qed.

Lemma steps_active (s s' : LockManager) : steps s s' -> inv s -> holders_active s -> holders_active s'.
Proof.
  induction 1 as [|s1 s2 s3 H _ IH]; [done|]. intros I Ha.
  apply IH; [by eapply lock_step_inv|by eapply step_active].
Qed.

Lemma steps_past (s s' : LockManager) (txn : Z) :
  steps s s' -> inv s -> past_growing s txn ->
  past_growing s' txn /\ forall id m, holds s' txn id m -> holds s txn id m.
Proof.
  induction 1 as [s|s1 s2 s3 H Hs IH]; [done|]. intros I Hp.
  destruct (step_past s1 s2 txn I H Hp) as [Hp2 Hb].
  destruct IH as [Hp3 Hb3]; [by eapply lock_step_inv|done|]. split; [done|]. intros id m Hh. by apply Hb, Hb3.
Qed.

(** Releasing a lock that is held ends the growing phase. *)
Lemma unlock_past (s s' : LockManager) (txn : Z) (id : LockDataId) (m : LockMode) :
  inv s -> holders_active s -> holds s txn id m -> unlock txn id s = (Ret true, s') ->
  past_growing s' txn /\ inv s' /\
  (forall txn' id' m', holds s' txn' id' m' <-> holds s txn' id' m' /\ (txn' <> txn \/ id' <> id)).
Proof.
  intros I Ha Hh Hrun. destruct (Ha _ _ _ Hh) as (t & Ht & Ed).
  assert (state_ t <> ABORTED /\ state_ t <> COMMITTED) as [E1 E2].
  { split; intros E; unfold unlock, mbind, M_bind, get_txn in Hrun; rewrite Ht, E in Hrun; done. }
  destruct (unlock_result s txn id t I Ht E1 E2) as (s2 & E & I2 & Etx & Hhs).
  rewrite E in Hrun. injection Hrun as <-. split; [|done].
  eexists. rewrite Etx, lookup_insert_eq. split; [done|]. simpl. case_decide; [by left|].
  destruct (state_ t); try done; by left.
Qed.

Lemma op_past (op : LockOp) (txn : Z) (s s' : LockManager) (o : outcome bool) :
  inv s -> past_growing s txn -> op_run op txn s = (o, s') -> s' = s /\ o <> Ret true.
Proof.
  intros I Hp Hrun. rewrite (op_run_spec op txn s I) in Hrun.
  unfold spec_lock, mbind, M_bind in Hrun. destruct (check_lock txn s) as [o1 s1] eqn:Ec.
  destruct (check_past _ _ _ _ Hp Ec) as [-> Hn]. destruct o1 as [[]|e|w]; try done; by injection Hrun as <- <-.
Qed.

(** ** Properties *)

(** C11: each of the six locking functions, written as case analyses on the
    group mode and on request counts, is the reference function: join the held
    mode with the requested one and grant exactly when it is compatible with
    every other holder. *)
Theorem lock_functions_refine (op : LockOp) (txn : Z) (s : LockManager) :
  inv s -> op_run op txn s = spec_lock txn (op_id op) (op_mode op) s.
Proof. apply op_run_spec. Qed.

(** C12: in every reachable state, two transactions that hold locks on the same
    object hold compatible modes. *)
Theorem lock_table_conflict_free (s : LockManager) (id : LockDataId) (t1 t2 : Z) (m1 m2 : LockMode) :
  steps init s -> t1 <> t2 -> holds s t1 id m1 -> holds s t2 id m2 -> compat m1 m2 = true.
Proof.
  intros Hs Hne (q & r1 & Hq & Hr1 & E1 & <-) (q' & r2 & Hq' & Hr2 & E2 & <-).
  assert (q' = q) as -> by congruence. pose proof (l_queue _ (lock_steps_inv _ _ Hs init_inv) _ _ Hq) as Q.
  apply list_elem_of_lookup in Hr1 as [i Hi], Hr2 as [j Hj]. apply (q_compat _ _ Q i j r1 r2); [congruence|done|done].
Qed.

(** A request returns [true] with a mode that covers what was asked, or
    aborts its transaction; an abort for deadlock prevention happens only when
    another transaction holds a conflicting lock, and no other transaction's
    locks are affected either way. *)
Theorem lock_request_outcome (op : LockOp) (txn : Z) (s s' : LockManager) (o : outcome bool) :
  inv s -> op_run op txn s = (o, s') ->
  inv s' /\
  (forall txn' id m, txn' <> txn -> holds s' txn' id m <-> holds s txn' id m) /\
  match o with
  | Ret true => exists m, holds s' txn (op_id op) m /\ covers m (op_mode op) = true
  | Ret false => s' = s
  | Throw e => (e = TransactionAbortException txn LOCK_ON_SHIRINKING /\ s' = s) \/
      (e = TransactionAbortException txn DEADLOCK_PREVENTION /\ conflict s txn (op_id op) (op_mode op))
  | Stuck _ => txns s !! txn = None
  end.
Proof.
  intros I Hrun. pose proof (op_result op txn s s' o I Hrun) as R. split_and!; [apply R| |apply R].
  intros txn' id m Hne. apply R. by left.
Qed.

(** C14: two-phase locking: in every reachable state, when a transaction
    releases a lock it holds, it keeps its other locks and has left its growing
    phase for good: after any further operations of any threads it holds no
    lock it did not hold after that release, and each request of it, for any
    object and mode, is refused and changes nothing. *)
Theorem two_phase_locking (s0 s1 s2 : LockManager) (txn : Z) (id : LockDataId) (m0 : LockMode) :
  steps init s0 -> holds s0 txn id m0 -> unlock txn id s0 = (Ret true, s1) -> steps s1 s2 ->
  (forall id' m, holds s1 txn id' m <-> holds s0 txn id' m /\ id' <> id) /\
  (forall id' m, holds s2 txn id' m -> holds s1 txn id' m) /\
  (forall op o s3, op_run op txn s2 = (o, s3) -> s3 = s2 /\ o <> Ret true).
Proof.
  intros Hs0 Hh Hu Hs.
  assert (holders_active s0) as Ha.
  { apply (steps_active _ _ Hs0 init_inv). intros tx i m (q & r & Hq & _). simpl in Hq. by rewrite lookup_empty in Hq. }
  destruct (unlock_past s0 s1 txn id m0 (lock_steps_inv _ _ Hs0 init_inv) Ha Hh Hu) as (Hp & I1 & Hhs).
  destruct (steps_past _ _ _ Hs I1 Hp) as [Hp2 Hb]. split_and!.
  - intros id' m. rewrite Hhs. naive_solver.
  - exact Hb.
  - intros op o s3 Hrun. apply (op_past op txn s2 s3 o); [by eapply lock_steps_inv|done|done].
Qed.

End LockSpec.

(** ** A concrete lock table *)

Module LockDemo.
Import Lock LockFacts LockSpec.

Definition rid0 : Rid := mkRid 1 0.
Definition two : LockManager :=
  {| lock_table_ := ∅; txns := {[ 1 := make_txn false 1; 2 := make_txn false 2 ]} |}.

Definition st {A} (m : M LockManager A) (s : LockManager) : LockManager := (m s).2.

Lemma two_steps : steps init two.
Proof.
  eapply steps_cons; [apply (step_begin _ 2 false); reflexivity|].
  eapply steps_cons; [apply (step_begin _ 1 false); reflexivity|]. apply steps_refl.
Qed.

Lemma two_inv : inv two.
Proof. exact (lock_steps_inv _ _ two_steps init_inv). Qed.

(** Both transactions read the record. *)
Definition shared : LockManager := st (lock_shared_on_record 2 rid0 7) (st (lock_shared_on_record 1 rid0 7) two).

Lemma step_eq (m : M LockManager bool) (s : LockManager) : m s = ((m s).1, st m s).
Proof. by destruct (m s) eqn:E; unfold st; rewrite E. Qed.

Lemma shared_steps : steps two shared.
Proof.
  eapply steps_cons; [eapply (step_lock _ 1 (SharedOnRecord rid0 7)); apply (step_eq (op_run (SharedOnRecord rid0 7) 1))|].
  eapply steps_cons; [eapply (step_lock _ 2 (SharedOnRecord rid0 7)); apply (step_eq (op_run (SharedOnRecord rid0 7) 2))|]. apply steps_refl.
Qed.

Lemma steps_trans (a b c : LockManager) : steps a b -> steps b c -> steps a c.
Proof. induction 1 as [|? ? ? H _ IH]; [done|]. intros Hs. eapply steps_cons; [exact H|by apply IH]. Qed.

Lemma shared_inv : inv shared.
Proof. exact (lock_steps_inv _ _ shared_steps two_inv). Qed.

Lemma shared_holds (t : Z) : t = 1 \/ t = 2 -> holds shared t (RecordLock 7 rid0) SHARED.
Proof.
  intros Ht. exists (mkQueue [mkRequest 1 SHARED true; mkRequest 2 SHARED true] S), (mkRequest t SHARED true).
  split; [vm_compute; reflexivity|]. split; [|done]. destruct Ht as [->| ->]; set_solver.
Qed.

Lemma lock_functions_refine_witness :
  lock_exclusive_on_record 1 rid0 7 shared = spec_lock 1 (RecordLock 7 rid0) EXCLUSIVE shared.
Proof. exact (lock_functions_refine (ExclusiveOnRecord rid0 7) 1 shared shared_inv). Defined.

Lemma lock_table_conflict_free_witness : compat SHARED SHARED = true.
Proof.
  exact (lock_table_conflict_free shared (RecordLock 7 rid0) 1 2 SHARED SHARED
    (steps_trans _ _ _ two_steps shared_steps) ltac:(done) (shared_holds 1 ltac:(by left)) (shared_holds 2 ltac:(by right))).
Defined.

(** An upgrade while another transaction reads is refused. *)
Lemma lock_request_outcome_witness :
  (lock_exclusive_on_record 1 rid0 7 shared).1 = Throw (TransactionAbortException 1 DEADLOCK_PREVENTION) /\
  conflict shared 1 (RecordLock 7 rid0) EXCLUSIVE.
Proof.
  assert (op_run (ExclusiveOnRecord rid0 7) 1 shared =
    (Throw (TransactionAbortException 1 DEADLOCK_PREVENTION), st (lock_exclusive_on_record 1 rid0 7) shared)) as E.
  { simpl. rewrite (step_eq (lock_exclusive_on_record 1 rid0 7)). f_equal. }
  split; [by simpl in E; rewrite E|].
  destruct (lock_request_outcome (ExclusiveOnRecord rid0 7) 1 shared _ _ shared_inv E) as (_ & _ & [[H _]|[_ H]]);
    [discriminate H|exact H].
Defined.

(** Transaction 1 releases its record lock while keeping a table lock. *)
Definition grown : LockManager := st (lock_shared_on_record 1 rid0 7) (st (lock_IS_on_table 1 7) two).
Definition shrunk : LockManager := st (unlock 1 (RecordLock 7 rid0)) grown.
(** Transaction 2 then takes an intention lock on the table. *)
Definition later : LockManager := st (lock_IX_on_table 2 7) shrunk.

Lemma grown_steps : steps two grown.
Proof.
  eapply steps_cons; [eapply (step_lock _ 1 (ISOnTable 7)); apply (step_eq (op_run (ISOnTable 7) 1))|].
  eapply steps_cons; [eapply (step_lock _ 1 (SharedOnRecord rid0 7)); apply (step_eq (op_run (SharedOnRecord rid0 7) 1))|].
  apply steps_refl.
Qed.

Lemma grown_holds : holds grown 1 (RecordLock 7 rid0) SHARED.
Proof.
  exists (mkQueue [mkRequest 1 SHARED true] S), (mkRequest 1 SHARED true).
  split; [vm_compute; reflexivity|]. split; [left|done].
Qed.

Lemma later_steps : steps shrunk later.
Proof.
  eapply steps_cons; [eapply (step_lock _ 2 (IXOnTable 7)); apply (step_eq (op_run (IXOnTable 7) 2))|]. apply steps_refl.
Qed.

Lemma two_phase_locking_witness :
  holds shrunk 1 (TableLock 7) INTENTION_SHARED /\
  ~ holds later 1 (RecordLock 7 rid0) SHARED /\
  op_run (SharedOnRecord rid0 7) 1 later = (Throw (TransactionAbortException 1 LOCK_ON_SHIRINKING), later) /\
  lock_IS_on_table 1 8 later <> (Ret true, later).
Proof.
  destruct (two_phase_locking grown shrunk later 1 (RecordLock 7 rid0) SHARED
    (steps_trans _ _ _ two_steps grown_steps) grown_holds ltac:(vm_compute; reflexivity) later_steps) as (H1 & H2 & H3).
  split_and!.
  - apply H1. split; [|done]. exists (mkQueue [mkRequest 1 INTENTION_SHARED true] IS), (mkRequest 1 INTENTION_SHARED true).
    split; [vm_compute; reflexivity|]. split; [left|done].
  - intros [_ Hne]%H2%H1. by apply Hne.
  - rewrite (step_eq (op_run (SharedOnRecord rid0 7) 1)). f_equal.
  - intros E. by destruct (H3 (ISOnTable 8) _ _ E) as [_ Hn].
Defined.

End LockDemo.
