(* ===== verification/PagePool.v ===== *)
(** * What the record and index layers rely on

    [PagePool] is the part of [BufferPoolManager] (and of the [DiskManager]
    behind it) that the access layers call; [PagePoolLaws] is its contract: a
    store of page contents, of which a client leases one page at a time.  The
    buffer pool over a reliable file system discharges it, so the client
    theorems hold for every replacement policy and every such file system. *)

From S2P Require Import Prelude Bytes Posix Disk Replacer BufferPool BufferPoolFacts BufferPoolSpec.
Import Disk.

(** A page leased by the client: identity, frame, and whether the client has
    changed it since. *)
Record lease_t : Type := mkLease { ls_pid : PageId; ls_frame : Z; ls_touched : bool }.

Class PagePool (T : Type) : Type := {
  pp_fetch : PageId -> M T (option Z);
  pp_unpin : PageId -> bool -> M T bool;
  pp_new : Z -> M T (option (Z * PageId));
  pp_flush : PageId -> M T bool;
  pp_delete : PageId -> M T bool;
  pp_page : T -> Z -> option Page;
  pp_update : Z -> (list Z -> list Z) -> M T unit;
  pp_write_disk : Z -> Z -> list Z -> Z -> M T unit
}.

(** Pages a record or index file keeps its data in: page 0 is the header. *)
Definition data_page (pid : PageId) : Prop := 1 <= page_no pid.

Class PagePoolLaws (T : Type) {PO : PagePool T} : Type := {
  pp_idle : T -> Prop;                     (* no page leased *)
  pp_leased : lease_t -> T -> Prop;
  pp_logical : T -> PageId -> list Z;      (* content of every page *)
  pp_exists : T -> PageId -> Prop;         (* the page can be fetched *)
  pp_file : T -> Z -> Prop;                (* the file is open for allocation *)
  pp_count : T -> Z -> Z;                  (* next page number of a file *)
  pp_length : forall t pid, pp_idle t -> pp_exists t pid -> length (pp_logical t pid) = page_len;
  pp_fetch_ok : forall t pid, pp_idle t -> pp_exists t pid ->
    exists f t', pp_fetch pid t = (Ret (Some f), t') /\ pp_leased (mkLease pid f false) t' /\
      (forall q, data_page q -> pp_logical t' q = pp_logical t q) /\
      (forall q, pp_exists t q -> pp_exists t' q) /\
      (forall x, pp_file t x -> pp_file t' x) /\ (forall x, pp_count t' x = pp_count t x);
  pp_leased_page : forall l t, pp_leased l t ->
    exists p, pp_page t (ls_frame l) = Some p /\ id_ p = ls_pid l /\ data_ p = pp_logical t (ls_pid l) /\
      length (data_ p) = page_len;
  pp_update_ok : forall l t g, pp_leased l t -> length (g (pp_logical t (ls_pid l))) = page_len ->
    exists t', pp_update (ls_frame l) g t = (Ret tt, t') /\
      pp_leased (mkLease (ls_pid l) (ls_frame l) true) t' /\
      pp_logical t' (ls_pid l) = g (pp_logical t (ls_pid l)) /\
      (forall q, data_page q -> q <> ls_pid l -> pp_logical t' q = pp_logical t q) /\
      (forall q, pp_exists t q -> pp_exists t' q) /\
      (forall x, pp_file t x -> pp_file t' x) /\ (forall x, pp_count t' x = pp_count t x);
  pp_unpin_ok : forall l t b, pp_leased l t -> (ls_touched l = true -> b = true) ->
    exists t', pp_unpin (ls_pid l) b t = (Ret true, t') /\ pp_idle t' /\
      (forall q, data_page q -> pp_logical t' q = pp_logical t q) /\
      (forall q, pp_exists t q -> pp_exists t' q) /\
      (forall x, pp_file t x -> pp_file t' x) /\ (forall x, pp_count t' x = pp_count t x);
  (* a write through the pointer after a dirty unpin still reaches the page *)
  pp_late_ok : forall l t t1 g, pp_leased l t -> pp_unpin (ls_pid l) true t = (Ret true, t1) ->
    length (g (pp_logical t (ls_pid l))) = page_len ->
    (exists p, pp_page t1 (ls_frame l) = Some p /\ data_ p = pp_logical t (ls_pid l)) /\
    exists t', pp_update (ls_frame l) g t1 = (Ret tt, t') /\ pp_idle t' /\
      pp_logical t' (ls_pid l) = g (pp_logical t (ls_pid l)) /\
      (forall q, data_page q -> q <> ls_pid l -> pp_logical t' q = pp_logical t q) /\
      (forall q, pp_exists t q -> pp_exists t' q) /\
      (forall x, pp_file t x -> pp_file t' x) /\ (forall x, pp_count t' x = pp_count t x);
  pp_new_ok : forall t x, pp_idle t -> pp_file t x ->
    exists f t', pp_new x t = (Ret (Some (f, mkPageId x (pp_count t x))), t') /\
      pp_leased (mkLease (mkPageId x (pp_count t x)) f true) t' /\
      pp_logical t' (mkPageId x (pp_count t x)) = zero_page /\
      (forall q, data_page q -> q <> mkPageId x (pp_count t x) -> pp_logical t' q = pp_logical t q) /\
      (forall q, pp_exists t q -> pp_exists t' q) /\ pp_exists t' (mkPageId x (pp_count t x)) /\
      pp_count t' x = pp_count t x + 1 /\ (forall y, y <> x -> pp_count t' y = pp_count t y);
  pp_flush_ok : forall l t, pp_leased l t ->
    exists t', pp_flush (ls_pid l) t = (Ret true, t') /\ pp_leased l t' /\
      (forall q, data_page q -> pp_logical t' q = pp_logical t q) /\
      (forall q, pp_exists t q -> pp_exists t' q) /\
      (forall x, pp_file t x -> pp_file t' x) /\ (forall x, pp_count t' x = pp_count t x);
  pp_header_ok : forall l t bytes n, pp_leased l t -> Z.of_nat (length bytes) = n -> n <= PAGE_SIZE ->
    exists t', pp_write_disk (fd (ls_pid l)) 0 bytes n t = (Ret tt, t') /\ pp_leased l t' /\
      (forall q, data_page q -> pp_logical t' q = pp_logical t q) /\
      (forall q, pp_exists t q -> pp_exists t' q) /\
      (forall x, pp_file t x -> pp_file t' x) /\ (forall x, pp_count t' x = pp_count t x)
}.

(** ** The buffer pool *)

Module PoolInstance.
Import Bpm BpmFacts BpmSpec.
Section instance.
Context {R : Type} {RO : Replacer R} {RL : ReplacerLaws R} {FO : FileSystem} {FL : FileSystemLaws} {FR : FileSystemReliable}.
Abbreviation BPM := (BufferPoolManager R).
Implicit Types s : BPM.

#[export] Instance bpm_PagePool : PagePool BPM := {|
  pp_fetch := fetch_page; pp_unpin := unpin_page; pp_new := new_page; pp_flush := flush_page; pp_delete := delete_page;
  pp_page := frame; pp_update := modify_data;
  pp_write_disk := fun x n bytes k => on_disk (write_page x n bytes k)
|}.

(** More pins than this on one page would overflow [pin_count_]. *)
Definition max_pins : Z := INT32_MAX - 2.

Definition count (s : BPM) (x : Z) : Z := default 0 (fd2pageno_ (disk_manager_ s) !! x).

(** Free frames carry no live identity, header pages are not cached, cached
    pages have been allocated. *)
Record tidy (s : BPM) : Prop := {
  t_inv : inv s;
  t_writable : writable s;
  t_free : forall g q, g ∈ free_list_ s -> frame s g = Some q -> page_no (id_ q) < 0;
  t_data : forall pid f, page_table_ s !! pid = Some f -> data_page pid /\ page_no pid < count s (fd pid)
}.

Definition idle (s : BPM) : Prop :=
  tidy s /\ (exists g q, frame s g = Some q /\ pin_count_ q = 0) /\ (forall pid, pins s pid <= max_pins).

Definition leased (l : lease_t) (s : BPM) : Prop :=
  tidy s /\ page_table_ s !! ls_pid l = Some (ls_frame l) /\
  (exists g q, frame s g = Some q /\ (pin_count_ q = 0 \/ g = ls_frame l /\ pin_count_ q = 1)) /\
  0 < pins s (ls_pid l) <= max_pins + 1 /\ (forall pid, pid <> ls_pid l -> pins s pid <= max_pins) /\
  (ls_touched l = false -> pins s (ls_pid l) = 1 -> forall p, frame s (ls_frame l) = Some p ->
     is_dirty_ p = false -> synced (disk_manager_ s) p).

Definition page_exists (s : BPM) (pid : PageId) : Prop :=
  data_page pid /\ page_no pid < count s (fd pid) /\ page_no_ok (page_no pid) = true /\
  fd_open (disk_manager_ s) (fd pid) /\ (is_Some (page_table_ s !! pid) \/ present (disk_manager_ s) pid).

Definition file_ok (s : BPM) (x : Z) : Prop :=
  fd_in_range x = true /\ fd_open (disk_manager_ s) x /\ 1 <= count s x /\ page_no_ok (count s x) = true.

Lemma stale_free (s : BPM) (pid : PageId) : tidy s -> data_page pid -> not_stale pid s.
Proof.
  intros T Hd g q Hg Hq E. unfold data_page in Hd.
  assert (page_no (id_ q) < 0); [|subst; lia]. apply (t_free _ T g q); [|done].
  destruct (free_list_ s); [by apply elem_of_nil in Hg|by right].
Qed.

(** *** Loading a page *)

Lemma load_tidy (s s' : BPM) (f : Z) (pid : PageId) (data : list Z) :
  tidy s -> page_table_ s !! pid = None -> data_page pid -> page_no pid < count s (fd pid) ->
  page_no_ok (page_no pid) = true -> fd_open (disk_manager_ s) (fd pid) -> length data = page_len -> load_shape s f pid data s' -> tidy s'.
Proof.
  intros T Hm Hd Hcnt Hok Hop Hl Hs. pose proof Hs as (s1 & p & r & d & C & Hp & _ & _ & W & E).
  assert (forall x, fd_open (disk_manager_ s) x -> fd_open (disk_manager_ s') x) as Hopen.
  { intros x. rewrite E. unfold fd_open. simpl. by rewrite (wb_ino _ _ _ W). }
  split.
  - apply (load_shape_spec s s' f pid data); try done; [apply T|by apply stale_free|unfold data_page in *; lia].
  - intros q g Hq. rewrite E in Hq. simpl in Hq. rewrite lookup_insert_Some, lookup_delete_Some in Hq.
    destruct Hq as [[<- _]|(_ & _ & Hq)]; [split; [done|by apply Hopen]|].
    destruct (t_writable _ T q g Hq) as [H1 H2]. split; [done|by apply Hopen].
  - intros g q. rewrite E. simpl. intros Hg. rewrite (frame_loaded s f g p) by done.
    assert (g ∈ free_list_ s /\ g <> f) as [Hg' Hne].
    { pose proof (i_free_nodup _ (t_inv _ T)) as Hnd. destruct (cl_free _ _ _ C) as [Ef|(_ & Ef & _)].
      - rewrite Ef in Hnd |- *. apply NoDup_cons in Hnd as [Hnd _]. split; [by right|]. by intros ->.
      - rewrite Ef in Hg. by apply elem_of_nil in Hg. }
    rewrite decide_False by done. by apply (t_free _ T).
  - intros q g. rewrite E. unfold count. simpl. rewrite (wb_pageno _ _ _ W), lookup_insert_Some, lookup_delete_Some.
    intros [[<- _]|(_ & _ & Hq)]; [done|by apply (t_data _ T q g)].
Qed.

(** The evicted page can be fetched again. *)
Lemma load_exists (s s' : BPM) (f : Z) (pid : PageId) (data : list Z) (q : PageId) :
  inv s -> load_shape s f pid data s' -> page_exists s q -> page_exists s' q.
Proof.
  intros I (s1 & p & r & d & C & Hp & _ & _ & W & ->) (Hd & Hc & Hok & Hop & Hex).
  split_and!; [done|unfold count; simpl; by rewrite (wb_pageno _ _ _ W)|done|unfold fd_open; simpl; by rewrite (wb_ino _ _ _ W)|]. simpl.
  destruct (decide (q = pid)) as [->|Hne]; [left; by rewrite lookup_insert_eq|].
  rewrite lookup_insert_ne by done. destruct Hex as [[g Hg]|Hpr]; [|right; by apply (wb_present _ _ _ W)].
  destruct (decide (q = id_ p)) as [->|Hq]; [right|left; by rewrite lookup_delete_ne].
  destruct (is_dirty_ p) eqn:Ed; [by apply (wb_dirty _ _ _ W)|]. apply (wb_present _ _ _ W).
  destruct (cl_frame _ _ _ C) as (p' & Hp' & Hpin). assert (p' = p) as -> by congruence.
  destruct (claimed_table s s1 f p I C Hp) as [[Hm _]|(Hm & _)]; [|congruence].
  by apply (i_clean _ I f p).
Qed.

Lemma cached_logical (s : BPM) (pid : PageId) (f : Z) (data : list Z) (n : Z) :
  cached s pid f data n -> logical s pid = data /\ pins s pid = n.
Proof. intros (Hm & p & Hp & _ & Hd & Hn). unfold logical, pins. rewrite Hm. simpl. rewrite Hp. done. Qed.

Lemma view_all (s s' : BPM) (pid : PageId) :
  same_view_but pid s s' -> logical s' pid = logical s pid ->
  forall q, data_page q -> logical s' q = logical s q.
Proof.
  intros [V _] E q Hq. destruct (decide (q = pid)) as [->|]; [done|]. apply V; [unfold data_page in Hq; lia|done].
Qed.

(** *** Changing a cached page *)

Lemma touched_tidy (s : BPM) (f : Z) (p q : Page) (r : R) (d : DiskManager) :
  tidy s -> frame s f = Some p -> page_table_ s !! id_ p = Some f ->
  (forall x, fd_ino (dm_fs d) x = fd_ino (dm_fs (disk_manager_ s)) x) ->
  fd2pageno_ d = fd2pageno_ (disk_manager_ s) ->
  inv (touched s f q r d) -> tidy (touched s f q r d).
Proof.
  intros T Hp Hm Hi Hc I'. split; [done| | |].
  - intros x g Hx. destruct (t_writable _ T x g Hx) as [H1 H2]. split; [done|].
    unfold fd_open. simpl. by rewrite Hi.
  - intros g x Hg. rewrite (frame_touched s f g p) by done. case_decide as E; [|by apply (t_free _ T)].
    subst. destruct (i_free _ (t_inv _ T) f Hg) as (p' & Hp' & _ & _ & Hn). congruence.
  - unfold count. simpl. rewrite Hc. apply T.
Qed.

Lemma touched_exists (s : BPM) (f : Z) (q : Page) (r : R) (d : DiskManager) (pid : PageId) :
  (forall x, fd_ino (dm_fs d) x = fd_ino (dm_fs (disk_manager_ s)) x) ->
  fd2pageno_ d = fd2pageno_ (disk_manager_ s) ->
  (forall x, present (disk_manager_ s) x -> present d x) ->
  page_exists s pid -> page_exists (touched s f q r d) pid.
Proof.
  intros Hi Hc Hp (H1 & H2 & H3 & H4 & H5).
  split_and!; [done|unfold count; simpl; by rewrite Hc|done|unfold fd_open; simpl; by rewrite Hi|].
  destruct H5; [by left|right; by apply Hp].
Qed.

Lemma file_ok_ext (s s' : BPM) (x : Z) :
  (forall y, fd_ino (dm_fs (disk_manager_ s')) y = fd_ino (dm_fs (disk_manager_ s)) y) ->
  fd2pageno_ (disk_manager_ s') = fd2pageno_ (disk_manager_ s) -> file_ok s x -> file_ok s' x.
Proof. intros Hi Hc. unfold file_ok, count, fd_open. by rewrite Hi, Hc. Qed.

(** *** The laws *)

Lemma leased_page (l : lease_t) (s : BPM) : leased l s ->
  exists p, frame s (ls_frame l) = Some p /\ id_ p = ls_pid l /\ data_ p = logical s (ls_pid l) /\ length (data_ p) = page_len.
Proof.
  intros (T & Hm & _). destruct (mapped_frame s _ _ (t_inv _ T) Hm) as (p & Hp & Eid & _ & Hl & _).
  exists p. split_and!; try done. unfold logical. rewrite Hm. simpl. by rewrite Hp.
Qed.

Lemma fetch_ok_miss (s : BPM) (pid : PageId) (f : Z) (s' : BPM) :
  idle s -> page_exists s pid -> page_table_ s !! pid = None -> fetch_page pid s = (Ret (Some f), s') ->
  leased (mkLease pid f false) s' /\
  (forall q, data_page q -> logical s' q = logical s q) /\
  (forall q, page_exists s q -> page_exists s' q) /\
  (forall x, file_ok s x -> file_ok s' x) /\ (forall x, count s' x = count s x).
Proof.
  intros (T & Hspare & Hpins) Hex Hm Hrun. pose proof Hex as (Hd & Hc & Hok & Hop & _).
  pose proof (t_inv _ T) as I. assert (0 <= page_no pid) as Hn by (unfold data_page in Hd; lia).
  destruct (fetch_miss_shape s s' pid (Some f) I Hn Hm Hrun) as (Hs & Hl & Hpr & Hdp).
  destruct (load_shape_spec s s' f pid _ I Hm (stale_free s pid T Hd) Hn Hl Hs) as (I' & C' & V).
  destruct (cached_logical _ _ _ _ _ C') as [El Ep]. destruct C' as (Hm' & p & Hp & Eid & Edat & Epin).
  pose proof (load_tidy s s' f pid _ T Hm Hd Hc Hok Hop Hl Hs) as T'.
  assert (fd2pageno_ (disk_manager_ s') = fd2pageno_ (disk_manager_ s) /\
    forall x, fd_ino (dm_fs (disk_manager_ s')) x = fd_ino (dm_fs (disk_manager_ s)) x) as [Hcnt Hino].
  { destruct Hs as (s1 & p1 & r & d & _ & _ & _ & _ & W & ->). split; apply W. }
  split_and!.
  - split_and!; simpl; [done|done| |rewrite Ep; done|rewrite Ep; done| |].
    + exists f, p. split; [done|]. by right.
    + intros q Hq. by rewrite (proj2 V).
    + intros _ _ q Hq _. assert (q = p) as -> by congruence. split; [by rewrite Eid, Hdp, <- Edat|by rewrite Eid].
  - by apply (view_all s s' pid V).
  - intros q. by apply (load_exists s s' f pid (logical s pid) q I).
  - intros x. by apply file_ok_ext.
  - intros x. unfold count. by rewrite Hcnt.
Qed.

Lemma fetch_ok_hit (s : BPM) (pid : PageId) (f g : Z) (s' : BPM) :
  idle s -> page_exists s pid -> page_table_ s !! pid = Some g -> fetch_page pid s = (Ret (Some f), s') ->
  leased (mkLease pid f false) s' /\
  (forall q, data_page q -> logical s' q = logical s q) /\
  (forall q, page_exists s q -> page_exists s' q) /\
  (forall x, file_ok s x -> file_ok s' x) /\ (forall x, count s' x = count s x).
Proof.
  intros (T & (h & q & Hq & Hpq) & Hpins) Hex Hm Hrun. pose proof (t_inv _ T) as I.
  destruct (mapped_frame s pid g I Hm) as (p & Hp & Eid & Hm' & Hl & Hpin & Hn).
  destruct (fetch_hit_inv s s' pid g p _ I Hm Hp Hrun) as (E1 & I' & C' & V).
  destruct (fetch_hit_shape s s' pid g p _ I Hm Hp Hrun) as (E & r & Hr & Hfr & Hs). injection E as ->.
  destruct (cached_logical _ _ _ _ _ C') as [El Ep].
  assert (pins s pid = pin_count_ p) as Epins by (unfold pins; rewrite Hm; simpl; by rewrite Hp).
  assert (tidy s') as T' by (rewrite Hs in I' |- *; by apply (touched_tidy s g p)).
  split_and!.
  - split_and!; simpl; [done|by destruct C'| |lia| | |].
    + rewrite Hs. exists h. rewrite (frame_touched s g h p) by done. case_decide as E; [subst|by eauto].
      assert (q = p) as -> by congruence. eexists. split; [done|]. right. split; [done|]. simpl. lia.
    + specialize (Hpins pid). lia.
    + intros x Hx. by rewrite (proj2 V).
    + intros _ E x Hx Hdx. rewrite Hs in Hx. rewrite (frame_touched s g g p), decide_True in Hx by done.
      injection Hx as <-. rewrite Hs. simpl. destruct (i_clean _ I g p Hp Hm') as [S1 S2]; [lia|done|]. done.
  - by apply (view_all s s' pid V).
  - intros x Hx. rewrite Hs. by apply touched_exists.
  - intros x. rewrite Hs. by apply file_ok_ext.
  - intros x. by rewrite Hs.
Qed.

(** Changing one frame keeps every other frame, so a spare frame stays spare. *)
Lemma spare_touched (s : BPM) (f : Z) (p q : Page) (r : R) (d : DiskManager) :
  frame s f = Some p -> pin_count_ q = pin_count_ p ->
  (exists g x, frame s g = Some x /\ (pin_count_ x = 0 \/ g = f /\ pin_count_ x = 1)) ->
  exists g x, frame (touched s f q r d) g = Some x /\ (pin_count_ x = 0 \/ g = f /\ pin_count_ x = 1).
Proof.
  intros Hp Eq (g & x & Hx & Hpin). exists g. rewrite (frame_touched s f g p) by done.
  case_decide as E; [subst|by eauto]. assert (x = p) as -> by congruence. exists q. by rewrite Eq.
Qed.

Lemma update_ok (l : lease_t) (s : BPM) (g : list Z -> list Z) :
  leased l s -> length (g (logical s (ls_pid l))) = page_len ->
  exists s', modify_data (ls_frame l) g s = (Ret tt, s') /\
    leased (mkLease (ls_pid l) (ls_frame l) true) s' /\
    logical s' (ls_pid l) = g (logical s (ls_pid l)) /\
    (forall q, data_page q -> q <> ls_pid l -> logical s' q = logical s q) /\
    (forall q, page_exists s q -> page_exists s' q) /\
    (forall x, file_ok s x -> file_ok s' x) /\ (forall x, count s' x = count s x).
Proof.
  intros (T & Hm & Hspare & Hpins & Hoth & _) Hg. pose proof (t_inv _ T) as I.
  destruct (mapped_frame s _ _ I Hm) as (p & Hp & Eid & Hm' & Hl & Hpin & Hn).
  set (q := set_data (g (data_ p)) p). set (s' := touched s (ls_frame l) q (replacer_ s) (disk_manager_ s)).
  assert (modify_data (ls_frame l) g s = (Ret tt, s')) as E.
  { unfold modify_data. rewrite (upd_frame_run _ _ _ _ Hp). unfold s'. by destruct s. }
  exists s'. split; [done|].
  destruct (modify_data_inv s s' (ls_pid l) (ls_frame l) g tt I Hm) as (I' & L1 & L2 & P); [lia|done|done|].
  split_and!.
  - split_and!; simpl; try (rewrite P; lia).
    + by apply (touched_tidy s (ls_frame l) p).
    + done.
    + by apply (spare_touched s (ls_frame l) p).
    + intros x Hx. rewrite P. by apply Hoth.
  - done.
  - intros x Hx Hne. apply L2; [unfold data_page in Hx; lia|done].
  - intros x. by apply touched_exists.
  - done.
  - done.
Qed.

Lemma unpin_ok (l : lease_t) (s : BPM) (b : bool) :
  leased l s -> (ls_touched l = true -> b = true) ->
  exists s', unpin_page (ls_pid l) b s = (Ret true, s') /\ idle s' /\
    (forall q, data_page q -> logical s' q = logical s q) /\
    (forall q, page_exists s q -> page_exists s' q) /\
    (forall x, file_ok s x -> file_ok s' x) /\ (forall x, count s' x = count s x).
Proof.
  intros (T & Hm & Hspare & Hpins & Hoth & Hsync) Hb. pose proof (t_inv _ T) as I.
  destruct (unpin_page_run s (ls_pid l) b I) as [s' E].
  { unfold max_pins, INT32_MAX in *. lia. }
  exists s'. split; [done|].
  destruct (unpin_page_shape s s' (ls_pid l) b true I E) as (f & p & x & Hm1 & Hp & Hne & Hx & Hs & _).
  assert (f = ls_frame l) as -> by congruence.
  assert (pins s (ls_pid l) = pin_count_ p) as Epins by (unfold pins; rewrite Hm; simpl; by rewrite Hp).
  destruct (mapped_frame s _ _ I Hm) as (p' & Hp' & Eid & Hm' & _). assert (p' = p) as -> by congruence.
  destruct (unpin_page_inv s s' (ls_pid l) b true I) as (I' & L & P & _); [|done|].
  { intros E1 E2 f' p' Hf Hp'' Hd. assert (f' = ls_frame l) as -> by congruence. apply Hsync; try done.
    destruct (ls_touched l); [|done]. by rewrite Hb in E2. }
  split_and!.
  - split_and!.
    + rewrite Hs in I' |- *. by apply (touched_tidy s (ls_frame l) p).
    + destruct Hspare as (g & y & Hy & Hpin). exists g. rewrite Hs, (frame_touched s (ls_frame l) g p) by done.
      case_decide as Eg; [subst|naive_solver]. assert (y = p) as -> by congruence. eexists. split; [done|]. simpl. lia.
    + intros q. rewrite P. case_decide; [subst; lia|by apply Hoth].
  - intros q Hq. apply L. unfold data_page in Hq. lia.
  - intros q. rewrite Hs. by apply touched_exists.
  - intros y. rewrite Hs. by apply file_ok_ext.
  - intros y. by rewrite Hs.
Qed.

(** After a dirty unpin the frame still holds the page and is known dirty. *)
Lemma late_ok (l : lease_t) (s s1 : BPM) (g : list Z -> list Z) :
  leased l s -> unpin_page (ls_pid l) true s = (Ret true, s1) ->
  length (g (logical s (ls_pid l))) = page_len ->
  (exists p, frame s1 (ls_frame l) = Some p /\ data_ p = logical s (ls_pid l)) /\
  exists s', modify_data (ls_frame l) g s1 = (Ret tt, s') /\ idle s' /\
    logical s' (ls_pid l) = g (logical s (ls_pid l)) /\
    (forall q, data_page q -> q <> ls_pid l -> logical s' q = logical s q) /\
    (forall q, page_exists s q -> page_exists s' q) /\
    (forall x, file_ok s x -> file_ok s' x) /\ (forall x, count s' x = count s x).
Proof.
  intros Hle E Hg. destruct (unpin_ok l s true Hle) as (s1' & E' & Hi & L & Ex & Fi & Co); [done|].
  rewrite E in E'. injection E' as <-. destruct Hle as (T0 & Hm0 & _).
  destruct (unpin_page_shape s s1 (ls_pid l) true true (t_inv _ T0) E) as (f & p0 & x & Hm1 & Hp0 & _ & _ & Hs & _).
  assert (f = ls_frame l) as -> by congruence. destruct Hi as (T & Hspare & Hpins). pose proof (t_inv _ T) as I.
  assert (page_table_ s1 !! ls_pid l = Some (ls_frame l)) as Hm by (by rewrite Hs).
  destruct (mapped_frame s1 _ _ I Hm) as (p & Hp & Eid & Hm' & Hl & Hpin & Hn).
  assert (data_page (ls_pid l)) as Hd by apply (t_data _ T _ _ Hm).
  assert (data_ p = logical s (ls_pid l)) as Edat by (rewrite <- L by done; unfold logical; rewrite Hm; simpl; by rewrite Hp).
  assert (is_dirty_ p = true) as Hdirty.
  { rewrite Hs in Hp. rewrite (frame_touched s _ _ p0), decide_True in Hp by done. injection Hp as <-. simpl. apply orb_true_r. }
  split; [by eauto|]. set (q := set_data (g (data_ p)) p). set (s' := touched s1 (ls_frame l) q (replacer_ s1) (disk_manager_ s1)).
  assert (modify_data (ls_frame l) g s1 = (Ret tt, s')) as Er.
  { unfold modify_data. rewrite (upd_frame_run _ _ _ _ Hp). unfold s'. by destruct s1. }
  exists s'. split; [done|].
  destruct (modify_data_any s1 s' (ls_pid l) (ls_frame l) g tt I Hm) as (I' & L1 & L2 & P); [naive_solver|by rewrite L|done|].
  split_and!.
  - split_and!; [by apply (touched_tidy s1 (ls_frame l) p)| |intros pid; by rewrite P].
    destruct Hspare as (h & y & Hy & Hpy). exists h. unfold s'. rewrite (frame_touched s1 _ _ p) by done.
    case_decide as Eh; [subst|by eauto]. assert (y = p) as -> by congruence. by exists q.
  - by rewrite L1, L.
  - intros x' Hx Hne. rewrite L2 by (unfold data_page in Hx; lia || done). by apply L.
  - intros x' Hx. apply touched_exists; try done. by apply Ex.
  - intros y Hy. by apply Fi.
  - intros y. by apply Co.
Qed.

Lemma with_count_tidy (s : BPM) (x : Z) : tidy s -> tidy (with_count s x (count s x + 1)).
Proof.
  intros T. split; try apply T; [apply inv_pageno, T|]. intros pid f Hm.
  destruct (t_data _ T pid f Hm) as [H1 H2]. split; [done|]. unfold count in *. simpl.
  destruct (decide (fd pid = x)) as [E|E]; [|by rewrite lookup_insert_ne].
  rewrite E in H2 |- *. rewrite lookup_insert_eq. simpl. lia.
Qed.

Lemma with_count_exists (s : BPM) (x : Z) (q : PageId) :
  page_exists s q -> page_exists (with_count s x (count s x + 1)) q.
Proof.
  intros (H1 & H2 & H3 & H4 & H5). split_and!; try done. unfold count in *. simpl.
  destruct (decide (fd q = x)) as [E|E]; [|by rewrite lookup_insert_ne].
  rewrite E in H2 |- *. rewrite lookup_insert_eq. simpl. lia.
Qed.

Lemma new_ok (s : BPM) (x : Z) :
  idle s -> file_ok s x -> let pid := mkPageId x (count s x) in
  exists f s', new_page x s = (Ret (Some (f, pid)), s') /\
    leased (mkLease pid f true) s' /\ logical s' pid = zero_page /\
    (forall q, data_page q -> q <> pid -> logical s' q = logical s q) /\
    (forall q, page_exists s q -> page_exists s' q) /\ page_exists s' pid /\
    count s' x = count s x + 1 /\ (forall y, y <> x -> count s' y = count s y).
Proof.
  intros (T & Hspare & Hpins) (Hr & Hop & Hc1 & Hok) pid. pose proof (t_inv _ T) as I.
  assert (page_table_ s !! pid = None) as Hm.
  { destruct (page_table_ s !! pid) as [g|] eqn:E; [|done]. apply (t_data _ T) in E as [_ E]. simpl in E. lia. }
  destruct (new_page_run s x (count s x) I (t_writable _ T) eq_refl Hr) as (f & s' & E); try done.
  { lia. } { unfold page_no_ok, INT32_MAX in *. lia. }
  exists f, s'. split; [done|].
  destruct (new_page_shape s s' x _ (count s x) I eq_refl ltac:(lia) Hm E) as (_ & Hs & Hcnt).
  pose proof (with_count_tidy s x T) as Tc. set (sc := with_count s x (count s x + 1)) in *.
  assert (data_page pid) as Hd by (unfold data_page; simpl; lia).
  assert (count sc x = count s x + 1) as Ecx by (unfold count, sc; simpl; by rewrite lookup_insert_eq).
  assert (length zero_page = page_len) as Hz by apply length_replicate.
  destruct (load_shape_spec sc s' f pid zero_page (t_inv _ Tc) Hm (stale_free sc pid Tc Hd)) as (I' & C' & [V1 V2]);
    [simpl; lia|done|done|].
  assert (tidy s') as T'.
  { apply (load_tidy sc s' f pid zero_page); try done. simpl. lia. }
  destruct (cached_logical _ _ _ _ _ C') as [El Ep]. destruct C' as (Hm' & p & Hp & Eid & Edat & Epin).
  assert (forall y, count s' y = count sc y) as Ecount by (intros y; unfold count; by rewrite Hcnt).
  split_and!.
  - split_and!; simpl; try (rewrite Ep; done); try done.
    + exists f, p. split; [done|]. by right.
    + intros q Hq. rewrite V2 by done. apply Hpins.
  - done.
  - intros q Hq Hne. apply V1; [unfold data_page in Hq; lia|done].
  - intros q Hq. apply (load_exists sc s' f pid zero_page q (t_inv _ Tc) Hs). by apply with_count_exists.
  - split_and!; [done|rewrite Ecount; simpl; lia|done| |left; by rewrite Hm'].
    by apply (t_writable _ T' pid f).
  - by rewrite Ecount.
  - intros y Hy. rewrite Ecount. unfold count, sc. simpl. by rewrite lookup_insert_ne.
Qed.

Lemma flush_ok (l : lease_t) (s : BPM) :
  leased l s ->
  exists s', flush_page (ls_pid l) s = (Ret true, s') /\ leased l s' /\
    (forall q, data_page q -> logical s' q = logical s q) /\
    (forall q, page_exists s q -> page_exists s' q) /\
    (forall x, file_ok s x -> file_ok s' x) /\ (forall x, count s' x = count s x).
Proof.
  intros (T & Hm & Hspare & Hpins & Hoth & Hsync). pose proof (t_inv _ T) as I.
  destruct (mapped_frame s _ _ I Hm) as (p & Hp & Eid & Hm' & Hl & Hpin & Hn).
  destruct (t_writable _ T _ _ Hm) as [Hok Hop].
  destruct (write_page_run (fd (ls_pid l)) (page_no (ls_pid l)) (data_ p) (disk_manager_ s)) as [d' E]; [done..|].
  set (s' := touched s (ls_frame l) (set_dirty false p) (replacer_ s) d').
  assert (flush_page (ls_pid l) s = (Ret true, s')) as Hrun.
  { unfold flush_page. rewrite (bind_run _ _ s s (Some (ls_frame l))) by (by unfold gets; rewrite Hm).
    rewrite (bind_run _ _ _ _ _ (get_frame_run _ _ _ Hp)). erewrite bind_run by (apply zoom_run; exact E).
    erewrite bind_run by (apply upd_frame_run; exact Hp). unfold s'. by destruct s. }
  exists s'. split; [done|]. pose proof (flush_page_inv s s' _ true I Hrun) as F.
  apply write_page_inv in E as W; [|done]. destruct (pw_tables _ _ _ _ _ W) as (_ & _ & _ & Hno).
  pose proof (do_ino _ _ _ (fl_only _ _ _ F)) as Hino.
  split_and!.
  - split_and!; simpl; try (rewrite (fl_pins _ _ _ F); lia).
    + apply (touched_tidy s (ls_frame l) p); try done. apply F.
    + done.
    + by apply (spare_touched s (ls_frame l) p).
    + intros x Hx. rewrite (fl_pins _ _ _ F). by apply Hoth.
    + intros _ _ q Hq _. unfold s' in Hq. rewrite (frame_touched s _ _ p), decide_True in Hq by done. injection Hq as <-.
      split; simpl; rewrite Eid; apply W.
  - intros q Hq. apply F. unfold data_page in Hq. lia.
  - intros q. apply touched_exists; [done|done|]. intros x. apply W.
  - intros x. by apply file_ok_ext.
  - intros x. unfold count. simpl. by rewrite Hno.
Qed.

(** Writing to a header page behind the pool's back. *)
Lemma inv_header (s : BPM) (d : DiskManager) :
  tidy s -> (forall x, fd_ino (dm_fs d) x = fd_ino (dm_fs (disk_manager_ s)) x) ->
  (forall x p, 1 <= p -> disk_page d x p = disk_page (disk_manager_ s) x p) ->
  (forall x p, page_present (disk_manager_ s) x p -> page_present d x p) ->
  fd2pageno_ d = fd2pageno_ (disk_manager_ s) ->
  tidy (set_disk d s) /\ (forall q, data_page q -> logical (set_disk d s) q = logical s q) /\
  (forall p f, frame s f = Some p -> page_table_ s !! id_ p = Some f -> synced (disk_manager_ s) p -> synced d p).
Proof.
  intros T Hi Hp Hpr Hno.
  assert (forall p f, frame s f = Some p -> page_table_ s !! id_ p = Some f -> synced (disk_manager_ s) p -> synced d p) as Hs.
  { intros p f Hf Hm [S1 S2]. destruct (t_data _ T _ _ Hm) as [Hd _]. split; [|by apply Hpr].
    unfold dpage. rewrite Hp by done. exact S1. }
  split_and!; [| |done].
  - pose proof (t_inv _ T) as I. destruct T as [_ Tw Tf Td]. split; [split; try apply I| |done|].
    + simpl. intros x y i. rewrite !Hi. apply I.
    + simpl. intros f p Hf Hm H1 H2. apply (Hs p f); try done. by apply (i_clean _ I f).
    + intros x g Hx. destruct (Tw x g Hx) as [H1 H2]. split; [done|]. unfold fd_open. simpl. by rewrite Hi.
    + unfold count. simpl. rewrite Hno. exact Td.
  - intros q Hq. unfold logical. simpl. destruct (page_table_ s !! q ≫= frame s) eqn:E;
      change (frame (set_disk d s)) with (frame s); rewrite E; [done|]. unfold dpage. by apply Hp.
Qed.

Lemma header_ok (l : lease_t) (s : BPM) (bytes : list Z) (n : Z) :
  leased l s -> Z.of_nat (length bytes) = n -> n <= PAGE_SIZE ->
  exists s', on_disk (write_page (fd (ls_pid l)) 0 bytes n) s = (Ret tt, s') /\ leased l s' /\
    (forall q, data_page q -> logical s' q = logical s q) /\
    (forall q, page_exists s q -> page_exists s' q) /\
    (forall x, file_ok s x -> file_ok s' x) /\ (forall x, count s' x = count s x).
Proof.
  intros (T & Hm & Hspare & Hpins & Hoth & Hsync) Hlen Hn. pose proof (t_inv _ T) as I.
  destruct (t_writable _ T _ _ Hm) as [Hok Hop].
  destruct (write_bytes_run (fd (ls_pid l)) 0 bytes n (disk_manager_ s) Hlen) as [d' E]; [done|done|].
  exists (set_disk d' s). split; [by apply zoom_run|].
  destruct (write_header_inv _ _ _ _ _ Hlen Hn (i_fds _ I) E) as ((_ & _ & _ & Hno) & Hi & Hp & Hpr).
  destruct (inv_header s d' T Hi Hp Hpr Hno) as (T' & L & S).
  destruct (mapped_frame s _ _ I Hm) as (p & Hf & Eid & Hm' & _).
  split_and!.
  - split_and!; simpl; try done; try (apply Hpins).
    intros H1 H2 q Hq H3. assert (q = p) as -> by (unfold frame in *; simpl in Hq; congruence).
    apply (S p (ls_frame l)); [done|done|]. by apply Hsync.
  - done.
  - intros q (H1 & H2 & H3 & H4 & H5). split_and!; [done|unfold count; simpl; by rewrite Hno|done|unfold fd_open; simpl; by rewrite Hi|].
    destruct H5; [by left|right; by apply Hpr].
  - intros x. by apply file_ok_ext.
  - intros x. unfold count. simpl. by rewrite Hno.
Qed.

Lemma fetch_ok (s : BPM) (pid : PageId) :
  idle s -> page_exists s pid ->
  exists f s', fetch_page pid s = (Ret (Some f), s') /\ leased (mkLease pid f false) s' /\
    (forall q, data_page q -> logical s' q = logical s q) /\
    (forall q, page_exists s q -> page_exists s' q) /\
    (forall x, file_ok s x -> file_ok s' x) /\ (forall x, count s' x = count s x).
Proof.
  intros Hi Hex. pose proof Hi as (T & Hspare & Hpins). pose proof Hex as (Hd & Hc & Hok & Hop & Hcase).
  destruct (fetch_page_run s pid (t_inv _ T) (t_writable _ T) Hok) as (f & s' & E).
  - intros Hm. split; [|done]. destruct Hcase as [[g Hg]|]; [congruence|done].
  - specialize (Hpins pid). unfold max_pins, INT32_MAX in *. lia.
  - exists f, s'. split; [done|]. destruct (page_table_ s !! pid) as [g|] eqn:Hm.
    + by apply (fetch_ok_hit s pid f g s').
    + by apply (fetch_ok_miss s pid f s').
Qed.

#[export] Program Instance bpm_PagePoolLaws : PagePoolLaws BPM := {|
  pp_idle := idle; pp_leased := leased; pp_logical := logical; pp_exists := page_exists;
  pp_file := file_ok; pp_count := count
|}.
Next Obligation.
  intros s pid Hi Hex. destruct (fetch_ok s pid Hi Hex) as (f & s' & _ & Hl & L & _).
  rewrite <- L by apply Hex. destruct (leased_page _ _ Hl) as (p & _ & _ & E & Hlen). simpl in E. by rewrite <- E.
Qed.
Next Obligation. exact fetch_ok. Qed.
Next Obligation. exact leased_page. Qed.
Next Obligation. exact update_ok. Qed.
Next Obligation. exact unpin_ok. Qed.
Next Obligation. exact late_ok. Qed.
Next Obligation. exact new_ok. Qed.
Next Obligation. exact flush_ok. Qed.
Next Obligation. exact header_ok. Qed.

End instance.
End PoolInstance.
