(* ===== verification/RmFile.v ===== *)
(** * The record manager ([src/src/record])

    A table file is a header page followed by record pages.  A record page is
    bytes: log sequence number (4), next free page (4), record count (4), slot
    bitmap, slots.  [RmFileHandle] keeps the file header in memory, links the
    pages that still have room into a free list, and stores records in slots;
    [RmScan] walks the bitmap.  Every operation first asks the lock manager. *)

From S2P Require Import Prelude Bytes Bitmap Disk BufferPool PagePool Txn Lock.

Definition RM_NO_PAGE : Z := -1.
Definition RM_FILE_HDR_PAGE : Z := 0.
Definition RM_FIRST_RECORD_PAGE : Z := 1.
Definition RM_MAX_RECORD_SIZE : Z := 512.

(** ** Headers and page layout ([rm_defs.h], [RmPageHandle]) *)

Record RmFileHdr : Type := mkHdr {
  record_size : Z;
  num_pages : Z;
  num_records_per_page : Z;
  first_free_page_no : Z;
  bitmap_size : Z
}.

Definition set_num_pages (x : Z) (h : RmFileHdr) : RmFileHdr :=
  mkHdr (record_size h) x (num_records_per_page h) (first_free_page_no h) (bitmap_size h).
Definition set_first_free (x : Z) (h : RmFileHdr) : RmFileHdr :=
  mkHdr (record_size h) (num_pages h) (num_records_per_page h) x (bitmap_size h).

(** The object representation of the header, as [write_page] stores it. *)
Definition hdr_bytes (h : RmFileHdr) : list Z :=
  i32_bytes (record_size h) ++ i32_bytes (num_pages h) ++ i32_bytes (num_records_per_page h) ++
  i32_bytes (first_free_page_no h) ++ i32_bytes (bitmap_size h).
Definition SIZEOF_RmFileHdr : Z := 20.
Definition SIZEOF_RmPageHdr : Z := 8.
Definition hdr_of_bytes (l : list Z) : RmFileHdr :=
  mkHdr (i32_val (slice 0 4 l)) (i32_val (slice 4 4 l)) (i32_val (slice 8 4 l))
        (i32_val (slice 12 4 l)) (i32_val (slice 16 4 l)).

(** Offsets inside a record page. *)
Definition OFF_NEXT_FREE : nat := 4.
Definition OFF_NUM_RECORDS : nat := 8.
Definition OFF_BITMAP : nat := 12.

Definition next_free_page_no (d : list Z) : Z := i32_val (slice OFF_NEXT_FREE 4 d).
Definition num_records (d : list Z) : Z := i32_val (slice OFF_NUM_RECORDS 4 d).
Definition set_next_free (v : Z) (d : list Z) : list Z := splice OFF_NEXT_FREE (i32_bytes v) d.
Definition set_num_records (v : Z) (d : list Z) : list Z := splice OFF_NUM_RECORDS (i32_bytes v) d.

(** [bitmap] points into the page: the bytes from there on. *)
Definition bitmap (d : list Z) : list Z := drop OFF_BITMAP d.
Definition on_bitmap (f : list Z -> option (list Z)) (d : list Z) : option (list Z) :=
  bm ← f (bitmap d); Some (take OFF_BITMAP d ++ bm).

(** [get_slot(slot_no)] as an offset into the page. *)
Definition slot_off (h : RmFileHdr) (slot_no : Z) : Z :=
  Z.of_nat OFF_BITMAP + bitmap_size h + slot_no * record_size h.
Definition read_slot (h : RmFileHdr) (slot_no : Z) (d : list Z) : option (list Z) :=
  mem_read (slot_off h slot_no) (record_size h) d.
Definition write_slot (h : RmFileHdr) (slot_no : Z) (buf d : list Z) : option (list Z) :=
  rec ← mem_read 0 (record_size h) buf; mem_write (slot_off h slot_no) rec d.

Definition set_lsn (lsn : Z) (d : list Z) : list Z := splice 0 (i32_bytes lsn) d.

(** ** [RmManager::create_file]: how many records fit a page *)

Definition records_per_page (size : Z) : Z :=
  Z.quot (BITMAP_WIDTH * (PAGE_SIZE - 1 - SIZEOF_RmFileHdr) + 1) (1 + size * BITMAP_WIDTH).
Definition new_hdr (size : Z) : RmFileHdr :=
  let n := records_per_page size in
  mkHdr size 1 n RM_NO_PAGE (Z.quot (n + BITMAP_WIDTH - 1) BITMAP_WIDTH).

Module Rm.
Section rm.
Context {T : Type} {PO : PagePool T}.

(** The file handle, with the pool and the lock manager it points to. *)
Record RmFileHandle : Type := mkFH {
  rm_pool : T;
  rm_locks : Lock.LockManager;
  fd_ : Z;
  file_hdr_ : RmFileHdr
}.

Definition set_pool (x : T) (s : RmFileHandle) : RmFileHandle := mkFH x (rm_locks s) (fd_ s) (file_hdr_ s).
Definition set_locks (x : Lock.LockManager) (s : RmFileHandle) : RmFileHandle := mkFH (rm_pool s) x (fd_ s) (file_hdr_ s).
Definition set_hdr (x : RmFileHdr) (s : RmFileHandle) : RmFileHandle := mkFH (rm_pool s) (rm_locks s) (fd_ s) x.

Definition on_pool {A} (m : M T A) : M RmFileHandle A := zoom rm_pool set_pool m.
Definition on_locks {A} (m : M Lock.LockManager A) : M RmFileHandle A := zoom rm_locks set_locks m.

(** The data behind a [Page*]. *)
Definition page_of (f : Z) : M RmFileHandle Page := fun s =>
  match pp_page (rm_pool s) f with Some p => (Ret p, s) | None => (Stuck OutOfBounds, s) end.
Definition change (f : Z) (g : list Z -> option (list Z)) : M RmFileHandle unit :=
  p ← page_of f;
  d ← unwrap OutOfBounds (g (data_ p));
  on_pool (pp_update f (fun _ => d)).

Definition write_hdr : M RmFileHandle unit :=
  h ← gets file_hdr_; x ← gets fd_;
  on_pool (pp_write_disk x RM_FILE_HDR_PAGE (hdr_bytes h) SIZEOF_RmFileHdr).

(** A page handle is the frame of its page; constructing one dereferences it. *)
Definition fetch_page_handle (page_no : Z) : M RmFileHandle Z :=
  if page_no =? INVALID_PAGE_ID then throw (PageNotExistError "" page_no) else
  x ← gets fd_;
  target_page ← on_pool (pp_fetch (mkPageId x page_no));
  unwrap NullDeref target_page.

Definition create_new_page_handle : M RmFileHandle Z :=
  x ← gets fd_;
  new_page ← on_pool (pp_new x);
  match new_page with
  | None => throw (InternalError "Create new page handle failed.")
  | Some (f, new_page_id) =>
      change f (fun d => Some (set_next_free RM_NO_PAGE d)) ;;
      change f (fun d => Some (set_num_records 0 d)) ;;
      h ← gets file_hdr_;
      change f (on_bitmap (fun bm => Bitmap.init bm (bitmap_size h))) ;;
      _ ← on_pool (pp_flush new_page_id);
      n ← int_op (num_pages h + 1);
      modify (set_hdr (set_first_free (page_no new_page_id) (set_num_pages n h))) ;;
      write_hdr ;;
      mret f
  end.

Definition create_page_handle : M RmFileHandle Z :=
  h ← gets file_hdr_;
  if first_free_page_no h =? RM_NO_PAGE then create_new_page_handle
  else fetch_page_handle (first_free_page_no h).

Definition release_page_handle (f : Z) : M RmFileHandle unit :=
  h ← gets file_hdr_;
  change f (fun d => Some (set_next_free (first_free_page_no h) d)) ;;
  p ← page_of f;
  modify (set_hdr (set_first_free (page_no (id_ p)) h)) ;;
  write_hdr.

(** [context] is the transaction of the [Context*] argument, [None] for
    [nullptr]; its lock manager is the one of the state. *)
Definition get_record (rid : Rid) (context : option Z) : M RmFileHandle (list Z) :=
  txn ← unwrap NullDeref context;
  x ← gets fd_;
  _ ← on_locks (Lock.lock_shared_on_record txn rid x);
  f ← fetch_page_handle (rid_page_no rid);
  p ← page_of f;
  h ← gets file_hdr_;
  rec ← unwrap OutOfBounds (read_slot h (rid_slot_no rid) (data_ p));
  _ ← on_pool (pp_unpin (mkPageId x (rid_page_no rid)) true);
  mret rec.

(** [page->set_page_lsn(context->txn_->get_prev_lsn())] when there is a context. *)
Definition stamp_lsn (f : Z) (context : option Z) : M RmFileHandle unit :=
  match context with
  | None => mret tt
  | Some txn =>
      t ← on_locks (Lock.get_txn txn);
      change f (fun d => Some (set_lsn (prev_lsn_ t) d))
  end.

Definition insert_record (buf : list Z) (context : option Z) : M RmFileHandle Rid :=
  f ← create_page_handle;
  p ← page_of f;
  h ← gets file_hdr_;
  slot ← unwrap OutOfBounds (Bitmap.next_bit false (bitmap (data_ p)) (num_records_per_page h) (-1));
  let rid := mkRid (page_no (id_ p)) slot in
  txn ← unwrap NullDeref context;
  x ← gets fd_;
  _ ← on_locks (Lock.lock_exclusive_on_record txn rid x);
  change f (write_slot h slot buf) ;;
  change f (on_bitmap (fun bm => Bitmap.set bm slot)) ;;
  p ← page_of f;
  n ← int_op (num_records (data_ p) + 1);
  change f (fun d => Some (set_num_records n d)) ;;
  (if n =? num_records_per_page h then
     modify (set_hdr (set_first_free (next_free_page_no (data_ p)) h)) ;; write_hdr
   else mret tt) ;;
  stamp_lsn f context ;;
  _ ← on_pool (pp_unpin (mkPageId x (rid_page_no rid)) true);
  mret rid.

Definition is_record (rid : Rid) : M RmFileHandle bool :=
  f ← fetch_page_handle (rid_page_no rid);
  p ← page_of f;
  unwrap OutOfBounds (Bitmap.is_set (bitmap (data_ p)) (rid_slot_no rid)).

(** The overload of [insert_record] that is given the position. *)
Definition insert_record_at (rid : Rid) (buf : list Z) : M RmFileHandle unit :=
  f ← fetch_page_handle (rid_page_no rid);
  there ← is_record rid;
  (if negb there then
     change f (on_bitmap (fun bm => Bitmap.set bm (rid_slot_no rid))) ;;
     p ← page_of f;
     n ← int_op (num_records (data_ p) + 1);
     change f (fun d => Some (set_num_records n d))
   else mret tt) ;;
  h ← gets file_hdr_; x ← gets fd_;
  change f (write_slot h (rid_slot_no rid) buf) ;;
  _ ← on_pool (pp_unpin (mkPageId x (rid_page_no rid)) true);
  mret tt.

Definition delete_record (rid : Rid) (context : option Z) : M RmFileHandle unit :=
  txn ← unwrap NullDeref context;
  x ← gets fd_;
  _ ← on_locks (Lock.lock_exclusive_on_record txn rid x);
  f ← fetch_page_handle (rid_page_no rid);
  p ← page_of f;
  h ← gets file_hdr_;
  (if num_records (data_ p) =? num_records_per_page h then release_page_handle f else mret tt) ;;
  p ← page_of f;
  n ← int_op (num_records (data_ p) - 1);
  change f (fun d => Some (set_num_records n d)) ;;
  change f (on_bitmap (fun bm => Bitmap.reset bm (rid_slot_no rid))) ;;
  stamp_lsn f context ;;
  _ ← on_pool (pp_unpin (id_ p) true);
  mret tt.

(** The log sequence number is stamped after the page has been unpinned. *)
Definition update_record (rid : Rid) (buf : list Z) (context : option Z) : M RmFileHandle unit :=
  txn ← unwrap NullDeref context;
  x ← gets fd_;
  _ ← on_locks (Lock.lock_exclusive_on_record txn rid x);
  f ← fetch_page_handle (rid_page_no rid);
  h ← gets file_hdr_;
  change f (write_slot h (rid_slot_no rid) buf) ;;
  _ ← on_pool (pp_unpin (mkPageId x (rid_page_no rid)) true);
  stamp_lsn f context.

Definition get_page_lsn (page_id : Z) : M RmFileHandle Z :=
  f ← fetch_page_handle page_id;
  p ← page_of f;
  x ← gets fd_;
  _ ← on_pool (pp_unpin (mkPageId x page_id) false);
  mret (BufferPool.get_page_lsn p).

(** ** [RmScan] *)

(** One call of [next] from [rid]: at most one iteration per remaining page. *)
Fixpoint scan_loop (fuel : nat) (rid : Rid) : M RmFileHandle Rid :=
  match fuel with
  | O => mret (mkRid RM_NO_PAGE (-1))
  | Datatypes.S fuel =>
      h ← gets file_hdr_;
      if rid_page_no rid <? num_pages h then
        f ← fetch_page_handle (rid_page_no rid);
        p ← page_of f;
        slot ← unwrap OutOfBounds (Bitmap.next_bit true (bitmap (data_ p)) (num_records_per_page h) (rid_slot_no rid));
        _ ← on_pool (pp_unpin (id_ p) false);
        if slot <? num_records_per_page h then mret (mkRid (rid_page_no rid) slot)
        else scan_loop fuel (mkRid (rid_page_no rid + 1) (-1))
      else mret (mkRid RM_NO_PAGE (-1))
  end.

Definition scan_next (rid : Rid) : M RmFileHandle Rid :=
  h ← gets file_hdr_;
  scan_loop (Datatypes.S (Z.to_nat (num_pages h - rid_page_no rid))) rid.

(** The constructor positions the scan on the first record. *)
Definition scan_begin : M RmFileHandle Rid := scan_next (mkRid RM_FIRST_RECORD_PAGE (-1)).

Definition scan_is_end (rid : Rid) : bool := rid_page_no rid =? RM_NO_PAGE.

(** The loop [for (RmScan scan(fh); !scan.is_end(); scan.next())] that collects
    the positions; it runs out of fuel after [fuel] positions. *)
Fixpoint scan_from (fuel : nat) (rid : Rid) : M RmFileHandle (list Rid) :=
  if scan_is_end rid then mret [] else
  match fuel with
  | O => stuck Diverges
  | Datatypes.S fuel =>
      r ← scan_next rid;
      rest ← scan_from fuel r;
      mret (rid :: rest)
  end.
Definition scan_all (fuel : nat) : M RmFileHandle (list Rid) :=
  r ← scan_begin; scan_from fuel r.

End rm.
Arguments RmFileHandle T : clear implicits.
End Rm.
