(* ===== verification/RmPageFacts.v ===== *)
(** * Record pages at the byte level

    What each primitive update of a record page does to the fields, the bitmap
    and the slots of the page; the layout chosen at file creation. *)

From S2P Require Import Prelude Bytes Bitmap Disk BufferPool RmFile.
Import Disk.

(** ** The layout *)

Record layout_ok (h : RmFileHdr) : Prop := {
  lo_size : 1 <= record_size h;
  lo_n : 1 <= num_records_per_page h;
  lo_bitmap : 0 <= bitmap_size h /\ num_records_per_page h <= 8 * bitmap_size h;
  lo_fit : Z.of_nat OFF_BITMAP + bitmap_size h + num_records_per_page h * record_size h <= PAGE_SIZE
}.

Lemma layout_hdr (h : RmFileHdr) (a b : Z) :
  layout_ok h -> layout_ok (mkHdr (record_size h) a (num_records_per_page h) b (bitmap_size h)).
Proof. intros []. by split. Qed.

Lemma new_hdr_layout (size : Z) : 1 <= size <= RM_MAX_RECORD_SIZE -> layout_ok (new_hdr size).
Proof.
  unfold RM_MAX_RECORD_SIZE. intros Hs.
  set (n := records_per_page size).
  assert (n = 32601 / (1 + size * 8)) as En.
  { unfold n, records_per_page, BITMAP_WIDTH, PAGE_SIZE, SIZEOF_RmFileHdr.
    rewrite Z.quot_div_nonneg by lia. done. }
  assert (n * (1 + size * 8) <= 32601) as Hn.
  { rewrite En. pose proof (Z.mul_div_le 32601 (1 + size * 8)). lia. }
  assert (1 <= n) as Hn1 by (rewrite En; apply Z.div_le_lower_bound; lia).
  assert (bitmap_size (new_hdr size) = (n + 7) / 8) as Eb.
  { simpl. fold n. unfold BITMAP_WIDTH. rewrite Z.quot_div_nonneg by lia. f_equal. lia. }
  pose proof (Z.mul_div_le (n + 7) 8). pose proof (Z.mul_succ_div_gt (n + 7) 8).
  split; rewrite ?Eb; simpl; fold n; try lia.
  unfold OFF_BITMAP, PAGE_SIZE. nia.
Qed.

(** ** Observations of a page *)

Definition raw_slot (h : RmFileHdr) (n : Z) (d : list Z) : list Z :=
  slice (Z.to_nat (slot_off h n)) (Z.to_nat (record_size h)) d.
Definition used (d : list Z) (n : Z) : bool := Bitmap.bit_of (bitmap d) n.

(** The record in slot [n], if there is one. *)
Definition slot_of (h : RmFileHdr) (d : list Z) (n : Z) : option (list Z) :=
  if (0 <=? n) && (n <? num_records_per_page h) && used d n then Some (raw_slot h n d) else None.

Section page.
Context (h : RmFileHdr) (L : layout_ok h).

Definition in_page (n : Z) : Prop := 0 <= n < num_records_per_page h.

Lemma slot_off_bounds (n : Z) : in_page n ->
  Z.of_nat OFF_BITMAP + bitmap_size h <= slot_off h n /\ slot_off h n + record_size h <= PAGE_SIZE.
Proof.
  intros [H1 H2]. destruct L as [L1 L2 L3 L4]. unfold slot_off. split; [nia|].
  assert (n * record_size h + record_size h <= num_records_per_page h * record_size h) by nia. lia.
Qed.

Lemma slot_off_disjoint (n m : Z) : in_page n -> in_page m -> n <> m ->
  slot_off h n + record_size h <= slot_off h m \/ slot_off h m + record_size h <= slot_off h n.
Proof.
  intros Hn Hm Hne. destruct L as [L1 _ _ _]. unfold slot_off.
  destruct (Z.lt_total n m) as [Hlt|[|Hlt]]; [left|done|right]; nia.
Qed.

Lemma bitmap_covers (d : list Z) : length d = page_len -> Bitmap.covers (bitmap d) (num_records_per_page h).
Proof.
  intros Hd. destruct L as [L1 L2 L3 L4]. unfold Bitmap.covers, bitmap. rewrite length_drop, Hd.
  unfold page_len, OFF_BITMAP, PAGE_SIZE in *. nia.
Qed.

Lemma bit_of_ext (bm bm' : list Z) (n : Z) :
  in_page n -> (forall k, Z.of_nat k < bitmap_size h -> bm' !! k = bm !! k) -> Bitmap.bit_of bm' n = Bitmap.bit_of bm n.
Proof.
  intros [H1 H2] Hk. unfold Bitmap.bit_of. rewrite Hk; [done|]. destruct L as [_ _ [L3 L3'] _].
  assert (0 <= n / 8) by (apply Z.div_pos; lia). rewrite Z2Nat.id by lia.
  apply Z.div_lt_upper_bound; lia.
Qed.

(** A write below the bitmap, inside the page header. *)
Lemma used_splice_header (o : nat) (x d : list Z) (n : Z) :
  (o + length x <= OFF_BITMAP)%nat -> length d = page_len -> used (splice o x d) n = used d n.
Proof.
  intros Ho Hd. unfold used, bitmap. f_equal. apply list_eq. intros k. rewrite !lookup_drop.
  unfold page_len, PAGE_SIZE, OFF_BITMAP in *. rewrite lookup_splice by lia. rewrite decide_False by lia. done.
Qed.

Lemma raw_splice_header (o : nat) (x d : list Z) (n : Z) :
  in_page n -> (o + length x <= OFF_BITMAP)%nat -> length d = page_len -> raw_slot h n (splice o x d) = raw_slot h n d.
Proof.
  intros Hn Ho Hd. destruct (slot_off_bounds n Hn) as [H1 H2]. destruct L as [_ _ [L3 _] _].
  apply slice_splice_disjoint; unfold page_len, PAGE_SIZE, OFF_BITMAP in *; lia.
Qed.

(** *** Fields *)

Lemma field_same (o : nat) (v : Z) (d : list Z) :
  in_i32 v = true -> (o + 4 <= length d)%nat -> i32_val (slice o 4 (splice o (i32_bytes v) d)) = v.
Proof.
  intros Hv Hd. rewrite <- (length_i32_bytes v) at 1. rewrite slice_splice_same by (rewrite length_i32_bytes; lia).
  by apply i32_roundtrip.
Qed.

Lemma field_other (o o' : nat) (v : Z) (d : list Z) :
  (o' + 4 <= o)%nat \/ (o + 4 <= o')%nat -> (o + 4 <= length d)%nat ->
  slice o' 4 (splice o (i32_bytes v) d) = slice o' 4 d.
Proof. intros Ho Hd. apply slice_splice_disjoint; rewrite length_i32_bytes; lia. Qed.

(** An update of one header field: everything else stays. *)
Record header_upd (d d' : list Z) : Prop := {
  hu_len : length d' = page_len;
  hu_used : forall n, used d' n = used d n;
  hu_raw : forall n, in_page n -> raw_slot h n d' = raw_slot h n d
}.

Lemma splice_header (o : nat) (v : Z) (d : list Z) :
  (o + 4 <= OFF_BITMAP)%nat -> length d = page_len -> header_upd d (splice o (i32_bytes v) d).
Proof.
  intros Ho Hd. assert (12 <= page_len)%nat by (unfold page_len, PAGE_SIZE; lia). unfold OFF_BITMAP in Ho.
  split.
  - rewrite length_splice; [done|]. rewrite length_i32_bytes. lia.
  - intros n. apply used_splice_header; [rewrite length_i32_bytes; unfold OFF_BITMAP; lia|done].
  - intros n Hn. apply raw_splice_header; [done|rewrite length_i32_bytes; unfold OFF_BITMAP; lia|done].
Qed.

Lemma set_num_records_spec (v : Z) (d : list Z) :
  in_i32 v = true -> length d = page_len ->
  header_upd d (set_num_records v d) /\ num_records (set_num_records v d) = v /\
  next_free_page_no (set_num_records v d) = next_free_page_no d.
Proof.
  intros Hv Hd. assert (12 <= page_len)%nat by (unfold page_len, PAGE_SIZE; lia). split_and!.
  - apply splice_header; [unfold OFF_NUM_RECORDS, OFF_BITMAP; lia|done].
  - apply field_same; [done|unfold OFF_NUM_RECORDS; lia].
  - unfold next_free_page_no, set_num_records. by rewrite field_other by (unfold OFF_NUM_RECORDS, OFF_NEXT_FREE; lia).
Qed.

Lemma set_next_free_spec (v : Z) (d : list Z) :
  in_i32 v = true -> length d = page_len ->
  header_upd d (set_next_free v d) /\ next_free_page_no (set_next_free v d) = v /\
  num_records (set_next_free v d) = num_records d.
Proof.
  intros Hv Hd. assert (12 <= page_len)%nat by (unfold page_len, PAGE_SIZE; lia). split_and!.
  - apply splice_header; [unfold OFF_NEXT_FREE, OFF_BITMAP; lia|done].
  - apply field_same; [done|unfold OFF_NEXT_FREE; lia].
  - unfold num_records, set_next_free. by rewrite field_other by (unfold OFF_NUM_RECORDS, OFF_NEXT_FREE; lia).
Qed.

Lemma set_lsn_spec (v : Z) (d : list Z) :
  length d = page_len ->
  header_upd d (set_lsn v d) /\ next_free_page_no (set_lsn v d) = next_free_page_no d /\
  num_records (set_lsn v d) = num_records d.
Proof.
  intros Hd. assert (12 <= page_len)%nat by (unfold page_len, PAGE_SIZE; lia). split_and!.
  - apply splice_header; [unfold OFF_BITMAP; lia|done].
  - unfold next_free_page_no, set_lsn. by rewrite field_other by (unfold OFF_NEXT_FREE; lia).
  - unfold num_records, set_lsn. by rewrite field_other by (unfold OFF_NUM_RECORDS; lia).
Qed.

(** *** The bitmap *)

(** An update of the bitmap region that stays below the slots. *)
Lemma on_bitmap_spec (bm' d : list Z) (f : list Z -> option (list Z)) :
  length d = page_len -> f (bitmap d) = Some bm' -> length bm' = length (bitmap d) ->
  (forall k, bitmap_size h <= Z.of_nat k -> bm' !! k = bitmap d !! k) ->
  exists d', on_bitmap f d = Some d' /\ length d' = page_len /\ bitmap d' = bm' /\
    next_free_page_no d' = next_free_page_no d /\ num_records d' = num_records d /\
    forall n, in_page n -> raw_slot h n d' = raw_slot h n d.
Proof.
  intros Hd Hf Hl Hk. exists (take OFF_BITMAP d ++ bm'). unfold on_bitmap. rewrite Hf. simpl.
  assert (12 <= page_len)%nat by (unfold page_len, PAGE_SIZE; lia).
  assert (length (take OFF_BITMAP d) = 12%nat) as Ht by (rewrite length_take; unfold OFF_BITMAP; lia).
  assert (forall o, (o + 4 <= 12)%nat -> slice o 4 (take OFF_BITMAP d ++ bm') = slice o 4 d) as Hs.
  { intros o Ho. rewrite slice_app_l by lia. apply list_eq. intros i. rewrite !lookup_slice. case_decide; [|done].
    apply lookup_take_lt. unfold OFF_BITMAP. lia. }
  split_and!.
  - done.
  - rewrite length_app, Ht, Hl. unfold bitmap. rewrite length_drop. unfold OFF_BITMAP. lia.
  - unfold bitmap. apply drop_app_length'. by rewrite Ht.
  - unfold next_free_page_no. f_equal. apply Hs. unfold OFF_NEXT_FREE. lia.
  - unfold num_records. f_equal. apply Hs. unfold OFF_NUM_RECORDS. lia.
  - intros n Hn. destruct (slot_off_bounds n Hn) as [H1 H2]. unfold raw_slot. apply list_eq. intros i.
    rewrite !lookup_slice. case_decide; [|done]. unfold OFF_BITMAP in H1. destruct L as [L1 _ [L3 _] _].
    rewrite lookup_app_r by lia. rewrite Ht, Hk by lia. unfold bitmap. rewrite lookup_drop. f_equal. unfold OFF_BITMAP. lia.
Qed.

Lemma update_byte_after (f : Z -> Z) (bm bm' : list Z) (n : Z) :
  in_page n -> Bitmap.update_byte f bm (Bitmap.get_bucket n) = Some bm' ->
  forall k, bitmap_size h <= Z.of_nat k -> bm' !! k = bm !! k.
Proof.
  intros [H1 H2] Hu k Hk. unfold Bitmap.update_byte in Hu. destruct (Bitmap.byte_at bm _); [|done].
  injection Hu as <-. apply list_lookup_insert_ne. rewrite Bitmap.get_bucket_div by lia.
  assert (n / 8 < bitmap_size h) by (apply Z.div_lt_upper_bound; destruct L as [_ _ [? ?] _]; lia).
  assert (0 <= n / 8) by (apply Z.div_pos; lia). lia.
Qed.

Lemma set_bit_spec (n : Z) (d : list Z) :
  in_page n -> length d = page_len ->
  exists d', on_bitmap (fun bm => Bitmap.set bm n) d = Some d' /\ length d' = page_len /\
    next_free_page_no d' = next_free_page_no d /\ num_records d' = num_records d /\
    (forall m, in_page m -> raw_slot h m d' = raw_slot h m d) /\
    (forall m, in_page m -> used d' m = if decide (m = n) then true else used d m).
Proof.
  intros Hn Hd. destruct (Bitmap.set_spec (bitmap d) n _ (bitmap_covers d Hd) Hn) as (bm' & Hs & Hl & Hb).
  destruct (on_bitmap_spec bm' d (fun bm => Bitmap.set bm n) Hd Hs Hl) as (d' & E & H1 & H2 & H3 & H4 & H5).
  { eapply (update_byte_after _ _ _ n); [done|exact Hs]. }
  exists d'. split_and!; try done. intros m Hm. unfold used. rewrite H2. by apply Hb.
Qed.

Lemma reset_bit_spec (n : Z) (d : list Z) :
  in_page n -> length d = page_len ->
  exists d', on_bitmap (fun bm => Bitmap.reset bm n) d = Some d' /\ length d' = page_len /\
    next_free_page_no d' = next_free_page_no d /\ num_records d' = num_records d /\
    (forall m, in_page m -> raw_slot h m d' = raw_slot h m d) /\
    (forall m, in_page m -> used d' m = if decide (m = n) then false else used d m).
Proof.
  intros Hn Hd. destruct (Bitmap.reset_spec (bitmap d) n _ (bitmap_covers d Hd) Hn) as (bm' & Hs & Hl & Hb).
  destruct (on_bitmap_spec bm' d (fun bm => Bitmap.reset bm n) Hd Hs Hl) as (d' & E & H1 & H2 & H3 & H4 & H5).
  { eapply (update_byte_after _ _ _ n); [done|exact Hs]. }
  exists d'. split_and!; try done. intros m Hm. unfold used. rewrite H2. by apply Hb.
Qed.

Lemma init_bits_spec (d : list Z) :
  length d = page_len ->
  exists d', on_bitmap (fun bm => Bitmap.init bm (bitmap_size h)) d = Some d' /\ length d' = page_len /\
    next_free_page_no d' = next_free_page_no d /\ num_records d' = num_records d /\
    (forall m, in_page m -> used d' m = false).
Proof.
  intros Hd. destruct L as [L1 L2 [L3 L3'] L4].
  assert (Z.of_nat (length (bitmap d)) = PAGE_SIZE - 12) as Hlen.
  { unfold bitmap. rewrite length_drop, Hd. unfold page_len, PAGE_SIZE, OFF_BITMAP. lia. }
  set (z := replicate (Z.to_nat (bitmap_size h)) 0). set (bm' := splice 0 z (bitmap d)).
  assert (length z = Z.to_nat (bitmap_size h)) as Hz by apply length_replicate.
  unfold OFF_BITMAP in L4.
  assert (0 + length z <= length (bitmap d))%nat as Hfit by nia.
  destruct (on_bitmap_spec bm' d (fun bm => Bitmap.init bm (bitmap_size h)) Hd) as (d' & E & H1 & H2 & H3 & H4 & H5).
  - unfold Bitmap.init, mem_write. rewrite length_replicate, (proj2 (Z.leb_le _ _)) by nia. simpl.
    rewrite (proj2 (Z.leb_le _ _)) by nia. done.
  - by apply length_splice.
  - intros k Hk. unfold bm'. rewrite lookup_splice by done. rewrite decide_False by lia. done.
  - exists d'. split_and!; try done. intros m Hm. unfold used. rewrite H2. unfold Bitmap.bit_of, bm'.
    assert (0 <= m / 8) by (apply Z.div_pos; destruct Hm; lia).
    assert (m / 8 < bitmap_size h) by (apply Z.div_lt_upper_bound; destruct Hm; lia).
    rewrite lookup_splice by done. rewrite decide_True by lia.
    unfold z. rewrite lookup_replicate_2 by lia. apply Z.bits_0.
Qed.

(** *** Slots *)

Lemma write_slot_spec (n : Z) (buf d : list Z) :
  in_page n -> length d = page_len -> record_size h <= Z.of_nat (length buf) ->
  exists d', write_slot h n buf d = Some d' /\ length d' = page_len /\
    next_free_page_no d' = next_free_page_no d /\ num_records d' = num_records d /\
    (forall m, in_page m -> used d' m = used d m) /\
    raw_slot h n d' = take (Z.to_nat (record_size h)) buf /\
    (forall m, in_page m -> m <> n -> raw_slot h m d' = raw_slot h m d).
Proof.
  intros Hn Hd Hbuf. destruct (slot_off_bounds n Hn) as [H1 H2]. destruct L as [L1 L2 [L3 L3'] L4].
  set (x := take (Z.to_nat (record_size h)) buf).
  assert (length x = Z.to_nat (record_size h)) as Hx by (unfold x; rewrite length_take; lia).
  set (o := Z.to_nat (slot_off h n)). assert (12 <= o)%nat as Ho by (unfold o, OFF_BITMAP in *; lia).
  assert (o + length x <= length d)%nat as Hfit by (rewrite Hd; unfold o, page_len, PAGE_SIZE in *; lia).
  exists (splice o x d). split_and!.
  - unfold write_slot. rewrite (proj2 (mem_read_Some 0 _ buf x)).
    + simpl. apply mem_write_Some. rewrite Hd. unfold page_len, OFF_BITMAP, PAGE_SIZE in *. split_and!; [lia|lia|done].
    + split_and!; [lia|lia|lia|]. done.
  - by rewrite length_splice.
  - unfold next_free_page_no. f_equal. apply slice_splice_disjoint; [done|unfold OFF_NEXT_FREE; lia].
  - unfold num_records. f_equal. apply slice_splice_disjoint; [done|unfold OFF_NUM_RECORDS; lia].
  - intros m Hm. unfold used. apply bit_of_ext; [done|]. intros k Hk. unfold bitmap. rewrite !lookup_drop.
    rewrite lookup_splice by done. rewrite decide_False; [done|]. unfold o, OFF_BITMAP in *. lia.
  - unfold raw_slot. fold o. rewrite <- Hx. by apply slice_splice_same.
  - intros m Hm Hne. unfold raw_slot. apply slice_splice_disjoint; [done|].
    destruct (slot_off_bounds m Hm) as [H3 H4]. destruct (slot_off_disjoint n m Hn Hm) as [Hd'|Hd']; [congruence|right|left];
      unfold o in *; unfold OFF_BITMAP in *; lia.
Qed.

Lemma read_slot_spec (n : Z) (d : list Z) :
  in_page n -> length d = page_len -> read_slot h n d = Some (raw_slot h n d).
Proof.
  intros Hn Hd. destruct (slot_off_bounds n Hn) as [H1 H2]. destruct L as [L1 L2 [L3 L3'] L4].
  apply mem_read_Some. rewrite Hd. unfold page_len, OFF_BITMAP, PAGE_SIZE in *. split_and!; [lia|lia|lia|done].
Qed.

End page.
