(* ===== verification/RmTable.v ===== *)
(** * The invariant of a table file

    Pure facts about the contents [P] of the pages of a table file and its
    header: how the free list and the counts evolve when one page changes. *)

From S2P Require Import Prelude Bytes Bitmap Disk RmFile RmPageFacts.

(** The record count of a page is the number of bits set. *)
Definition page_ok (h : RmFileHdr) (d : list Z) : Prop :=
  num_records d = Bitmap.popcount (bitmap d) (num_records_per_page h).

(** The free list starting at [first] runs through the pages [L]. *)
Fixpoint chain (P : Z -> list Z) (np first : Z) (L : list Z) : Prop :=
  match L with
  | [] => first = RM_NO_PAGE
  | n :: L => first = n /\ 1 <= n < np /\ chain P np (next_free_page_no (P n)) L
  end.

Record table_ok (h : RmFileHdr) (P : Z -> list Z) : Prop := {
  tb_layout : layout_ok h;
  tb_pages : 1 <= num_pages h;
  tb_counts : forall n, 1 <= n < num_pages h -> page_ok h (P n);
  tb_free : exists L, NoDup L /\ chain P (num_pages h) (first_free_page_no h) L /\
    forall n, 1 <= n < num_pages h -> n ∈ L <-> num_records (P n) < num_records_per_page h
}.

Lemma chain_bounds (P : Z -> list Z) (np first : Z) (L : list Z) (n : Z) :
  chain P np first L -> n ∈ L -> 1 <= n < np.
Proof.
  revert first. induction L as [|m L IH]; intros first; simpl; [intros _ H; by apply elem_of_nil in H|].
  intros (-> & Hm & Hc) [->|H]%elem_of_cons; [done|by eapply IH].
Qed.

Lemma chain_ext (P P' : Z -> list Z) (np np' first : Z) (L : list Z) :
  np <= np' -> (forall n, n ∈ L -> next_free_page_no (P' n) = next_free_page_no (P n)) ->
  chain P np first L -> chain P' np' first L.
Proof.
  intros Hnp. revert first. induction L as [|m L IH]; intros first He; simpl; [done|].
  intros (-> & Hm & Hc). split; [done|]. split; [lia|]. rewrite He by left. apply IH; [|done].
  intros n Hn. apply He. by right.
Qed.

Lemma chain_head (P : Z -> list Z) (np first : Z) (L : list Z) :
  chain P np first L -> first <> RM_NO_PAGE -> exists L', L = first :: L' /\ 1 <= first < np /\ chain P np (next_free_page_no (P first)) L'.
Proof. destruct L as [|m L]; simpl; [done|]. intros (-> & Hm & Hc) _. by exists L. Qed.

Lemma page_ok_range (h : RmFileHdr) (d : list Z) :
  layout_ok h -> page_ok h d -> 0 <= num_records d <= num_records_per_page h.
Proof. intros L E. rewrite E. apply Bitmap.popcount_range. destruct L. lia. Qed.

Lemma per_page_small (h : RmFileHdr) : layout_ok h -> num_records_per_page h <= PAGE_SIZE.
Proof. intros [L1 L2 [L3 _] L4]. unfold OFF_BITMAP in L4. nia. Qed.

Lemma table_ext (h : RmFileHdr) (P P' : Z -> list Z) : table_ok h P -> (forall n, P' n = P n) -> table_ok h P'.
Proof.
  intros [H1 H2 H3 (L & Hnd & Hc & Hl)] E. split; try done; [intros n Hn; rewrite E; by apply H3|].
  exists L. split_and!; [done| |intros n Hn; rewrite E; by apply Hl]. eapply chain_ext; [reflexivity| |exact Hc]. intros n _. by rewrite E.
Qed.

Section one_page.
Context (h : RmFileHdr) (P P' : Z -> list Z) (n : Z).
Context (Hok : table_ok h P) (Hoth : forall m, 1 <= m -> m <> n -> P' m = P m).

(** Nothing the free list depends on has changed. *)
Lemma table_same :
  1 <= n < num_pages h -> page_ok h (P' n) -> num_records (P' n) = num_records (P n) ->
  next_free_page_no (P' n) = next_free_page_no (P n) -> table_ok h P'.
Proof.
  intros Hn Hp Hr Hx. destruct Hok as [H1 H2 H3 (L & Hnd & Hc & Hl)].
  assert (forall m, 1 <= m -> num_records (P' m) = num_records (P m) /\ next_free_page_no (P' m) = next_free_page_no (P m)) as He.
  { intros m Hm. destruct (decide (m = n)) as [->|]; [done|]. by rewrite Hoth. }
  split; try done.
  - intros m Hm. destruct (decide (m = n)) as [->|]; [done|]. rewrite Hoth by (done || lia). by apply H3.
  - exists L. split_and!; [done| |].
    + eapply chain_ext; [reflexivity| |exact Hc]. intros m Hm. apply He. pose proof (chain_bounds _ _ _ _ _ Hc Hm). lia.
    + intros m Hm. rewrite (proj1 (He m ltac:(lia))). by apply Hl.
Qed.

(** A record went into the first free page. *)
Lemma table_insert :
  first_free_page_no h = n -> n <> RM_NO_PAGE -> page_ok h (P' n) ->
  num_records (P' n) = num_records (P n) + 1 -> next_free_page_no (P' n) = next_free_page_no (P n) ->
  table_ok (if num_records (P' n) =? num_records_per_page h
            then set_first_free (next_free_page_no (P' n)) h else h) P'.
Proof.
  intros Hf Hne Hp Hr Hx. destruct Hok as [H1 H2 H3 (L & Hnd & Hc & Hl)].
  destruct (chain_head _ _ _ _ Hc) as (L' & -> & Hn & Hc'); [by rewrite Hf|]. rewrite Hf in *.
  apply NoDup_cons in Hnd as [Hnl Hnd].
  assert (chain P' (num_pages h) (next_free_page_no (P' n)) L') as Hc2.
  { rewrite Hx. eapply chain_ext; [reflexivity| |exact Hc']. intros m Hm.
    pose proof (chain_bounds _ _ _ _ _ Hc' Hm). rewrite Hoth; [done|lia|]. by intros ->. }
  assert (forall m, 1 <= m < num_pages h -> page_ok h (P' m)) as Hcnt.
  { intros m Hm. destruct (decide (m = n)) as [->|]; [done|]. rewrite Hoth by (done || lia). by apply H3. }
  assert (num_records (P' n) <= num_records_per_page h) as Hle by by apply page_ok_range.
  destruct (Z.eqb_spec (num_records (P' n)) (num_records_per_page h)) as [Efull|Enot].
  - split; simpl; [by apply (layout_hdr h)|done|done|]. exists L'. split_and!; [done|done|].
    intros m Hm. destruct (decide (m = n)) as [->|Hmn]; [split; [done|lia]|].
    rewrite Hoth by (done || lia). rewrite <- Hl by done. set_solver.
  - split; try done. exists (n :: L'). rewrite Hf. split_and!; [by constructor|done|]. intros m Hm.
    destruct (decide (m = n)) as [->|Hmn]; [split; [lia|left]|]. rewrite Hoth by (done || lia). by apply Hl.
Qed.

(** A fresh page was appended and became the free list. *)
Lemma table_new :
  first_free_page_no h = RM_NO_PAGE -> n = num_pages h -> page_ok h (P' n) ->
  num_records (P' n) = 0 -> next_free_page_no (P' n) = RM_NO_PAGE ->
  table_ok (set_first_free n (set_num_pages (n + 1) h)) P'.
Proof.
  intros Hf Hn Hp Hr Hx. destruct Hok as [H1 H2 H3 (L & Hnd & Hc & Hl)].
  assert (L = []) as ->.
  { destruct L as [|m L]; [done|]. simpl in Hc. destruct Hc as (E & Hm & _). rewrite Hf in E. unfold RM_NO_PAGE in E. lia. }
  split; simpl; [by apply (layout_hdr h)|lia| |].
  - intros m Hm. destruct (decide (m = n)) as [->|]; [done|]. rewrite Hoth by (done || lia). apply H3. lia.
  - exists [n]. split_and!; [apply NoDup_singleton|simpl; split_and!; try lia; done|].
    intros m Hm. rewrite list_elem_of_singleton. destruct (decide (m = n)) as [->|Hmn].
    + rewrite Hr. destruct H1. split; [lia|done].
    + rewrite Hoth by (done || lia). split; [done|]. intros Hlt. apply Hl in Hlt; [|lia]. by apply elem_of_nil in Hlt.
Qed.

(** A record left page [n]; a full page joins the free list. *)
Lemma table_delete :
  1 <= n < num_pages h -> page_ok h (P' n) -> num_records (P' n) = num_records (P n) - 1 ->
  next_free_page_no (P' n) = (if num_records (P n) =? num_records_per_page h then first_free_page_no h else next_free_page_no (P n)) ->
  table_ok (if num_records (P n) =? num_records_per_page h then set_first_free n h else h) P'.
Proof.
  intros Hn Hp Hr Hx. destruct Hok as [H1 H2 H3 (L & Hnd & Hc & Hl)].
  assert (forall m, 1 <= m < num_pages h -> page_ok h (P' m)) as Hcnt.
  { intros m Hm. destruct (decide (m = n)) as [->|]; [done|]. rewrite Hoth by (done || lia). by apply H3. }
  pose proof (page_ok_range _ _ H1 (H3 n Hn)) as Hrange.
  destruct (Z.eqb_spec (num_records (P n)) (num_records_per_page h)) as [Efull|Enot].
  - assert (n ∉ L) as Hnl by (rewrite Hl by done; lia).
    split; simpl; [by apply (layout_hdr h)|done|done|]. exists (n :: L). split_and!; [by constructor| |].
    + simpl. split_and!; [done|lia|lia|]. rewrite Hx. eapply chain_ext; [reflexivity| |exact Hc]. intros m Hm.
      pose proof (chain_bounds _ _ _ _ _ Hc Hm). rewrite Hoth; [done|lia|]. by intros ->.
    + intros m Hm. destruct (decide (m = n)) as [->|Hmn]; [split; [lia|left]|].
      rewrite Hoth by (done || lia). rewrite <- Hl by done. set_solver.
  - split; try done. exists L. split_and!; [done| |].
    + eapply chain_ext; [reflexivity| |exact Hc]. intros m Hm. destruct (decide (m = n)) as [->|]; [done|].
      rewrite Hoth; [done| |done]. pose proof (chain_bounds _ _ _ _ _ Hc Hm). lia.
    + intros m Hm. destruct (decide (m = n)) as [->|Hmn]; [|rewrite Hoth by (done || lia); by apply Hl].
      rewrite Hl by done. lia.
Qed.

End one_page.

(** ** What the record operations do to one page *)

Lemma slot_of_out (h : RmFileHdr) (e : list Z) (m : Z) : ~ in_page h m -> slot_of h e m = None.
Proof.
  intros Hm. unfold slot_of, in_page in *. destruct (Z.leb_spec 0 m), (Z.ltb_spec m (num_records_per_page h)); try done. lia.
Qed.

Lemma slot_of_in (h : RmFileHdr) (e : list Z) (m : Z) : in_page h m -> slot_of h e m = if used e m then Some (raw_slot h m e) else None.
Proof. intros [H1 H2]. unfold slot_of. by rewrite (proj2 (Z.leb_le _ _) H1), (proj2 (Z.ltb_lt _ _) H2). Qed.

Section page_ops.
Context (h : RmFileHdr) (L : layout_ok h) (d : list Z) (Hd : length d = Disk.page_len) (Hok : page_ok h d).

(** [e] is [d] with the content of slot [n] replaced by [r]. *)
Definition slot_upd (n : Z) (r : option (list Z)) (e : list Z) : Prop :=
  forall m, slot_of h e m = if decide (m = n) then r else slot_of h d m.

(** Slot contents are determined by the used bits and the bytes of used slots. *)
Lemma slot_upd_intro (n : Z) (b : bool) (e : list Z) :
  in_page h n -> used e n = b ->
  (forall m, in_page h m -> m <> n -> used e m = used d m /\ raw_slot h m e = raw_slot h m d) ->
  slot_upd n (if b then Some (raw_slot h n e) else None) e.
Proof.
  intros Hn Hb Hm m. case_decide as E; [subst m b; by apply slot_of_in|].
  unfold slot_of. destruct ((0 <=? m) && (m <? num_records_per_page h)) eqn:Hr; [|done].
  apply andb_true_iff in Hr as [H1%Z.leb_le H2%Z.ltb_lt]. destruct (Hm m) as [-> ->]; try done.
Qed.

Lemma free_slot :
  num_records d < num_records_per_page h ->
  exists slot, Bitmap.next_bit false (bitmap d) (num_records_per_page h) (-1) = Some slot /\ in_page h slot /\ used d slot = false.
Proof.
  intros Hlt. pose proof (lo_n h L).
  destruct (Bitmap.next_bit_spec false (bitmap d) (num_records_per_page h) (-1)) as (r & Hr & Hb & Hq & Hlast);
    [by apply bitmap_covers|lia|].
  exists r. split; [done|]. assert (r < num_records_per_page h); [|by split; [unfold in_page; lia|apply Hlast]].
  destruct (decide (r = num_records_per_page h)) as [->|]; [|lia].
  rewrite Hok, Bitmap.popcount_full in Hlt; [lia|lia|]. intros q Hq'. rewrite Hq by lia. done.
Qed.

Lemma page_insert (slot : Z) (buf : list Z) (lsn : Z) :
  in_page h slot -> used d slot = false -> record_size h <= Z.of_nat (length buf) ->
  exists d1 d2, write_slot h slot buf d = Some d1 /\ length d1 = Disk.page_len /\
    on_bitmap (fun bm => Bitmap.set bm slot) d1 = Some d2 /\ length d2 = Disk.page_len /\
    num_records d2 = num_records d /\ next_free_page_no d2 = next_free_page_no d /\
    in_i32 (num_records d + 1) = true /\
    let e := set_lsn lsn (set_num_records (num_records d + 1) d2) in
    length (set_num_records (num_records d + 1) d2) = Disk.page_len /\ length e = Disk.page_len /\
    page_ok h e /\ num_records e = num_records d + 1 /\ next_free_page_no e = next_free_page_no d /\
    slot_upd slot (Some (take (Z.to_nat (record_size h)) buf)) e.
Proof.
  intros Hs Hu Hbuf. destruct (write_slot_spec h L slot buf d Hs Hd Hbuf) as (d1 & W & W1 & W2 & W3 & W4 & W5 & W6).
  destruct (set_bit_spec h L slot d1 Hs W1) as (d2 & B & B1 & B2 & B3 & B4 & B5).
  pose proof (page_ok_range h d L Hok) as Hr. pose proof (per_page_small h L) as Hsm.
  assert (in_i32 (num_records d + 1) = true) as Hi by (unfold in_i32, INT32_MIN, INT32_MAX, PAGE_SIZE in *; lia).
  destruct (set_num_records_spec h L (num_records d + 1) d2 Hi B1) as ([N1 N2 N3] & N4 & N5).
  set (d3 := set_num_records (num_records d + 1) d2) in *.
  destruct (set_lsn_spec h L lsn d3 N1) as ([S1 S2 S3] & S4 & S5).
  exists d1, d2. fold d3. split_and!; try done; try congruence. cbv zeta. split_and!; try done; try congruence.
  - unfold page_ok. rewrite S5, N4, Hok. symmetry. apply (Bitmap.popcount_set (bitmap d) _ _ slot); [done|done|].
    intros q Hq. fold (used (set_lsn lsn d3) q) (used d q). rewrite S2, N2, B5 by done. case_decide; [done|by apply W4].
  - rewrite <- W5, <- (B4 slot Hs), <- (N3 slot Hs), <- (S3 slot Hs).
    apply (slot_upd_intro slot true); [done|by rewrite S2, N2, B5, decide_True|].
    intros m Hm Hne. rewrite S2, N2, B5, decide_False, S3, N3, B4 by done. split; [by apply W4|by apply W6].
Qed.

Lemma page_delete (slot first lsn : Z) :
  in_page h slot -> used d slot = true -> in_i32 first = true ->
  let d1 := if num_records d =? num_records_per_page h then set_next_free first d else d in
  length d1 = Disk.page_len /\ num_records d1 = num_records d /\ in_i32 (num_records d - 1) = true /\
  length (set_num_records (num_records d - 1) d1) = Disk.page_len /\
  exists d3, on_bitmap (fun bm => Bitmap.reset bm slot) (set_num_records (num_records d - 1) d1) = Some d3 /\
    length d3 = Disk.page_len /\ let e := set_lsn lsn d3 in
    length e = Disk.page_len /\ page_ok h e /\ num_records e = num_records d - 1 /\
    next_free_page_no e = (if num_records d =? num_records_per_page h then first else next_free_page_no d) /\
    slot_upd slot None e.
Proof.
  intros Hs Hu Hf d1. pose proof (page_ok_range h d L Hok) as Hr. pose proof (per_page_small h L) as Hsm.
  assert (header_upd h d d1 /\ num_records d1 = num_records d /\
    next_free_page_no d1 = (if num_records d =? num_records_per_page h then first else next_free_page_no d)) as ([A1 A2 A3] & A4 & A5).
  { unfold d1. destruct (num_records d =? num_records_per_page h); [|done].
    by destruct (set_next_free_spec h L first d Hf Hd) as (? & ? & ?). }
  assert (in_i32 (num_records d - 1) = true) as Hi by (unfold in_i32, INT32_MIN, INT32_MAX, PAGE_SIZE in *; lia).
  destruct (set_num_records_spec h L (num_records d - 1) d1 Hi A1) as ([N1 N2 N3] & N4 & N5).
  set (d2 := set_num_records (num_records d - 1) d1) in *.
  destruct (reset_bit_spec h L slot d2 Hs N1) as (d3 & B & B1 & B2 & B3 & B4 & B5).
  destruct (set_lsn_spec h L lsn d3 B1) as ([S1 S2 S3] & S4 & S5).
  fold d2. split_and!; try done. exists d3. split_and!; try done. cbv zeta. split_and!; try done; try congruence.
  - unfold page_ok. rewrite S5, B3, N4, Hok. symmetry. apply (Bitmap.popcount_reset (bitmap d) _ _ slot); [done|done|].
    intros q Hq. fold (used (set_lsn lsn d3) q) (used d q). rewrite S2, B5 by done. case_decide; [done|by rewrite N2, A2].
  - apply (slot_upd_intro slot false); [done|by rewrite S2, B5, decide_True|].
    intros m Hm Hne. by rewrite S2, B5, decide_False, N2, A2, S3, B4, N3, A3.
Qed.

Lemma page_update (slot : Z) (buf : list Z) (lsn : Z) :
  in_page h slot -> used d slot = true -> record_size h <= Z.of_nat (length buf) ->
  exists d1, write_slot h slot buf d = Some d1 /\ length d1 = Disk.page_len /\ let e := set_lsn lsn d1 in
    length e = Disk.page_len /\ page_ok h e /\ num_records e = num_records d /\
    next_free_page_no e = next_free_page_no d /\ slot_upd slot (Some (take (Z.to_nat (record_size h)) buf)) e.
Proof.
  intros Hs Hu Hbuf. destruct (write_slot_spec h L slot buf d Hs Hd Hbuf) as (d1 & W & W1 & W2 & W3 & W4 & W5 & W6).
  destruct (set_lsn_spec h L lsn d1 W1) as ([S1 S2 S3] & S4 & S5).
  exists d1. split_and!; try done. cbv zeta. split_and!; try done; try congruence.
  - unfold page_ok. rewrite S5, W3, Hok. unfold Bitmap.popcount. do 2 f_equal. apply filter_ext_elem.
    intros y Hy. apply elem_of_seqZ in Hy. fold (used (set_lsn lsn d1) y) (used d y). rewrite S2. symmetry. apply W4. unfold in_page. lia.
  - rewrite <- W5, <- (S3 slot Hs). apply (slot_upd_intro slot true); [done|by rewrite S2, W4|].
    intros m Hm Hne. rewrite S2, S3 by done. split; [by apply W4|by apply W6].
Qed.

End page_ops.
