(* ===== verification/RmFileFacts.v ===== *)
(** * Correctness of the record manager

    Proved against the [PagePool] contract.  [editing] describes the handle
    while one page is leased; each primitive is a transition of it.  [file_ok]
    is the invariant of a table file: record counts agree with the bitmaps and
    the free list holds exactly the pages with room. *)

From S2P Require Import Prelude Bytes Bitmap Disk BufferPool PagePool Txn Lock LockFacts LockSpec RmFile RmPageFacts RmTable.
Import Disk.

Module RmFacts.
Import Rm.
Section facts.
Context {T : Type} {PO : PagePool T} {PL : PagePoolLaws T}.
Abbreviation FH := (RmFileHandle T).
Implicit Types s : FH.

Definition pid_of (s : FH) (n : Z) : PageId := mkPageId (fd_ s) n.
(** The content of page [n] of the file. *)
Definition pg (s : FH) (n : Z) : list Z := pp_logical (rm_pool s) (pid_of s n).

(** ** One page at a time *)

(** [s] is reached from [s0]; page [n] is leased in frame [f] with content [d]
    and everything else of the file is as in [s0]. *)
Record editing (s0 : FH) (n f : Z) (b : bool) (d : list Z) (h : RmFileHdr) (lk : Lock.LockManager) (c : Z) (s : FH) : Prop := {
  e_lease : pp_leased (mkLease (pid_of s0 n) f b) (rm_pool s);
  e_data : pp_logical (rm_pool s) (pid_of s0 n) = d;
  e_page : 1 <= n;
  e_other : forall q, data_page q -> q <> pid_of s0 n -> pp_logical (rm_pool s) q = pp_logical (rm_pool s0) q;
  e_exists : forall q, pp_exists (rm_pool s0) q -> pp_exists (rm_pool s) q;
  e_this : pp_exists (rm_pool s) (pid_of s0 n);
  e_count : pp_count (rm_pool s) (fd_ s0) = c;
  e_fd : fd_ s = fd_ s0;
  e_hdr : file_hdr_ s = h;
  e_locks : rm_locks s = lk
}.

(** The same, after the page has been given back. *)
Record edited (s0 : FH) (n : Z) (d : list Z) (h : RmFileHdr) (lk : Lock.LockManager) (c : Z) (s : FH) : Prop := {
  d_idle : pp_idle (rm_pool s);
  d_data : pp_logical (rm_pool s) (pid_of s0 n) = d;
  d_other : forall q, data_page q -> q <> pid_of s0 n -> pp_logical (rm_pool s) q = pp_logical (rm_pool s0) q;
  d_exists : forall q, pp_exists (rm_pool s0) q -> pp_exists (rm_pool s) q;
  d_this : pp_exists (rm_pool s) (pid_of s0 n);
  d_count : pp_count (rm_pool s) (fd_ s0) = c;
  d_fd : fd_ s = fd_ s0;
  d_hdr : file_hdr_ s = h;
  d_locks : rm_locks s = lk
}.

Lemma editing_len s0 n f b d h lk c s : editing s0 n f b d h lk c s -> length d = page_len.
Proof.
  intros E. destruct (pp_leased_page _ _ (e_lease _ _ _ _ _ _ _ _ _ E)) as (p & _ & _ & Hd & Hl).
  simpl in Hd. rewrite (e_data _ _ _ _ _ _ _ _ _ E) in Hd. by rewrite <- Hd.
Qed.

Lemma editing_page s0 n f b d h lk c s : editing s0 n f b d h lk c s ->
  exists p, page_of f s = (Ret p, s) /\ data_ p = d /\ id_ p = pid_of s0 n.
Proof.
  intros E. destruct (pp_leased_page _ _ (e_lease _ _ _ _ _ _ _ _ _ E)) as (p & Hp & Hid & Hd & _). simpl in *.
  exists p. unfold page_of. rewrite Hp. split_and!; [done|by rewrite Hd, (e_data _ _ _ _ _ _ _ _ _ E)|done].
Qed.

Lemma editing_fetch s0 (n : Z) :
  pp_idle (rm_pool s0) -> 1 <= n -> pp_exists (rm_pool s0) (pid_of s0 n) ->
  exists f s, fetch_page_handle n s0 = (Ret f, s) /\
    editing s0 n f false (pg s0 n) (file_hdr_ s0) (rm_locks s0) (pp_count (rm_pool s0) (fd_ s0)) s.
Proof.
  intros Hi Hn Hex. destruct (pp_fetch_ok _ _ Hi Hex) as (f & t' & E & Hl & L & Ex & _ & Ec).
  exists f, (set_pool t' s0). unfold fetch_page_handle, INVALID_PAGE_ID. destruct (Z.eqb_spec n (-1)); [lia|].
  erewrite bind_run by reflexivity. erewrite bind_run by (apply zoom_run; exact E). split; [done|].
  assert (data_page (pid_of s0 n)) as Hd by (unfold data_page; simpl; lia).
  split; simpl; try done; [by apply L|intros q Hq _; by apply L|by apply Ex].
Qed.

Lemma editing_change s0 n f b d h lk c s (g : list Z -> option (list Z)) (d' : list Z) :
  editing s0 n f b d h lk c s -> g d = Some d' -> length d' = page_len ->
  exists s', change f g s = (Ret tt, s') /\ editing s0 n f true d' h lk c s'.
Proof.
  intros E Hg Hl. destruct (editing_page _ _ _ _ _ _ _ _ _ E) as (p & Hp & Hd & _).
  destruct (pp_update_ok _ _ (fun _ => d') (e_lease _ _ _ _ _ _ _ _ _ E) Hl) as (t' & Hu & Hle & Hlog & Hoth & Hex & _ & Hc).
  simpl in *. exists (set_pool t' s). unfold change. rewrite (bind_run _ _ _ _ _ Hp), Hd, Hg.
  erewrite bind_run by reflexivity. split; [by apply zoom_run|]. destruct E. split; simpl; try done.
  - intros q Hq Hne. rewrite Hoth by done. auto.
  - intros q Hq. auto.
  - auto.
  - by rewrite Hc.
Qed.

Lemma editing_locks s0 n f b d h lk c s {A} (m : M Lock.LockManager A) (r : outcome A) (lk' : Lock.LockManager) :
  editing s0 n f b d h lk c s -> m lk = (r, lk') ->
  on_locks m s = (r, set_locks lk' s) /\ editing s0 n f b d h lk' c (set_locks lk' s).
Proof.
  intros E Hm. split; [apply zoom_run; by rewrite (e_locks _ _ _ _ _ _ _ _ _ E)|].
  destruct E. by split.
Qed.

Lemma editing_set_hdr s0 n f b d h lk c s (h' : RmFileHdr) :
  editing s0 n f b d h lk c s -> editing s0 n f b d h' lk c (set_hdr h' s).
Proof. intros []. by split. Qed.

Lemma length_rm_hdr_bytes (h : RmFileHdr) : length (hdr_bytes h) = 20%nat.
Proof. unfold hdr_bytes. rewrite !length_app, !length_i32_bytes. done. Qed.

Lemma editing_write_hdr s0 n f b d h lk c s :
  editing s0 n f b d h lk c s -> exists s', write_hdr s = (Ret tt, s') /\ editing s0 n f b d h lk c s'.
Proof.
  intros E. pose proof (e_lease _ _ _ _ _ _ _ _ _ E) as Hle.
  destruct (pp_header_ok _ _ (hdr_bytes h) SIZEOF_RmFileHdr Hle) as (t' & Hw & Hle' & L & Ex & _ & Hc).
  { by rewrite length_rm_hdr_bytes. } { done. }
  exists (set_pool t' s). unfold write_hdr. erewrite bind_run by reflexivity. erewrite bind_run by reflexivity.
  rewrite (e_fd _ _ _ _ _ _ _ _ _ E), (e_hdr _ _ _ _ _ _ _ _ _ E). split; [apply zoom_run; exact Hw|].
  assert (data_page (pid_of s0 n)) as Hd by (unfold data_page; simpl; apply E).
  destruct E. split; simpl; try done.
  - by rewrite L.
  - intros q Hq Hne. rewrite L by done. auto.
  - auto.
  - auto.
  - by rewrite Hc.
Qed.

Lemma editing_unpin s0 n f b d h lk c s (b' : bool) :
  editing s0 n f b d h lk c s -> (b = true -> b' = true) ->
  exists s', on_pool (pp_unpin (pid_of s0 n) b') s = (Ret true, s') /\ edited s0 n d h lk c s'.
Proof.
  intros E Hb. destruct (pp_unpin_ok _ _ b' (e_lease _ _ _ _ _ _ _ _ _ E) Hb) as (t' & Hu & Hi & L & Ex & _ & Hc).
  exists (set_pool t' s). split; [by apply zoom_run|].
  assert (data_page (pid_of s0 n)) as Hd by (unfold data_page; simpl; apply E).
  destruct E. split; simpl; try done.
  - by rewrite L.
  - intros q Hq Hne. rewrite L by done. auto.
  - auto.
  - auto.
  - by rewrite Hc.
Qed.

Lemma editing_flush s0 n f b d h lk c s :
  editing s0 n f b d h lk c s ->
  exists s', on_pool (pp_flush (pid_of s0 n)) s = (Ret true, s') /\ editing s0 n f b d h lk c s'.
Proof.
  intros E. destruct (pp_flush_ok _ _ (e_lease _ _ _ _ _ _ _ _ _ E)) as (t' & Hu & Hi & L & Ex & _ & Hc).
  exists (set_pool t' s). split; [by apply zoom_run|].
  assert (data_page (pid_of s0 n)) as Hd by (unfold data_page; simpl; apply E).
  destruct E. split; simpl; try done.
  - by rewrite L.
  - intros q Hq Hne. rewrite L by done. auto.
  - auto.
  - auto.
  - by rewrite Hc.
Qed.

(** [stamp_lsn] changes the page's log sequence number only. *)
Lemma editing_stamp s0 n f b d h lk c s (txn : Z) (t : Transaction) :
  editing s0 n f b d h lk c s -> Lock.txns lk !! txn = Some t ->
  exists s', stamp_lsn f (Some txn) s = (Ret tt, s') /\
    editing s0 n f true (set_lsn (prev_lsn_ t) d) h lk c s'.
Proof.
  intros E Ht. unfold stamp_lsn.
  destruct (editing_locks _ _ _ _ _ _ _ _ _ (Lock.get_txn txn) (Ret t) lk E) as [H1 E1].
  { unfold Lock.get_txn. by rewrite Ht. }
  rewrite (bind_run _ _ _ _ _ H1). apply (editing_change _ _ _ _ _ _ _ _ _ _ _ E1); [done|].
  pose proof (editing_len _ _ _ _ _ _ _ _ _ E) as Hl. unfold set_lsn. rewrite length_splice; [done|].
  rewrite length_i32_bytes, Hl. unfold page_len, PAGE_SIZE. lia.
Qed.

(** ** The invariant and the abstract table *)

Record file_ok (s : FH) : Prop := {
  fo_table : table_ok (file_hdr_ s) (pg s);
  fo_idle : pp_idle (rm_pool s);
  fo_count : pp_count (rm_pool s) (fd_ s) = num_pages (file_hdr_ s);
  fo_exists : forall n, 1 <= n < num_pages (file_hdr_ s) -> pp_exists (rm_pool s) (pid_of s n);
  fo_small : in_i32 (num_pages (file_hdr_ s)) = true;
  fo_locks : LockFacts.inv (rm_locks s)
}.

(** The table as a partial map from record positions to records. *)
Definition lookup (s : FH) (rid : Rid) : option (list Z) :=
  if (1 <=? rid_page_no rid) && (rid_page_no rid <? num_pages (file_hdr_ s))
  then slot_of (file_hdr_ s) (pg s (rid_page_no rid)) (rid_slot_no rid) else None.

(** The file may grow by a page when it has no page with room. *)
Definition room (s : FH) : Prop :=
  first_free_page_no (file_hdr_ s) = RM_NO_PAGE ->
  pp_file (rm_pool s) (fd_ s) /\ in_i32 (num_pages (file_hdr_ s) + 1) = true.

(** Headers that describe the same page layout. *)
Definition same_layout (h h' : RmFileHdr) : Prop :=
  record_size h' = record_size h /\ num_records_per_page h' = num_records_per_page h /\ bitmap_size h' = bitmap_size h.

Lemma slot_of_layout (h h' : RmFileHdr) (d : list Z) (m : Z) : same_layout h h' -> slot_of h' d m = slot_of h d m.
Proof. intros (E1 & E2 & E3). unfold slot_of, raw_slot, slot_off. by rewrite E1, E2, E3. Qed.

Lemma lookup_Some_inv (s : FH) (rid : Rid) (r : list Z) :
  lookup s rid = Some r ->
  1 <= rid_page_no rid < num_pages (file_hdr_ s) /\ in_page (file_hdr_ s) (rid_slot_no rid) /\
  used (pg s (rid_page_no rid)) (rid_slot_no rid) = true /\
  r = raw_slot (file_hdr_ s) (rid_slot_no rid) (pg s (rid_page_no rid)).
Proof.
  unfold lookup, slot_of, in_page. intros H.
  destruct (Z.leb_spec 1 (rid_page_no rid)), (Z.ltb_spec (rid_page_no rid) (num_pages (file_hdr_ s))); simpl in H; try done.
  destruct (Z.leb_spec 0 (rid_slot_no rid)), (Z.ltb_spec (rid_slot_no rid) (num_records_per_page (file_hdr_ s))); simpl in H; try done.
  destruct (used _ _); [|done]. by injection H as <-.
Qed.

Lemma lookup_page (s : FH) (n m : Z) :
  1 <= n < num_pages (file_hdr_ s) -> lookup s (mkRid n m) = slot_of (file_hdr_ s) (pg s n) m.
Proof. intros [H1 H2]. unfold lookup. simpl. by rewrite (proj2 (Z.leb_le _ _) H1), (proj2 (Z.ltb_lt _ _) H2). Qed.

Lemma file_page_len (s : FH) (n : Z) : file_ok s -> 1 <= n < num_pages (file_hdr_ s) -> length (pg s n) = page_len.
Proof. intros F Hn. apply pp_length; [apply F|by apply F]. Qed.

(** The pages of the file after page [n] was changed to [d]. *)
Lemma edited_pages (s0 s : FH) (n : Z) (d : list Z) (h : RmFileHdr) (lk : Lock.LockManager) (c : Z) :
  edited s0 n d h lk c s -> pg s n = d /\ forall m, 1 <= m -> m <> n -> pg s m = pg s0 m.
Proof.
  intros E. unfold pg, pid_of. rewrite (d_fd _ _ _ _ _ _ _ E). split; [apply E|].
  intros m Hm Hne. apply E; [done|]. unfold pid_of. congruence.
Qed.

(** Either the file kept its pages or the edited page is the new last one. *)
Definition grown (h0 h : RmFileHdr) (n : Z) : Prop :=
  (num_pages h = num_pages h0 /\ 1 <= n < num_pages h0) \/ (num_pages h = num_pages h0 + 1 /\ n = num_pages h0).

Lemma edited_file_ok (s0 s : FH) (n : Z) (d : list Z) (h : RmFileHdr) (lk : Lock.LockManager) (c : Z) :
  file_ok s0 -> edited s0 n d h lk c s -> table_ok h (pg s) -> c = num_pages h -> grown (file_hdr_ s0) h n ->
  in_i32 (num_pages h) = true -> LockFacts.inv lk -> file_ok s.
Proof.
  intros F E Ht Hc Hg Hi Hl. split.
  - by rewrite (d_hdr _ _ _ _ _ _ _ E).
  - apply E.
  - by rewrite (d_hdr _ _ _ _ _ _ _ E), (d_fd _ _ _ _ _ _ _ E), (d_count _ _ _ _ _ _ _ E).
  - rewrite (d_hdr _ _ _ _ _ _ _ E). unfold pid_of. rewrite (d_fd _ _ _ _ _ _ _ E). intros m Hm.
    destruct (decide (m = n)) as [->|Hne]; [exact (d_this _ _ _ _ _ _ _ E)|]. apply (d_exists _ _ _ _ _ _ _ E), F. unfold grown in Hg. lia.
  - by rewrite (d_hdr _ _ _ _ _ _ _ E).
  - by rewrite (d_locks _ _ _ _ _ _ _ E).
Qed.

(** One slot of one page changed: so did exactly one entry of the table. *)
Lemma pages_lookup (s0 s : FH) (n slot : Z) (d : list Z) (r : option (list Z)) (h : RmFileHdr) (rid : Rid) :
  file_hdr_ s = h -> pg s n = d -> (forall m, 1 <= m -> m <> n -> pg s m = pg s0 m) ->
  same_layout (file_hdr_ s0) h -> grown (file_hdr_ s0) h n -> 1 <= num_pages (file_hdr_ s0) ->
  (forall m, slot_of (file_hdr_ s0) d m = if decide (m = slot) then r else lookup s0 (mkRid n m)) ->
  lookup s rid = if decide (rid = mkRid n slot) then r else lookup s0 rid.
Proof.
  intros Eh Pn Pm Hl Hg H1 Hd. destruct rid as [a b].
  unfold lookup at 1. rewrite Eh. simpl. destruct (decide (a = n)) as [->|Hne].
  - rewrite (proj2 (Z.leb_le 1 n)), (proj2 (Z.ltb_lt _ _)) by (unfold grown in Hg; lia). simpl.
    rewrite Pn, (slot_of_layout (file_hdr_ s0) h) by done. rewrite Hd.
    destruct (decide (b = slot)) as [->|Hb]; [by rewrite decide_True|rewrite decide_False; congruence].
  - rewrite decide_False by congruence. unfold lookup. simpl.
    assert ((a <? num_pages h) = (a <? num_pages (file_hdr_ s0))) as ->.
    { destruct (Z.ltb_spec a (num_pages h)), (Z.ltb_spec a (num_pages (file_hdr_ s0))); try done; unfold grown in Hg; lia. }
    destruct (Z.leb_spec 1 a); [|done]. simpl. rewrite Pm by done. by rewrite (slot_of_layout (file_hdr_ s0) h).
Qed.

Lemma edited_lookup (s0 s : FH) (n slot : Z) (d : list Z) (r : option (list Z)) (h : RmFileHdr) (lk : Lock.LockManager) (c : Z) (rid : Rid) :
  edited s0 n d h lk c s -> same_layout (file_hdr_ s0) h -> grown (file_hdr_ s0) h n -> 1 <= num_pages (file_hdr_ s0) ->
  (forall m, slot_of (file_hdr_ s0) d m = if decide (m = slot) then r else lookup s0 (mkRid n m)) ->
  lookup s rid = if decide (rid = mkRid n slot) then r else lookup s0 rid.
Proof.
  intros E. destruct (edited_pages _ _ _ _ _ _ _ E) as [Pn Pm].
  apply (pages_lookup s0 s n slot d r h rid); [apply E|done|done].
Qed.

(** While a page is leased the table can be read off in the same way. *)
Lemma editing_lookup (s0 s : FH) (n slot f : Z) (b : bool) (d : list Z) (r : option (list Z)) (h : RmFileHdr) (lk : Lock.LockManager) (c : Z) (rid : Rid) :
  editing s0 n f b d h lk c s -> same_layout (file_hdr_ s0) h -> grown (file_hdr_ s0) h n -> 1 <= num_pages (file_hdr_ s0) ->
  (forall m, slot_of (file_hdr_ s0) d m = if decide (m = slot) then r else lookup s0 (mkRid n m)) ->
  lookup s rid = if decide (rid = mkRid n slot) then r else lookup s0 rid.
Proof.
  intros E. apply (pages_lookup s0 s n slot d r h rid); [apply E|..]; unfold pg, pid_of; rewrite (e_fd _ _ _ _ _ _ _ _ _ E).
  - apply E.
  - intros m Hm Hne. apply E; [done|]. unfold pid_of. congruence.
Qed.

Lemma file_ok_locks (s : FH) (lk : Lock.LockManager) :
  file_ok s -> LockFacts.inv lk -> file_ok (set_locks lk s) /\ forall rid, lookup (set_locks lk s) rid = lookup s rid.
Proof. intros [] Hl. split; [by split|done]. Qed.

(** [update_record] unpins first and stamps the page afterwards. *)
Lemma editing_unpin_stamp s0 n f b d h lk c s (txn : Z) (t : Transaction) :
  editing s0 n f b d h lk c s -> Lock.txns lk !! txn = Some t ->
  exists s1 s', on_pool (pp_unpin (pid_of s0 n) true) s = (Ret true, s1) /\ stamp_lsn f (Some txn) s1 = (Ret tt, s') /\
    edited s0 n (set_lsn (prev_lsn_ t) d) h lk c s'.
Proof.
  intros E Ht. destruct (editing_unpin _ _ _ _ _ _ _ _ _ true E) as (s1 & R1 & D1); [done|].
  pose proof R1 as (t1 & Hu & ->)%zoom_inv. pose proof (editing_len _ _ _ _ _ _ _ _ _ E) as Hl.
  assert (length (set_lsn (prev_lsn_ t) d) = page_len) as Hl'.
  { unfold set_lsn. rewrite length_splice; [done|]. rewrite length_i32_bytes, Hl. unfold page_len, PAGE_SIZE. lia. }
  destruct (pp_late_ok _ _ t1 (fun _ => set_lsn (prev_lsn_ t) d) (e_lease _ _ _ _ _ _ _ _ _ E) Hu Hl')
    as ((p & Hp & Hd) & t2 & H2 & Hi & Hlog & Hoth & Hex & _ & Hc). simpl in *.
  rewrite (e_data _ _ _ _ _ _ _ _ _ E) in Hd. exists (set_pool t1 s), (set_pool t2 s). split_and!; [done| |].
  - unfold stamp_lsn. erewrite bind_run.
    2: { apply zoom_run. simpl. rewrite (e_locks _ _ _ _ _ _ _ _ _ E). unfold Lock.get_txn. by rewrite Ht. }
    unfold change, page_of. simpl. unfold mbind at 1, M_bind at 1.
    change (rm_pool (set_locks lk (set_pool t1 s))) with t1. rewrite Hp, Hd. erewrite bind_run by reflexivity.
    etransitivity; [exact (zoom_run rm_pool set_pool _ (set_locks lk (set_pool t1 s)) _ _ H2)|]. unfold set_pool, set_locks. simpl. by rewrite (e_locks _ _ _ _ _ _ _ _ _ E).
  - destruct E. split; simpl; try done; auto.
    + intros q Hq Hne. rewrite Hoth by done. auto.
    + by rewrite Hc.
Qed.

(** A lock request that returns leaves the transaction in place. *)
Lemma lock_returns (op : LockSpec.LockOp) (txn : Z) (lk lk' : Lock.LockManager) (b : bool) :
  LockFacts.inv lk -> is_Some (Lock.txns lk !! txn) -> LockSpec.op_run op txn lk = (Ret b, lk') ->
  LockFacts.inv lk' /\ is_Some (Lock.txns lk' !! txn).
Proof.
  intros I Ht Hrun. destruct (LockSpec.op_result op txn lk lk' _ I Hrun) as [I' _ Hout _]. split; [done|].
  destruct b; [|by subst]. destruct Hout as (m' & (q & r & Hq & Hr & Er & _) & _).
  destruct (LockFacts.l_set _ I' _ q r Hq Hr) as (t & Hx & _). rewrite Er in Hx. by eauto.
Qed.

End facts.
End RmFacts.
