(* ===== verification/RmSpec.v ===== *)
(** * The record manager's contract

    A table file is a partial map from record positions to records; insert,
    get, update and delete act on it as on a map, whatever the page contents,
    and the scan enumerates its domain. *)

From Stdlib Require Import Sorting.Sorted.
From S2P Require Import Prelude Bytes Bitmap Posix Disk Replacer BufferPool BufferPoolFacts BufferPoolSpec PagePool Txn Lock LockFacts LockSpec RmFile RmPageFacts RmTable RmFileFacts.
Import Disk.

Module RmSpec.
Import Rm RmFacts.
Section spec.
Context {T : Type} {PO : PagePool T} {PL : PagePoolLaws T}.
Abbreviation FH := (RmFileHandle T).
Implicit Types s : FH.

Lemma int_op_run {St : Type} (z : Z) (st : St) : in_i32 z = true -> int_op z st = (Ret z, st).
Proof. intros H. unfold int_op. by rewrite H. Qed.

Lemma bind_unwrap {St A B : Type} (w : fault) (a : A) (k : A -> M St B) (st : St) : (unwrap w (Some a) ≫= k) st = k a st.
Proof. reflexivity. Qed.

(** ** A page with room *)

(** What [create_page_handle] hands out: the leased head of the free list. *)
Record with_room (s0 : FH) (f n : Z) (b : bool) (d : list Z) (h : RmFileHdr) (s : FH) : Prop := {
  wr_edit : editing s0 n f b d h (rm_locks s0) (num_pages h) s;
  wr_table : table_ok h (fun m => if decide (m = n) then d else pg s0 m);
  wr_first : first_free_page_no h = n;
  wr_layout : same_layout (file_hdr_ s0) h;
  wr_grown : grown (file_hdr_ s0) h n;
  wr_small : in_i32 (num_pages h) = true;
  wr_space : num_records d < num_records_per_page h;
  wr_slots : forall m, slot_of (file_hdr_ s0) d m = lookup s0 (mkRid n m)
}.

Lemma new_page_handle_ok (s0 : FH) :
  file_ok s0 -> room s0 -> first_free_page_no (file_hdr_ s0) = RM_NO_PAGE ->
  exists f n d h s, create_new_page_handle s0 = (Ret f, s) /\ with_room s0 f n true d h s.
Proof.
  intros F R Hff. destruct (R Hff) as [Hfile Hi]. pose proof (fo_table _ F) as Tb. pose proof (tb_layout _ _ Tb) as L.
  pose proof (tb_pages _ _ Tb) as Hnp. pose proof (lo_n _ L) as Hper.
  destruct (pp_new_ok _ _ (fo_idle _ F) Hfile) as (f & t1 & E & Hle & Hz & Hoth & Hex & Hthis & Hc & _).
  rewrite (fo_count _ F) in *. set (n := num_pages (file_hdr_ s0)) in *.
  assert (editing s0 n f true zero_page (file_hdr_ s0) (rm_locks s0) (n + 1) (set_pool t1 s0)) as E0 by (by split).
  assert (length zero_page = page_len) as Hzl by apply length_replicate.
  destruct (set_next_free_spec (file_hdr_ s0) L RM_NO_PAGE zero_page eq_refl Hzl) as ([N1 _ _] & N2 & _).
  destruct (editing_change _ _ _ _ _ _ _ _ _ (fun d => Some (set_next_free RM_NO_PAGE d)) _ E0 eq_refl N1) as (s2 & R2 & E2).
  destruct (set_num_records_spec (file_hdr_ s0) L 0 _ eq_refl N1) as ([M1 _ _] & M2 & M3).
  destruct (editing_change _ _ _ _ _ _ _ _ _ (fun d => Some (set_num_records 0 d)) _ E2 eq_refl M1) as (s3 & R3 & E3).
  destruct (init_bits_spec (file_hdr_ s0) L _ M1) as (d & B & B1 & B2 & B3 & B4).
  destruct (editing_change _ _ _ _ _ _ _ _ _ _ _ E3 B B1) as (s4 & R4 & E4).
  destruct (editing_flush _ _ _ _ _ _ _ _ _ E4) as (s5 & R5 & E5).
  set (h := set_first_free n (set_num_pages (n + 1) (file_hdr_ s0))).
  destruct (editing_write_hdr _ _ _ _ _ _ _ _ _ (editing_set_hdr _ _ _ _ _ _ _ _ _ h E5)) as (s6 & R6 & E6).
  assert (forall m, slot_of (file_hdr_ s0) d m = None) as Hempty.
  { intros m. destruct (decide (in_page (file_hdr_ s0) m)) as [Hm|Hm]; [|by apply slot_of_out].
    rewrite slot_of_in, B4 by done. done. }
  exists f, n, d, h, s6. split.
  - unfold create_new_page_handle. erewrite bind_run by reflexivity. erewrite bind_run by (apply zoom_run; exact E).
    cbv beta iota. rewrite (bind_run _ _ _ _ _ R2), (bind_run _ _ _ _ _ R3). erewrite bind_run by reflexivity.
    rewrite (e_hdr _ _ _ _ _ _ _ _ _ E3), (bind_run _ _ _ _ _ R4). rewrite (bind_run _ _ _ _ _ R5).
    rewrite (bind_run _ _ _ _ _ (int_op_run _ _ Hi)). erewrite bind_run by reflexivity. simpl.
    by rewrite (bind_run _ _ _ _ _ R6).
  - split; [exact E6| |reflexivity|by split_and!| |exact Hi| |].
    + apply (table_new (file_hdr_ s0) (pg s0) _ n Tb); [|done|done|..]; rewrite ?decide_True by done.
      * intros m _ Hne. by rewrite decide_False.
      * unfold page_ok. rewrite B3, M2. symmetry. apply Bitmap.popcount_empty; [lia|]. intros q Hq. by apply B4.
      * by rewrite B3.
      * by rewrite B2, M3.
    + right. split; reflexivity.
    + rewrite B3, M2. simpl. lia.
    + intros m. rewrite Hempty. unfold lookup. simpl. fold n. by rewrite Z.ltb_irrefl, andb_false_r.
Qed.

Lemma create_page_handle_ok (s0 : FH) :
  file_ok s0 -> room s0 ->
  exists f n b d h s, create_page_handle s0 = (Ret f, s) /\ with_room s0 f n b d h s.
Proof.
  intros F R. pose proof (fo_table _ F) as Tb. unfold create_page_handle. erewrite bind_run by reflexivity.
  destruct (Z.eqb_spec (first_free_page_no (file_hdr_ s0)) RM_NO_PAGE) as [E|E].
  - destruct (new_page_handle_ok s0 F R E) as (f & n & d & h & s & H1 & H2). by exists f, n, true, d, h, s.
  - set (n := first_free_page_no (file_hdr_ s0)) in *. destruct (tb_free _ _ Tb) as (L & Hnd & Hc & Hl).
    destruct (chain_head _ _ _ _ Hc E) as (L' & -> & Hn & _).
    destruct (editing_fetch s0 n (fo_idle _ F)) as (f & s & Hr & Ed); [lia|by apply F|].
    exists f, n, false, (pg s0 n), (file_hdr_ s0), s. split; [done|]. rewrite (fo_count _ F) in Ed. split; try done.
    + apply (table_same _ (pg s0) _ n Tb); rewrite ?decide_True by done; try done; [|by apply Tb].
      intros m _ Hne. by rewrite decide_False.
    + left. done.
    + apply F.
    + apply Hl; [done|left].
    + intros m. by rewrite lookup_page.
Qed.

(** ** Inserting *)

Section inserting.
Context (s0 : FH) (F : file_ok s0) (f n : Z) (b : bool) (d : list Z) (h : RmFileHdr) (s1 : FH).
Context (W : with_room s0 f n b d h s1).

Let L : layout_ok h := tb_layout _ _ (wr_table _ _ _ _ _ _ _ W).

Lemma wr_page_ok : page_ok h d.
Proof.
  pose proof (tb_counts _ _ (wr_table _ _ _ _ _ _ _ W) n) as H. simpl in H. rewrite decide_True in H by done.
  apply H. pose proof (tb_pages _ _ (fo_table _ F)). pose proof (wr_grown _ _ _ _ _ _ _ W) as G. unfold grown in G. lia.
Qed.

Lemma wr_page_len : length d = page_len.
Proof. eapply editing_len, (wr_edit _ _ _ _ _ _ _ W). Qed.

(** From the lock on, the insertion runs to completion. *)
Lemma insert_rest (txn slot : Z) (buf : list Z) (lk : Lock.LockManager) :
  in_page h slot -> used d slot = false -> record_size h <= Z.of_nat (length buf) ->
  LockFacts.inv lk -> is_Some (Lock.txns lk !! txn) ->
  exists s', (change f (write_slot h slot buf) ;;
    change f (on_bitmap (fun bm => Bitmap.set bm slot)) ;;
    p ← page_of f;
    x ← int_op (num_records (data_ p) + 1);
    change f (fun e => Some (set_num_records x e)) ;;
    (if x =? num_records_per_page h then
       modify (set_hdr (set_first_free (next_free_page_no (data_ p)) h)) ;; write_hdr
     else mret tt) ;;
    stamp_lsn f (Some txn) ;;
    _ ← on_pool (pp_unpin (pid_of s0 n) true);
    mret (mkRid n slot)) (set_locks lk s1) = (Ret (mkRid n slot), s') /\
  file_ok s' /\ rm_locks s' = lk /\ same_layout (file_hdr_ s0) (file_hdr_ s') /\
  forall rid, lookup s' rid = if decide (rid = mkRid n slot) then Some (take (Z.to_nat (record_size h)) buf) else lookup s0 rid.
Proof.
  intros Hs Hu Hbuf Il [tx Htx]. pose proof (wr_edit _ _ _ _ _ _ _ W) as E0.
  assert (editing s0 n f b d h lk (num_pages h) (set_locks lk s1)) as E1 by (destruct E0; by split).
  destruct (page_insert h L d wr_page_len wr_page_ok slot buf (prev_lsn_ tx) Hs Hu Hbuf)
    as (d1 & d2 & H1 & H2 & H3 & H4 & H5 & H6 & Hi & H7 & H8 & H9 & H10 & H11 & H12).
  set (d3 := set_num_records (num_records d + 1) d2) in *. set (e := set_lsn (prev_lsn_ tx) d3) in *.
  destruct (editing_change _ _ _ _ _ _ _ _ _ _ _ E1 H1 H2) as (s2 & R2 & E2).
  destruct (editing_change _ _ _ _ _ _ _ _ _ _ _ E2 H3 H4) as (s3 & R3 & E3).
  destruct (editing_page _ _ _ _ _ _ _ _ _ E3) as (p & Rp & Ep & _).
  destruct (editing_change _ _ _ _ _ _ _ _ _ (fun e => Some (set_num_records (num_records d + 1) e)) _ E3 eq_refl H7) as (s4 & R4 & E4).
  set (h' := if num_records e =? num_records_per_page h then set_first_free (next_free_page_no e) h else h).
  assert (exists s5, (if num_records d + 1 =? num_records_per_page h then
       modify (set_hdr (set_first_free (next_free_page_no (data_ p)) h)) ;; write_hdr else mret tt) s4 = (Ret tt, s5) /\
     editing s0 n f true d3 h' lk (num_pages h) s5) as (s5 & R5 & E5).
  { unfold h'. rewrite H10, Ep, H6, H11. destruct (num_records d + 1 =? num_records_per_page h); [|by exists s4].
    erewrite bind_run by reflexivity. apply editing_write_hdr, (editing_set_hdr _ _ _ _ _ _ _ _ _ _ E4). }
  destruct (editing_stamp _ _ _ _ _ _ _ _ _ txn tx E5 Htx) as (s6 & R6 & E6).
  destruct (editing_unpin _ _ _ _ _ _ _ _ _ true E6) as (s7 & R7 & D7); [done|]. fold e in D7.
  assert (same_layout (file_hdr_ s0) h' /\ num_pages h' = num_pages h) as [Hl Hnp].
  { destruct (wr_layout _ _ _ _ _ _ _ W) as (A & B & C). unfold h'. by destruct (_ =? _). }
  assert (grown (file_hdr_ s0) h' n) as G by (unfold grown; rewrite Hnp; apply W).
  exists s7. split_and!.
  - rewrite (bind_run _ _ _ _ _ R2), (bind_run _ _ _ _ _ R3), (bind_run _ _ _ _ _ Rp), Ep, H5.
    rewrite (bind_run _ _ _ _ _ (int_op_run _ _ Hi)), (bind_run _ _ _ _ _ R4). rewrite Ep in R5.
    rewrite (bind_run _ _ _ _ _ R5), (bind_run _ _ _ _ _ R6), (bind_run _ _ _ _ _ R7). reflexivity.
  - destruct (edited_pages _ _ _ _ _ _ _ D7) as [Pn Pm].
    apply (edited_file_ok s0 s7 n e h' lk (num_pages h) F D7); [|by rewrite Hnp|done|rewrite Hnp; apply W|done].
    unfold h'. rewrite <- Pn. apply (table_insert h _ (pg s7) n (wr_table _ _ _ _ _ _ _ W)).
    + intros m Hm Hne. rewrite decide_False by done. by apply Pm.
    + apply W.
    + pose proof (tb_pages _ _ (fo_table _ F)). unfold grown in G. unfold RM_NO_PAGE. lia.
    + by rewrite Pn.
    + by rewrite Pn, H10, decide_True.
    + by rewrite Pn, H11, decide_True.
  - apply D7.
  - by rewrite (d_hdr _ _ _ _ _ _ _ D7).
  - intros rid. apply (edited_lookup s0 s7 n slot e _ h' lk _ rid D7 Hl G); [apply (fo_table _ F)|].
    intros m. rewrite <- (wr_slots _ _ _ _ _ _ _ W), <- !(slot_of_layout (file_hdr_ s0) h) by apply W. apply H12.
Qed.

End inserting.

(** ** The operations as operations on a map *)

(** Outcome of a lock request for an existing transaction: returned or thrown. *)
Lemma lock_cases (op : LockSpec.LockOp) (txn : Z) (lk : Lock.LockManager) :
  LockFacts.inv lk -> is_Some (Lock.txns lk !! txn) ->
  (exists b lk', LockSpec.op_run op txn lk = (Ret b, lk') /\ LockFacts.inv lk' /\ is_Some (Lock.txns lk' !! txn)) \/
  (exists e lk', LockSpec.op_run op txn lk = (Throw e, lk') /\ LockFacts.inv lk').
Proof.
  intros I Ht. destruct (LockSpec.op_run op txn lk) as [[b|e|w] lk'] eqn:E.
  - left. exists b, lk'. split; [done|]. by apply (lock_returns op txn lk lk' b).
  - right. exists e, lk'. split; [done|]. by apply (LockSpec.op_result op txn lk lk' _ I E).
  - destruct (LockSpec.op_result op txn lk lk' _ I E) as [_ _ Hout _]. simpl in Hout. rewrite Hout in Ht. by destruct Ht.
Qed.

Lemma insert_record_any (s : FH) (buf : list Z) (txn : Z) :
  file_ok s -> room s -> record_size (file_hdr_ s) <= Z.of_nat (length buf) -> is_Some (Lock.txns (rm_locks s) !! txn) ->
  exists rid, lookup s rid = None /\
    match Lock.lock_exclusive_on_record txn rid (fd_ s) (rm_locks s) with
    | (Ret _, lk) => exists s', insert_record buf (Some txn) s = (Ret rid, s') /\ file_ok s' /\ rm_locks s' = lk /\
        same_layout (file_hdr_ s) (file_hdr_ s') /\
        forall rid', lookup s' rid' =
          if decide (rid' = rid) then Some (take (Z.to_nat (record_size (file_hdr_ s))) buf) else lookup s rid'
    | (Throw e, lk) => exists s', insert_record buf (Some txn) s = (Throw e, s') /\ rm_locks s' = lk /\
        (exists f b, pp_leased (mkLease (pid_of s (rid_page_no rid)) f b) (rm_pool s')) /\
        forall rid', lookup s' rid' = lookup s rid'
    | (Stuck _, _) => False
    end.
Proof.
  intros F R Hbuf Ht. destruct (create_page_handle_ok s F R) as (f & n & b & d & h & s1 & Rc & W).
  pose proof (tb_layout _ _ (wr_table _ _ _ _ _ _ _ W)) as L. pose proof (wr_edit _ _ _ _ _ _ _ W) as E1.
  destruct (free_slot h L d (wr_page_len _ _ _ _ _ _ _ W) (wr_page_ok _ F _ _ _ _ _ _ W)) as (slot & Hsl & Hin & Hu); [apply W|].
  destruct (editing_page _ _ _ _ _ _ _ _ _ E1) as (p & Rp & Ep & Eid).
  assert (record_size (file_hdr_ s) = record_size h) as Ers by (symmetry; apply W).
  assert (1 <= num_pages (file_hdr_ s)) as Hnp by apply (fo_table _ F).
  assert (lookup s (mkRid n slot) = None) as Hnone.
  { rewrite <- (wr_slots _ _ _ _ _ _ _ W), <- (slot_of_layout (file_hdr_ s) h) by apply W. rewrite slot_of_in by done. by rewrite Hu. }
  exists (mkRid n slot). split; [done|].
  assert (insert_record buf (Some txn) s =
    (_ ← on_locks (Lock.lock_exclusive_on_record txn (mkRid n slot) (fd_ s));
     change f (write_slot h slot buf) ;;
     change f (on_bitmap (fun bm => Bitmap.set bm slot)) ;;
     p ← page_of f;
     x ← int_op (num_records (data_ p) + 1);
     change f (fun e => Some (set_num_records x e)) ;;
     (if x =? num_records_per_page h then
        modify (set_hdr (set_first_free (next_free_page_no (data_ p)) h)) ;; write_hdr
      else mret tt) ;;
     stamp_lsn f (Some txn) ;;
     _ ← on_pool (pp_unpin (pid_of s n) true);
     mret (mkRid n slot)) s1) as ->.
  { unfold insert_record. rewrite (bind_run _ _ _ _ _ Rc), (bind_run _ _ _ _ _ Rp). erewrite bind_run by reflexivity.
    rewrite (e_hdr _ _ _ _ _ _ _ _ _ E1), Ep, Hsl, Eid. rewrite !bind_unwrap. erewrite bind_run by reflexivity.
    rewrite (e_fd _ _ _ _ _ _ _ _ _ E1). reflexivity. }
  rewrite Ers in *. destruct (lock_cases (LockSpec.ExclusiveOnRecord (mkRid n slot) (fd_ s)) txn (rm_locks s) (fo_locks _ F) Ht)
    as [(r & lk & El & Il & Htl)|(e & lk & El & Il)]; simpl in El; rewrite El;
    destruct (editing_locks _ _ _ _ _ _ _ _ _ _ _ _ E1 El) as [Rl E2].
  - destruct (insert_rest s F f n b d h s1 W txn slot buf lk Hin Hu Hbuf Il Htl) as (s' & R' & Hrest).
    exists s'. split; [by rewrite (bind_run _ _ _ _ _ Rl)|done].
  - exists (set_locks lk s1). split_and!; [by rewrite (bind_throw _ _ _ _ _ Rl)|done|exists f, b; apply E2|].
    intros rid'. rewrite (editing_lookup s _ n slot f b d None h lk _ rid' E2); [|apply W|apply W|done|].
    + case_decide as E; [by rewrite E, Hnone|done].
    + intros m. rewrite (wr_slots _ _ _ _ _ _ _ W). case_decide as E; [by rewrite E|done].
Qed.

(** A successful insertion, read off from its result. *)
Lemma insert_record_ret (s : FH) (buf : list Z) (txn : Z) (rid : Rid) :
  file_ok s -> room s -> record_size (file_hdr_ s) <= Z.of_nat (length buf) -> is_Some (Lock.txns (rm_locks s) !! txn) ->
  (insert_record buf (Some txn) s).1 = Ret rid -> let s' := (insert_record buf (Some txn) s).2 in
  file_ok s' /\ same_layout (file_hdr_ s) (file_hdr_ s') /\ is_Some (Lock.txns (rm_locks s') !! txn) /\
  forall rid', lookup s' rid' = if decide (rid' = rid) then Some (take (Z.to_nat (record_size (file_hdr_ s))) buf) else lookup s rid'.
Proof.
  intros F R Hb Ht E. destruct (insert_record_any s buf txn F R Hb Ht) as (rid' & _ & H).
  pose proof (lock_returns (LockSpec.ExclusiveOnRecord rid' (fd_ s)) txn (rm_locks s)) as Hlock. simpl in Hlock.
  destruct (Lock.lock_exclusive_on_record txn rid' (fd_ s) (rm_locks s)) as [[b|e|w] lk]; [| |done].
  - destruct H as (s' & Hr & F' & Hk & Hl & Hlook). rewrite Hr in E |- *. simpl in *. injection E as ->.
    split_and!; [done|apply Hl..| |done].
    rewrite Hk. apply (Hlock lk b); [apply F|done|done].
  - destruct H as (s' & Hr & _). rewrite Hr in E. done.
Qed.

(** Giving back a page that was only looked at. *)
Lemma edited_same (s0 s : FH) (n : Z) (lk : Lock.LockManager) (c : Z) :
  file_ok s0 -> 1 <= n < num_pages (file_hdr_ s0) -> edited s0 n (pg s0 n) (file_hdr_ s0) lk c s ->
  c = num_pages (file_hdr_ s0) -> LockFacts.inv lk ->
  file_ok s /\ (forall rid, lookup s rid = lookup s0 rid) /\ rm_locks s = lk /\ file_hdr_ s = file_hdr_ s0 /\ fd_ s = fd_ s0.
Proof.
  intros F Hn D Hc Il. destruct (edited_pages _ _ _ _ _ _ _ D) as [Pn Pm].
  assert (forall m, 1 <= m -> pg s m = pg s0 m) as Pall by (intros m Hm; destruct (decide (m = n)) as [->|]; auto).
  split_and!; try apply D.
  - apply (edited_file_ok s0 s n (pg s0 n) (file_hdr_ s0) lk c F D); try done; [|by left|apply F].
    apply (table_same _ (pg s0) _ n (fo_table _ F)); rewrite ?Pn; auto; by apply (fo_table _ F).
  - intros rid. unfold lookup. rewrite (d_hdr _ _ _ _ _ _ _ D).
    destruct (Z.leb_spec 1 (rid_page_no rid)); [|done]. by rewrite Pall.
Qed.

Lemma get_record_any (s : FH) (rid : Rid) (r : list Z) (txn : Z) :
  file_ok s -> lookup s rid = Some r -> is_Some (Lock.txns (rm_locks s) !! txn) ->
  match Lock.lock_shared_on_record txn rid (fd_ s) (rm_locks s) with
  | (Ret _, lk) => exists s', get_record rid (Some txn) s = (Ret r, s') /\ file_ok s' /\ rm_locks s' = lk /\
      (forall rid', lookup s' rid' = lookup s rid') /\ file_hdr_ s' = file_hdr_ s /\ fd_ s' = fd_ s
  | (Throw e, lk) => get_record rid (Some txn) s = (Throw e, set_locks lk s)
  | (Stuck _, _) => False
  end.
Proof.
  intros F Hr Ht. pose proof (fo_table _ F) as Tb. destruct (lookup_Some_inv _ _ _ Hr) as (Hn & Hs & Hu & ->).
  unfold get_record. rewrite bind_unwrap. erewrite bind_run by reflexivity.
  destruct (lock_cases (LockSpec.SharedOnRecord rid (fd_ s)) txn (rm_locks s) (fo_locks _ F) Ht)
    as [(b & lk & El & Il & Htl)|(e & lk & El & Il)]; simpl in El; rewrite El.
  2: { erewrite bind_throw by (apply zoom_run; exact El). reflexivity. }
  erewrite bind_run by (apply zoom_run; exact El). destruct (file_ok_locks s lk F Il) as [F1 L1].
  destruct (editing_fetch (set_locks lk s) (rid_page_no rid) (fo_idle _ F1)) as (f & s2 & R2 & E2); [lia|by apply F1|].
  destruct (editing_page _ _ _ _ _ _ _ _ _ E2) as (p & Rp & Ep & _).
  destruct (editing_unpin _ _ _ _ _ _ _ _ _ true E2) as (s3 & R3 & D3); [done|].
  destruct (edited_same _ _ _ _ _ F1 Hn D3 (fo_count _ F1) Il) as (F3 & L3 & K3 & H3 & X3).
  exists s3. split_and!; [|done|done|intros rid'; by rewrite L3, L1|done|done].
  rewrite (bind_run _ _ _ _ _ R2), (bind_run _ _ _ _ _ Rp). erewrite bind_run by reflexivity.
  rewrite (e_hdr _ _ _ _ _ _ _ _ _ E2), Ep, (read_slot_spec _ (tb_layout _ _ Tb) _ _ Hs) by by apply file_page_len.
  rewrite bind_unwrap. by rewrite (bind_run _ _ _ _ _ R3).
Qed.

(** [get_record] of a position that holds a record asks for the shared
    lock and, if it is granted, returns exactly that record and leaves the
    table as it was; if the lock is refused it throws with the pages untouched. *)
Theorem get_record_correct (s : FH) (rid : Rid) (r : list Z) (txn : Z) :
  file_ok s -> lookup s rid = Some r -> is_Some (Lock.txns (rm_locks s) !! txn) ->
  match Lock.lock_shared_on_record txn rid (fd_ s) (rm_locks s) with
  | (Ret _, lk) => exists s', get_record rid (Some txn) s = (Ret r, s') /\ file_ok s' /\ rm_locks s' = lk /\
      forall rid', lookup s' rid' = lookup s rid'
  | (Throw e, lk) => get_record rid (Some txn) s = (Throw e, set_locks lk s)
  | (Stuck _, _) => False
  end.
Proof.
  intros F Hr Ht. pose proof (get_record_any s rid r txn F Hr Ht) as H. destruct (Lock.lock_shared_on_record txn rid (fd_ s) (rm_locks s)) as [[b|e|w] lk]; try done.
  destruct H as (s' & R1 & F1 & K1 & L1 & _). by exists s'.
Qed.

Lemma first_free_i32 (s : FH) : file_ok s -> in_i32 (first_free_page_no (file_hdr_ s)) = true.
Proof.
  intros F. destruct (tb_free _ _ (fo_table _ F)) as (L & _ & Hc & _). pose proof (fo_small _ F) as Hi.
  unfold in_i32, INT32_MIN, INT32_MAX in *. destruct L as [|m L]; simpl in Hc; [rewrite Hc; done|].
  destruct Hc as (-> & Hm & _). lia.
Qed.

Section deleting.
Context (s0 : FH) (F : file_ok s0) (rid : Rid) (r : list Z) (Hr : lookup s0 rid = Some r) (txn : Z) (tx : Transaction).
Context (Htx : Lock.txns (rm_locks s0) !! txn = Some tx).

Let n : Z := rid_page_no rid.
Let h : RmFileHdr := file_hdr_ s0.
Let d : list Z := pg s0 n.

(** A full page is put back at the head of the free list. *)
Lemma release_step (f : Z) (s1 : FH) :
  editing s0 n f false d h (rm_locks s0) (num_pages h) s1 ->
  let full := num_records d =? num_records_per_page h in
  exists s2 b, (if full then release_page_handle f else mret tt) s1 = (Ret tt, s2) /\
    editing s0 n f b (if full then set_next_free (first_free_page_no h) d else d)
      (if full then set_first_free n h else h) (rm_locks s0) (num_pages h) s2.
Proof.
  intros E1 full. destruct full; [|by exists s1, false].
  destruct (lookup_Some_inv _ _ _ Hr) as (Hn & _). pose proof (tb_layout _ _ (fo_table _ F)) as L.
  pose proof (file_page_len s0 n F Hn) as Hd. fold d in Hd.
  destruct (set_next_free_spec h L _ d (first_free_i32 s0 F) Hd) as ([N1 _ _] & _).
  destruct (editing_change _ _ _ _ _ _ _ _ _ (fun e => Some (set_next_free (first_free_page_no h) e)) _ E1 eq_refl N1) as (s2 & R2 & E2).
  destruct (editing_page _ _ _ _ _ _ _ _ _ E2) as (p & Rp & _ & Eid).
  destruct (editing_write_hdr _ _ _ _ _ _ _ _ _ (editing_set_hdr _ _ _ _ _ _ _ _ _ (set_first_free n h) E2)) as (s3 & R3 & E3).
  exists s3, true. split; [|done]. unfold release_page_handle. erewrite bind_run by reflexivity.
  rewrite (e_hdr _ _ _ _ _ _ _ _ _ E1), (bind_run _ _ _ _ _ R2), (bind_run _ _ _ _ _ Rp), Eid.
  erewrite bind_run by reflexivity. exact R3.
Qed.

Lemma delete_rest :
  exists s', (f ← fetch_page_handle (rid_page_no rid);
    p ← page_of f;
    h ← gets file_hdr_;
    (if num_records (data_ p) =? num_records_per_page h then release_page_handle f else mret tt) ;;
    p ← page_of f;
    x ← int_op (num_records (data_ p) - 1);
    change f (fun e => Some (set_num_records x e)) ;;
    change f (on_bitmap (fun bm => Bitmap.reset bm (rid_slot_no rid))) ;;
    stamp_lsn f (Some txn) ;;
    _ ← on_pool (pp_unpin (id_ p) true);
    mret tt) s0 = (Ret tt, s') /\
  file_ok s' /\ rm_locks s' = rm_locks s0 /\ same_layout (file_hdr_ s0) (file_hdr_ s') /\ fd_ s' = fd_ s0 /\
  forall rid', lookup s' rid' = if decide (rid' = rid) then None else lookup s0 rid'.
Proof.
  destruct (lookup_Some_inv _ _ _ Hr) as (Hn & Hs & Hu & _). pose proof (fo_table _ F) as Tb. pose proof (tb_layout _ _ Tb) as L.
  destruct (editing_fetch s0 n (fo_idle _ F)) as (f & s1 & R1 & E1); [unfold n; lia|by apply F|].
  rewrite (fo_count _ F) in E1. destruct (editing_page _ _ _ _ _ _ _ _ _ E1) as (p1 & Rp1 & Ep1 & _).
  destruct (release_step f s1 E1) as (s2 & b & R2 & E2).
  pose proof (file_page_len s0 n F Hn) as Hd.
  destruct (page_delete h L d Hd (tb_counts _ _ Tb n Hn) (rid_slot_no rid) (first_free_page_no h) (prev_lsn_ tx) Hs Hu (first_free_i32 s0 F))
    as (P1 & P2 & Hi & P3 & d3 & P4 & P5 & P6 & P7 & P8 & P9 & P10).
  set (d1 := if num_records d =? num_records_per_page h then set_next_free (first_free_page_no h) d else d) in *.
  set (e := set_lsn (prev_lsn_ tx) d3) in *.
  set (h' := if num_records d =? num_records_per_page h then set_first_free n h else h) in *.
  destruct (editing_page _ _ _ _ _ _ _ _ _ E2) as (p2 & Rp2 & Ep2 & Eid2).
  destruct (editing_change _ _ _ _ _ _ _ _ _ (fun e => Some (set_num_records (num_records d - 1) e)) _ E2 eq_refl P3) as (s3 & R3 & E3).
  destruct (editing_change _ _ _ _ _ _ _ _ _ _ _ E3 P4 P5) as (s4 & R4 & E4).
  destruct (editing_stamp _ _ _ _ _ _ _ _ _ txn tx E4 Htx) as (s5 & R5 & E5). fold e in E5.
  destruct (editing_unpin _ _ _ _ _ _ _ _ _ true E5) as (s6 & R6 & D6); [done|].
  assert (same_layout h h' /\ num_pages h' = num_pages h) as [Hl Hnp] by (unfold h'; by destruct (_ =? _)).
  assert (grown h h' n) as G by (left; by rewrite Hnp).
  exists s6. split_and!.
  - fold n. rewrite (bind_run _ _ _ _ _ R1), (bind_run _ _ _ _ _ Rp1). erewrite bind_run by reflexivity.
    rewrite (e_hdr _ _ _ _ _ _ _ _ _ E1), Ep1, (bind_run _ _ _ _ _ R2), (bind_run _ _ _ _ _ Rp2), Ep2, P2.
    rewrite (bind_run _ _ _ _ _ (int_op_run _ _ Hi)), (bind_run _ _ _ _ _ R3), (bind_run _ _ _ _ _ R4), (bind_run _ _ _ _ _ R5), Eid2.
    by rewrite (bind_run _ _ _ _ _ R6).
  - destruct (edited_pages _ _ _ _ _ _ _ D6) as [Pn Pm].
    apply (edited_file_ok s0 s6 n e h' (rm_locks s0) _ F D6); [|by rewrite Hnp|done|rewrite Hnp; apply F|apply F].
    apply (table_delete h (pg s0) (pg s6) n Tb); rewrite ?Pn; done.
  - apply D6.
  - by rewrite (d_hdr _ _ _ _ _ _ _ D6).
  - apply D6.
  - intros rid'. rewrite (edited_lookup s0 s6 n (rid_slot_no rid) e None h' _ _ rid' D6 Hl G); [|apply Tb|].
    + by destruct rid.
    + intros m. rewrite P10. case_decide; [done|]. by rewrite lookup_page.
Qed.

End deleting.

Lemma delete_record_any (s : FH) (rid : Rid) (r : list Z) (txn : Z) :
  file_ok s -> lookup s rid = Some r -> is_Some (Lock.txns (rm_locks s) !! txn) ->
  match Lock.lock_exclusive_on_record txn rid (fd_ s) (rm_locks s) with
  | (Ret _, lk) => exists s', delete_record rid (Some txn) s = (Ret tt, s') /\ file_ok s' /\ rm_locks s' = lk /\
      fd_ s' = fd_ s /\ same_layout (file_hdr_ s) (file_hdr_ s') /\
      forall rid', lookup s' rid' = if decide (rid' = rid) then None else lookup s rid'
  | (Throw e, lk) => delete_record rid (Some txn) s = (Throw e, set_locks lk s)
  | (Stuck _, _) => False
  end.
Proof.
  intros F Hr Ht. unfold delete_record. rewrite bind_unwrap. erewrite bind_run by reflexivity.
  destruct (lock_cases (LockSpec.ExclusiveOnRecord rid (fd_ s)) txn (rm_locks s) (fo_locks _ F) Ht)
    as [(b & lk & El & Il & [tx Htx])|(e & lk & El & Il)]; simpl in El; rewrite El.
  2: { erewrite bind_throw by (apply zoom_run; exact El). reflexivity. }
  erewrite bind_run by (apply zoom_run; exact El). destruct (file_ok_locks s lk F Il) as [F1 L1].
  destruct (delete_rest (set_locks lk s) F1 rid r Hr txn tx Htx) as (s' & R' & F' & K' & Hy & X' & Hl).
  exists s'. split_and!; done.
Qed.

(** [delete_record] removes exactly the record at [rid] once the exclusive
    lock is granted, keeps every other record and the file invariant (counts,
    bitmaps, free list); if the lock is refused nothing changes. *)
Theorem delete_record_correct (s : FH) (rid : Rid) (r : list Z) (txn : Z) :
  file_ok s -> lookup s rid = Some r -> is_Some (Lock.txns (rm_locks s) !! txn) ->
  match Lock.lock_exclusive_on_record txn rid (fd_ s) (rm_locks s) with
  | (Ret _, lk) => exists s', delete_record rid (Some txn) s = (Ret tt, s') /\ file_ok s' /\ rm_locks s' = lk /\
      forall rid', lookup s' rid' = if decide (rid' = rid) then None else lookup s rid'
  | (Throw e, lk) => delete_record rid (Some txn) s = (Throw e, set_locks lk s)
  | (Stuck _, _) => False
  end.
Proof.
  intros F Hr Ht. pose proof (delete_record_any s rid r txn F Hr Ht) as H. destruct (Lock.lock_exclusive_on_record txn rid (fd_ s) (rm_locks s)) as [[b|e|w] lk]; try done.
  destruct H as (s' & R1 & F1 & K1 & _ & _ & L1). by exists s'.
Qed.

Lemma update_record_any (s : FH) (rid : Rid) (r buf : list Z) (txn : Z) :
  file_ok s -> lookup s rid = Some r -> record_size (file_hdr_ s) <= Z.of_nat (length buf) -> is_Some (Lock.txns (rm_locks s) !! txn) ->
  match Lock.lock_exclusive_on_record txn rid (fd_ s) (rm_locks s) with
  | (Ret _, lk) => exists s', update_record rid buf (Some txn) s = (Ret tt, s') /\ file_ok s' /\ rm_locks s' = lk /\
      fd_ s' = fd_ s /\ same_layout (file_hdr_ s) (file_hdr_ s') /\
      forall rid', lookup s' rid' =
        if decide (rid' = rid) then Some (take (Z.to_nat (record_size (file_hdr_ s))) buf) else lookup s rid'
  | (Throw e, lk) => update_record rid buf (Some txn) s = (Throw e, set_locks lk s)
  | (Stuck _, _) => False
  end.
Proof.
  intros F Hr Hbuf Ht. unfold update_record. rewrite bind_unwrap. erewrite bind_run by reflexivity.
  destruct (lock_cases (LockSpec.ExclusiveOnRecord rid (fd_ s)) txn (rm_locks s) (fo_locks _ F) Ht)
    as [(b & lk & El & Il & [tx Htx])|(e & lk & El & Il)]; simpl in El; rewrite El.
  2: { erewrite bind_throw by (apply zoom_run; exact El). reflexivity. }
  erewrite bind_run by (apply zoom_run; exact El). destruct (file_ok_locks s lk F Il) as [F1 L1].
  set (s1 := set_locks lk s) in *. set (n := rid_page_no rid). set (h := file_hdr_ s). set (d := pg s n).
  destruct (lookup_Some_inv _ _ _ Hr) as (Hn & Hs & Hu & _). pose proof (fo_table _ F) as Tb. pose proof (tb_layout _ _ Tb) as L.
  destruct (editing_fetch s1 n (fo_idle _ F1)) as (f & s2 & R2 & E2); [unfold n; lia|by apply F1|].
  rewrite (fo_count _ F1) in E2. pose proof (file_page_len s n F Hn) as Hd.
  destruct (page_update h L d Hd (tb_counts _ _ Tb n Hn) (rid_slot_no rid) buf (prev_lsn_ tx) Hs Hu Hbuf)
    as (d1 & P1 & P2 & P3 & P4 & P5 & P6 & P7).
  destruct (editing_change _ _ _ _ _ _ _ _ _ _ _ E2 P1 P2) as (s3 & R3 & E3).
  destruct (editing_unpin_stamp _ _ _ _ _ _ _ _ _ txn tx E3 Htx) as (s4 & s5 & R4 & R5 & D5).
  set (e := set_lsn (prev_lsn_ tx) d1) in *. destruct (edited_pages _ _ _ _ _ _ _ D5) as [Pn Pm].
  exists s5. split_and!.
  - rewrite (bind_run _ _ _ _ _ R2). erewrite bind_run by reflexivity. rewrite (e_hdr _ _ _ _ _ _ _ _ _ E2).
    rewrite (bind_run _ _ _ _ _ R3), (bind_run _ _ _ _ _ R4). exact R5.
  - apply (edited_file_ok s1 s5 n e h lk _ F1 D5); [|done|by left|apply F|done].
    apply (table_same h (pg s) (pg s5) n Tb); rewrite ?Pn; done.
  - apply D5.
  - apply D5.
  - by rewrite (d_hdr _ _ _ _ _ _ _ D5).
  - intros rid'. rewrite (edited_lookup s1 s5 n (rid_slot_no rid) e (Some (take (Z.to_nat (record_size h)) buf)) h lk _ rid' D5).
    + by destruct rid.
    + done.
    + by left.
    + apply Tb.
    + intros m. rewrite L1. change (file_hdr_ s1) with h. rewrite P7. case_decide; [done|]. by rewrite lookup_page.
Qed.

(** [update_record] replaces exactly the record at [rid] by the first
    [record_size] bytes of [buf] once the exclusive lock is granted and keeps
    the file invariant, although it stamps the page after unpinning it; if the
    lock is refused nothing changes. *)
Theorem update_record_correct (s : FH) (rid : Rid) (r buf : list Z) (txn : Z) :
  file_ok s -> lookup s rid = Some r -> record_size (file_hdr_ s) <= Z.of_nat (length buf) -> is_Some (Lock.txns (rm_locks s) !! txn) ->
  match Lock.lock_exclusive_on_record txn rid (fd_ s) (rm_locks s) with
  | (Ret _, lk) => exists s', update_record rid buf (Some txn) s = (Ret tt, s') /\ file_ok s' /\ rm_locks s' = lk /\
      forall rid', lookup s' rid' =
        if decide (rid' = rid) then Some (take (Z.to_nat (record_size (file_hdr_ s))) buf) else lookup s rid'
  | (Throw e, lk) => update_record rid buf (Some txn) s = (Throw e, set_locks lk s)
  | (Stuck _, _) => False
  end.
Proof.
  intros F Hr Hb Ht. pose proof (update_record_any s rid r buf txn F Hr Hb Ht) as H. destruct (Lock.lock_exclusive_on_record txn rid (fd_ s) (rm_locks s)) as [[b|e|w] lk]; try done.
  destruct H as (s' & R1 & F1 & K1 & _ & _ & L1). by exists s'.
Qed.

(** ** Scanning *)

Definition rid_lt (a b : Rid) : Prop :=
  rid_page_no a < rid_page_no b \/ (rid_page_no a = rid_page_no b /\ rid_slot_no a < rid_slot_no b).

(** Nothing of the table has changed. *)
Definition same_table (s s' : FH) : Prop :=
  file_ok s' /\ (forall rid, lookup s' rid = lookup s rid) /\ rm_locks s' = rm_locks s /\ file_hdr_ s' = file_hdr_ s /\ fd_ s' = fd_ s.

Lemma same_table_trans (a b c : FH) : same_table a b -> same_table b c -> same_table a c.
Proof. intros (A1 & A2 & A3 & A4 & A5) (B1 & B2 & B3 & B4 & B5). split_and!; [done|intros rid; by rewrite B2|congruence..]. Qed.

(** [r] is the first position after [rid] that holds a record, or the end. *)
Definition next_rid (s : FH) (rid r : Rid) : Prop :=
  (r = mkRid RM_NO_PAGE (-1) \/ rid_lt rid r /\ is_Some (lookup s r)) /\
  forall q, rid_lt rid q -> (r = mkRid RM_NO_PAGE (-1) \/ rid_lt q r) -> lookup s q = None.

(** A position from which a scan may go on. *)
Definition scan_pos (s : FH) (rid : Rid) : Prop :=
  1 <= rid_page_no rid /\ -1 <= rid_slot_no rid < num_records_per_page (file_hdr_ s).

Lemma lookup_past_end (s : FH) (q : Rid) : num_pages (file_hdr_ s) <= rid_page_no q -> lookup s q = None.
Proof. intros H. unfold lookup. rewrite (proj2 (Z.ltb_ge _ _)) by lia. by rewrite andb_false_r. Qed.

(** The visit of one page. *)
Lemma scan_page (s : FH) (rid : Rid) :
  file_ok s -> scan_pos s rid -> rid_page_no rid < num_pages (file_hdr_ s) ->
  let h := file_hdr_ s in let n := rid_page_no rid in
  exists f p slot s1 s2, fetch_page_handle n s = (Ret f, s1) /\ page_of f s1 = (Ret p, s1) /\
    Bitmap.next_bit true (bitmap (data_ p)) (num_records_per_page h) (rid_slot_no rid) = Some slot /\
    on_pool (pp_unpin (id_ p) false) s1 = (Ret true, s2) /\ same_table s s2 /\
    rid_slot_no rid < slot <= num_records_per_page h /\
    (slot < num_records_per_page h -> is_Some (lookup s (mkRid n slot))) /\
    forall m, rid_slot_no rid < m < slot -> lookup s (mkRid n m) = None.
Proof.
  intros F [Hp Hsl] Hn h n. pose proof (fo_table _ F) as Tb. pose proof (tb_layout _ _ Tb) as L.
  assert (1 <= n < num_pages h) as Hin by (unfold n, h; lia).
  destruct (editing_fetch s n (fo_idle _ F)) as (f & s1 & R1 & E1); [lia|by apply F|].
  destruct (editing_page _ _ _ _ _ _ _ _ _ E1) as (p & Rp & Ep & Eid).
  destruct (editing_unpin _ _ _ _ _ _ _ _ _ false E1) as (s2 & R2 & D2); [done|].
  pose proof (edited_same _ _ _ _ _ F Hin D2 (fo_count _ F) (fo_locks _ F)) as S2.
  pose proof (file_page_len s n F Hin) as Hd.
  destruct (Bitmap.next_bit_spec true (bitmap (pg s n)) (num_records_per_page h) (rid_slot_no rid))
    as (slot & Hnext & Hb & Hq & Hlt); [by apply bitmap_covers|done|].
  exists f, p, slot, s1, s2. rewrite Ep, Eid. split_and!; try done; try lia.
  - intros Hs. rewrite lookup_page by done. rewrite slot_of_in by (unfold in_page; fold h; lia). unfold used. by rewrite Hlt.
  - intros m Hm. rewrite lookup_page by done. rewrite slot_of_in by (unfold in_page; fold h; lia). unfold used.
    rewrite Hq by lia. done.
Qed.

Lemma scan_loop_ok (fuel : nat) (rid : Rid) (s : FH) :
  file_ok s -> scan_pos s rid -> num_pages (file_hdr_ s) - rid_page_no rid < Z.of_nat fuel ->
  exists r s', scan_loop fuel rid s = (Ret r, s') /\ same_table s s' /\ next_rid s rid r.
Proof.
  revert rid s. induction fuel as [|fuel IH]; intros rid s F Hpos Hf; simpl; erewrite ?bind_run by reflexivity.
  - exists (mkRid RM_NO_PAGE (-1)), s. split_and!; [done..|]. split; [by left|].
    intros q Hq _. apply lookup_past_end. unfold rid_lt in Hq. lia.
  - destruct (Z.ltb_spec (rid_page_no rid) (num_pages (file_hdr_ s))) as [Hn|Hn].
    2: { exists (mkRid RM_NO_PAGE (-1)), s. split_and!; [done..|]. split; [by left|].
         intros q Hq _. apply lookup_past_end. unfold rid_lt in Hq. lia. }
    destruct (scan_page s rid F Hpos Hn) as (f & p & slot & s1 & s2 & R1 & Rp & Hnext & R2 & S2 & Hb & Hsome & Hnone).
    rewrite (bind_run _ _ _ _ _ R1), (bind_run _ _ _ _ _ Rp), Hnext, bind_unwrap, (bind_run _ _ _ _ _ R2).
    destruct (Z.ltb_spec slot (num_records_per_page (file_hdr_ s))) as [Hs|Hs].
    + exists (mkRid (rid_page_no rid) slot), s2. split_and!; [done..|]. split.
      * right. split; [right; simpl; lia|by apply Hsome].
      * intros [a b] Hlt [E|Hlt']; [injection E as E; destruct Hpos; unfold RM_NO_PAGE in *; lia|].
        unfold rid_lt in *. simpl in *. assert (a = rid_page_no rid) as -> by lia. apply Hnone. lia.
    + destruct S2 as (F2 & L2 & K2 & H2 & X2). destruct (IH (mkRid (rid_page_no rid + 1) (-1)) s2) as (r & s' & R & S' & Hr1 & Hr2).
      * done.
      * destruct Hpos. split; rewrite ?H2; simpl; lia.
      * rewrite H2. simpl. lia.
      * exists r, s'. split; [done|]. split; [by eapply same_table_trans|]. split.
        -- destruct Hr1 as [->|[Hlt Hr1]]; [by left|right]. rewrite L2 in Hr1. split; [|done]. unfold rid_lt in *. simpl in *. lia.
        -- intros [a b] Hlt Hcase. unfold rid_lt in Hlt. simpl in Hlt.
           destruct (decide (a = rid_page_no rid)) as [->|Hne].
           ++ destruct (decide (b < slot)) as [Hbs|Hbs]; [apply Hnone; lia|].
              unfold lookup. simpl. rewrite slot_of_out; [by destruct (_ && _)|]. unfold in_page. lia.
           ++ rewrite <- L2. destruct (decide (a = rid_page_no rid + 1 /\ b < 0)) as [[-> Hb0]|Hb0].
              ** unfold lookup. simpl. rewrite slot_of_out; [by destruct (_ && _)|]. unfold in_page. lia.
              ** apply Hr2; [|done]. unfold rid_lt. simpl. lia.
Qed.

Lemma scan_next_ok (rid : Rid) (s : FH) :
  file_ok s -> scan_pos s rid -> exists r s', scan_next rid s = (Ret r, s') /\ same_table s s' /\ next_rid s rid r.
Proof.
  intros F Hpos. unfold scan_next. erewrite bind_run by reflexivity. apply scan_loop_ok; [done|done|]. lia.
Qed.

Lemma same_table_refl (s : FH) : file_ok s -> same_table s s.
Proof. intros F. by split_and!. Qed.

Lemma next_rid_same (s s' : FH) (rid r : Rid) : same_table s s' -> next_rid s' rid r -> next_rid s rid r.
Proof.
  intros (_ & L & _) [H1 H2]. split; [|intros q Hq1 Hq2; rewrite <- L; by apply H2].
  destruct H1 as [|[? H1]]; [by left|right]. by rewrite <- L.
Qed.

Lemma rid_lt_trans (a b c : Rid) : rid_lt a b -> rid_lt b c -> rid_lt a c.
Proof. unfold rid_lt. lia. Qed.

Lemma rid_lt_total (a b : Rid) : rid_lt a b \/ a = b \/ rid_lt b a.
Proof.
  destruct a as [a1 a2], b as [b1 b2]. unfold rid_lt. simpl.
  destruct (Z.lt_total a1 b1) as [|[->|]]; [lia| |lia]. destruct (Z.lt_total a2 b2) as [|[->|]]; [lia|right; by left|lia].
Qed.

(** The positions the scan has yet to deliver. *)
Definition pos_index (s : FH) (rid : Rid) : Z := rid_page_no rid * (num_records_per_page (file_hdr_ s) + 1) + rid_slot_no rid.

Lemma pos_index_lt (s : FH) (a b : Rid) :
  is_Some (lookup s a) -> is_Some (lookup s b) -> rid_lt a b -> pos_index s a < pos_index s b.
Proof.
  intros [x (_ & Ha & _)%lookup_Some_inv] [y (_ & Hb & _)%lookup_Some_inv] Hlt. unfold pos_index, rid_lt, in_page in *. nia.
Qed.

Lemma scan_from_ok (fuel : nat) (s s1 : FH) (rid : Rid) :
  file_ok s -> same_table s s1 -> (rid = mkRid RM_NO_PAGE (-1) \/ is_Some (lookup s rid)) ->
  (is_Some (lookup s rid) -> num_pages (file_hdr_ s) * (num_records_per_page (file_hdr_ s) + 1) - pos_index s rid <= Z.of_nat fuel) ->
  exists l s', scan_from fuel rid s1 = (Ret l, s') /\ same_table s s' /\ StronglySorted rid_lt l /\
    forall q, q ∈ l <-> is_Some (lookup s q) /\ rid <> mkRid RM_NO_PAGE (-1) /\ (q = rid \/ rid_lt rid q).
Proof.
  intros F. revert s1 rid. induction fuel as [|fuel IH]; intros s1 rid S1 Hrid Hf; simpl.
  all: destruct (decide (rid = mkRid RM_NO_PAGE (-1))) as [->|Hne].
  1, 3: exists [], s1; split_and!; [done|done|constructor|]; intros q; split; [by intros ?%elem_of_nil|by intros (_ & ? & _)].
  all: destruct Hrid as [|Hs]; [done|]; pose proof Hs as [x (Hp & Hin & _)%lookup_Some_inv];
    assert (scan_is_end rid = false) as -> by (unfold scan_is_end, RM_NO_PAGE; lia).
  - exfalso. specialize (Hf Hs). unfold pos_index, in_page in *. nia.
  - pose proof S1 as (F1 & L1 & _ & H1 & _).
    destruct (scan_next_ok rid s1 F1) as (r & s2 & R2 & S2 & Hn%(next_rid_same s s1 rid r S1)).
    { split; rewrite ?H1; unfold in_page in Hin; lia. }
    destruct Hn as [Hr Hgap]. assert (same_table s s2) as S02 by by eapply same_table_trans.
    assert (r = mkRid RM_NO_PAGE (-1) \/ is_Some (lookup s r)) as Hr' by naive_solver.
    destruct (decide (r = mkRid RM_NO_PAGE (-1))) as [->|Hrne].
    + exists [rid], s2. rewrite (bind_run _ _ _ _ _ R2). split_and!; [by destruct fuel|done|by repeat constructor|].
      intros q. rewrite list_elem_of_singleton. split; [intros ->; split_and!; [done|done|by left]|].
      intros (Hq & _ & [?|Hlt]); [done|]. rewrite Hgap in Hq; [by destruct Hq|done|by left].
    + destruct Hr as [|[Hlt Hs']]; [done|]. pose proof (pos_index_lt s rid r Hs Hs' Hlt). specialize (Hf Hs).
      destruct (IH s2 r S02 Hr') as (l & s' & R' & S' & Hsort & Hl); [lia|].
      exists (rid :: l), s'. rewrite (bind_run _ _ _ _ _ R2), (bind_run _ _ _ _ _ R'). split_and!; [done|done| |].
      * constructor; [done|]. apply Forall_forall. intros q Hq. apply Hl in Hq as (_ & _ & [->|Hq]); [done|by eapply rid_lt_trans].
      * intros q. rewrite elem_of_cons, Hl. split.
        -- intros [->|(Hq & _ & Hc)]; [split_and!; [done|done|by left]|]. split_and!; [done|done|right].
           destruct Hc as [->|Hc]; [done|by eapply rid_lt_trans].
        -- intros (Hq & _ & [->|Hc]); [by left|right]. split_and!; [done|done|].
           destruct (rid_lt_total q r) as [Hc'|[->|Hc']]; [|by left|by right].
           rewrite Hgap in Hq; [by destruct Hq|done|by right].
Qed.

(** Enough iterations for every slot of the file. *)
Definition scan_fuel (s : FH) : nat := Z.to_nat (num_pages (file_hdr_ s) * (num_records_per_page (file_hdr_ s) + 1)).

Lemma scan_all_any (s : FH) (fuel : nat) :
  file_ok s -> (scan_fuel s + 1 <= fuel)%nat ->
  exists l s', scan_all fuel s = (Ret l, s') /\ same_table s s' /\ StronglySorted rid_lt l /\
    forall q, q ∈ l <-> is_Some (lookup s q).
Proof.
  intros F Hfuel. pose proof (lo_n _ (tb_layout _ _ (fo_table _ F))) as Hper. pose proof (tb_pages _ _ (fo_table _ F)) as Hnp.
  destruct (scan_next_ok (mkRid RM_FIRST_RECORD_PAGE (-1)) s F) as (r & s1 & R1 & S1 & Hr & Hgap).
  { split; simpl; unfold RM_FIRST_RECORD_PAGE; lia. }
  assert (forall q, is_Some (lookup s q) -> rid_lt (mkRid RM_FIRST_RECORD_PAGE (-1)) q) as Hfirst.
  { intros q [x (Hp & Hin & _)%lookup_Some_inv]. unfold rid_lt, RM_FIRST_RECORD_PAGE, in_page in *. simpl. lia. }
  destruct (scan_from_ok fuel s s1 r F S1) as (l & s' & R' & S' & Hsort & Hl).
  - naive_solver.
  - intros [x (Hp & Hin & _)%lookup_Some_inv]. unfold scan_fuel, pos_index, in_page in *. nia.
  - exists l, s'. split_and!; [unfold scan_all, scan_begin; by rewrite (bind_run _ _ _ _ _ R1)|done|done|].
    intros q. rewrite Hl. split; [by intros (? & _)|]. intros Hq. specialize (Hfirst q Hq).
    assert (r <> mkRid RM_NO_PAGE (-1)) as Hne.
    { intros ->. rewrite Hgap in Hq; [by destruct Hq|done|by left]. }
    split_and!; [done|done|]. destruct (rid_lt_total q r) as [Hc|[->|Hc]]; [|by left|by right].
    rewrite Hgap in Hq; [by destruct Hq|done|by right].
Qed.

(** C19: a loop over [RmScan] terminates, visits exactly the positions that hold
    a record, in increasing order and each once, and changes nothing. *)
Theorem scan_all_complete (s : FH) (fuel : nat) :
  file_ok s -> (scan_fuel s + 1 <= fuel)%nat ->
  exists l s', scan_all fuel s = (Ret l, s') /\ same_table s s' /\ StronglySorted rid_lt l /\
    forall q, q ∈ l <-> is_Some (lookup s q).
Proof. exact (scan_all_any s fuel). Qed.

(** C15: [insert_record] picks a position that holds no record, asks for the
    exclusive lock on it and, if that is granted, returns with the record stored
    there, every other record unchanged and the file invariant kept (a page is
    appended when none has room).  If the lock is refused no record changes, but
    the page stays pinned. *)
Theorem insert_record_correct (s : FH) (buf : list Z) (txn : Z) :
  file_ok s -> room s -> record_size (file_hdr_ s) <= Z.of_nat (length buf) -> is_Some (Lock.txns (rm_locks s) !! txn) ->
  exists rid, lookup s rid = None /\
    match Lock.lock_exclusive_on_record txn rid (fd_ s) (rm_locks s) with
    | (Ret _, lk) => exists s', insert_record buf (Some txn) s = (Ret rid, s') /\ file_ok s' /\ rm_locks s' = lk /\
        same_layout (file_hdr_ s) (file_hdr_ s') /\
        forall rid', lookup s' rid' =
          if decide (rid' = rid) then Some (take (Z.to_nat (record_size (file_hdr_ s))) buf) else lookup s rid'
    | (Throw e, lk) => exists s', insert_record buf (Some txn) s = (Throw e, s') /\ rm_locks s' = lk /\
        (exists f b, pp_leased (mkLease (pid_of s (rid_page_no rid)) f b) (rm_pool s')) /\
        forall rid', lookup s' rid' = lookup s rid'
    | (Stuck _, _) => False
    end.
Proof. exact (insert_record_any s buf txn). Qed.

End spec.

(** The layout [create_file] computes for any legal record size fits: the
    page headers, the bitmap and all slots lie inside the page, the bitmap has a
    bit for every slot, and at least one record fits. *)
Theorem create_layout_fits (size : Z) : 1 <= size <= RM_MAX_RECORD_SIZE -> layout_ok (new_hdr size).
Proof. exact (new_hdr_layout size). Qed.

End RmSpec.

(** ** A concrete table *)

Module RmDemo.
Import Replacer.Lru Posix.MemFS Bpm BpmFacts BpmSpec PoolInstance Rm RmFacts RmSpec.

Abbreviation DemoFH := (RmFileHandle (BufferPoolManager LRUReplacer)).

Definition demo_fs : MemFS.t :=
  {| paths := {[ "t"%string := (S_ISREG, 10) ]}; data := {[ 10 := hdr_bytes (new_hdr 8) ]};
     fds := {[ 5 := (10, O) ]} |}.
Definition demo_dm : DiskManager := set_pageno {[ 5 := 1 ]} (Disk.make demo_fs).
(** Transactions 1 and 2 are active. *)
Definition demo_locks : Lock.LockManager :=
  {| Lock.lock_table_ := ∅; Lock.txns := {[ 1 := make_txn false 1; 2 := make_txn false 2 ]} |}.
(** An open, empty table with 8-byte records over a pool of three frames. *)
Definition empty_table : DemoFH := mkFH (Bpm.make 0 3 demo_dm) demo_locks 5 (new_hdr 8).
Definition record_a : list Z := [1; 2; 3; 4; 5; 6; 7; 8].
Definition record_b : list Z := [8; 7; 6; 5; 4; 3; 2; 1].
Definition one_record : DemoFH := (insert_record record_a (Some 1) empty_table).2.

Lemma demo_tidy : tidy (Bpm.make 0 3 demo_dm).
Proof.
  split.
  - apply make_inv. intros x y i. simpl. unfold ino. simpl. rewrite !lookup_singleton.
    repeat case_decide; simpl; try done. congruence.
  - intros pid f E. simpl in E. by rewrite lookup_empty in E.
  - intros g q _ Hq. unfold frame in Hq. destruct (0 <=? g); [|done]. by apply lookup_replicate in Hq as [-> _].
  - intros pid f E. simpl in E. by rewrite lookup_empty in E.
Qed.

Lemma demo_idle : idle (Bpm.make 0 3 demo_dm).
Proof.
  split_and!; [apply demo_tidy|exists 0; eexists; split; reflexivity|].
  intros pid. unfold pins. simpl. by rewrite lookup_empty.
Qed.

Lemma demo_locks_inv : LockFacts.inv demo_locks.
Proof. split; intros id q; simpl; by rewrite lookup_empty. Qed.

Lemma empty_table_ok : file_ok empty_table.
Proof.
  split; [|apply demo_idle|reflexivity|intros n Hn; simpl in Hn; lia|reflexivity|apply demo_locks_inv].
  split; [by apply new_hdr_layout|done|intros n Hn; simpl in Hn; lia|].
  exists []. split_and!; [constructor|done|]. intros n Hn. simpl in Hn. lia.
Qed.

Lemma empty_table_room : room empty_table.
Proof. intros _. split; [|done]. split_and!; try done. by exists 10. Qed.

(** The insertion the theorems talk about is the one that runs. *)
Lemma one_record_ok : file_ok one_record /\ same_layout (new_hdr 8) (file_hdr_ one_record) /\
  lookup one_record (mkRid 1 0) = Some record_a /\ is_Some (Lock.txns (rm_locks one_record) !! 1).
Proof.
  destruct (insert_record_ret empty_table record_a 1 (mkRid 1 0) empty_table_ok empty_table_room) as (F & L & Ht & Hl).
  - reflexivity.
  - by eexists.
  - vm_compute. reflexivity.
  - exact (conj F (conj L (conj (Hl (mkRid 1 0)) Ht))).
Qed.
Lemma one_record_only (q : Rid) (r : list Z) : lookup one_record q = Some r -> q = mkRid 1 0 /\ r = record_a.
Proof.
  destruct (insert_record_ret empty_table record_a 1 (mkRid 1 0) empty_table_ok empty_table_room) as (F & L & Ht & Hl).
  - reflexivity.
  - by eexists.
  - vm_compute. reflexivity.
  - intros H. fold one_record in Hl. rewrite Hl in H. case_decide; [by injection H as <-|]. apply lookup_Some_inv in H as (H & _). simpl in H. lia.
Qed.

Lemma insert_record_correct_witness :
  file_ok empty_table /\ room empty_table /\ exists rid, lookup empty_table rid = None /\
    match Lock.lock_exclusive_on_record 1 rid 5 demo_locks with
    | (Ret _, lk) => exists s', insert_record record_a (Some 1) empty_table = (Ret rid, s') /\ file_ok s' /\ rm_locks s' = lk /\
        same_layout (new_hdr 8) (file_hdr_ s') /\
        forall rid', lookup s' rid' = if decide (rid' = rid) then Some record_a else lookup empty_table rid'
    | (Throw e, lk) => exists s', insert_record record_a (Some 1) empty_table = (Throw e, s') /\ rm_locks s' = lk /\
        (exists f b, pp_leased (mkLease (pid_of empty_table (rid_page_no rid)) f b) (rm_pool s')) /\
        forall rid', lookup s' rid' = lookup empty_table rid'
    | (Stuck _, _) => False
    end.
Proof.
  split; [apply empty_table_ok|]. split; [apply empty_table_room|].
  apply (insert_record_correct empty_table record_a 1 empty_table_ok empty_table_room); [done|by eexists].
Defined.

Lemma get_record_correct_witness :
  match Lock.lock_shared_on_record 1 (mkRid 1 0) (fd_ one_record) (rm_locks one_record) with
  | (Ret _, lk) => exists s', get_record (mkRid 1 0) (Some 1) one_record = (Ret record_a, s') /\ file_ok s' /\ rm_locks s' = lk /\
      forall rid', lookup s' rid' = lookup one_record rid'
  | (Throw e, lk) => get_record (mkRid 1 0) (Some 1) one_record = (Throw e, set_locks lk one_record)
  | (Stuck _, _) => False
  end.
Proof.
  destruct one_record_ok as (F & _ & Hl & Ht). apply (get_record_correct one_record (mkRid 1 0) record_a 1 F Hl Ht).
Defined.

Lemma delete_record_correct_witness :
  match Lock.lock_exclusive_on_record 1 (mkRid 1 0) (fd_ one_record) (rm_locks one_record) with
  | (Ret _, lk) => exists s', delete_record (mkRid 1 0) (Some 1) one_record = (Ret tt, s') /\ file_ok s' /\ rm_locks s' = lk /\
      forall rid', lookup s' rid' = if decide (rid' = mkRid 1 0) then None else lookup one_record rid'
  | (Throw e, lk) => delete_record (mkRid 1 0) (Some 1) one_record = (Throw e, set_locks lk one_record)
  | (Stuck _, _) => False
  end.
Proof.
  destruct one_record_ok as (F & _ & Hl & Ht). apply (delete_record_correct one_record (mkRid 1 0) record_a 1 F Hl Ht).
Defined.

Lemma update_record_correct_witness :
  match Lock.lock_exclusive_on_record 1 (mkRid 1 0) (fd_ one_record) (rm_locks one_record) with
  | (Ret _, lk) => exists s', update_record (mkRid 1 0) record_b (Some 1) one_record = (Ret tt, s') /\ file_ok s' /\ rm_locks s' = lk /\
      forall rid', lookup s' rid' =
        if decide (rid' = mkRid 1 0) then Some (take (Z.to_nat (record_size (file_hdr_ one_record))) record_b) else lookup one_record rid'
  | (Throw e, lk) => update_record (mkRid 1 0) record_b (Some 1) one_record = (Throw e, set_locks lk one_record)
  | (Stuck _, _) => False
  end.
Proof.
  destruct one_record_ok as (F & Hlay & Hl & Ht).
  apply (update_record_correct one_record (mkRid 1 0) record_a record_b 1 F Hl); [|exact Ht].
  destruct Hlay as (-> & _). done.
Defined.

Lemma scan_all_complete_witness :
  exists l s', scan_all (scan_fuel one_record + 1) one_record = (Ret l, s') /\ same_table one_record s' /\
    StronglySorted rid_lt l /\ forall q, q ∈ l <-> is_Some (lookup one_record q).
Proof.
  destruct one_record_ok as (F & _). apply (scan_all_complete one_record (scan_fuel one_record + 1) F). reflexivity.
Defined.

Lemma create_layout_fits_witness : layout_ok (new_hdr 512).
Proof. apply (create_layout_fits 512). unfold RM_MAX_RECORD_SIZE. lia. Defined.

End RmDemo.
