(* ===== verification/Log.v ===== *)
(** * Log records and the log manager ([src/src/recovery/log_manager.{h,cpp}])

    Log records and their byte format: a 20-byte header (type, lsn, total
    length, transaction, previous lsn) and, for the data records, the before or
    after images, the record position and the table name.  [LogManager] numbers
    records and appends them to the log file. *)

From S2P Require Import Prelude Bytes Posix Disk Txn.

Module Log.

Inductive LogType : Type := UPDATE | INSERT | DELETE | BEGIN | COMMIT | ABORT.

#[export] Instance LogType_eq_dec : EqDecision LogType.
Proof. solve_decision. Defined.

Definition type_code (t : LogType) : Z :=
  match t with UPDATE => 0 | INSERT => 1 | DELETE => 2 | BEGIN => 3 | COMMIT => 4 | ABORT => 5 end.
(** Reading another value through the enumeration is undefined. *)
Definition type_of_code (z : Z) : option LogType :=
  match z with
  | 0 => Some UPDATE | 1 => Some INSERT | 2 => Some DELETE
  | 3 => Some BEGIN | 4 => Some COMMIT | 5 => Some ABORT | _ => None
  end.

Definition OFFSET_LOG_TYPE : Z := 0.
Definition OFFSET_LSN : Z := 4.
Definition OFFSET_LOG_TOT_LEN : Z := 8.
Definition OFFSET_LOG_TID : Z := 12.
Definition OFFSET_PREV_LSN : Z := 16.
Definition OFFSET_LOG_DATA : Z := 20.
Definition LOG_HEADER_SIZE : Z := OFFSET_LOG_DATA.
Definition SIZEOF_Rid : Z := 8.

(** The fields of [LogRecord]. *)
Record LogHdr : Type := mkLogHdr {
  log_type_ : LogType;
  lsn_ : Z;
  log_tot_len_ : Z;   (* uint32_t *)
  log_tid_ : Z;
  log_prev_lsn_ : Z
}.

Definition set_lsn (x : Z) (h : LogHdr) : LogHdr := mkLogHdr (log_type_ h) x (log_tot_len_ h) (log_tid_ h) (log_prev_lsn_ h).
Definition set_prev (x : Z) (h : LogHdr) : LogHdr := mkLogHdr (log_type_ h) (lsn_ h) (log_tot_len_ h) (log_tid_ h) x.

(** [RmRecord]: a size and the bytes allocated for it. *)
Record RmRecord : Type := mkRec { rec_size : Z; rec_data : list Z }.

(** The subclasses. *)
Inductive LogRecord : Type :=
| BeginLogRecord (h : LogHdr)
| CommitLogRecord (h : LogHdr)
| AbortLogRecord (h : LogHdr)
| InsertLogRecord (h : LogHdr) (insert_value_ : RmRecord) (rid_ : Rid) (table_name_ : list Z)
| DeleteLogRecord (h : LogHdr) (delete_value_ : RmRecord) (rid_ : Rid) (table_name_ : list Z)
| UpdateLogRecord (h : LogHdr) (before_value_ after_value_ : RmRecord) (rid_ : Rid) (table_name_ : list Z).

Definition hdr (r : LogRecord) : LogHdr :=
  match r with
  | BeginLogRecord h | CommitLogRecord h | AbortLogRecord h
  | InsertLogRecord h _ _ _ | DeleteLogRecord h _ _ _ | UpdateLogRecord h _ _ _ _ => h
  end.
Definition map_hdr (f : LogHdr -> LogHdr) (r : LogRecord) : LogRecord :=
  match r with
  | BeginLogRecord h => BeginLogRecord (f h)
  | CommitLogRecord h => CommitLogRecord (f h)
  | AbortLogRecord h => AbortLogRecord (f h)
  | InsertLogRecord h v rid n => InsertLogRecord (f h) v rid n
  | DeleteLogRecord h v rid n => DeleteLogRecord (f h) v rid n
  | UpdateLogRecord h a b rid n => UpdateLogRecord (f h) a b rid n
  end.

(** ** Constructors; lengths are [uint32_t] sums *)

Definition new_hdr (t : LogType) (txn_id : Z) (payload : Z) : LogHdr :=
  mkLogHdr t INVALID_LSN (wrap_u 32 (LOG_HEADER_SIZE + payload)) txn_id INVALID_LSN.

Definition begin_record (txn_id : Z) : LogRecord := BeginLogRecord (new_hdr BEGIN txn_id 0).
Definition commit_record (txn_id : Z) : LogRecord := CommitLogRecord (new_hdr COMMIT txn_id 0).
Definition abort_record (txn_id : Z) : LogRecord := AbortLogRecord (new_hdr ABORT txn_id 0).
Definition insert_record (txn_id : Z) (v : RmRecord) (rid : Rid) (name : list Z) : LogRecord :=
  InsertLogRecord (new_hdr INSERT txn_id (4 + rec_size v + SIZEOF_Rid + 8 + Z.of_nat (length name))) v rid name.
Definition delete_record (txn_id : Z) (v : RmRecord) (rid : Rid) (name : list Z) : LogRecord :=
  DeleteLogRecord (new_hdr DELETE txn_id (4 + rec_size v + SIZEOF_Rid + 8 + Z.of_nat (length name))) v rid name.
Definition update_record (txn_id : Z) (a b : RmRecord) (rid : Rid) (name : list Z) : LogRecord :=
  UpdateLogRecord (new_hdr UPDATE txn_id (4 + rec_size a + 4 + rec_size b + SIZEOF_Rid + 8 + Z.of_nat (length name))) a b rid name.

(** ** [serialize]: consecutive [memcpy]s into [dest] *)

Fixpoint put_fields (o : Z) (fs : list (list Z)) (dest : list Z) : option (list Z) :=
  match fs with
  | [] => Some dest
  | f :: fs => dest ← mem_write o f dest; put_fields (o + Z.of_nat (length f)) fs dest
  end.

Definition hdr_fields (h : LogHdr) : list (list Z) :=
  [i32_bytes (type_code (log_type_ h)); i32_bytes (lsn_ h); u32_bytes (log_tot_len_ h); i32_bytes (log_tid_ h); i32_bytes (log_prev_lsn_ h)].
Definition rid_bytes (r : Rid) : list Z := i32_bytes (rid_page_no r) ++ i32_bytes (rid_slot_no r).
(** [size] bytes are copied from the record's data. *)
Definition rec_fields (v : RmRecord) : option (list (list Z)) :=
  d ← mem_read 0 (rec_size v) (rec_data v); Some [i32_bytes (rec_size v); d].
Definition tail_fields (rid : Rid) (name : list Z) : list (list Z) :=
  [rid_bytes rid; u64_bytes (Z.of_nat (length name)); name].

(** What [serialize] of each subclass adds to the header. *)
Definition insert_fields (v : RmRecord) (rid : Rid) (name : list Z) : option (list (list Z)) :=
  f ← rec_fields v; Some (f ++ tail_fields rid name).
Definition delete_fields (v : RmRecord) (rid : Rid) (name : list Z) : option (list (list Z)) :=
  f ← rec_fields v; Some (f ++ tail_fields rid name).
Definition update_fields (a b : RmRecord) (rid : Rid) (name : list Z) : option (list (list Z)) :=
  f ← rec_fields a; g ← rec_fields b; Some (f ++ g ++ tail_fields rid name).

Definition body_fields (r : LogRecord) : option (list (list Z)) :=
  match r with
  | BeginLogRecord _ | CommitLogRecord _ | AbortLogRecord _ => Some []
  | InsertLogRecord _ v rid n => insert_fields v rid n
  | DeleteLogRecord _ v rid n => delete_fields v rid n
  | UpdateLogRecord _ a b rid n => update_fields a b rid n
  end.

Definition serialize (r : LogRecord) (dest : list Z) : option (list Z) :=
  dest ← put_fields OFFSET_LOG_TYPE (hdr_fields (hdr r)) dest;
  f ← body_fields r;
  put_fields OFFSET_LOG_DATA f dest.

(** ** [deserialize] *)

(** The memory behind [const char* src]: [n] bytes at offset [o], if readable. *)
Definition source : Type := Z -> Z -> option (list Z).
Definition of_bytes (l : list Z) : source := fun o n => mem_read o n l.

Definition read_hdr (src : source) : option LogHdr :=
  t ← src OFFSET_LOG_TYPE 4; ty ← type_of_code (i32_val t);
  l ← src OFFSET_LSN 4; n ← src OFFSET_LOG_TOT_LEN 4; i ← src OFFSET_LOG_TID 4; p ← src OFFSET_PREV_LSN 4;
  Some (mkLogHdr ty (i32_val l) (u32_val n) (i32_val i) (i32_val p)).

(** [RmRecord::Deserialize] *)
Definition read_rec (src : source) (o : Z) : option RmRecord :=
  s ← src o 4; d ← src (o + 4) (i32_val s); Some (mkRec (i32_val s) d).

Definition read_tail (src : source) (o : Z) : option (Rid * list Z) :=
  p ← src o 4; s ← src (o + 4) 4;
  n ← src (o + SIZEOF_Rid) 8;
  name ← src (o + SIZEOF_Rid + 8) (u64_val n);
  Some (mkRid (i32_val p) (i32_val s), name).

(** What [deserialize] of each subclass reads behind the header. *)
Definition insert_of (h : LogHdr) (src : source) : option LogRecord :=
  v ← read_rec src OFFSET_LOG_DATA;
  '(rid, n) ← read_tail src (OFFSET_LOG_DATA + rec_size v + 4);
  Some (InsertLogRecord h v rid n).
Definition delete_of (h : LogHdr) (src : source) : option LogRecord :=
  v ← read_rec src OFFSET_LOG_DATA;
  '(rid, n) ← read_tail src (OFFSET_LOG_DATA + rec_size v + 4);
  Some (DeleteLogRecord h v rid n).
Definition update_of (h : LogHdr) (src : source) : option LogRecord :=
  a ← read_rec src OFFSET_LOG_DATA;
  b ← read_rec src (OFFSET_LOG_DATA + rec_size a + 4);
  '(rid, n) ← read_tail src (OFFSET_LOG_DATA + rec_size a + 4 + (rec_size b + 4));
  Some (UpdateLogRecord h a b rid n).

(** [deserialize] of the subclass that belongs to [t]. *)
Definition deserialize (t : LogType) (src : source) : option LogRecord :=
  h ← read_hdr src;
  match t with
  | BEGIN => Some (BeginLogRecord h)
  | COMMIT => Some (CommitLogRecord h)
  | ABORT => Some (AbortLogRecord h)
  | INSERT => insert_of h src
  | DELETE => delete_of h src
  | UPDATE => update_of h src
  end.

(** ** [LogManager] *)

Section manager.
Context `{FileSystem}.

(** [buffer_] holds the bytes before the write position [offset_]; the array
    has [LOG_BUFFER_SIZE + 1] bytes. *)
Record LogManager : Type := mkLogManager {
  global_lsn_ : Z;
  buffer_ : list Z;
  persist_lsn_ : Z;
  lm_disk : Disk.DiskManager
}.
Definition offset_ (s : LogManager) : Z := Z.of_nat (length (buffer_ s)).

Definition set_buffer (x : list Z) (s : LogManager) : LogManager := mkLogManager (global_lsn_ s) x (persist_lsn_ s) (lm_disk s).
Definition set_global (x : Z) (s : LogManager) : LogManager := mkLogManager x (buffer_ s) (persist_lsn_ s) (lm_disk s).
Definition set_persist (x : Z) (s : LogManager) : LogManager := mkLogManager (global_lsn_ s) (buffer_ s) x (lm_disk s).
Definition set_lm_disk (x : Disk.DiskManager) (s : LogManager) : LogManager := mkLogManager (global_lsn_ s) (buffer_ s) (persist_lsn_ s) x.

(** [persist_lsn_] has no initializer. *)
Definition make (garbage : Z) (d : Disk.DiskManager) : LogManager := mkLogManager 0 [] garbage d.

Definition is_full (append_size : Z) (s : LogManager) : M LogManager bool :=
  n ← int_op (offset_ s + append_size);
  mret (LOG_BUFFER_SIZE <? n).

Definition flush_log_to_disk : M LogManager unit :=
  s ← gets id;
  zoom lm_disk set_lm_disk (Disk.write_log (buffer_ s)) ;;
  modify (fun s => set_persist (wrap_s 32 (global_lsn_ s - 1)) (set_buffer [] s)).

(** Returns the record number and the record as changed in place. *)
Definition add_log_to_buffer (r : LogRecord) : M LogManager (Z * LogRecord) :=
  s ← gets id;
  full ← is_full (wrap_s 32 (log_tot_len_ (hdr r))) s;
  (if (full : bool) then flush_log_to_disk else mret tt) ;;
  lsn ← gets global_lsn_;
  modify (fun s => set_global (wrap_s 32 (global_lsn_ s + 1)) s) ;;
  let r := map_hdr (set_lsn lsn) r in
  data ← unwrap OutOfBounds (serialize r (replicate (Z.to_nat (log_tot_len_ (hdr r))) 0));
  s ← gets id;
  (if offset_ s + log_tot_len_ (hdr r) <=? LOG_BUFFER_SIZE + 1 then modify (set_buffer (buffer_ s ++ data)) else stuck OutOfBounds) ;;
  flush_log_to_disk ;;
  mret (lsn, r).

End manager.
End Log.
