(* ===== verification/LogFacts.v ===== *)
(** * The log: byte format and appending

    Serialization writes the fields one after the other, [deserialize] inverts
    it, and appending a record appends exactly its bytes to the log file. *)

From S2P Require Import Prelude Bytes Posix Disk Txn Log.

Module LogFacts.
Import Log.

(** ** Writing fields *)

Lemma put_fields_app (fs : list (list Z)) (pre rest : list Z) :
  (length (concat fs) <= length rest)%nat ->
  put_fields (Z.of_nat (length pre)) fs (pre ++ rest) = Some (pre ++ concat fs ++ drop (length (concat fs)) rest).
Proof.
  revert pre rest. induction fs as [|f fs IH]; intros pre rest Hl; [done|]. simpl in Hl |- *. rewrite length_app in Hl.
  assert (mem_write (Z.of_nat (length pre)) f (pre ++ rest) = Some ((pre ++ f) ++ drop (length f) rest)) as ->.
  { apply mem_write_Some. rewrite length_app. split_and!; [lia|lia|]. unfold splice. rewrite Nat2Z.id.
    rewrite take_app_length, <- app_assoc, <- drop_drop, drop_app_length. done. }
  simpl. replace (Z.of_nat (length pre) + Z.of_nat (length f)) with (Z.of_nat (length (pre ++ f))) by (rewrite length_app; lia).
  rewrite IH by (rewrite length_drop; lia). f_equal. rewrite !drop_drop, length_app, <- !app_assoc. done.
Qed.

(** ** Well-formed records *)

Definition payload (r : LogRecord) : Z :=
  match r with
  | BeginLogRecord _ | CommitLogRecord _ | AbortLogRecord _ => 0
  | InsertLogRecord _ v _ n | DeleteLogRecord _ v _ n => 4 + rec_size v + SIZEOF_Rid + 8 + Z.of_nat (length n)
  | UpdateLogRecord _ a b _ n => 4 + rec_size a + 4 + rec_size b + SIZEOF_Rid + 8 + Z.of_nat (length n)
  end.

Definition kind (r : LogRecord) : LogType :=
  match r with
  | BeginLogRecord _ => BEGIN | CommitLogRecord _ => COMMIT | AbortLogRecord _ => ABORT
  | InsertLogRecord _ _ _ _ => INSERT | DeleteLogRecord _ _ _ _ => DELETE | UpdateLogRecord _ _ _ _ _ => UPDATE
  end.

Definition rec_ok (v : RmRecord) : Prop := rec_size v = Z.of_nat (length (rec_data v)) /\ in_i32 (rec_size v) = true.
Definition rid_ok (r : Rid) : Prop := in_i32 (rid_page_no r) = true /\ in_i32 (rid_slot_no r) = true.
Definition body_ok (r : LogRecord) : Prop :=
  match r with
  | BeginLogRecord _ | CommitLogRecord _ | AbortLogRecord _ => True
  | InsertLogRecord _ v rid n | DeleteLogRecord _ v rid n => rec_ok v /\ rid_ok rid
  | UpdateLogRecord _ a b rid n => rec_ok a /\ rec_ok b /\ rid_ok rid
  end.

Record log_wf (r : LogRecord) : Prop := {
  lw_type : log_type_ (hdr r) = kind r;
  lw_len : log_tot_len_ (hdr r) = LOG_HEADER_SIZE + payload r;
  lw_u32 : LOG_HEADER_SIZE + payload r < 2 ^ 32;
  lw_lsn : in_i32 (lsn_ (hdr r)) = true;
  lw_tid : in_i32 (log_tid_ (hdr r)) = true;
  lw_prev : in_i32 (log_prev_lsn_ (hdr r)) = true;
  lw_body : body_ok r
}.

(** What ends up on disk. *)
Definition rec_bytes (v : RmRecord) : list Z := i32_bytes (rec_size v) ++ rec_data v.
Definition tail_bytes (rid : Rid) (name : list Z) : list Z := rid_bytes rid ++ u64_bytes (Z.of_nat (length name)) ++ name.
Definition body_bytes (r : LogRecord) : list Z :=
  match r with
  | BeginLogRecord _ | CommitLogRecord _ | AbortLogRecord _ => []
  | InsertLogRecord _ v rid n | DeleteLogRecord _ v rid n => rec_bytes v ++ tail_bytes rid n
  | UpdateLogRecord _ a b rid n => rec_bytes a ++ rec_bytes b ++ tail_bytes rid n
  end.
Definition hdr_bytes (h : LogHdr) : list Z := concat (hdr_fields h).
Definition bytes (r : LogRecord) : list Z := hdr_bytes (hdr r) ++ body_bytes r.
#[global] Arguments hdr_bytes : simpl never.
#[global] Arguments bytes : simpl never.

Lemma length_hdr_bytes (h : LogHdr) : length (hdr_bytes h) = 20%nat.
Proof. reflexivity. Qed.

Lemma length_rec_bytes (v : RmRecord) : rec_ok v -> Z.of_nat (length (rec_bytes v)) = 4 + rec_size v.
Proof. intros [E _]. unfold rec_bytes. rewrite length_app, length_i32_bytes. lia. Qed.

Lemma length_rid_bytes (rid : Rid) : length (rid_bytes rid) = 8%nat.
Proof. unfold rid_bytes. by rewrite length_app, !length_i32_bytes. Qed.

Lemma length_tail_bytes (rid : Rid) (n : list Z) : Z.of_nat (length (tail_bytes rid n)) = SIZEOF_Rid + 8 + Z.of_nat (length n).
Proof. unfold tail_bytes, SIZEOF_Rid. rewrite !length_app, length_rid_bytes, length_u64_bytes. lia. Qed.

Lemma length_body_bytes (r : LogRecord) : body_ok r -> Z.of_nat (length (body_bytes r)) = payload r.
Proof.
  destruct r; intros Hb; try reflexivity; unfold body_bytes, payload, body_ok in *; rewrite !length_app, !Nat2Z.inj_add, length_tail_bytes;
    rewrite !length_rec_bytes by apply Hb; lia.
Qed.

Lemma length_bytes (r : LogRecord) : log_wf r -> Z.of_nat (length (bytes r)) = log_tot_len_ (hdr r).
Proof.
  intros W. unfold bytes. rewrite length_app, length_hdr_bytes, (lw_len _ W), Nat2Z.inj_add, (length_body_bytes r) by apply W. done.
Qed.

Lemma rec_fields_ok (v : RmRecord) : rec_ok v -> rec_fields v = Some [i32_bytes (rec_size v); rec_data v].
Proof.
  intros [E _]. unfold rec_fields. rewrite (proj2 (mem_read_Some 0 (rec_size v) (rec_data v) (rec_data v))); [done|].
  split_and!; [lia|lia|lia|]. rewrite slice_all; [done|lia].
Qed.

Lemma body_fields_ok (r : LogRecord) : body_ok r -> exists fs, body_fields r = Some fs /\ concat fs = body_bytes r.
Proof.
  destruct r; simpl; intros Hb; try (by exists []).
  all: eexists; unfold insert_fields, delete_fields, update_fields; rewrite !rec_fields_ok by apply Hb; simpl; split; [reflexivity|].
  all: unfold rec_bytes, tail_bytes; simpl; rewrite <- ?app_assoc; simpl; by rewrite ?app_nil_r.
Qed.

Lemma serialize_ok (r : LogRecord) :
  log_wf r -> serialize r (replicate (Z.to_nat (log_tot_len_ (hdr r))) 0) = Some (bytes r).
Proof.
  intros W. destruct (body_fields_ok r (lw_body _ W)) as (fs & Ef & Ec). pose proof (length_bytes r W) as Hl.
  unfold bytes in Hl. rewrite length_app, length_hdr_bytes in Hl. unfold serialize.
  set (dest := replicate _ 0). assert (length dest = (20 + length (body_bytes r))%nat) as Hd.
  { unfold dest. rewrite length_replicate. lia. }
  assert (put_fields OFFSET_LOG_TYPE (hdr_fields (hdr r)) dest = Some (hdr_bytes (hdr r) ++ drop 20 dest)) as ->.
  { apply (put_fields_app (hdr_fields (hdr r)) [] dest). fold (hdr_bytes (hdr r)). rewrite length_hdr_bytes. lia. }
  assert (OFFSET_LOG_DATA = Z.of_nat (length (hdr_bytes (hdr r)))) as -> by by rewrite length_hdr_bytes.
  rewrite option_bind_Some, Ef, option_bind_Some.
  rewrite put_fields_app; rewrite Ec; [|rewrite length_drop; lia]. unfold bytes.
  rewrite drop_drop, drop_ge by lia. by rewrite app_nil_r.
Qed.

(** ** Reading back *)

(** [src] reads as the bytes [l]. *)
Definition reads (src : source) (l : list Z) : Prop :=
  forall o n, 0 <= o -> 0 <= n -> o + n <= Z.of_nat (length l) -> src o n = Some (slice (Z.to_nat o) (Z.to_nat n) l).

Lemma reads_of_bytes (l rest : list Z) : reads (of_bytes (l ++ rest)) l.
Proof.
  intros o n Ho Hn Hl. unfold of_bytes. apply mem_read_Some. rewrite length_app. split_and!; [lia|lia|lia|].
  symmetry. apply slice_app_l. lia.
Qed.

(** Reading the piece [b] of [a ++ b ++ c]. *)
Lemma reads_mid (src : source) (a b c : list Z) (o n : Z) :
  reads src (a ++ b ++ c) -> o = Z.of_nat (length a) -> n = Z.of_nat (length b) -> src o n = Some b.
Proof.
  intros R -> ->. rewrite R by (rewrite ?length_app; lia). rewrite !Nat2Z.id. unfold slice.
  by rewrite drop_app_length, take_app_length.
Qed.

Lemma type_of_code_code (t : LogType) : type_of_code (type_code t) = Some t.
Proof. by destruct t. Qed.
Lemma type_code_i32 (t : LogType) : in_i32 (type_code t) = true.
Proof. by destruct t. Qed.

Lemma read_hdr_ok (src : source) (h : LogHdr) (rest : list Z) :
  reads src (hdr_bytes h ++ rest) -> in_i32 (lsn_ h) = true -> in_i32 (log_tid_ h) = true ->
  in_i32 (log_prev_lsn_ h) = true -> 0 <= log_tot_len_ h < 2 ^ 32 -> read_hdr src = Some h.
Proof.
  intros R H1 H2 H3 H4. unfold hdr_bytes, hdr_fields in R. cbn [concat] in R. rewrite app_nil_r, <- !app_assoc in R.
  set (t := i32_bytes (type_code (log_type_ h))) in *. set (l := i32_bytes (lsn_ h)) in *.
  set (n := u32_bytes (log_tot_len_ h)) in *. set (i := i32_bytes (log_tid_ h)) in *. set (p := i32_bytes (log_prev_lsn_ h)) in *.
  unfold read_hdr.
  rewrite (reads_mid src [] t _ OFFSET_LOG_TYPE 4 R) by done. rewrite option_bind_Some. unfold t at 1. rewrite i32_roundtrip by apply type_code_i32.
  rewrite type_of_code_code, option_bind_Some.
  rewrite (reads_mid src t l _ OFFSET_LSN 4 R) by done. rewrite option_bind_Some. unfold l at 1. rewrite i32_roundtrip by done.
  rewrite (app_assoc t l) in R. rewrite (reads_mid src (t ++ l) n _ OFFSET_LOG_TOT_LEN 4 R) by done. rewrite option_bind_Some. unfold n at 1. rewrite u32_roundtrip by done.
  rewrite (app_assoc (t ++ l) n) in R. rewrite (reads_mid src _ i _ OFFSET_LOG_TID 4 R) by done. rewrite option_bind_Some. unfold i at 1. rewrite i32_roundtrip by done.
  rewrite (app_assoc ((t ++ l) ++ n) i) in R. rewrite (reads_mid src _ p _ OFFSET_PREV_LSN 4 R) by done. rewrite option_bind_Some. unfold p at 1. rewrite i32_roundtrip by done.
  by destruct h.
Qed.

Lemma read_rec_ok (src : source) (pre : list Z) (v : RmRecord) (rest : list Z) (o : Z) :
  reads src (pre ++ rec_bytes v ++ rest) -> rec_ok v -> o = Z.of_nat (length pre) -> read_rec src o = Some v.
Proof.
  intros R [E Hi] Ho. unfold rec_bytes in R. rewrite <- app_assoc in R. unfold read_rec.
  rewrite (reads_mid src pre _ _ o 4 R Ho) by by rewrite length_i32_bytes. rewrite option_bind_Some. rewrite i32_roundtrip by done.
  rewrite (app_assoc pre) in R. rewrite (reads_mid src _ (rec_data v) rest (o + 4) _ R) by (rewrite ?length_app, ?length_i32_bytes; lia).
  rewrite option_bind_Some. by destruct v.
Qed.

Lemma read_tail_ok (src : source) (pre : list Z) (rid : Rid) (name : list Z) (rest : list Z) (o : Z) :
  reads src (pre ++ tail_bytes rid name ++ rest) -> rid_ok rid -> Z.of_nat (length name) < 2 ^ 64 ->
  o = Z.of_nat (length pre) -> read_tail src o = Some (rid, name).
Proof.
  intros R [H1 H2] Hn Ho. unfold tail_bytes, rid_bytes in R. rewrite <- !app_assoc in R. unfold read_tail.
  rewrite (reads_mid src pre _ _ o 4 R Ho) by by rewrite length_i32_bytes. rewrite option_bind_Some. rewrite i32_roundtrip by done.
  rewrite (app_assoc pre) in R. rewrite (reads_mid src _ _ _ (o + 4) 4 R) by (rewrite ?length_app, ?length_i32_bytes; lia).
  rewrite option_bind_Some, i32_roundtrip by done. rewrite (app_assoc (pre ++ _)) in R. unfold SIZEOF_Rid.
  rewrite (reads_mid src _ _ _ (o + 8) 8 R) by (rewrite ?length_app, ?length_i32_bytes, ?length_u64_bytes; lia).
  rewrite option_bind_Some, u64_roundtrip by lia. rewrite (app_assoc ((pre ++ _) ++ _)) in R.
  rewrite (reads_mid src _ name rest _ _ R) by (rewrite ?length_app, ?length_i32_bytes, ?length_u64_bytes; lia).
  rewrite option_bind_Some. by destruct rid.
Qed.

Lemma deserialize_ok (r : LogRecord) (src : source) :
  log_wf r -> reads src (bytes r) -> deserialize (kind r) src = Some r.
Proof.
  intros [W1 W2 W3 W4 W5 W6 W7] R. unfold deserialize, bytes in *.
  assert (0 <= payload r) as Hp by (rewrite <- (length_body_bytes r W7); lia).
  rewrite (read_hdr_ok src (hdr r) (body_bytes r)); try done; [|rewrite W2; unfold LOG_HEADER_SIZE, OFFSET_LOG_DATA in *; lia].
  rewrite option_bind_Some.
  destruct r as [h|h|h|h v rid n|h v rid n|h a b rid n]; cbn [hdr kind body_bytes body_ok payload] in *; try reflexivity.
  all: unfold insert_of, delete_of, update_of.
  1, 2: destruct W7 as [Hv Hr]; rewrite (read_rec_ok src (hdr_bytes h) v _ _ R Hv) by by rewrite length_hdr_bytes.
  1, 2: rewrite option_bind_Some; rewrite app_assoc in R; rewrite <- (app_nil_r (tail_bytes rid n)) in R;
    rewrite (read_tail_ok src _ rid n [] _ R Hr); [done|unfold SIZEOF_Rid, LOG_HEADER_SIZE, OFFSET_LOG_DATA in *; destruct Hv; lia|].
  1, 2: rewrite length_app, length_hdr_bytes, Nat2Z.inj_add, length_rec_bytes by done; unfold OFFSET_LOG_DATA; lia.
  destruct W7 as (Ha & Hb & Hr). rewrite (read_rec_ok src (hdr_bytes h) a _ _ R Ha) by by rewrite length_hdr_bytes.
  rewrite option_bind_Some. rewrite app_assoc in R. rewrite (read_rec_ok src _ b _ _ R Hb).
  2: { rewrite length_app, length_hdr_bytes, Nat2Z.inj_add, length_rec_bytes by done. unfold OFFSET_LOG_DATA. lia. }
  rewrite option_bind_Some. rewrite app_assoc in R. rewrite <- (app_nil_r (tail_bytes rid n)) in R.
  rewrite (read_tail_ok src _ rid n [] _ R Hr); [done|unfold SIZEOF_Rid, LOG_HEADER_SIZE, OFFSET_LOG_DATA in *; destruct Ha, Hb; lia|].
  rewrite !length_app, length_hdr_bytes, !Nat2Z.inj_add, !length_rec_bytes by done. unfold OFFSET_LOG_DATA. lia.
Qed.

(** ** Appending to the log file *)

Lemma pwrite_end (bs d : list Z) : pwrite bs (length bs) d = bs ++ d.
Proof.
  unfold pwrite. rewrite Nat.sub_diag. simpl. rewrite app_nil_r, take_ge by done. by rewrite drop_ge, app_nil_r by lia.
Qed.

Section manager.
Context {FO : FileSystem} {FL : FileSystemLaws} {FR : FileSystemReliable}.

(** The content of the log file, which is open. *)
Definition log_content (d : Disk.DiskManager) (l : list Z) : Prop :=
  Disk.log_fd_ d <> -1 /\ exists i, fd_ino (Disk.dm_fs d) (Disk.log_fd_ d) = Some i /\ ino_bytes (Disk.dm_fs d) i = l.

(** Only the log file differs. *)
Definition log_only (d d' : Disk.DiskManager) : Prop :=
  Disk.log_fd_ d' = Disk.log_fd_ d /\ (forall x, fd_ino (Disk.dm_fs d') x = fd_ino (Disk.dm_fs d) x) /\
  (forall i, fd_ino (Disk.dm_fs d) (Disk.log_fd_ d) <> Some i -> ino_bytes (Disk.dm_fs d') i = ino_bytes (Disk.dm_fs d) i) /\
  Disk.fd2pageno_ d' = Disk.fd2pageno_ d /\ Disk.path2fd_ d' = Disk.path2fd_ d /\ Disk.fd2path_ d' = Disk.fd2path_ d.

Lemma write_log_ok (d : Disk.DiskManager) (l data : list Z) :
  log_content d l -> exists d', Disk.write_log data d = (Ret tt, d') /\ log_content d' (l ++ data) /\ log_only d d'.
Proof.
  intros (Hfd & i & Hi & Hl). unfold Disk.write_log, Disk.open_log.
  assert ((log_fd ← gets Disk.log_fd_; if log_fd =? -1 then (fd ← Disk.open_file LOG_FILE_NAME; modify (Disk.SetLogFd fd)) else mret tt) d
    = (Ret tt, d)) as E0.
  { erewrite bind_run by reflexivity. by rewrite (proj2 (Z.eqb_neq _ _) Hfd). }
  rewrite (bind_run _ _ _ _ _ E0). erewrite bind_run by reflexivity.
  destruct (sys_lseek_end (Disk.dm_fs d) (Disk.log_fd_ d)) as [r fs1] eqn:E1.
  erewrite bind_run by (unfold Disk.sys; rewrite E1; reflexivity).
  destruct (lseek_end_law _ _ _ _ E1) as (I1 & B1 & P1).
  destruct (sys_write fs1 (Disk.log_fd_ d) data) as [w fs2] eqn:E2.
  assert (w = Z.of_nat (length data)) as ->.
  { pose proof (write_ok fs1 (Disk.log_fd_ d) data) as L. rewrite E2 in L. apply L. rewrite I1, Hi. by eexists. }
  erewrite bind_run by (unfold Disk.sys; simpl; rewrite E2; reflexivity). rewrite Z.eqb_refl. simpl.
  destruct (write_law _ _ _ _ _ E2) as (I2 & B2 & W2). destruct (W2 eq_refl) as (j & Hj & Ej).
  rewrite I1, Hi in Hj. injection Hj as <-. rewrite (P1 i Hi), Nat2Z.id, B1, Hl, pwrite_end in Ej.
  eexists. split; [reflexivity|]. split.
  - split; [done|]. exists i. simpl. by rewrite I2, I1.
  - split_and!; simpl; try done; [intros x; by rewrite I2, I1|]. intros k Hk. rewrite B2, B1; [done|]. by rewrite I1.
Qed.

(** Between calls the buffer is empty. *)
Definition log_ready (s : LogManager) (l : list Z) : Prop :=
  buffer_ s = [] /\ log_content (lm_disk s) l.

Lemma flush_log_ok (s : LogManager) (l : list Z) :
  log_content (lm_disk s) l ->
  exists s', flush_log_to_disk s = (Ret tt, s') /\ log_ready s' (l ++ buffer_ s) /\
    global_lsn_ s' = global_lsn_ s /\ persist_lsn_ s' = wrap_s 32 (global_lsn_ s - 1) /\ log_only (lm_disk s) (lm_disk s').
Proof.
  intros Hl. destruct (write_log_ok (lm_disk s) l (buffer_ s) Hl) as (d' & Hw & Hc & Ho).
  unfold flush_log_to_disk. erewrite bind_run by reflexivity. erewrite bind_run by (apply zoom_run; exact Hw).
  eexists. split; [reflexivity|]. by split_and!.
Qed.

Lemma log_wf_lsn (r : LogRecord) (x : Z) : log_wf r -> in_i32 x = true -> log_wf (map_hdr (set_lsn x) r).
Proof. intros [] Hx. destruct r; by split. Qed.

Lemma log_wf_prev (r : LogRecord) (x : Z) : log_wf r -> in_i32 x = true -> log_wf (map_hdr (set_prev x) r).
Proof. intros [] Hx. destruct r; by split. Qed.

Lemma add_log_ok (s : LogManager) (l : list Z) (r : LogRecord) :
  log_ready s l -> log_wf r -> log_tot_len_ (hdr r) <= LOG_BUFFER_SIZE -> in_i32 (global_lsn_ s) = true ->
  let r' := map_hdr (set_lsn (global_lsn_ s)) r in
  exists s', add_log_to_buffer r s = (Ret (global_lsn_ s, r'), s') /\ log_ready s' (l ++ bytes r') /\
    global_lsn_ s' = wrap_s 32 (global_lsn_ s + 1) /\ log_only (lm_disk s) (lm_disk s').
Proof.
  intros [Hb Hc] W Hlen Hi r'. pose proof (length_bytes r W) as Hpos.
  assert (log_tot_len_ (hdr r') = log_tot_len_ (hdr r)) as Etl by by destruct r.
  assert (wrap_s 32 (log_tot_len_ (hdr r)) = log_tot_len_ (hdr r)) as Ew.
  { apply wrap_s_id; [done|]. unfold LOG_BUFFER_SIZE, PAGE_SIZE in Hlen. simpl. lia. }
  unfold add_log_to_buffer. erewrite bind_run by reflexivity.
  assert (is_full (wrap_s 32 (log_tot_len_ (hdr r))) (id s) s = (Ret false, s)) as Ef.
  { unfold is_full, offset_, id. rewrite Hb, Ew. rewrite (bind_run _ _ s s (log_tot_len_ (hdr r))).
    - by rewrite (proj2 (Z.ltb_ge _ _)).
    - unfold int_op. change (Z.of_nat (length [])) with 0. rewrite Z.add_0_l. assert (in_i32 (log_tot_len_ (hdr r)) = true) as ->; [|done].
      unfold in_i32, INT32_MIN, INT32_MAX, LOG_BUFFER_SIZE, PAGE_SIZE in *. lia. }
  rewrite (bind_run _ _ _ _ _ Ef). erewrite bind_run by reflexivity. erewrite bind_run by reflexivity.
  erewrite bind_run by reflexivity. change (map_hdr _ r) with r'.
  rewrite (serialize_ok r') by by apply log_wf_lsn. erewrite bind_run by reflexivity. erewrite bind_run by reflexivity.
  unfold offset_, id. cbn [set_global buffer_]. rewrite Hb, Etl, (proj2 (Z.leb_le _ _)) by (simpl; lia).
  erewrite bind_run by reflexivity. cbn [set_buffer set_global app].
  destruct (flush_log_ok (set_buffer (bytes r') (set_global (wrap_s 32 (global_lsn_ s + 1)) s)) l Hc) as (s' & Hf & Hr' & Hg & _ & Ho).
  exists s'. split; [|done]. erewrite bind_run by exact Hf. reflexivity.
Qed.

End manager.
End LogFacts.
