(* ===== verification/LogSpec.v ===== *)
(** * What the log guarantees

    Every record survives a round trip through its byte format, and the log
    file is the concatenation of the records in the order of their numbers. *)

From S2P Require Import Prelude Bytes Posix Disk Txn Log LogFacts.

Module LogSpec.
Import Log LogFacts.

Section spec.
Context {FO : FileSystem} {FL : FileSystemLaws} {FR : FileSystemReliable}.

(** A sequence of [add_log_to_buffer] calls. *)
Fixpoint add_all (rs : list LogRecord) : M LogManager (list Z) :=
  match rs with
  | [] => mret []
  | r :: rs => p ← add_log_to_buffer r; l ← add_all rs; mret (p.1 :: l)
  end.

(** The records with the numbers they get, starting at [g]. *)
Fixpoint numbered (g : Z) (rs : list LogRecord) : list LogRecord :=
  match rs with
  | [] => []
  | r :: rs => map_hdr (set_lsn g) r :: numbered (g + 1) rs
  end.

Lemma add_all_ok (rs : list LogRecord) (s : LogManager) (l : list Z) :
  log_ready s l -> Forall (fun r => log_wf r /\ log_tot_len_ (hdr r) <= LOG_BUFFER_SIZE) rs ->
  INT32_MIN <= global_lsn_ s -> global_lsn_ s + Z.of_nat (length rs) <= INT32_MAX ->
  exists s', add_all rs s = (Ret (seqZ (global_lsn_ s) (Z.of_nat (length rs))), s') /\
    log_ready s' (l ++ concat (bytes <$> numbered (global_lsn_ s) rs)) /\
    global_lsn_ s' = global_lsn_ s + Z.of_nat (length rs).
Proof.
  revert s l. induction rs as [|r rs IH]; intros s l Hr Hall Hlo Hhi; simpl.
  - exists s. split_and!; [done|by rewrite app_nil_r|]. change (Z.of_nat 0) with 0. lia.
  - apply Forall_cons in Hall as [[W Hlen] Hall]. simpl in Hhi.
    destruct (add_log_ok s l r Hr W Hlen) as (s1 & R1 & Hr1 & Hg & _).
    { unfold in_i32, INT32_MIN, INT32_MAX in *. lia. }
    assert (global_lsn_ s1 = global_lsn_ s + 1) as Eg.
    { rewrite Hg. apply wrap_s_id; [done|]. unfold INT32_MIN, INT32_MAX in *. simpl. lia. }
    destruct (IH s1 _ Hr1 Hall) as (s2 & R2 & Hr2 & Hg2); [lia|lia|]. rewrite Eg in *.
    exists s2. rewrite (bind_run _ _ _ _ _ R1), (bind_run _ _ _ _ _ R2). split_and!.
    + rewrite mret_run, Nat2Z.inj_succ, (seqZ_cons (global_lsn_ s) (Z.succ _)) by lia. simpl. by rewrite Z.pred_succ, Z.add_1_r.
    + by rewrite <- app_assoc in Hr2.
    + lia.
Qed.

(** C21: [deserialize] inverts [serialize]: the bytes of a record have the length
    the record declares and, whatever follows them, read back as that record. *)
Theorem log_record_roundtrip (r : LogRecord) (rest : list Z) :
  log_wf r ->
  exists bs, serialize r (replicate (Z.to_nat (log_tot_len_ (hdr r))) 0) = Some bs /\
    Z.of_nat (length bs) = log_tot_len_ (hdr r) /\
    deserialize (kind r) (of_bytes (bs ++ rest)) = Some r.
Proof.
  intros W. exists (bytes r). split_and!; [by apply serialize_ok|by apply length_bytes|].
  apply deserialize_ok; [done|apply reads_of_bytes].
Qed.

(** A sequence of [add_log_to_buffer] calls hands out consecutive log
    sequence numbers and leaves the log file equal to its old content followed
    by the records in that order; nothing stays behind in the buffer. *)
Theorem log_appends_in_order (rs : list LogRecord) (s : LogManager) (l : list Z) :
  log_ready s l -> Forall (fun r => log_wf r /\ log_tot_len_ (hdr r) <= LOG_BUFFER_SIZE) rs ->
  INT32_MIN <= global_lsn_ s -> global_lsn_ s + Z.of_nat (length rs) <= INT32_MAX ->
  exists s', add_all rs s = (Ret (seqZ (global_lsn_ s) (Z.of_nat (length rs))), s') /\
    log_ready s' (l ++ concat (bytes <$> numbered (global_lsn_ s) rs)) /\
    global_lsn_ s' = global_lsn_ s + Z.of_nat (length rs).
Proof. exact (add_all_ok rs s l). Qed.

End spec.
End LogSpec.

Module LogDemo.
Import Posix.MemFS Log LogFacts LogSpec.

Definition demo_fs : MemFS.t :=
  {| paths := {[ LOG_FILE_NAME := (S_ISREG, 9) ]}; data := {[ 9 := [] ]}; fds := {[ 4 := (9, O) ]} |}.
Definition demo_lm : LogManager := make 0 (Disk.SetLogFd 4 (Disk.make demo_fs)).

Definition demo_rec : LogRecord := insert_record 1 (mkRec 3 [10; 20; 30]) (mkRid 1 0) [116].

Lemma demo_rec_wf : log_wf demo_rec.
Proof. by split. Qed.

Lemma demo_ready : log_ready demo_lm [].
Proof. split; [done|]. split; [done|]. by exists 9. Qed.

Lemma log_record_roundtrip_witness :
  exists bs, serialize demo_rec (replicate 44 0) = Some bs /\ Z.of_nat (length bs) = 44 /\
    deserialize INSERT (of_bytes (bs ++ [1; 2])) = Some demo_rec.
Proof. exact (log_record_roundtrip demo_rec [1; 2] demo_rec_wf). Defined.

Lemma log_appends_in_order_witness :
  exists s', add_all [begin_record 1; demo_rec; commit_record 1] demo_lm = (Ret [0; 1; 2], s') /\
    log_ready s' (concat (bytes <$> numbered 0 [begin_record 1; demo_rec; commit_record 1])) /\ global_lsn_ s' = 3.
Proof.
  apply (log_appends_in_order [begin_record 1; demo_rec; commit_record 1] demo_lm []).
  - exact demo_ready.
  - repeat apply Forall_cons_2; [| | |constructor]; (split; [by split|vm_compute; congruence]).
  - vm_compute. congruence.
  - vm_compute. congruence.
Defined.

End LogDemo.
