(* ===== verification/TxnManager.v ===== *)
(** * The transaction manager ([src/src/transaction/transaction_manager.{h,cpp}])

    [begin] and [commit] and their effect on the lock table and the log:
    a commit releases every lock of the transaction, whatever was locked, and
    appends a commit record linked to the transaction's previous record. *)

From S2P Require Import Prelude Bytes Posix Disk Txn Lock LockFacts LockSpec Log LogFacts LogSpec.

Module TxnMgr.
Section manager.
Context {FO : FileSystem}.

(** The objects a [TransactionManager] works on; a [Transaction*] is the key
    of its entry in the transaction store, its identifier. *)
Record TransactionManager : Type := mkTM {
  next_txn_id_ : Z;
  txn_map : gset Z;
  tm_locks : Lock.LockManager;
  tm_log : Log.LogManager
}.

Definition set_next (x : Z) (s : TransactionManager) : TransactionManager := mkTM x (txn_map s) (tm_locks s) (tm_log s).
Definition set_map (x : gset Z) (s : TransactionManager) : TransactionManager := mkTM (next_txn_id_ s) x (tm_locks s) (tm_log s).
Definition set_tm_locks (x : Lock.LockManager) (s : TransactionManager) : TransactionManager := mkTM (next_txn_id_ s) (txn_map s) x (tm_log s).
Definition set_tm_log (x : Log.LogManager) (s : TransactionManager) : TransactionManager := mkTM (next_txn_id_ s) (txn_map s) (tm_locks s) x.

Definition on_locks {A} (m : M Lock.LockManager A) : M TransactionManager A := zoom tm_locks set_tm_locks m.
Definition on_log {A} (m : M Log.LogManager A) : M TransactionManager A := zoom tm_log set_tm_log m.

(** Append [r], linked to the transaction's last record, and remember its number. *)
Definition log_txn (txn : Z) (r : Log.LogRecord) : M TransactionManager unit :=
  t ← on_locks (Lock.get_txn txn);
  p ← on_log (Log.add_log_to_buffer (Log.map_hdr (Log.set_prev (prev_lsn_ t)) r));
  on_locks (Lock.upd_txn txn (set_prev_lsn p.1)).

(** [garbage] is the indeterminate [txn_mode_] of a new transaction. *)
Definition begin_ (garbage : bool) (txn : option Z) : M TransactionManager Z :=
  txn ← (match txn with
         | Some x => mret x
         | None =>
             x ← gets next_txn_id_;
             on_locks (modify (fun l => Lock.set_txns (<[x := make_txn garbage x]> (Lock.txns l)) l)) ;;
             modify (set_next (wrap_s 32 (x + 1))) ;;
             mret x
         end);
  t ← on_locks (Lock.get_txn txn);
  log_txn txn (Log.begin_record (txn_id_ t)) ;;
  modify (fun s => set_map ({[txn_id_ t]} ∪ txn_map s) s) ;;
  mret txn.

(** The loop over the lock set. *)
Definition unlock_all (txn : Z) (ids : list LockDataId) : M TransactionManager unit :=
  forM ids (fun id => _ ← on_locks (Lock.unlock txn id); mret tt).

(** [get_lock_set().reset()] resets a temporary: the lock set itself stays. *)
Definition commit (txn : Z) : M TransactionManager unit :=
  on_locks (Lock.upd_txn txn (set_write_set [])) ;;
  t ← on_locks (Lock.get_txn txn);
  unlock_all txn (elements (lock_set_ t)) ;;
  log_txn txn (Log.commit_record (txn_id_ t)) ;;
  on_locks (Lock.upd_txn txn (set_state COMMITTED)).

(** [get_transaction]: the assertions fail for an unknown transaction. *)
Definition get_transaction (txn_id : Z) : M TransactionManager (option Z) :=
  if txn_id =? INVALID_TXN_ID then mret None else
  s ← gets id;
  assert (bool_decide (txn_id ∈ txn_map s)) ;;
  mret (Some txn_id).

End manager.

(** ** Facts *)

Section facts.
Context {FO : FileSystem} {FL : FileSystemLaws} {FR : FileSystemReliable}.
Implicit Types s : TransactionManager.

Lemma upd_txn_run (txn : Z) (f : Transaction -> Transaction) (lk : Lock.LockManager) (t : Transaction) :
  Lock.txns lk !! txn = Some t ->
  Lock.upd_txn txn f lk = (Ret tt, Lock.set_txns (<[txn := f t]> (Lock.txns lk)) lk).
Proof. intros Ht. unfold Lock.upd_txn. erewrite bind_run by (unfold Lock.get_txn; rewrite Ht; reflexivity). reflexivity. Qed.

(** Changing a transaction but not its lock set changes no lock. *)
Lemma upd_txn_inv (txn : Z) (f : Transaction -> Transaction) (lk : Lock.LockManager) (t : Transaction) :
  LockFacts.inv lk -> Lock.txns lk !! txn = Some t -> lock_set_ (f t) = lock_set_ t ->
  LockFacts.inv (Lock.set_txns (<[txn := f t]> (Lock.txns lk)) lk) /\
  forall x id m, LockFacts.holds (Lock.set_txns (<[txn := f t]> (Lock.txns lk)) lk) x id m <-> LockFacts.holds lk x id m.
Proof.
  intros I Ht Hs. split; [|intros x id m; by apply LockSpec.holds_table].
  apply (LockSpec.inv_txns lk); [done|done|]. intros x u Hu. simpl.
  destruct (decide (x = txn)) as [->|Hne]; [rewrite lookup_insert_eq|rewrite lookup_insert_ne by done; by exists u].
  eexists. split; [done|]. rewrite Ht in Hu. injection Hu as <-. by rewrite Hs.
Qed.

(** A transaction that may still release locks. *)
Definition active (lk : Lock.LockManager) (txn : Z) (t : Transaction) : Prop :=
  Lock.txns lk !! txn = Some t /\ state_ t <> ABORTED /\ state_ t <> COMMITTED.

Lemma unlock_all_ok (txn : Z) (ids : list LockDataId) (s : TransactionManager) (t : Transaction) :
  LockFacts.inv (tm_locks s) -> active (tm_locks s) txn t ->
  exists lk st, unlock_all txn ids s = (Ret tt, set_tm_locks lk s) /\ LockFacts.inv lk /\
    st <> ABORTED /\ st <> COMMITTED /\ Lock.txns lk = <[txn := set_state st t]> (Lock.txns (tm_locks s)) /\
    forall x id m, LockFacts.holds lk x id m <-> LockFacts.holds (tm_locks s) x id m /\ (x <> txn \/ id ∉ ids).
Proof.
  revert s t. induction ids as [|i ids IH]; intros s t I (Ht & Ha & Hc).
  - exists (tm_locks s), (state_ t). split_and!; try done.
    + unfold unlock_all. simpl. by destruct s.
    + symmetry. apply insert_id. rewrite Ht. by destruct t.
    + intros x id m. split; [|by intros [? _]]. intros Hh. split; [done|right; apply not_elem_of_nil].
  - destruct (LockSpec.unlock_result (tm_locks s) txn i t I Ht Ha Hc) as (lk1 & R1 & I1 & T1 & H1).
    set (t1 := set_state _ t) in T1. set (s1 := set_tm_locks lk1 s).
    assert (active (tm_locks s1) txn t1) as A1.
    { split_and!; simpl; [by rewrite T1, lookup_insert_eq|by case_decide..]. }
    destruct (IH s1 t1 I1 A1) as (lk & st & R & I' & N1 & N2 & T' & H').
    exists lk, st. split_and!; try done.
    + unfold unlock_all in *. simpl. erewrite bind_run; [exact R|].
      erewrite bind_run by (apply zoom_run; exact R1). reflexivity.
    + rewrite T'. simpl. rewrite T1, insert_insert_eq. done.
    + intros x id m. rewrite H'. simpl. rewrite H1, not_elem_of_cons. naive_solver.
Qed.

Lemma record_wf (r : Log.LogRecord) (txn_id prev : Z) :
  (r = Log.begin_record txn_id \/ r = Log.commit_record txn_id \/ r = Log.abort_record txn_id) ->
  in_i32 txn_id = true -> in_i32 prev = true -> LogFacts.log_wf (Log.map_hdr (Log.set_prev prev) r) /\ Log.log_tot_len_ (Log.hdr r) = 20.
Proof. intros [->|[->| ->]] H1 H2; by repeat split. Qed.

Lemma log_txn_ok (s : TransactionManager) (txn : Z) (t : Transaction) (l : list Z) (r : Log.LogRecord) :
  Lock.txns (tm_locks s) !! txn = Some t -> LogFacts.log_ready (tm_log s) l ->
  LogFacts.log_wf (Log.map_hdr (Log.set_prev (prev_lsn_ t)) r) -> Log.log_tot_len_ (Log.hdr r) = 20 ->
  in_i32 (Log.global_lsn_ (tm_log s)) = true ->
  let n := Log.global_lsn_ (tm_log s) in
  let r' := Log.map_hdr (Log.set_lsn n) (Log.map_hdr (Log.set_prev (prev_lsn_ t)) r) in
  exists lg, log_txn txn r s = (Ret tt, set_tm_log lg (set_tm_locks
      (Lock.set_txns (<[txn := set_prev_lsn n t]> (Lock.txns (tm_locks s))) (tm_locks s)) s)) /\
    LogFacts.log_ready lg (l ++ LogFacts.bytes r') /\ Log.global_lsn_ lg = wrap_s 32 (n + 1).
Proof.
  intros Ht Hl W Hlen Hi n r'.
  destruct (LogFacts.add_log_ok (tm_log s) l (Log.map_hdr (Log.set_prev (prev_lsn_ t)) r) Hl W) as (lg & R & Hr & Hg & _).
  - assert (Log.log_tot_len_ (Log.hdr (Log.map_hdr (Log.set_prev (prev_lsn_ t)) r)) = 20) as -> by (by destruct r).
    unfold LOG_BUFFER_SIZE, PAGE_SIZE. lia.
  - done.
  - exists lg. split_and!; [|done|done]. unfold log_txn.
    erewrite bind_run by (apply zoom_run; unfold Lock.get_txn; rewrite Ht; reflexivity).
    erewrite bind_run by (apply zoom_run; exact R).
    assert (Lock.txns (tm_locks (set_tm_log lg (set_tm_locks (tm_locks s) s))) !! txn = Some t) as Ht' by done.
    apply (upd_txn_run txn (set_prev_lsn n)) in Ht'. apply zoom_run with (put := set_tm_locks) in Ht'. exact Ht'.
Qed.

Lemma commit_run (s : TransactionManager) (txn : Z) (t : Transaction) (l : list Z) :
  LockFacts.inv (tm_locks s) -> active (tm_locks s) txn t -> LogFacts.log_ready (tm_log s) l ->
  in_i32 (txn_id_ t) = true -> in_i32 (prev_lsn_ t) = true -> in_i32 (Log.global_lsn_ (tm_log s)) = true ->
  let n := Log.global_lsn_ (tm_log s) in
  exists s' t', commit txn s = (Ret tt, s') /\ LockFacts.inv (tm_locks s') /\
    (forall id m, ~ LockFacts.holds (tm_locks s') txn id m) /\
    (forall x id m, x <> txn -> LockFacts.holds (tm_locks s') x id m <-> LockFacts.holds (tm_locks s) x id m) /\
    Lock.txns (tm_locks s') !! txn = Some t' /\ state_ t' = COMMITTED /\ write_set_ t' = [] /\ prev_lsn_ t' = n /\
    LogFacts.log_ready (tm_log s') (l ++ LogFacts.bytes (Log.CommitLogRecord (Log.mkLogHdr Log.COMMIT n 20 (txn_id_ t) (prev_lsn_ t)))) /\
    (forall y, y <> txn -> Lock.txns (tm_locks s') !! y = Lock.txns (tm_locks s) !! y).
Proof.
  intros I (Ht & Ha & Hc) Hl H1 H2 H3 n.
  set (t1 := set_write_set [] t). set (lk1 := Lock.set_txns (<[txn := t1]> (Lock.txns (tm_locks s))) (tm_locks s)).
  destruct (upd_txn_inv txn (set_write_set []) (tm_locks s) t I Ht eq_refl) as [I1 Hh1]. fold t1 lk1 in I1, Hh1.
  assert (active lk1 txn t1) as A1 by (split_and!; simpl; [apply lookup_insert_eq|done..]).
  destruct (unlock_all_ok txn (elements (lock_set_ t1)) (set_tm_locks lk1 s) t1 I1 A1) as (lk2 & st & R2 & I2 & _ & _ & T2 & Hh2).
  set (t2 := set_state st t1) in T2. set (s2 := set_tm_locks lk2 (set_tm_locks lk1 s)).
  assert (Lock.txns lk2 !! txn = Some t2) as Ht2 by (rewrite T2; apply lookup_insert_eq).
  destruct (record_wf (Log.commit_record (txn_id_ t)) (txn_id_ t) (prev_lsn_ t)) as [W Hlen]; [by right; left|done|done|].
  destruct (log_txn_ok s2 txn t2 l (Log.commit_record (txn_id_ t)) Ht2 Hl W Hlen H3) as (lg & R3 & Hr3 & _).
  destruct (upd_txn_inv txn (set_prev_lsn n) lk2 t2 I2 Ht2 eq_refl) as [I3 Hh3].
  set (lk3 := Lock.set_txns (<[txn := set_prev_lsn n t2]> (Lock.txns lk2)) lk2) in *.
  assert (Lock.txns lk3 !! txn = Some (set_prev_lsn n t2)) as Ht3 by apply lookup_insert_eq.
  destruct (upd_txn_inv txn (set_state COMMITTED) lk3 _ I3 Ht3 eq_refl) as [I4 Hh4].
  assert (forall x id m, LockFacts.holds (Lock.set_txns (<[txn := set_state COMMITTED (set_prev_lsn n t2)]> (Lock.txns lk3)) lk3) x id m <->
    LockFacts.holds (tm_locks s) x id m /\ (x <> txn \/ id ∉ elements (lock_set_ t))) as Hall.
  { intros x id m. rewrite Hh4, Hh3, Hh2. simpl. by rewrite Hh1. }
  exists (set_tm_log lg (set_tm_locks (Lock.set_txns (<[txn := set_state COMMITTED (set_prev_lsn n t2)]> (Lock.txns lk3)) lk3) s)),
    (set_state COMMITTED (set_prev_lsn n t2)).
  split_and!; [|done| | | |done|done|done|exact Hr3|].
  - unfold commit. erewrite bind_run by (apply zoom_run, upd_txn_run; exact Ht).
    erewrite bind_run by (apply zoom_run; unfold Lock.get_txn; simpl; rewrite lookup_insert_eq; reflexivity).
    erewrite bind_run by exact R2. erewrite bind_run by exact R3.
    exact (zoom_run tm_locks set_tm_locks _ (set_tm_log lg (set_tm_locks lk3 s2)) _ _ (upd_txn_run txn (set_state COMMITTED) lk3 _ Ht3)).
  - intros id m [Hh [?|Hnot]]%Hall; [done|]. apply Hnot, elem_of_elements.
    destruct Hh as (q & r & Hq & Hr & Er & _). destruct (LockFacts.l_set _ I id q r Hq Hr) as (u & Hu & Hin).
    rewrite Er, Ht in Hu. by injection Hu as <-.
  - intros x id m Hx. rewrite Hall. naive_solver.
  - apply lookup_insert_eq.
  - intros y Hy. simpl. rewrite !lookup_insert_ne by done. rewrite T2, lookup_insert_ne by done. simpl. by rewrite lookup_insert_ne.
Qed.

(** C23: [commit] of a transaction that has not ended returns; it holds no lock
    afterwards, no other transaction's lock changes, its write set is empty and
    its state is COMMITTED, and the log has grown by exactly its commit record,
    linked to its previous record. *)
Theorem commit_releases_locks (s : TransactionManager) (txn : Z) (t : Transaction) (l : list Z) :
  LockFacts.inv (tm_locks s) -> active (tm_locks s) txn t -> LogFacts.log_ready (tm_log s) l ->
  in_i32 (txn_id_ t) = true -> in_i32 (prev_lsn_ t) = true -> in_i32 (Log.global_lsn_ (tm_log s)) = true ->
  let n := Log.global_lsn_ (tm_log s) in
  exists s' t', commit txn s = (Ret tt, s') /\ LockFacts.inv (tm_locks s') /\
    (forall id m, ~ LockFacts.holds (tm_locks s') txn id m) /\
    (forall x id m, x <> txn -> LockFacts.holds (tm_locks s') x id m <-> LockFacts.holds (tm_locks s) x id m) /\
    Lock.txns (tm_locks s') !! txn = Some t' /\ state_ t' = COMMITTED /\ write_set_ t' = [] /\ prev_lsn_ t' = n /\
    LogFacts.log_ready (tm_log s') (l ++ LogFacts.bytes (Log.CommitLogRecord (Log.mkLogHdr Log.COMMIT n 20 (txn_id_ t) (prev_lsn_ t)))).
Proof.
  intros I A Hl H1 H2 H3 n. destruct (commit_run s txn t l I A Hl H1 H2 H3) as (s' & t' & R & H & Hno & Hot & Ht & Hs & Hw & Hp & L & _).
  exists s', t'. by split_and!.
Qed.

(** A transaction that still grows gets every lock nobody else is in the way of. *)
Lemma growing_granted (op : LockSpec.LockOp) (y : Z) (t : Transaction) (lk : Lock.LockManager) :
  LockFacts.inv lk -> Lock.txns lk !! y = Some t -> state_ t = DEFAULT \/ state_ t = GROWING -> ~ LockSpec.conflict lk y (LockSpec.op_id op) (LockSpec.op_mode op) ->
  exists lk' m, LockSpec.op_run op y lk = (Ret true, lk') /\ LockFacts.holds lk' y (LockSpec.op_id op) m /\ LockFacts.covers m (LockSpec.op_mode op) = true.
Proof.
  intros I Ht Hst Hno. destruct (LockSpec.op_run op y lk) as [o lk'] eqn:E. pose proof (LockSpec.rr_outcome _ _ _ _ _ _ (LockSpec.op_result op y lk lk' o I E)) as Ho.
  rewrite (LockSpec.op_run_spec op y lk I) in E. unfold LockFacts.spec_lock in E.
  assert (exists lk1, Lock.check_lock y lk = (Ret true, lk1)) as (lk1 & Ec).
  { unfold Lock.check_lock. rewrite (bind_run _ _ lk lk t) by (unfold Lock.get_txn; by rewrite Ht). destruct Hst as [-> | ->]; [|by eexists].
    eexists. rewrite (bind_run _ _ _ _ _ (upd_txn_run y (set_state GROWING) lk t Ht)). reflexivity. }
  rewrite (bind_run _ _ _ _ _ Ec) in E. cbn [negb] in E.
  assert (exists q lk2, LockFacts.spec_queue y (LockSpec.op_id op) (LockSpec.op_mode op) q lk2 = (o, lk')) as (q & lk2 & Eq).
  { unfold mbind, M_bind, Lock.get_queue in E. destruct (Lock.lock_table_ lk1 !! LockSpec.op_id op); simpl in E; eauto. }
  destruct (LockSpec.spec_queue_outcome _ _ _ _ _ _ _ Eq) as [H1 H2]. destruct o as [[]|e|w]; [|done| |congruence].
  - destruct Ho as (m & Hh & Hc). by exists lk', m.
  - destruct Ho as [[-> _]|[_ Hc]]; [|done]. by destruct (H2 LOCK_ON_SHIRINKING).
Qed.

(** C8: no lock is withheld forever.  When the only transaction in the way of a
    lock request is [txn], then once [txn] has committed the same request of a
    transaction that still grows is granted, in a mode that covers what it asks
    for. *)
Theorem commit_unblocks (s : TransactionManager) (txn y : Z) (t u : Transaction) (l : list Z) (op : LockSpec.LockOp) :
  LockFacts.inv (tm_locks s) -> active (tm_locks s) txn t -> LogFacts.log_ready (tm_log s) l ->
  in_i32 (txn_id_ t) = true -> in_i32 (prev_lsn_ t) = true -> in_i32 (Log.global_lsn_ (tm_log s)) = true ->
  y <> txn -> Lock.txns (tm_locks s) !! y = Some u -> state_ u = DEFAULT \/ state_ u = GROWING ->
  (forall z m' held, z <> y -> z <> txn -> LockFacts.holds (tm_locks s) z (LockSpec.op_id op) m' ->
    held = LockSpec.op_mode op \/ (exists m0, LockFacts.holds (tm_locks s) y (LockSpec.op_id op) m0 /\ held = LockFacts.join m0 (LockSpec.op_mode op)) -> LockFacts.compat m' held = true) ->
  exists s' lk' m, commit txn s = (Ret tt, s') /\ LockSpec.op_run op y (tm_locks s') = (Ret true, lk') /\
    LockFacts.holds lk' y (LockSpec.op_id op) m /\ LockFacts.covers m (LockSpec.op_mode op) = true.
Proof.
  intros I A Hl H1 H2 H3 Hy Hu Hgrow Hfree. destruct (commit_run s txn t l I A Hl H1 H2 H3) as (s' & t' & R & I' & Hno & Hot & _ & _ & _ & _ & _ & Hk).
  destruct (growing_granted op y u (tm_locks s') I') as (lk' & m & E & H); [by rewrite Hk|done| |by exists s', lk', m].
  intros (z & m' & held & Hz & Hh & Hheld & Hc). destruct (decide (z = txn)) as [->|Hzt]; [by apply (Hno _ _ Hh)|].
  rewrite (Hot z _ _ Hzt) in Hh. rewrite (Hfree z m' held Hz Hzt Hh) in Hc; [done|].
  destruct Hheld as [->|(m0 & Hm & ->)]; [by left|]. right. exists m0. split; [|done]. by apply Hot.
Qed.

Lemma new_txn_inv (lk : Lock.LockManager) (x : Z) (t : Transaction) :
  LockFacts.inv lk -> Lock.txns lk !! x = None ->
  LockFacts.inv (Lock.set_txns (<[x := t]> (Lock.txns lk)) lk) /\
  forall y id m, LockFacts.holds (Lock.set_txns (<[x := t]> (Lock.txns lk)) lk) y id m <-> LockFacts.holds lk y id m.
Proof.
  intros I Hx. split; [|intros y id m; by apply LockSpec.holds_table].
  apply (LockSpec.inv_txns lk); [done|done|]. intros y u Hu. simpl.
  rewrite lookup_insert_ne by (intros ->; congruence). by exists u.
Qed.

(** [begin] without a transaction creates one under an unused identifier,
    registers it, gives it its begin record as last log record and changes no
    lock. *)
Theorem begin_creates_transaction (s : TransactionManager) (garbage : bool) (l : list Z) :
  let x := next_txn_id_ s in let n := Log.global_lsn_ (tm_log s) in
  LockFacts.inv (tm_locks s) -> Lock.txns (tm_locks s) !! x = None -> LogFacts.log_ready (tm_log s) l ->
  in_i32 x = true -> in_i32 n = true ->
  exists s', begin_ garbage None s = (Ret x, s') /\ LockFacts.inv (tm_locks s') /\
    (forall y id m, LockFacts.holds (tm_locks s') y id m <-> LockFacts.holds (tm_locks s) y id m) /\
    Lock.txns (tm_locks s') = <[x := set_prev_lsn n (make_txn garbage x)]> (Lock.txns (tm_locks s)) /\
    txn_map s' = {[x]} ∪ txn_map s /\ next_txn_id_ s' = wrap_s 32 (x + 1) /\ Log.global_lsn_ (tm_log s') = wrap_s 32 (n + 1) /\
    LogFacts.log_ready (tm_log s') (l ++ LogFacts.bytes (Log.BeginLogRecord (Log.mkLogHdr Log.BEGIN n 20 x INVALID_LSN))).
Proof.
  intros x n I Hx Hl H1 H2. set (t := make_txn garbage x).
  set (lk1 := Lock.set_txns (<[x := t]> (Lock.txns (tm_locks s))) (tm_locks s)).
  destruct (new_txn_inv (tm_locks s) x t I Hx) as [I1 Hh1]. fold lk1 in I1, Hh1.
  set (s1 := set_next (wrap_s 32 (x + 1)) (set_tm_locks lk1 s)).
  assert (Lock.txns (tm_locks s1) !! x = Some t) as Ht by apply lookup_insert_eq.
  destruct (record_wf (Log.begin_record x) x INVALID_LSN) as [W Hlen]; [by left|done|done|].
  destruct (log_txn_ok s1 x t l (Log.begin_record x) Ht Hl W Hlen H2) as (lg & R & Hr & Hg).
  destruct (upd_txn_inv x (set_prev_lsn n) lk1 t I1 Ht eq_refl) as [I2 Hh2].
  eexists. split; [|split_and!].
  - unfold begin_. erewrite bind_run.
    2: { instantiate (1 := s1). instantiate (1 := x). reflexivity. }
    erewrite bind_run by (apply zoom_run; unfold Lock.get_txn; rewrite Ht; reflexivity).
    erewrite bind_run by exact R.
    erewrite bind_run by reflexivity. reflexivity.
  - exact I2.
  - intros y id m. transitivity (LockFacts.holds lk1 y id m); [exact (Hh2 y id m)|apply Hh1].
  - simpl. apply insert_insert_eq.
  - done.
  - done.
  - exact Hg.
  - exact Hr.
Qed.

End facts.
End TxnMgr.

Module TxnDemo.
Import Posix.MemFS TxnMgr.

(** Two transactions share a record lock; the log is empty. *)
Definition demo_tm : @TransactionManager MemFS.memfs := mkTM 3 {[ 1; 2 ]} LockDemo.shared LogDemo.demo_lm.
Definition txn1 : Transaction := default (make_txn false 1) (Lock.txns LockDemo.shared !! 1).

Lemma txn1_active : active (tm_locks demo_tm) 1 txn1.
Proof. split_and!; vm_compute; [reflexivity|congruence..]. Qed.

Lemma commit_releases_locks_witness :
  LockFacts.holds (tm_locks demo_tm) 1 (RecordLock 7 LockDemo.rid0) SHARED /\
  exists s' t', commit 1 demo_tm = (Ret tt, s') /\ LockFacts.inv (tm_locks s') /\
    (forall id m, ~ LockFacts.holds (tm_locks s') 1 id m) /\
    (forall x id m, x <> 1 -> LockFacts.holds (tm_locks s') x id m <-> LockFacts.holds (tm_locks demo_tm) x id m) /\
    Lock.txns (tm_locks s') !! 1 = Some t' /\ state_ t' = COMMITTED /\ write_set_ t' = [] /\ prev_lsn_ t' = 0 /\
    LogFacts.log_ready (tm_log s') ([] ++ LogFacts.bytes (Log.CommitLogRecord (Log.mkLogHdr Log.COMMIT 0 20 (txn_id_ txn1) (prev_lsn_ txn1)))).
Proof.
  split; [apply LockDemo.shared_holds; by left|].
  apply (commit_releases_locks demo_tm 1 txn1 []).
  - exact LockDemo.shared_inv.
  - exact txn1_active.
  - exact LogDemo.demo_ready.
  - reflexivity.
  - reflexivity.
  - reflexivity.
Defined.

(** Transaction 1 waits for the record it shares with 2 to become its own; the
    commit of 2 makes way. *)
Lemma commit_unblocks_witness : exists s' lk' m, commit 2 demo_tm = (Ret tt, s') /\
  Lock.lock_exclusive_on_record 1 LockDemo.rid0 7 (tm_locks s') = (Ret true, lk') /\
  LockFacts.holds lk' 1 (RecordLock 7 LockDemo.rid0) m /\ LockFacts.covers m EXCLUSIVE = true.
Proof.
  apply (commit_unblocks demo_tm 2 1 (default (make_txn false 2) (Lock.txns LockDemo.shared !! 2)) txn1 [] (LockSpec.ExclusiveOnRecord LockDemo.rid0 7)).
  - exact LockDemo.shared_inv.
  - split_and!; vm_compute; [reflexivity|congruence..].
  - exact LogDemo.demo_ready.
  - reflexivity.
  - reflexivity.
  - reflexivity.
  - discriminate.
  - vm_compute. reflexivity.
  - right. vm_compute. reflexivity.
  - intros z m' held Hz1 Hz2 (q & r & Hq & Hr & Er & _) _. exfalso.
    assert (request_queue_ <$> Lock.lock_table_ LockDemo.shared !! RecordLock 7 LockDemo.rid0 = Some [mkRequest 1 SHARED true; mkRequest 2 SHARED true]) as E by (vm_compute; reflexivity).
    change (tm_locks demo_tm) with LockDemo.shared in Hq. simpl in Hq. rewrite Hq in E. injection E as E. rewrite E in Hr.
    apply elem_of_cons in Hr as [->|Hr]; [by apply Hz1|]. apply list_elem_of_singleton in Hr as ->. by apply Hz2.
Defined.

Lemma begin_creates_transaction_witness :
  exists s', begin_ true None demo_tm = (Ret 3, s') /\ LockFacts.inv (tm_locks s') /\
    (forall y id m, LockFacts.holds (tm_locks s') y id m <-> LockFacts.holds (tm_locks demo_tm) y id m) /\
    Lock.txns (tm_locks s') = <[3 := set_prev_lsn 0 (make_txn true 3)]> (Lock.txns (tm_locks demo_tm)) /\
    txn_map s' = {[3]} ∪ txn_map demo_tm /\ next_txn_id_ s' = wrap_s 32 (3 + 1) /\ Log.global_lsn_ (tm_log s') = wrap_s 32 (0 + 1) /\
    LogFacts.log_ready (tm_log s') ([] ++ LogFacts.bytes (Log.BeginLogRecord (Log.mkLogHdr Log.BEGIN 0 20 3 INVALID_LSN))).
Proof.
  apply (begin_creates_transaction demo_tm true []).
  - exact LockDemo.shared_inv.
  - vm_compute. reflexivity.
  - exact LogDemo.demo_ready.
  - reflexivity.
  - reflexivity.
Defined.

End TxnDemo.
