(* ===== verification/IxDefs.v ===== *)
(** * Index keys and headers ([src/src/index/ix_defs.h], [ix_compare])

    Column types and the comparison of keys, a key being the concatenation of
    its columns' bytes; the header of an index file and its byte format. *)

From Stdlib Require Import SpecFloat.
From S2P Require Import Prelude Bytes Posix Disk Txn Log.

(** [src/src/defs.h] *)
Inductive ColType : Type := TYPE_INT | TYPE_BIGINT | TYPE_FLOAT | TYPE_STRING | TYPE_DATETIME.

#[export] Instance ColType_eq_dec : EqDecision ColType.
Proof. solve_decision. Defined.

Definition coltype_code (t : ColType) : Z :=
  match t with TYPE_INT => 0 | TYPE_BIGINT => 1 | TYPE_FLOAT => 2 | TYPE_STRING => 3 | TYPE_DATETIME => 4 end.
Definition coltype_of_code (z : Z) : option ColType :=
  match z with
  | 0 => Some TYPE_INT | 1 => Some TYPE_BIGINT | 2 => Some TYPE_FLOAT | 3 => Some TYPE_STRING
  | 4 => Some TYPE_DATETIME | _ => None
  end.
Definition coltype2str (t : ColType) : string :=
  match t with
  | TYPE_INT => "INT" | TYPE_BIGINT => "BIGINT" | TYPE_FLOAT => "FLOAT" | TYPE_STRING => "STRING" | TYPE_DATETIME => "DATETIME"
  end.

Definition IX_NO_PAGE : Z := -1.
Definition IX_FILE_HDR_PAGE : Z := 0.
Definition IX_LEAF_HEADER_PAGE : Z := 1.
Definition IX_INIT_ROOT_PAGE : Z := 2.
Definition IX_INIT_NUM_PAGES : Z := 3.
Definition IX_MAX_COL_LEN : Z := 512.

(** ** Comparing keys *)

(** The binary32 number with the given bits. *)
Definition f32_of_bits (b : Z) : spec_float :=
  let s := Z.testbit b 31 in
  let e := (b / 2 ^ 23) mod 2 ^ 8 in
  let m := b mod 2 ^ 23 in
  if e =? 255 then (if m =? 0 then S754_infinity s else S754_nan)
  else if e =? 0 then match m with Zpos p => S754_finite s p (-149) | _ => S754_zero s end
  else match m + 2 ^ 23 with Zpos p => S754_finite s p (e - 150) | _ => S754_zero s end.

Definition three_way (lt gt : bool) : Z := if lt then -1 else if gt then 1 else 0.
Definition cmpZ (a b : Z) : Z := three_way (a <? b) (b <? a).
Definition cmpF (a b : spec_float) : Z := three_way (SFltb a b) (SFltb b a).

(** One column; [a] and [b] are the bytes from the pointers on. *)
Definition ix_compare_col (a b : list Z) (type : ColType) (col_len : Z) : option Z :=
  match type with
  | TYPE_INT => x ← mem_read 0 4 a; y ← mem_read 0 4 b; Some (cmpZ (i32_val x) (i32_val y))
  | TYPE_FLOAT => x ← mem_read 0 4 a; y ← mem_read 0 4 b; Some (cmpF (f32_of_bits (u32_val x)) (f32_of_bits (u32_val y)))
  | TYPE_STRING | TYPE_DATETIME => x ← mem_read 0 col_len a; y ← mem_read 0 col_len b; Some (memcmp x y)
  | TYPE_BIGINT => x ← mem_read 0 8 a; y ← mem_read 0 8 b; Some (cmpZ (i64_val x) (i64_val y))
  end.

(** The columns in turn, up to the first difference. *)
Fixpoint ix_compare (a b : list Z) (col_types : list ColType) (col_lens : list Z) : option Z :=
  match col_types with
  | [] => Some 0
  | t :: ts =>
      match col_lens with
      | [] => None
      | l :: ls =>
          res ← ix_compare_col a b t l;
          if negb (res =? 0) then Some res
          else ix_compare (drop (Z.to_nat l) a) (drop (Z.to_nat l) b) ts ls
      end
  end.

(** ** [IxFileHdr] *)

Record IxFileHdr : Type := mkIxHdr {
  first_free_page_no_ : Z;
  num_pages_ : Z;
  root_page_ : Z;
  col_num_ : Z;
  col_types_ : list ColType;
  col_lens_ : list Z;
  col_tot_len_ : Z;
  btree_order_ : Z;
  keys_size_ : Z;
  first_leaf_ : Z;
  last_leaf_ : Z;
  tot_len_ : Z
}.

Definition set_num_pages_ (x : Z) (h : IxFileHdr) : IxFileHdr :=
  mkIxHdr (first_free_page_no_ h) x (root_page_ h) (col_num_ h) (col_types_ h) (col_lens_ h) (col_tot_len_ h)
    (btree_order_ h) (keys_size_ h) (first_leaf_ h) (last_leaf_ h) (tot_len_ h).
Definition set_root_page_ (x : Z) (h : IxFileHdr) : IxFileHdr :=
  mkIxHdr (first_free_page_no_ h) (num_pages_ h) x (col_num_ h) (col_types_ h) (col_lens_ h) (col_tot_len_ h)
    (btree_order_ h) (keys_size_ h) (first_leaf_ h) (last_leaf_ h) (tot_len_ h).
Definition set_last_leaf_ (x : Z) (h : IxFileHdr) : IxFileHdr :=
  mkIxHdr (first_free_page_no_ h) (num_pages_ h) (root_page_ h) (col_num_ h) (col_types_ h) (col_lens_ h) (col_tot_len_ h)
    (btree_order_ h) (keys_size_ h) (first_leaf_ h) x (tot_len_ h).
Definition set_tot_len_ (x : Z) (h : IxFileHdr) : IxFileHdr :=
  mkIxHdr (first_free_page_no_ h) (num_pages_ h) (root_page_ h) (col_num_ h) (col_types_ h) (col_lens_ h) (col_tot_len_ h)
    (btree_order_ h) (keys_size_ h) (first_leaf_ h) (last_leaf_ h) x.

Definition update_tot_len (h : IxFileHdr) : IxFileHdr :=
  set_tot_len_ (4 * 4 + 4 * 6 + (4 * col_num_ h + 4 * col_num_ h)) h.

(** The fields in the order they are written; the two loops index the vectors
    below [col_num_], out of range being undefined. *)
Definition ix_hdr_fields (h : IxFileHdr) : option (list (list Z)) :=
  ts ← mapM (fun i => t ← col_types_ h !! Z.to_nat i; Some (i32_bytes (coltype_code t))) (seqZ 0 (col_num_ h));
  ls ← mapM (fun i => l ← col_lens_ h !! Z.to_nat i; Some (i32_bytes l)) (seqZ 0 (col_num_ h));
  Some ([i32_bytes (tot_len_ h); i32_bytes (first_free_page_no_ h); i32_bytes (num_pages_ h); i32_bytes (root_page_ h);
         i32_bytes (col_num_ h)] ++ ts ++ ls ++
        [i32_bytes (col_tot_len_ h); i32_bytes (btree_order_ h); i32_bytes (keys_size_ h); i32_bytes (first_leaf_ h);
         i32_bytes (last_leaf_ h)]).

(** [serialize] into [dest]; the assertion compares the offset reached. *)
Definition ix_hdr_serialize (h : IxFileHdr) (dest : list Z) : option (list Z) :=
  fs ← ix_hdr_fields h;
  d ← Log.put_fields 0 fs dest;
  if Z.of_nat (length (concat fs)) =? tot_len_ h then Some d else None.

Definition read_i32 (src : list Z) (o : Z) : option Z := x ← mem_read o 4 src; Some (i32_val x).

(** [deserialize] into a fresh header (the vectors are appended to). *)
Definition ix_hdr_deserialize (src : list Z) : option IxFileHdr :=
  tot ← read_i32 src 0;
  ff ← read_i32 src 4;
  np ← read_i32 src 8;
  root ← read_i32 src 12;
  n ← read_i32 src 16;
  ts ← mapM (fun i => c ← read_i32 src (20 + 4 * i); coltype_of_code c) (seqZ 0 n);
  ls ← mapM (fun i => read_i32 src (20 + 4 * Z.max 0 n + 4 * i)) (seqZ 0 n);
  let o := 20 + 8 * Z.max 0 n in
  ctl ← read_i32 src o;
  bo ← read_i32 src (o + 4);
  ks ← read_i32 src (o + 8);
  fl ← read_i32 src (o + 12);
  ll ← read_i32 src (o + 16);
  if o + 20 =? tot then Some (mkIxHdr ff np root n ts ls ctl bo ks fl ll tot) else None.

(** [IxManager::create_index]: the header of a new index over columns of the
    given types and lengths. *)
Definition SIZEOF_IxPageHdr : Z := 24.
(** The quotient is computed in [size_t] and narrowed to [int]. *)
Definition btree_order_for (col_tot_len : Z) : Z :=
  wrap_s 32 (wrap_u 64 ((PAGE_SIZE - SIZEOF_IxPageHdr) / wrap_u 64 (col_tot_len + Log.SIZEOF_Rid) - 1)).
Definition new_ix_hdr (cols : list (ColType * Z)) : IxFileHdr :=
  let len := foldr Z.add 0 (snd <$> cols) in
  let order := btree_order_for len in
  update_tot_len (mkIxHdr IX_NO_PAGE IX_INIT_NUM_PAGES IX_INIT_ROOT_PAGE (Z.of_nat (length cols)) (fst <$> cols) (snd <$> cols)
    len order ((order + 1) * len) IX_INIT_ROOT_PAGE IX_INIT_ROOT_PAGE 0).

Record Iid : Type := mkIid { iid_page_no : Z; iid_slot_no : Z }.
#[export] Instance Iid_eq_dec : EqDecision Iid.
Proof. solve_decision. Defined.
