(* ===== verification/IxNode.v ===== *)
(** * B+-tree nodes ([IxNodeHandle], [src/src/index/ix_index_handle.{h,cpp}])

    A node is a page: a 24-byte header (parent, key count, leaf flag, leaf
    links), the keys in a row, the record positions in a row.  Operations run
    on the bytes of the page. *)

From S2P Require Import Prelude Bytes Posix Disk Txn Log IxDefs.

Module IxNode.

(** [static const bool binary_search] *)
Definition binary_search : bool := false.

Section node.
Context (h : IxFileHdr).
Abbreviation N := (M (list Z)).

(** ** Access to the page *)

Definition rd (o n : Z) : N (list Z) := d ← gets id; unwrap OutOfBounds (mem_read o n d).
Definition wr (o : Z) (x : list Z) : N unit :=
  d ← gets id; d' ← unwrap OutOfBounds (mem_write o x d); modify (fun _ => d').
Definition rd_int (o : Z) : N Z := x ← rd o 4; mret (i32_val x).
Definition wr_int (o v : Z) : N unit := wr o (i32_bytes v).
Definition memmove (dst src n : Z) : N unit := x ← rd src n; wr dst x.

Definition OFF_PARENT : Z := 4.
Definition OFF_NUM_KEY : Z := 8.
Definition OFF_IS_LEAF : Z := 12.
Definition OFF_PREV_LEAF : Z := 16.
Definition OFF_NEXT_LEAF : Z := 20.

Definition get_size : N Z := rd_int OFF_NUM_KEY.
Definition set_size (size : Z) : N unit := wr_int OFF_NUM_KEY size.
Definition get_max_size : Z := btree_order_ h + 1.
Definition get_min_size : Z := Z.quot get_max_size 2.
Definition get_next_leaf : N Z := rd_int OFF_NEXT_LEAF.
Definition get_prev_leaf : N Z := rd_int OFF_PREV_LEAF.
Definition get_parent_page_no : N Z := rd_int OFF_PARENT.
Definition is_leaf_page : N bool := x ← rd OFF_IS_LEAF 1; mret (negb (bool_decide (x = [0]))).
Definition is_root_page : N bool := p ← get_parent_page_no; mret (p =? INVALID_PAGE_ID).
Definition set_next_leaf (page_no : Z) : N unit := wr_int OFF_NEXT_LEAF page_no.
Definition set_prev_leaf (page_no : Z) : N unit := wr_int OFF_PREV_LEAF page_no.
Definition set_parent_page_no (parent : Z) : N unit := wr_int OFF_PARENT parent.
Definition set_is_leaf (b : bool) : N unit := wr OFF_IS_LEAF [if b then 1 else 0].

(** Offsets of [get_key(i)] and [get_rid(i)]. *)
Definition key_off (i : Z) : Z := SIZEOF_IxPageHdr + i * col_tot_len_ h.
Definition rid_off (i : Z) : Z := SIZEOF_IxPageHdr + keys_size_ h + i * Log.SIZEOF_Rid.

(** The bytes from [get_key(i)], and from [get_rid(i)] on. *)
Definition key_ptr (i : Z) : N (list Z) :=
  d ← gets id;
  if (0 <=? key_off i) && (key_off i <=? Z.of_nat (length d)) then mret (drop (Z.to_nat (key_off i)) d) else stuck OutOfBounds.
Definition rid_ptr (i : Z) : N (list Z) :=
  d ← gets id;
  if (0 <=? rid_off i) && (rid_off i <=? Z.of_nat (length d)) then mret (drop (Z.to_nat (rid_off i)) d) else stuck OutOfBounds.
Definition get_key (i : Z) : N (list Z) := rd (key_off i) (col_tot_len_ h).
Definition rid_of_bytes (x : list Z) : Rid := mkRid (i32_val (slice 0 4 x)) (i32_val (slice 4 4 x)).
Definition get_rid (i : Z) : N Rid := x ← rd (rid_off i) Log.SIZEOF_Rid; mret (rid_of_bytes x).
Definition set_key (i : Z) (key : list Z) : N unit :=
  k ← unwrap OutOfBounds (mem_read 0 (col_tot_len_ h) key); wr (key_off i) k.
Definition set_rid (i : Z) (rid : Rid) : N unit := wr (rid_off i) (Log.rid_bytes rid).
Definition value_at (i : Z) : N Z := r ← get_rid i; mret (rid_page_no r).
Definition key_at (i : Z) : N Z := rd_int (key_off i).

(** ** Searching *)

Definition compare (a b : list Z) : N Z := unwrap OutOfBounds (ix_compare a b (col_types_ h) (col_lens_ h)).

(** [for (; i < n && stop fails; i++)]: the first [i] at which [stop] holds. *)
Fixpoint first_from (fuel : nat) (stop : Z -> N bool) (i n : Z) : N Z :=
  match fuel with
  | O => mret n
  | S fuel =>
      if i <? n then
        b ← stop i;
        if (b : bool) then mret i else first_from fuel stop (i + 1) n
      else mret i
  end.

(** [while (left < right)]: bisection; [go] tells to continue on the right. *)
Fixpoint bisect (fuel : nat) (go : Z -> N bool) (left right : Z) : N Z :=
  match fuel with
  | O => mret left
  | S fuel =>
      if left <? right then
        let mid := left + Z.quot (right - left) 2 in
        b ← go mid;
        if (b : bool) then bisect fuel go (mid + 1) right else bisect fuel go left mid
      else mret left
  end.

(** Every round shrinks the interval, so its length bounds the rounds. *)
Definition lower_bound_binary (target : list Z) : N Z :=
  n ← get_size;
  bisect (Z.to_nat n) (fun mid => k ← key_ptr mid; c ← compare k target; mret (c <? 0)) 0 n.
Definition lower_bound_linear (target : list Z) : N Z :=
  n ← get_size;
  first_from (S (Z.to_nat n)) (fun i => k ← key_ptr i; c ← compare target k; mret (c <=? 0)) 0 n.
Definition lower_bound (target : list Z) : N Z :=
  if binary_search then lower_bound_binary target else lower_bound_linear target.

Definition upper_bound_binary (target : list Z) : N Z :=
  n ← get_size;
  bisect (Z.to_nat n) (fun mid => k ← key_ptr mid; c ← compare k target; mret (c <=? 0)) 1 n.
Definition upper_bound_linear (target : list Z) : N Z :=
  n ← get_size;
  first_from (S (Z.to_nat n)) (fun i => k ← key_ptr i; c ← compare target k; mret (c <? 0)) 1 n.
Definition upper_bound (target : list Z) : N Z :=
  if binary_search then upper_bound_binary target else upper_bound_linear target.

Definition leaf_lookup (key : list Z) : N (option Rid) :=
  i ← lower_bound key;
  n ← get_size;
  if (i =? n) || (n =? 0) then mret None else
  k ← key_ptr i;
  c ← compare k key;
  if c =? 0 then (r ← get_rid i; mret (Some r)) else mret None.

Definition internal_lookup (key : list Z) : N Z :=
  i ← upper_bound key;
  value_at (i - 1).

(** ** Updating *)

(** [key] holds at least [n] keys, [rids] at least [n] positions. *)
Definition insert_pairs (pos : Z) (key : list Z) (rids : list Z) (n : Z) : N unit :=
  old_size ← get_size;
  if (pos <? 0) || (old_size <? pos) then throw (RMDBError "insert_pairs pos wrong") else
  let key_len := col_tot_len_ h in
  let num := old_size - pos in
  memmove (key_off pos + n * key_len) (key_off pos) (num * key_len) ;;
  k ← unwrap OutOfBounds (mem_read 0 (n * key_len) key);
  wr (key_off pos) k ;;
  memmove (rid_off pos + n * Log.SIZEOF_Rid) (rid_off pos) (num * Log.SIZEOF_Rid) ;;
  r ← unwrap OutOfBounds (mem_read 0 (n * Log.SIZEOF_Rid) rids);
  wr (rid_off pos) r ;;
  size ← get_size;
  set_size (size + n).

Definition insert_pair (pos : Z) (key : list Z) (rid : Rid) : N unit := insert_pairs pos key (Log.rid_bytes rid) 1.

(** The duplicate test reads the key at [i] even when [i] is the key count. *)
Definition insert (key : list Z) (value : Rid) : N Z :=
  i ← lower_bound key;
  old_size ← get_size;
  dup ← (if negb (old_size =? 0) then k ← key_ptr i; c ← compare k key; mret (c =? 0) else mret false);
  if (dup : bool) then mret old_size else
  insert_pair i key value ;;
  mret (old_size + 1).

Definition erase_pair (pos : Z) : N unit :=
  old_size ← get_size;
  let num := old_size - 1 - pos in
  if (pos <? 0) || (old_size <=? pos) then throw (RMDBError "erase_pair pos wrong!") else
  let key_len := col_tot_len_ h in
  memmove (key_off pos) (key_off pos + key_len) (num * key_len) ;;
  memmove (rid_off pos) (rid_off pos + Log.SIZEOF_Rid) (num * Log.SIZEOF_Rid) ;;
  set_size (old_size - 1).

(** The text ends with a newline. *)
Definition remove_pos_wrong : string := String.append "remove 中输入错误pos！" (String (Ascii.ascii_of_nat 10) EmptyString).
Definition remove (key : list Z) : N Z :=
  pos ← lower_bound key;
  old_size ← get_size;
  if (pos <? 0) || (old_size <=? pos) then throw (RMDBError remove_pos_wrong) else
  k ← key_ptr pos;
  c ← compare k key;
  if negb (c =? 0) then mret (-1) else
  erase_pair pos ;;
  mret (old_size - 1).

Definition remove_and_return_only_child : N Z :=
  n ← get_size; assert (n =? 1) ;;
  c ← value_at 0;
  erase_pair 0 ;;
  n ← get_size; assert (n =? 0) ;;
  mret c.

(** [find_child]: the index of the child stored in page [page_no]. *)
Definition find_child (page_no : Z) : N Z :=
  n ← get_size;
  i ← first_from (S (Z.to_nat n)) (fun i => r ← get_rid i; mret (rid_page_no r =? page_no)) 0 n;
  assert (i <? n) ;;
  mret i.

End node.
End IxNode.
