(* ===== verification/IxCompare.v ===== *)
(** * Key comparison is an order

    [ix_compare] reads only the columns' bytes and is a total preorder on keys
    that contain no floating-point NaN. *)

From Stdlib Require Import SpecFloat.
From S2P Require Import Prelude Bytes Posix Disk IxDefs.

(** ** Binary32 numbers compare like signed magnitudes *)

(** Magnitude bits with the sign: monotone in the number, one zero. *)
Definition f32_rank (b : Z) : Z := if b <? 2 ^ 31 then b else - (b - 2 ^ 31).
Definition f32_nan (b : Z) : bool := 255 * 2 ^ 23 <? b mod 2 ^ 31.

Definition f32_exp (b : Z) : Z := (b / 2 ^ 23) mod 2 ^ 8.
Definition f32_man (b : Z) : Z := b mod 2 ^ 23.

Lemma f32_split (b : Z) : 0 <= b < 2 ^ 32 ->
  b = (if 2 ^ 31 <=? b then 2 ^ 31 else 0) + f32_exp b * 2 ^ 23 + f32_man b /\
  0 <= f32_exp b < 256 /\ 0 <= f32_man b < 2 ^ 23 /\ Z.testbit b 31 = (2 ^ 31 <=? b).
Proof.
  intros Hb. unfold f32_exp, f32_man.
  pose proof (Z.div_mod b (2 ^ 23)) as E1. pose proof (Z.mod_pos_bound b (2 ^ 23)) as B1.
  pose proof (Z.div_mod (b / 2 ^ 23) (2 ^ 8)) as E2. pose proof (Z.mod_pos_bound (b / 2 ^ 23) (2 ^ 8)) as B2.
  assert (Z.testbit b 31 = (2 ^ 31 <=? b)) as Et.
  { rewrite Z.testbit_eqb by lia. destruct (Z.leb_spec (2 ^ 31) b).
    - assert (b / 2 ^ 31 = 1) as -> by (symmetry; apply (Z.div_unique _ _ _ (b - 2 ^ 31)); lia). done.
    - by rewrite Z.div_small by lia. }
  assert (0 <= b / 2 ^ 23 < 512) by (split; [apply Z.div_pos; lia|apply Z.div_lt_upper_bound; lia]).
  assert (b / 2 ^ 23 / 2 ^ 8 = if 2 ^ 31 <=? b then 1 else 0) as Eq.
  { rewrite Z.div_div by lia. destruct (Z.leb_spec (2 ^ 31) b); [symmetry; apply (Z.div_unique _ _ _ (b - 2 ^ 31)); lia|].
    apply Z.div_small. lia. }
  split_and!; try lia; [|done]. destruct (Z.leb_spec (2 ^ 31) b); lia.
Qed.

(** The three shapes of a number that is not NaN. *)
Lemma f32_shape (b : Z) : 0 <= b < 2 ^ 32 -> f32_nan b = false ->
  let s := 2 ^ 31 <=? b in
  (f32_rank b = 0 /\ f32_of_bits b = S754_zero s) \/
  (f32_exp b = 255 /\ f32_man b = 0 /\ f32_of_bits b = S754_infinity s) \/
  (exists p, f32_of_bits b = S754_finite s p (Z.max 1 (f32_exp b) - 150) /\ f32_exp b < 255 /\
     Zpos p = f32_man b + (if f32_exp b =? 0 then 0 else 2 ^ 23) /\ 0 < f32_exp b * 2 ^ 23 + f32_man b).
Proof.
  intros Hb Hn s. destruct (f32_split b Hb) as (Eb & He & Hm & Ht). unfold f32_of_bits. fold (f32_exp b) (f32_man b). rewrite Ht. fold s.
  assert (f32_exp b = 255 -> f32_man b = 0) as Hinf.
  { intros E. unfold f32_nan in Hn. apply Z.ltb_ge in Hn.
    assert (b mod 2 ^ 31 = f32_exp b * 2 ^ 23 + f32_man b) as Em.
    { symmetry. apply (Z.mod_unique _ _ (if 2 ^ 31 <=? b then 1 else 0)); [left; lia|]. destruct (2 ^ 31 <=? b); lia. }
    lia. }
  destruct (Z.eqb_spec (f32_exp b) 255) as [E|E].
  - right. left. rewrite (Hinf E). done.
  - destruct (Z.eqb_spec (f32_exp b) 0) as [E0|E0].
    + destruct (f32_man b) as [|p|p] eqn:Em; [left| |lia].
      * split; [|done]. unfold f32_rank. destruct (Z.leb_spec (2 ^ 31) b), (Z.ltb_spec b (2 ^ 31)); lia.
      * right. right. exists p. rewrite E0. split_and!; [done|lia|lia|lia].
    + right. right. destruct (f32_man b + 2 ^ 23) as [|p|p] eqn:Em; [lia| |lia].
      exists p. split_and!; [|lia|lia|lia]. f_equal. lia.
Qed.

Lemma f32_rank_abs (b : Z) : 0 <= b < 2 ^ 32 ->
  f32_rank b = (if 2 ^ 31 <=? b then -1 else 1) * (f32_exp b * 2 ^ 23 + f32_man b).
Proof.
  intros Hb. destruct (f32_split b Hb) as (Eb & _). unfold f32_rank.
  destruct (Z.leb_spec (2 ^ 31) b), (Z.ltb_spec b (2 ^ 31)); lia.
Qed.

(** Comparing exponents first and mantissas second compares magnitudes. *)
Lemma f32_magnitude (a b : Z) (p q : positive) :
  0 <= a < 2 ^ 32 -> 0 <= b < 2 ^ 32 ->
  Zpos p = f32_man a + (if f32_exp a =? 0 then 0 else 2 ^ 23) ->
  Zpos q = f32_man b + (if f32_exp b =? 0 then 0 else 2 ^ 23) ->
  match Z.max 1 (f32_exp a) - 150 ?= Z.max 1 (f32_exp b) - 150 with Lt => Lt | Gt => Gt | Eq => Pos.compare p q end =
  (f32_exp a * 2 ^ 23 + f32_man a ?= f32_exp b * 2 ^ 23 + f32_man b).
Proof.
  intros Ha Hb Ep Eq. destruct (f32_split a Ha) as (_ & Ha1 & Ha2 & _). destruct (f32_split b Hb) as (_ & Hb1 & Hb2 & _).
  change (Pos.compare p q) with (Zpos p ?= Zpos q).
  destruct (Z.eqb_spec (f32_exp a) 0), (Z.eqb_spec (f32_exp b) 0);
    destruct (Z.compare_spec (Z.max 1 (f32_exp a) - 150) (Z.max 1 (f32_exp b) - 150)) as [E|E|E];
    try (destruct (Z.compare_spec (Zpos p) (Zpos q))); symmetry;
    first [apply Z.compare_eq_iff; lia | apply Z.compare_lt_iff; lia | apply Z.compare_gt_iff; lia].
Qed.

Lemma f32_lt (a b : Z) : 0 <= a < 2 ^ 32 -> 0 <= b < 2 ^ 32 -> f32_nan a = false -> f32_nan b = false ->
  SFltb (f32_of_bits a) (f32_of_bits b) = (f32_rank a <? f32_rank b).
Proof.
  intros Ha Hb Na Nb. pose proof (f32_rank_abs a Ha) as Ra. pose proof (f32_rank_abs b Hb) as Rb.
  destruct (f32_split a Ha) as (_ & Ha1 & Ha2 & _). destruct (f32_split b Hb) as (_ & Hb1 & Hb2 & _).
  unfold SFltb, SFcompare.
  destruct (f32_shape a Ha Na) as [[Za ->]|[(Ia & Ja & ->)|(p & -> & Ea & Ep & Pa)]];
  destruct (f32_shape b Hb Nb) as [[Zb ->]|[(Ib & Jb & ->)|(q & -> & Eb & Eq & Pb)]].
  9: { pose proof (f32_magnitude a b p q Ha Hb Ep Eq) as Hmag.
       change (PosDef.Pos.compare_cont Datatypes.Eq p q) with (Pos.compare p q).
       set (A := f32_exp a * 2 ^ 23 + f32_man a) in *. set (B := f32_exp b * 2 ^ 23 + f32_man b) in *.
       clearbody A B. rewrite Ra, Rb. clear - Hmag Pa Pb.
       destruct (Z.compare_spec A B);
         destruct (Z.max 1 (f32_exp a) - 150 ?= Z.max 1 (f32_exp b) - 150); try discriminate Hmag; try rewrite Hmag;
         destruct (2 ^ 31 <=? a), (2 ^ 31 <=? b); cbn [CompOpp]; symmetry; first [apply Z.ltb_lt; lia | apply Z.ltb_ge; lia]. }
  all: symmetry; destruct (2 ^ 31 <=? a), (2 ^ 31 <=? b); first [apply Z.ltb_lt; lia | apply Z.ltb_ge; lia].
Qed.

(** ** Orders *)

(** [f] compares the elements of [V] as a total preorder. *)
Record is_order (V : list Z -> Prop) (f : list Z -> list Z -> Z) : Prop := {
  or_antisym : forall a b, V a -> V b -> f b a = - f a b;
  or_trans : forall a b c, V a -> V b -> V c -> f a b <= 0 -> f b c <= 0 -> f a c <= 0
}.

Lemma cmpZ_le (a b : Z) : cmpZ a b <= 0 <-> a <= b.
Proof. unfold cmpZ, three_way. destruct (Z.ltb_spec a b), (Z.ltb_spec b a); lia. Qed.
Lemma cmpZ_antisym (a b : Z) : cmpZ b a = - cmpZ a b.
Proof. unfold cmpZ, three_way. destruct (Z.ltb_spec a b), (Z.ltb_spec b a); lia. Qed.

Lemma order_by_rank (V : list Z -> Prop) (f : list Z -> list Z -> Z) (rank : list Z -> Z) :
  (forall a b, V a -> V b -> f a b = cmpZ (rank a) (rank b)) -> is_order V f.
Proof.
  intros H. split.
  - intros a b Ha Hb. rewrite !H by done. apply cmpZ_antisym.
  - intros a b c Ha Hb Hc. rewrite !H by done. rewrite !cmpZ_le. lia.
Qed.

(** ** Columns *)

Definition col_ok (c : ColType * Z) : Prop :=
  match c.1 with
  | TYPE_INT | TYPE_FLOAT => c.2 = 4
  | TYPE_BIGINT => c.2 = 8
  | TYPE_STRING | TYPE_DATETIME => 0 <= c.2
  end.

(** The bytes of a column that holds a comparable value. *)
Definition col_valid (c : ColType * Z) (x : list Z) : Prop :=
  Z.of_nat (length x) = c.2 /\ Forall (fun b => is_byte b = true) x /\ (c.1 = TYPE_FLOAT -> f32_nan (u32_val x) = false).

Definition col_cmp (c : ColType * Z) (x y : list Z) : Z := default 0 (ix_compare_col x y c.1 c.2).

Lemma le_val_range (x : list Z) : Forall (fun b => is_byte b = true) x -> 0 <= le_val x < 2 ^ (8 * Z.of_nat (length x)).
Proof.
  induction 1 as [|b x Hb Hx IH]; [done|]. simpl. unfold is_byte in Hb.
  replace (8 * Z.of_nat (S (length x))) with (8 + 8 * Z.of_nat (length x)) by lia. rewrite Z.pow_add_r by lia. lia.
Qed.

Lemma mem_read_prefix (n : Z) (x rest : list Z) : Z.of_nat (length x) = n -> mem_read 0 n (x ++ rest) = Some x.
Proof.
  intros H. apply mem_read_Some. rewrite length_app. split_and!; [lia|lia|lia|].
  symmetry. apply slice_0_app. lia.
Qed.

Lemma mem_read_exact (n : Z) (x : list Z) : Z.of_nat (length x) = n -> mem_read 0 n x = Some x.
Proof. intros H. rewrite <- (app_nil_r x) at 1. by apply mem_read_prefix. Qed.

(** Comparing a column reads exactly its bytes. *)
Lemma ix_compare_col_prefix (c : ColType * Z) (x y r r' : list Z) :
  col_ok c -> Z.of_nat (length x) = c.2 -> Z.of_nat (length y) = c.2 ->
  ix_compare_col (x ++ r) (y ++ r') c.1 c.2 = Some (col_cmp c x y).
Proof.
  intros Hc Hx Hy. unfold col_cmp, ix_compare_col, col_ok in *.
  destruct c as [[] l]; simpl in *; rewrite !mem_read_prefix, !mem_read_exact by lia; done.
Qed.

Lemma col_cmp_order (c : ColType * Z) : col_ok c -> is_order (col_valid c) (col_cmp c).
Proof.
  intros Hc. destruct c as [t l]. unfold col_cmp, ix_compare_col.
  assert (forall x, col_valid (t, l) x -> mem_read 0 l x = Some x) as Hread.
  { intros x [Hx _]. by apply mem_read_exact. }
  destruct t; simpl in *; unfold col_ok in Hc; simpl in Hc; subst.
  - apply (order_by_rank _ _ i32_val). intros a b Ha Hb. by rewrite !Hread.
  - apply (order_by_rank _ _ i64_val). intros a b Ha Hb. by rewrite !Hread.
  - apply (order_by_rank _ _ (fun x => f32_rank (u32_val x))). intros a b Ha Hb. rewrite !Hread by done. simpl.
    destruct Ha as (La & Ba & Na), Hb as (Lb & Bb & Nb). simpl in La, Lb.
    pose proof (le_val_range a Ba) as Ra. pose proof (le_val_range b Bb) as Rb. rewrite La in Ra. rewrite Lb in Rb.
    unfold cmpF, cmpZ. rewrite !f32_lt by (done || by apply Na || by apply Nb). done.
  - split; [intros a b Ha Hb|intros a b c Ha Hb Hd]; rewrite !Hread by done; simpl; [apply memcmp_antisym|].
    destruct Ha as [Ha _], Hb as [Hb _], Hd as [Hd _]. simpl in *. apply memcmp_trans; lia.
  - split; [intros a b Ha Hb|intros a b c Ha Hb Hd]; rewrite !Hread by done; simpl; [apply memcmp_antisym|].
    destruct Ha as [Ha _], Hb as [Hb _], Hd as [Hd _]. simpl in *. apply memcmp_trans; lia.
Qed.

(** ** Keys *)

Definition tot (cols : list (ColType * Z)) : Z := foldr Z.add 0 (snd <$> cols).

Fixpoint key_valid (cols : list (ColType * Z)) (k : list Z) : Prop :=
  match cols with
  | [] => k = []
  | c :: cols => exists x r, k = x ++ r /\ col_valid c x /\ key_valid cols r
  end.

(** The comparison of whole keys, column by column. *)
Fixpoint key_cmp (cols : list (ColType * Z)) (a b : list Z) : Z :=
  match cols with
  | [] => 0
  | c :: cols =>
      let l := Z.to_nat c.2 in
      let r := col_cmp c (take l a) (take l b) in
      if r =? 0 then key_cmp cols (drop l a) (drop l b) else r
  end.

Lemma tot_cons (c : ColType * Z) (cols : list (ColType * Z)) : tot (c :: cols) = c.2 + tot cols.
Proof. reflexivity. Qed.

Lemma tot_nonneg (cols : list (ColType * Z)) : Forall col_ok cols -> 0 <= tot cols.
Proof.
  induction 1 as [|[t l] cols Hc _ IH]; [done|]. rewrite tot_cons. unfold col_ok in Hc. simpl in *. destruct t; lia.
Qed.

Lemma key_valid_len (cols : list (ColType * Z)) (k : list Z) : key_valid cols k -> Z.of_nat (length k) = tot cols.
Proof.
  revert k. induction cols as [|c cols IH]; simpl; [by intros k ->|]. intros k (x & r & -> & (Hx & _) & Hr).
  rewrite length_app, tot_cons. specialize (IH r Hr). lia.
Qed.

Lemma ix_compare_total (cols : list (ColType * Z)) (a b : list Z) :
  Forall col_ok cols -> tot cols <= Z.of_nat (length a) -> tot cols <= Z.of_nat (length b) ->
  ix_compare a b (fst <$> cols) (snd <$> cols) = Some (key_cmp cols a b).
Proof.
  intros H. revert a b. induction H as [|c cols Hc Hcols IH]; intros a b Ha Hb; [done|]. simpl.
  pose proof (tot_nonneg _ Hcols). assert (0 <= c.2) by (unfold col_ok in Hc; destruct c as [[] l]; simpl in *; lia).
  rewrite tot_cons in Ha, Hb.
  rewrite <- (take_drop (Z.to_nat c.2) a) at 1. rewrite <- (take_drop (Z.to_nat c.2) b) at 1.
  rewrite ix_compare_col_prefix by (done || rewrite length_take; lia). simpl.
  destruct (col_cmp c _ _ =? 0); simpl; [|done]. apply IH; rewrite length_drop; lia.
Qed.

(** Only the key's own bytes matter. *)
Lemma key_cmp_prefix (cols : list (ColType * Z)) (a b r r' : list Z) :
  Forall col_ok cols -> tot cols = Z.of_nat (length a) -> tot cols = Z.of_nat (length b) ->
  key_cmp cols (a ++ r) (b ++ r') = key_cmp cols a b.
Proof.
  intros H. revert a b. induction H as [|c cols Hc Hcols IH]; intros a b Ha Hb; [done|]. simpl.
  pose proof (tot_nonneg _ Hcols). assert (0 <= c.2) by (unfold col_ok in Hc; destruct c as [[] l]; simpl in *; lia).
  rewrite tot_cons in Ha, Hb.
  rewrite !take_app_le, !drop_app_le by lia. rewrite IH by (rewrite length_drop; lia). done.
Qed.

Lemma key_cmp_order (cols : list (ColType * Z)) : Forall col_ok cols -> is_order (key_valid cols) (key_cmp cols).
Proof.
  induction 1 as [|c cols Hc Hcols [IHa IHt]]; [by split|].
  destruct (col_cmp_order c Hc) as [Ca Ct].
  assert (forall x r, col_valid c x -> take (Z.to_nat c.2) (x ++ r) = x /\ drop (Z.to_nat c.2) (x ++ r) = r) as Hsplit.
  { intros x r [Hx _]. split; [apply take_app_length'|apply drop_app_length']; lia. }
  split.
  - intros a b (x & r & -> & Hx & Hr) (y & q & -> & Hy & Hq). simpl.
    destruct (Hsplit x r Hx) as [-> ->], (Hsplit y q Hy) as [-> ->]. rewrite (Ca x y Hx Hy).
    destruct (Z.eqb_spec (col_cmp c x y) 0) as [E|E]; [rewrite E; simpl; by apply IHa|].
    by rewrite (proj2 (Z.eqb_neq _ _)) by lia.
  - intros a b d (x & r & -> & Hx & Hr) (y & q & -> & Hy & Hq) (z & w & -> & Hz & Hw). simpl.
    destruct (Hsplit x r Hx) as [-> ->], (Hsplit y q Hy) as [-> ->], (Hsplit z w Hz) as [-> ->].
    intros H1 H2.
    assert (col_cmp c x y <= 0) as L1 by (destruct (Z.eqb_spec (col_cmp c x y) 0); lia).
    assert (col_cmp c y z <= 0) as L2 by (destruct (Z.eqb_spec (col_cmp c y z) 0); lia).
    pose proof (Ct x y z Hx Hy Hz L1 L2) as L3. destruct (Z.eqb_spec (col_cmp c x z) 0) as [E|E]; [|lia].
    assert (col_cmp c z x <= 0) as L4 by (rewrite (Ca x z Hx Hz); lia).
    pose proof (Ct z x y Hz Hx Hy L4 L1) as L5. rewrite (Ca y z Hy Hz) in L5.
    pose proof (Ct y z x Hy Hz Hx L2 L4) as L6. rewrite (Ca x y Hx Hy) in L6.
    assert (col_cmp c x y = 0) as E1 by lia. assert (col_cmp c y z = 0) as E2 by lia.
    rewrite E1 in H1. rewrite E2 in H2. simpl in H1, H2. by apply (IHt r q w).
Qed.
