(* ===== verification/IxNodeFacts.v ===== *)
(** * B+-tree nodes as sorted sequences

    The view of a node's page as a list of key/position pairs, and what each
    node operation does to it. *)

From S2P Require Import Prelude Bytes Posix Disk Txn Log IxDefs IxCompare IxNode.

Module IxNodeFacts.
Import IxNode.

(** ** Arrays of fixed-size items inside a buffer *)

Definition item (base w : nat) (d : list Z) (i : nat) : list Z := slice (base + i * w) w d.

Lemma slot_le (j n w : nat) : (j < n)%nat -> (j * w + w <= n * w)%nat.
Proof. nia. Qed.

Lemma slice_take (o w n : nat) (l : list Z) : (o + w <= n)%nat -> slice o w (take n l) = slice o w l.
Proof.
  intros H. apply list_eq. intros i. rewrite !lookup_slice. case_decide; [|done]. rewrite lookup_take_lt by lia. done.
Qed.

Lemma item_splice (base w p m i : nat) (x d : list Z) :
  length x = (m * w)%nat -> (base + (p + m) * w <= length d)%nat ->
  item base w (splice (base + p * w) x d) i =
  if decide (p <= i < p + m)%nat then slice ((i - p) * w) w x else item base w d i.
Proof.
  intros Hx Hd. unfold item. case_decide as Hi.
  - rewrite slice_splice_inside by nia. f_equal. nia.
  - apply slice_splice_disjoint; [nia|]. destruct (decide (i < p)%nat); nia.
Qed.

Lemma item_block (base w q m j : nat) (d : list Z) :
  (j < m)%nat -> slice (j * w) w (slice (base + q * w) (m * w) d) = item base w d (q + j).
Proof. intros Hj. unfold item. rewrite slice_slice by nia. f_equal. nia. Qed.

Lemma item_other (base w o i : nat) (x d : list Z) :
  (o + length x <= length d)%nat -> (base + (i + 1) * w <= o)%nat \/ (o + length x <= base + i * w)%nat ->
  item base w (splice o x d) i = item base w d i.
Proof. intros H1 H2. apply slice_splice_disjoint; [done|]. destruct H2; nia. Qed.

(** ** Layout and view *)

Definition cols (h : IxFileHdr) : list (ColType * Z) := zip (col_types_ h) (col_lens_ h).

Record ix_layout (h : IxFileHdr) : Prop := {
  il_cols : length (col_types_ h) = length (col_lens_ h);
  il_types : Forall col_ok (cols h);
  il_len : col_tot_len_ h = tot (cols h);
  il_pos : 1 <= col_tot_len_ h;
  il_keys : keys_size_ h = (btree_order_ h + 1) * col_tot_len_ h;
  il_order : 2 <= btree_order_ h;
  il_fit : SIZEOF_IxPageHdr + (btree_order_ h + 1) * (col_tot_len_ h + Log.SIZEOF_Rid) <= PAGE_SIZE
}.

Section node.
Context (h : IxFileHdr) (L : ix_layout h).

Definition K : nat := Z.to_nat (col_tot_len_ h).
Definition cap : nat := Z.to_nat (btree_order_ h + 1).
Definition base_r : nat := (24 + cap * K)%nat.

Definition num_key (d : list Z) : Z := i32_val (slice 8 4 d).
Definition size (d : list Z) : nat := Z.to_nat (num_key d).
Definition nkey (d : list Z) (i : nat) : list Z := item 24 K d i.
Definition nrid (d : list Z) (i : nat) : list Z := item base_r 8 d i.
Definition entry (d : list Z) (i : nat) : list Z * list Z := (nkey d i, nrid d i).
Definition entries (d : list Z) : list (list Z * list Z) := entry d <$> seq 0 (size d).

Definition node_ok (d : list Z) : Prop := length d = Disk.page_len /\ 0 <= num_key d /\ (size d <= cap)%nat.

(** The header fields other than the key count. *)
Definition hdr_same (d d' : list Z) : Prop := slice 0 8 d' = slice 0 8 d /\ slice 12 12 d' = slice 12 12 d.

Lemma layout_nat :
  (1 <= K)%nat /\ (3 <= cap)%nat /\ (24 + cap * (K + 8) <= 4096)%nat /\ Disk.page_len = 4096%nat /\
  col_tot_len_ h = Z.of_nat K /\ btree_order_ h + 1 = Z.of_nat cap.
Proof.
  destruct L as [_ _ _ L4 L5 L6 L7]. unfold K, cap, Disk.page_len, PAGE_SIZE, SIZEOF_IxPageHdr, Log.SIZEOF_Rid in *.
  split_and!; lia || nia.
Qed.

Lemma key_off_nat (i : nat) : key_off h (Z.of_nat i) = Z.of_nat (24 + i * K).
Proof. destruct layout_nat as (_ & _ & _ & _ & E & _). unfold key_off, SIZEOF_IxPageHdr. rewrite E. nia. Qed.

Lemma rid_off_nat (i : nat) : rid_off h (Z.of_nat i) = Z.of_nat (base_r + i * 8).
Proof.
  destruct layout_nat as (_ & _ & _ & _ & E & E'). unfold rid_off, SIZEOF_IxPageHdr, Log.SIZEOF_Rid, base_r.
  rewrite (il_keys _ L), E, E'. nia.
Qed.

Lemma length_entries (d : list Z) : length (entries d) = size d.
Proof. unfold entries. by rewrite length_fmap, length_seq. Qed.

Lemma lookup_entries (d : list Z) (i : nat) : entries d !! i = if decide (i < size d)%nat then Some (entry d i) else None.
Proof.
  unfold entries. rewrite list_lookup_fmap. case_decide.
  - by rewrite lookup_seq_lt by lia.
  - by rewrite lookup_seq_ge by lia.
Qed.

Lemma num_key_size (d : list Z) : 0 <= num_key d -> num_key d = Z.of_nat (size d).
Proof. unfold size. lia. Qed.

Lemma length_nkey (d : list Z) (i : nat) : length d = Disk.page_len -> (i < cap)%nat -> length (nkey d i) = K.
Proof.
  intros Hd Hi. destruct layout_nat as (H1 & H2 & H3 & H4 & _). apply length_slice. rewrite Hd, H4. nia.
Qed.

(** ** Primitive runs *)

Lemma rd_run (o n : nat) (d : list Z) : (o + n <= length d)%nat -> rd (Z.of_nat o) (Z.of_nat n) d = (Ret (slice o n d), d).
Proof.
  intros H. unfold rd. erewrite bind_run by reflexivity. unfold id.
  rewrite (proj2 (mem_read_Some (Z.of_nat o) (Z.of_nat n) d (slice o n d))); [done|].
  rewrite !Nat2Z.id. split_and!; [lia|lia|lia|done].
Qed.

Lemma wr_run (o : nat) (x d : list Z) : (o + length x <= length d)%nat -> wr (Z.of_nat o) x d = (Ret tt, splice o x d).
Proof.
  intros H. unfold wr. erewrite bind_run by reflexivity. unfold id.
  rewrite (proj2 (mem_write_Some (Z.of_nat o) x d (splice o x d))); [done|].
  rewrite !Nat2Z.id. split_and!; [lia|lia|done].
Qed.

Lemma memmove_run (dst src n : nat) (d : list Z) :
  (src + n <= length d)%nat -> (dst + n <= length d)%nat ->
  memmove (Z.of_nat dst) (Z.of_nat src) (Z.of_nat n) d = (Ret tt, splice dst (slice src n d) d).
Proof.
  intros H1 H2. unfold memmove. rewrite (bind_run _ _ _ _ _ (rd_run src n d H1)).
  apply wr_run. by rewrite length_slice.
Qed.

Lemma get_size_run (d : list Z) : node_ok d -> get_size d = (Ret (Z.of_nat (size d)), d).
Proof.
  intros (Hl & H0 & _). destruct layout_nat as (_ & _ & _ & E & _).
  unfold get_size, rd_int. rewrite (bind_run _ _ _ _ _ (rd_run 8 4 d ltac:(lia))).
  rewrite mret_run. fold (num_key d). by rewrite num_key_size.
Qed.

Lemma set_size_run (n : nat) (d : list Z) :
  length d = Disk.page_len -> (n <= cap)%nat ->
  exists d', set_size (Z.of_nat n) d = (Ret tt, d') /\ length d' = Disk.page_len /\ num_key d' = Z.of_nat n /\ hdr_same d d' /\
    (forall i, nkey d' i = nkey d i) /\ (forall i, nrid d' i = nrid d i).
Proof.
  intros Hl Hn. destruct layout_nat as (H1 & H2 & H3 & H4 & _).
  exists (splice 8 (i32_bytes (Z.of_nat n)) d). assert (length (i32_bytes (Z.of_nat n)) = 4%nat) as E4 by apply length_i32_bytes.
  unfold set_size, wr_int. rewrite (wr_run 8) by lia. split_and!; try done.
  - rewrite length_splice; lia.
  - unfold num_key. rewrite slice_splice_inside by lia. rewrite slice_all by done. apply i32_roundtrip.
    unfold in_i32, INT32_MIN, INT32_MAX. nia.
  - split; apply slice_splice_disjoint; lia.
  - intros i. apply item_other; lia.
  - intros i. apply item_other; unfold base_r; lia.
Qed.

(** ** Insertion *)

(** The [j]-th of the pairs handed to [insert_pairs]. *)
Definition new_entry (key rids : list Z) (j : nat) : list Z * list Z := (slice (j * K) K key, slice (j * 8) 8 rids).

Lemma hdr_same_splice (o : nat) (x d : list Z) :
  (24 <= o)%nat -> (o + length x <= length d)%nat -> hdr_same d (splice o x d) /\ num_key (splice o x d) = num_key d.
Proof.
  intros Ho Hx. unfold hdr_same, num_key. split; [split|f_equal]; apply slice_splice_disjoint; lia.
Qed.

Lemma hdr_same_trans (a b c : list Z) : hdr_same a b -> hdr_same b c -> hdr_same a c.
Proof. intros [H1 H2] [H3 H4]. split; congruence. Qed.

(** A hole of [n] items opened at [p] and filled with [x], as the code does it. *)
Lemma items_insert (base w p n m : nat) (x d : list Z) (i : nat) :
  length x = (n * w)%nat -> (base + (p + n + m) * w <= length d)%nat -> (i < p + n + m)%nat ->
  item base w (splice (base + p * w) x (splice (base + (p + n) * w) (slice (base + p * w) (m * w) d) d)) i =
  if decide (i < p)%nat then item base w d i else if decide (i < p + n)%nat then slice ((i - p) * w) w x else item base w d (i - n).
Proof.
  intros Hx Hd Hi. assert (length (slice (base + p * w) (m * w) d) = (m * w)%nat) as Hb by (apply length_slice; nia).
  rewrite (item_splice base w p n) by (done || rewrite length_splice; nia).
  rewrite (item_splice base w (p + n) m) by (done || nia).
  destruct (decide (i < p)%nat); [rewrite !decide_False by lia; done|].
  destruct (decide (i < p + n)%nat); [by rewrite decide_True by lia|].
  rewrite decide_False, decide_True by lia. rewrite item_block by lia. f_equal. lia.
Qed.

(** Closing the gap at [p]. *)
Lemma items_erase (base w p m : nat) (d : list Z) (i : nat) :
  (base + (p + 1 + m) * w <= length d)%nat -> (i < p + m)%nat ->
  item base w (splice (base + p * w) (slice (base + (p + 1) * w) (m * w) d) d) i =
  if decide (i < p)%nat then item base w d i else item base w d (i + 1).
Proof.
  intros Hd Hi. assert (length (slice (base + (p + 1) * w) (m * w) d) = (m * w)%nat) as Hb by (apply length_slice; nia).
  rewrite (item_splice base w p m) by (done || nia).
  destruct (decide (i < p)%nat); [by rewrite decide_False by lia|].
  rewrite decide_True by lia. rewrite item_block by lia. f_equal. lia.
Qed.

(** The pages [insert_pairs] goes through, up to the update of the count. *)
Section inserting.
Context (d : list Z) (Hok : node_ok d) (p n : nat) (key rids : list Z).
Context (Hp : (p <= size d)%nat) (Hc : (size d + n <= cap)%nat) (Hk : (n * K <= length key)%nat) (Hr : (n * 8 <= length rids)%nat).

Let m : nat := (size d - p)%nat.
Let x : list Z := take (n * K) key.
Let y : list Z := take (n * 8) rids.
Let d1 : list Z := splice (24 + (p + n) * K) (slice (24 + p * K) (m * K) d) d.
Let d2 : list Z := splice (24 + p * K) x d1.
Let d3 : list Z := splice (base_r + (p + n) * 8) (slice (base_r + p * 8) (m * 8) d2) d2.
Let d4 : list Z := splice (base_r + p * 8) y d3.

Lemma insert_fits :
  ((p + n) * K + m * K <= cap * K)%nat /\ ((p + n) * 8 + m * 8 <= cap * 8)%nat /\ (base_r + cap * 8 <= length d)%nat /\
  base_r = (24 + cap * K)%nat /\ length x = (n * K)%nat /\ length y = (n * 8)%nat.
Proof.
  destruct layout_nat as (L1 & L2 & L3 & L4 & _). destruct Hok as (Hl & _). split_and!.
  - unfold m. rewrite <- Nat.mul_add_distr_r. apply Nat.mul_le_mono_r. lia.
  - unfold m. lia.
  - rewrite Hl, L4. unfold base_r. lia.
  - done.
  - unfold x. rewrite length_take. lia.
  - unfold y. rewrite length_take. lia.
Qed.

Lemma insert_lengths :
  length (slice (24 + p * K) (m * K) d) = (m * K)%nat /\ length d1 = length d /\ length d2 = length d /\
  length (slice (base_r + p * 8) (m * 8) d2) = (m * 8)%nat /\ length d3 = length d /\ length d4 = length d.
Proof.
  destruct insert_fits as (F1 & F2 & F3 & F4 & F5 & F6).
  assert (length (slice (24 + p * K) (m * K) d) = (m * K)%nat) as B1 by (apply length_slice; lia).
  assert (length d1 = length d) as B2 by (apply length_splice; lia).
  assert (length d2 = length d) as B3 by (unfold d2; rewrite length_splice; lia).
  assert (length (slice (base_r + p * 8) (m * 8) d2) = (m * 8)%nat) as B4 by (apply length_slice; lia).
  assert (length d3 = length d) as B5 by (unfold d3; rewrite length_splice; lia).
  assert (length d4 = length d) as B6 by (unfold d4; rewrite length_splice; lia).
  by split_and!.
Qed.

Lemma insert_hdr : hdr_same d d4 /\ num_key d4 = num_key d.
Proof.
  destruct insert_fits as (F1 & F2 & F3 & F4 & F5 & F6). destruct insert_lengths as (B1 & B2 & B3 & B4 & B5 & B6).
  destruct (hdr_same_splice (24 + (p + n) * K) (slice (24 + p * K) (m * K) d) d) as [A1 N1]; [lia|lia|]. fold d1 in A1, N1.
  destruct (hdr_same_splice (24 + p * K) x d1) as [A2 N2]; [lia|lia|]. fold d2 in A2, N2.
  destruct (hdr_same_splice (base_r + (p + n) * 8) (slice (base_r + p * 8) (m * 8) d2) d2) as [A3 N3]; [lia|lia|]. fold d3 in A3, N3.
  destruct (hdr_same_splice (base_r + p * 8) y d3) as [A4 N4]; [lia|lia|]. fold d4 in A4, N4.
  split; [|congruence]. by do 3 (eapply hdr_same_trans; [eassumption|]).
Qed.

Lemma insert_entry_at (i : nat) : (i < size d + n)%nat -> entry d4 i =
  if decide (i < p)%nat then entry d i else if decide (i < p + n)%nat then new_entry key rids (i - p) else entry d (i - n).
Proof.
  intros Hi. destruct insert_fits as (F1 & F2 & F3 & F4 & F5 & F6). destruct insert_lengths as (B1 & B2 & B3 & B4 & B5 & B6).
  assert (i * K + K <= cap * K)%nat as Hik by (apply slot_le; lia). unfold entry, new_entry.
  assert (nkey d4 i = nkey d2 i) as ->.
  { unfold nkey, d4, d3. rewrite !item_other; [done|lia|left; lia|rewrite length_splice; lia|left; lia]. }
  assert (nkey d2 i = if decide (i < p)%nat then nkey d i else if decide (i < p + n)%nat then slice ((i - p) * K) K x else nkey d (i - n)) as ->.
  { apply (items_insert 24 K p n m x d i); [done|rewrite Nat.mul_add_distr_r; lia|unfold m; lia]. }
  assert (nrid d4 i = if decide (i < p)%nat then nrid d2 i else if decide (i < p + n)%nat then slice ((i - p) * 8) 8 y else nrid d2 (i - n)) as ->.
  { apply (items_insert base_r 8 p n m y d2 i); [done|lia|unfold m; lia]. }
  assert (forall j, nrid d2 j = nrid d j) as Hrid.
  { intros j. unfold nrid, d2, d1. rewrite !item_other; [done|lia|right; lia|rewrite length_splice; lia|right; lia]. }
  rewrite !Hrid. destruct (decide (i < p)%nat); [done|]. destruct (decide (i < p + n)%nat); [|done].
  unfold x, y. rewrite !slice_take by (apply slot_le; lia). done.
Qed.

Lemma insert_pairs_run (d' : list Z) :
  set_size (Z.of_nat (size d + n)) d4 = (Ret tt, d') ->
  insert_pairs h (Z.of_nat p) key rids (Z.of_nat n) d = (Ret tt, d').
Proof.
  intros R5. destruct insert_fits as (F1 & F2 & F3 & F4 & F5 & F6). destruct insert_lengths as (B1 & B2 & B3 & B4 & B5 & B6).
  destruct insert_hdr as [_ Hn4]. destruct layout_nat as (_ & _ & _ & _ & L5 & _). pose proof Hok as (Hl & H0 & Hs).
  unfold insert_pairs. rewrite (bind_run _ _ _ _ _ (get_size_run d Hok)).
  rewrite (proj2 (Z.ltb_ge _ _)), (proj2 (Z.ltb_ge _ _)) by lia. change (false || false) with false. cbv iota zeta.
  rewrite L5, key_off_nat.
  replace (Z.of_nat (24 + p * K) + Z.of_nat n * Z.of_nat K) with (Z.of_nat (24 + (p + n) * K)) by lia.
  replace ((Z.of_nat (size d) - Z.of_nat p) * Z.of_nat K) with (Z.of_nat (m * K)) by (unfold m; rewrite Nat2Z.inj_mul, Nat2Z.inj_sub; lia).
  rewrite (bind_run _ _ _ _ _ (memmove_run (24 + (p + n) * K) (24 + p * K) (m * K) d ltac:(lia) ltac:(lia))). fold d1.
  rewrite (proj2 (mem_read_Some 0 (Z.of_nat n * Z.of_nat K) key x)).
  2: { rewrite <- Nat2Z.inj_mul. split_and!; [lia|lia|lia|]. unfold x, slice. by rewrite drop_0, Nat2Z.id. }
  erewrite bind_run by reflexivity.
  rewrite (bind_run _ _ _ _ _ (wr_run (24 + p * K) x d1 ltac:(lia))). fold d2. rewrite rid_off_nat. unfold Log.SIZEOF_Rid.
  replace (Z.of_nat (base_r + p * 8) + Z.of_nat n * 8) with (Z.of_nat (base_r + (p + n) * 8)) by lia.
  replace ((Z.of_nat (size d) - Z.of_nat p) * 8) with (Z.of_nat (m * 8)) by (unfold m; lia).
  rewrite (bind_run _ _ _ _ _ (memmove_run (base_r + (p + n) * 8) (base_r + p * 8) (m * 8) d2 ltac:(lia) ltac:(lia))). fold d3.
  rewrite (proj2 (mem_read_Some 0 (Z.of_nat n * 8) rids y)).
  2: { split_and!; [lia|lia|lia|]. unfold y, slice. rewrite drop_0. f_equal. lia. }
  erewrite bind_run by reflexivity.
  rewrite (bind_run _ _ _ _ _ (wr_run (base_r + p * 8) y d3 ltac:(lia))). fold d4.
  assert (node_ok d4) as Hok4 by (split_and!; [congruence|lia|unfold size; rewrite Hn4; exact Hs]).
  rewrite (bind_run _ _ _ _ _ (get_size_run d4 Hok4)).
  assert (size d4 = size d) as -> by (unfold size; by rewrite Hn4).
  rewrite <- Nat2Z.inj_add. exact R5.
Qed.

(** The pairs come between the first [p] entries and the others. *)
Lemma insert_pairs_ok :
  exists d', insert_pairs h (Z.of_nat p) key rids (Z.of_nat n) d = (Ret tt, d') /\ node_ok d' /\ size d' = (size d + n)%nat /\
    hdr_same d d' /\ entries d' = take p (entries d) ++ (new_entry key rids <$> seq 0 n) ++ drop p (entries d).
Proof.
  destruct insert_lengths as (_ & _ & _ & _ & _ & B6). destruct insert_hdr as [Hh4 _]. pose proof Hok as (Hl & _).
  destruct (set_size_run (size d + n) d4) as (d5 & R5 & Hl5 & Hn5 & Hh5 & Hk5 & Hr5); [congruence|done|].
  assert (size d5 = (size d + n)%nat) as Hs5 by (unfold size at 1; by rewrite Hn5, Nat2Z.id).
  exists d5. split_and!; [by apply insert_pairs_run|split_and!; [done|lia|lia]|done|by eapply hdr_same_trans|].
  apply list_eq. intros i. rewrite lookup_entries, Hs5.
  assert (entry d5 i = entry d4 i) as -> by (unfold entry; by rewrite Hk5, Hr5).
  destruct (decide (i < p)%nat) as [Hi|Hi].
  { rewrite lookup_app_l by (rewrite length_take, length_entries; lia). rewrite lookup_take_lt by done.
    rewrite lookup_entries, !decide_True by lia. rewrite insert_entry_at by lia. by rewrite decide_True. }
  rewrite lookup_app_r by (rewrite length_take, length_entries; lia). rewrite length_take, length_entries, Nat.min_l by lia.
  destruct (decide (i < p + n)%nat) as [Hi'|Hi'].
  { rewrite lookup_app_l by (rewrite length_fmap, length_seq; lia). rewrite list_lookup_fmap, lookup_seq_lt by lia.
    rewrite decide_True by lia. rewrite insert_entry_at by lia. rewrite decide_False, decide_True by lia. done. }
  rewrite lookup_app_r by (rewrite length_fmap, length_seq; lia). rewrite length_fmap, length_seq, lookup_drop, lookup_entries.
  replace (p + (i - p - n))%nat with (i - n)%nat by lia.
  destruct (decide (i < size d + n)%nat); [|by rewrite decide_False by lia].
  rewrite decide_True by lia. rewrite insert_entry_at by lia. by rewrite !decide_False by lia.
Qed.

End inserting.

(** ** Deletion *)

Section erasing.
Context (d : list Z) (Hok : node_ok d) (p : nat) (Hp : (p < size d)%nat).

Let m : nat := (size d - 1 - p)%nat.
Let d1 : list Z := splice (24 + p * K) (slice (24 + (p + 1) * K) (m * K) d) d.
Let d2 : list Z := splice (base_r + p * 8) (slice (base_r + (p + 1) * 8) (m * 8) d1) d1.

Lemma erase_fits :
  ((p + 1) * K + m * K <= cap * K)%nat /\ ((p + 1) * 8 + m * 8 <= cap * 8)%nat /\ (base_r + cap * 8 <= length d)%nat /\
  base_r = (24 + cap * K)%nat.
Proof.
  destruct layout_nat as (L1 & L2 & L3 & L4 & _). destruct Hok as (Hl & _ & Hs). split_and!.
  - unfold m. rewrite <- Nat.mul_add_distr_r. apply Nat.mul_le_mono_r. lia.
  - unfold m. lia.
  - rewrite Hl, L4. unfold base_r. lia.
  - done.
Qed.

Lemma erase_lengths :
  length (slice (24 + (p + 1) * K) (m * K) d) = (m * K)%nat /\ length d1 = length d /\
  length (slice (base_r + (p + 1) * 8) (m * 8) d1) = (m * 8)%nat /\ length d2 = length d.
Proof.
  destruct erase_fits as (F1 & F2 & F3 & F4).
  assert (length (slice (24 + (p + 1) * K) (m * K) d) = (m * K)%nat) as B1 by (apply length_slice; lia).
  assert (length d1 = length d) as B2 by (apply length_splice; lia).
  assert (length (slice (base_r + (p + 1) * 8) (m * 8) d1) = (m * 8)%nat) as B3 by (apply length_slice; lia).
  assert (length d2 = length d) as B4 by (unfold d2; rewrite length_splice; lia).
  by split_and!.
Qed.

Lemma erase_hdr : hdr_same d d2 /\ num_key d2 = num_key d.
Proof.
  destruct erase_fits as (F1 & F2 & F3 & F4). destruct erase_lengths as (B1 & B2 & B3 & B4).
  destruct (hdr_same_splice (24 + p * K) (slice (24 + (p + 1) * K) (m * K) d) d) as [A1 N1]; [lia|lia|]. fold d1 in A1, N1.
  destruct (hdr_same_splice (base_r + p * 8) (slice (base_r + (p + 1) * 8) (m * 8) d1) d1) as [A2 N2]; [lia|lia|]. fold d2 in A2, N2.
  split; [by eapply hdr_same_trans|congruence].
Qed.

Lemma erase_entry_at (i : nat) : (i < size d - 1)%nat ->
  entry d2 i = if decide (i < p)%nat then entry d i else entry d (i + 1).
Proof.
  intros Hi. destruct erase_fits as (F1 & F2 & F3 & F4). destruct erase_lengths as (B1 & B2 & B3 & B4).
  destruct Hok as (_ & _ & Hs). assert (i * K + K <= cap * K)%nat as Hik by (apply slot_le; lia). unfold entry.
  assert (nkey d2 i = nkey d1 i) as -> by (unfold nkey, d2; rewrite item_other; [done|lia|left; lia]).
  assert (nkey d1 i = if decide (i < p)%nat then nkey d i else nkey d (i + 1)) as ->.
  { apply (items_erase 24 K p m d i); [rewrite Nat.mul_add_distr_r; lia|unfold m; lia]. }
  assert (nrid d2 i = if decide (i < p)%nat then nrid d1 i else nrid d1 (i + 1)) as ->.
  { apply (items_erase base_r 8 p m d1 i); [lia|unfold m; lia]. }
  assert (forall j, nrid d1 j = nrid d j) as Hrid by (intros j; unfold nrid, d1; rewrite item_other; [done|lia|right; lia]).
  rewrite !Hrid. by destruct (decide (i < p)%nat).
Qed.

Lemma erase_pair_ok :
  exists d', erase_pair h (Z.of_nat p) d = (Ret tt, d') /\ node_ok d' /\ size d' = (size d - 1)%nat /\
    hdr_same d d' /\ entries d' = delete p (entries d).
Proof.
  destruct erase_fits as (F1 & F2 & F3 & F4). destruct erase_lengths as (B1 & B2 & B3 & B4). destruct erase_hdr as [Hh2 Hn2].
  destruct layout_nat as (_ & _ & _ & _ & L5 & _). pose proof Hok as (Hl & H0 & Hs).
  destruct (set_size_run (size d - 1) d2) as (d3 & R3 & Hl3 & Hn3 & Hh3 & Hk3 & Hr3); [congruence|lia|].
  assert (size d3 = (size d - 1)%nat) as Hs3 by (unfold size at 1; by rewrite Hn3, Nat2Z.id).
  exists d3. split_and!; [|split_and!; [done|lia|lia]|done|by eapply hdr_same_trans|].
  - unfold erase_pair. rewrite (bind_run _ _ _ _ _ (get_size_run d Hok)). cbv zeta.
    rewrite (proj2 (Z.ltb_ge _ _)), (proj2 (Z.leb_gt _ _)) by lia. change (false || false) with false. cbv iota.
    rewrite L5, key_off_nat.
    replace (Z.of_nat (24 + p * K) + Z.of_nat K) with (Z.of_nat (24 + (p + 1) * K)) by lia.
    replace ((Z.of_nat (size d) - 1 - Z.of_nat p) * Z.of_nat K) with (Z.of_nat (m * K)) by (unfold m; rewrite Nat2Z.inj_mul, !Nat2Z.inj_sub; lia).
    rewrite (bind_run _ _ _ _ _ (memmove_run (24 + p * K) (24 + (p + 1) * K) (m * K) d ltac:(lia) ltac:(lia))). fold d1.
    rewrite rid_off_nat. unfold Log.SIZEOF_Rid.
    replace (Z.of_nat (base_r + p * 8) + 8) with (Z.of_nat (base_r + (p + 1) * 8)) by lia.
    replace ((Z.of_nat (size d) - 1 - Z.of_nat p) * 8) with (Z.of_nat (m * 8)) by (unfold m; lia).
    rewrite (bind_run _ _ _ _ _ (memmove_run (base_r + p * 8) (base_r + (p + 1) * 8) (m * 8) d1 ltac:(lia) ltac:(lia))). fold d2.
    replace (Z.of_nat (size d) - 1) with (Z.of_nat (size d - 1)) by lia. exact R3.
  - apply list_eq. intros i. rewrite lookup_entries, Hs3.
    assert (entry d3 i = entry d2 i) as -> by (unfold entry; by rewrite Hk3, Hr3).
    destruct (decide (i < p)%nat) as [Hi|Hi].
    + rewrite list_lookup_delete_lt, lookup_entries, !decide_True by lia. rewrite erase_entry_at by lia. by rewrite decide_True.
    + rewrite list_lookup_delete_ge, lookup_entries by lia. destruct (decide (i < size d - 1)%nat); [|by rewrite decide_False by lia].
      rewrite decide_True by lia. rewrite erase_entry_at by lia. rewrite decide_False by lia. by rewrite Nat.add_1_r.
Qed.

End erasing.

(** ** Searching *)

Definition kcmp (a b : list Z) : Z := key_cmp (cols h) a b.

Lemma cols_types : fst <$> cols h = col_types_ h /\ snd <$> cols h = col_lens_ h.
Proof. unfold cols. rewrite fst_zip, snd_zip by (rewrite (il_cols _ L); lia). done. Qed.

(** Reading the key at [i] through a pointer and comparing it. *)
Lemma key_ptr_run (d : list Z) (i : nat) : length d = Disk.page_len -> (i < cap)%nat ->
  exists r, key_ptr h (Z.of_nat i) d = (Ret (nkey d i ++ r), d).
Proof.
  intros Hl Hi. destruct layout_nat as (H1 & H2 & H3 & H4 & _). assert (i * K + K <= cap * K)%nat by by apply slot_le.
  exists (drop (24 + i * K + K) d). unfold key_ptr. erewrite bind_run by reflexivity. unfold id. rewrite key_off_nat.
  rewrite (proj2 (Z.leb_le _ _)), (proj2 (Z.leb_le _ _)) by lia. change (true && true) with true. cbv iota.
  rewrite mret_run, Nat2Z.id. unfold nkey, item, slice. generalize (24 + i * K)%nat. intros o.
  rewrite <- (take_drop K (drop o d)) at 1. by rewrite drop_drop.
Qed.

Lemma compare_run (d a b r r' : list Z) :
  length a = K -> length b = K -> compare h (a ++ r) (b ++ r') d = (Ret (kcmp a b), d).
Proof.
  intros Ha Hb. unfold compare. destruct cols_types as [<- <-].
  assert (tot (cols h) = Z.of_nat K) as E.
  { rewrite <- (il_len _ L). by destruct layout_nat as (_ & _ & _ & _ & ? & _). }
  rewrite ix_compare_total by (apply L || rewrite length_app; lia).
  rewrite key_cmp_prefix by (apply L || lia). done.
Qed.

Lemma first_from_spec (d : list Z) (stop : Z -> M (list Z) bool) (P : nat -> bool) (n fuel i : nat) :
  (forall j, (j < n)%nat -> stop (Z.of_nat j) d = (Ret (P j), d)) -> (i <= n)%nat -> (n - i < fuel)%nat ->
  exists r, first_from fuel stop (Z.of_nat i) (Z.of_nat n) d = (Ret (Z.of_nat r), d) /\ (i <= r <= n)%nat /\
    (forall j, (i <= j < r)%nat -> P j = false) /\ ((r < n)%nat -> P r = true).
Proof.
  intros Hstop. revert i. induction fuel as [|fuel IH]; intros i Hi Hf; [lia|]. simpl.
  destruct (Z.ltb_spec (Z.of_nat i) (Z.of_nat n)) as [Hlt|Hge].
  - rewrite (bind_run _ _ _ _ _ (Hstop i ltac:(lia))). destruct (P i) eqn:E.
    + exists i. split_and!; try done; lia.
    + destruct (IH (S i)) as (r & R & Hr & Hbefore & Hat); [lia|lia|].
      replace (Z.of_nat i + 1) with (Z.of_nat (S i)) by lia. exists r. split_and!; [done|lia|lia| |done].
      intros j Hj. destruct (decide (j = i)) as [->|]; [done|]. apply Hbefore. lia.
  - exists i. split_and!; try done; lia.
Qed.

Lemma bisect_spec (d : list Z) (go : Z -> M (list Z) bool) (P : nat -> bool) (n fuel l r : nat) :
  (forall j, (j < n)%nat -> go (Z.of_nat j) d = (Ret (P j), d)) ->
  (forall j k, (j <= k < n)%nat -> P k = true -> P j = true) ->
  (l <= r <= n)%nat -> (r - l <= fuel)%nat ->
  (forall j, (j < l)%nat -> P j = true) -> (forall j, (r <= j < n)%nat -> P j = false) ->
  exists x, bisect fuel go (Z.of_nat l) (Z.of_nat r) d = (Ret (Z.of_nat x), d) /\ (l <= x <= r)%nat /\
    (forall j, (j < x)%nat -> P j = true) /\ (forall j, (x <= j < n)%nat -> P j = false).
Proof.
  intros Hgo Hmono. revert l r. induction fuel as [|fuel IH]; intros l r Hlr Hf Hlow Hhigh; simpl.
  - exists l. assert (l = r) as -> by lia. split_and!; try done; lia.
  - destruct (Z.ltb_spec (Z.of_nat l) (Z.of_nat r)) as [Hlt|Hge].
    2: { exists l. assert (l = r) as -> by lia. split_and!; try done; lia. }
    set (mid := (l + (r - l) / 2)%nat).
    assert (Z.of_nat l + Z.quot (Z.of_nat r - Z.of_nat l) 2 = Z.of_nat mid) as ->.
    { rewrite Z.quot_div_nonneg by lia. unfold mid. rewrite Nat2Z.inj_add, Nat2Z.inj_div, Nat2Z.inj_sub by lia. done. }
    assert (l <= mid < r)%nat as Hmid by (unfold mid; pose proof (Nat.div_lt (r - l) 2); lia).
    rewrite (bind_run _ _ _ _ _ (Hgo mid ltac:(lia))). destruct (P mid) eqn:E.
    + destruct (IH (mid + 1)%nat r) as (x & R & Hx & H1 & H2); [lia|lia| |done|].
      { intros j Hj. apply (Hmono j mid); [lia|done]. }
      replace (Z.of_nat mid + 1) with (Z.of_nat (mid + 1)) by lia. exists x. split_and!; [done|lia|lia|done|done].
    + destruct (IH l mid) as (x & R & Hx & H1 & H2); [lia|lia|done| |].
      { intros j Hj. destruct (P j) eqn:Ej; [|done]. rewrite (Hmono mid j) in E; [done|lia|done]. }
      exists x. split_and!; [done|lia|lia|done|done].
Qed.

End node.
End IxNodeFacts.
