(* ===== verification/IxNodeSpec.v ===== *)
(** * The contract of B+-tree nodes

    Searches find the first key not below the target, the optimised search
    agrees with the plain one, and insertion, removal and lookup act on the
    sorted list of entries. *)

From Stdlib Require Import Sorting.Sorted.
From S2P Require Import Prelude Bytes Posix Disk Txn Log IxDefs IxCompare IxNode IxNodeFacts.

Module IxNodeSpec.
Import IxNode IxNodeFacts.

Section spec.
Context (h : IxFileHdr) (L : ix_layout h).
Abbreviation kc := (kcmp h).

Definition keys (d : list Z) : list (list Z) := fst <$> entries h d.
Definition valid_key (k : list Z) : Prop := key_valid (cols h) k.

(** Keys are comparable and strictly increasing. *)
Record sorted_node (d : list Z) : Prop := {
  sn_ok : node_ok h d;
  sn_valid : Forall valid_key (keys d);
  sn_sorted : forall i j a b, (i < j)%nat -> keys d !! i = Some a -> keys d !! j = Some b -> kc a b < 0
}.

(** [r] is the position of the first key that is not below [t]. *)
Definition is_lower (d t : list Z) (r : nat) : Prop :=
  (r <= size d)%nat /\ (forall j k, (j < r)%nat -> keys d !! j = Some k -> 0 < kc t k) /\
  (forall k, keys d !! r = Some k -> kc t k <= 0).

Lemma lookup_keys (d : list Z) (i : nat) : keys d !! i = if decide (i < size d)%nat then Some (nkey h d i) else None.
Proof. unfold keys. rewrite list_lookup_fmap, lookup_entries by done. by case_decide. Qed.

Lemma valid_len (k : list Z) : valid_key k -> length k = K h.
Proof. intros Hk%key_valid_len. unfold K. rewrite (il_len _ L). lia. Qed.

Lemma kc_order : is_order valid_key kc.
Proof. apply key_cmp_order, L. Qed.

Lemma compare_at (d t : list Z) (i : nat) :
  node_ok h d -> length t = K h -> (i < cap h)%nat ->
  (k ← key_ptr h (Z.of_nat i); c ← compare h t k; mret c) d = (Ret (kc t (nkey h d i)), d) /\
  (k ← key_ptr h (Z.of_nat i); c ← compare h k t; mret c) d = (Ret (kc (nkey h d i) t), d).
Proof.
  intros (Hl & _) Ht Hi. destruct (key_ptr_run h L d i Hl Hi) as [r R].
  pose proof (length_nkey h L d i Hl Hi) as Hk. rewrite !(bind_run _ _ _ _ _ R).
  rewrite <- (app_nil_r t). rewrite (bind_run _ _ _ _ _ (compare_run h L d t (nkey h d i) [] r Ht Hk)).
  rewrite (bind_run _ _ _ _ _ (compare_run h L d (nkey h d i) t r [] Hk Ht)). by rewrite app_nil_r.
Qed.

(** The two tests the loops perform. *)
Lemma test_at (d t : list Z) (i : nat) (f : Z -> bool) :
  node_ok h d -> length t = K h -> (i < cap h)%nat ->
  (k ← key_ptr h (Z.of_nat i); c ← compare h t k; mret (f c)) d = (Ret (f (kc t (nkey h d i))), d) /\
  (k ← key_ptr h (Z.of_nat i); c ← compare h k t; mret (f c)) d = (Ret (f (kc (nkey h d i) t)), d).
Proof.
  intros Hok Ht Hi. destruct Hok as (Hl & _). destruct (key_ptr_run h L d i Hl Hi) as [r R].
  pose proof (length_nkey h L d i Hl Hi) as Hk. rewrite !(bind_run _ _ _ _ _ R).
  rewrite <- (app_nil_r t). rewrite (bind_run _ _ _ _ _ (compare_run h L d t (nkey h d i) [] r Ht Hk)).
  rewrite (bind_run _ _ _ _ _ (compare_run h L d (nkey h d i) t r [] Hk Ht)). by rewrite app_nil_r.
Qed.

Lemma lower_bound_linear_ok (d t : list Z) :
  node_ok h d -> length t = K h -> exists r, lower_bound_linear h t d = (Ret (Z.of_nat r), d) /\ is_lower d t r.
Proof.
  intros Hok Ht. pose proof Hok as (_ & _ & Hs). unfold lower_bound_linear. rewrite (bind_run _ _ _ _ _ (get_size_run h L d Hok)).
  destruct (first_from_spec d (fun i => k ← key_ptr h i; c ← compare h t k; mret (c <=? 0))
    (fun j => kc t (nkey h d j) <=? 0) (size d) (S (Z.to_nat (Z.of_nat (size d)))) 0) as (r & R & Hr & Hb & Ha).
  - intros j Hj. by apply (test_at d t j (fun c => c <=? 0)); [..|lia].
  - lia.
  - lia.
  - exists r. split; [exact R|]. split_and!; [lia| |].
    + intros j k Hj. rewrite lookup_keys, decide_True by lia. intros [= <-].
      specialize (Hb j ltac:(lia)). apply Z.leb_gt in Hb. lia.
    + intros k. rewrite lookup_keys. case_decide as E; [|done]. intros [= <-]. by apply Z.leb_le, Ha.
Qed.

Lemma lower_bound_ok (d t : list Z) :
  node_ok h d -> length t = K h -> exists r, lower_bound h t d = (Ret (Z.of_nat r), d) /\ is_lower d t r.
Proof. exact (lower_bound_linear_ok d t). Qed.

Lemma lower_bound_binary_ok (d t : list Z) :
  sorted_node d -> valid_key t -> exists r, lower_bound_binary h t d = (Ret (Z.of_nat r), d) /\ is_lower d t r.
Proof.
  intros [Hok Hv Hsort] Ht. pose proof (valid_len t Ht) as Hlt. pose proof Hok as (_ & _ & Hs). destruct kc_order as [Oa Ot].
  assert (forall j, (j < size d)%nat -> valid_key (nkey h d j)) as Hvk.
  { intros j Hj. eapply Forall_lookup_1; [exact Hv|]. by rewrite lookup_keys, decide_True. }
  unfold lower_bound_binary. rewrite (bind_run _ _ _ _ _ (get_size_run h L d Hok)).
  destruct (bisect_spec d (fun mid => k ← key_ptr h mid; c ← compare h k t; mret (c <? 0))
    (fun j => kc (nkey h d j) t <? 0) (size d) (Z.to_nat (Z.of_nat (size d))) 0 (size d)) as (r & R & Hr & Hb & Ha).
  - intros j Hj. by apply (test_at d t j (fun c => c <? 0)); [..|lia].
  - intros j k Hjk Hk. apply Z.ltb_lt in Hk. apply Z.ltb_lt. destruct (decide (j = k)) as [->|Hne]; [done|].
    assert (kc (nkey h d j) (nkey h d k) < 0) as Hjk'.
    { apply (Hsort j k); [lia|by rewrite lookup_keys, decide_True by lia..]. }
    pose proof (Ot (nkey h d j) (nkey h d k) t) as T1. pose proof (Ot t (nkey h d j) (nkey h d k)) as T2.
    rewrite (Oa (nkey h d j) t), (Oa (nkey h d k) t) in T2 by (done || apply Hvk; lia).
    specialize (T1 ltac:(apply Hvk; lia) ltac:(apply Hvk; lia) Ht). specialize (T2 Ht ltac:(apply Hvk; lia) ltac:(apply Hvk; lia)). lia.
  - lia.
  - lia.
  - intros j Hj. lia.
  - intros j Hj. lia.
  - exists r. split; [exact R|]. split_and!; [lia| |].
    + intros j k Hj. rewrite lookup_keys, decide_True by lia. intros [= <-].
      specialize (Hb j Hj). apply Z.ltb_lt in Hb. rewrite (Oa (nkey h d j) t) by (done || apply Hvk; lia). lia.
    + intros k. rewrite lookup_keys. case_decide as E; [|done]. intros [= <-].
      specialize (Ha r ltac:(lia)). apply Z.ltb_ge in Ha. rewrite (Oa (nkey h d r) t) by (done || apply Hvk; lia). lia.
Qed.

Lemma is_lower_unique (d t : list Z) (r r' : nat) : is_lower d t r -> is_lower d t r' -> r = r'.
Proof.
  intros (H1 & H2 & H3) (H1' & H2' & H3'). destruct (Nat.lt_total r r') as [Hlt|[->|Hlt]]; [|done|].
  - specialize (H2' r (nkey h d r) Hlt). specialize (H3 (nkey h d r)). rewrite lookup_keys, decide_True in H2', H3 by lia.
    specialize (H2' eq_refl). specialize (H3 eq_refl). lia.
  - specialize (H2 r' (nkey h d r') Hlt). specialize (H3' (nkey h d r')). rewrite lookup_keys, decide_True in H2, H3' by lia.
    specialize (H2 eq_refl). specialize (H3' eq_refl). lia.
Qed.

(** In a sorted node everything from the lower bound on is at least [t]; past
    an entry different from [t] it is above [t]. *)
Lemma above_lower (d t : list Z) (r j : nat) (k : list Z) :
  sorted_node d -> valid_key t -> is_lower d t r -> (r <= j)%nat -> keys d !! j = Some k ->
  kc t k <= 0 /\ ((r < j)%nat -> kc t k < 0).
Proof.
  intros [Hok Hv Hsort] Ht (H1 & H2 & H3) Hrj Hk. destruct kc_order as [Oa Ot].
  assert (valid_key k) as Hvk by by eapply Forall_lookup_1.
  destruct (decide (r = j)) as [->|Hne]; [split; [by apply H3|lia]|].
  assert (r < size d)%nat as Hr. { rewrite lookup_keys in Hk. case_decide; [lia|done]. }
  assert (keys d !! r = Some (nkey h d r)) as Hkr by by rewrite lookup_keys, decide_True.
  assert (valid_key (nkey h d r)) as Hvr by by eapply Forall_lookup_1.
  specialize (H3 _ Hkr). pose proof (Hsort r j _ _ ltac:(lia) Hkr Hk) as Hlt.
  pose proof (Ot t (nkey h d r) k Ht Hvr Hvk H3 ltac:(lia)) as Hle.
  assert (kc t k < 0) as Hstrict; [|lia].
  pose proof (Ot k t (nkey h d r) Hvk Ht Hvr) as T. rewrite (Oa t k Ht Hvk), (Oa (nkey h d r) k Hvr Hvk) in T. lia.
Qed.

(** The lower bound of a key that is there is its position. *)
Lemma lower_at_key (d t : list Z) (r j : nat) (k : list Z) :
  sorted_node d -> valid_key t -> is_lower d t r -> keys d !! j = Some k -> kc t k = 0 -> r = j.
Proof.
  intros Sn Ht Hr Hj E. pose proof Hr as (_ & H2 & _). destruct (Nat.lt_total r j) as [Hlt|[->|Hgt]]; [|done|].
  - destruct (above_lower d t r j k Sn Ht Hr ltac:(lia) Hj) as [_ Hstrict]. specialize (Hstrict Hlt). lia.
  - specialize (H2 j k Hgt Hj). lia.
Qed.

(** ** Lookup *)

(** The position stored with the entry whose key equals [t]. *)
Definition node_lookup (d t : list Z) : option Rid :=
  e ← List.find (fun e => kc t e.1 =? 0) (entries h d); Some (rid_of_bytes e.2).

Lemma find_entry (d t : list Z) (r : nat) :
  sorted_node d -> valid_key t -> is_lower d t r ->
  List.find (fun e => kc t e.1 =? 0) (entries h d) =
  (e ← entries h d !! r; if kc t e.1 =? 0 then Some e else None).
Proof.
  intros Sn Ht Hr. pose proof Hr as (H1 & H2 & H3).
  assert (forall l i, l = drop i (entries h d) -> (i <= r)%nat ->
    List.find (fun e => kc t e.1 =? 0) l = (e ← entries h d !! r; if kc t e.1 =? 0 then Some e else None)) as G.
  2: { apply (G _ 0%nat); [done|lia]. }
  intros l. induction l as [|e l IH]; intros i El Hi.
  - assert (entries h d !! r = None) as ->; [|done]. apply lookup_ge_None.
    assert (length (drop i (entries h d)) = 0%nat) as E by (by rewrite <- El). rewrite length_drop in E. lia.
  - assert (entries h d !! i = Some e) as Hei by (rewrite <- (Nat.add_0_r i), <- lookup_drop, <- El; done).
    assert (l = drop (S i) (entries h d)) as El' by (rewrite <- Nat.add_1_r, <- drop_drop, <- El; done).
    assert (keys d !! i = Some e.1) as Hki by (unfold keys; by rewrite list_lookup_fmap, Hei).
    simpl. destruct (decide (i = r)) as [->|Hne].
    + rewrite Hei. simpl. destruct (kc t e.1 =? 0) eqn:E; [done|].
      (* all later entries are above [t] *)
      clear IH. assert (forall j, (r < j)%nat -> forall e', entries h d !! j = Some e' -> (kc t e'.1 =? 0) = false) as Habove.
      { intros j Hj e' He'. apply Z.eqb_neq. destruct (above_lower d t r j e'.1 Sn Ht Hr) as [_ Hs]; [lia| |specialize (Hs Hj); lia].
        unfold keys. by rewrite list_lookup_fmap, He'. }
      rewrite El'. destruct (List.find _ (drop (S r) (entries h d))) as [e'|] eqn:Ef; [|done].
      apply List.find_some in Ef as [Hin Heq]. apply list_elem_of_In, list_elem_of_lookup in Hin as [k Hk].
      rewrite lookup_drop in Hk. rewrite (Habove (S r + k)%nat) in Heq; [done|lia|done].
    + rewrite (proj2 (Z.eqb_neq _ _)) by (specialize (H2 i e.1 ltac:(lia) Hki); lia). apply (IH (S i)); [done|lia].
Qed.

Lemma get_rid_run (d : list Z) (i : nat) : node_ok h d -> (i < cap h)%nat ->
  get_rid h (Z.of_nat i) d = (Ret (rid_of_bytes (nrid h d i)), d).
Proof.
  intros (Hl & _) Hi. destruct (layout_nat h L) as (H1 & H2 & H3 & H4 & _).
  unfold get_rid. rewrite (rid_off_nat h L). change Log.SIZEOF_Rid with (Z.of_nat 8).
  rewrite (bind_run _ _ _ _ _ (rd_run (base_r h + i * 8) 8 d ltac:(unfold base_r; lia))). reflexivity.
Qed.

Lemma leaf_lookup_ok (d t : list Z) :
  sorted_node d -> valid_key t -> leaf_lookup h t d = (Ret (node_lookup d t), d).
Proof.
  intros Sn Ht. pose proof (sn_ok _ Sn) as Hok. pose proof (valid_len t Ht) as Hlt. pose proof Hok as (_ & _ & Hs).
  destruct (lower_bound_ok d t Hok Hlt) as (r & R & Hr). pose proof Hr as (H1 & H2 & H3).
  unfold leaf_lookup, node_lookup. rewrite (find_entry d t r Sn Ht Hr), lookup_entries.
  rewrite (bind_run _ _ _ _ _ R), (bind_run _ _ _ _ _ (get_size_run h L d Hok)).
  destruct (decide (r < size d)%nat) as [Hlt'|Hge].
  - rewrite (proj2 (Z.eqb_neq _ _)), (proj2 (Z.eqb_neq _ _)) by lia. change (false || false) with false. cbv iota.
    assert (r < cap h)%nat as Hrc by lia. destruct (key_ptr_run h L d r (proj1 Hok) Hrc) as [q Rq].
    rewrite (bind_run _ _ _ _ _ Rq). rewrite <- (app_nil_r t) at 1.
    rewrite (bind_run _ _ _ _ _ (compare_run h L d (nkey h d r) t q [] (length_nkey h L d r (proj1 Hok) Hrc) Hlt)).
    assert (keys d !! r = Some (nkey h d r)) as Hkr by by rewrite lookup_keys, decide_True.
    rewrite (or_antisym _ _ kc_order t (nkey h d r) Ht) by (eapply Forall_lookup_1; [apply Sn|exact Hkr]).
    simpl. destruct (Z.eqb_spec (kc t (nkey h d r)) 0) as [E|E].
    + rewrite E. simpl. rewrite (bind_run _ _ _ _ _ (get_rid_run d r Hok Hrc)). reflexivity.
    + rewrite (proj2 (Z.eqb_neq _ _)) by lia. reflexivity.
  - replace r with (size d) by lia. rewrite Z.eqb_refl. reflexivity.
Qed.

(** ** Insertion *)

Definition has_key (d t : list Z) : Prop := exists k, k ∈ keys d /\ kc t k = 0.

(** The slot behind the last entry still holds an old key equal to [t]. *)
Definition stale (d t : list Z) : Prop := (0 < size d)%nat /\ is_lower d t (size d) /\ kc (nkey h d (size d)) t = 0.

Lemma insert_test (d t : list Z) (r : nat) :
  node_ok h d -> length t = K h -> (r < cap h)%nat ->
  (if negb (Z.of_nat (size d) =? 0) then k ← key_ptr h (Z.of_nat r); c ← compare h k t; mret (c =? 0) else mret false) d =
  (Ret (negb (Z.of_nat (size d) =? 0) && (kc (nkey h d r) t =? 0)), d).
Proof.
  intros Hok Ht Hr. destruct (negb _); [|done]. simpl. by apply (test_at d t r (fun c => c =? 0)).
Qed.

Lemma sorted_insert (d d' t : list Z) (r : nat) (v : list Z) :
  sorted_node d -> valid_key t -> is_lower d t r -> ~ has_key d t -> node_ok h d' ->
  entries h d' = take r (entries h d) ++ [(t, v)] ++ drop r (entries h d) -> sorted_node d'.
Proof.
  intros Sn Ht Hr Hno Hok' He. pose proof Hr as (H1 & H2 & H3). destruct kc_order as [Oa Ot].
  assert (keys d' = take r (keys d) ++ [t] ++ drop r (keys d)) as Ek.
  { unfold keys. by rewrite He, !fmap_app, fmap_take, fmap_drop. }
  assert (length (take r (keys d)) = r) as Hlr.
  { rewrite length_take. unfold keys. rewrite length_fmap, length_entries. lia. }
  assert (forall i, keys d' !! i = if decide (i < r)%nat then keys d !! i else if decide (i = r) then Some t else keys d !! (i - 1)%nat) as Hk.
  { intros i. rewrite Ek. case_decide; [rewrite lookup_app_l by lia; by rewrite lookup_take_lt|].
    rewrite lookup_app_r, Hlr by lia. case_decide as E; [subst; by rewrite Nat.sub_diag|].
    rewrite lookup_app_r by (simpl; lia). rewrite lookup_drop. f_equal. simpl. lia. }
  assert (forall i k, keys d !! i = Some k -> valid_key k) as Hv by (intros i k Hik; eapply Forall_lookup_1; [apply Sn|exact Hik]).
  assert (forall j k, (r <= j)%nat -> keys d !! j = Some k -> kc t k < 0) as Habove.
  { intros j k Hj Hjk. destruct (above_lower d t r j k Sn Ht Hr Hj Hjk) as [Hle _].
    assert (kc t k <> 0); [|lia]. intros E. apply Hno. exists k. split; [by eapply list_elem_of_lookup_2|done]. }
  split; [done| |].
  - apply Forall_forall. intros k Hin. rewrite Ek in Hin.
    apply elem_of_app in Hin as [Hin|[Hin|Hin]%elem_of_app]; [|by apply list_elem_of_singleton in Hin as ->|].
    + apply list_elem_of_lookup in Hin as [i Hi]. apply lookup_take_Some in Hi as [Hi _]. by eapply Hv.
    + apply list_elem_of_lookup in Hin as [i Hi]. rewrite lookup_drop in Hi. by eapply Hv.
  - intros i j a b Hij. rewrite !Hk. repeat case_decide; try lia; intros Ha Hb.
    + by apply (sn_sorted _ Sn i j).
    + injection Hb as <-. specialize (H2 i a ltac:(lia) Ha). rewrite (Oa t a Ht (Hv _ _ Ha)). lia.
    + apply (sn_sorted _ Sn i (j - 1)%nat); [lia|done|done].
    + injection Ha as <-. apply (Habove (j - 1)%nat); [lia|done].
    + apply (sn_sorted _ Sn (i - 1)%nat (j - 1)%nat); [lia|done|done].
Qed.

Lemma insert_fresh (d t : list Z) (v : Rid) :
  sorted_node d -> valid_key t -> (size d < cap h)%nat -> ~ has_key d t -> ~ stale d t ->
  exists r d', insert h t v d = (Ret (Z.of_nat (size d) + 1), d') /\ is_lower d t r /\ sorted_node d' /\ hdr_same d d' /\
    entries h d' = take r (entries h d) ++ [(t, Log.rid_bytes v)] ++ drop r (entries h d).
Proof.
  intros Sn Ht Hc Hno Hst. pose proof (sn_ok _ Sn) as Hok. pose proof (valid_len t Ht) as Hlt.
  destruct (lower_bound_ok d t Hok Hlt) as (r & R & Hr). pose proof Hr as (H1 & H2 & H3).
  assert (length (Log.rid_bytes v) = 8%nat) as H8 by (unfold Log.rid_bytes; by rewrite length_app, !length_i32_bytes).
  destruct (insert_pairs_ok h L d Hok r 1 t (Log.rid_bytes v)) as (d' & Ri & Hok' & Hs' & Hh & He); [done|lia|lia|lia|].
  assert (entries h d' = take r (entries h d) ++ [(t, Log.rid_bytes v)] ++ drop r (entries h d)) as He'.
  { rewrite He. do 2 f_equal. simpl. unfold new_entry. do 2 f_equal; apply slice_all; lia. }
  exists r, d'. split_and!; [|done|by eapply sorted_insert|done|done].
  unfold insert. rewrite (bind_run _ _ _ _ _ R), (bind_run _ _ _ _ _ (get_size_run h L d Hok)).
  rewrite (bind_run _ _ _ _ _ (insert_test d t r Hok Hlt ltac:(lia))).
  assert (negb (Z.of_nat (size d) =? 0) && (kc (nkey h d r) t =? 0) = false) as ->.
  { apply andb_false_iff. destruct (Z.eqb_spec (Z.of_nat (size d)) 0); [by left|right]. apply Z.eqb_neq. intros E.
    destruct (decide (r < size d)%nat) as [Hlt'|Hge].
    - apply Hno. assert (keys d !! r = Some (nkey h d r)) as Hkr by by rewrite lookup_keys, decide_True.
      exists (nkey h d r). split; [by eapply list_elem_of_lookup_2|].
      assert (valid_key (nkey h d r)) as Hv by (eapply Forall_lookup_1; [apply Sn|exact Hkr]).
      rewrite (or_antisym _ _ kc_order (nkey h d r) t Hv Ht). lia.
    - apply Hst. assert (r = size d) as -> by lia. split_and!; [lia|done|done]. }
  unfold insert_pair. change 1 with (Z.of_nat 1) at 1. rewrite (bind_run _ _ _ _ _ Ri). reflexivity.
Qed.

Lemma insert_dup (d t : list Z) (v : Rid) :
  sorted_node d -> valid_key t -> has_key d t -> insert h t v d = (Ret (Z.of_nat (size d)), d).
Proof.
  intros Sn Ht (k & [j Hj]%list_elem_of_lookup & E). pose proof (sn_ok _ Sn) as Hok. pose proof (valid_len t Ht) as Hlt.
  pose proof Hok as (_ & _ & Hs). destruct (lower_bound_ok d t Hok Hlt) as (r & R & Hr). pose proof Hr as (H1 & H2 & H3).
  assert (j < size d)%nat as Hjs. { rewrite lookup_keys in Hj. case_decide; [done|done]. }
  assert (r = j) as -> by by eapply lower_at_key.
  unfold insert. rewrite (bind_run _ _ _ _ _ R), (bind_run _ _ _ _ _ (get_size_run h L d Hok)).
  rewrite (bind_run _ _ _ _ _ (insert_test d t j Hok Hlt ltac:(lia))).
  assert (valid_key k) as Hv by (eapply Forall_lookup_1; [apply Sn|exact Hj]).
  rewrite lookup_keys, decide_True in Hj by done. injection Hj as <-.
  rewrite (or_antisym _ _ kc_order t (nkey h d j) Ht Hv), E, (proj2 (Z.eqb_neq _ _)) by lia. reflexivity.
Qed.

(** ** Removal *)

Lemma delete_sorted (d d' : list Z) (p : nat) :
  sorted_node d -> node_ok h d' -> entries h d' = delete p (entries h d) -> sorted_node d'.
Proof.
  intros Sn Hok' He. assert (keys d' = delete p (keys d)) as Ek by (unfold keys; by rewrite He, list_fmap_delete).
  assert (forall i k, keys d' !! i = Some k -> exists j, keys d !! j = Some k /\ j = (if decide (i < p)%nat then i else S i)) as Hk.
  { intros i k. rewrite Ek. case_decide; [rewrite list_lookup_delete_lt by done|rewrite list_lookup_delete_ge by lia]; eauto. }
  split; [done| |].
  - apply Forall_forall. intros k [i Hi]%list_elem_of_lookup. apply Hk in Hi as (j & Hj & _).
    eapply Forall_lookup_1; [apply Sn|exact Hj].
  - intros i j a b Hij Ha Hb. apply Hk in Ha as (i' & Ha & Ei). apply Hk in Hb as (j' & Hb & Ej).
    apply (sn_sorted _ Sn i' j'); [|done|done]. repeat case_decide; lia.
Qed.

Lemma remove_found (d t : list Z) :
  sorted_node d -> valid_key t -> has_key d t ->
  exists r d', remove h t d = (Ret (Z.of_nat (size d) - 1), d') /\ is_lower d t r /\ (r < size d)%nat /\ sorted_node d' /\
    hdr_same d d' /\ entries h d' = delete r (entries h d).
Proof.
  intros Sn Ht (k & [j Hj]%list_elem_of_lookup & E). pose proof (sn_ok _ Sn) as Hok. pose proof (valid_len t Ht) as Hlt.
  pose proof Hok as (_ & _ & Hs). destruct (lower_bound_ok d t Hok Hlt) as (r & R & Hr). pose proof Hr as (H1 & H2 & H3).
  assert (j < size d)%nat as Hjs. { rewrite lookup_keys in Hj. case_decide; [done|done]. }
  assert (r = j) as -> by by eapply lower_at_key.
  destruct (erase_pair_ok h L d Hok j Hjs) as (d' & Re & Hok' & Hs' & Hh & He).
  exists j, d'. split_and!; [|done|done|by eapply delete_sorted|done|done].
  unfold remove. rewrite (bind_run _ _ _ _ _ R), (bind_run _ _ _ _ _ (get_size_run h L d Hok)).
  rewrite (proj2 (Z.ltb_ge _ _)), (proj2 (Z.leb_gt _ _)) by lia. change (false || false) with false. cbv iota.
  assert (j < cap h)%nat as Hjc by lia. destruct (key_ptr_run h L d j (proj1 Hok) Hjc) as [q Rq].
  rewrite (bind_run _ _ _ _ _ Rq). rewrite <- (app_nil_r t) at 1.
  rewrite (bind_run _ _ _ _ _ (compare_run h L d (nkey h d j) t q [] (length_nkey h L d j (proj1 Hok) Hjc) Hlt)).
  assert (valid_key k) as Hv by (eapply Forall_lookup_1; [apply Sn|exact Hj]).
  rewrite lookup_keys, decide_True in Hj by done. injection Hj as <-.
  rewrite (or_antisym _ _ kc_order t (nkey h d j) Ht Hv), E. simpl. by rewrite (bind_run _ _ _ _ _ Re).
Qed.

(** C26: the two variants of [lower_bound], linear and binary search, return the
    same position on every sorted node and leave the page unchanged. *)
Theorem lower_bound_variants_agree (d t : list Z) :
  sorted_node d -> valid_key t ->
  lower_bound_binary h t d = lower_bound_linear h t d /\
  exists r, lower_bound h t d = (Ret (Z.of_nat r), d) /\ is_lower d t r.
Proof.
  intros Sn Ht. destruct (lower_bound_binary_ok d t Sn Ht) as (r & R & Hr).
  destruct (lower_bound_linear_ok d t (sn_ok _ Sn) (valid_len t Ht)) as (r' & R' & Hr').
  rewrite (is_lower_unique d t r r' Hr Hr') in R. split; [congruence|]. by exists r'.
Qed.

(** [insert] compares with the slot behind the last entry, so a key that is
    absent, larger than all entries and still readable there (for instance
    because it was just removed) is taken for a duplicate and is lost. *)
Theorem insert_after_remove_lost (d t : list Z) (v : Rid) :
  sorted_node d -> valid_key t -> (size d < cap h)%nat -> stale d t ->
  insert h t v d = (Ret (Z.of_nat (size d)), d).
Proof.
  intros Sn Ht Hc (Hs0 & Hlow & E). pose proof (sn_ok _ Sn) as Hok. pose proof (valid_len t Ht) as Hlt.
  destruct (lower_bound_ok d t Hok Hlt) as (r & R & Hr). rewrite (is_lower_unique d t r (size d) Hr Hlow) in R.
  unfold insert. rewrite (bind_run _ _ _ _ _ R), (bind_run _ _ _ _ _ (get_size_run h L d Hok)).
  rewrite (bind_run _ _ _ _ _ (insert_test d t (size d) Hok Hlt Hc)).
  rewrite E, (proj2 (Z.eqb_neq _ _)) by lia. reflexivity.
Qed.

(** C27: inserting into a sorted node with room.  A key that the node holds is
    not inserted again.  A key that it does not hold is put at its place: the
    entries before it are smaller, those after it larger, nothing else of the node
    changes, and the count grows by one; unless it is larger than all entries and
    the free slot behind the last of them still holds an old copy of it, which the
    code takes for a duplicate: then the key is not inserted and the node stays as
    it was. *)
Theorem node_insert_correct (d t : list Z) (v : Rid) :
  sorted_node d -> valid_key t -> (size d < cap h)%nat ->
  (has_key d t \/ stale d t -> insert h t v d = (Ret (Z.of_nat (size d)), d)) /\
  (~ has_key d t -> ~ stale d t ->
   exists r d', insert h t v d = (Ret (Z.of_nat (size d) + 1), d') /\ is_lower d t r /\ sorted_node d' /\ hdr_same d d' /\
    entries h d' = take r (entries h d) ++ [(t, Log.rid_bytes v)] ++ drop r (entries h d)).
Proof.
  intros Sn Ht Hc. split; [|exact (insert_fresh d t v Sn Ht Hc)].
  intros [Hk|Hk]; [by apply insert_dup|by apply insert_after_remove_lost].
Qed.

(** Removing a key the node holds deletes exactly its entry. *)
Theorem node_remove_correct (d t : list Z) :
  sorted_node d -> valid_key t -> has_key d t ->
  exists r d', remove h t d = (Ret (Z.of_nat (size d) - 1), d') /\ is_lower d t r /\ (r < size d)%nat /\ sorted_node d' /\
    hdr_same d d' /\ entries h d' = delete r (entries h d).
Proof. exact (remove_found d t). Qed.

(** [leaf_lookup] returns the position stored with the key, or nothing when
    the node does not hold it. *)
Theorem leaf_lookup_correct (d t : list Z) :
  sorted_node d -> valid_key t -> leaf_lookup h t d = (Ret (node_lookup d t), d).
Proof. exact (leaf_lookup_ok d t). Qed.

End spec.

(** C25: on keys whose columns hold comparable values (no NaN) [ix_compare] always
    returns, reads only the columns' bytes, and is a total preorder. *)
Theorem ix_compare_orders (cs : list (ColType * Z)) (a b c : list Z) :
  Forall col_ok cs -> key_valid cs a -> key_valid cs b -> key_valid cs c ->
  exists ab ba bc ac, ix_compare a b (fst <$> cs) (snd <$> cs) = Some ab /\ ix_compare b a (fst <$> cs) (snd <$> cs) = Some ba /\
    ix_compare b c (fst <$> cs) (snd <$> cs) = Some bc /\ ix_compare a c (fst <$> cs) (snd <$> cs) = Some ac /\
    ba = - ab /\ (ab <= 0 -> bc <= 0 -> ac <= 0) /\
    (forall r r', ix_compare (a ++ r) (b ++ r') (fst <$> cs) (snd <$> cs) = Some ab).
Proof.
  intros Hc Ha Hb Hd. pose proof (key_valid_len _ _ Ha). pose proof (key_valid_len _ _ Hb). pose proof (key_valid_len _ _ Hd).
  destruct (key_cmp_order cs Hc) as [Oa Ot]. exists (key_cmp cs a b), (key_cmp cs b a), (key_cmp cs b c), (key_cmp cs a c).
  split_and!; try (apply ix_compare_total; [done|lia|lia]); [by apply Oa|by apply Ot|].
  intros r r'. rewrite ix_compare_total by (done || rewrite length_app; lia). by rewrite key_cmp_prefix by (done || lia).
Qed.

End IxNodeSpec.

(** ** A concrete index over one [INT] column *)

Module IxNodeDemo.
Import IxNode IxNodeFacts IxNodeSpec.

Definition hd : IxFileHdr := new_ix_hdr [(TYPE_INT, 4)].
Definition key (n : Z) : list Z := i32_bytes n.
(** The empty root page as [create_index] writes it. *)
Definition root0 : list Z :=
  i32_bytes (-1) ++ i32_bytes (-1) ++ i32_bytes 0 ++ [1; 0; 0; 0] ++ i32_bytes 1 ++ i32_bytes 1 ++ replicate 4072 0.
Definition ins (n : Z) (d : list Z) : list Z := (insert hd (key n) (mkRid n 0) d).2.

Lemma hd_layout : ix_layout hd.
Proof.
  split; try reflexivity.
  - repeat constructor.
  - vm_compute. congruence.
  - vm_compute. congruence.
  - vm_compute. congruence.
Qed.

Lemma key_valid_int (n : Z) : valid_key hd (key n).
Proof.
  exists (key n), []. split_and!; [by rewrite app_nil_r| |done]. split_and!; [done|apply le_bytes_is_byte|done].
Qed.

Lemma root0_sorted : sorted_node hd root0.
Proof.
  assert (num_key root0 = 0) as E by (vm_compute; reflexivity).
  assert (keys hd root0 = []) as Ek. { unfold keys, entries, size. by rewrite E. }
  split; [split_and!| |].
  - apply Nat2Z.inj. vm_compute. reflexivity.
  - lia.
  - unfold size. rewrite E. lia.
  - rewrite Ek. constructor.
  - intros i j a b _. rewrite Ek. done.
Qed.

(** One insertion into a sorted node of at most [n] entries. *)
Lemma ins_sorted (d : list Z) (n : Z) :
  sorted_node hd d -> (size d < 300)%nat -> ~ has_key hd d (key n) -> ~ stale hd d (key n) ->
  sorted_node hd (ins n d) /\ exists r, entries hd (ins n d) = take r (entries hd d) ++ [(key n, Log.rid_bytes (mkRid n 0))] ++ drop r (entries hd d).
Proof.
  intros Sn Hs Hno Hst. assert (300 <= cap hd)%nat as Hc by (apply Nat.leb_le; vm_compute; reflexivity).
  destruct (insert_fresh hd hd_layout d (key n) (mkRid n 0) Sn (key_valid_int n)) as (r & d' & R & _ & Sn' & _ & He); [lia|done|done|].
  unfold ins. rewrite R. split; [done|]. by exists r.
Qed.

Definition one_key : list Z := ins 10 root0.
Definition two_keys : list Z := ins 20 one_key.
(** [20] has been inserted and removed again. *)
Definition removed : list Z := (remove hd (key 20) two_keys).2.

Lemma root0_empty : entries hd root0 = [].
Proof. unfold entries, size. assert (num_key root0 = 0) as -> by (vm_compute; reflexivity). done. Qed.

Lemma one_key_sorted : sorted_node hd one_key /\ entries hd one_key = [(key 10, Log.rid_bytes (mkRid 10 0))].
Proof.
  assert (size root0 = 0%nat) as Hs by (vm_compute; reflexivity).
  destruct (ins_sorted root0 10 root0_sorted) as [Sn [r He]].
  - lia.
  - intros (k & Hk & _). unfold keys in Hk. rewrite root0_empty in Hk. by apply elem_of_nil in Hk.
  - intros [Hp _]. lia.
  - split; [done|]. fold one_key in He. rewrite He, root0_empty, take_nil, drop_nil. done.
Qed.

Lemma two_keys_sorted : sorted_node hd two_keys /\ has_key hd two_keys (key 20).
Proof.
  destruct one_key_sorted as [Sn He].
  destruct (ins_sorted one_key 20 Sn) as [Sn' [r He']].
  - assert (size one_key = 1%nat) as -> by (vm_compute; reflexivity). lia.
  - intros (k & Hk & E). unfold keys in Hk. rewrite He in Hk. apply list_elem_of_singleton in Hk as ->. vm_compute in E. lia.
  - intros (_ & _ & E). vm_compute in E. lia.
  - split; [done|]. exists (key 20). split; [|vm_compute; reflexivity].
    unfold keys. fold two_keys in He'. rewrite He', !fmap_app. apply elem_of_app. right. apply elem_of_app. left. by apply list_elem_of_singleton.
Qed.

Lemma removed_sorted : sorted_node hd removed /\ entries hd removed = [(key 10, Log.rid_bytes (mkRid 10 0))].
Proof.
  destruct two_keys_sorted as [Sn Hk].
  destruct (remove_found hd hd_layout two_keys (key 20) Sn (key_valid_int 20) Hk) as (r & d' & R & _ & _ & Sn' & _ & _).
  split; [unfold removed; by rewrite R|]. vm_compute. reflexivity.
Qed.

Lemma lower_bound_variants_agree_witness :
  lower_bound_binary hd (key 15) two_keys = lower_bound_linear hd (key 15) two_keys /\
  exists r, lower_bound hd (key 15) two_keys = (Ret (Z.of_nat r), two_keys) /\ is_lower hd two_keys (key 15) r.
Proof.
  exact (lower_bound_variants_agree hd hd_layout two_keys (key 15) (proj1 two_keys_sorted) (key_valid_int 15)).
Defined.

Lemma not_in_one : ~ has_key hd one_key (key 20) /\ ~ stale hd one_key (key 20).
Proof.
  destruct one_key_sorted as [_ He]. split.
  - intros (k & Hk & E). unfold keys in Hk. rewrite He in Hk. apply list_elem_of_singleton in Hk as ->. vm_compute in E. lia.
  - intros (_ & _ & E). vm_compute in E. lia.
Qed.

Lemma removed_facts : ~ has_key hd removed (key 20) /\ stale hd removed (key 20).
Proof.
  destruct removed_sorted as [Sn He]. assert (size removed = 1%nat) as Hs by (vm_compute; reflexivity). split.
  - intros (k & Hk & E). unfold keys in Hk. rewrite He in Hk. apply list_elem_of_singleton in Hk as ->. vm_compute in E. lia.
  - split_and!; [lia| |vm_compute; reflexivity]. rewrite Hs. split_and!; [lia| |].
    + intros j k Hj Hk. assert (j = 0%nat) as -> by lia. unfold keys in Hk. rewrite He in Hk. injection Hk as <-. vm_compute. reflexivity.
    + intros k Hk. unfold keys in Hk. rewrite He in Hk. done.
Qed.

(** 20 goes into a node without it, but not into one it was just removed from. *)
Lemma node_insert_correct_witness :
  (exists r d', insert hd (key 20) (mkRid 20 0) one_key = (Ret (Z.of_nat (size one_key) + 1), d') /\ is_lower hd one_key (key 20) r /\
    sorted_node hd d' /\ hdr_same one_key d' /\
    entries hd d' = take r (entries hd one_key) ++ [(key 20, Log.rid_bytes (mkRid 20 0))] ++ drop r (entries hd one_key)) /\
  insert hd (key 20) (mkRid 20 0) removed = (Ret (Z.of_nat (size removed)), removed).
Proof.
  split.
  - apply (node_insert_correct hd hd_layout one_key (key 20) (mkRid 20 0)).
    + apply one_key_sorted.
    + apply key_valid_int.
    + apply Nat.ltb_lt. vm_compute. reflexivity.
    + apply not_in_one.
    + apply not_in_one.
  - apply (node_insert_correct hd hd_layout removed (key 20) (mkRid 20 0)).
    + apply removed_sorted.
    + apply key_valid_int.
    + apply Nat.ltb_lt. vm_compute. reflexivity.
    + right. apply removed_facts.
Defined.

Lemma node_remove_correct_witness :
  exists r d', remove hd (key 20) two_keys = (Ret (Z.of_nat (size two_keys) - 1), d') /\ is_lower hd two_keys (key 20) r /\
    (r < size two_keys)%nat /\ sorted_node hd d' /\ hdr_same two_keys d' /\ entries hd d' = delete r (entries hd two_keys).
Proof.
  exact (node_remove_correct hd hd_layout two_keys (key 20) (proj1 two_keys_sorted) (key_valid_int 20) (proj2 two_keys_sorted)).
Defined.

Lemma leaf_lookup_correct_witness : leaf_lookup hd (key 20) two_keys = (Ret (node_lookup hd two_keys (key 20)), two_keys).
Proof. exact (leaf_lookup_correct hd hd_layout two_keys (key 20) (proj1 two_keys_sorted) (key_valid_int 20)). Defined.

Lemma ix_compare_orders_witness :
  exists ab ba bc ac, ix_compare (key 1) (key 2) [TYPE_INT] [4] = Some ab /\ ix_compare (key 2) (key 1) [TYPE_INT] [4] = Some ba /\
    ix_compare (key 2) (key 3) [TYPE_INT] [4] = Some bc /\ ix_compare (key 1) (key 3) [TYPE_INT] [4] = Some ac /\
    ba = - ab /\ (ab <= 0 -> bc <= 0 -> ac <= 0) /\
    (forall r r', ix_compare (key 1 ++ r) (key 2 ++ r') [TYPE_INT] [4] = Some ab).
Proof.
  apply (ix_compare_orders [(TYPE_INT, 4)] (key 1) (key 2) (key 3)); [by repeat constructor|apply key_valid_int..].
Defined.

End IxNodeDemo.
