(* ===== verification/IxIndex.v ===== *)
(** * The B+-tree ([IxIndexHandle], [src/src/index/ix_index_handle.cpp]; [IxScan])

    The tree operations over a page pool.  An [IxNodeHandle*] is the frame of
    its page: all it holds besides are pointers into that page.  The state also
    carries what an operation shares with the transaction that runs it (the
    deques of latched and of deleted pages), the root latch, and the latch of
    every frame; one thread runs, so taking a latch that is held blocks for
    ever.  Loops along a path of the tree are bounded by [fuel]. *)

From S2P Require Import Prelude Bytes Disk BufferPool PagePool Txn Log IxDefs IxNode.

Inductive Operation : Type := FIND | INSERT | DELETE.
#[export] Instance Operation_eq_dec : EqDecision Operation.
Proof. solve_decision. Defined.

(** [std::shared_mutex] *)
Inductive Latch : Type := Shared (readers : positive) | Exclusive.

Module Ix.
Section ix.
Context {T : Type} {PO : PagePool T}.

Record IxIndexHandle : Type := mkIH {
  ix_pool : T;
  ix_fd : Z;
  ix_hdr : IxFileHdr;
  root_latch_ : bool;
  rwlock : gmap Z Latch;               (* by frame; absent when free *)
  index_latch_page_set_ : list Z;
  index_deleted_page_set_ : list Z
}.
Abbreviation I := (M IxIndexHandle).

Definition set_pool (x : T) (s : IxIndexHandle) : IxIndexHandle :=
  mkIH x (ix_fd s) (ix_hdr s) (root_latch_ s) (rwlock s) (index_latch_page_set_ s) (index_deleted_page_set_ s).
Definition set_hdr (x : IxFileHdr) (s : IxIndexHandle) : IxIndexHandle :=
  mkIH (ix_pool s) (ix_fd s) x (root_latch_ s) (rwlock s) (index_latch_page_set_ s) (index_deleted_page_set_ s).
Definition set_root_latch (x : bool) (s : IxIndexHandle) : IxIndexHandle :=
  mkIH (ix_pool s) (ix_fd s) (ix_hdr s) x (rwlock s) (index_latch_page_set_ s) (index_deleted_page_set_ s).
Definition set_rwlock (x : gmap Z Latch) (s : IxIndexHandle) : IxIndexHandle :=
  mkIH (ix_pool s) (ix_fd s) (ix_hdr s) (root_latch_ s) x (index_latch_page_set_ s) (index_deleted_page_set_ s).
Definition set_latch_set (x : list Z) (s : IxIndexHandle) : IxIndexHandle :=
  mkIH (ix_pool s) (ix_fd s) (ix_hdr s) (root_latch_ s) (rwlock s) x (index_deleted_page_set_ s).
Definition set_deleted_set (x : list Z) (s : IxIndexHandle) : IxIndexHandle :=
  mkIH (ix_pool s) (ix_fd s) (ix_hdr s) (root_latch_ s) (rwlock s) (index_latch_page_set_ s) x.

(** ** Latches *)

Definition root_lock : I unit :=
  b ← gets root_latch_; if (b : bool) then stuck Deadlock else modify (set_root_latch true).
Definition root_unlock : I unit :=
  b ← gets root_latch_; if (b : bool) then modify (set_root_latch false) else stuck BadUnlock.

Definition WLock (page : Z) : I unit :=
  l ← gets rwlock;
  match l !! page with
  | None => modify (set_rwlock (<[page := Exclusive]> l))
  | Some _ => stuck Deadlock
  end.
Definition WUnLock (page : Z) : I unit :=
  l ← gets rwlock;
  match l !! page with
  | Some Exclusive => modify (set_rwlock (delete page l))
  | _ => stuck BadUnlock
  end.
Definition RLock (page : Z) : I unit :=
  l ← gets rwlock;
  match l !! page with
  | None => modify (set_rwlock (<[page := Shared 1]> l))
  | Some (Shared n) => modify (set_rwlock (<[page := Shared (Pos.succ n)]> l))
  | Some Exclusive => stuck Deadlock
  end.
Definition RUnLock (page : Z) : I unit :=
  l ← gets rwlock;
  match l !! page with
  | Some (Shared 1) => modify (set_rwlock (delete page l))
  | Some (Shared n) => modify (set_rwlock (<[page := Shared (Pos.pred n)]> l))
  | _ => stuck BadUnlock
  end.

(** ** Nodes *)

Definition on_pool {A} (m : M T A) : I A := zoom ix_pool set_pool m.
Definition page_of (node : Z) : I Page := t ← gets ix_pool; unwrap OutOfBounds (pp_page t node).

Definition finish {A} (r : outcome A) : I A := fun s => (r, s).
(** A [const] method of the node, and one that may change the page. *)
Definition node_get {A} (node : Z) (m : IxFileHdr -> M (list Z) A) : I A :=
  p ← page_of node; h ← gets ix_hdr; finish (m h (data_ p)).1.
Definition node_do {A} (node : Z) (m : IxFileHdr -> M (list Z) A) : I A :=
  p ← page_of node; h ← gets ix_hdr;
  on_pool (pp_update node (fun _ => (m h (data_ p)).2)) ;;
  finish (m h (data_ p)).1.

Definition get_page_id (node : Z) : I PageId := p ← page_of node; mret (id_ p).
Definition get_page_no (node : Z) : I Z := p ← page_of node; mret (page_no (id_ p)).
Definition get_size (node : Z) : I Z := node_get node (fun _ => IxNode.get_size).
Definition is_leaf_page (node : Z) : I bool := node_get node (fun _ => IxNode.is_leaf_page).
Definition is_root_page (node : Z) : I bool := node_get node (fun _ => IxNode.is_root_page).
Definition get_parent_page_no (node : Z) : I Z := node_get node (fun _ => IxNode.get_parent_page_no).
Definition value_at (node i : Z) : I Z := node_get node (fun h => IxNode.value_at h i).
Definition node_lower_bound (node : Z) (key : list Z) : I Z := node_get node (fun h => IxNode.lower_bound h key).
(** The bytes from [keys], [get_key(i)] and [get_rid(i)] on. *)
Definition key_ptr (node i : Z) : I (list Z) := node_get node (fun h => IxNode.key_ptr h i).
Definition rid_ptr (node i : Z) : I (list Z) := node_get node (fun h => IxNode.rid_ptr h i).
Definition keys (node : Z) : I (list Z) := key_ptr node 0.
Definition rids (node : Z) : I (list Z) := rid_ptr node 0.
Definition max_size : I Z := h ← gets ix_hdr; mret (IxNode.get_max_size h).
Definition min_size : I Z := h ← gets ix_hdr; mret (IxNode.get_min_size h).

(** [buffer_pool_manager_->unpin_page(node->get_page_id(), dirty)] *)
Definition unpin (node : Z) (dirty : bool) : I bool := pid ← get_page_id node; on_pool (pp_unpin pid dirty).

(** Constructing the handle computes addresses from the page. *)
Definition fetch_node (page_no : Z) : I Z :=
  x ← gets ix_fd;
  page ← on_pool (pp_fetch (mkPageId x page_no));
  unwrap NullDeref page.

Definition create_node : I Z :=
  h ← gets ix_hdr;
  n ← int_op (num_pages_ h + 1);
  modify (set_hdr (set_num_pages_ n h)) ;;
  x ← gets ix_fd;
  page ← on_pool (pp_new x);
  r ← unwrap NullDeref page;
  node_do r.1 (fun _ => IxNode.set_size 0) ;;
  mret r.1.

Definition find_child (parent child : Z) : I Z :=
  n ← get_page_no child; node_get parent (fun h => IxNode.find_child h n).

Definition update_root_page_no (root : Z) : I unit := modify (fun s => set_hdr (set_root_page_ root (ix_hdr s)) s).
Definition is_empty : I bool := h ← gets ix_hdr; mret (root_page_ h =? IX_NO_PAGE).
Definition release_node_handle : I unit :=
  h ← gets ix_hdr; n ← int_op (num_pages_ h - 1); modify (set_hdr (set_num_pages_ n h)).
Definition set_last_leaf (x : Z) : I unit := modify (fun s => set_hdr (set_last_leaf_ x (ix_hdr s)) s).

Definition is_secure (node : Z) (operation : Operation) : I bool :=
  n ← get_size node;
  match operation with
  | INSERT => mx ← max_size; mret (n + 1 <? mx)
  | _ =>
      r ← is_root_page node;
      if (r : bool) then mret (2 <=? n - 1) else mn ← min_size; mret (mn <=? n - 1)
  end.

(** [transaction] tells whether the pointer is not null. *)
Definition append_index_latch_page_set (transaction : bool) (page : Z) : I unit :=
  if transaction then modify (fun s => set_latch_set (index_latch_page_set_ s ++ [page]) s) else stuck NullDeref.
Definition append_index_deleted_page (transaction : bool) (page : Z) : I unit :=
  if transaction then modify (fun s => set_deleted_set (index_deleted_page_set_ s ++ [page]) s) else stuck NullDeref.

Definition unlock_unpin_all_pages (transaction : bool) : I unit :=
  if transaction then
    pages ← gets index_latch_page_set_;
    forM pages (fun page => WUnLock page ;; _ ← unpin page false; mret tt) ;;
    modify (set_latch_set [])
  else mret tt.

(** ** Keeping parents and children in step *)

Definition maintain_child (node child_idx : Z) : I unit :=
  leaf ← is_leaf_page node;
  if (leaf : bool) then mret tt else
  child_page_no ← value_at node child_idx;
  child ← fetch_node child_page_no;
  n ← get_page_no node;
  node_do child (fun _ => IxNode.set_parent_page_no n) ;;
  _ ← unpin child true;
  mret tt.

(** The unpin is written inside an [assert]: this is what a build with
    assertions does. *)
Fixpoint maintain_parent (fuel : nat) (curr : Z) : I unit :=
  p ← get_parent_page_no curr;
  if p =? IX_NO_PAGE then mret tt else
  match fuel with
  | O => stuck Diverges
  | Datatypes.S fuel =>
      p ← get_parent_page_no curr;
      parent ← fetch_node p;
      rank ← find_child parent curr;
      h ← gets ix_hdr;
      pk ← key_ptr parent rank;
      ck ← key_ptr curr 0;
      parent_key ← unwrap OutOfBounds (mem_read 0 (col_tot_len_ h) pk);
      child_first_key ← unwrap OutOfBounds (mem_read 0 (col_tot_len_ h) ck);
      if memcmp parent_key child_first_key =? 0 then
        ok ← unpin parent true; assert ok
      else
        node_do parent (fun h => IxNode.set_key h rank child_first_key) ;;
        ok ← unpin parent true;
        assert ok ;;
        maintain_parent fuel parent
  end.

Definition erase_leaf (leaf : Z) : I unit :=
  b ← is_leaf_page leaf;
  assert b ;;
  prev_no ← node_get leaf (fun _ => IxNode.get_prev_leaf);
  prev ← fetch_node prev_no;
  next_no ← node_get leaf (fun _ => IxNode.get_next_leaf);
  node_do prev (fun _ => IxNode.set_next_leaf next_no) ;;
  _ ← unpin prev true;
  next_no ← node_get leaf (fun _ => IxNode.get_next_leaf);
  next ← fetch_node next_no;
  prev_no ← node_get leaf (fun _ => IxNode.get_prev_leaf);
  node_do next (fun _ => IxNode.set_prev_leaf prev_no) ;;
  _ ← unpin next true;
  mret tt.

Fixpoint update_node (fuel : nat) (parent_node node : Z) : I unit :=
  k ← keys node;
  pos ← node_lower_bound parent_node k;
  r ← is_root_page node;
  if (pos =? 0) && negb r then
    match fuel with
    | O => stuck Diverges
    | Datatypes.S fuel =>
        n ← get_parent_page_no parent_node;
        parent ← fetch_node n;
        update_node fuel parent parent_node ;;
        k ← keys node;
        node_do parent_node (fun h => IxNode.set_key h pos k) ;;
        _ ← unpin parent true;
        mret tt
    end
  else node_do parent_node (fun h => IxNode.set_key h pos k).

(** ** Searching *)

(** The loop of [find_leaf_page]: [tem] is latched and pinned. *)
Fixpoint descend (fuel : nat) (key : list Z) (operation : Operation) (transaction : bool) (tem : Z) (root_is_latch : bool) : I (Z * bool) :=
  leaf ← is_leaf_page tem;
  if (leaf : bool) then mret (tem, root_is_latch) else
  match fuel with
  | O => stuck Diverges
  | Datatypes.S fuel =>
      child_page_no ← node_get tem (fun h => IxNode.internal_lookup h key);
      _ ← unpin tem false;
      (if bool_decide (operation = FIND) then RUnLock tem ;; _ ← unpin tem false; mret tt else mret tt) ;;
      tem ← fetch_node child_page_no;
      (if bool_decide (operation = FIND) then RLock tem else WLock tem) ;;
      root_is_latch ←
        (if bool_decide (operation <> FIND) then
           safe ← is_secure tem operation;
           b ← (if (safe : bool) then
                  b ← (if (root_is_latch : bool) then root_unlock ;; mret false else mret root_is_latch);
                  unlock_unpin_all_pages transaction ;;
                  mret b
                else mret root_is_latch);
           append_index_latch_page_set transaction tem ;;
           mret b
         else mret root_is_latch);
      descend fuel key operation transaction tem root_is_latch
  end.

Definition find_leaf_page (fuel : nat) (key : list Z) (operation : Operation) (transaction : bool) : I (Z * bool) :=
  root_lock ;;
  h ← gets ix_hdr;
  root_node ← fetch_node (root_page_ h);
  root_is_latch ←
    (if bool_decide (operation = FIND) then RLock root_node ;; root_unlock ;; mret false
     else WLock root_node ;; append_index_latch_page_set transaction root_node ;; mret true);
  r ← descend fuel key operation transaction root_node root_is_latch;
  (if bool_decide (operation <> FIND) then
     modify (fun s => set_latch_set (take (length (index_latch_page_set_ s) - 1) (index_latch_page_set_ s)) s)
   else mret tt) ;;
  mret r.

(** The bool result, and what is pushed to [result]. *)
Definition get_value (fuel : nat) (key : list Z) (transaction : bool) : I (bool * list Rid) :=
  leaf_find ← find_leaf_page fuel key FIND transaction;
  let leaf_node := leaf_find.1 in
  rid ← node_get leaf_node (fun h => IxNode.leaf_lookup h key);
  RUnLock leaf_node ;;
  _ ← unpin leaf_node false;
  match rid with
  | None => mret (false, [])
  | Some rid => mret (true, [rid])
  end.

Fixpoint exist_loop (leaf_node : Z) (key : list Z) (idx : list Z) : I bool :=
  match idx with
  | [] => mret false
  | i :: idx =>
      key_addr ← key_ptr leaf_node i;
      h ← gets ix_hdr;
      c ← unwrap OutOfBounds (ix_compare key key_addr (col_types_ h) (col_lens_ h));
      if c =? 0 then mret true else exist_loop leaf_node key idx
  end.
Definition is_key_exist (fuel : nat) (key : list Z) (transaction : bool) : I bool :=
  result ← find_leaf_page fuel key FIND transaction;
  let leaf_node := result.1 in
  key_num ← get_size leaf_node;
  found ← exist_loop leaf_node key (seqZ 0 key_num);
  RUnLock leaf_node ;;
  _ ← unpin leaf_node false;
  mret found.

(** ** Insertion *)

Definition split (node : Z) : I Z :=
  total_nodes ← get_size node;
  let left_end_index := Z.quot total_nodes 2 in
  new_node ← create_node;
  node_do new_node (fun _ => IxNode.set_size 0) ;;
  parent ← get_parent_page_no node;
  node_do new_node (fun _ => IxNode.set_parent_page_no parent) ;;
  leaf ← is_leaf_page node;
  node_do new_node (fun _ => IxNode.set_is_leaf leaf) ;;
  k ← key_ptr node left_end_index;
  r ← rid_ptr node left_end_index;
  node_do new_node (fun h => IxNode.insert_pairs h 0 k r (total_nodes - left_end_index)) ;;
  node_do node (fun _ => IxNode.set_size left_end_index) ;;
  leaf ← is_leaf_page new_node;
  (if (leaf : bool) then
     n ← get_page_no node;
     node_do new_node (fun _ => IxNode.set_prev_leaf n) ;;
     nx ← node_get node (fun _ => IxNode.get_next_leaf);
     node_do new_node (fun _ => IxNode.set_next_leaf nx) ;;
     m ← get_page_no new_node;
     node_do node (fun _ => IxNode.set_next_leaf m) ;;
     h ← gets ix_hdr;
     if last_leaf_ h =? n then set_last_leaf m else mret tt
   else forM (seqZ 0 (total_nodes - left_end_index)) (fun i => maintain_child new_node i)) ;;
  mret new_node.

(** [file_hdr_->last_leaf_] follows a split node. *)
Definition follow_last_leaf (node new_node : Z) : I unit :=
  n ← get_page_no node;
  h ← gets ix_hdr;
  if n =? last_leaf_ h then (m ← get_page_no new_node; set_last_leaf m) else mret tt.

(** The [key] and [transaction] arguments are not used. *)
Fixpoint insert_into_parent (fuel : nat) (old_node new_node : Z) : I unit :=
  root ← is_root_page old_node;
  if (root : bool) then
    root_node ← create_node;
    node_do root_node (fun _ => IxNode.set_size 0) ;;
    node_do root_node (fun _ => IxNode.set_parent_page_no INVALID_PAGE_ID) ;;
    node_do root_node (fun _ => IxNode.set_is_leaf false) ;;
    k ← keys old_node;
    n ← get_page_no old_node;
    node_do root_node (fun h => IxNode.insert_pair h 0 k (mkRid n (-1))) ;;
    k ← keys new_node;
    n ← get_page_no new_node;
    node_do root_node (fun h => IxNode.insert_pair h 1 k (mkRid n (-1))) ;;
    r ← get_page_no root_node;
    node_do old_node (fun _ => IxNode.set_parent_page_no r) ;;
    node_do new_node (fun _ => IxNode.set_parent_page_no r) ;;
    update_root_page_no r ;;
    _ ← unpin root_node true;
    mret tt
  else
    match fuel with
    | O => stuck Diverges
    | Datatypes.S fuel =>
        p ← get_parent_page_no new_node;
        parent_node ← fetch_node p;
        k ← keys new_node;
        n ← get_page_no new_node;
        _ ← node_do parent_node (fun h => IxNode.insert h k (mkRid n (-1)));
        sz ← get_size parent_node;
        mx ← max_size;
        (if sz =? mx then
           new_pnode ← split parent_node;
           insert_into_parent fuel parent_node new_pnode ;;
           follow_last_leaf parent_node new_pnode ;;
           _ ← unpin new_pnode true;
           mret tt
         else mret tt) ;;
        _ ← unpin parent_node true;
        mret tt
    end.

Definition insert_entry (fuel : nat) (key : list Z) (value : Rid) (transaction : bool) : I Z :=
  result ← find_leaf_page fuel key INSERT transaction;
  let leaf_node := result.1 in
  let root_is_latch := result.2 in
  _ ← node_do leaf_node (fun h => IxNode.insert h key value);
  maintain_parent fuel leaf_node ;;
  sz ← get_size leaf_node;
  mx ← max_size;
  (if sz =? mx then
     new_node ← split leaf_node;
     insert_into_parent fuel leaf_node new_node ;;
     follow_last_leaf leaf_node new_node ;;
     _ ← unpin new_node true;
     mret tt
   else mret tt) ;;
  (if (root_is_latch : bool) then root_unlock else mret tt) ;;
  unlock_unpin_all_pages transaction ;;
  id ← get_page_no leaf_node;
  WUnLock leaf_node ;;
  _ ← unpin leaf_node true;
  mret id.

(** ** Deletion *)

Definition adjust_root (old_root_node : Z) : I bool :=
  leaf ← is_leaf_page old_root_node;
  n ← get_size old_root_node;
  (if negb leaf && (n =? 1) then
     c ← value_at old_root_node 0;
     child ← fetch_node c;
     new_id ← value_at old_root_node 0;
     node_do child (fun _ => IxNode.set_parent_page_no INVALID_PAGE_ID) ;;
     _ ← unpin child true;
     release_node_handle ;;
     update_root_page_no new_id
   else mret tt) ;;
  mret false.

Definition redistribute (fuel : nat) (neighbor_node node parent index : Z) : I unit :=
  if index =? 0 then
    n ← get_size node;
    k ← keys neighbor_node;
    r ← node_get neighbor_node (fun h => IxNode.get_rid h 0);
    node_do node (fun h => IxNode.insert_pair h n k r) ;;
    node_do neighbor_node (fun h => IxNode.erase_pair h 0) ;;
    n ← get_size node;
    maintain_child node (n - 1) ;;
    maintain_parent fuel neighbor_node
  else
    n ← get_size neighbor_node;
    k ← key_ptr neighbor_node (n - 1);
    r ← node_get neighbor_node (fun h => IxNode.get_rid h (n - 1));
    node_do node (fun h => IxNode.insert_pair h 0 k r) ;;
    n ← get_size neighbor_node;
    node_do neighbor_node (fun h => IxNode.erase_pair h (n - 1)) ;;
    maintain_parent fuel node ;;
    maintain_child node 0.

(** [rec] is the call of [coalesce_or_redistribute(parent)] at the end. *)
Definition coalesce_with (rec : Z -> I bool) (neighbor_node node parent index : Z) : I bool :=
  let '(neighbor_node, node) := if index =? 0 then (node, neighbor_node) else (neighbor_node, node) in
  key ← keys node;
  rid ← rids node;
  pre_size ← get_size neighbor_node;
  sz ← get_size node;
  node_do neighbor_node (fun h => IxNode.insert_pairs h pre_size key rid sz) ;;
  sz ← get_size node;
  forM (seqZ pre_size (sz - pre_size)) (fun i => maintain_child neighbor_node (i + pre_size)) ;;
  leaf ← is_leaf_page node;
  (if (leaf : bool) then
     erase_leaf node ;;
     n ← get_page_no node;
     h ← gets ix_hdr;
     if last_leaf_ h =? n then (m ← get_page_no neighbor_node; set_last_leaf m) else mret tt
   else mret tt) ;;
  release_node_handle ;;
  k ← keys node;
  pos ← node_lower_bound parent k;
  node_do parent (fun h => IxNode.erase_pair h pos) ;;
  rec parent.

(** [root_is_latched] is [None] for [nullptr]; it is passed back as left. *)
Definition release_root (root_is_latched : option bool) : I (option bool) :=
  b ← unwrap NullDeref root_is_latched;
  if (b : bool) then root_unlock ;; mret (Some false) else mret (Some b).

(** [root_latch_.unlock()] and the assignment are in either order. *)
Fixpoint coalesce_or_redistribute (fuel : nat) (node : Z) (transaction : bool) (root_is_latched : option bool) : I (bool * option bool) :=
  root ← is_root_page node;
  if (root : bool) then
    need_delete ← adjust_root node;
    l ← release_root root_is_latched;
    unlock_unpin_all_pages transaction ;;
    mret (need_delete, l)
  else
  sz ← get_size node;
  mn ← min_size;
  if mn <=? sz then
    maintain_parent fuel node ;;
    unlock_unpin_all_pages transaction ;;
    mret (false, root_is_latched)
  else
  match fuel with
  | O => stuck Diverges
  | Datatypes.S fuel =>
      p ← get_parent_page_no node;
      father ← fetch_node p;
      index ← find_child father node;
      b ← value_at father (if index =? 0 then 1 else 0);
      brother ← fetch_node b;
      WLock brother ;;
      sz ← get_size node;
      bsz ← get_size brother;
      if 2 * mn <=? sz + bsz then
        k ← keys node;
        i ← node_lower_bound father k;
        redistribute (Datatypes.S fuel) brother node father i ;;
        WUnLock brother ;;
        _ ← unpin brother true;
        _ ← unpin father true;
        unlock_unpin_all_pages transaction ;;
        l ← release_root root_is_latched;
        mret (false, l)
      else
        k ← keys node;
        i ← node_lower_bound father k;
        delete_pa ← coalesce_with
          (fun parent => r ← coalesce_or_redistribute fuel parent false None; mret r.1) brother node father i;
        WUnLock brother ;;
        _ ← unpin brother true;
        _ ← unpin father true;
        (* [father->page] after [delete father] *)
        (if (delete_pa : bool) then stuck UseAfterFree else mret tt) ;;
        unlock_unpin_all_pages transaction ;;
        l ← release_root root_is_latched;
        mret (true, l)
  end.

Definition coalesce (fuel : nat) (neighbor_node node parent index : Z) : I bool :=
  coalesce_with (fun parent => r ← coalesce_or_redistribute fuel parent false None; mret r.1) neighbor_node node parent index.

Definition delete_entry (fuel : nat) (key : list Z) (transaction : bool) : I bool :=
  result ← find_leaf_page fuel key DELETE transaction;
  let leaf_node := result.1 in
  pos ← node_lower_bound leaf_node key;
  node_do leaf_node (fun h => IxNode.erase_pair h pos) ;;
  r ← coalesce_or_redistribute fuel leaf_node transaction (Some result.2);
  WUnLock leaf_node ;;
  _ ← unpin leaf_node true;
  (if (r.1 : bool) then append_index_deleted_page transaction leaf_node else mret tt) ;;
  (if transaction then
     delete_set ← gets index_deleted_page_set_;
     forM delete_set (fun page => pid ← get_page_id page; _ ← on_pool (pp_delete pid); mret tt) ;;
     modify (set_deleted_set [])
   else mret tt) ;;
  mret false.

(** ** Positions and scans *)

(** The result is read after the page has been unpinned. *)
Definition get_rid (iid : Iid) : I Rid :=
  node ← fetch_node (iid_page_no iid);
  RLock node ;;
  n ← get_size node;
  if n <=? iid_slot_no iid then
    RUnLock node ;;
    _ ← unpin node false;
    throw IndexEntryNotFoundError
  else
    RUnLock node ;;
    _ ← unpin node false;
    node_get node (fun h => IxNode.get_rid h (iid_slot_no iid)).

Definition lower_bound (fuel : nat) (key : list Z) : I Iid :=
  entry ← find_leaf_page fuel key FIND false;
  let leaf_node := entry.1 in
  key_idx ← node_lower_bound leaf_node key;
  n ← get_page_no leaf_node;
  RUnLock leaf_node ;;
  _ ← unpin leaf_node false;
  mret (mkIid n key_idx).

Definition leaf_end : I Iid :=
  h ← gets ix_hdr;
  node ← fetch_node (last_leaf_ h);
  n ← get_size node;
  _ ← unpin node false;
  mret (mkIid (last_leaf_ h) n).

Definition leaf_begin : I Iid := h ← gets ix_hdr; mret (mkIid (first_leaf_ h) 0).

Definition upper_bound (fuel : nat) (key : list Z) : I Iid :=
  entry ← find_leaf_page fuel key FIND false;
  let leaf_node := entry.1 in
  key_idx ← node_get leaf_node (fun h => IxNode.upper_bound h key);
  sz ← get_size leaf_node;
  iid ← (if key_idx =? sz then leaf_end else n ← get_page_no leaf_node; mret (mkIid n key_idx));
  RUnLock leaf_node ;;
  _ ← unpin leaf_node false;
  mret iid.

(** [IxScan]: the position [iid_] and the end [end_]. *)
Definition scan_is_end (iid end_ : Iid) : bool := bool_decide (iid = end_).
Definition scan_next (iid end_ : Iid) : I Iid :=
  assert (negb (scan_is_end iid end_)) ;;
  node ← fetch_node (iid_page_no iid);
  RLock node ;;
  leaf ← is_leaf_page node;
  assert leaf ;;
  n ← get_size node;
  assert (iid_slot_no iid <? n) ;;
  slot ← int_op (iid_slot_no iid + 1);
  h ← gets ix_hdr;
  iid' ← (if negb (iid_page_no iid =? last_leaf_ h) && (slot =? n) then
            nx ← node_get node (fun _ => IxNode.get_next_leaf); mret (mkIid nx 0)
          else mret (mkIid (iid_page_no iid) slot));
  RUnLock node ;;
  mret iid'.
Definition scan_rid (iid : Iid) : I Rid := get_rid iid.

End ix.
Arguments IxIndexHandle T : clear implicits.
End Ix.
