(* ===== verification/PinPool.v ===== *)
(** * What the index relies on: pages held by pin counts

    The tree operations hold several pages at once and unpin some of them more
    often than they fetched them, so their contract observes pin counts: a
    pinned page stays in its frame, an unpinned one may be evicted if its
    content is [pn_clean] (marked dirty or equal to the disk), and a fetch
    succeeds while a frame is spare.  The buffer pool discharges the contract. *)

From S2P Require Import Prelude Bytes Posix Disk Replacer BufferPool BufferPoolFacts BufferPoolSpec PagePool.
Import Disk.

Class PinPool (T : Type) {PO : PagePool T} : Type := {
  pn_ok : T -> Prop;
  pn_logical : T -> PageId -> list Z;      (* content of every page *)
  pn_exists : T -> PageId -> Prop;         (* the page can be fetched *)
  pn_file : T -> Z -> Prop;                (* the file is open for allocation *)
  pn_count : T -> Z -> Z;                  (* next page number of a file *)
  pn_pins : T -> PageId -> Z;
  pn_spare : T -> nat;                     (* unpinned frames *)
  pn_at : T -> PageId -> Z -> Prop;        (* the frame a page sits in *)
  pn_clean : T -> PageId -> Prop           (* evicting the page loses nothing *)
}.

(** Between [t] and [t'] page contents outside [A] are the same, no page or
    file is lost, pinned pages stay where they are. *)
Record pn_step {T : Type} {PO : PagePool T} {PN : PinPool T} (A : PageId -> Prop) (t t' : T) : Prop := {
  ps_ok : pn_ok t';
  ps_logical : forall q, data_page q -> ~ A q -> pn_logical t' q = pn_logical t q;
  ps_exists : forall q, pn_exists t q -> pn_exists t' q;
  ps_at : forall q g, 0 < pn_pins t q -> pn_at t q g -> pn_at t' q g;
  ps_clean : forall q, ~ A q -> pn_clean t q -> pn_clean t' q
}.
Definition nowhere (q : PageId) : Prop := False.

Class PinPoolLaws (T : Type) {PO : PagePool T} {PN : PinPool T} : Type := {
  pn_at_page : forall t pid f, pn_ok t -> pn_at t pid f ->
    exists p, pp_page t f = Some p /\ id_ p = pid /\ data_ p = pn_logical t pid /\ length (data_ p) = page_len;
  pn_at_inj : forall t p q f, pn_ok t -> pn_at t p f -> pn_at t q f -> p = q;
  pn_at_fun : forall t p f g, pn_ok t -> pn_at t p f -> pn_at t p g -> f = g;
  pn_exists_data : forall t pid, pn_exists t pid -> data_page pid /\ page_no pid < pn_count t (fd pid);
  pn_unpinned_clean : forall t pid, pn_ok t -> pn_pins t pid = 0 -> pn_clean t pid;
  pn_fetch_ok : forall t pid, pn_ok t -> pn_exists t pid -> pn_pins t pid < INT32_MAX ->
    (0 < pn_pins t pid \/ (0 < pn_spare t)%nat) ->
    exists f t', pp_fetch pid t = (Ret (Some f), t') /\ pn_step nowhere t t' /\ pn_at t' pid f /\
      (forall q, pn_pins t' q = if decide (q = pid) then pn_pins t pid + 1 else pn_pins t q) /\
      pn_spare t' = (if decide (pn_pins t pid = 0) then Nat.pred (pn_spare t) else pn_spare t) /\
      (forall x, pn_file t x -> pn_file t' x) /\ (forall x, pn_count t' x = pn_count t x);
  pn_unpin_ok : forall t pid b, pn_ok t -> 0 < pn_pins t pid <= INT32_MAX ->
    (pn_pins t pid = 1 -> b = true \/ pn_clean t pid) ->
    exists t', pp_unpin pid b t = (Ret true, t') /\ pn_step nowhere t t' /\
      (forall q g, pn_at t q g -> pn_at t' q g) /\ (b = true -> pn_clean t' pid) /\
      (forall q, pn_pins t' q = if decide (q = pid) then pn_pins t pid - 1 else pn_pins t q) /\
      pn_spare t' = (if decide (pn_pins t pid = 1) then Datatypes.S (pn_spare t) else pn_spare t) /\
      (forall x, pn_file t x -> pn_file t' x) /\ (forall x, pn_count t' x = pn_count t x);
  pn_unpin_zero : forall t pid b, pn_ok t -> pn_pins t pid = 0 -> pp_unpin pid b t = (Ret false, t);
  pn_update_ok : forall t pid f g, pn_ok t -> pn_at t pid f -> 0 < pn_pins t pid ->
    length (g (pn_logical t pid)) = page_len ->
    exists t', pp_update f g t = (Ret tt, t') /\ pn_step (eq pid) t t' /\ pn_logical t' pid = g (pn_logical t pid) /\
      (forall q h, pn_at t q h -> pn_at t' q h) /\
      (forall q, pn_pins t' q = pn_pins t q) /\ pn_spare t' = pn_spare t /\
      (forall x, pn_file t x -> pn_file t' x) /\ (forall x, pn_count t' x = pn_count t x);
  pn_new_ok : forall t x, pn_ok t -> pn_file t x -> (0 < pn_spare t)%nat -> let pid := mkPageId x (pn_count t x) in
    exists f t', pp_new x t = (Ret (Some (f, pid)), t') /\ pn_step (eq pid) t t' /\ pn_at t' pid f /\
      pn_logical t' pid = zero_page /\ pn_pins t pid = 0 /\ pn_exists t' pid /\
      (forall q, pn_pins t' q = if decide (q = pid) then 1 else pn_pins t q) /\
      pn_spare t' = Nat.pred (pn_spare t) /\
      (forall y, pn_count t' y = if decide (y = x) then pn_count t x + 1 else pn_count t y) /\
      (page_no_ok (pn_count t x + 1) = true -> pn_file t' x)
}.

Module PinInstance.
Import Bpm BpmFacts BpmSpec PoolInstance.
Section instance.
Context {R : Type} {RO : Replacer R} {RL : ReplacerLaws R} {FO : FileSystem} {FL : FileSystemLaws} {FR : FileSystemReliable}.
Abbreviation BPM := (BufferPoolManager R).
Implicit Types s : BPM.

Definition spare (s : BPM) : nat := length (List.filter (fun p => pin_count_ p =? 0) (pages_ s)).

Definition clean (s : BPM) (pid : PageId) : Prop := forall f p,
  page_table_ s !! pid = Some f -> frame s f = Some p -> is_dirty_ p = false -> synced (disk_manager_ s) p.

#[export] Instance bpm_PinPool : PinPool BPM := {|
  pn_ok := tidy; pn_logical := logical; pn_exists := page_exists; pn_file := file_ok; pn_count := count;
  pn_pins := pins; pn_spare := spare; pn_at := fun s pid f => page_table_ s !! pid = Some f; pn_clean := clean
|}.

(** ** Counting spare frames *)

Lemma frame_pages (s : BPM) (f : Z) (p : Page) : frame s f = Some p -> pages_ s !! Z.to_nat f = Some p.
Proof. unfold frame. by destruct (0 <=? f). Qed.

Lemma spare_insert (l : list Page) (i : nat) (p q : Page) : l !! i = Some p ->
  (length (List.filter (fun p => pin_count_ p =? 0)%Z (<[i := q]> l)) + (if decide (pin_count_ p = 0%Z) then 1 else 0) =
   length (List.filter (fun p => pin_count_ p =? 0)%Z l) + (if decide (pin_count_ q = 0%Z) then 1 else 0))%nat.
Proof.
  revert i. induction l as [|x l IH]; intros i Hi; [done|]. destruct i as [|i]; simpl in *.
  - injection Hi as ->. destruct (Z.eqb_spec (pin_count_ p) 0), (Z.eqb_spec (pin_count_ q) 0); repeat case_decide; simpl; try lia.
  - specialize (IH i Hi). destruct (pin_count_ x =? 0); simpl; lia.
Qed.

Lemma spare_exists (s : BPM) : (0 < spare s)%nat -> exists f p, frame s f = Some p /\ pin_count_ p = 0.
Proof.
  unfold spare. intros H. destruct (List.filter _ (pages_ s)) as [|p l] eqn:E; [simpl in H; lia|].
  assert (In p (List.filter (fun p => pin_count_ p =? 0) (pages_ s))) as Hp by (rewrite E; by left).
  apply List.filter_In in Hp as [Hin Hp]. apply Z.eqb_eq in Hp.
  apply list_elem_of_In, list_elem_of_lookup in Hin as [i Hi]. exists (Z.of_nat i), p. split; [|done].
  unfold frame. rewrite (proj2 (Z.leb_le _ _)) by lia. by rewrite Nat2Z.id.
Qed.

Lemma spare_touched_eq (s : BPM) (f : Z) (p q : Page) (r : R) (d : DiskManager) : frame s f = Some p ->
  (spare (touched s f q r d) + (if decide (pin_count_ p = 0%Z) then 1 else 0) =
   spare s + (if decide (pin_count_ q = 0%Z) then 1 else 0))%nat.
Proof. intros H%frame_pages. by apply spare_insert. Qed.

Lemma pins_at (s : BPM) (pid : PageId) (f : Z) (p : Page) :
  page_table_ s !! pid = Some f -> frame s f = Some p -> pins s pid = pin_count_ p.
Proof. intros Hm Hp. unfold pins. rewrite Hm. simpl. by rewrite Hp. Qed.

(** ** Loading a page *)

Lemma load_step (s s' : BPM) (f : Z) (pid : PageId) (data : list Z) :
  tidy s -> page_table_ s !! pid = None -> load_shape s f pid data s' ->
  (forall q g, 0 < pins s q -> page_table_ s !! q = Some g -> page_table_ s' !! q = Some g) /\
  (forall q, q <> pid -> clean s q -> clean s' q) /\ spare s' = Nat.pred (spare s).
Proof.
  intros T Hm (s1 & p & r & d & C & Hp & _ & _ & W & ->). pose proof (t_inv _ T) as I.
  destruct (cl_frame _ _ _ C) as (p' & Hp' & Hpin). assert (p' = p) as -> by congruence.
  assert (forall q g, q <> pid -> page_table_ s !! q = Some g -> g <> f \/ q = id_ p) as Hg.
  { intros q g Hq Hqg. destruct (decide (g = f)) as [->|]; [right|by left].
    destruct (mapped_frame s q f I Hqg) as (p1 & Hp1 & E & _). congruence. }
  split_and!.
  - intros q g Hpos Hq. simpl. assert (q <> pid) as Hne by (intros ->; congruence). rewrite lookup_insert_ne by done.
    rewrite lookup_delete_ne; [done|]. intros <-. destruct (mapped_frame s _ g I Hq) as (p1 & Hp1 & E & _).
    destruct (claimed_table s s1 f p I C Hp) as [[Hm' _]|(Hm' & _)]; [|congruence].
    rewrite (pins_at s (id_ p) f p) in Hpos by done. lia.
  - intros q Hne Hcl g x. simpl. rewrite lookup_insert_ne by done. rewrite lookup_delete_Some. intros [Hid Hq].
    rewrite (frame_loaded s f g p) by done. case_decide as E; [subst; destruct (Hg q f Hne Hq); congruence|].
    intros Hx Hd. destruct (Hcl g x Hq Hx Hd) as [S1 S2]. destruct (mapped_frame s q g I Hq) as (x' & Hx' & Ex & _).
    assert (x' = x) as -> by congruence. split; [|by apply (wb_present _ _ _ W)].
    rewrite (wb_page _ _ _ W); [|rewrite Ex; apply (i_table _ I q g Hq)]. rewrite decide_False; [done|]. intros [_ E']. congruence.
  - unfold spare. simpl. pose proof (spare_insert (pages_ s) (Z.to_nat f) p (mkPage pid data false 1) (frame_pages _ _ _ Hp)) as E.
    rewrite decide_True in E by done. simpl in E. lia.
Qed.

(** ** The laws *)

Lemma pin_fetch_hit (s s' : BPM) (pid : PageId) (f g : Z) :
  tidy s -> page_table_ s !! pid = Some g -> fetch_page pid s = (Ret (Some f), s') ->
  pn_step nowhere s s' /\ page_table_ s' !! pid = Some f /\
  (forall q, pins s' q = if decide (q = pid) then pins s pid + 1 else pins s q) /\
  spare s' = (if decide (pins s pid = 0) then Nat.pred (spare s) else spare s) /\
  (forall x, file_ok s x -> file_ok s' x) /\ (forall x, count s' x = count s x).
Proof.
  intros T Hm Hrun. pose proof (t_inv _ T) as I. destruct (mapped_frame s pid g I Hm) as (p & Hp & Eid & Hm' & Hl & Hpin & Hn).
  destruct (fetch_hit_inv s s' pid g p _ I Hm Hp Hrun) as (E1 & I' & C' & V).
  destruct (fetch_hit_shape s s' pid g p _ I Hm Hp Hrun) as (E & r & Hr & Hfr & Hs). injection E as ->.
  destruct (cached_logical _ _ _ _ _ C') as [El Ep]. pose proof (pins_at s pid g p Hm Hp) as Epins.
  assert (tidy s') as T' by (rewrite Hs in I' |- *; by apply (touched_tidy s g p)).
  split_and!.
  - split; simpl.
    + done.
    + intros q Hq _. by apply (view_all s s' pid V).
    + intros x Hx. rewrite Hs. by apply touched_exists.
    + intros q h _ Hq. by rewrite Hs.
    + intros q _ Hcl h x Hq Hx Hd. rewrite Hs in Hq, Hx |- *. simpl in Hq |- *. rewrite (frame_touched s g h p) in Hx by done.
      case_decide as E; [|by apply (Hcl h)]. subst h. injection Hx as <-. exact (Hcl g p Hq Hp Hd).
  - by rewrite Hs.
  - intros q. case_decide as E; [subst q; lia|by apply (proj2 V)].
  - rewrite Hs. pose proof (spare_touched_eq s g p (set_pin (pin_count_ p + 1) p) r (disk_manager_ s) Hp) as E. simpl in E.
    rewrite (decide_False (P := pin_count_ p + 1 = 0)) in E by lia. rewrite Epins. case_decide; lia.
  - intros x. rewrite Hs. by apply file_ok_ext.
  - intros x. by rewrite Hs.
Qed.

Lemma pin_fetch_miss (s s' : BPM) (pid : PageId) (f : Z) :
  tidy s -> page_exists s pid -> page_table_ s !! pid = None -> fetch_page pid s = (Ret (Some f), s') ->
  pn_step nowhere s s' /\ page_table_ s' !! pid = Some f /\
  (forall q, pins s' q = if decide (q = pid) then pins s pid + 1 else pins s q) /\
  spare s' = (if decide (pins s pid = 0) then Nat.pred (spare s) else spare s) /\
  (forall x, file_ok s x -> file_ok s' x) /\ (forall x, count s' x = count s x).
Proof.
  intros T Hex Hm Hrun. pose proof Hex as (Hd & Hc & Hok & Hop & _). pose proof (t_inv _ T) as I.
  assert (0 <= page_no pid) as Hn by (unfold data_page in Hd; lia).
  destruct (fetch_miss_shape s s' pid (Some f) I Hn Hm Hrun) as (Hs & Hl & Hpr & Hdp).
  destruct (load_shape_spec s s' f pid _ I Hm (stale_free s pid T Hd) Hn Hl Hs) as (I' & C' & V).
  destruct (cached_logical _ _ _ _ _ C') as [El Ep]. destruct C' as (Hm' & p & Hp & Eid & Edat & Epin).
  pose proof (load_tidy s s' f pid _ T Hm Hd Hc Hok Hop Hl Hs) as T'. destruct (load_step s s' f pid _ T Hm Hs) as (Hat & Hcl & Hsp).
  assert (pins s pid = 0) as E0 by (unfold pins; by rewrite Hm).
  assert (fd2pageno_ (disk_manager_ s') = fd2pageno_ (disk_manager_ s) /\
    forall x, fd_ino (dm_fs (disk_manager_ s')) x = fd_ino (dm_fs (disk_manager_ s)) x) as [Hcnt Hino].
  { destruct Hs as (s1 & p1 & r & d & _ & _ & _ & _ & W & ->). split; apply W. }
  split_and!.
  - split; simpl; [done| | |done|].
    + intros q Hq _. by apply (view_all s s' pid V).
    + intros q. by apply (load_exists s s' f pid (logical s pid) q I).
    + intros q _ Hq. destruct (decide (q = pid)) as [->|Hne]; [|by apply Hcl].
      intros g x Hg Hx _. assert (g = f) as -> by congruence. assert (x = p) as -> by congruence.
      split; [by rewrite Eid, Hdp, <- Edat|by rewrite Eid].
  - done.
  - intros q. case_decide as E; [subst q; lia|by apply (proj2 V)].
  - by rewrite E0, decide_True.
  - intros x. by apply file_ok_ext.
  - intros x. unfold count. by rewrite Hcnt.
Qed.

Lemma pin_fetch (s : BPM) (pid : PageId) :
  tidy s -> page_exists s pid -> pins s pid < INT32_MAX -> (0 < pins s pid \/ (0 < spare s)%nat) ->
  exists f s', fetch_page pid s = (Ret (Some f), s') /\ pn_step nowhere s s' /\ page_table_ s' !! pid = Some f /\
    (forall q, pins s' q = if decide (q = pid) then pins s pid + 1 else pins s q) /\
    spare s' = (if decide (pins s pid = 0) then Nat.pred (spare s) else spare s) /\
    (forall x, file_ok s x -> file_ok s' x) /\ (forall x, count s' x = count s x).
Proof.
  intros T Hex Hmax Hroom. pose proof Hex as (Hd & Hc & Hok & Hop & Hcase).
  destruct (fetch_page_run s pid (t_inv _ T) (t_writable _ T) Hok) as (f & s' & E).
  - intros Hm. split; [destruct Hcase as [[g Hg]|]; [congruence|done]|]. apply spare_exists.
    destruct Hroom as [Hp|]; [|done]. unfold pins in Hp. rewrite Hm in Hp. simpl in Hp. lia.
  - done.
  - exists f, s'. split; [done|]. destruct (page_table_ s !! pid) as [g|] eqn:Hm.
    + by apply (pin_fetch_hit s s' pid f g).
    + by apply (pin_fetch_miss s s' pid f).
Qed.

Lemma pin_unpin (s : BPM) (pid : PageId) (b : bool) :
  tidy s -> 0 < pins s pid <= INT32_MAX -> (pins s pid = 1 -> b = true \/ clean s pid) ->
  exists s', unpin_page pid b s = (Ret true, s') /\ pn_step nowhere s s' /\
    (forall q g, page_table_ s !! q = Some g -> page_table_ s' !! q = Some g) /\ (b = true -> clean s' pid) /\
    (forall q, pins s' q = if decide (q = pid) then pins s pid - 1 else pins s q) /\
    spare s' = (if decide (pins s pid = 1) then Datatypes.S (spare s) else spare s) /\
    (forall x, file_ok s x -> file_ok s' x) /\ (forall x, count s' x = count s x).
Proof.
  intros T Hpins Hcl. pose proof (t_inv _ T) as I. destruct (unpin_page_run s pid b I Hpins) as [s' E]. exists s'. split; [done|].
  destruct (unpin_page_shape s s' pid b true I E) as (f & p & x & Hm & Hp & Hne & Hx & Hs & _).
  pose proof (pins_at s pid f p Hm Hp) as Epins.
  destruct (mapped_frame s _ _ I Hm) as (p' & Hp' & Eid & Hm' & _). assert (p' = p) as -> by congruence.
  destruct (unpin_page_inv s s' pid b true I) as (I' & L & P & _); [|done|].
  { intros E1 E2 f' q Hf Hq Hd. destruct (Hcl E1) as [->|Hc]; [done|]. by apply (Hc f'). }
  split_and!.
  - split; simpl.
    + rewrite Hs in I' |- *. by apply (touched_tidy s f p).
    + intros q Hq _. apply L. unfold data_page in Hq. lia.
    + intros q. rewrite Hs. by apply touched_exists.
    + intros q g _ Hq. by rewrite Hs.
    + intros q _ Hc g y Hq Hy Hd. rewrite Hs in Hq, Hy |- *. simpl in Hq |- *. rewrite (frame_touched s f g p) in Hy by done.
      case_decide as Eg; [|by apply (Hc g)]. subst g. injection Hy as <-. simpl in Hd. apply orb_false_iff in Hd as [Hd _].
      exact (Hc f p Hq Hp Hd).
  - intros q g. by rewrite Hs.
  - intros -> g y Hq Hy Hd. rewrite Hs in Hq, Hy. simpl in Hq. assert (g = f) as -> by congruence.
    rewrite (frame_touched s f f p), decide_True in Hy by done. injection Hy as <-. simpl in Hd. by rewrite orb_true_r in Hd.
  - intros q. by rewrite P.
  - rewrite Hs. pose proof (spare_touched_eq s f p (unpinned p b) x (disk_manager_ s) Hp) as Es. simpl in Es.
    rewrite decide_False in Es by done. rewrite Epins. repeat case_decide; lia.
  - intros y. rewrite Hs. by apply file_ok_ext.
  - intros y. by rewrite Hs.
Qed.

Lemma pin_update (s : BPM) (pid : PageId) (f : Z) (g : list Z -> list Z) :
  tidy s -> page_table_ s !! pid = Some f -> 0 < pins s pid -> length (g (logical s pid)) = page_len ->
  exists s', modify_data f g s = (Ret tt, s') /\ pn_step (eq pid) s s' /\ logical s' pid = g (logical s pid) /\
    (forall q h, page_table_ s !! q = Some h -> page_table_ s' !! q = Some h) /\
    (forall q, pins s' q = pins s q) /\ spare s' = spare s /\
    (forall x, file_ok s x -> file_ok s' x) /\ (forall x, count s' x = count s x).
Proof.
  intros T Hm Hpos Hg. pose proof (t_inv _ T) as I. destruct (mapped_frame s _ _ I Hm) as (p & Hp & Eid & Hm' & Hl & Hpin & Hn).
  set (q := set_data (g (data_ p)) p). set (s' := touched s f q (replacer_ s) (disk_manager_ s)).
  assert (modify_data f g s = (Ret tt, s')) as E.
  { unfold modify_data. rewrite (upd_frame_run _ _ _ _ Hp). unfold s'. by destruct s. }
  exists s'. split; [done|].
  destruct (modify_data_inv s s' pid f g tt I Hm Hpos Hg E) as (I' & L1 & L2 & P).
  split_and!; try done.
  - split; simpl.
    + by apply (touched_tidy s f p).
    + intros x Hx Hne. apply L2; [unfold data_page in Hx; lia|congruence].
    + intros x. by apply touched_exists.
    + done.
    + intros x Hne Hc h y Hx Hy Hd. unfold s' in Hx, Hy |- *. simpl in Hx |- *. rewrite (frame_touched s f h p) in Hy by done.
      case_decide as Eh; [|by apply (Hc h)]. subst h. destruct (mapped_frame s x f I Hx) as (p1 & Hp1 & E1 & _). congruence.
  - pose proof (spare_touched_eq s f p q (replacer_ s) (disk_manager_ s) Hp) as Es. fold s' in Es. unfold q in Es. simpl in Es. lia.
Qed.

Lemma pin_new (s : BPM) (x : Z) :
  tidy s -> file_ok s x -> (0 < spare s)%nat -> let pid := mkPageId x (count s x) in
  exists f s', new_page x s = (Ret (Some (f, pid)), s') /\ pn_step (eq pid) s s' /\ page_table_ s' !! pid = Some f /\
    logical s' pid = zero_page /\ pins s pid = 0 /\ page_exists s' pid /\
    (forall q, pins s' q = if decide (q = pid) then 1 else pins s q) /\
    spare s' = Nat.pred (spare s) /\
    (forall y, count s' y = if decide (y = x) then count s x + 1 else count s y) /\
    (page_no_ok (count s x + 1) = true -> file_ok s' x).
Proof.
  intros T (Hr & Hop & Hc1 & Hok) Hspare pid. pose proof (t_inv _ T) as I.
  assert (page_table_ s !! pid = None) as Hm.
  { destruct (page_table_ s !! pid) as [g|] eqn:E; [|done]. apply (t_data _ T) in E as [_ E]. simpl in E. lia. }
  destruct (new_page_run s x (count s x) I (t_writable _ T) eq_refl Hr) as (f & s' & E); try done.
  { lia. } { unfold page_no_ok, INT32_MAX in *. lia. } { by apply spare_exists. }
  exists f, s'. split; [done|].
  destruct (new_page_shape s s' x _ (count s x) I eq_refl ltac:(lia) Hm E) as (_ & Hs & Hcnt).
  pose proof (with_count_tidy s x T) as Tc. set (sc := with_count s x (count s x + 1)) in *.
  assert (data_page pid) as Hd by (unfold data_page; simpl; lia).
  assert (count sc x = count s x + 1) as Ecx by (unfold count, sc; simpl; by rewrite lookup_insert_eq).
  assert (length zero_page = page_len) as Hz by apply length_replicate.
  destruct (load_shape_spec sc s' f pid zero_page (t_inv _ Tc) Hm (stale_free sc pid Tc Hd)) as (I' & C' & [V1 V2]);
    [simpl; lia|done|done|].
  assert (tidy s') as T' by (apply (load_tidy sc s' f pid zero_page); try done; simpl; lia).
  destruct (load_step sc s' f pid _ Tc Hm Hs) as (Hat & Hcl & Hsp).
  destruct (cached_logical _ _ _ _ _ C') as [El Ep]. destruct C' as (Hm' & p & Hp & Eid & Edat & Epin).
  assert (forall y, count s' y = count sc y) as Ecount by (intros y; unfold count; by rewrite Hcnt).
  split_and!.
  - split; simpl.
    + done.
    + intros q Hq Hne. apply V1; [unfold data_page in Hq; lia|congruence].
    + intros q Hq. apply (load_exists sc s' f pid zero_page q (t_inv _ Tc) Hs). by apply with_count_exists.
    + done.
    + intros q Hne. apply Hcl. congruence.
  - done.
  - done.
  - unfold pins. by rewrite Hm.
  - split_and!; [done|rewrite Ecount; simpl; lia|done| |left; by rewrite Hm'].
    by apply (t_writable _ T' pid f).
  - intros q. case_decide as Eq; [by subst q|]. by rewrite V2.
  - done.
  - intros y. rewrite Ecount. case_decide as Ey; [by subst y|]. unfold count, sc. simpl. by rewrite lookup_insert_ne.
  - intros Hok'. split_and!; [done|by apply (t_writable _ T' pid f)|rewrite Ecount, Ecx; lia|by rewrite Ecount, Ecx].
Qed.

#[export] Program Instance bpm_PinPoolLaws : PinPoolLaws BPM.
Next Obligation.
  intros s pid f T Hm. destruct (mapped_frame s _ _ (t_inv _ T) Hm) as (p & Hp & Eid & _ & Hl & _).
  exists p. split_and!; try done. simpl in *. unfold logical. rewrite Hm. simpl. by rewrite Hp.
Qed.
Next Obligation.
  intros s p q f T Hp Hq. destruct (mapped_frame s _ _ (t_inv _ T) Hp) as (x & Hx & <- & _).
  destruct (mapped_frame s _ _ (t_inv _ T) Hq) as (y & Hy & <- & _). congruence.
Qed.
Next Obligation. simpl. congruence. Qed.
Next Obligation. intros s pid (H1 & H2 & _). done. Qed.
Next Obligation.
  intros s pid T E f p Hm Hp Hd. destruct (mapped_frame s _ _ (t_inv _ T) Hm) as (p' & Hp' & Eid & Hm' & _).
  assert (p' = p) as -> by congruence. apply (i_clean _ (t_inv _ T) f p Hp Hm'); [|done]. by rewrite <- (pins_at s pid f p Hm Hp).
Qed.
Next Obligation. exact pin_fetch. Qed.
Next Obligation. exact pin_unpin. Qed.
Next Obligation.
  intros s pid b T E. simpl. unfold unpin_page. erewrite bind_run by reflexivity. destruct (page_table_ s !! pid) as [f|] eqn:Hm; [|done].
  destruct (mapped_frame s _ _ (t_inv _ T) Hm) as (p & Hp & _). rewrite (bind_run _ _ _ _ _ (get_frame_run _ _ _ Hp)).
  simpl in E. rewrite (pins_at s pid f p Hm Hp) in E. by rewrite E.
Qed.
Next Obligation. exact pin_update. Qed.
Next Obligation. exact pin_new. Qed.

End instance.
End PinInstance.
