(* ===== verification/IxTree.v ===== *)
(** * Searching the B+-tree

    [tree] says that the pages below a page form a search tree of a given
    height over a list of entries; the descent of [find_leaf_page] reaches the
    leaf that holds every entry comparable equal to the key. *)

From S2P Require Import Prelude Bytes Disk BufferPool PagePool PinPool Txn Log IxDefs IxCompare IxNode IxNodeFacts IxNodeSpec IxIndex.

Module IxTree.
Import Ix IxNodeFacts IxNodeSpec.

Section shape.
Context (h : IxFileHdr) (Lay : ix_layout h).
Abbreviation kc := (kcmp h).
Abbreviation entry_t := (list Z * list Z)%type.

Definition is_leaf (d : list Z) : bool := negb (bool_decide (slice 12 1 d = [0])).
Definition parent_no (d : list Z) : Z := i32_val (slice 4 4 d).
(** The page number of the child at index [c]. *)
Definition child (d : list Z) (c : nat) : Z := rid_page_no (IxNode.rid_of_bytes (nrid h d c)).

(** The keys below child [c] lie between its key and the next one; the first
    key of a node does not bound its first child from below. *)
Definition separated (d : list Z) (ess : list (list entry_t)) : Prop := forall c es e, ess !! c = Some es -> e ∈ es ->
  ((0 < c)%nat -> kc (nkey h d c) e.1 <= 0) /\ ((c + 1 < size d)%nat -> kc e.1 (nkey h d (c + 1)) < 0).

(** [L] is the content of the file's pages, [P] the pages that exist. *)
Fixpoint tree (L : Z -> list Z) (P : Z -> Prop) (n : nat) (p : Z) (es : list entry_t) : Prop :=
  P p /\ sorted_node h (L p) /\
  match n with
  | O => is_leaf (L p) = true /\ es = entries h (L p)
  | S n => is_leaf (L p) = false /\ (0 < size (L p))%nat /\ exists ess, es = concat ess /\ length ess = size (L p) /\
      separated (L p) ess /\ forall c x, ess !! c = Some x -> tree L P n (child (L p) c) x
  end.

Lemma tree_ext (L L' : Z -> list Z) (P P' : Z -> Prop) (n : nat) (p : Z) (es : list entry_t) :
  (forall q, P q -> P' q /\ L' q = L q) -> tree L P n p es -> tree L' P' n p es.
Proof.
  intros H. revert p es. induction n as [|n IH]; intros p es (Hp & Hs & Ht); destruct (H p Hp) as [Hp' E]; simpl; rewrite E.
  - done.
  - destruct Ht as (Hl & Hz & ess & -> & Hlen & Hsep & Hc). split_and!; try done. exists ess. split_and!; try done.
    intros c x Hx. by apply IH, Hc.
Qed.

Definition keyed (k : list Z) : Prop := valid_key h k.

Lemma tree_keys (L : Z -> list Z) (P : Z -> Prop) (n : nat) (p : Z) (es : list entry_t) :
  tree L P n p es -> Forall (fun e => keyed e.1) es.
Proof.
  revert p es. induction n as [|n IH]; intros p es (Hp & Hs & Ht).
  - destruct Ht as (_ & ->). pose proof (sn_valid _ _ Hs) as Hv. unfold keys in Hv. by rewrite Forall_fmap in Hv.
  - destruct Ht as (_ & _ & ess & -> & _ & _ & Hc). apply Forall_concat, Forall_lookup. intros c x Hx. by eapply IH, Hc.
Qed.

(** ** Orders *)

Lemma kc_le_lt (a b c : list Z) : keyed a -> keyed b -> keyed c -> kc a b <= 0 -> kc b c < 0 -> kc a c < 0.
Proof.
  intros Ha Hb Hc H1 H2. destruct (kc_order h Lay) as [Oa Ot]. pose proof (Ot a b c Ha Hb Hc H1 ltac:(lia)).
  assert (kc a c <> 0); [|lia]. intros E. pose proof (Ot c a b Hc Ha Hb) as T. rewrite (Oa a c), (Oa b c) in T by done. lia.
Qed.
Lemma kc_lt_le (a b c : list Z) : keyed a -> keyed b -> keyed c -> kc a b < 0 -> kc b c <= 0 -> kc a c < 0.
Proof.
  intros Ha Hb Hc H1 H2. destruct (kc_order h Lay) as [Oa Ot]. pose proof (Ot a b c Ha Hb Hc ltac:(lia) H2).
  assert (kc a c <> 0); [|lia]. intros E. pose proof (Ot b c a Hb Hc Ha) as T. rewrite (Oa a c), (Oa a b) in T by done. lia.
Qed.

(** ** Where a key belongs *)

(** [part] is a run of [es] that holds every entry equal to [t]. *)
Definition located (t : list Z) (es part : list entry_t) : Prop := exists a b, es = a ++ part ++ b /\
  Forall (fun e => 0 < kc t e.1) a /\ Forall (fun e => kc t e.1 < 0) b.

Lemma located_trans (t : list Z) (a b c : list entry_t) : located t a b -> located t b c -> located t a c.
Proof.
  intros (a1 & b1 & -> & A1 & B1) (a2 & b2 & -> & A2 & B2). exists (a1 ++ a2), (b2 ++ b1).
  rewrite !Forall_app. by rewrite <- !app_assoc.
Qed.

(** The entry with a key, in a list of entries. *)
Definition find_key (t : list Z) (es : list entry_t) : option entry_t := List.find (fun e => kc t e.1 =? 0) es.

Lemma find_app {A} (f : A -> bool) (l k : list A) :
  List.find f (l ++ k) = match List.find f l with Some x => Some x | None => List.find f k end.
Proof. induction l as [|x l IH]; [done|]. simpl. by destruct (f x). Qed.

Lemma find_none {A} (f : A -> bool) (l : list A) : Forall (fun x => f x = false) l -> List.find f l = None.
Proof. induction 1 as [|x l Hx _ IH]; [done|]. simpl. by rewrite Hx. Qed.

Lemma located_find (t : list Z) (es part : list entry_t) : located t es part -> find_key t es = find_key t part.
Proof.
  intros (a & b & -> & Ha & Hb). unfold find_key. rewrite !find_app.
  rewrite (find_none _ a), (find_none _ b); [by destruct (List.find _ part)| |].
  - eapply Forall_impl; [exact Hb|]. simpl. intros e He. lia.
  - eapply Forall_impl; [exact Ha|]. simpl. intros e He. lia.
Qed.

(** The child an internal node directs the search to. *)
Definition is_child (d t : list Z) (c : nat) : Prop := (c < size d)%nat /\
  ((0 < c)%nat -> 0 <= kc t (nkey h d c)) /\ ((c + 1 < size d)%nat -> kc t (nkey h d (c + 1)) < 0).

Lemma node_key_valid (d : list Z) (i : nat) : sorted_node h d -> (i < size d)%nat -> keyed (nkey h d i).
Proof. intros Sn Hi. eapply Forall_lookup_1; [apply Sn|]. by rewrite lookup_keys, decide_True. Qed.

Lemma node_key_lt (d : list Z) (i j : nat) : sorted_node h d -> (i < j < size d)%nat -> kc (nkey h d i) (nkey h d j) < 0.
Proof. intros Sn Hi. apply (sn_sorted _ _ Sn i j); [lia|by rewrite lookup_keys, decide_True by lia..]. Qed.

Lemma child_locates (d t : list Z) (ess : list (list entry_t)) (c : nat) (x : list entry_t) :
  sorted_node h d -> keyed t -> length ess = size d -> separated d ess ->
  (forall c y, ess !! c = Some y -> Forall (fun e => keyed e.1) y) ->
  is_child d t c -> ess !! c = Some x -> located t (concat ess) x.
Proof.
  intros Sn Ht Hlen Hsep Hv (Hc & Hlo & Hhi) Hx. destruct (kc_order h Lay) as [Oa Ot].
  exists (concat (take c ess)), (concat (drop (S c) ess)).
  rewrite <- (take_drop_middle ess c x Hx) at 1. rewrite concat_app. simpl. split; [done|].
  split; apply Forall_concat, Forall_lookup; intros j y Hj; apply Forall_forall; intros e He.
  - apply lookup_take_Some in Hj as [Hj Hjc]. destruct (Hsep j y e Hj He) as [_ Hup]. specialize (Hup ltac:(lia)).
    assert (keyed e.1) as Hke by (by apply (proj1 (Forall_forall _ _) (Hv _ _ Hj))).
    specialize (Hlo ltac:(lia)). rewrite (Oa e.1 t) by done.
    assert (kc e.1 t < 0); [|lia].
    apply (kc_lt_le e.1 (nkey h d (j + 1)) t); [done|by apply node_key_valid; [|lia]|done|done|].
    assert (kc (nkey h d c) t <= 0) as Hct by (rewrite (Oa t (nkey h d c)) by (done || by apply node_key_valid); lia).
    destruct (decide (j + 1 = c)%nat) as [->|Hne]; [done|].
    apply (Ot _ (nkey h d c)); [by apply node_key_valid; [|lia]|by apply node_key_valid|done| |done].
    apply Z.lt_le_incl, node_key_lt; [done|lia].
  - rewrite lookup_drop in Hj. pose proof (lookup_lt_Some _ _ _ Hj) as Hjl. destruct (Hsep _ y e Hj He) as [Hdn _].
    specialize (Hdn ltac:(lia)). assert (keyed e.1) as Hke by (by apply (proj1 (Forall_forall _ _) (Hv _ _ Hj))).
    apply (kc_lt_le t (nkey h d (S c + j)) e.1); [done|by apply node_key_valid; [|lia]|done| |done].
    specialize (Hhi ltac:(lia)). destruct (decide (j = 0)%nat) as [->|Hne].
    { by replace (S c + 0)%nat with (c + 1)%nat by lia. }
    apply (kc_lt_le t (nkey h d (c + 1))); [done|by apply node_key_valid; [|lia]..|done|].
    apply Z.lt_le_incl, node_key_lt; [done|lia].
Qed.

(** ** Runs on a page *)

Lemma is_leaf_run (d : list Z) : length d = Disk.page_len -> IxNode.is_leaf_page d = (Ret (is_leaf d), d).
Proof.
  intros Hl. unfold IxNode.is_leaf_page. change IxNode.OFF_IS_LEAF with (Z.of_nat 12).
  destruct (layout_nat h Lay) as (_ & _ & _ & E & _).
  rewrite (bind_run _ _ _ _ _ (rd_run 12 1 d ltac:(lia))). reflexivity.
Qed.

Lemma upper_bound_ok (d t : list Z) : node_ok h d -> length t = K h -> (0 < size d)%nat ->
  exists c, IxNode.upper_bound h t d = (Ret (Z.of_nat c + 1), d) /\ is_child d t c.
Proof.
  intros Hok Ht Hpos. pose proof Hok as (_ & _ & Hs). unfold IxNode.upper_bound, IxNode.binary_search. cbv iota. unfold IxNode.upper_bound_linear.
  rewrite (bind_run _ _ _ _ _ (get_size_run h Lay d Hok)).
  destruct (first_from_spec d (fun i => k ← IxNode.key_ptr h i; c ← IxNode.compare h t k; mret (c <? 0))
    (fun j => kc t (nkey h d j) <? 0) (size d) (S (Z.to_nat (Z.of_nat (size d)))) 1) as (r & R & Hr & Hb & Ha).
  - intros j Hj. by apply (test_at h Lay d t j (fun c => c <? 0)); [..|lia].
  - lia.
  - lia.
  - exists (r - 1)%nat. split; [change 1 with (Z.of_nat 1) at 1; rewrite R; do 2 f_equal; lia|]. split_and!; [lia| |].
    + intros Hc. specialize (Hb (r - 1)%nat ltac:(lia)). apply Z.ltb_ge in Hb. done.
    + intros Hc. replace (r - 1 + 1)%nat with r in * by lia. by apply Z.ltb_lt, Ha.
Qed.

Lemma internal_lookup_ok (d t : list Z) : node_ok h d -> length t = K h -> (0 < size d)%nat ->
  exists c, IxNode.internal_lookup h t d = (Ret (child d c), d) /\ is_child d t c.
Proof.
  intros Hok Ht Hpos. destruct (upper_bound_ok d t Hok Ht Hpos) as (c & R & Hc). exists c. split; [|done].
  unfold IxNode.internal_lookup. rewrite (bind_run _ _ _ _ _ R). unfold IxNode.value_at. replace (Z.of_nat c + 1 - 1) with (Z.of_nat c) by lia.
  destruct Hc as (Hc & _). destruct Hok as (Hl & H0 & Hs).
  rewrite (bind_run _ _ _ _ _ (get_rid_run h Lay d c ltac:(done) ltac:(lia))). reflexivity.
Qed.

End shape.

(** ** Runs on the handle *)

Section search.
Context {T : Type} {PO : PagePool T} {PN : PinPool T} {PL : PinPoolLaws T}.
Abbreviation IH := (IxIndexHandle T).
Implicit Types s : IH.

Definition pid (s : IH) (p : Z) : PageId := mkPageId (ix_fd s) p.
Definition content (s : IH) (p : Z) : list Z := pn_logical (ix_pool s) (pid s p).
Definition page_ok (s : IH) (p : Z) : Prop := pn_exists (ix_pool s) (pid s p).
Definition pinned (s : IH) (p : Z) : Z := pn_pins (ix_pool s) (pid s p).

(** No operation is under way: nothing latched, no page of the file pinned, and
    the pool has a frame to spare. *)
Record quiet (s : IH) : Prop := {
  q_ok : pn_ok (ix_pool s);
  q_root : root_latch_ s = false;
  q_latches : rwlock s = ∅;
  q_set : index_latch_page_set_ s = [];
  q_deleted : index_deleted_page_set_ s = [];
  q_pins : forall p, pinned s p = 0;
  q_spare : (0 < pn_spare (ix_pool s))%nat
}.

(** The states of a search differ in the pool, the latches and nothing else. *)
Record same_index (s s' : IH) : Prop := {
  si_fd : ix_fd s' = ix_fd s;
  si_hdr : ix_hdr s' = ix_hdr s;
  si_set : index_latch_page_set_ s' = index_latch_page_set_ s;
  si_deleted : index_deleted_page_set_ s' = index_deleted_page_set_ s;
  si_page : forall p, page_ok s p -> page_ok s' p /\ content s' p = content s p
}.

Lemma same_index_refl (s : IH) : same_index s s.
Proof. by split. Qed.
Lemma same_index_trans (a b c : IH) : same_index a b -> same_index b c -> same_index a c.
Proof.
  intros [A1 A2 A3 A4 A5] [B1 B2 B3 B4 B5]. split; try congruence. intros p Hp.
  destruct (A5 p Hp) as [H1 E1]. destruct (B5 p H1) as [H2 E2]. split; [done|congruence].
Qed.

(** The node handle [f] holds page [p], pinned once. *)
Record holds (s : IH) (f p : Z) : Prop := {
  h_ok : pn_ok (ix_pool s);
  h_at : pn_at (ix_pool s) (pid s p) f;
  h_pins : forall q, pinned s q = if decide (q = p) then 1 else 0;
  h_clean : pn_clean (ix_pool s) (pid s p)
}.

Lemma page_of_run (s : IH) (f p : Z) : pn_ok (ix_pool s) -> pn_at (ix_pool s) (pid s p) f ->
  exists g, page_of f s = (Ret g, s) /\ id_ g = pid s p /\ data_ g = content s p /\ length (data_ g) = Disk.page_len.
Proof.
  intros Hok Hat. destruct (pn_at_page _ _ _ Hok Hat) as (g & Hg & E1 & E2 & E3). exists g. split_and!; try done.
  unfold page_of. erewrite bind_run by reflexivity. by rewrite Hg.
Qed.

Lemma node_get_run {A} (s : IH) (f p : Z) (m : IxFileHdr -> M (list Z) A) (r : outcome A) (d : list Z) :
  pn_ok (ix_pool s) -> pn_at (ix_pool s) (pid s p) f -> m (ix_hdr s) (content s p) = (r, d) -> node_get f m s = (r, s).
Proof.
  intros Hok Hat Hm. destruct (page_of_run s f p Hok Hat) as (g & Hg & _ & E & _).
  unfold node_get. rewrite (bind_run _ _ _ _ _ Hg). erewrite bind_run by reflexivity. unfold finish. by rewrite E, Hm.
Qed.

Lemma get_page_id_run (s : IH) (f p : Z) : pn_ok (ix_pool s) -> pn_at (ix_pool s) (pid s p) f ->
  get_page_id f s = (Ret (pid s p), s) /\ get_page_no f s = (Ret p, s).
Proof.
  intros Hok Hat. destruct (page_of_run s f p Hok Hat) as (g & Hg & E & _). unfold get_page_id, get_page_no.
  rewrite !(bind_run _ _ _ _ _ Hg). by rewrite E.
Qed.

Lemma fetch_node_run (s : IH) (p : Z) :
  pn_ok (ix_pool s) -> (forall q, pinned s q = 0) -> (0 < pn_spare (ix_pool s))%nat -> page_ok s p ->
  exists f t, fetch_node p s = (Ret f, set_pool t s) /\ holds (set_pool t s) f p /\ same_index s (set_pool t s) /\
    pn_spare t = Nat.pred (pn_spare (ix_pool s)).
Proof.
  intros Hok Hz Hsp Hex. pose proof (Hz p) as Hp0. unfold pinned in Hp0.
  destruct (pn_fetch_ok (ix_pool s) (pid s p) Hok Hex) as (f & t & R & St & Hat & Hpins & Hspare & _).
  { rewrite Hp0. unfold INT32_MAX. lia. } { by right. }
  exists f, t. split_and!.
  - unfold fetch_node. erewrite bind_run by reflexivity.
    rewrite (bind_run _ _ s (set_pool t s) (Some f)) by (exact (zoom_run ix_pool set_pool _ s _ _ R)). reflexivity.
  - split; simpl.
    + apply St.
    + done.
    + intros q. unfold pinned, pid. simpl. rewrite Hpins. unfold pid in *. destruct (decide (q = p)) as [->|E].
      * rewrite decide_True by done. lia.
      * rewrite decide_False by congruence. apply Hz.
    + apply (ps_clean _ _ _ St); [by intros []|]. by apply pn_unpinned_clean.
  - split; try done. intros q Hq. split; [by apply (ps_exists _ _ _ St)|].
    apply (ps_logical _ _ _ St); [|by intros []]. by apply (pn_exists_data (ix_pool s)).
  - rewrite Hspare. by rewrite decide_True.
Qed.

(** Releasing the node; the frame still shows the page afterwards. *)
Lemma unpin_run (s : IH) (f p : Z) (b : bool) :
  holds s f p -> exists t, unpin f b s = (Ret true, set_pool t s) /\ pn_ok t /\ pn_at t (pid s p) f /\
    (forall q, pinned (set_pool t s) q = 0) /\ same_index s (set_pool t s) /\ (0 < pn_spare t)%nat.
Proof.
  intros [Hok Hat Hpins Hcl]. pose proof (Hpins p) as Hp1. rewrite decide_True in Hp1 by done. unfold pinned in Hp1.
  destruct (pn_unpin_ok (ix_pool s) (pid s p) b Hok) as (t & R & St & Hat' & _ & Hpins' & Hsp & _).
  { rewrite Hp1. unfold INT32_MAX. lia. } { by right. }
  exists t. split_and!.
  - unfold unpin. rewrite (bind_run _ _ _ _ _ (proj1 (get_page_id_run s f p Hok Hat))).
    exact (zoom_run ix_pool set_pool _ s _ _ R).
  - apply St.
  - by apply Hat'.
  - intros q. unfold pinned, pid. simpl. rewrite Hpins'. specialize (Hpins q). unfold pinned, pid in *. destruct (decide (q = p)) as [->|E].
    + rewrite decide_True by done. lia.
    + rewrite decide_False by congruence. done.
  - split; try done. intros q Hq. split; [by apply (ps_exists _ _ _ St)|].
    apply (ps_logical _ _ _ St); [|by intros []]. by apply (pn_exists_data (ix_pool s)).
  - rewrite Hsp, decide_True by done. lia.
Qed.

(** A second [unpin_page] of the same page does nothing. *)
Lemma unpin_again_run (s : IH) (f p : Z) (b : bool) :
  pn_ok (ix_pool s) -> pn_at (ix_pool s) (pid s p) f -> pinned s p = 0 -> unpin f b s = (Ret false, s).
Proof.
  intros Hok Hat H0. unfold unpin. rewrite (bind_run _ _ _ _ _ (proj1 (get_page_id_run s f p Hok Hat))).
  transitivity ((Ret false, set_pool (ix_pool s) s) : outcome bool * IH); [|by destruct s].
  exact (zoom_run ix_pool set_pool _ s _ _ (pn_unpin_zero _ _ b Hok H0)).
Qed.

Lemma RLock_run (s : IH) (f : Z) : rwlock s = ∅ -> RLock f s = (Ret tt, set_rwlock {[f := Shared 1]} s).
Proof. intros E. unfold RLock. erewrite bind_run by reflexivity. by rewrite E, lookup_empty. Qed.
Lemma RUnLock_run (s : IH) (f : Z) : rwlock s = {[f := Shared 1]} -> RUnLock f s = (Ret tt, set_rwlock ∅ s).
Proof. intros E. unfold RUnLock. erewrite bind_run by reflexivity. rewrite E, lookup_singleton_eq. by rewrite delete_singleton_eq. Qed.

(** The descent of a search: at every level the parent is unlatched and
    unpinned (twice) before the child is fetched and latched. *)
Lemma descend_find (h : IxFileHdr) (Lay : ix_layout h) (key : list Z) (txn : bool) (s0 : IH) (n : nat) : forall fuel s f p es,
  ix_hdr s0 = h -> same_index s0 s -> tree h (content s0) (page_ok s0) n p es -> (n <= fuel)%nat -> valid_key h key ->
  holds s f p -> rwlock s = {[f := Shared 1]} ->
  exists f' p' s' part, descend fuel key FIND txn f false s = (Ret (f', false), s') /\ holds s' f' p' /\
    rwlock s' = {[f' := Shared 1]} /\ root_latch_ s' = root_latch_ s /\ same_index s0 s' /\
    tree h (content s0) (page_ok s0) 0 p' part /\ located h key es part.
Proof.
  induction n as [|n IH]; intros fuel s f p es Hh Si0 Ht Hf Hk Hd Hl.
  - exists f, p, s, es. pose proof Ht as (Hp & Sn & Hleaf & _). split_and!; try done.
    2: { exists [], []. by rewrite app_nil_r. }
    assert (is_leaf_page f s = (Ret true, s)) as R.
    { apply (node_get_run s f p _ _ (content s p)); [apply Hd..|]. rewrite (proj2 (si_page _ _ Si0 p Hp)), <- Hleaf.
      apply (is_leaf_run h Lay), Sn. }
    destruct fuel; simpl; by rewrite (bind_run _ _ _ _ _ R).
  - destruct Ht as (Hp & Sn & Hleaf & Hsz & ess & -> & Hlen & Hsep & Hc). destruct (si_page _ _ Si0 p Hp) as [_ Ed].
    set (d := content s0 p) in *.
    assert (is_leaf_page f s = (Ret false, s)) as R.
    { apply (node_get_run s f p _ _ (content s p)); [apply Hd..|]. rewrite Ed, <- Hleaf. apply (is_leaf_run h Lay), Sn. }
    destruct fuel as [|fuel]; [lia|].
    destruct (internal_lookup_ok h Lay d key (sn_ok _ _ Sn) (valid_len h Lay key Hk) Hsz) as (c & Rc & Hic).
    pose proof Hic as (Hcs & _). rewrite <- Hlen in Hcs. apply lookup_lt_is_Some in Hcs as [x Hx].
    destruct (unpin_run s f p false Hd) as (t & Ru & Hok1 & Hat1 & Hz1 & Si1 & Hsp1). set (s1 := set_pool t s) in *.
    assert (RUnLock f s1 = (Ret tt, set_rwlock ∅ s1)) as Rr by by apply RUnLock_run. set (s2 := set_rwlock ∅ s1) in *.
    assert (unpin f false s2 = (Ret false, s2)) as Ru2 by exact (unpin_again_run s2 f p false Hok1 Hat1 (Hz1 p)).
    pose proof (Hc c x Hx) as Htc. pose proof (same_index_trans _ _ _ Si0 Si1) as Si2.
    assert (page_ok s2 (child h d c)) as Hpc. { apply (si_page _ _ Si2). by destruct n, Htc. }
    destruct (fetch_node_run s2 (child h d c) Hok1 Hz1 Hsp1 Hpc) as (f3 & t3 & Rf & Hd3 & Si3 & _).
    set (s3 := set_pool t3 s2) in *. assert (RLock f3 s3 = (Ret tt, set_rwlock {[f3 := Shared 1]} s3)) as Rl by by apply RLock_run.
    set (s4 := set_rwlock {[f3 := Shared 1]} s3) in *.
    assert (same_index s0 s4) as Si by (apply (same_index_trans s0 s1); [done|]; destruct Si3; by split).
    destruct (IH fuel s4 f3 (child h d c) x) as (f' & p' & s' & part & R' & Hd' & Hl' & Hr' & Si' & Ht' & Hloc);
      [done|done|done|lia|done|destruct Hd3; by split|done|].
    exists f', p', s', part. split_and!; try done.
    + cbn [descend]. rewrite (bind_run _ _ _ _ _ R). cbv iota.
      rewrite (bind_run _ _ s s (child h d c)).
      2: { apply (node_get_run s f p _ _ d); [apply Hd..|by rewrite Ed, (si_hdr _ _ Si0), Hh]. }
      rewrite (bind_run _ _ _ _ _ Ru). change (bool_decide (FIND = FIND)) with true. change (bool_decide (FIND <> FIND)) with false. cbv iota.
      rewrite (bind_run _ _ s1 s2 tt).
      2: { rewrite (bind_run _ _ _ _ _ Rr). by rewrite (bind_run _ _ _ _ _ Ru2). }
      rewrite (bind_run _ _ _ _ _ Rf), (bind_run _ _ _ _ _ Rl). exact R'.
    + eapply located_trans; [|exact Hloc]. eapply (child_locates h Lay); [exact Sn|done|exact Hlen|done| |exact Hic|exact Hx].
      intros c' y Hy. by eapply tree_keys, Hc.
Qed.

(** [find_leaf_page] of a search: the leaf it returns is latched and pinned, and
    holds every entry of the tree that equals the key. *)
Lemma find_leaf_find (h : IxFileHdr) (Lay : ix_layout h) (key : list Z) (txn : bool) (n fuel : nat) (s : IH) (es : list (list Z * list Z)) :
  ix_hdr s = h -> quiet s -> tree h (content s) (page_ok s) n (root_page_ h) es -> (n <= fuel)%nat -> valid_key h key ->
  exists f p s', find_leaf_page fuel key FIND txn s = (Ret (f, false), s') /\ holds s' f p /\
    rwlock s' = {[f := Shared 1]} /\ root_latch_ s' = false /\ same_index s s' /\
    content s' p = content s p /\ sorted_node h (content s p) /\ located h key es (entries h (content s p)).
Proof.
  intros Hh [Q1 Q2 Q3 Q4 Q5 Q6 Q7] Ht Hf Hk.
  assert (root_lock s = (Ret tt, set_root_latch true s)) as R1.
  { unfold root_lock. erewrite bind_run by reflexivity. by rewrite Q2. }
  set (s1 := set_root_latch true s) in *. assert (page_ok s1 (root_page_ h)) as Hp by (by destruct n, Ht).
  destruct (fetch_node_run s1 (root_page_ h) Q1 Q6 Q7 Hp) as (f & t & R2 & Hd & Si & _). set (s2 := set_pool t s1) in *.
  assert (RLock f s2 = (Ret tt, set_rwlock {[f := Shared 1]} s2)) as R3 by by apply RLock_run.
  set (s3 := set_rwlock {[f := Shared 1]} s2) in *.
  assert (root_unlock s3 = (Ret tt, set_root_latch false s3)) as R4 by done. set (s4 := set_root_latch false s3) in *.
  assert (same_index s s4) as Si4 by (destruct Si; by split).
  destruct (descend_find h Lay key txn s n fuel s4 f (root_page_ h) es) as (f' & p' & s' & part & R' & Hd' & Hl' & Hr' & Si' & Ht' & Hloc);
    [done|done|done|done|done|destruct Hd; by split|done|].
  destruct Ht' as (Hp' & Sn' & _ & ->).
  exists f', p', s'. split_and!; try done; [|by apply (si_page _ _ Si')].
  unfold find_leaf_page. rewrite (bind_run _ _ _ _ _ R1). erewrite bind_run by reflexivity. change (ix_hdr s1) with (ix_hdr s). rewrite Hh.
  rewrite (bind_run _ _ _ _ _ R2). change (bool_decide (FIND = FIND)) with true. change (bool_decide (FIND <> FIND)) with false. cbv iota.
  rewrite (bind_run _ _ s2 s4 false).
  2: { rewrite (bind_run _ _ _ _ _ R3). by rewrite (bind_run _ _ _ _ _ R4). }
  rewrite (bind_run _ _ _ _ _ R'). reflexivity.
Qed.

(** What a search does with its leaf at the end. *)
Lemma leave_leaf (s : IH) (f p : Z) :
  holds s f p -> rwlock s = {[f := Shared 1]} -> root_latch_ s = false -> index_latch_page_set_ s = [] -> index_deleted_page_set_ s = [] ->
  exists s1 s', RUnLock f s = (Ret tt, s1) /\ unpin f false s1 = (Ret true, s') /\ quiet s' /\ same_index s s'.
Proof.
  intros Hd Hl Hr Hs Hx. pose proof (RUnLock_run s f Hl) as R1. set (s1 := set_rwlock ∅ s) in *.
  destruct (unpin_run s1 f p false) as (t & R2 & Hok & _ & Hz & Si & Hsp); [destruct Hd; by split|].
  exists s1, (set_pool t s1). split_and!; [done|done|by split|]. destruct Si. by split.
Qed.

(** The position stored with a key in a list of entries. *)
Definition found (h : IxFileHdr) (key : list Z) (es : list (list Z * list Z)) : option Rid :=
  e ← find_key h key es; Some (IxNode.rid_of_bytes e.2).

Lemma get_value_run (h : IxFileHdr) (Lay : ix_layout h) (key : list Z) (txn : bool) (n fuel : nat) (s : IH) (es : list (list Z * list Z)) :
  ix_hdr s = h -> quiet s -> tree h (content s) (page_ok s) n (root_page_ h) es -> (n <= fuel)%nat -> valid_key h key ->
  exists s', get_value fuel key txn s = (Ret (match found h key es with Some r => (true, [r]) | None => (false, []) end), s') /\
    quiet s' /\ same_index s s'.
Proof.
  intros Hh Q Ht Hf Hk. destruct (find_leaf_find h Lay key txn n fuel s es Hh Q Ht Hf Hk) as (f & p & s1 & R & Hd & Hl & Hr & Si & Ed & Sn & Hloc).
  destruct (leave_leaf s1 f p Hd Hl Hr) as (s2 & s3 & R2 & R3 & Q3 & Si3).
  { by rewrite (si_set _ _ Si), (q_set _ Q). } { by rewrite (si_deleted _ _ Si), (q_deleted _ Q). }
  exists s3. split_and!; [|done|by eapply same_index_trans].
  unfold get_value. rewrite (bind_run _ _ _ _ _ R). cbn [fst snd].
  rewrite (bind_run _ _ s1 s1 (found h key es)).
  2: { apply (node_get_run s1 f p _ _ (content s p)); [apply Hd..|]. rewrite Ed, (si_hdr _ _ Si), Hh.
       rewrite (leaf_lookup_ok h Lay _ key Sn Hk). unfold found. rewrite (located_find h key es _ Hloc). reflexivity. }
  rewrite (bind_run _ _ _ _ _ R2), (bind_run _ _ _ _ _ R3). by destruct (found h key es).
Qed.

Lemma exist_loop_run (h : IxFileHdr) (Lay : ix_layout h) (key : list Z) (s : IH) (f p : Z) (d : list Z) :
  ix_hdr s = h -> pn_ok (ix_pool s) -> pn_at (ix_pool s) (pid s p) f -> content s p = d -> sorted_node h d -> valid_key h key ->
  forall l, Forall (fun i => 0 <= i < Z.of_nat (size d)) l ->
  exist_loop f key l s = (Ret (existsb (fun i => kcmp h key (nkey h d (Z.to_nat i)) =? 0) l), s).
Proof.
  intros Hh Hok Hat Ed Sn Hk l Hl. pose proof (sn_ok _ _ Sn) as (Hlen & H0 & Hcap).
  induction Hl as [|i l Hi _ IH]; [done|]. cbn [exist_loop existsb].
  destruct (key_ptr_run h Lay d (Z.to_nat i) Hlen ltac:(lia)) as [r Rk]. rewrite Z2Nat.id in Rk by lia.
  rewrite (bind_run _ _ s s (nkey h d (Z.to_nat i) ++ r)).
  2: { apply (node_get_run s f p _ _ d); [done|done|by rewrite Ed, Hh]. }
  erewrite bind_run by reflexivity. pose proof (valid_len h Lay key Hk) as Hlk.
  pose proof (compare_run h Lay d key (nkey h d (Z.to_nat i)) [] r Hlk (length_nkey h Lay d (Z.to_nat i) Hlen ltac:(lia))) as Rc.
  unfold IxNode.compare in Rc. rewrite app_nil_r in Rc.
  destruct (ix_compare key (nkey h d (Z.to_nat i) ++ r) (col_types_ h) (col_lens_ h)) as [c|] eqn:Ec; [|done].
  injection Rc as ->. rewrite Hh, Ec. rewrite (bind_run _ _ s s (kcmp h key (nkey h d (Z.to_nat i)))) by done.
  destruct (kcmp h key _ =? 0); [done|]. exact IH.
Qed.

Lemma existsb_find (h : IxFileHdr) (key d : list Z) :
  existsb (fun i => kcmp h key (nkey h d (Z.to_nat i)) =? 0) (seqZ 0 (Z.of_nat (size d))) = bool_decide (is_Some (found h key (entries h d))).
Proof.
  unfold found, find_key. destruct (List.find _ (entries h d)) as [e|] eqn:E; simpl.
  - apply List.find_some in E as [He Hk]. apply list_elem_of_In, list_elem_of_lookup in He as [i Hi].
    rewrite lookup_entries in Hi. case_decide as Hlt; [|done]. injection Hi as <-. apply existsb_exists.
    exists (Z.of_nat i). split; [apply list_elem_of_In, elem_of_seqZ; lia|]. by rewrite Nat2Z.id.
  - apply not_true_is_false. intros Hx. apply existsb_exists in Hx as (i & Hi & Hc). apply list_elem_of_In, elem_of_seqZ in Hi.
    eapply (List.find_none _ _) in E; [|apply list_elem_of_In, (list_elem_of_lookup_2 _ (Z.to_nat i)); rewrite lookup_entries, decide_True by lia; reflexivity].
    simpl in E. congruence.
Qed.

Lemma is_key_exist_run (h : IxFileHdr) (Lay : ix_layout h) (key : list Z) (txn : bool) (n fuel : nat) (s : IH) (es : list (list Z * list Z)) :
  ix_hdr s = h -> quiet s -> tree h (content s) (page_ok s) n (root_page_ h) es -> (n <= fuel)%nat -> valid_key h key ->
  exists s', is_key_exist fuel key txn s = (Ret (bool_decide (is_Some (found h key es))), s') /\ quiet s' /\ same_index s s'.
Proof.
  intros Hh Q Ht Hf Hk. destruct (find_leaf_find h Lay key txn n fuel s es Hh Q Ht Hf Hk) as (f & p & s1 & R & Hd & Hl & Hr & Si & Ed & Sn & Hloc).
  destruct (leave_leaf s1 f p Hd Hl Hr) as (s2 & s3 & R2 & R3 & Q3 & Si3).
  { by rewrite (si_set _ _ Si), (q_set _ Q). } { by rewrite (si_deleted _ _ Si), (q_deleted _ Q). }
  exists s3. split_and!; [|done|by eapply same_index_trans]. set (d := content s p) in *.
  unfold is_key_exist. rewrite (bind_run _ _ _ _ _ R). cbn [fst snd].
  rewrite (bind_run _ _ s1 s1 (Z.of_nat (size d))).
  2: { apply (node_get_run s1 f p _ _ d); [apply Hd..|]. rewrite Ed. apply (get_size_run h Lay), Sn. }
  assert (Forall (fun i => 0 <= i < Z.of_nat (size d)) (seqZ 0 (Z.of_nat (size d)))) as Hseq.
  { apply Forall_forall. intros i Hi%elem_of_seqZ. lia. }
  assert (ix_hdr s1 = h) as Hh1 by by rewrite (si_hdr _ _ Si).
  rewrite (bind_run _ _ _ _ _ (exist_loop_run h Lay key s1 f p d Hh1 (h_ok _ _ _ Hd) (h_at _ _ _ Hd) Ed Sn Hk _ Hseq)).
  rewrite (bind_run _ _ _ _ _ R2), (bind_run _ _ _ _ _ R3). rewrite existsb_find. unfold found. by rewrite (located_find h key es _ Hloc).
Qed.

End search.
End IxTree.
