(* ===== verification/IxPage.v ===== *)
(** * Node pages by their fields

    [node] reads a page as what the code stores in it: parent, leaf flag, leaf
    links, and the list of entries; one lemma per operation says how it changes
    that reading. *)

From S2P Require Import Prelude Bytes Disk BufferPool Txn Log IxDefs IxCompare IxNode IxNodeFacts IxNodeSpec IxIndex IxTree.

Module IxPage.
Import IxNodeFacts IxNodeSpec IxTree.

Section page.
Context (h : IxFileHdr) (Lay : ix_layout h).
Abbreviation entry_t := (list Z * list Z)%type.

Definition prev_no (d : list Z) : Z := i32_val (slice 16 4 d).
Definition next_no (d : list Z) : Z := i32_val (slice 20 4 d).

Record node (d : list Z) (parent : Z) (leaf : bool) (prev next : Z) (es : list entry_t) : Prop := {
  nd_ok : node_ok h d;
  nd_parent : parent_no d = parent;
  nd_leaf : is_leaf d = leaf;
  nd_prev : prev_no d = prev;
  nd_next : next_no d = next;
  nd_entries : entries h d = es
}.

(** Reading a node's own fields. *)
Lemma node_self (d : list Z) : node_ok h d -> node d (parent_no d) (is_leaf d) (prev_no d) (next_no d) (entries h d).
Proof. by split. Qed.

Lemma node_size (d : list Z) par lf pv nx es : node d par lf pv nx es -> size d = length es.
Proof. intros N. by rewrite <- (nd_entries _ _ _ _ _ _ N), length_entries. Qed.

Lemma hdr_same_fields (d d' : list Z) : hdr_same d d' ->
  parent_no d' = parent_no d /\ is_leaf d' = is_leaf d /\ prev_no d' = prev_no d /\ next_no d' = next_no d.
Proof.
  intros [H1 H2]. unfold parent_no, is_leaf, prev_no, next_no.
  assert (slice 4 4 d' = slice 4 4 d) as ->.
  { transitivity (slice 4 4 (slice 0 8 d')); [by rewrite slice_slice by lia|]. rewrite H1. by rewrite slice_slice by lia. }
  assert (forall o n, (o + n <= 12)%nat -> slice (12 + o) n d' = slice (12 + o) n d) as E.
  { intros o n Ho. rewrite <- (slice_slice 12 12 o n d'), <- (slice_slice 12 12 o n d) by lia. by rewrite H2. }
  pose proof (E 0%nat 1%nat ltac:(lia)) as E1. pose proof (E 4%nat 4%nat ltac:(lia)) as E2. pose proof (E 8%nat 4%nat ltac:(lia)) as E3.
  simpl in E1, E2, E3. by rewrite E1, E2, E3.
Qed.

Lemma node_hdr_same (d d' : list Z) par lf pv nx es es' :
  node d par lf pv nx es -> node_ok h d' -> hdr_same d d' -> entries h d' = es' -> node d' par lf pv nx es'.
Proof.
  intros [N1 N2 N3 N4 N5 N6] Hok Hh He. destruct (hdr_same_fields d d' Hh) as (E1 & E2 & E3 & E4). split; congruence.
Qed.

(** ** Header fields *)

Lemma wr_field (o : nat) (x d : list Z) :
  length d = Disk.page_len -> (o + length x <= 24)%nat -> (o + length x <= 8)%nat \/ (12 <= o)%nat ->
  IxNode.wr (Z.of_nat o) x d = (Ret tt, splice o x d) /\ length (splice o x d) = Disk.page_len /\
  num_key (splice o x d) = num_key d /\ entries h (splice o x d) = entries h d.
Proof.
  intros Hl Ho Hd. destruct (layout_nat h Lay) as (H1 & H2 & H3 & H4 & _).
  assert (num_key (splice o x d) = num_key d) as En by (unfold num_key; f_equal; apply slice_splice_disjoint; lia).
  split_and!; [apply wr_run; lia|rewrite length_splice; lia|done|].
  unfold entries, size. rewrite En. apply list_fmap_ext. intros _ i _. unfold entry, nkey, nrid. f_equal; apply item_other; unfold base_r; lia.
Qed.

Lemma set_parent_node (v : Z) (d : list Z) par lf pv nx es : in_i32 v = true -> node d par lf pv nx es ->
  exists d', IxNode.set_parent_page_no v d = (Ret tt, d') /\ node d' v lf pv nx es.
Proof.
  intros Hv [(Hl & N1 & N1') N2 N3 N4 N5 N6]. pose proof (length_i32_bytes v) as E4.
  destruct (wr_field 4 (i32_bytes v) d) as (R & L' & K' & E'); [done|lia|lia|]. eexists. split; [exact R|].
  assert (4 + 4 <= length d)%nat by (destruct (layout_nat h Lay) as (_ & _ & _ & ? & _); lia).
  split; [split_and!; [done|by rewrite K'|unfold size; by rewrite K']| | | | |congruence].
  - unfold parent_no. rewrite slice_splice_inside by lia. rewrite slice_all by done. by apply i32_roundtrip.
  - rewrite <- N3. unfold is_leaf. by rewrite slice_splice_disjoint by lia.
  - rewrite <- N4. unfold prev_no. by rewrite slice_splice_disjoint by lia.
  - rewrite <- N5. unfold next_no. by rewrite slice_splice_disjoint by lia.
Qed.

Lemma set_leaf_node (b : bool) (d : list Z) par lf pv nx es : node d par lf pv nx es ->
  exists d', IxNode.set_is_leaf b d = (Ret tt, d') /\ node d' par b pv nx es.
Proof.
  intros [(Hl & N1 & N1') N2 N3 N4 N5 N6]. set (x := [if b then 1 else 0]).
  destruct (wr_field 12 x d) as (R & L' & K' & E'); [done|simpl; lia|lia|]. eexists. split; [exact R|].
  assert (24 <= length d)%nat by (destruct (layout_nat h Lay) as (? & ? & ? & ? & _); lia).
  split; [split_and!; [done|by rewrite K'|unfold size; by rewrite K']| | | | |congruence].
  - rewrite <- N2. unfold parent_no. by rewrite slice_splice_disjoint by (simpl; lia).
  - unfold is_leaf. rewrite slice_splice_inside by (simpl; lia). rewrite slice_all by done. by destruct b.
  - rewrite <- N4. unfold prev_no. by rewrite slice_splice_disjoint by (simpl; lia).
  - rewrite <- N5. unfold next_no. by rewrite slice_splice_disjoint by (simpl; lia).
Qed.

Lemma set_prev_node (v : Z) (d : list Z) par lf pv nx es : in_i32 v = true -> node d par lf pv nx es ->
  exists d', IxNode.set_prev_leaf v d = (Ret tt, d') /\ node d' par lf v nx es.
Proof.
  intros Hv [(Hl & N1 & N1') N2 N3 N4 N5 N6]. pose proof (length_i32_bytes v) as E4.
  destruct (wr_field 16 (i32_bytes v) d) as (R & L' & K' & E'); [done|lia|lia|]. eexists. split; [exact R|].
  assert (24 <= length d)%nat by (destruct (layout_nat h Lay) as (? & ? & ? & ? & _); lia).
  split; [split_and!; [done|by rewrite K'|unfold size; by rewrite K']| | | | |congruence].
  - rewrite <- N2. unfold parent_no. by rewrite slice_splice_disjoint by lia.
  - rewrite <- N3. unfold is_leaf. by rewrite slice_splice_disjoint by lia.
  - unfold prev_no. rewrite slice_splice_inside by lia. rewrite slice_all by done. by apply i32_roundtrip.
  - rewrite <- N5. unfold next_no. by rewrite slice_splice_disjoint by lia.
Qed.

Lemma set_next_node (v : Z) (d : list Z) par lf pv nx es : in_i32 v = true -> node d par lf pv nx es ->
  exists d', IxNode.set_next_leaf v d = (Ret tt, d') /\ node d' par lf pv v es.
Proof.
  intros Hv [(Hl & N1 & N1') N2 N3 N4 N5 N6]. pose proof (length_i32_bytes v) as E4.
  destruct (wr_field 20 (i32_bytes v) d) as (R & L' & K' & E'); [done|lia|lia|]. eexists. split; [exact R|].
  assert (24 <= length d)%nat by (destruct (layout_nat h Lay) as (? & ? & ? & ? & _); lia).
  split; [split_and!; [done|by rewrite K'|unfold size; by rewrite K']| | | | |congruence].
  - rewrite <- N2. unfold parent_no. by rewrite slice_splice_disjoint by lia.
  - rewrite <- N3. unfold is_leaf. by rewrite slice_splice_disjoint by lia.
  - rewrite <- N4. unfold prev_no. by rewrite slice_splice_disjoint by lia.
  - unfold next_no. rewrite slice_splice_inside by lia. rewrite slice_all by done. by apply i32_roundtrip.
Qed.

Lemma rd_field (o : nat) (d : list Z) : length d = Disk.page_len -> (o + 4 <= 24)%nat ->
  IxNode.rd_int (Z.of_nat o) d = (Ret (i32_val (slice o 4 d)), d).
Proof.
  intros Hl Ho. destruct (layout_nat h Lay) as (_ & H2 & H3 & H4 & _). unfold IxNode.rd_int.
  by rewrite (bind_run _ _ _ _ _ (rd_run o 4 d ltac:(lia))).
Qed.

Lemma get_parent_node (d : list Z) par lf pv nx es : node d par lf pv nx es -> IxNode.get_parent_page_no d = (Ret par, d).
Proof. intros [[Hl _] <- _ _ _ _]. apply (rd_field 4); [done|lia]. Qed.
Lemma get_next_node (d : list Z) par lf pv nx es : node d par lf pv nx es -> IxNode.get_next_leaf d = (Ret nx, d).
Proof. intros [[Hl _] _ _ _ <- _]. apply (rd_field 20); [done|lia]. Qed.
Lemma get_prev_node (d : list Z) par lf pv nx es : node d par lf pv nx es -> IxNode.get_prev_leaf d = (Ret pv, d).
Proof. intros [[Hl _] _ _ <- _ _]. apply (rd_field 16); [done|lia]. Qed.
Lemma get_leaf_node (d : list Z) par lf pv nx es : node d par lf pv nx es -> IxNode.is_leaf_page d = (Ret lf, d).
Proof. intros [[Hl _] _ <- _ _ _]. by apply (is_leaf_run h Lay). Qed.
Lemma get_root_node (d : list Z) par lf pv nx es : node d par lf pv nx es -> IxNode.is_root_page d = (Ret (par =? INVALID_PAGE_ID), d).
Proof. intros N. unfold IxNode.is_root_page. by rewrite (bind_run _ _ _ _ _ (get_parent_node _ _ _ _ _ _ N)). Qed.
Lemma get_size_node (d : list Z) par lf pv nx es : node d par lf pv nx es -> IxNode.get_size d = (Ret (Z.of_nat (length es)), d).
Proof. intros N. rewrite <- (node_size _ _ _ _ _ _ N). apply (get_size_run h Lay), N. Qed.

(** ** The key count *)

Lemma set_size_node (n : nat) (d : list Z) par lf pv nx es : (n <= length es)%nat -> node d par lf pv nx es ->
  exists d', IxNode.set_size (Z.of_nat n) d = (Ret tt, d') /\ node d' par lf pv nx (take n es).
Proof.
  intros Hn N. pose proof (node_size _ _ _ _ _ _ N) as Hs. pose proof (nd_ok _ _ _ _ _ _ N) as (Hl & H0 & Hc).
  destruct (set_size_run h Lay n d Hl ltac:(lia)) as (d' & R & Hl' & Hn' & Hh & Hk & Hr). exists d'. split; [done|].
  assert (size d' = n) as Es by (unfold size; rewrite Hn'; lia).
  apply (node_hdr_same d d' par lf pv nx es); [done|split_and!; [done|lia|lia]|done|].
  rewrite <- (nd_entries _ _ _ _ _ _ N). apply list_eq. intros i. rewrite lookup_entries, Es. destruct (decide (i < n)%nat) as [Hi|Hi].
  - rewrite lookup_take_lt, lookup_entries, decide_True by lia. unfold entry. by rewrite Hk, Hr.
  - by rewrite lookup_take_ge by lia.
Qed.

(** The page [new_page] returns. *)
Lemma zero_node : node zero_page 0 false 0 0 [].
Proof.
  assert (forall o n, (o + n <= Disk.page_len)%nat -> slice o n zero_page = replicate n 0) as E.
  { intros o n Ho. apply list_eq. intros i. rewrite lookup_slice. unfold zero_page. case_decide.
    - rewrite !lookup_replicate_2 by lia. done.
    - symmetry. apply lookup_ge_None. rewrite length_replicate. lia. }
  destruct (layout_nat h Lay) as (H1 & H2 & H3 & H4 & _).
  assert (num_key zero_page = 0) as En by (unfold num_key; rewrite E by lia; reflexivity).
  split.
  - split_and!; [apply length_replicate|lia|unfold size; rewrite En; lia].
  - unfold parent_no. rewrite E by lia. reflexivity.
  - unfold is_leaf. rewrite E by lia. reflexivity.
  - unfold prev_no. rewrite E by lia. reflexivity.
  - unfold next_no. rewrite E by lia. reflexivity.
  - unfold entries, size. by rewrite En.
Qed.

(** ** Moving entries *)

Lemma insert_pairs_node (p n : nat) (key rids d : list Z) par lf pv nx es :
  node d par lf pv nx es -> (p <= length es)%nat -> (length es + n <= cap h)%nat -> (n * K h <= length key)%nat -> (n * 8 <= length rids)%nat ->
  exists d', IxNode.insert_pairs h (Z.of_nat p) key rids (Z.of_nat n) d = (Ret tt, d') /\
    node d' par lf pv nx (take p es ++ (new_entry h key rids <$> seq 0 n) ++ drop p es).
Proof.
  intros N Hp Hc Hk Hr. pose proof (node_size _ _ _ _ _ _ N) as Hs.
  destruct (insert_pairs_ok h Lay d (nd_ok _ _ _ _ _ _ N) p n key rids) as (d' & R & Hok & _ & Hh & He); [lia|lia|done|done|].
  exists d'. split; [done|]. eapply node_hdr_same; [exact N|done|done|]. by rewrite He, (nd_entries _ _ _ _ _ _ N).
Qed.

(** The entries from position [i] on, read through pointers into the page. *)
Lemma tail_entries (d : list Z) (i n : nat) : node_ok h d -> (i + n <= size d)%nat ->
  exists ks rs, IxNode.key_ptr h (Z.of_nat i) d = (Ret ks, d) /\ IxNode.rid_ptr h (Z.of_nat i) d = (Ret rs, d) /\
    (n * K h <= length ks)%nat /\ (n * 8 <= length rs)%nat /\ new_entry h ks rs <$> seq 0 n = take n (drop i (entries h d)).
Proof.
  intros (Hl & H0 & Hc) Hn. destruct (layout_nat h Lay) as (H1 & H2 & H3 & H4 & _).
  assert ((i + n) * K h <= cap h * K h)%nat by nia. assert ((i + n) * 8 <= cap h * 8)%nat by nia.
  exists (drop (24 + i * K h) d), (drop (base_r h + i * 8) d). unfold base_r in *. split_and!.
  - unfold IxNode.key_ptr. erewrite bind_run by reflexivity. unfold id. rewrite (key_off_nat h Lay), Nat2Z.id.
    rewrite (proj2 (Z.leb_le _ _)), (proj2 (Z.leb_le _ _)) by lia. reflexivity.
  - unfold IxNode.rid_ptr. erewrite bind_run by reflexivity. unfold id. rewrite (rid_off_nat h Lay), Nat2Z.id. unfold base_r.
    rewrite (proj2 (Z.leb_le _ _)), (proj2 (Z.leb_le _ _)) by lia. reflexivity.
  - rewrite length_drop. lia.
  - rewrite length_drop. lia.
  - assert (forall o w j k, slice (j * w) k (drop o d) = slice (o + j * w) k d) as Ed.
    { intros o w j k. unfold slice. by rewrite drop_drop. }
    apply list_eq. intros j. rewrite list_lookup_fmap. destruct (decide (j < n)%nat) as [Hj|Hj].
    + rewrite lookup_seq_lt, lookup_take_lt, lookup_drop, lookup_entries, decide_True by lia. simpl. f_equal.
      unfold new_entry, entry, nkey, nrid, item, base_r. rewrite !Ed. f_equal; f_equal; lia.
    + rewrite lookup_seq_ge, lookup_take_ge by lia. done.
Qed.

End page.
End IxPage.
