(* ===== verification/IxInsert.v ===== *)
(** * Inserting into a one-leaf index

    [insert_entry] on a tree that is a single leaf: the pair is put into the
    leaf, and when the leaf is full then, it is split under a new root.  [view]
    describes the pages of the index file by their content while some of them
    are pinned. *)

From S2P Require Import Prelude Bytes Disk BufferPool PagePool PinPool Txn Log IxDefs IxCompare IxNode IxNodeFacts IxNodeSpec IxIndex IxTree IxPage.

Module IxInsert.
Import Ix IxNodeFacts IxNodeSpec IxTree IxPage.

Definition upd (c : Z -> list Z) (p : Z) (d : list Z) : Z -> list Z := fun q => if decide (q = p) then d else c q.
Lemma upd_same c p d : upd c p d p = d.
Proof. unfold upd. by rewrite decide_True. Qed.
Lemma upd_other c p q d : q <> p -> upd c p d q = c q.
Proof. intros H. unfold upd. by rewrite decide_False. Qed.

(** ** Headers that lay their pages out alike *)

Definition same_shape (h h' : IxFileHdr) : Prop := col_types_ h' = col_types_ h /\ col_lens_ h' = col_lens_ h /\
  col_tot_len_ h' = col_tot_len_ h /\ btree_order_ h' = btree_order_ h /\ keys_size_ h' = keys_size_ h.

Section shape.
Context (h h' : IxFileHdr) (E : same_shape h h').

Lemma shape_layout : ix_layout h -> ix_layout h'.
Proof using E. destruct h, h', E as (? & ? & ? & ? & ?). simpl in *. subst. intros []. by split. Qed.
Lemma shape_node d par lf pv nx es : node h d par lf pv nx es -> node h' d par lf pv nx es.
Proof using E. destruct h, h', E as (? & ? & ? & ? & ?). simpl in *. subst. intros []. by split. Qed.
Lemma shape_sorted d : sorted_node h d -> sorted_node h' d.
Proof using E. destruct h, h', E as (? & ? & ? & ? & ?). simpl in *. subst. intros []. by split. Qed.
Lemma shape_tree L P k p es : tree h L P k p es -> tree h' L P k p es.
Proof using E.
  revert p es. induction k as [|k IH]; intros p es (Hp & Hs & Ht); (split; [done|]; split; [by apply shape_sorted|]).
  - destruct h, h', E as (? & ? & ? & ? & ?). simpl in *. subst. exact Ht.
  - destruct Ht as (Hl & Hz & ess & Hes & Hlen & Hsep & Hc). split_and!; [done|done|]. exists ess. split_and!; [done|done| |].
    + destruct h, h', E as (? & ? & ? & ? & ?). simpl in *. subst. exact Hsep.
    + intros c x Hx. specialize (IH _ _ (Hc c x Hx)). destruct h, h', E as (? & ? & ? & ? & ?). simpl in *. subst. exact IH.
Qed.
Lemma shape_valid t : valid_key h t -> valid_key h' t.
Proof using E. destruct h, h', E as (? & ? & ? & ? & ?). simpl in *. by subst. Qed.
Lemma shape_found t es : found h' t es = found h t es.
Proof using E. destruct h, h', E as (? & ? & ? & ? & ?). simpl in *. by subst. Qed.
End shape.

(** ** Sorted entries *)

Section sorted.
Context (h : IxFileHdr) (Lay : ix_layout h).
Abbreviation kc := (kcmp h).

Definition sorted_keys (ks : list (list Z)) : Prop := Forall (valid_key h) ks /\
  forall i j a b, (i < j)%nat -> ks !! i = Some a -> ks !! j = Some b -> kc a b < 0.

Lemma sorted_node_keys (d : list Z) par lf pv nx es : node h d par lf pv nx es -> sorted_node h d -> sorted_keys es.*1.
Proof. intros N [_ S1 S2]. rewrite <- (nd_entries _ _ _ _ _ _ _ N). split; [exact S1|exact S2]. Qed.

Lemma keys_sorted_node (d : list Z) par lf pv nx es : node h d par lf pv nx es -> sorted_keys es.*1 -> sorted_node h d.
Proof.
  intros N [S1 S2]. rewrite <- (nd_entries _ _ _ _ _ _ _ N) in S1, S2. split; [apply N|exact S1|exact S2].
Qed.

Lemma sorted_take (k : nat) (ks : list (list Z)) : sorted_keys ks -> sorted_keys (take k ks).
Proof.
  intros [S1 S2]. split; [by apply Forall_take|]. intros i j a b Hij [Ha _]%lookup_take_Some [Hb _]%lookup_take_Some. by eapply S2.
Qed.
Lemma sorted_drop (k : nat) (ks : list (list Z)) : sorted_keys ks -> sorted_keys (drop k ks).
Proof.
  intros [S1 S2]. split; [by apply Forall_drop|]. intros i j a b Hij. rewrite !lookup_drop. apply S2. lia.
Qed.
Lemma sorted_pair (a b : list Z) : valid_key h a -> valid_key h b -> kc a b < 0 -> sorted_keys [a; b].
Proof.
  intros Ha Hb Hab. split; [by repeat constructor|]. intros [|[|i]] [|[|j]] x y Hij Hx Hy; simpl in *; simplify_eq; lia || done.
Qed.

Lemma kc_refl (a : list Z) : valid_key h a -> kc a a = 0.
Proof. intros Ha. destruct (kc_order h Lay) as [Oa _]. specialize (Oa a a Ha Ha). lia. Qed.

Lemma rid_roundtrip (r : Rid) : in_i32 (rid_page_no r) = true -> in_i32 (rid_slot_no r) = true -> IxNode.rid_of_bytes (Log.rid_bytes r) = r.
Proof.
  intros H1 H2. destruct r as [a b]. unfold IxNode.rid_of_bytes, Log.rid_bytes. cbn [rid_page_no rid_slot_no] in *.
  rewrite slice_0_app by done. rewrite slice_app_r by done. rewrite length_i32_bytes, (slice_all 4) by done. by rewrite !i32_roundtrip.
Qed.

(** Two leaves below a root with their first keys. *)
Lemma two_leaves (L : Z -> list Z) (P : Z -> Prop) (n p q : Z) par par' par0 pv nx pv' nx' pv0 nx0 kl vl kr vr el er :
  P n -> P p -> P q -> in_i32 p = true -> in_i32 q = true ->
  node h (L p) par true pv nx ((kl, vl) :: el) -> node h (L q) par' true pv' nx' ((kr, vr) :: er) ->
  node h (L n) par0 false pv0 nx0 [(kl, Log.rid_bytes (mkRid p (-1))); (kr, Log.rid_bytes (mkRid q (-1)))] ->
  sorted_keys (((kl, vl) :: el) ++ (kr, vr) :: er).*1 ->
  tree h L P 1 n (((kl, vl) :: el) ++ (kr, vr) :: er).
Proof.
  intros Pn Pp Pq Ip Iq Np Nq Nn Hs. pose proof (node_size _ _ _ _ _ _ _ Nn) as Sz. simpl in Sz.
  set (l := (kl, vl) :: el) in *. set (r := (kr, vr) :: er) in *.
  assert (sorted_keys l.*1 /\ sorted_keys r.*1) as [Sl Sr].
  { rewrite fmap_app in Hs. split; [apply (sorted_take (length l)) in Hs|apply (sorted_drop (length l)) in Hs].
    - by rewrite take_app_length' in Hs by by rewrite length_fmap.
    - by rewrite drop_app_length' in Hs by by rewrite length_fmap. }
  assert (valid_key h kl /\ valid_key h kr) as [Hkl Hkr] by (split; [exact (Forall_inv (proj1 Sl))|exact (Forall_inv (proj1 Sr))]).
  assert (forall i e, l !! i = Some e -> kc e.1 kr < 0) as Hlr.
  { intros i e Hi. pose proof (lookup_lt_Some _ _ _ Hi). destruct Hs as [_ H2]. apply (H2 i (length l)); [done|..].
    - by rewrite list_lookup_fmap, lookup_app_l, Hi.
    - rewrite list_lookup_fmap, lookup_app_r, Nat.sub_diag by lia. done. }
  assert (nkey h (L n) 0 = kl /\ nkey h (L n) 1 = kr /\ child h (L n) 0 = p /\ child h (L n) 1 = q) as (K0 & K1 & C0 & C1).
  { pose proof (nd_entries _ _ _ _ _ _ _ Nn) as E. pose proof (lookup_entries h (L n) 0) as E0. pose proof (lookup_entries h (L n) 1) as E1.
    rewrite E in E0, E1. rewrite decide_True in E0 by lia. rewrite decide_True in E1 by lia. cbn in E0, E1. unfold entry in E0, E1.
    unfold child. injection E0 as -> <-. injection E1 as -> <-. by rewrite !rid_roundtrip. }
  cbn [tree]. split_and!; [done| |apply Nn|lia|].
  { eapply keys_sorted_node; [exact Nn|]. apply sorted_pair; [exact Hkl|exact Hkr|]. exact (Hlr 0%nat _ eq_refl). }
  exists [l; r]. split_and!.
  - simpl. by rewrite app_nil_r.
  - by rewrite Sz.
  - intros [|[|c]] x e Hx He; simpl in Hx; [injection Hx as <-|injection Hx as <-|done]; rewrite Sz; split; intros Hc; try lia.
    + apply list_elem_of_lookup in He as [i Hi]. change (0 + 1)%nat with 1%nat. rewrite K1. by eapply Hlr.
    + rewrite K1. apply list_elem_of_lookup in He as [[|i] Hi]; [injection Hi as <-; rewrite kc_refl; [lia|done]|].
      apply Z.lt_le_incl. destruct Sr as [_ Sr]. apply (Sr 0%nat (S i)); [lia|done|]. by rewrite list_lookup_fmap, Hi.
  - intros [|[|c]] x Hx; simpl in Hx; [injection Hx as <-|injection Hx as <-|done].
    + rewrite C0. split_and!; [done|by eapply keys_sorted_node|apply Np|by rewrite (nd_entries _ _ _ _ _ _ _ Np)].
    + rewrite C1. split_and!; [done|by eapply keys_sorted_node|apply Nq|by rewrite (nd_entries _ _ _ _ _ _ _ Nq)].
Qed.
End sorted.

Section insert.
Context {T : Type} {PO : PagePool T} {PN : PinPool T} {PL : PinPoolLaws T}.
Abbreviation IH := (IxIndexHandle T).
Implicit Types s : IH.

(** File [x] has the pages [P] with content [c]; [fr] are the pinned ones and
    their frames; [n] is the next page number; [sp] frames are spare. *)
Record view (x : Z) (t : T) (P : Z -> Prop) (c : Z -> list Z) (fr : gmap Z Z) (n : Z) (sp : nat) : Prop := {
  v_ok : pn_ok t;
  v_pages : forall p, P p -> pn_exists t (mkPageId x p) /\ pn_logical t (mkPageId x p) = c p;
  v_at : forall p f, fr !! p = Some f -> pn_at t (mkPageId x p) f;
  v_pins : forall p, pn_pins t (mkPageId x p) = if fr !! p is Some _ then 1 else 0;
  v_count : pn_count t x = n;
  v_file : Disk.page_no_ok n = true -> pn_file t x;
  v_spare : (sp <= pn_spare t)%nat
}.

Lemma v_data x t P c fr n sp p : view x t P c fr n sp -> P p -> data_page (mkPageId x p) /\ p < n.
Proof. intros V Hp. destruct (v_pages _ _ _ _ _ _ _ V p Hp) as [Hex _]. apply pn_exists_data in Hex as [H1 H2]. simpl in H2. by rewrite (v_count _ _ _ _ _ _ _ V) in H2. Qed.

(** ** The pool *)

Lemma view_fetch x t P c fr n sp p : view x t P c fr n (S sp) -> P p -> fr !! p = None ->
  exists f t', pp_fetch (mkPageId x p) t = (Ret (Some f), t') /\ view x t' P c (<[p := f]> fr) n sp.
Proof.
  intros [V1 V2 V3 V4 V5 V6 V7] Hp Hfr. pose proof (V4 p) as E0. rewrite Hfr in E0.
  destruct (pn_fetch_ok t (mkPageId x p) V1 (proj1 (V2 p Hp))) as (f & t' & R & St & Hat & Hpins & Hsp & Hfile & Hcnt).
  { rewrite E0. unfold INT32_MAX. lia. } { right. lia. }
  exists f, t'. split; [done|]. split.
  - apply St.
  - intros q Hq. destruct (V2 q Hq) as [Hex El]. split; [by apply (ps_exists _ _ _ St)|]. rewrite <- El.
    apply (ps_logical _ _ _ St); [by apply (pn_exists_data t)|by intros []].
  - intros q g. rewrite lookup_insert_Some. intros [[<- <-]|[Hne Hq]]; [done|]. apply (ps_at _ _ _ St); [|by apply V3]. rewrite V4, Hq. lia.
  - intros q. rewrite Hpins. destruct (decide (q = p)) as [->|Hne].
    + rewrite decide_True, lookup_insert_eq by done. lia.
    + rewrite decide_False, lookup_insert_ne by congruence. apply V4.
  - by rewrite Hcnt.
  - intros Hn. by apply Hfile, V6.
  - rewrite Hsp, E0, decide_True by done. lia.
Qed.

Lemma view_update x t P c fr n sp p f (d : list Z) : view x t P c fr n sp -> P p -> fr !! p = Some f -> length d = Disk.page_len ->
  exists t', pp_update f (fun _ => d) t = (Ret tt, t') /\ view x t' P (upd c p d) fr n sp.
Proof.
  intros [V1 V2 V3 V4 V5 V6 V7] Hp Hfr Hd. pose proof (V4 p) as E1. rewrite Hfr in E1.
  destruct (pn_update_ok t (mkPageId x p) f (fun _ => d) V1 (V3 p f Hfr)) as (t' & R & St & El & Hat & Hpins & Hsp & Hfile & Hcnt); [lia|done|].
  exists t'. split; [done|]. split.
  - apply St.
  - intros q Hq. destruct (V2 q Hq) as [Hex Eq]. split; [by apply (ps_exists _ _ _ St)|]. destruct (decide (q = p)) as [->|Hne].
    + by rewrite upd_same.
    + rewrite upd_other, <- Eq by done. apply (ps_logical _ _ _ St); [by apply (pn_exists_data t)|congruence].
  - intros q g Hq. by apply Hat, V3.
  - intros q. by rewrite Hpins.
  - by rewrite Hcnt.
  - intros Hn. by apply Hfile, V6.
  - by rewrite Hsp.
Qed.

Lemma view_unpin x t P c fr n sp p f : view x t P c fr n sp -> P p -> fr !! p = Some f ->
  exists t', pp_unpin (mkPageId x p) true t = (Ret true, t') /\ view x t' P c (delete p fr) n (S sp).
Proof.
  intros [V1 V2 V3 V4 V5 V6 V7] Hp Hfr. pose proof (V4 p) as E1. rewrite Hfr in E1.
  destruct (pn_unpin_ok t (mkPageId x p) true V1) as (t' & R & St & Hat & _ & Hpins & Hsp & Hfile & Hcnt).
  { rewrite E1. unfold INT32_MAX. lia. } { by left. }
  exists t'. split; [done|]. split.
  - apply St.
  - intros q Hq. destruct (V2 q Hq) as [Hex El]. split; [by apply (ps_exists _ _ _ St)|]. rewrite <- El.
    apply (ps_logical _ _ _ St); [by apply (pn_exists_data t)|by intros []].
  - intros q g. rewrite lookup_delete_Some. intros [_ Hq]. by apply Hat, V3.
  - intros q. rewrite Hpins. destruct (decide (q = p)) as [->|Hne].
    + rewrite decide_True, lookup_delete_eq by done. lia.
    + rewrite decide_False, lookup_delete_ne by congruence. apply V4.
  - by rewrite Hcnt.
  - intros Hn. by apply Hfile, V6.
  - rewrite Hsp, E1, decide_True by done. lia.
Qed.

Lemma view_new x t P c fr n sp : view x t P c fr n (S sp) -> Disk.page_no_ok n = true ->
  exists f t', pp_new x t = (Ret (Some (f, mkPageId x n)), t') /\
    view x t' (fun p => P p \/ p = n) (upd c n zero_page) (<[n := f]> fr) (n + 1) sp /\ fr !! n = None /\ ~ P n.
Proof.
  intros V Hn. pose proof V as [V1 V2 V3 V4 V5 V6 V7].
  destruct (pn_new_ok t x V1 (V6 Hn)) as (f & t' & R & St & Hat & El & E0 & Hex & Hpins & Hsp & Hcnt & Hfile); [lia|].
  rewrite V5 in *. assert (fr !! n = None) as Hfn by (specialize (V4 n); rewrite E0 in V4; by destruct (fr !! n)).
  assert (~ P n) as HPn by (intros Hp; apply (v_data _ _ _ _ _ _ _ _ V) in Hp; lia).
  exists f, t'. split; [done|]. split_and!; [split|done|done].
  - apply St.
  - intros q [Hq| ->]; [|by rewrite upd_same]. destruct (V2 q Hq) as [Hq' Eq]. split; [by apply (ps_exists _ _ _ St)|].
    rewrite upd_other, <- Eq by (by intros ->). apply (ps_logical _ _ _ St); [by apply (pn_exists_data t)|]. intros [= ->]. done.
  - intros q g. rewrite lookup_insert_Some. intros [[<- <-]|[Hne Hq]]; [done|]. apply (ps_at _ _ _ St); [|by apply V3]. rewrite V4, Hq. lia.
  - intros q. rewrite Hpins. destruct (decide (q = n)) as [->|Hne].
    + by rewrite decide_True, lookup_insert_eq by done.
    + rewrite decide_False, lookup_insert_ne by congruence. apply V4.
  - by rewrite Hcnt, decide_True.
  - done.
  - rewrite Hsp. lia.
Qed.

(** ** The handle *)

Definition sees (s : IH) := view (ix_fd s) (ix_pool s).

Lemma sees_get {A} s P c fr n sp p f (m : IxFileHdr -> M (list Z) A) (r : outcome A) d :
  sees s P c fr n sp -> P p -> fr !! p = Some f -> m (ix_hdr s) (c p) = (r, d) -> node_get f m s = (r, s).
Proof.
  intros V Hp Hf Hm. apply (node_get_run s f p m r d); [apply V|by apply (v_at _ _ _ _ _ _ _ V)|].
  unfold content, pid. by rewrite (proj2 (v_pages _ _ _ _ _ _ _ V p Hp)).
Qed.

Lemma sees_do {A} s P c fr n sp p f (m : IxFileHdr -> M (list Z) A) (r : A) d :
  sees s P c fr n sp -> P p -> fr !! p = Some f -> m (ix_hdr s) (c p) = (Ret r, d) -> length d = Disk.page_len ->
  exists t, node_do f m s = (Ret r, set_pool t s) /\ sees (set_pool t s) P (upd c p d) fr n sp.
Proof.
  intros V Hp Hf Hm Hd. destruct (view_update _ _ _ _ _ _ _ p f d V Hp Hf Hd) as (t & R & V'). exists t. split; [|done].
  destruct (page_of_run s f p (v_ok _ _ _ _ _ _ _ V) (v_at _ _ _ _ _ _ _ V p f Hf)) as (g & Rg & _ & Eg & _).
  unfold content, pid in Eg. rewrite (proj2 (v_pages _ _ _ _ _ _ _ V p Hp)) in Eg.
  unfold node_do. rewrite (bind_run _ _ _ _ _ Rg). erewrite bind_run by reflexivity. rewrite Eg, Hm. cbn [fst snd].
  rewrite (bind_run _ _ s (set_pool t s) tt) by exact (zoom_run ix_pool set_pool _ s _ _ R). reflexivity.
Qed.

Lemma sees_page_no s P c fr n sp p f : sees s P c fr n sp -> fr !! p = Some f ->
  get_page_id f s = (Ret (mkPageId (ix_fd s) p), s) /\ get_page_no f s = (Ret p, s).
Proof. intros V Hf. apply get_page_id_run; [apply V|by apply (v_at _ _ _ _ _ _ _ V)]. Qed.

Lemma sees_unpin s P c fr n sp p f : sees s P c fr n sp -> P p -> fr !! p = Some f ->
  exists t, unpin f true s = (Ret true, set_pool t s) /\ sees (set_pool t s) P c (delete p fr) n (S sp).
Proof.
  intros V Hp Hf. destruct (view_unpin _ _ _ _ _ _ _ p f V Hp Hf) as (t & R & V'). exists t. split; [|done].
  unfold unpin. rewrite (bind_run _ _ _ _ _ (proj1 (sees_page_no s _ _ _ _ _ _ _ V Hf))). exact (zoom_run ix_pool set_pool _ s _ _ R).
Qed.

Lemma sees_fetch s P c fr n sp p : sees s P c fr n (S sp) -> P p -> fr !! p = None ->
  exists f t, fetch_node p s = (Ret f, set_pool t s) /\ sees (set_pool t s) P c (<[p := f]> fr) n sp.
Proof.
  intros V Hp Hf. destruct (view_fetch _ _ _ _ _ _ _ p V Hp Hf) as (f & t & R & V'). exists f, t. split; [|done].
  unfold fetch_node. erewrite bind_run by reflexivity.
  rewrite (bind_run _ _ s (set_pool t s) (Some f)) by exact (zoom_run ix_pool set_pool _ s _ _ R). reflexivity.
Qed.

(** A new node: an empty internal page until it is filled. *)
Lemma sees_create s (Lay : ix_layout (ix_hdr s)) P c fr n sp :
  sees s P c fr n (S sp) -> Disk.page_no_ok n = true -> in_i32 (num_pages_ (ix_hdr s) + 1) = true ->
  exists f t d, let s' := set_pool t (set_hdr (set_num_pages_ (num_pages_ (ix_hdr s) + 1) (ix_hdr s)) s) in
    create_node s = (Ret f, s') /\ sees s' (fun p => P p \/ p = n) (upd c n d) (<[n := f]> fr) (n + 1) sp /\
    node (ix_hdr s) d 0 false 0 0 [] /\ fr !! n = None /\ ~ P n.
Proof.
  intros V Hn Hi. destruct (view_new _ _ _ _ _ _ _ V Hn) as (f & t & R & V' & Hfn & HPn).
  set (s1 := set_hdr (set_num_pages_ (num_pages_ (ix_hdr s) + 1) (ix_hdr s)) s). set (s2 := set_pool t s1).
  destruct (set_size_node (ix_hdr s) Lay 0 zero_page _ _ _ _ _ ltac:(simpl; lia) (zero_node _ Lay)) as (d & Rd & Nd).
  destruct (sees_do s2 _ _ _ _ _ n f (fun _ => IxNode.set_size 0) tt d V') as (t' & R' & V''); [by right|apply lookup_insert_eq| |apply Nd|].
  { rewrite upd_same. exact Rd. }
  exists f, t', d. split_and!; try done.
  - unfold create_node. erewrite bind_run by reflexivity.
    rewrite (bind_run _ _ _ _ _ (Disk.int_op_Ret _ s Hi)). erewrite bind_run by reflexivity. fold s1. erewrite bind_run by reflexivity.
    rewrite (bind_run _ _ s1 s2 (Some (f, mkPageId (ix_fd s) n))) by exact (zoom_run ix_pool set_pool _ s1 _ _ R).
    erewrite bind_run by reflexivity. cbn [fst]. rewrite (bind_run _ _ _ _ _ R'). reflexivity.
  - destruct V'' as [W1 W2 W3 W4 W5 W6 W7]. split; try done. intros q Hq. destruct (W2 q Hq) as [E1 E2]. split; [done|]. etrans; [exact E2|]. unfold upd. by destruct (decide (q = n)).
Qed.

(** Contents as changes [m] over [c]. *)
Definition ov (m : gmap Z (list Z)) (c : Z -> list Z) : Z -> list Z := fun q => default (c q) (m !! q).

Lemma view_ext x t P c c' fr n sp : (forall q, P q -> c' q = c q) -> view x t P c fr n sp -> view x t P c' fr n sp.
Proof. intros H [V1 V2 V3 V4 V5 V6 V7]. split; try done. intros q Hq. destruct (V2 q Hq) as [E1 E2]. split; [done|]. by rewrite E2, H. Qed.

Lemma ov_upd m c p d q : ov (<[p := d]> m) c q = upd (ov m c) p d q.
Proof. unfold ov, upd. destruct (decide (q = p)) as [->|Hne]; [by rewrite lookup_insert_eq|by rewrite lookup_insert_ne by done]. Qed.

Section ops.
Context (P : Z -> Prop) (m : gmap Z (list Z)) (c : Z -> list Z) (fr : gmap Z Z) (n : Z) (sp : nat).

Lemma ov_get {A} s p f d (op : IxFileHdr -> M (list Z) A) (r : outcome A) d' :
  sees s P (ov m c) fr n sp -> P p -> fr !! p = Some f -> m !! p = Some d -> op (ix_hdr s) d = (r, d') -> node_get f op s = (r, s).
Proof. intros V Hp Hf Hm Hop. eapply sees_get; [exact V|exact Hp|done|]. unfold ov. rewrite Hm. exact Hop. Qed.

Lemma ov_do {A} s p f d (op : IxFileHdr -> M (list Z) A) (r : A) d' :
  sees s P (ov m c) fr n sp -> P p -> fr !! p = Some f -> m !! p = Some d -> op (ix_hdr s) d = (Ret r, d') -> node_ok (ix_hdr s) d' ->
  exists t, node_do f op s = (Ret r, set_pool t s) /\ sees (set_pool t s) P (ov (<[p := d']> m) c) fr n sp.
Proof.
  intros V Hp Hf Hm Hop [Hl _]. destruct (sees_do s P _ fr n sp p f op r d' V Hp Hf) as (t & R & V'); [unfold ov; by rewrite Hm|done|].
  exists t. split; [done|]. eapply view_ext; [|exact V']. intros q _. apply ov_upd.
Qed.
End ops.

(** Run the next operation on the page that holds [d]; [L] says what it does to
    the node. *)
Ltac node_step V Hin Hfr d L op d' N' s' R' V' :=
  let t := fresh "t" in let Rd := fresh "Rd" in
  destruct L as (d' & Rd & N');
  match type of V with
  | sees ?s ?P (ov ?m ?c) ?fr ?n ?sp =>
    destruct (ov_do P m c fr n sp s _ _ d op tt d' V Hin Hfr ltac:(by simplify_map_eq) Rd (nd_ok _ _ _ _ _ _ _ N')) as (t & R' & V');
    set (s' := set_pool t s) in *
  end.
(** Read from the page that holds [d] with [op], whose run is [L]. *)
Ltac node_read V Hin Hfr d op L R' :=
  match type of V with
  | sees ?s ?P (ov ?m ?c) ?fr ?n ?sp =>
    match type of L with
    | _ = (?r, _) => pose proof (ov_get P m c fr n sp s _ _ d op r d V Hin Hfr ltac:(by simplify_map_eq) L) as R'
    end
  end.

Lemma quot_half (k : nat) : Z.quot (Z.of_nat k) 2 = Z.of_nat (k / 2).
Proof. rewrite Z.quot_div_nonneg by lia. by rewrite Nat2Z.inj_div. Qed.

Section split.
Context (s : IH) (Lay : ix_layout (ix_hdr s)) (P : Z -> Prop) (m : gmap Z (list Z)) (c : Z -> list Z) (fr : gmap Z Z) (n : Z) (sp : nat).
Context (p f : Z) (d : list Z) (par pv nx : Z) (es : list (list Z * list Z)).
Abbreviation h := (ix_hdr s).

(** The header after the split of leaf [p]. *)
Definition split_hdr : IxFileHdr :=
  set_last_leaf_ (if last_leaf_ h =? p then n else last_leaf_ h) (set_num_pages_ (num_pages_ h + 1) h).

Lemma split_leaf :
  sees s P (ov m c) fr n (S sp) -> P p -> fr !! p = Some f -> m !! p = Some d -> node h d par true pv nx es ->
  Disk.page_no_ok n = true -> in_i32 (num_pages_ h + 1) = true -> in_i32 par = true -> in_i32 nx = true -> in_i32 p = true ->
  exists g t dl dr, let s' := set_pool t (set_hdr split_hdr s) in split f s = (Ret g, s') /\
    sees s' (fun q => P q \/ q = n) (ov (<[n := dr]> (<[p := dl]> m)) c) (<[n := g]> fr) (n + 1) sp /\
    node h dl par true pv n (take (length es / 2) es) /\ node h dr par true p nx (drop (length es / 2) es) /\
    fr !! n = None /\ ~ P n.
Proof.
  intros V Hp Hf Hm Nd Hn Hi Hpar Hnx Hip. set (k := (length es / 2)%nat).
  assert (k <= length es)%nat as Hk by (apply Nat.Div0.div_le_upper_bound; lia).
  assert (in_i32 n = true) as Hin by (unfold Disk.page_no_ok, in_i32, INT32_MIN, INT32_MAX in *; lia).
  pose proof (node_size _ _ _ _ _ _ _ Nd) as Hs. pose proof (nd_ok _ _ _ _ _ _ _ Nd) as Hok. pose proof Hok as (_ & _ & Hcap).
  destruct (sees_create s Lay P _ fr n sp V Hn Hi) as (g & t0 & d0 & R0 & V0 & N0 & Hfn & HPn).
  set (h1 := set_num_pages_ (num_pages_ h + 1) h) in *. set (s0 := set_pool t0 (set_hdr h1 s)) in *.
  assert (n <> p) as Hnp by (by intros ->).
  assert (sees s0 (fun q => P q \/ q = n) (ov (<[n := d0]> m) c) (<[n := g]> fr) (n + 1) sp) as V1.
  { eapply view_ext; [|exact V0]. intros q _. apply ov_upd. }
  clear V0. assert (<[n := g]> fr !! p = Some f) as Hfp by by rewrite lookup_insert_ne.
  assert (<[n := g]> fr !! n = Some g) as Hfg by apply lookup_insert_eq.

  pose proof (or_intror eq_refl : (fun q => P q \/ q = n) n) as Pn. pose proof (or_introl Hp : (fun q => P q \/ q = n) p) as Pp.
  node_step V1 Pn Hfg d0 (set_size_node h Lay 0 d0 _ _ _ _ _ ltac:(simpl; lia) N0) (fun _ : IxFileHdr => IxNode.set_size 0) d1 N1 s1 R1 V2.
  node_read V2 Pp Hfp d (fun _ : IxFileHdr => IxNode.get_parent_page_no) (get_parent_node h Lay d _ _ _ _ _ Nd) Q1.
  node_step V2 Pn Hfg d1 (set_parent_node h Lay par d1 _ _ _ _ _ Hpar N1) (fun _ : IxFileHdr => IxNode.set_parent_page_no par) d2 N2 s2 R2 V3.
  node_read V3 Pp Hfp d (fun _ : IxFileHdr => IxNode.is_leaf_page) (get_leaf_node h Lay d _ _ _ _ _ Nd) Q2.
  node_step V3 Pn Hfg d2 (set_leaf_node h Lay true d2 _ _ _ _ _ N2) (fun _ : IxFileHdr => IxNode.set_is_leaf true) d3 N3 s3 R3 V4.
  destruct (tail_entries h Lay d k (length es - k) Hok ltac:(lia)) as (ks & rs & Rk & Rr & Lk & Lr & Et).
  node_read V4 Pp Hfp d (fun h => IxNode.key_ptr h (Z.of_nat k)) Rk Q3. node_read V4 Pp Hfp d (fun h => IxNode.rid_ptr h (Z.of_nat k)) Rr Q4.
  node_step V4 Pn Hfg d3 (insert_pairs_node h Lay 0 (length es - k) ks rs d3 _ _ _ _ _ N3 ltac:(simpl; lia) ltac:(simpl; lia) Lk Lr)
    (fun h => IxNode.insert_pairs h 0 ks rs (Z.of_nat (length es - k))) d4 N4 s4 R4 V5.
  node_step V5 Pp Hfp d (set_size_node h Lay k d _ _ _ _ _ Hk Nd) (fun _ : IxFileHdr => IxNode.set_size (Z.of_nat k)) d5 N5 s5 R5 V6.
  node_read V6 Pn Hfg d4 (fun _ : IxFileHdr => IxNode.is_leaf_page) (get_leaf_node h Lay d4 _ _ _ _ _ N4) Q5.
  pose proof (proj2 (sees_page_no s5 _ _ _ _ _ _ _ V6 Hfp)) as Q6.
  node_step V6 Pn Hfg d4 (set_prev_node h Lay p d4 _ _ _ _ _ Hip N4) (fun _ : IxFileHdr => IxNode.set_prev_leaf p) d6 N6 s6 R6 V7.
  node_read V7 Pp Hfp d5 (fun _ : IxFileHdr => IxNode.get_next_leaf) (get_next_node h Lay d5 _ _ _ _ _ N5) Q7.
  node_step V7 Pn Hfg d6 (set_next_node h Lay nx d6 _ _ _ _ _ Hnx N6) (fun _ : IxFileHdr => IxNode.set_next_leaf nx) d7 N7 s7 R7 V8.
  pose proof (proj2 (sees_page_no s7 _ _ _ _ _ _ _ V8 Hfg)) as Q8.
  node_step V8 Pp Hfp d5 (set_next_node h Lay n d5 _ _ _ _ _ Hin N5) (fun _ : IxFileHdr => IxNode.set_next_leaf n) d8 N8 s8 R8 V9.
  assert (gets ix_hdr s8 = (Ret h1, s8)) as Q9 by done.
  exists g, (ix_pool s8), d8, d7. split_and!.
  - unfold split. rewrite (bind_run _ _ s s (Z.of_nat (length es))).
    2: { exact (ov_get P m c fr n (S sp) s p f d (fun _ => IxNode.get_size) _ d V Hp Hf Hm (get_size_node h Lay d _ _ _ _ _ Nd)). }
    rewrite quot_half. fold k. rewrite (bind_run _ _ _ _ _ R0), (bind_run _ _ _ _ _ R1), (bind_run _ _ _ _ _ Q1), (bind_run _ _ _ _ _ R2).
    rewrite (bind_run _ _ _ _ _ Q2), (bind_run _ _ _ _ _ R3), (bind_run _ _ _ _ _ Q3), (bind_run _ _ _ _ _ Q4).
    rewrite <- (Nat2Z.inj_sub _ _ Hk). rewrite (bind_run _ _ _ _ _ R4), (bind_run _ _ _ _ _ R5), (bind_run _ _ _ _ _ Q5). cbv iota.
    rewrite (bind_run _ _ s5 (set_pool (ix_pool s8) (set_hdr split_hdr s)) tt); [done|].
    rewrite (bind_run _ _ _ _ _ Q6), (bind_run _ _ _ _ _ R6), (bind_run _ _ _ _ _ Q7), (bind_run _ _ _ _ _ R7).
    rewrite (bind_run _ _ _ _ _ Q8), (bind_run _ _ _ _ _ R8), (bind_run _ _ _ _ _ Q9).
    unfold split_hdr. change (last_leaf_ h1) with (last_leaf_ h). by destruct (last_leaf_ h =? p).
  - eapply view_ext; [|exact V9]. intros q _. unfold ov. f_equal.
    destruct (decide (q = n)) as [->|]; [by simplify_map_eq|]. destruct (decide (q = p)) as [->|]; by simplify_map_eq.
  - exact N8.
  - rewrite take_nil, drop_nil in N7. simpl in N7. rewrite app_nil_r, Et, (nd_entries _ _ _ _ _ _ _ Nd) in N7.
    rewrite take_ge in N7 by (rewrite length_drop; lia). exact N7.
  - done.
  - done.
Qed.
End split.

(** One pair, given by a pointer to its key. *)
Lemma insert_pair_node (h : IxFileHdr) (Lay : ix_layout h) (p : nat) (ks key d : list Z) (rid : Rid) par lf pv nx es :
  node h d par lf pv nx es -> (p <= length es)%nat -> (length es + 1 <= cap h)%nat -> (K h <= length ks)%nat -> slice 0 (K h) ks = key ->
  exists d', IxNode.insert_pair h (Z.of_nat p) ks rid d = (Ret tt, d') /\
    node h d' par lf pv nx (take p es ++ (key, Log.rid_bytes rid) :: drop p es).
Proof.
  intros N Hp Hc Hk Ek. assert (length (Log.rid_bytes rid) = 8%nat) as H8 by (unfold Log.rid_bytes; by rewrite length_app, !length_i32_bytes).
  destruct (insert_pairs_node h Lay p 1 ks (Log.rid_bytes rid) d par lf pv nx es N Hp Hc) as (d' & R & N'); [lia|lia|].
  exists d'. split; [exact R|]. cbn [fmap list_fmap seq app] in N'. unfold new_entry in N'. rewrite !Nat.mul_0_l, Ek, slice_all in N' by done. exact N'.
Qed.

(** The bytes from the first key of a node on. *)
Lemma first_key (h : IxFileHdr) (Lay : ix_layout h) (d key v : list Z) par lf pv nx es :
  node h d par lf pv nx ((key, v) :: es) -> exists ks, IxNode.key_ptr h 0 d = (Ret ks, d) /\ (K h <= length ks)%nat /\ slice 0 (K h) ks = key.
Proof.
  intros N. destruct (tail_entries h Lay d 0 1 (nd_ok _ _ _ _ _ _ _ N)) as (ks & rs & Rk & _ & Lk & _ & Et).
  { rewrite (node_size _ _ _ _ _ _ _ N). simpl. lia. }
  exists ks. rewrite (nd_entries _ _ _ _ _ _ _ N) in Et. cbn [fmap list_fmap seq take drop] in Et. injection Et as E1 _.
  split_and!; [exact Rk|lia|]. exact E1.
Qed.

Section root.
Context (s : IH) (Lay : ix_layout (ix_hdr s)) (P : Z -> Prop) (m : gmap Z (list Z)) (c : Z -> list Z) (fr : gmap Z Z) (n : Z) (sp : nat).
Context (p f q g : Z) (dl dr kl vl kr vr : list Z) (pv nx pv' nx' par' : Z) (lf lf' : bool) (el er : list (list Z * list Z)).
Abbreviation h := (ix_hdr s).

Definition root_hdr : IxFileHdr := set_root_page_ n (set_num_pages_ (num_pages_ h + 1) h).

(** [insert_into_parent] when the split node was the root. *)
Lemma root_split (fuel : nat) :
  sees s P (ov m c) fr n (S sp) -> P p -> P q -> p <> q -> fr !! p = Some f -> fr !! q = Some g -> m !! p = Some dl -> m !! q = Some dr ->
  node h dl INVALID_PAGE_ID lf pv nx ((kl, vl) :: el) -> node h dr par' lf' pv' nx' ((kr, vr) :: er) ->
  Disk.page_no_ok n = true -> in_i32 (num_pages_ h + 1) = true ->
  exists t d dl' dr', let s' := set_pool t (set_hdr root_hdr s) in insert_into_parent fuel f g s = (Ret tt, s') /\
    sees s' (fun x => P x \/ x = n) (ov (<[n := d]> (<[q := dr']> (<[p := dl']> m))) c) fr (n + 1) (S sp) /\
    node h dl' n lf pv nx ((kl, vl) :: el) /\ node h dr' n lf' pv' nx' ((kr, vr) :: er) /\
    node h d INVALID_PAGE_ID false 0 0 [(kl, Log.rid_bytes (mkRid p (-1))); (kr, Log.rid_bytes (mkRid q (-1)))] /\ ~ P n.
Proof.
  intros V Hp Hq Hpq Hf Hg Hmp Hmq Nl Nr Hn Hi. destruct (layout_nat h Lay) as (_ & L2 & _).
  assert (in_i32 n = true) as Hin by (unfold Disk.page_no_ok, in_i32, INT32_MIN, INT32_MAX in *; lia).
  destruct (sees_create s Lay P _ fr n sp V Hn Hi) as (r & t0 & d0 & R0 & V0 & N0 & Hfn & HPn).
  set (h1 := set_num_pages_ (num_pages_ h + 1) h) in *. set (s0 := set_pool t0 (set_hdr h1 s)) in *.
  assert (n <> p) as Hnp by (by intros ->). assert (n <> q) as Hnq by (by intros ->).
  assert (sees s0 (fun x => P x \/ x = n) (ov (<[n := d0]> m) c) (<[n := r]> fr) (n + 1) sp) as V1.
  { eapply view_ext; [|exact V0]. intros y _. apply ov_upd. }
  clear V0. assert (<[n := r]> fr !! p = Some f) as Hfp by by rewrite lookup_insert_ne.
  assert (<[n := r]> fr !! q = Some g) as Hfq by by rewrite lookup_insert_ne.
  assert (<[n := r]> fr !! n = Some r) as Hfr by apply lookup_insert_eq.
  pose proof (or_intror eq_refl : (fun x => P x \/ x = n) n) as Pn. pose proof (or_introl Hp : (fun x => P x \/ x = n) p) as Pp.
  pose proof (or_introl Hq : (fun x => P x \/ x = n) q) as Pq.
  node_step V1 Pn Hfr d0 (set_size_node h Lay 0 d0 _ _ _ _ _ ltac:(simpl; lia) N0) (fun _ : IxFileHdr => IxNode.set_size 0) d1 N1 s1 R1 V2.
  node_step V2 Pn Hfr d1 (set_parent_node h Lay INVALID_PAGE_ID d1 _ _ _ _ _ eq_refl N1)
    (fun _ : IxFileHdr => IxNode.set_parent_page_no INVALID_PAGE_ID) d2 N2 s2 R2 V3.
  node_step V3 Pn Hfr d2 (set_leaf_node h Lay false d2 _ _ _ _ _ N2) (fun _ : IxFileHdr => IxNode.set_is_leaf false) d3 N3 s3 R3 V4.
  destruct (first_key h Lay dl kl vl _ _ _ _ _ Nl) as (ks & Rk & Lk & Ek).
  node_read V4 Pp Hfp dl (fun h => IxNode.key_ptr h 0) Rk Q1. pose proof (proj2 (sees_page_no s3 _ _ _ _ _ _ _ V4 Hfp)) as Q2.
  node_step V4 Pn Hfr d3 (insert_pair_node h Lay 0 ks kl d3 (mkRid p (-1)) _ _ _ _ _ N3 ltac:(simpl; lia) ltac:(simpl; lia) Lk Ek)
    (fun h => IxNode.insert_pair h 0 ks (mkRid p (-1))) d4 N4 s4 R4 V5.
  destruct (first_key h Lay dr kr vr _ _ _ _ _ Nr) as (ks' & Rk' & Lk' & Ek').
  node_read V5 Pq Hfq dr (fun h => IxNode.key_ptr h 0) Rk' Q3. pose proof (proj2 (sees_page_no s4 _ _ _ _ _ _ _ V5 Hfq)) as Q4.
  node_step V5 Pn Hfr d4 (insert_pair_node h Lay 1 ks' kr d4 (mkRid q (-1)) _ _ _ _ _ N4 ltac:(simpl; lia) ltac:(simpl; lia) Lk' Ek')
    (fun h => IxNode.insert_pair h 1 ks' (mkRid q (-1))) d5 N5 s5 R5 V6.
  pose proof (proj2 (sees_page_no s5 _ _ _ _ _ _ _ V6 Hfr)) as Q5.
  node_step V6 Pp Hfp dl (set_parent_node h Lay n dl _ _ _ _ _ Hin Nl) (fun _ : IxFileHdr => IxNode.set_parent_page_no n) d6 N6 s6 R6 V7.
  node_step V7 Pq Hfq dr (set_parent_node h Lay n dr _ _ _ _ _ Hin Nr) (fun _ : IxFileHdr => IxNode.set_parent_page_no n) d7 N7 s7 R7 V8.
  assert (update_root_page_no n s7 = (Ret tt, set_hdr root_hdr s7)) as Q6 by done. set (s8 := set_hdr root_hdr s7) in *.
  assert (sees s8 (fun x => P x \/ x = n) (ov (<[q := d7]> (<[p := d6]> (<[n := d5]> (<[n := d4]> (<[n := d3]> (<[n := d2]> (<[n := d1]> (<[n := d0]> m)))))))) c)
    (<[n := r]> fr) (n + 1) sp) as V9 by exact V8.
  destruct (sees_unpin s8 _ _ _ _ _ _ _ V9 Pn Hfr) as (tu & Ru & Vu).
  exists tu, d5, d6, d7. split_and!.
  - assert (is_root_page f s = (Ret true, s)) as Qr
      by exact (ov_get P m c fr n (S sp) s p f dl (fun _ => IxNode.is_root_page) _ dl V Hp Hf Hmp (get_root_node h Lay dl _ _ _ _ _ Nl)).
    destruct fuel; cbn [insert_into_parent]; rewrite (bind_run _ _ _ _ _ Qr); cbv iota.
    all: rewrite (bind_run _ _ _ _ _ R0), (bind_run _ _ _ _ _ R1), (bind_run _ _ _ _ _ R2), (bind_run _ _ _ _ _ R3).
    all: rewrite (bind_run _ _ s3 s3 ks) by exact Q1; rewrite (bind_run _ _ _ _ _ Q2), (bind_run _ _ _ _ _ R4).
    all: rewrite (bind_run _ _ s4 s4 ks') by exact Q3; rewrite (bind_run _ _ _ _ _ Q4), (bind_run _ _ _ _ _ R5).
    all: rewrite (bind_run _ _ _ _ _ Q5), (bind_run _ _ _ _ _ R6), (bind_run _ _ _ _ _ R7), (bind_run _ _ _ _ _ Q6).
    all: rewrite (bind_run _ _ _ _ _ Ru); reflexivity.
  - rewrite delete_insert_id in Vu by done. eapply view_ext; [|exact Vu]. intros y _. unfold ov. f_equal.
    destruct (decide (y = n)) as [->|]; [by simplify_map_eq|]. destruct (decide (y = q)) as [->|]; [by simplify_map_eq|].
    destruct (decide (y = p)) as [->|]; by simplify_map_eq.
  - exact N6.
  - exact N7.
  - exact N5.
  - done.
Qed.
End root.

(** ** The whole operation *)

Lemma quiet_sees (s : IH) (sp : nat) :
  quiet s -> (sp <= pn_spare (ix_pool s))%nat -> (Disk.page_no_ok (pn_count (ix_pool s) (ix_fd s)) = true -> pn_file (ix_pool s) (ix_fd s)) ->
  sees s (page_ok s) (content s) ∅ (pn_count (ix_pool s) (ix_fd s)) sp.
Proof.
  intros Q Hsp Hf. split; try done; [apply Q|]. intros p. rewrite lookup_empty. apply (q_pins _ Q).
Qed.

Lemma sees_quiet (s : IH) P c n sp :
  sees s P c ∅ n (S sp) -> root_latch_ s = false -> rwlock s = ∅ -> index_latch_page_set_ s = [] -> index_deleted_page_set_ s = [] -> quiet s.
Proof.
  intros V H1 H2 H3 H4. split; try done; [apply V| |pose proof (v_spare _ _ _ _ _ _ _ V); lia].
  intros p. unfold pinned, pid. by rewrite (v_pins _ _ _ _ _ _ _ V), lookup_empty.
Qed.

(** A node with nothing above it is left alone by [maintain_parent]. *)
Lemma maintain_parent_root (s : IH) P m c fr n sp p f d lf pv nx es (fuel : nat) (Lay : ix_layout (ix_hdr s)) :
  sees s P (ov m c) fr n sp -> P p -> fr !! p = Some f -> m !! p = Some d -> node (ix_hdr s) d IX_NO_PAGE lf pv nx es ->
  maintain_parent fuel f s = (Ret tt, s).
Proof.
  intros V Hp Hf Hm N.
  assert (get_parent_page_no f s = (Ret IX_NO_PAGE, s)) as R
    by exact (ov_get P m c fr n sp s p f d (fun _ => IxNode.get_parent_page_no) _ d V Hp Hf Hm (get_parent_node _ Lay d _ _ _ _ _ N)).
  destruct fuel; cbn [maintain_parent]; by rewrite (bind_run _ _ _ _ _ R).
Qed.

Section entry.
Context (s : IH) (Lay : ix_layout (ix_hdr s)) (fuel : nat) (key : list Z) (value : Rid).
Abbreviation h := (ix_hdr s).
Abbreviation p := (root_page_ h).
Abbreviation n := (pn_count (ix_pool s) (ix_fd s)).
Context (Q : quiet s) (Hsp : (3 <= pn_spare (ix_pool s))%nat) (Hfile : pn_file (ix_pool s) (ix_fd s)).
Context (Hp : page_ok s p) (Sn : sorted_node h (content s p)) (Hleaf : is_leaf (content s p) = true) (Hpar : parent_no (content s p) = IX_NO_PAGE).
Context (Hk : valid_key h key) (Hno : ~ has_key h (content s p) key) (Hst : ~ stale h (content s p) key) (Hroom : (size (content s p) < cap h)%nat).

(** The state when the leaf has been found, before anything is written. *)
Lemma insert_find : exists f t, let s1 := set_pool t (set_rwlock {[f := Exclusive]} (set_root_latch true s)) in
  find_leaf_page fuel key INSERT true s = (Ret (f, true), s1) /\ sees s1 (page_ok s) (ov {[p := content s p]} (content s)) {[p := f]} n 2.
Proof.
  destruct Q as [Q1 Q2 Q3 Q4 Q5 Q6 Q7]. pose proof (quiet_sees s 3 Q Hsp (fun _ => Hfile)) as V.
  assert (root_lock s = (Ret tt, set_root_latch true s)) as R1.
  { unfold root_lock. erewrite bind_run by reflexivity. by rewrite Q2. }
  set (s0 := set_root_latch true s) in *. assert (sees s0 (page_ok s) (content s) ∅ n 3) as V0 by exact V.
  destruct (sees_fetch s0 _ _ _ _ _ p V0 Hp) as (f & t & R2 & V1); [apply lookup_empty|]. exists f, t.
  set (s1 := set_pool t s0) in *.
  assert (WLock f s1 = (Ret tt, set_rwlock {[f := Exclusive]} s1)) as R3.
  { unfold WLock. erewrite bind_run by reflexivity. change (rwlock s1) with (rwlock s). by rewrite Q3, lookup_empty. }
  set (s2 := set_rwlock {[f := Exclusive]} s1) in *. set (s3 := set_latch_set [f] s2).
  assert (append_index_latch_page_set true f s2 = (Ret tt, s3)) as R4.
  { unfold append_index_latch_page_set, modify, s3. change (index_latch_page_set_ s2) with (index_latch_page_set_ s). by rewrite Q4. }
  assert (sees s3 (page_ok s) (ov {[p := content s p]} (content s)) {[p := f]} n 2) as V3.
  { eapply view_ext; [|exact V1]. intros q _. unfold ov. destruct (decide (q = p)) as [->|Hne]; [by rewrite lookup_singleton_eq|by rewrite lookup_singleton_ne]. }
  assert (is_leaf_page f s3 = (Ret true, s3)) as R5.
  { eapply (ov_get _ _ _ _ _ _ s3 p f (content s p) (fun _ => IxNode.is_leaf_page)); [exact V3|exact Hp|apply lookup_singleton_eq..|].
    rewrite <- Hleaf. apply (is_leaf_run h Lay), Sn. }
  split.
  - unfold find_leaf_page. rewrite (bind_run _ _ _ _ _ R1). erewrite bind_run by reflexivity. rewrite (bind_run _ _ _ _ _ R2).
    change (bool_decide (INSERT = FIND)) with false. change (bool_decide (INSERT <> FIND)) with true. cbv iota.
    rewrite (bind_run _ _ s1 s3 true). 2: { rewrite (bind_run _ _ _ _ _ R3). by rewrite (bind_run _ _ _ _ _ R4). }
    rewrite (bind_run _ _ s3 s3 (f, true)). 2: { destruct fuel; cbn [descend]; by rewrite (bind_run _ _ _ _ _ R5). }
    erewrite bind_run by reflexivity. rewrite mret_run. do 2 f_equal. unfold s3, s2, s1, s0. simpl. unfold set_rwlock, set_pool, set_latch_set. simpl.
    by rewrite Q4.
  - exact V3.
Qed.

(** The end of the operation: release the root latch, the leaf latch and the leaf. *)
Lemma insert_leave (s1 : IH) P c n' sp f : sees s1 P c {[p := f]} n' sp -> P p ->
  root_latch_ s1 = true -> rwlock s1 = {[f := Exclusive]} -> index_latch_page_set_ s1 = [] -> index_deleted_page_set_ s1 = [] ->
  exists s2, (root_unlock ;; unlock_unpin_all_pages true ;; id ← get_page_no f; WUnLock f ;; _ ← unpin f true; mret id) s1 = (Ret p, s2) /\
    sees s2 P c ∅ n' (S sp) /\ quiet s2 /\ ix_hdr s2 = ix_hdr s1 /\ ix_fd s2 = ix_fd s1.
Proof.
  intros V HPp H1 H2 H3 H4. set (a := set_root_latch false s1). set (b := set_latch_set [] a). set (e := set_rwlock ∅ b).
  assert (sees b P c {[p := f]} n' sp) as Vb by exact V. assert (sees e P c {[p := f]} n' sp) as Ve by exact V.
  destruct (sees_unpin e _ _ _ _ _ _ _ Ve HPp (lookup_singleton_eq _ _)) as (t & R & V'). rewrite delete_singleton_eq in V'.
  exists (set_pool t e). split_and!; try done.
  - rewrite (bind_run _ _ s1 a tt). 2: { unfold root_unlock. erewrite bind_run by reflexivity. by rewrite H1. }
    rewrite (bind_run _ _ a b tt).
    2: { unfold unlock_unpin_all_pages. erewrite bind_run by reflexivity. change (index_latch_page_set_ a) with (index_latch_page_set_ s1). by rewrite H3. }
    rewrite (bind_run _ _ _ _ _ (proj2 (sees_page_no b _ _ _ _ _ _ _ Vb (lookup_singleton_eq _ _)))).
    rewrite (bind_run _ _ b e tt).
    2: { unfold WUnLock. erewrite bind_run by reflexivity. change (rwlock b) with (rwlock s1). rewrite H2, lookup_singleton_eq. by rewrite delete_singleton_eq. }
    by rewrite (bind_run _ _ _ _ _ R).
  - by eapply sees_quiet.
Qed.

(** The leaf with the new entry, and what is left to do. *)
Lemma insert_leaf : exists f t r d', let s1 := set_pool t (set_rwlock {[f := Exclusive]} (set_root_latch true s)) in
  insert_entry fuel key value true s =
    ((if Z.of_nat (size (content s p) + 1) =? Z.of_nat (cap h) then
        new_node ← split f; insert_into_parent fuel f new_node ;; follow_last_leaf f new_node ;; _ ← unpin new_node true; mret tt
      else mret tt) ;;
     root_unlock ;; unlock_unpin_all_pages true ;; id ← get_page_no f; WUnLock f ;; _ ← unpin f true; mret id) s1 /\
  sees s1 (page_ok s) (ov {[p := d']} (content s)) {[p := f]} n 2 /\ is_lower h (content s p) key r /\ sorted_node h d' /\
  node h d' IX_NO_PAGE true (prev_no (content s p)) (next_no (content s p))
    (take r (entries h (content s p)) ++ (key, Log.rid_bytes value) :: drop r (entries h (content s p))).
Proof.
  destruct insert_find as (f & t & R1 & V1). set (s1 := set_pool t _) in *.
  destruct (insert_fresh h Lay _ key value Sn Hk Hroom Hno Hst) as (r & d' & Ri & Hr & Sn' & Hh & He).
  assert (node h d' IX_NO_PAGE true (prev_no (content s p)) (next_no (content s p))
    (take r (entries h (content s p)) ++ (key, Log.rid_bytes value) :: drop r (entries h (content s p)))) as N'.
  { eapply node_hdr_same; [|apply Sn'|exact Hh|exact He]. rewrite <- Hleaf, <- Hpar. apply node_self, Sn. }
  destruct (ov_do (page_ok s) {[p := content s p]} (content s) {[p := f]} n 2 s1 p f (content s p) (fun h => IxNode.insert h key value) _ d' V1 Hp
    (lookup_singleton_eq _ _) (lookup_singleton_eq _ _) Ri (nd_ok _ _ _ _ _ _ _ N')) as (t2 & R2 & V2).
  rewrite insert_singleton_eq in V2. set (s2 := set_pool t2 s1) in *.
  pose proof (maintain_parent_root s2 _ _ _ _ _ _ p f d' _ _ _ _ fuel Lay V2 Hp (lookup_singleton_eq _ _) (lookup_singleton_eq _ _) N') as R3.
  pose proof (ov_get _ _ _ _ _ _ s2 p f d' (fun _ => IxNode.get_size) _ d' V2 Hp (lookup_singleton_eq _ _) (lookup_singleton_eq _ _) (get_size_node h Lay d' _ _ _ _ _ N')) as R4.
  exists f, t2, r, d'. split_and!; try done.
  unfold insert_entry. rewrite (bind_run _ _ _ _ _ R1). cbn [fst snd]. rewrite (bind_run _ _ _ _ _ R2), (bind_run _ _ _ _ _ R3).
  rewrite (bind_run _ _ _ _ _ R4). erewrite (bind_run max_size) by reflexivity.
  destruct Hr as [Hr _]. destruct (layout_nat h Lay) as (_ & _ & _ & _ & _ & E).
  replace (length _) with (size (content s p) + 1)%nat by (rewrite length_app, length_take; cbn [length]; rewrite length_drop, length_entries; lia).
  change (IxNode.get_max_size (ix_hdr s2)) with (btree_order_ h + 1). rewrite E. reflexivity.
Qed.

Definition inserted (r : nat) : list (list Z * list Z) :=
  take r (entries h (content s p)) ++ (key, Log.rid_bytes value) :: drop r (entries h (content s p)).

(** The links of the nodes and the header after the insertion; [k] is the new
    height.  Without a split they are as before; with one the new leaf stands
    between the old one and its successor and both hang under the new root. *)
Definition insert_links (s' : IH) (k : nat) : Prop :=
  let links q par lf pv nx := parent_no (content s' q) = par /\ is_leaf (content s' q) = lf /\ prev_no (content s' q) = pv /\ next_no (content s' q) = nx in
  match k with
  | O => ix_hdr s' = h /\ links p IX_NO_PAGE true (prev_no (content s p)) (next_no (content s p))
  | S _ =>
      ix_hdr s' = set_root_page_ (n + 1) (set_num_pages_ (num_pages_ h + 2) (set_last_leaf_ (if last_leaf_ h =? p then n else last_leaf_ h) h)) /\
      links p (n + 1) true (prev_no (content s p)) n /\
      links n (n + 1) true p (next_no (content s p)) /\
      links (n + 1) INVALID_PAGE_ID false 0 0
  end /\
  (forall q, page_ok s q -> q <> p -> page_ok s' q /\ content s' q = content s q) /\
  pn_count (ix_pool s') (ix_fd s') = n + 2 * Z.of_nat k /\ (Disk.page_no_ok (n + 2 * Z.of_nat k) = true -> pn_file (ix_pool s') (ix_fd s')).

(** What a state after the insertion looks like. *)
Definition insert_post (s' : IH) (k r : nat) : Prop :=
  quiet s' /\ is_lower h (content s p) key r /\ ix_fd s' = ix_fd s /\ same_shape (ix_hdr s') h /\ ix_layout (ix_hdr s') /\ (3 <= pn_spare (ix_pool s'))%nat /\
  tree (ix_hdr s') (content s') (page_ok s') k (root_page_ (ix_hdr s')) (inserted r) /\ insert_links s' k.

Lemma seen_page (s' : IH) (P : Z -> Prop) (c : Z -> list Z) fr n' sp q : sees s' P c fr n' sp -> P q -> content s' q = c q.
Proof. intros V Hq. exact (proj2 (v_pages _ _ _ _ _ _ _ V q Hq)). Qed.

(** A state that shows the pages of [s] changed by [m]. *)
Lemma sees_tree (s' : IH) (P : Z -> Prop) (m : gmap Z (list Z)) (c : Z -> list Z) fr n' sp hh k q es :
  sees s' P (ov m c) fr n' sp -> tree hh (ov m c) P k q es -> tree hh (content s') (page_ok s') k q es.
Proof. intros V. apply tree_ext. intros x Hx. destruct (v_pages _ _ _ _ _ _ _ V x Hx) as [H1 H2]. split; [exact H1|exact H2]. Qed.

Lemma insert_no_split : (size (content s p) + 1 < cap h)%nat ->
  exists s' r, insert_entry fuel key value true s = (Ret p, s') /\ insert_post s' 0 r.
Proof.
  intros Hc. destruct insert_leaf as (f & t & r & d' & R & V & Hr & Sn' & N'). set (s1 := set_pool t _) in *.
  rewrite (proj2 (Z.eqb_neq _ _)) in R by lia. erewrite bind_run in R by reflexivity.
  destruct Q as [Q1 Q2 Q3 Q4 Q5 Q6 Q7].
  destruct (insert_leave s1 _ _ _ _ f V Hp eq_refl eq_refl Q4 Q5) as (s2 & R2 & V2 & Q' & Eh & Ef).
  exists s2, r. split; [by rewrite R|]. unfold insert_post. rewrite Eh. split_and!; [done|done|done|done|done|apply (v_spare _ _ _ _ _ _ _ V2)| |].
  2: { unfold insert_links. cbn [Z.of_nat Z.mul]. rewrite Z.add_0_r. split; [|split; [|split; [apply (v_count _ _ _ _ _ _ _ V2)|apply (v_file _ _ _ _ _ _ _ V2)]]].
    - split; [by rewrite Eh|]. rewrite (seen_page _ _ _ _ _ _ _ V2 Hp). unfold ov. rewrite lookup_singleton_eq. cbn [default]. split_and!; apply N'.
    - intros q Hq Hne. split; [exact (proj1 (v_pages _ _ _ _ _ _ _ V2 q Hq))|]. rewrite (seen_page _ _ _ _ _ _ _ V2 Hq). unfold ov. by rewrite lookup_singleton_ne. }
  eapply sees_tree; [exact V2|]. cbn [tree]. unfold ov at 1 2 3. change (root_page_ (ix_hdr s1)) with p.
  rewrite lookup_singleton_eq. cbn [default]. split_and!; [done|exact Sn'|apply N'|]. unfold inserted. symmetry. exact (nd_entries _ _ _ _ _ _ _ N').
Qed.

(** The full leaf is halved and the halves get a root above them. *)
Lemma insert_split : (size (content s p) + 1 = cap h)%nat ->
  Disk.page_no_ok n = true -> Disk.page_no_ok (n + 1) = true -> 0 <= num_pages_ h -> in_i32 (num_pages_ h + 2) = true ->
  exists s' r, insert_entry fuel key value true s = (Ret p, s') /\ insert_post s' 1 r.
Proof.
  intros Hc Hn Hn1 H0p Hi. destruct insert_leaf as (f & t & r & d' & R & V & Hr & Sn' & N'). set (s1 := set_pool t _) in *.
  rewrite (proj2 (Z.eqb_eq _ _)) in R by lia. fold (inserted r) in N'.
  destruct (layout_nat h Lay) as (_ & L2 & _). pose proof Sn as [(_ & H0 & _) _ _]. destruct (pn_exists_data _ _ Hp) as [Hd Hpn]. simpl in Hpn.
  assert (in_i32 p = true /\ in_i32 n = true /\ in_i32 (num_pages_ h + 1) = true) as (Ip & In & Ih).
  { unfold data_page, Disk.page_no_ok, in_i32, INT32_MIN, INT32_MAX in *. simpl in *. lia. }
  assert (length (inserted r) = cap h) as Hl.
  { destruct Hr as [Hr _]. unfold inserted. rewrite length_app, length_take. cbn [length]. rewrite length_drop, length_entries. lia. }
  destruct (split_leaf s1 Lay (page_ok s) {[p := d']} (content s) {[p := f]} n 1 p f d' _ _ _ _ V Hp (lookup_singleton_eq _ _) (lookup_singleton_eq _ _) N' Hn Ih
    eq_refl (i32_val_range _) Ip) as (g & t2 & dl & dr & R2 & V2 & Nl & Nr & Hfn & HPn). set (k := (length (inserted r) / 2)%nat) in *.
  assert (0 < k < length (inserted r))%nat as Hkk.
  { unfold k. split; [apply Nat.div_str_pos; lia|apply Nat.div_lt; lia]. }
  assert (length (take k (inserted r)) <> 0%nat /\ length (drop k (inserted r)) <> 0%nat) as [T1 T2] by (rewrite length_take, length_drop; lia).
  destruct (take k (inserted r)) as [|[kl vl] el] eqn:El; [done|]. destruct (drop k (inserted r)) as [|[kr vr] er] eqn:Er; [done|].
  assert (inserted r = ((kl, vl) :: el) ++ (kr, vr) :: er) as Ei by (rewrite <- El, <- Er; by rewrite take_drop).
  pose proof (sorted_node_keys h d' _ _ _ _ _ N' Sn') as Hks. rewrite Ei in Hks. clear T1 T2. set (s2 := set_pool t2 _) in *. assert (n <> p) as Hnp by (intros E; apply HPn; rewrite E; exact Hp).
  assert (ix_layout (ix_hdr s2)) as Lay2 by by apply (shape_layout h).
  assert (same_shape (ix_hdr s2) h) as Sh2 by done.
  destruct (root_split s2 Lay2 (fun q => page_ok s q \/ q = n) _ _ _ (n + 1) 0 p f n g dl dr kl vl kr vr (prev_no (content s p)) n p (next_no (content s p)) IX_NO_PAGE true true el er fuel V2 (or_introl Hp) (or_intror eq_refl)
    (not_eq_sym Hnp)) as (t3 & d3 & dl' & dr' & R3 & V3 & Nl' & Nr' & Nn & HPn1).
  { by simplify_map_eq. } { by simplify_map_eq. } { by simplify_map_eq. } { by simplify_map_eq. } { by apply (shape_node h). } { by apply (shape_node h). } { done. }
  { change (num_pages_ (ix_hdr s2)) with (num_pages_ h + 1). by rewrite <- Z.add_assoc. }
  set (s3 := set_pool t3 _) in *.
  assert (<[n:=g]> ({[p:=f]} : gmap Z Z) !! p = Some f) as Hfp by by simplify_map_eq.
  assert (<[n:=g]> ({[p:=f]} : gmap Z Z) !! n = Some g) as Hfg by by simplify_map_eq.
  assert (follow_last_leaf f g s3 = (Ret tt, s3)) as R4.
  { unfold follow_last_leaf. rewrite (bind_run _ _ _ _ _ (proj2 (sees_page_no s3 _ _ _ _ _ _ _ V3 Hfp))). erewrite bind_run by reflexivity.
    rewrite (proj2 (Z.eqb_neq _ _)); [done|]. change (last_leaf_ (ix_hdr s3)) with (if last_leaf_ h =? p then n else last_leaf_ h).
    destruct (Z.eqb_spec (last_leaf_ h) p); lia. }
  destruct (sees_unpin s3 _ _ _ _ _ _ _ V3 (or_introl (or_intror eq_refl)) Hfg) as (t4 & R5 & V4). rewrite delete_insert_id in V4 by by simplify_map_eq.
  set (s4 := set_pool t4 s3) in *. destruct Q as [Q1 Q2 Q3 Q4 Q5 Q6 Q7].
  destruct (insert_leave s4 _ _ _ _ f V4 (or_introl (or_introl Hp)) eq_refl eq_refl Q4 Q5) as (s5 & R6 & V5 & Q' & Eh & Ef).
  assert (n + 1 <> p) as Hnp1 by (intros E; apply HPn1; rewrite E; by left). assert (n + 1 <> n) as Hnn by lia.
  exists s5, r. split.
  - rewrite R. rewrite (bind_run _ _ s1 s4 tt); [exact R6|].
    rewrite (bind_run _ _ _ _ _ R2), (bind_run _ _ _ _ _ R3), (bind_run _ _ _ _ _ R4), (bind_run _ _ _ _ _ R5). reflexivity.
  - unfold insert_post. rewrite Eh. split_and!; [done|done|done|done|by apply (shape_layout h)|apply (v_spare _ _ _ _ _ _ _ V5)| |].
    2: { unfold insert_links. change (n + 2 * Z.of_nat 1) with (n + (1 + 1)). rewrite Z.add_assoc. split; [|split; [|split; [apply (v_count _ _ _ _ _ _ _ V5)|apply (v_file _ _ _ _ _ _ _ V5)]]].
      - split; [rewrite Eh; unfold s4, s3, root_hdr; cbn [ix_hdr set_pool set_hdr]; unfold s2, split_hdr; cbn [ix_hdr set_pool set_hdr]; unfold set_root_page_, set_num_pages_, set_last_leaf_; cbn; f_equal; lia|].
        pose proof (or_introl (or_introl Hp) : (fun x => (page_ok s x \/ x = n) \/ x = n + 1) p) as P1.
        pose proof (or_introl (or_intror eq_refl) : (fun x => (page_ok s x \/ x = n) \/ x = n + 1) n) as P2. pose proof (or_intror eq_refl : (fun x => (page_ok s x \/ x = n) \/ x = n + 1) (n + 1)) as P3.
        rewrite (seen_page _ _ _ _ _ _ _ V5 P1), (seen_page _ _ _ _ _ _ _ V5 P2), (seen_page _ _ _ _ _ _ _ V5 P3). unfold ov. simplify_map_eq. split_and!; first [apply Nl'|apply Nr'|apply Nn].
      - intros q Hq Hne. pose proof (or_introl (or_introl Hq) : (fun x => (page_ok s x \/ x = n) \/ x = n + 1) q) as P1. split; [exact (proj1 (v_pages _ _ _ _ _ _ _ V5 q P1))|].
        rewrite (seen_page _ _ _ _ _ _ _ V5 P1). unfold ov. assert (q <> n) by (by intros ->). assert (q <> n + 1) by (intros ->; apply HPn1; by left). by simplify_map_eq. }
    apply (shape_tree h); [done|]. eapply sees_tree; [exact V5|]. change (root_page_ (ix_hdr s4)) with (n + 1). rewrite Ei.
    refine (two_leaves h Lay _ _ (n + 1) p n _ _ _ _ _ _ _ _ _ kl vl kr vr el er _ _ _ Ip In _ _ _ _);
      [by right|by left; left|by left; right| | | |]; unfold ov; simplify_map_eq.
    + exact (shape_node _ h Sh2 _ _ _ _ _ _ Nl').
    + exact (shape_node _ h Sh2 _ _ _ _ _ _ Nr').
    + exact (shape_node _ h Sh2 _ _ _ _ _ _ Nn).
    + exact Hks.
Qed.

End entry.

End insert.
End IxInsert.
