(* ===== verification/Values.v ===== *)
(** * Values and comparisons ([src/src/common/common.h], [datetime_utils.hpp])

    A [Value] is a literal of a statement or a column read from a record.
    [init_raw] turns it into the bytes of a column, [load_raw] reads it back,
    [binop] compares two of them. *)

From Stdlib Require Import SpecFloat.
From S2P Require Import Prelude Bytes Disk Txn Log IxDefs.

(** The union of [int_val], [bigint_val] and [float_val] is its eight bytes;
    [raw] is the buffer of the record the pointer refers to.  Strings are their
    bytes. *)
Record Value : Type := mkValue {
  v_type : ColType;
  v_num : list Z;
  datetime_val : list Z;
  str_val : list Z;
  raw : option (list Z)
}.

Definition int_val (v : Value) : Z := i32_val (slice 0 4 (v_num v)).
Definition bigint_val (v : Value) : Z := i64_val (slice 0 8 (v_num v)).
Definition float_val (v : Value) : spec_float := f32_of_bits (u32_val (slice 0 4 (v_num v))).

(** A value of type [t] whose other fields are as after construction; [g] is
    what the union happens to hold. *)
Definition blank (g : list Z) (t : ColType) : Value := mkValue t g [] [] None.

Definition set_num (t : ColType) (x : list Z) (v : Value) : Value :=
  mkValue t (splice 0 x (v_num v)) (datetime_val v) (str_val v) (raw v).
Definition set_raw (r : option (list Z)) (v : Value) : Value :=
  mkValue (v_type v) (v_num v) (datetime_val v) (str_val v) r.
Definition set_int (int_val_ : Z) (v : Value) : Value := set_num TYPE_INT (i32_bytes int_val_) v.
Definition set_bigint (bigint_val_ : Z) (v : Value) : Value := set_num TYPE_BIGINT (i64_bytes bigint_val_) v.
(** The argument is given by its bits. *)
Definition set_float (bits : Z) (v : Value) : Value := set_num TYPE_FLOAT (u32_bytes bits) v.
Definition set_str (str_val_ : list Z) (v : Value) : Value :=
  mkValue TYPE_STRING (v_num v) (datetime_val v) str_val_ (raw v).
Definition set_datetime (datetime_val_ : list Z) (v : Value) : Value :=
  mkValue TYPE_DATETIME (v_num v) datetime_val_ (str_val v) (raw v).

Definition write (o : Z) (x l : list Z) : outcome (list Z) := or_stuck OutOfBounds (mem_write o x l).
Definition read (o n : Z) (l : list Z) : outcome (list Z) := or_stuck OutOfBounds (mem_read o n l).

(** [memset] to zero and [memcpy] of a string; the length tested is that of
    [str_val] for both string types. *)
Definition put_string (len : Z) (v : Value) (x buf : list Z) : outcome (list Z) :=
  if len <? Z.of_nat (length (str_val v)) then Throw StringOverflowError
  else b ← write 0 (replicate (Z.to_nat len) 0) buf; write 0 x b.

(** [g] is what fresh memory happens to hold. *)
Definition init_raw (g len : Z) (v : Value) : outcome Value :=
  let buf := default (replicate (Z.to_nat len) g) (raw v) in
  b ← match v_type v with
      | TYPE_INT => _ ← ensure AssertFailed (4 <=? len);
          if len =? 4 then write 0 (i32_bytes (int_val v)) buf else write 0 (i64_bytes (int_val v)) buf
      | TYPE_BIGINT => _ ← ensure AssertFailed (len =? 8); write 0 (i64_bytes (bigint_val v)) buf
      | TYPE_FLOAT => _ ← ensure AssertFailed (len =? 4); write 0 (slice 0 4 (v_num v)) buf
      | TYPE_DATETIME => put_string len v (datetime_val v) buf
      | TYPE_STRING => put_string len v (str_val v) buf
      end;
  Ret (set_raw (Some b) v).

(** [data] is the memory from the pointer on. *)
Definition load_raw (len : Z) (data : list Z) (v : Value) : outcome Value :=
  _ ← ensure AssertFailed (bool_decide (raw v = None));
  match v_type v with
  | TYPE_INT => _ ← ensure AssertFailed (len =? 4); x ← read 0 4 data; Ret (set_num TYPE_INT x v)
  | TYPE_BIGINT => _ ← ensure AssertFailed (len =? 8); x ← read 0 8 data; Ret (set_num TYPE_BIGINT x v)
  | TYPE_FLOAT => _ ← ensure AssertFailed (len =? 4); x ← read 0 4 data; Ret (set_num TYPE_FLOAT x v)
  | TYPE_DATETIME =>
      if len <? Z.of_nat (length (str_val v)) then Throw StringOverflowError
      else x ← read 0 len data; Ret (set_datetime x v)
  | TYPE_STRING =>
      if len <? Z.of_nat (length (str_val v)) then Throw StringOverflowError
      else x ← read 0 len data; Ret (set_str x v)
  end.

(** ** Conditions *)

Inductive CompOp : Type := OP_EQ | OP_NE | OP_LT | OP_GT | OP_LE | OP_GE.
#[export] Instance CompOp_eq_dec : EqDecision CompOp.
Proof. solve_decision. Defined.

Record TabCol : Type := mkTabCol { tc_tab_name : string; tc_col_name : string }.
#[export] Instance TabCol_eq_dec : EqDecision TabCol.
Proof. solve_decision. Defined.

Record Condition : Type := mkCond {
  lhs_col : TabCol;
  c_op : CompOp;
  is_rhs_val : bool;
  rhs_col : TabCol;
  rhs_val : Value
}.

Record SetClause : Type := mkSet { sc_lhs : TabCol; sc_rhs : Value; is_selfadd : bool }.

(** The rows of the table, by the code of the first type. *)
Definition legal_binop (a : ColType) : list ColType :=
  match a with
  | TYPE_INT => [TYPE_INT; TYPE_BIGINT; TYPE_FLOAT]
  | TYPE_BIGINT => [TYPE_INT; TYPE_BIGINT; TYPE_FLOAT]
  | TYPE_FLOAT => [TYPE_INT; TYPE_BIGINT; TYPE_FLOAT]
  | TYPE_STRING => [TYPE_DATETIME; TYPE_STRING]
  | TYPE_DATETIME => [TYPE_DATETIME]
  end.
Definition is_compatible_type (a b : ColType) : bool := bool_decide (b ∈ legal_binop a).

(** [int] and [int64_t] operands; the other one of a mixed pair is widened. *)
Definition op_int (op : CompOp) (a b : Z) : bool :=
  match op with
  | OP_EQ => a =? b | OP_NE => negb (a =? b) | OP_LT => a <? b | OP_GT => b <? a | OP_LE => a <=? b | OP_GE => b <=? a
  end.
(** [float] operands, an integer being converted to [float] first. *)
Definition float_of_int (z : Z) : spec_float := binary_normalize 24 128 z 0 false.
Definition op_float (op : CompOp) (a b : spec_float) : bool :=
  match op with
  | OP_EQ => SFeqb a b | OP_NE => negb (SFeqb a b) | OP_LT => SFltb a b | OP_GT => SFltb b a | OP_LE => SFleb a b
  | OP_GE => SFleb b a
  end.

(** The bytes up to the first zero, and [strcmp] (its sign). *)
Fixpoint cstr (s : list Z) : list Z :=
  match s with [] => [] | x :: s => if x =? 0 then [] else x :: cstr s end.
Fixpoint str_order (a b : list Z) : Z :=
  match a, b with
  | [], [] => 0
  | [], _ :: _ => -1
  | _ :: _, [] => 1
  | x :: a, y :: b => if x <? y then -1 else if y <? x then 1 else str_order a b
  end.
Definition strcmp (a b : list Z) : Z := str_order (cstr a) (cstr b).
Definition op_str (op : CompOp) (a b : list Z) : bool := op_int op (strcmp a b) 0.

Definition incompatible {A} (a b : ColType) : outcome A := Throw (IncompatibleTypeError (coltype2str a) (coltype2str b)).

Definition binop (op : CompOp) (lval rval : Value) : outcome bool :=
  match v_type lval, v_type rval with
  | TYPE_INT, TYPE_INT => Ret (op_int op (int_val lval) (int_val rval))
  | TYPE_INT, TYPE_FLOAT => Ret (op_float op (float_of_int (int_val lval)) (float_val rval))
  | TYPE_INT, TYPE_BIGINT => Ret (op_int op (int_val lval) (bigint_val rval))
  | TYPE_BIGINT, TYPE_INT => Ret (op_int op (bigint_val lval) (int_val rval))
  | TYPE_BIGINT, TYPE_FLOAT => Ret (op_float op (float_of_int (bigint_val lval)) (float_val rval))
  | TYPE_BIGINT, TYPE_BIGINT => Ret (op_int op (bigint_val lval) (bigint_val rval))
  | TYPE_FLOAT, TYPE_INT => Ret (op_float op (float_val lval) (float_of_int (int_val rval)))
  | TYPE_FLOAT, TYPE_FLOAT => Ret (op_float op (float_val lval) (float_val rval))
  | TYPE_FLOAT, TYPE_BIGINT => Ret (op_float op (float_val lval) (float_of_int (bigint_val rval)))
  | TYPE_DATETIME, TYPE_STRING => Ret (op_str op (datetime_val lval) (str_val rval))
  | TYPE_DATETIME, TYPE_DATETIME => Ret (op_str op (datetime_val lval) (datetime_val rval))
  | TYPE_STRING, TYPE_STRING => Ret (op_str op (str_val lval) (str_val rval))
  | TYPE_STRING, TYPE_DATETIME => Ret (op_str op (str_val lval) (datetime_val rval))
  | a, b => incompatible a b
  end.

(** ** Date and time literals *)

(** [string::substr] *)
Definition substr (pos n : nat) (s : list Z) : outcome (list Z) :=
  if (length s <? pos)%nat then Throw OutOfRange else Ret (slice pos n s).

Definition is_space (c : Z) : bool := (c =? 32) || ((9 <=? c) && (c <=? 13)).
Definition is_digit (c : Z) : bool := (48 <=? c) && (c <=? 57).
Fixpoint skip_spaces (s : list Z) : list Z :=
  match s with [] => [] | c :: s' => if is_space c then skip_spaces s' else s end.
Fixpoint take_digits (s : list Z) : list Z :=
  match s with [] => [] | c :: s' => if is_digit c then c :: take_digits s' else [] end.
Definition digits_val (s : list Z) : Z := foldl (fun n c => 10 * n + (c - 48)) 0 s.

(** [std::stoull]: leading white space, a sign, then digits; a minus sign
    negates modulo 2^64. *)
Definition stoull (s : list Z) : outcome Z :=
  let s := skip_spaces s in
  let '(neg, s) := match s with 45 :: s' => (true, s') | 43 :: s' => (false, s') | _ => (false, s) end in
  match take_digits s with
  | [] => Throw InvalidArgument
  | d => let n := digits_val d in
         if 2 ^ 64 <=? n then Throw OutOfRange else Ret (if (neg : bool) then wrap_u 64 (- n) else n)
  end.

(** The test the code makes for February. *)
Definition long_february (year : Z) : bool :=
  ((year mod 4 =? 0) && (year mod 100 =? 0)) || (year mod 400 =? 0).

Definition is_valid_day (year month day : Z) : bool :=
  if (month =? 4) || (month =? 6) || (month =? 9) || (month =? 11) then negb (30 <? day)
  else if month =? 2 then (if long_february year then negb (29 <? day) else negb (28 <? day))
  else true.

Definition to_bcd (datetime : list Z) : outcome (list Z) :=
  let field pos n := x ← substr pos n datetime; stoull x in
  year ← field 0%nat 4%nat;
  month ← field 5%nat 2%nat;
  day ← field 8%nat 2%nat;
  hour ← field 11%nat 2%nat;
  min ← field 14%nat 2%nat;
  sec ← field 17%nat 2%nat;
  if (year <? 1000) || (9999 <? year) || (month <? 1) || (12 <? month) || (day <? 1) || (31 <? day) ||
     (hour <? 0) || (23 <? hour) || (min <? 0) || (59 <? min) || (sec <? 0) || (59 <? sec)
  then Throw (InternalError "Illegal datatime.")
  else if negb (is_valid_day year month day) then Throw (InternalError "Illegal datatime.")
  else Ret datetime.
