(* ===== verification/ValuesSpec.v ===== *)
(** * Values: what is stored is what is compared

    A value as a number or a text ([sql_value]) with its comparisons, and that
    [binop] computes them; what storing a literal in a column and reading it back
    makes of it, for every pair of types; comparing two columns as values agrees
    with the order of the index on their bytes. *)

From Stdlib Require Import SpecFloat.
From S2P Require Import Prelude Bytes Disk Txn Log IxDefs IxCompare Values.

Module ValuesSpec.

(** ** Buffers *)

Lemma buf_write_run (x l : list Z) : (length x <= length l)%nat -> write 0 x l = Ret (x ++ drop (length x) l).
Proof.
  intros H. unfold write, mem_write. change (0 <=? 0) with true. rewrite (proj2 (Z.leb_le _ _)) by lia. reflexivity.
Qed.

Lemma write_all (x l : list Z) : length x = length l -> write 0 x l = Ret x.
Proof. intros H. rewrite buf_write_run by lia. by rewrite drop_ge, app_nil_r by lia. Qed.

Lemma read_run (n : Z) (x rest : list Z) : Z.of_nat (length x) = n -> read 0 n (x ++ rest) = Ret x.
Proof. intros H. unfold read. by rewrite mem_read_prefix. Qed.

Lemma read_exact (n : Z) (x : list Z) : Z.of_nat (length x) = n -> read 0 n x = Ret x.
Proof. intros H. rewrite <- (app_nil_r x) at 1. by apply read_run. Qed.

Lemma put_string_run (len : Z) (v : Value) (x buf : list Z) :
  Z.of_nat (length (str_val v)) <= len -> Z.of_nat (length x) <= len -> length buf = Z.to_nat len ->
  put_string len v x buf = Ret (x ++ replicate (Z.to_nat len - length x) 0).
Proof.
  intros H1 H2 H3. unfold put_string. rewrite (proj2 (Z.ltb_ge _ _)) by lia.
  rewrite write_all by (rewrite length_replicate; lia). cbn. rewrite buf_write_run by (rewrite length_replicate; lia).
  by rewrite drop_replicate.
Qed.

(** ** C strings *)

Lemma cstr_pad (x : list Z) (n : nat) : cstr (x ++ replicate n 0) = cstr x.
Proof. induction x as [|c x IH]; simpl; [by destruct n|]. by destruct (c =? 0); [|rewrite IH]. Qed.

(** The bytes after the end of the string are zero. *)
Definition padded (x : list Z) : Prop := x = cstr x ++ replicate (length x - length (cstr x)) 0.

Lemma cstr_nonzero (x : list Z) : Forall (fun c => c <> 0) (cstr x).
Proof. induction x as [|c x IH]; simpl; [done|]. destruct (Z.eqb_spec c 0); [done|]. by constructor. Qed.

Lemma memcmp_pad (a b : list Z) (i j : nat) :
  Forall (fun c => c <> 0) a -> Forall (fun c => c <> 0) b -> Forall (fun c => 0 <= c) a -> Forall (fun c => 0 <= c) b ->
  (length a + i = length b + j)%nat -> memcmp (a ++ replicate i 0) (b ++ replicate j 0) = str_order a b.
Proof.
  revert b. induction a as [|x a IH]; intros [|y b] Ha Hb Pa Pb Hl; simpl.
  - simpl in Hl. subst j. apply memcmp_refl.
  - inv Hb. inv Pb. destruct i as [|i]; [simpl in Hl; lia|]. simpl. by rewrite (proj2 (Z.ltb_lt 0 y)) by lia.
  - inv Ha. inv Pa. destruct j as [|j]; [simpl in Hl; lia|]. simpl. rewrite (proj2 (Z.ltb_ge x 0)) by lia. by rewrite (proj2 (Z.ltb_lt 0 x)) by lia.
  - inv Ha. inv Hb. inv Pa. inv Pb. destruct (x <? y), (y <? x); try done. apply IH; simpl in Hl; done || lia.
Qed.

Lemma memcmp_strcmp (x y : list Z) :
  padded x -> padded y -> length x = length y -> Forall (fun b => is_byte b = true) x -> Forall (fun b => is_byte b = true) y ->
  memcmp x y = strcmp x y.
Proof.
  intros Px Py Hl Bx By. assert (forall z, Forall (fun b => is_byte b = true) z -> (length (cstr z) <= length z)%nat /\ Forall (fun c => 0 <= c) (cstr z)) as H.
  { induction z as [|c z IH]; intros Hz; simpl; [done|]. inv Hz. destruct (c =? 0); [split; [simpl; lia|done]|]. destruct IH; [done|].
    split; [simpl; lia|]. constructor; [unfold is_byte in *; lia|done]. }
  destruct (H x Bx) as [Lx Nx], (H y By) as [Ly Ny]. 
  transitivity (memcmp (cstr x ++ replicate (length x - length (cstr x)) 0) (cstr y ++ replicate (length y - length (cstr y)) 0)); [by f_equal|].
  apply memcmp_pad; try done; try apply cstr_nonzero. lia.
Qed.

(** ** Floats *)

Lemma SFcompare_antisym (a b : spec_float) : SFcompare b a = CompOpp <$> SFcompare a b.
Proof.
  destruct a as [sa|sa| |sa ma ea], b as [sb|sb| |sb mb eb]; try (by destruct sa); try (by destruct sb); try (by destruct sa, sb); try done.
  simpl. destruct sa, sb; try done; rewrite (Z.compare_antisym ea eb); destruct (Z.compare ea eb) eqn:E; simpl; try done.
  - rewrite <- (Pos.compare_cont_antisym _ _ Eq). by destruct (Pos.compare_cont Eq ma mb).
  - rewrite <- (Pos.compare_cont_antisym _ _ Eq). by destruct (Pos.compare_cont Eq ma mb).
Qed.

Lemma SFcompare_total (a b : spec_float) : a <> S754_nan -> b <> S754_nan -> is_Some (SFcompare a b).
Proof.
  intros Ha Hb. destruct a as [sa|sa| |sa ma ea], b as [sb|sb| |sb mb eb]; simpl; try done; try (by destruct sa); try (by destruct sb); try (by destruct sa, sb).
Qed.

Lemma op_float_cmp (op : CompOp) (a b : spec_float) : a <> S754_nan -> b <> S754_nan -> op_float op a b = op_int op (cmpF a b) 0.
Proof.
  intros Ha Hb. destruct (SFcompare_total a b Ha Hb) as [c Hc]. pose proof (SFcompare_antisym a b) as Hr. rewrite Hc in Hr.
  unfold op_float, cmpF, three_way, SFeqb, SFltb, SFleb. rewrite Hr, Hc. by destruct op, c.
Qed.

Lemma f32_not_nan (b : Z) : 0 <= b < 2 ^ 32 -> f32_nan b = false -> f32_of_bits b <> S754_nan.
Proof. intros Hb Hn. by destruct (f32_shape b Hb Hn) as [[_ ->]|[(_ & _ & ->)|(p & -> & _)]]. Qed.

Lemma op_int_cmp (op : CompOp) (a b : Z) : op_int op a b = op_int op (cmpZ a b) 0.
Proof. unfold cmpZ, three_way. destruct op; simpl; destruct (Z.ltb_spec a b), (Z.ltb_spec b a); simpl; lia. Qed.

Lemma col_compare_some (c : ColType * Z) (x y : list Z) : col_ok c -> Z.of_nat (length x) = c.2 -> Z.of_nat (length y) = c.2 ->
  is_Some (ix_compare_col x y c.1 c.2).
Proof.
  intros Hc Hx Hy. unfold col_ok, ix_compare_col in *. destruct (c.1); rewrite !mem_read_exact by lia; by eexists.
Qed.

(** ** Storing and loading *)

(** Value [v] may be stored in a column of type [t] and length [len]; an [INT]
    literal also in a [BIGINT] column, a [DATETIME] also in a string column. *)
Definition storable (t : ColType) (len : Z) (v : Value) : Prop :=
  length (v_num v) = 8%nat /\ raw v = None /\ Z.of_nat (length (str_val v)) <= len /\
  match v_type v, t with
  | TYPE_INT, TYPE_INT | TYPE_FLOAT, TYPE_FLOAT => len = 4
  | TYPE_INT, TYPE_BIGINT | TYPE_BIGINT, TYPE_BIGINT => len = 8
  | TYPE_STRING, TYPE_STRING => True
  | TYPE_DATETIME, TYPE_DATETIME | TYPE_DATETIME, TYPE_STRING => Z.of_nat (length (datetime_val v)) <= len
  | _, _ => False
  end.

(** The column [v] is stored as. *)
Definition column_of (len : Z) (v : Value) : list Z :=
  let pad x := x ++ replicate (Z.to_nat len - length x) 0 in
  match v_type v with
  | TYPE_INT => if len =? 4 then i32_bytes (int_val v) else i64_bytes (int_val v)
  | TYPE_BIGINT => i64_bytes (bigint_val v)
  | TYPE_FLOAT => slice 0 4 (v_num v)
  | TYPE_DATETIME => pad (datetime_val v)
  | TYPE_STRING => pad (str_val v)
  end.

Lemma init_raw_run (g len : Z) (t : ColType) (v : Value) : storable t len v ->
  init_raw g len v = Ret (set_raw (Some (column_of len v)) v) /\ Z.of_nat (length (column_of len v)) = len.
Proof.
  intros (Hn & Hr & Hs & Ht). unfold init_raw, column_of. rewrite Hr. simpl default.
  assert (length (slice 0 4 (v_num v)) = 4%nat) as L4 by (apply length_slice; lia).
  destruct (v_type v) eqn:Ev, t; try done; subst; simpl ensure; cbn [mbind outcome_bind].
  all: try (rewrite write_all by (rewrite ?length_i32_bytes, ?length_i64_bytes, ?L4, length_replicate; done)).
  all: try (rewrite put_string_run by (rewrite ?length_replicate; lia)).
  all: split; [done|]; cbv [Z.eqb Pos.eqb]; rewrite ?length_i32_bytes, ?length_i64_bytes, ?length_app, ?length_replicate; lia.
Qed.

Lemma int_val_range (v : Value) : in_i32 (int_val v) = true.
Proof. apply i32_val_range. Qed.

(** Loading a column; [g] is what the union of the fresh value holds. *)
Lemma load_raw_run (g : list Z) (len : Z) (t : ColType) (x rest : list Z) :
  Z.of_nat (length x) = len -> col_ok (t, len) -> load_raw len (x ++ rest) (blank g t) =
  Ret (match t with TYPE_DATETIME => set_datetime x (blank g t) | TYPE_STRING => set_str x (blank g t) | _ => set_num t x (blank g t) end).
Proof.
  intros Hx Hc. unfold load_raw. cbn [raw blank v_type]. rewrite bool_decide_eq_true_2 by done. cbn [ensure mbind outcome_bind].
  unfold col_ok in Hc. cbn [fst snd] in Hc. destruct t; subst len; cbn [blank str_val length].
  - rewrite Hc. change (4 =? 4) with true. cbn [ensure]. by rewrite <- Hc, read_run.
  - rewrite Hc. change (8 =? 8) with true. cbn [ensure]. by rewrite <- Hc, read_run.
  - rewrite Hc. change (4 =? 4) with true. cbn [ensure]. by rewrite <- Hc, read_run.
  - rewrite (proj2 (Z.ltb_ge _ _)) by lia. by rewrite read_run.
  - rewrite (proj2 (Z.ltb_ge _ _)) by lia. by rewrite read_run.
Qed.

Lemma storable_col_ok (t : ColType) (len : Z) (v : Value) : storable t len v -> col_ok (t, len).
Proof. intros (_ & _ & Hs & Ht). unfold col_ok. simpl. destruct (v_type v), t; done || lia. Qed.

(** The number read back from the union. *)
Lemma num_after (g x : list Z) (n : nat) : length x = n -> slice 0 n (splice 0 x g) = x.
Proof. intros <-. unfold splice. rewrite take_0. simpl. apply slice_0_app. done. Qed.

(** ** What values denote

    The numbers and texts of SQL, and their comparison: numbers by size, an
    integer against a float as the float next to it, texts byte by byte.  A
    comparison with a NaN decides nothing, so only [<>] holds of it. *)

Inductive sql_value : Type := SInt (z : Z) | SFloat (f : spec_float) | SText (s : list Z).

Fixpoint lex_compare (a b : list Z) : comparison :=
  match a, b with
  | [], [] => Eq
  | [], _ :: _ => Lt
  | _ :: _, [] => Gt
  | x :: a, y :: b => match Z.compare x y with Eq => lex_compare a b | c => c end
  end.
Definition sql_compare (a b : sql_value) : option comparison :=
  match a, b with
  | SInt x, SInt y => Some (Z.compare x y)
  | SInt x, SFloat y => SFcompare (float_of_int x) y
  | SFloat x, SInt y => SFcompare x (float_of_int y)
  | SFloat x, SFloat y => SFcompare x y
  | SText x, SText y => Some (lex_compare x y)
  | _, _ => None
  end.
Definition sql_op (op : CompOp) (a b : sql_value) : bool :=
  match op, sql_compare a b with
  | OP_EQ, Some Eq | OP_LT, Some Lt | OP_GT, Some Gt | OP_LE, Some (Lt | Eq) | OP_GE, Some (Gt | Eq) => true
  | OP_NE, Some Eq => false
  | OP_NE, _ => true
  | _, _ => false
  end.

(** The value a column of type [t] with the bytes [b] holds, and that of a
    literal. *)
Definition sql_of (t : ColType) (b : list Z) : sql_value :=
  match t with
  | TYPE_INT => SInt (i32_val b)
  | TYPE_BIGINT => SInt (i64_val b)
  | TYPE_FLOAT => SFloat (f32_of_bits (u32_val b))
  | TYPE_STRING | TYPE_DATETIME => SText (cstr b)
  end.
Definition value_of (v : Value) : sql_value :=
  match v_type v with
  | TYPE_INT => SInt (int_val v)
  | TYPE_BIGINT => SInt (bigint_val v)
  | TYPE_FLOAT => SFloat (float_val v)
  | TYPE_STRING => SText (cstr (str_val v))
  | TYPE_DATETIME => SText (cstr (datetime_val v))
  end.

Definition is_text (t : ColType) : bool := match t with TYPE_STRING | TYPE_DATETIME => true | _ => false end.

Lemma op_int_sql (op : CompOp) (a b : Z) : op_int op a b = sql_op op (SInt a) (SInt b).
Proof. unfold sql_op, sql_compare. destruct op; simpl; destruct (Z.compare_spec a b); simpl; lia. Qed.

Lemma op_float_sql (op : CompOp) (a b : spec_float) : op_float op a b = sql_op op (SFloat a) (SFloat b).
Proof.
  unfold sql_op, sql_compare, op_float, SFeqb, SFltb, SFleb. rewrite (SFcompare_antisym a b).
  destruct op, (SFcompare a b) as [[]|]; done.
Qed.

Lemma str_order_lex (a b : list Z) : str_order a b = match lex_compare a b with Eq => 0 | Lt => -1 | Gt => 1 end.
Proof.
  revert b. induction a as [|x a IH]; intros [|y b]; try done. simpl. rewrite IH.
  destruct (Z.compare_spec x y) as [->|H|H]; [by rewrite Z.ltb_irrefl|by rewrite (proj2 (Z.ltb_lt x y) H)|].
  by rewrite (proj2 (Z.ltb_ge x y)), (proj2 (Z.ltb_lt y x)) by lia.
Qed.

(** The comparison of the code is that of the values. *)
Lemma binop_sql (op : CompOp) (v w : Value) : is_text (v_type v) = is_text (v_type w) ->
  binop op v w = Ret (sql_op op (value_of v) (value_of w)).
Proof.
  intros Hk. unfold binop, value_of. destruct (v_type v), (v_type w); try discriminate Hk; f_equal.
  all: try apply op_int_sql; try apply op_float_sql.
  all: unfold op_str, strcmp; rewrite op_int_sql, str_order_lex; unfold sql_op, sql_compare; by destruct op, (lex_compare _ _).
Qed.

(** Loading a column gives a value that denotes what its bytes hold. *)
Lemma load_raw_sql (g : list Z) (len : Z) (t : ColType) (x rest : list Z) : Z.of_nat (length x) = len -> col_ok (t, len) ->
  exists w, load_raw len (x ++ rest) (blank g t) = Ret w /\ v_type w = t /\ value_of w = sql_of t x.
Proof.
  intros Hx Hc. eexists. split; [exact (load_raw_run g len t x rest Hx Hc)|]. unfold col_ok in Hc. cbn [fst snd] in Hc. subst len.
  destruct t; (split; [done|]); unfold value_of; cbn [set_num set_str set_datetime v_type]; try done.
  - unfold int_val. cbn [v_num set_num]. by rewrite num_after by lia.
  - unfold bigint_val. cbn [v_num set_num]. by rewrite num_after by lia.
  - unfold float_val. cbn [v_num set_num]. by rewrite num_after by lia.
Qed.

(** ** The round trip *)

(** What a literal becomes in a column it may be compared with.  The code goes
    by the type of the literal: an [INT] in a [FLOAT] column and a [FLOAT] in an
    [INT] column keep their bits and so become other numbers, numbers of the
    wrong width fail an assertion, a text that is too long is refused, and a
    [DATETIME] that is too long is written past the buffer. *)
Definition stored (t : ColType) (len : Z) (v : Value) : outcome sql_value :=
  match t, v_type v with
  | TYPE_FLOAT, TYPE_INT => Ret (SFloat (f32_of_bits (wrap_u 32 (int_val v))))
  | TYPE_INT, TYPE_FLOAT => Ret (SInt (wrap_s 32 (u32_val (slice 0 4 (v_num v)))))
  | TYPE_INT, TYPE_BIGINT | TYPE_FLOAT, TYPE_BIGINT | TYPE_BIGINT, TYPE_FLOAT => Stuck AssertFailed
  | _, TYPE_STRING => if len <? Z.of_nat (length (str_val v)) then Throw StringOverflowError else Ret (value_of v)
  | _, TYPE_DATETIME => if len <? Z.of_nat (length (datetime_val v)) then Stuck OutOfBounds else Ret (value_of v)
  | _, _ => Ret (value_of v)
  end.

(** A value as the parser builds it. *)
Definition literal (v : Value) : Prop :=
  length (v_num v) = 8%nat /\ raw v = None /\ (v_type v = TYPE_DATETIME -> str_val v = []).

Lemma put_string_overflow (len : Z) (v : Value) (x buf : list Z) :
  Z.of_nat (length (str_val v)) <= len -> len < Z.of_nat (length x) -> length buf = Z.to_nat len ->
  put_string len v x buf = Stuck OutOfBounds.
Proof.
  intros H1 H2 H3. unfold put_string. rewrite (proj2 (Z.ltb_ge _ _)) by lia.
  rewrite write_all by (rewrite length_replicate; lia). cbn. unfold write, mem_write. rewrite length_replicate.
  rewrite (proj2 (Z.leb_gt (0 + Z.of_nat (length x)) _)) by lia. by rewrite andb_false_r.
Qed.

Lemma i32_bits (z : Z) : u32_val (i32_bytes z) = wrap_u 32 z.
Proof. unfold u32_val, i32_bytes. by rewrite le_val_le_bytes. Qed.

(** What is stored when nothing fails. *)
Lemma column_stored (g len : Z) (t : ColType) (v : Value) (s : sql_value) :
  literal v -> col_ok (t, len) -> is_compatible_type t (v_type v) = true -> stored t len v = Ret s ->
  exists b, init_raw g len v = Ret (set_raw (Some b) v) /\ Z.of_nat (length b) = len /\ sql_of t b = s.
Proof.
  intros (Hn & Hr & Hd) Hc Hk%bool_decide_eq_true Es. unfold init_raw. rewrite Hr. simpl default. unfold col_ok in Hc. cbn [fst snd] in Hc.
  assert (length (slice 0 4 (v_num v)) = 4%nat) as L4 by (apply length_slice; lia).
  assert (forall x, Z.of_nat (length x) <= len -> Z.of_nat (length (str_val v)) <= len -> exists b,
    (b ← put_string len v x (replicate (Z.to_nat len) g); Ret (set_raw (Some b) v)) = Ret (set_raw (Some b) v) /\ Z.of_nat (length b) = len /\ cstr b = cstr x) as Hput.
  { intros x H1 H2. rewrite put_string_run by (rewrite ?length_replicate; lia). eexists. split; [reflexivity|].
    rewrite length_app, length_replicate. split; [lia|apply cstr_pad]. }
  unfold stored, value_of in Es. destruct t, (v_type v) eqn:Ev; subst; try done; try (exfalso; set_solver); try (injection Es as <-).
  all: try (destruct (Z.ltb_spec len (Z.of_nat (length (str_val v)))); [done|]; injection Es as <-; destruct (Hput (str_val v)) as (b & -> & ? & Eb); [lia..|]; exists b; split_and!; [done..|simpl; by rewrite Eb]).
  all: try (destruct (Z.ltb_spec len (Z.of_nat (length (datetime_val v)))); [done|]; injection Es as <-; destruct (Hput (datetime_val v)) as (b & -> & ? & Eb); [lia|rewrite Hd by done; simpl; lia|]; exists b; split_and!; [done..|simpl; by rewrite Eb]).
  all: cbn [ensure mbind outcome_bind Z.leb Z.eqb Z.compare Pos.compare Pos.compare_cont Pos.eqb]; rewrite write_all by (rewrite ?length_i32_bytes, ?length_i64_bytes, ?L4, length_replicate; done);
    eexists; (split; [reflexivity|]); rewrite ?length_i32_bytes, ?length_i64_bytes, ?L4; (split; [done|]); unfold sql_of; f_equal.
  - apply i32_roundtrip, int_val_range.
  - apply i64_roundtrip. pose proof (int_val_range v). unfold in_i32, in_i64, INT32_MIN, INT32_MAX, INT64_MIN, INT64_MAX in *. lia.
  - apply i64_roundtrip, i64_val_range.
  - f_equal. apply i32_bits.
Qed.

Lemma stored_storable (t : ColType) (len : Z) (v : Value) (s : sql_value) : storable t len v -> stored t len v = Ret s -> s = value_of v.
Proof.
  intros (_ & _ & Hs & Ht) Es. unfold stored in Es. destruct t, (v_type v); try done; try (by injection Es as <-).
  all: try (destruct (len <? Z.of_nat (length (str_val v))); [done|by injection Es as <-]).
  all: destruct (len <? Z.of_nat (length (datetime_val v))); [done|by injection Es as <-].
Qed.

(** C36: what [init_raw] stores of a literal in a column it is compatible with,
    and [load_raw] reads back, is given for every pair of types by [stored]: the
    number or text itself for an [INT] or [BIGINT] in a [BIGINT] column, equal
    types, and texts that fit (whose bytes are padded with zeros); its bits, read
    as a number of the other kind, for an [INT] in a [FLOAT] column and a [FLOAT]
    in an [INT] column; and otherwise the failure of [init_raw].  The column is
    filled exactly, and a value that is [storable], which excludes the pairs whose
    number changes, compares with every value as the original does. *)
Theorem value_roundtrip (g len : Z) (g' rest : list Z) (t : ColType) (v : Value) :
  literal v -> col_ok (t, len) -> is_compatible_type t (v_type v) = true ->
  match stored t len v with
  | Ret s => exists b w, init_raw g len v = Ret (set_raw (Some b) v) /\ Z.of_nat (length b) = len /\
      load_raw len (b ++ rest) (blank g' t) = Ret w /\ v_type w = t /\ value_of w = s /\
      (storable t len v -> s = value_of v /\ forall op u, is_compatible_type (v_type u) t = true -> binop op u w = binop op u v)
  | Throw e => init_raw g len v = Throw e
  | Stuck f => init_raw g len v = Stuck f
  end.
Proof.
  intros Hlit Hc Hk. pose proof Hlit as (Hn & Hr & Hd). destruct (stored t len v) as [s|e|f] eqn:Es.
  - destruct (column_stored g len t v s Hlit Hc Hk Es) as (b & R & Lb & Eb). destruct (load_raw_sql g' len t b rest Lb Hc) as (w & E & Tw & Vw).
    exists b, w. split_and!; try done; [congruence|]. intros St. assert (s = value_of v) as Ev by exact (stored_storable t len v s St Es).
    split; [done|]. intros op u Hu. assert (is_text (v_type u) = is_text t /\ is_text (v_type v) = is_text t) as [K1 K2].
    { apply bool_decide_eq_true in Hu, Hk. by destruct (v_type u), t, (v_type v); try done; exfalso; set_solver. }
    rewrite !binop_sql by congruence. by rewrite Vw, Eb, Ev.
  - unfold stored in Es. unfold init_raw. rewrite Hr. destruct t, (v_type v) eqn:Ev; try done.
    all: try (by destruct (len <? Z.of_nat (length (datetime_val v)))).
    all: unfold put_string; destruct (len <? Z.of_nat (length (str_val v))); [injection Es as <-|]; done.
  - apply bool_decide_eq_true in Hk. unfold stored in Es. unfold init_raw. rewrite Hr. simpl default. unfold col_ok in Hc. cbn [fst snd] in Hc.
    destruct t, (v_type v) eqn:Ev; subst; try done; try (by injection Es as <-); try (exfalso; set_solver).
    all: try (destruct (Z.ltb_spec len (Z.of_nat (length (str_val v)))); done).
    all: destruct (Z.ltb_spec len (Z.of_nat (length (datetime_val v)))); [injection Es as <-|done].
    all: rewrite put_string_overflow by (rewrite ?Hd, ?length_replicate by done; simpl; lia); done.
Qed.

(** C37: for the bytes of two columns of the same type, every comparison of the
    values read from them is decided by the sign [ix_compare] gives on the
    bytes, strings being padded with zeros. *)
Theorem binop_index_order (g g' x y : list Z) (t : ColType) (len : Z) :
  col_ok (t, len) -> col_valid (t, len) x -> col_valid (t, len) y -> padded x -> padded y ->
  exists v w c, load_raw len x (blank g t) = Ret v /\ load_raw len y (blank g' t) = Ret w /\ ix_compare_col x y t len = Some c /\
    forall op, binop op v w = Ret (op_int op c 0).
Proof.
  intros Hc (Lx & Bx & Fx) (Ly & By & Fy) Px Py. simpl in Lx, Ly, Fx, Fy. destruct (col_compare_some (t, len) x y) as [c Hcmp]; [done..|].
  pose proof (load_raw_run g len t x [] Lx Hc) as Rx. pose proof (load_raw_run g' len t y [] Ly Hc) as Ry. rewrite app_nil_r in Rx, Ry.
  eexists _, _, c. split; [exact Rx|]. split; [exact Ry|]. split; [exact Hcmp|]. intros op.
  unfold ix_compare_col in Hcmp. unfold col_ok in Hc. cbn [fst snd] in *. destruct t; unfold binop; cbn [set_num set_str set_datetime v_type blank].
  - unfold int_val. cbn [v_num set_num]. subst len. rewrite !num_after by lia. rewrite !mem_read_exact in Hcmp by lia. injection Hcmp as <-. by rewrite <- op_int_cmp.
  - unfold bigint_val. cbn [v_num set_num]. subst len. rewrite !num_after by lia. rewrite !mem_read_exact in Hcmp by lia. injection Hcmp as <-. by rewrite <- op_int_cmp.
  - unfold float_val. cbn [v_num set_num]. subst len. rewrite !num_after by lia. rewrite !mem_read_exact in Hcmp by lia. injection Hcmp as <-.
    f_equal. pose proof (le_val_range x Bx). pose proof (le_val_range y By). unfold u32_val in *. rewrite Lx, Ly in *.
    apply op_float_cmp; apply f32_not_nan; auto.
  - cbn [str_val set_str]. rewrite !mem_read_exact in Hcmp by lia. injection Hcmp as <-. unfold op_str. rewrite memcmp_strcmp; [done..|lia|done|done].
  - cbn [datetime_val set_datetime]. rewrite !mem_read_exact in Hcmp by lia. injection Hcmp as <-. unfold op_str. rewrite memcmp_strcmp; [done..|lia|done|done].
Qed.

End ValuesSpec.

Module ValuesDemo.
Import ValuesSpec.

Definition zeros8 : list Z := replicate 8 0.
Definition lit (n : Z) : Value := set_int n (blank zeros8 TYPE_INT).
(** [x] as a [CHAR(5)] column *)
Definition ab : list Z := [97; 98; 0; 0; 0].
Definition abc : list Z := [97; 98; 99; 0; 0].

Lemma lit_storable : storable TYPE_BIGINT 8 (lit 7).
Proof. done. Qed.

(** 7 in a [BIGINT] column is 7; in a [FLOAT] column it is another number. *)
Lemma value_roundtrip_witness :
  (exists b w, init_raw 0 8 (lit 7) = Ret (set_raw (Some b) (lit 7)) /\ load_raw 8 (b ++ [1]) (blank zeros8 TYPE_BIGINT) = Ret w /\
    value_of w = SInt 7 /\ forall op u, is_compatible_type (v_type u) TYPE_BIGINT = true -> binop op u w = binop op u (lit 7)) /\
  (exists b w, init_raw 0 4 (lit 7) = Ret (set_raw (Some b) (lit 7)) /\ load_raw 4 (b ++ [1]) (blank zeros8 TYPE_FLOAT) = Ret w /\
    value_of w = SFloat (f32_of_bits 7)) /\
  init_raw 0 4 (set_bigint 1 (blank zeros8 TYPE_INT)) = Stuck AssertFailed.
Proof.
  split_and!.
  - destruct (value_roundtrip 0 8 zeros8 [1] TYPE_BIGINT (lit 7)) as (b & w & H1 & _ & H2 & _ & H3 & H4); [done|done|done|].
    exists b, w. split_and!; [done..|]. apply H4, lit_storable.
  - destruct (value_roundtrip 0 4 zeros8 [1] TYPE_FLOAT (lit 7)) as (b & w & H1 & _ & H2 & _ & H3 & _); [done|done|done|]. by exists b, w.
  - apply (value_roundtrip 0 4 zeros8 [1] TYPE_INT (set_bigint 1 (blank zeros8 TYPE_INT))); done.
Defined.

Lemma binop_index_order_witness :
  exists v w c, load_raw 5 ab (blank zeros8 TYPE_STRING) = Ret v /\ load_raw 5 abc (blank zeros8 TYPE_STRING) = Ret w /\
    ix_compare_col ab abc TYPE_STRING 5 = Some c /\ forall op, binop op v w = Ret (op_int op c 0).
Proof.
  apply (binop_index_order zeros8 zeros8 ab abc TYPE_STRING 5).
  - done.
  - split; [done|]. split; [by repeat constructor|done].
  - split; [done|]. split; [by repeat constructor|done].
  - reflexivity.
  - reflexivity.
Defined.

(** An [INT] literal passes the compatibility test of a [FLOAT] column, and its
    integer bits are stored there: the column then reads as another number. *)
Lemma int_in_float_column :
  is_compatible_type TYPE_FLOAT TYPE_INT = true /\
  exists v w, init_raw 0 4 (lit 1) = Ret v /\ load_raw 4 (default [] (raw v)) (blank zeros8 TYPE_FLOAT) = Ret w /\
    binop OP_EQ w (lit 1) = Ret false /\ binop OP_LT w (lit 1) = Ret true.
Proof. split; [done|]. eexists _, _. split; [reflexivity|]. split; [reflexivity|]. split; vm_compute; reflexivity. Qed.

(** A [BIGINT] literal for an [INT] column fails an assertion. *)
Lemma bigint_in_int_column :
  is_compatible_type TYPE_INT TYPE_BIGINT = true /\ init_raw 0 4 (set_bigint 1 (blank zeros8 TYPE_INT)) = Stuck AssertFailed.
Proof. done. Qed.

Fixpoint text (s : string) : list Z :=
  match s with EmptyString => [] | String c s => Z.of_nat (Ascii.nat_of_ascii c) :: text s end.

(** 2024 is a leap year and 1900 is not. *)
Lemma february_29 :
  to_bcd (text "2024-02-29 00:00:00") = Throw (InternalError "Illegal datatime.") /\
  to_bcd (text "1900-02-29 00:00:00") = Ret (text "1900-02-29 00:00:00").
Proof. split; vm_compute; reflexivity. Qed.

(** A [datetime] literal longer than its column is written past the buffer. *)
Lemma datetime_overflow :
  init_raw 0 4 (set_datetime (text "2024-01-01 00:00:00") (blank zeros8 TYPE_DATETIME)) = Stuck OutOfBounds.
Proof. vm_compute. reflexivity. Qed.

End ValuesDemo.
