(* ===== verification/SmMeta.v ===== *)
(** * Catalogue metadata ([src/src/system/sm_meta.h])

    Columns, indexes, tables and the database, their look-ups, and the text
    format they are saved in ([operator<<] and [operator>>]).  A stream is the
    list of its bytes; a reader returns nothing when the stream fails. *)

From stdpp Require Import sorting.
From S2P Require Import Prelude Bytes Disk Txn Log IxDefs Values.

(** ** Streams *)

Fixpoint bytes_of_string (s : string) : list Z :=
  match s with EmptyString => [] | String c s => Z.of_N (Ascii.N_of_ascii c) :: bytes_of_string s end.
Fixpoint string_of_bytes (l : list Z) : string :=
  match l with [] => EmptyString | x :: l => String (Ascii.ascii_of_N (Z.to_N x)) (string_of_bytes l) end.

(** [os << n] for an integer, most significant digit first. *)
Fixpoint dec (fuel : nat) (n : Z) (acc : list Z) : list Z :=
  match fuel with
  | O => acc
  | S fuel => let acc := (48 + n mod 10) :: acc in if n <? 10 then acc else dec fuel (n / 10) acc
  end.
Definition put_int (n : Z) : list Z := if n <? 0 then 45 :: dec 20 (- n) [] else dec 20 n [].
Definition put_bool (b : bool) : list Z := put_int (if b then 1 else 0).
Definition put_str (s : string) : list Z := bytes_of_string s.
Definition SP : list Z := [32].
Definition NL : list Z := [10].

Definition Reader (A : Type) : Type := list Z -> option (A * list Z).
#[export] Instance Reader_ret : MRet Reader := fun A a s => Some (a, s).
#[export] Instance Reader_bind : MBind Reader := fun A B k m s =>
  match m s with Some (a, s') => k a s' | None => None end.

Fixpoint take_word (s : list Z) : list Z :=
  match s with [] => [] | c :: s' => if is_space c then [] else c :: take_word s' end.

(** [is >> string] *)
Definition get_str : Reader string := fun s =>
  let s := skip_spaces s in
  match take_word s with
  | [] => None
  | w => Some (string_of_bytes w, drop (length w) s)
  end.

(** An optional sign and digits. *)
Definition get_number : Reader (bool * Z) := fun s =>
  let s := skip_spaces s in
  let '(neg, s) := match s with 45 :: s' => (true, s') | 43 :: s' => (false, s') | _ => (false, s) end in
  match take_digits s with
  | [] => None
  | d => Some ((neg, digits_val d), drop (length d) s)
  end.
Definition accept {A} (o : option A) : Reader A := fun s => match o with Some a => Some (a, s) | None => None end.
(** [is >> int], [size_t] and [bool] *)
Definition get_int : Reader Z :=
  r ← get_number;
  let n := if (r.1 : bool) then - r.2 else r.2 in accept (if in_i32 n then Some n else None).
Definition get_size : Reader Z :=
  r ← get_number;
  accept (if r.2 <? 2 ^ 64 then Some (if (r.1 : bool) then wrap_u 64 (- r.2) else r.2) else None).
Definition get_bool : Reader bool :=
  r ← get_number;
  accept (if r.2 =? 0 then Some false else if (r.2 =? 1) && negb r.1 then Some true else None).
(** An enumeration is read as an [int]. *)
Definition get_type : Reader ColType := n ← get_int; accept (coltype_of_code n).

(** [n] items in turn; [n] comes from the stream, which holds at least one byte
    per item. *)
Fixpoint get_many {A} (m : Reader A) (n : nat) : Reader (list A) :=
  match n with O => mret [] | S n => x ← m; l ← get_many m n; mret (x :: l) end.
Definition get_list {A} (m : Reader A) (n : Z) : Reader (list A) := fun s =>
  if Z.of_nat (length s) <? n then None else get_many m (Z.to_nat n) s.

(** ** The structures *)

Record ColMeta : Type := mkCol {
  cm_tab_name : string;
  cm_name : string;
  cm_type : ColType;
  cm_len : Z;
  cm_offset : Z;
  cm_index : bool
}.
#[export] Instance ColMeta_eq_dec : EqDecision ColMeta.
Proof. solve_decision. Defined.
Definition set_offset (o : Z) (c : ColMeta) : ColMeta :=
  mkCol (cm_tab_name c) (cm_name c) (cm_type c) (cm_len c) o (cm_index c).

Record IndexMeta : Type := mkIndex {
  im_tab_name : string;
  im_col_tot_len : Z;
  im_col_num : Z;
  im_cols : list ColMeta
}.

Record TabMeta : Type := mkTab {
  tm_name : string;
  tm_cols : list ColMeta;
  tm_indexes : list IndexMeta
}.

(** The copy constructor leaves the indexes out. *)
Definition copy_tab (other : TabMeta) : TabMeta := mkTab (tm_name other) (tm_cols other) [].

Definition is_col (col_name : string) (t : TabMeta) : bool := existsb (fun c => bool_decide (cm_name c = col_name)) (tm_cols t).

(** The names are compared in turn; the columns of an index are indexed without
    a bounds check. *)
Fixpoint same_names (cols : list ColMeta) (col_names : list string) : outcome bool :=
  match col_names with
  | [] => Ret true
  | n :: col_names =>
      match cols with
      | [] => Stuck OutOfBounds
      | c :: cols => if bool_decide (cm_name c = n) then same_names cols col_names else Ret false
      end
  end.
Definition index_matches (col_names : list string) (index : IndexMeta) : outcome bool :=
  if im_col_num index =? Z.of_nat (length col_names) then same_names (im_cols index) col_names else Ret false.

(** The first index on exactly these columns. *)
Fixpoint find_index (col_names : list string) (l : list IndexMeta) : outcome (option nat) :=
  match l with
  | [] => Ret None
  | index :: l =>
      b ← index_matches col_names index;
      if (b : bool) then Ret (Some O) else r ← find_index col_names l; Ret (option_map Datatypes.S r)
  end.
Definition is_index (col_names : list string) (t : TabMeta) : outcome bool :=
  r ← find_index col_names (tm_indexes t); Ret (bool_decide (is_Some r)).
Definition get_index_meta (col_names : list string) (t : TabMeta) : outcome nat :=
  r ← find_index col_names (tm_indexes t);
  match r with Some i => Ret i | None => Throw (IndexNotFoundError (tm_name t) col_names) end.
Definition get_col (col_name : string) (t : TabMeta) : outcome ColMeta :=
  match List.find (fun c => bool_decide (cm_name c = col_name)) (tm_cols t) with
  | Some c => Ret c
  | None => Throw (ColumnNotFoundError col_name)
  end.

Record DbMeta : Type := mkDb { name_ : string; tabs_ : gmap string TabMeta }.

Definition is_table (tab_name : string) (db : DbMeta) : bool := bool_decide (is_Some (tabs_ db !! tab_name)).
Definition SetTabMeta (tab_name : string) (meta : TabMeta) (db : DbMeta) : DbMeta :=
  mkDb (name_ db) (<[tab_name := meta]> (tabs_ db)).
Definition get_table (tab_name : string) (db : DbMeta) : outcome TabMeta :=
  match tabs_ db !! tab_name with Some t => Ret t | None => Throw (TableNotFoundError tab_name) end.

(** A [std::map] is traversed in the order of its keys. *)
Definition key_le (a b : string) : Prop := String.leb a b = true.
#[export] Instance key_le_dec : RelDecision key_le.
Proof. intros a b. unfold key_le. apply _. Defined.
Definition sorted_keys {A} (m : gmap string A) : list string := merge_sort key_le (map_to_list m).*1.
Definition map_entries {A} (m : gmap string A) : list (string * A) :=
  omap (fun k => (fun v => (k, v)) <$> m !! k) (sorted_keys m).

(** ** The text format *)

Definition put_col (c : ColMeta) : list Z :=
  put_str (cm_tab_name c) ++ SP ++ put_str (cm_name c) ++ SP ++ put_int (coltype_code (cm_type c)) ++ SP ++
  put_int (cm_len c) ++ SP ++ put_int (cm_offset c) ++ SP ++ put_bool (cm_index c).
Definition read_col : Reader ColMeta :=
  t ← get_str; n ← get_str; ty ← get_type; l ← get_int; o ← get_int; i ← get_bool; mret (mkCol t n ty l o i).

Definition put_index (x : IndexMeta) : list Z :=
  put_str (im_tab_name x) ++ SP ++ put_int (im_col_tot_len x) ++ SP ++ put_int (im_col_num x) ++
  concat ((fun c => NL ++ put_col c) <$> im_cols x).
Definition read_index : Reader IndexMeta :=
  t ← get_str; l ← get_size; n ← get_size; cs ← get_list read_col n; mret (mkIndex t l n cs).

Definition put_tab (t : TabMeta) : list Z :=
  put_str (tm_name t) ++ NL ++ put_int (Z.of_nat (length (tm_cols t))) ++ NL ++
  concat ((fun c => put_col c ++ NL) <$> tm_cols t) ++
  put_int (Z.of_nat (length (tm_indexes t))) ++ NL ++ concat ((fun x => put_index x ++ NL) <$> tm_indexes t).
Definition read_tab : Reader TabMeta :=
  t ← get_str; n ← get_size; cs ← get_list read_col n; k ← get_size; xs ← get_list read_index k; mret (mkTab t cs xs).

Definition put_db (db : DbMeta) : list Z :=
  put_str (name_ db) ++ NL ++ put_int (Z.of_nat (size (tabs_ db))) ++ NL ++
  concat ((fun e : string * TabMeta => put_tab e.2 ++ NL) <$> map_entries (tabs_ db)).
(** [tabs_\[tab.name\] = tab] for each table in turn *)
Definition read_db : Reader DbMeta :=
  n ← get_str; k ← get_size; ts ← get_list read_tab k;
  mret (mkDb n (foldl (fun m t => <[tm_name t := t]> m) ∅ ts)).
