(* ===== verification/SmMetaSpec.v ===== *)
(** * The catalogue survives being saved and loaded

    What [operator<<] writes for a database [operator>>] reads back. *)

From stdpp Require Import sorting.
From S2P Require Import Prelude Bytes Disk Txn Log IxDefs Values SmMeta.

Module MetaSpec.

(** ** Readers on texts *)

Definition spaces (s : list Z) : Prop := Forall (fun c => is_space c = true) s.
(** Nothing, or something that begins with white space. *)
Definition starts (s : list Z) : Prop := match s with [] => True | c :: _ => is_space c = true end.

(** [m] reads [a] from the text [t], wherever it stands. *)
Definition reads {A} (m : Reader A) (t : list Z) (a : A) : Prop := forall ws rest, spaces ws -> starts rest ->
  exists ws', spaces ws' /\ m (ws ++ t ++ rest) = Some (a, ws' ++ rest).

Lemma starts_app (s t : list Z) : starts s -> starts t -> starts (s ++ t).
Proof. by destruct s. Qed.
Lemma spaces_starts (s t : list Z) : spaces s -> s <> [] -> starts (s ++ t).
Proof. intros H. destruct s; [done|]. by inv H. Qed.

Lemma reads_bind {A B} (m : Reader A) (k : A -> Reader B) (t1 t2 : list Z) (a : A) (b : B) :
  reads m t1 a -> starts t2 -> reads (k a) t2 b -> reads (m ≫= k) (t1 ++ t2) b.
Proof.
  intros H1 Hs H2 ws rest Hw Hr. destruct (H1 ws (t2 ++ rest) Hw (starts_app _ _ Hs Hr)) as (w1 & Hw1 & E1).
  destruct (H2 w1 rest Hw1 Hr) as (w2 & Hw2 & E2). exists w2. split; [done|].
  unfold mbind, Reader_bind. by rewrite <- app_assoc, E1, E2.
Qed.

Lemma reads_front {A} (m : Reader A) (sep t : list Z) (a : A) : spaces sep -> reads m t a -> reads m (sep ++ t) a.
Proof.
  intros Hs H ws rest Hw Hr. destruct (H (ws ++ sep) rest) as (w & Hw' & E); [by apply Forall_app_2|done|].
  exists w. split; [done|]. by rewrite <- !app_assoc in *.
Qed.

Lemma reads_back {A} (m : Reader A) (sep t : list Z) (a : A) : spaces sep -> reads m t a -> reads m (t ++ sep) a.
Proof.
  intros Hs H ws rest Hw Hr. destruct (H ws (sep ++ rest) Hw) as (w & Hw' & E).
  { destruct sep as [|c sep]; [done|]. by inv Hs. }
  exists (w ++ sep). split; [by apply Forall_app_2|]. by rewrite <- !app_assoc in *.
Qed.

Lemma reads_ret {A} (a : A) : reads (mret a) [] a.
Proof. intros ws rest Hw _. by exists ws. Qed.

Lemma reads_map {A B} (m : Reader A) (f : A -> B) (t : list Z) (a : A) : reads m t a -> reads (x ← m; mret (f x)) t (f a).
Proof. intros H. rewrite <- (app_nil_r t). apply (reads_bind _ _ _ _ a); [done|done|apply reads_ret]. Qed.

Lemma reads_accept {A B} (m : Reader A) (f : A -> option B) (t : list Z) (a : A) (b : B) :
  reads m t a -> f a = Some b -> reads (x ← m; accept (f x)) t b.
Proof.
  intros H E. rewrite <- (app_nil_r t). apply (reads_bind _ _ _ _ a); [done|done|]. rewrite E. intros ws rest Hw _. by exists ws.
Qed.

(** ** Words *)

Lemma skip_spaces_ok (ws s : list Z) : spaces ws -> (match s with c :: _ => is_space c = false | [] => True end) -> skip_spaces (ws ++ s) = s.
Proof.
  intros Hw Hs. induction Hw as [|c ws Hc _ IH]; simpl; [|by rewrite Hc]. destruct s as [|c s]; [done|]. simpl. by rewrite Hs.
Qed.

Lemma take_word_ok (w rest : list Z) : Forall (fun c => is_space c = false) w -> starts rest -> take_word (w ++ rest) = w.
Proof.
  intros Hw Hr. induction Hw as [|c w Hc _ IH]; simpl; [|by rewrite Hc, IH]. destruct rest as [|c rest]; [done|]. simpl in *. by rewrite Hr.
Qed.

Definition word (s : string) : Prop := s <> EmptyString /\ Forall (fun c => is_space c = false) (bytes_of_string s).

Lemma string_bytes (s : string) : string_of_bytes (bytes_of_string s) = s.
Proof. induction s as [|c s IH]; simpl; [done|]. by rewrite N2Z.id, Ascii.ascii_N_embedding, IH. Qed.

Lemma reads_str (s : string) : word s -> reads get_str (put_str s) s.
Proof.
  intros [Hne Hw] ws rest Hs Hr. exists []. split; [constructor|].
  assert (bytes_of_string s <> []) by by destruct s. unfold get_str, put_str.
  rewrite <- (string_bytes s) at 2. destruct (bytes_of_string s) as [|x l]; [done|].
  rewrite skip_spaces_ok; [|done|by inv Hw]. rewrite take_word_ok by done. by rewrite drop_app_length.
Qed.

(** ** Numbers *)

Lemma dec_acc (fuel : nat) (n : Z) (acc : list Z) : dec fuel n acc = dec fuel n [] ++ acc.
Proof.
  revert n acc. induction fuel as [|f IH]; intros n acc; simpl; [done|]. destruct (n <? 10); [done|].
  rewrite IH, (IH _ [_]), <- app_assoc. done.
Qed.

Lemma dec_digits (fuel : nat) (n : Z) : 0 <= n -> Forall (fun c => is_digit c = true) (dec fuel n []).
Proof.
  revert n. induction fuel as [|f IH]; intros n Hn; simpl; [done|]. pose proof (Z.mod_pos_bound n 10).
  assert (is_digit (48 + n mod 10) = true) by (unfold is_digit; lia). destruct (n <? 10); [by repeat constructor|].
  rewrite dec_acc. apply Forall_app_2; [apply IH; apply Z.div_pos; lia|by repeat constructor].
Qed.

Lemma dec_val (fuel : nat) (n : Z) : 0 <= n < 10 ^ Z.of_nat fuel -> (0 < fuel)%nat -> dec fuel n [] <> [] /\ digits_val (dec fuel n []) = n.
Proof.
  revert n. induction fuel as [|f IH]; intros n Hn Hf; [lia|]. simpl. destruct (Z.ltb_spec n 10) as [H|H].
  - split; [done|]. unfold digits_val. simpl. rewrite Z.mod_small by lia. lia.
  - rewrite dec_acc. split; [by destruct (dec f (n / 10) [])|]. destruct f as [|f]; [change (10 ^ Z.of_nat 1) with 10 in Hn; lia|].
    destruct (IH (n / 10)) as [_ E]; [|lia|].
    { split; [apply Z.div_pos; lia|]. apply Z.div_lt_upper_bound; [lia|]. rewrite <- Z.pow_succ_r by lia. rewrite <- Nat2Z.inj_succ. apply Hn. }
    unfold digits_val in *. rewrite foldl_app, E. simpl. pose proof (Z.div_mod n 10). lia.
Qed.

Lemma take_digits_ok (w rest : list Z) : Forall (fun c => is_digit c = true) w -> starts rest -> take_digits (w ++ rest) = w.
Proof.
  intros Hw Hr. induction Hw as [|c w Hc _ IH]; simpl; [|by rewrite Hc, IH]. destruct rest as [|c rest]; [done|]. simpl in *.
  assert (is_digit c = false) as -> by (unfold is_space, is_digit in *; lia). done.
Qed.

Lemma digit_head (c : Z) (s : list Z) : is_digit c = true ->
  (match c :: s with 45 :: s' => (true, s') | 43 :: s' => (false, s') | _ => (false, c :: s) end) = (false, c :: s).
Proof.
  intros H. assert (c = 48 \/ c = 49 \/ c = 50 \/ c = 51 \/ c = 52 \/ c = 53 \/ c = 54 \/ c = 55 \/ c = 56 \/ c = 57) as Hc by (unfold is_digit in H; lia).
  by repeat destruct Hc as [->|Hc]; subst.
Qed.

(** A number of at most 20 digits. *)
Lemma reads_number (n : Z) : - 10 ^ 20 < n < 10 ^ 20 -> reads get_number (put_int n) (n <? 0, Z.abs n).
Proof.
  intros Hn ws rest Hw Hr. exists []. split; [constructor|]. unfold put_int, get_number. simpl app at 3.
  destruct (dec_val 20 (Z.abs n)) as [Hne Hv]; [split; [lia|]; change (Z.of_nat 20) with 20; lia|lia|].
  pose proof (dec_digits 20 (Z.abs n) ltac:(lia)) as Hd.
  destruct (Z.ltb_spec n 0) as [H|H].
  - replace (- n) with (Z.abs n) by lia. rewrite skip_spaces_ok by done. cbn [app]. rewrite take_digits_ok by done.
    destruct (dec 20 (Z.abs n) []) as [|c l] eqn:E; [done|]. by rewrite Hv, drop_app_length.
  - rewrite Z.abs_eq in * by lia. destruct (dec 20 n []) as [|c l]; [done|].
    apply Forall_cons in Hd as [Hc Hd]. rewrite skip_spaces_ok; [|done|cbn [app]; unfold is_space, is_digit in *; lia].
    cbn [app]. rewrite digit_head by done. change (c :: l ++ rest) with ((c :: l) ++ rest). rewrite take_digits_ok; [|by constructor|done].
    by rewrite Hv, drop_app_length.
Qed.

Lemma reads_int (n : Z) : in_i32 n = true -> reads get_int (put_int n) n.
Proof.
  intros Hn. unfold get_int. eapply (reads_accept _ (fun r : bool * Z => let n := if r.1 then - r.2 else r.2 in if in_i32 n then Some n else None)).
  - apply reads_number. unfold in_i32, INT32_MIN, INT32_MAX in Hn. lia.
  - simpl. replace (if n <? 0 then - Z.abs n else Z.abs n) with n by (destruct (Z.ltb_spec n 0); lia). by rewrite Hn.
Qed.

Lemma reads_size (n : Z) : 0 <= n < 2 ^ 64 -> reads get_size (put_int n) n.
Proof.
  intros Hn. unfold get_size. eapply (reads_accept _ (fun r : bool * Z => if r.2 <? 2 ^ 64 then Some (if r.1 then wrap_u 64 (- r.2) else r.2) else None)).
  - apply reads_number. lia.
  - simpl. rewrite (proj2 (Z.ltb_lt (Z.abs n) _)), (proj2 (Z.ltb_ge n 0)) by lia. by rewrite Z.abs_eq by lia.
Qed.

Lemma reads_bool (b : bool) : reads get_bool (put_bool b) b.
Proof.
  unfold get_bool, put_bool. eapply (reads_accept _ (fun r : bool * Z => if r.2 =? 0 then Some false else if (r.2 =? 1) && negb r.1 then Some true else None));
    [apply reads_number; destruct b; lia|by destruct b].
Qed.

Lemma reads_type (t : ColType) : reads get_type (put_int (coltype_code t)) t.
Proof. unfold get_type. eapply (reads_accept _ coltype_of_code); [apply reads_int|]; by destruct t. Qed.

(** ** Lists *)

Lemma starts_concat {A} (f : A -> list Z) (l : list A) : starts (concat ((fun x => NL ++ f x) <$> l)).
Proof. by destruct l. Qed.

Lemma reads_many {A} (m : Reader A) (f : A -> list Z) (l : list A) : Forall (fun x => reads m (f x) x) l ->
  reads (get_many m (length l)) (concat ((fun x => NL ++ f x) <$> l)) l.
Proof.
  induction 1 as [|x l Hx _ IH]; [apply reads_ret|]. cbn [fmap list_fmap concat length get_many].
  apply (reads_bind _ _ _ _ x); [by apply reads_front; [repeat constructor|]|apply starts_concat|]. by apply (reads_map _ (cons x)).
Qed.

Lemma concat_length {A} (f : A -> list Z) (l : list A) : (length l <= length (concat ((fun x => NL ++ f x) <$> l)))%nat.
Proof. induction l as [|x l IH]; [done|]. rewrite fmap_cons, concat_cons, !length_app. change (length NL) with 1%nat. simpl length at 1. lia. Qed.

Lemma reads_list {A} (m : Reader A) (f : A -> list Z) (l : list A) : Forall (fun x => reads m (f x) x) l ->
  reads (get_list m (Z.of_nat (length l))) (concat ((fun x => NL ++ f x) <$> l)) l.
Proof.
  intros H ws rest Hw Hr. destruct (reads_many m f l H ws rest Hw Hr) as (w & Hw' & E). exists w. split; [done|].
  unfold get_list. rewrite (proj2 (Z.ltb_ge _ _)); [by rewrite Nat2Z.id|].
  pose proof (concat_length f l). rewrite !length_app. lia.
Qed.

(** A separator after each item is one before each, and one at the end. *)
Lemma shift_sep {A} (f : A -> list Z) (l : list A) (t : list Z) :
  NL ++ concat ((fun x => f x ++ NL) <$> l) ++ t = concat ((fun x => NL ++ f x) <$> l) ++ NL ++ t.
Proof. induction l as [|x l IH]; [done|]. cbn [fmap list_fmap concat]. rewrite <- !app_assoc. do 2 f_equal. exact IH. Qed.

(** ** The structures *)

Definition col_wf (c : ColMeta) : Prop :=
  word (cm_tab_name c) /\ word (cm_name c) /\ in_i32 (cm_len c) = true /\ in_i32 (cm_offset c) = true.
Definition index_wf (x : IndexMeta) : Prop :=
  word (im_tab_name x) /\ 0 <= im_col_tot_len x < 2 ^ 64 /\ im_col_num x = Z.of_nat (length (im_cols x)) /\
  im_col_num x < 2 ^ 64 /\ Forall col_wf (im_cols x).
Definition tab_wf (t : TabMeta) : Prop :=
  word (tm_name t) /\ Forall col_wf (tm_cols t) /\ Forall index_wf (tm_indexes t) /\
  Z.of_nat (length (tm_cols t)) < 2 ^ 64 /\ Z.of_nat (length (tm_indexes t)) < 2 ^ 64.
(** Every table is filed under its own name. *)
Definition db_wf (db : DbMeta) : Prop :=
  word (name_ db) /\ Z.of_nat (size (tabs_ db)) < 2 ^ 64 /\ forall k t, tabs_ db !! k = Some t -> tab_wf t /\ tm_name t = k.

Lemma spaces_SP : spaces SP.
Proof. by repeat constructor. Qed.
Lemma spaces_NL : spaces NL.
Proof. by repeat constructor. Qed.

(** Read the next field, which a separator follows. *)
Ltac next_field L := eapply reads_bind; [exact L|done|apply reads_front; [first [exact spaces_SP | exact spaces_NL]|]].

Lemma reads_col (c : ColMeta) : col_wf c -> reads read_col (put_col c) c.
Proof.
  destruct c as [t n ty l o i]. intros (H1 & H2 & H3 & H4). unfold read_col, put_col. cbn [cm_tab_name cm_name cm_type cm_len cm_offset cm_index] in *.
  next_field (reads_str t H1). next_field (reads_str n H2). next_field (reads_type ty). next_field (reads_int l H3). next_field (reads_int o H4).
  apply (reads_map _ (fun i => mkCol t n ty l o i)), reads_bool.
Qed.

Lemma reads_cols (l : list ColMeta) : Forall col_wf l -> Forall (fun c => reads read_col (put_col c) c) l.
Proof. intros H. by eapply Forall_impl; [exact H|apply reads_col]. Qed.

Lemma reads_index (x : IndexMeta) : index_wf x -> reads read_index (put_index x) x.
Proof.
  destruct x as [t l n cs]. intros (H1 & H2 & H3 & H4 & H5). unfold read_index, put_index. cbn [im_tab_name im_col_tot_len im_col_num im_cols] in *. subst n.
  next_field (reads_str t H1). next_field (reads_size l H2).
  apply (reads_bind _ _ _ _ (Z.of_nat (length cs))); [apply reads_size; lia|apply starts_concat|].
  apply (reads_map _ (fun cs' => mkIndex t l (Z.of_nat (length cs)) cs')). by apply reads_list, reads_cols.
Qed.

Lemma reads_tab (t : TabMeta) : tab_wf t -> reads read_tab (put_tab t) t.
Proof.
  destruct t as [n cs xs]. intros (H1 & H2 & H3 & H4 & H5). unfold read_tab, put_tab. cbn [tm_name tm_cols tm_indexes] in *.
  next_field (reads_str n H1). rewrite shift_sep.
  apply (reads_bind _ _ _ _ (Z.of_nat (length cs))); [apply reads_size; lia|by destruct cs|].
  apply (reads_bind _ _ _ _ cs); [by apply reads_list, reads_cols|done|]. apply reads_front; [exact spaces_NL|].
  rewrite <- (app_nil_r (concat _)), shift_sep.
  apply (reads_bind _ _ _ _ (Z.of_nat (length xs))); [apply reads_size; lia|by destruct xs|].
  apply (reads_map _ (fun xs => mkTab n cs xs)). rewrite app_nil_r. apply reads_back; [exact spaces_NL|]. apply reads_list.
  by eapply Forall_impl; [exact H3|apply reads_index].
Qed.

(** ** The map of tables *)

Lemma entries_perm {A} (m : gmap string A) : map_entries m ≡ₚ map_to_list m.
Proof.
  unfold map_entries, sorted_keys. rewrite merge_sort_Permutation.
  assert (forall l, (forall e, e ∈ l -> m !! e.1 = Some e.2) -> omap (fun k => (fun v => (k, v)) <$> m !! k) l.*1 = l) as ->; [|done|].
  - induction l as [|[k v] l IH]; intros H; [done|]. pose proof (H (k, v) ltac:(left)) as E. simpl in *. rewrite E. simpl. f_equal. apply IH. intros e He. apply H. by right.
  - intros [k v] He. by apply elem_of_map_to_list in He.
Qed.

Lemma foldl_tabs (l : list (string * TabMeta)) (m : gmap string TabMeta) : (forall e, e ∈ l -> tm_name e.2 = e.1) ->
  foldl (fun m t => <[tm_name t := t]> m) m l.*2 = list_to_map (reverse l) ∪ m.
Proof.
  revert m. induction l as [|[k t] l IH]; intros m H; simpl; [by rewrite (left_id_L ∅ (∪))|].
  rewrite IH by (intros e He; apply H; by right). pose proof (H (k, t) ltac:(left)) as E. simpl in E. rewrite E, reverse_cons, list_to_map_app. simpl.
  rewrite <- (assoc_L (∪)). f_equal. by rewrite insert_empty, <- insert_union_singleton_l.
Qed.

Lemma tabs_restored (m : gmap string TabMeta) : (forall k t, m !! k = Some t -> tm_name t = k) ->
  foldl (fun m t => <[tm_name t := t]> m) ∅ (map_entries m).*2 = m.
Proof.
  intros H. rewrite foldl_tabs.
  - rewrite (right_id_L ∅ (∪)). transitivity (list_to_map (map_to_list m) : gmap string TabMeta); [|apply list_to_map_to_list].
    apply list_to_map_proper; [|by rewrite reverse_Permutation, entries_perm].
    rewrite reverse_Permutation, entries_perm. apply NoDup_fst_map_to_list.
  - intros [k t] He. rewrite entries_perm in He. apply elem_of_map_to_list in He. by apply H.
Qed.

Lemma read_put_db (db : DbMeta) : db_wf db -> exists rest, read_db (put_db db) = Some (db, rest).
Proof.
  destruct db as [n m]. intros (H1 & H2 & H3). cbn [name_ tabs_] in *.
  assert (reads read_db (put_db (mkDb n m)) (mkDb n m)) as H.
  { unfold read_db, put_db. cbn [name_ tabs_]. next_field (reads_str n H1).
    assert (size m = length (map_entries m).*2) as E by by rewrite length_fmap, entries_perm, length_map_to_list.
    rewrite E in *. rewrite <- (app_nil_r (concat _)).
    replace ((fun e : string * TabMeta => put_tab e.2 ++ NL) <$> map_entries m) with ((fun t => put_tab t ++ NL) <$> (map_entries m).*2) by by rewrite <- list_fmap_compose.
    rewrite shift_sep. apply (reads_bind _ _ _ _ (Z.of_nat (length (map_entries m).*2))); [apply reads_size; lia|by destruct (map_entries m)|].
    rewrite app_nil_r.
    replace (mkDb n m) with (mkDb n (foldl (fun m t => <[tm_name t := t]> m) ∅ (map_entries m).*2))
      by (f_equal; apply tabs_restored; intros k t Hk; by apply H3).
    apply (reads_map _ (fun ts => mkDb n (foldl (fun m t => <[tm_name t := t]> m) ∅ ts))). apply reads_back; [exact spaces_NL|]. apply reads_list.
    apply Forall_forall. intros t Ht. apply reads_tab. apply list_elem_of_fmap in Ht as ([k t'] & -> & Ht). rewrite entries_perm in Ht.
    apply elem_of_map_to_list in Ht. by apply H3 in Ht as [Ht _]. }
  destruct (H [] [] ltac:(constructor) I) as (w & _ & E). rewrite app_nil_r in E. by exists (w ++ []).
Qed.

(** C40: the catalogue read back from the text it is saved as is the catalogue
    that was saved, tables, columns and indexes included. *)
Theorem db_roundtrip (db : DbMeta) : db_wf db -> exists rest, read_db (put_db db) = Some (db, rest).
Proof. exact (read_put_db db). Qed.

End MetaSpec.

Module MetaDemo.
Import MetaSpec.

Definition col_a : ColMeta := mkCol "t" "a" TYPE_INT 4 0 true.
Definition col_b : ColMeta := mkCol "t" "b" TYPE_STRING 10 4 false.
Definition tab_t : TabMeta := mkTab "t" [col_a; col_b] [mkIndex "t" 0 1 [col_a]].
Definition tab_u : TabMeta := mkTab "u" [mkCol "u" "c" TYPE_FLOAT 4 0 false] [].
Definition demo_db : DbMeta := mkDb "db" {[ "t"%string := tab_t; "u"%string := tab_u ]}.

Lemma demo_db_wf : db_wf demo_db.
Proof.
  assert (forall s, (match s with EmptyString => false | _ => forallb (fun c => negb (is_space c)) (bytes_of_string s) end) = true -> word s) as W.
  { intros s Hs. split; [by destruct s|]. apply Forall_forall. intros c Hc. destruct s as [|a s]; [done|].
    rewrite forallb_forall in Hs. apply list_elem_of_In in Hc. specialize (Hs c Hc). by destruct (is_space c). }
  split; [by apply W|]. split; [done|]. intros k t Hk. unfold demo_db, tabs_ in Hk.
  apply lookup_insert_Some in Hk as [[<- <-]|[_ Hk]]; [|apply lookup_singleton_Some in Hk as [<- <-]].
  - repeat (split || constructor || apply W); done.
  - repeat (split || constructor || apply W); done.
Qed.

Lemma db_roundtrip_witness : db_wf demo_db /\ exists rest, read_db (put_db demo_db) = Some (demo_db, rest).
Proof. split; [exact demo_db_wf|]. exact (db_roundtrip demo_db demo_db_wf). Defined.

End MetaDemo.
