(* ===== verification/Managers.v ===== *)
(** * Creating, opening and closing files ([rm_manager.h], [ix_manager.h])

    [RmManager] and [IxManager] lay out new table and index files, open them
    into handles and close them.  Both work on the disk manager inside the
    buffer pool; a handle is its descriptor and its header. *)

From S2P Require Import Prelude Bytes Posix Disk Replacer BufferPool Bitmap Txn Log RmFile IxDefs IxNode Values SmMeta.

Section managers.
Context {R : Type} {RO : Replacer R} {FO : FileSystem}.
Abbreviation BPM := (Bpm.BufferPoolManager R).
Abbreviation D := (M Disk.DiskManager).

(** [read_page] into a local buffer of [n] bytes, which are returned. *)
Definition read_local (fd page_no n : Z) : D (list Z) := fun d =>
  match Disk.read_page fd page_no n (d, replicate (Z.to_nat n) 0) with
  | (Ret _, (d', buf)) => (Ret buf, d')
  | (Throw e, (d', _)) => (Throw e, d')
  | (Stuck w, (d', _)) => (Stuck w, d')
  end.

(** ** [RmManager] *)

Definition rm_create_file (filename : string) (record_size : Z) : D unit :=
  if (record_size <? 1) || (RM_MAX_RECORD_SIZE <? record_size) then throw (InvalidRecordSizeError record_size) else
  Disk.create_file filename ;;
  fd ← Disk.open_file filename;
  Disk.write_page fd RM_FILE_HDR_PAGE (hdr_bytes (new_hdr record_size)) SIZEOF_RmFileHdr ;;
  Disk.close_file fd.

Definition rm_destroy_file (filename : string) : D unit := Disk.destroy_file filename.

(** The constructor of [RmFileHandle]. *)
Definition rm_handle (fd : Z) : D RmFileHdr :=
  b ← read_local fd RM_FILE_HDR_PAGE SIZEOF_RmFileHdr;
  let h := hdr_of_bytes b in
  Disk.set_fd2pageno fd (num_pages h) ;;
  mret h.

Definition rm_open_file (filename : string) : D (Z * RmFileHdr) :=
  fd ← Disk.open_file filename;
  h ← rm_handle fd;
  Disk.set_fd2pageno fd (num_pages h) ;;
  mret (fd, h).

(** [order] is the order in which the page table is traversed. *)
Definition rm_close_file (order : list (PageId * Z)) (fd : Z) (h : RmFileHdr) : M BPM unit :=
  Bpm.on_disk (Disk.write_page fd RM_FILE_HDR_PAGE (hdr_bytes h) SIZEOF_RmFileHdr) ;;
  Bpm.flush_all_pages order fd ;;
  Bpm.on_disk (Disk.close_file fd).

(** [RmFileHandle::close_all_page]; the call is inside an [assert], so this is
    what a build with assertions does. *)
Definition rm_close_all_page (order : list (PageId * Z)) (fd : Z) : M BPM unit :=
  b ← Bpm.delete_all_page order fd;
  assert b.

(** ** [IxManager] *)

Definition get_index_name (filename : string) (index_cols : list string) : string :=
  String.append (foldl (fun index_name col => String.append index_name (String.append "_" col)) filename index_cols) ".idx".

Definition ix_exists (filename : string) (index_cols : list string) (d : Disk.DiskManager) : bool :=
  Disk.is_file (get_index_name filename index_cols) d.

(** The page header of an empty leaf, in a page otherwise zero. *)
Definition leaf_page (prev next : Z) : list Z :=
  let hdr := i32_bytes IX_NO_PAGE ++ i32_bytes IX_NO_PAGE ++ i32_bytes 0 ++ [1; 0; 0; 0] ++ i32_bytes prev ++ i32_bytes next in
  hdr ++ replicate (Disk.page_len - length hdr) 0.

(** The sum of the column lengths is an [int]. *)
Fixpoint add_lens (n : Z) (cols : list ColMeta) : D Z :=
  match cols with [] => mret n | c :: cols => n' ← int_op (n + cm_len c); add_lens n' cols end.

Definition col_pairs (cols : list ColMeta) : list (ColType * Z) := (fun c => (cm_type c, cm_len c)) <$> cols.

Definition ix_create_index (filename : string) (index_cols : list ColMeta) : D unit :=
  let ix_name := get_index_name filename (cm_name <$> index_cols) in
  Disk.create_file ix_name ;;
  fd ← Disk.open_file ix_name;
  col_tot_len ← add_lens 0 index_cols;
  if IX_MAX_COL_LEN <? col_tot_len then throw (InvalidColLengthError col_tot_len) else
  (if wrap_u 64 (col_tot_len + Log.SIZEOF_Rid) =? 0 then stuck DivideByZero else mret tt) ;;
  assert (2 <? btree_order_for col_tot_len) ;;
  let fhdr := new_ix_hdr (col_pairs index_cols) in
  data ← unwrap OutOfBounds (ix_hdr_serialize fhdr (replicate (Z.to_nat (tot_len_ fhdr)) 0));
  Disk.write_page fd IX_FILE_HDR_PAGE data (tot_len_ fhdr) ;;
  Disk.write_page fd IX_LEAF_HEADER_PAGE (leaf_page IX_INIT_ROOT_PAGE IX_INIT_ROOT_PAGE) PAGE_SIZE ;;
  Disk.write_page fd IX_INIT_ROOT_PAGE (leaf_page IX_LEAF_HEADER_PAGE IX_LEAF_HEADER_PAGE) PAGE_SIZE ;;
  Disk.set_fd2pageno fd (IX_INIT_NUM_PAGES - 1) ;;
  Disk.close_file fd.

Definition ix_destroy_index (filename : string) (index_cols : list string) : D unit :=
  Disk.destroy_file (get_index_name filename index_cols).

(** The constructor of [IxIndexHandle]: the first read fills the pointer that
    the header is then assigned to. *)
Definition ix_handle (fd : Z) : D IxFileHdr :=
  _ ← read_local fd IX_FILE_HDR_PAGE 8;
  buf ← read_local fd IX_FILE_HDR_PAGE PAGE_SIZE;
  h ← unwrap OutOfBounds (ix_hdr_deserialize buf);
  now_page_no ← int_op (num_pages_ h - 1);
  n ← int_op (now_page_no + 1);
  Disk.set_fd2pageno fd n ;;
  mret h.

Definition ix_open_index (filename : string) (index_cols : list string) : D (Z * IxFileHdr) :=
  fd ← Disk.open_file (get_index_name filename index_cols);
  h ← ix_handle fd;
  mret (fd, h).

Definition ix_close_index (order : list (PageId * Z)) (fd : Z) (h : IxFileHdr) : M BPM unit :=
  data ← unwrap OutOfBounds (ix_hdr_serialize h (replicate (Z.to_nat (tot_len_ h)) 0));
  Bpm.on_disk (Disk.write_page fd IX_FILE_HDR_PAGE data (tot_len_ h)) ;;
  Bpm.flush_all_pages order fd ;;
  Bpm.on_disk (Disk.close_file fd).

End managers.
