(* ===== verification/ManagersSpec.v ===== *)
(** * Files are opened as they were laid out

    A header read back is the header written; a new table file opens as an
    empty table, a new index file as an empty tree. *)

From S2P Require Import Prelude Bytes Bitmap Replacer Posix Disk BufferPool BufferPoolFacts BufferPoolSpec Txn Lock LockFacts PagePool RmFile RmPageFacts RmTable RmFileFacts RmSpec Log LogFacts IxDefs IxNode IxCompare IxNodeFacts IxNodeSpec IxIndex PinPool IxTree IxPage IxInsert Values SmMeta Managers.

(** ** New files on the disk

    The life of one file name between [create_file], [open_file], writes and
    [close_file], beside the files that were open before. *)

Module FileFacts.
Import Disk.

Section files.
Context {FO : FileSystem} {FL : FileSystemLaws} {FR : FileSystemReliable} {FP : FileSystemPaths}.
Implicit Types d : DiskManager.

(** Since [d0] a file named [p], number [i] with content [bs], has appeared that
    nobody has open; what was open is as it was. *)
Record closed (p : string) (d0 d : DiskManager) (i : Z) (bs : list Z) : Prop := {
  cl_fds : forall x, fd_ino (dm_fs d) x = fd_ino (dm_fs d0) x;
  cl_private : forall x, fd_ino (dm_fs d0) x <> Some i;
  cl_keep : forall x j, fd_ino (dm_fs d0) x = Some j -> ino_bytes (dm_fs d) j = ino_bytes (dm_fs d0) j;
  cl_count : forall x, fd_open d0 x -> fd2pageno_ d !! x = fd2pageno_ d0 !! x;
  cl_tables : path2fd_ d = path2fd_ d0 /\ fd2path_ d = fd2path_ d0 /\ log_fd_ d = log_fd_ d0;
  cl_path : path_ino (dm_fs d) p = Some i;
  cl_bytes : ino_bytes (dm_fs d) i = bs;
  cl_room : fd_room (dm_fs d)
}.

(** The file is open as [fd]. *)
Record opened (p : string) (d0 d : DiskManager) (fd i : Z) (bs : list Z) : Prop := {
  op_fd : fd_ino (dm_fs d) fd = Some i;
  op_new : fd_ino (dm_fs d0) fd = None;
  op_fds : forall x, x <> fd -> fd_ino (dm_fs d) x = fd_ino (dm_fs d0) x;
  op_private : forall x, fd_ino (dm_fs d0) x <> Some i;
  op_keep : forall x j, fd_ino (dm_fs d0) x = Some j -> ino_bytes (dm_fs d) j = ino_bytes (dm_fs d0) j;
  op_count : forall x, fd_open d0 x -> fd2pageno_ d !! x = fd2pageno_ d0 !! x;
  op_tables : path2fd_ d = <[p := fd]> (path2fd_ d0) /\ fd2path_ d = <[fd := p]> (fd2path_ d0) /\ log_fd_ d = log_fd_ d0;
  op_path : path_ino (dm_fs d) p = Some i;
  op_bytes : ino_bytes (dm_fs d) i = bs;
  op_valid : fd_valid fd
}.

(** The names of open files are the descriptors that are open. *)
Definition names_ok d : Prop := forall x, is_Some (fd2path_ d !! x) -> fd_open d x.

Lemma create_run (p : string) d :
  path_ino (dm_fs d) p = None -> sys_stat (dm_fs d) p = None -> fd_room (dm_fs d) ->
  exists d' i, create_file p d = (Ret tt, d') /\ closed p d d' i [].
Proof.
  intros H1 H2 H3. destruct (creat_ok (dm_fs d) p H1 H2 H3) as (fd & fs & E). destruct (creat_path _ _ _ _ E) as (Hv & Hn & i & P1 & P2 & P3 & P4 & P5 & P6 & P7 & P8).
  destruct (close_law fs fd) as (C1 & C2 & C3). exists (set_fs (sys_close fs fd) (set_fs fs d)), i. split.
  - unfold create_file. erewrite bind_run by (unfold sys; rewrite E; reflexivity). reflexivity.
  - split; simpl; try done.
    + intros x. destruct (decide (x = fd)) as [->|Hx]; [by rewrite C1, Hn|]. by rewrite C2, P6.
    + intros x j Hj. assert (j <> i) by (intros ->; by apply (P7 x)). assert (x <> fd) as Hx by congruence.
      rewrite (C3 x j), P8; [done|done|done|by rewrite P6].
    + by rewrite close_path.
    + by rewrite (close_keeps _ _ p i).
    + by apply close_room.
Qed.

Lemma open_run (p : string) (d0 d : DiskManager) (i : Z) (bs : list Z) : closed p d0 d i bs -> path2fd_ d0 !! p = None ->
  exists d' fd, open_file p d = (Ret fd, d') /\ opened p d0 d' fd i bs.
Proof.
  intros [C1 C2 C3 C4 (T1 & T2 & T3) C5 C6 C7] Hp. destruct (open_ok (dm_fs d) p) as (fd & fs & E); [by rewrite C5|done|].
  destruct (open_law _ _ _ _ E) as (O1 & O2 & O3 & O4 & O5). destruct (open_path _ _ _ _ E) as (V & O6 & O7).
  exists (set_files (<[p := fd]> (path2fd_ d)) (<[fd := p]> (fd2path_ d)) (set_fs fs d)), fd. split.
  - unfold open_file. erewrite bind_run by reflexivity. replace (path2fd_ d !! p) with (@None Z) by by rewrite T1. erewrite bind_run by (unfold sys; rewrite E; reflexivity). reflexivity.
  - split; simpl; try done.
    + by rewrite <- O6.
    + by rewrite <- C1.
    + intros x Hx. by rewrite O4, C1.
    + intros x j Hj. rewrite O5. by eapply C3.
    + by rewrite T1, T2, T3.
    + by rewrite O7.
    + by rewrite O5.
Qed.

Lemma write_run (p : string) (d0 d : DiskManager) (fd i page_no n : Z) (bs data : list Z) :
  opened p d0 d fd i bs -> Z.of_nat (length data) = n -> page_no_ok page_no = true ->
  exists d', write_page fd page_no data n d = (Ret tt, d') /\ opened p d0 d' fd i (pwrite bs (page_off page_no) data).
Proof.
  intros [O1 O2 O3 O4 O5 O6 O7 O8 O9 O10] Hn Hp. destruct (write_bytes_run fd page_no data n d Hn Hp) as [d' R]; [unfold fd_open; by rewrite O1|].
  exists d'. split; [done|]. unfold write_page in R.
  apply bind_Ret_inv in R as (o & s1 & H1 & R). apply int_op_inv in H1 as (-> & -> & Hr).
  apply bind_Ret_inv in R as (pos & s2 & H2 & R). apply sys_inv in H2 as (? & [= <-] & H2 & E2).
  destruct (Z.eqb_spec pos (-1)) as [|Hpos]; [done|].
  apply bind_Ret_inv in R as (buf & s3 & H3 & R). apply unwrap_inv in H3 as [H3 ->]. apply mem_read_Some in H3 as (_ & _ & _ & ->).
  rewrite (slice_all _ data) in R by lia.
  apply bind_Ret_inv in R as (ws & s4 & H4 & R). apply sys_inv in H4 as (? & [= <-] & H4 & E4).
  destruct (Z.eqb_spec ws n) as [->|]; [|done]. simpl in R. injection R as ->.
  destruct (lseek_law _ _ _ _ _ H2) as (Hi2 & Hb2 & Hp2). specialize (Hp2 Hpos) as (-> & _ & Hp2).
  destruct (write_law _ _ _ _ _ H4) as (Hi4 & Ho4 & Hw4). destruct Hw4 as (j & Hj & Hw4); [done|].
  assert (j = i) as -> by (rewrite Hi2 in Hj; congruence).
  rewrite Hp2, Hb2 in Hw4.
  pose proof (lseek_path (dm_fs d) fd (page_no * PAGE_SIZE)) as L1. rewrite H2 in L1. simpl in L1.
  pose proof (write_path (dm_fs s2) fd data) as L2. rewrite H4 in L2. simpl in L2.
  rewrite E4, E2 in *. simpl in *. split; simpl; try done.
  - by rewrite Hi4, Hi2.
  - intros x Hx. by rewrite Hi4, Hi2, O3.
  - intros x k Hk. rewrite Ho4, Hb2; [by eapply O5|]. rewrite Hi2, O1. intros [= <-]. by apply (O4 x).
  - by rewrite L2, L1.
  - by rewrite Hw4, O9.
Qed.

Lemma pageno_run (p : string) (d0 d : DiskManager) (fd i n : Z) (bs : list Z) : opened p d0 d fd i bs ->
  exists d', set_fd2pageno fd n d = (Ret tt, d') /\ opened p d0 d' fd i bs /\ fd2pageno_ d' !! fd = Some n.
Proof.
  intros [O1 O2 O3 O4 O5 O6 O7 O8 O9 O10]. pose proof (valid_range fd O10) as Hr. unfold set_fd2pageno.
  assert (fd_in_range fd = true) as -> by (unfold fd_in_range, MAX_FD; lia). eexists. split; [done|]. split; [|apply lookup_insert_eq].
  split; simpl; try done. intros x Hx. rewrite lookup_insert_ne; [by apply O6|]. intros <-. unfold fd_open in Hx. rewrite O2 in Hx. by destruct Hx.
Qed.

Lemma close_run (p : string) (d0 d : DiskManager) (fd i : Z) (bs : list Z) : opened p d0 d fd i bs -> names_ok d0 -> path2fd_ d0 !! p = None ->
  exists d', close_file fd d = (Ret tt, d') /\ closed p d0 d' i bs.
Proof.
  intros [O1 O2 O3 O4 O5 O6 (T1 & T2 & T3) O8 O9 O10] Hn Hp. pose proof (valid_range fd O10) as Hr.
  assert (fd2path_ d0 !! fd = None) as Hf.
  { destruct (fd2path_ d0 !! fd) eqn:E; [|done]. destruct (Hn fd) as [j Hj]; [by rewrite E|]. by rewrite O2 in Hj. }
  destruct (close_law (dm_fs d) fd) as (C1 & C2 & C3). assert (fd_in_range fd = true) as Hr' by (unfold fd_in_range, MAX_FD; lia).
  eexists. split.
  - unfold close_file. erewrite bind_run by reflexivity. rewrite T2, lookup_insert_eq. erewrite bind_run by reflexivity. erewrite bind_run by reflexivity.
    unfold set_fd2pageno. rewrite Hr'. reflexivity.
  - split; simpl; try done.
    + intros x. destruct (decide (x = fd)) as [->|Hx]; [by rewrite C1, O2|]. by rewrite C2, O3.
    + intros x j Hj. assert (x <> fd) as Hx by congruence. rewrite (C3 x j); [by eapply O5|done|by rewrite O3].
    + intros x Hx. rewrite lookup_insert_ne; [by apply O6|]. intros <-. unfold fd_open in Hx. rewrite O2 in Hx. by destruct Hx.
    + by rewrite T1, T2, T3, !delete_insert_id.
    + by rewrite close_path.
    + by rewrite (close_keeps _ _ p i).
    + by apply close_room.
Qed.

End files.
End FileFacts.

Module ManagersSpec.
Import Disk.

(** ** The header of an index file *)

Definition hdr_vals (h : IxFileHdr) : list Z :=
  [tot_len_ h; first_free_page_no_ h; num_pages_ h; root_page_ h; col_num_ h] ++ (coltype_code <$> col_types_ h) ++ col_lens_ h ++
  [col_tot_len_ h; btree_order_ h; keys_size_ h; first_leaf_ h; last_leaf_ h].

Record hdr_wf (h : IxFileHdr) : Prop := {
  hw_types : col_num_ h = Z.of_nat (length (col_types_ h));
  hw_lens : col_num_ h = Z.of_nat (length (col_lens_ h));
  hw_tot : tot_len_ h = 40 + 8 * col_num_ h;
  hw_ints : Forall (fun v => in_i32 v = true) (hdr_vals h)
}.

Lemma length_hdr_vals (h : IxFileHdr) : hdr_wf h -> length (hdr_vals h) = (10 + 2 * Z.to_nat (col_num_ h))%nat.
Proof. intros [H1 H2 _ _]. unfold hdr_vals. rewrite !length_app, length_fmap. simpl. lia. Qed.

Lemma length_ints (vs : list Z) : length (concat (i32_bytes <$> vs)) = (4 * length vs)%nat.
Proof. induction vs as [|v vs IH]; [done|]. rewrite fmap_cons, concat_cons, length_app, IH, length_i32_bytes. simpl length. lia. Qed.

Lemma slice_ints (vs rest : list Z) (k : nat) (v : Z) : vs !! k = Some v ->
  slice (4 * k) 4 (concat (i32_bytes <$> vs) ++ rest) = i32_bytes v.
Proof.
  intros Hk. pose proof (lookup_lt_Some _ _ _ Hk).
  rewrite <- (take_drop_middle vs k v Hk), fmap_app, fmap_cons, concat_app, concat_cons, <- !app_assoc.
  assert (length (concat (i32_bytes <$> take k vs)) = (4 * k)%nat) as L by (rewrite length_ints, length_take; lia).
  rewrite slice_app_r by lia. rewrite L, Nat.sub_diag. by rewrite slice_0_app by apply length_i32_bytes.
Qed.

Lemma read_ints (vs rest : list Z) (k : nat) (v o : Z) : Forall (fun v => in_i32 v = true) vs -> vs !! k = Some v -> o = 4 * Z.of_nat k ->
  read_i32 (concat (i32_bytes <$> vs) ++ rest) o = Some v.
Proof.
  intros Hv Hk ->. pose proof (lookup_lt_Some _ _ _ Hk). unfold read_i32.
  assert (mem_read (4 * Z.of_nat k) 4 (concat (i32_bytes <$> vs) ++ rest) = Some (i32_bytes v)) as ->.
  { apply mem_read_Some. rewrite length_app, length_ints. split_and!; [lia|lia|lia|].
    replace (Z.to_nat (4 * Z.of_nat k)) with (4 * k)%nat by lia. symmetry. by apply slice_ints. }
  simpl. f_equal. apply i32_roundtrip. by eapply Forall_lookup_1 in Hv.
Qed.

Lemma mapM_seqZ {A} (f : Z -> option A) (l : list A) (n : Z) : n = Z.of_nat (length l) ->
  (forall i x, l !! i = Some x -> f (Z.of_nat i) = Some x) -> mapM f (seqZ 0 n) = Some l.
Proof.
  intros -> H. apply mapM_Some, Forall2_same_length_lookup_2; [rewrite length_seqZ; lia|].
  intros i k x Hk Hx. apply lookup_seqZ in Hk as [-> _]. rewrite Z.add_0_l. by apply H.
Qed.

Lemma ix_serialize_run (h : IxFileHdr) (dest : list Z) : hdr_wf h -> Z.of_nat (length dest) = tot_len_ h ->
  ix_hdr_serialize h dest = Some (concat (i32_bytes <$> hdr_vals h)).
Proof.
  intros W Hd. pose proof W as [H1 H2 H3 H4]. unfold ix_hdr_serialize, ix_hdr_fields.
  rewrite (mapM_seqZ (fun i => t ← col_types_ h !! Z.to_nat i; Some (i32_bytes (coltype_code t))) (i32_bytes <$> (coltype_code <$> col_types_ h))).
  2: by rewrite !length_fmap. 2: { intros i x Hx. rewrite Nat2Z.id. rewrite !list_lookup_fmap in Hx. destruct (col_types_ h !! i) as [y|]; [|done]. simpl in Hx. injection Hx as <-. reflexivity. }
  rewrite option_bind_Some. rewrite (mapM_seqZ (fun i => l ← col_lens_ h !! Z.to_nat i; Some (i32_bytes l)) (i32_bytes <$> col_lens_ h)).
  2: by rewrite length_fmap. 2: { intros i x Hx. rewrite Nat2Z.id. rewrite list_lookup_fmap in Hx. destruct (col_lens_ h !! i) as [y|]; [|done]. simpl in Hx. by injection Hx as <-. }
  rewrite !option_bind_Some. match goal with |- context [Log.put_fields 0 ?fs dest] => replace fs with (i32_bytes <$> hdr_vals h) end.
  2: { unfold hdr_vals. by rewrite !fmap_app. }
  pose proof (length_hdr_vals h W) as Hl. pose proof (length_ints (hdr_vals h)) as Hc.
  rewrite (LogFacts.put_fields_app _ [] dest) by lia. rewrite option_bind_Some, app_nil_l. rewrite (proj2 (Z.eqb_eq _ _)) by lia.
  rewrite drop_ge; [by rewrite app_nil_r|]. rewrite Hc, Hl. lia.
Qed.

Lemma lookup_mid {A} (a b c : list A) (i : nat) : (i < length b)%nat -> (a ++ b ++ c) !! (length a + i)%nat = b !! i.
Proof. intros H. rewrite lookup_app_r by lia. rewrite Nat.add_comm, Nat.add_sub. by rewrite lookup_app_l. Qed.

Lemma ix_deserialize_run (h : IxFileHdr) (rest : list Z) : hdr_wf h ->
  ix_hdr_deserialize (concat (i32_bytes <$> hdr_vals h) ++ rest) = Some h.
Proof.
  intros W. pose proof W as [H1 H2 H3 H4]. set (src := concat _ ++ rest). unfold ix_hdr_deserialize.
  assert (forall k v o, hdr_vals h !! k = Some v -> o = 4 * Z.of_nat k -> read_i32 src o = Some v) as Rd by (intros; by eapply read_ints).
  rewrite (Rd 0%nat (tot_len_ h) 0), (Rd 1%nat (first_free_page_no_ h) 4), (Rd 2%nat (num_pages_ h) 8), (Rd 3%nat (root_page_ h) 12), (Rd 4%nat (col_num_ h) 16) by done.
  rewrite !option_bind_Some. set (n := col_num_ h) in *. replace (Z.max 0 n) with n by lia.
  assert (length (coltype_code <$> col_types_ h) = Z.to_nat n) as Lt by (rewrite length_fmap; lia). assert (length (col_lens_ h) = Z.to_nat n) as Ll by lia.
  rewrite (mapM_seqZ (fun i => c ← read_i32 src (20 + 4 * i); coltype_of_code c) (col_types_ h)); [|done|].
  2: { intros i x Hx. pose proof (lookup_lt_Some _ _ _ Hx). rewrite (Rd (5 + i)%nat (coltype_code x)); [by destruct x| |lia].
       unfold hdr_vals. rewrite (lookup_mid [_; _; _; _; _] (coltype_code <$> col_types_ h)) by (rewrite length_fmap; lia). by rewrite list_lookup_fmap, Hx. }
  rewrite option_bind_Some. rewrite (mapM_seqZ (fun i => read_i32 src (20 + 4 * n + 4 * i)) (col_lens_ h)); [|done|].
  2: { intros i x Hx. pose proof (lookup_lt_Some _ _ _ Hx). apply (Rd (5 + Z.to_nat n + i)%nat); [|lia].
       unfold hdr_vals. rewrite app_assoc. replace (5 + Z.to_nat n + i)%nat with (length ([tot_len_ h; first_free_page_no_ h; num_pages_ h; root_page_ h; n] ++ (coltype_code <$> col_types_ h)) + i)%nat by (rewrite length_app, Lt; done).
       rewrite lookup_mid by lia. done. }
  rewrite option_bind_Some.
  assert (forall j v, [col_tot_len_ h; btree_order_ h; keys_size_ h; first_leaf_ h; last_leaf_ h] !! j = Some v -> hdr_vals h !! (5 + 2 * Z.to_nat n + j)%nat = Some v) as Tl.
  { intros j v Hj. unfold hdr_vals. rewrite !app_assoc. rewrite lookup_app_r by (rewrite !length_app, Lt, Ll; simpl; lia).
    rewrite !length_app, Lt, Ll. rewrite <- Hj. f_equal. simpl length. lia. }
  rewrite (Rd _ _ (20 + 8 * n) (Tl 0%nat _ eq_refl)), (Rd _ _ (20 + 8 * n + 4) (Tl 1%nat _ eq_refl)), (Rd _ _ (20 + 8 * n + 8) (Tl 2%nat _ eq_refl)),
    (Rd _ _ (20 + 8 * n + 12) (Tl 3%nat _ eq_refl)), (Rd _ _ (20 + 8 * n + 16) (Tl 4%nat _ eq_refl)) by lia.
  rewrite !option_bind_Some. rewrite (proj2 (Z.eqb_eq _ _)) by lia. by destruct h.
Qed.

Section files.
Context {R : Type} {RO : Replacer R} {RL : ReplacerLaws R} {FO : FileSystem} {FL : FileSystemLaws} {FR : FileSystemReliable} {FP : FileSystemPaths}.
Import FileFacts.

Lemma read_local_run (p : string) (d0 d : DiskManager) (fd i page_no n : Z) (bs : list Z) :
  opened p d0 d fd i bs -> page_no_ok page_no = true -> 0 < n -> (page_off page_no + Z.to_nat n <= length bs)%nat ->
  exists d', read_local fd page_no n d = (Ret (slice (page_off page_no) (Z.to_nat n) bs), d') /\ opened p d0 d' fd i bs.
Proof.
  intros [O1 O2 O3 O4 O5 O6 O7 O8 O9 O10] Hp Hn Hl. unfold read_local, read_page. assert (0 <= page_no * PAGE_SIZE) by (unfold page_no_ok, PAGE_SIZE in *; lia).
  erewrite bind_run by (apply int_op_Ret, page_no_ok_off, Hp).
  destruct (sys_lseek (dm_fs d) fd (page_no * PAGE_SIZE)) as [r fs1] eqn:E1.
  assert (r = page_no * PAGE_SIZE) as ->.
  { pose proof (lseek_ok (dm_fs d) fd (page_no * PAGE_SIZE)) as L. rewrite E1 in L. apply L; [by rewrite O1|done]. }
  erewrite bind_run by (apply zoom_run; unfold sys; simpl; rewrite E1; reflexivity).
  destruct (Z.eqb_spec (page_no * PAGE_SIZE) (-1)); [lia|]. erewrite bind_run by reflexivity. simpl.
  assert (exists x, mem_read 0 n (replicate (Z.to_nat n) 0) = Some x) as [x Hm].
  { eexists. apply mem_read_Some. rewrite length_replicate. split_and!; [done|lia|lia|reflexivity]. }
  erewrite bind_run by (rewrite Hm; reflexivity). destruct (sys_read fs1 fd n) as [[rr got] fs2] eqn:E2.
  destruct (lseek_law _ _ _ _ _ E1) as (Hi & Hb & Hpos). destruct Hpos as (_ & _ & Hpos); [lia|].
  assert (rr = n) as ->.
  { pose proof (read_ok fs1 fd n i) as L. rewrite E2 in L. simpl in L. rewrite Hi, Hpos, Hb, O9 in L. apply L; [done|lia|done|]. unfold page_off in Hl. lia. }
  destruct (read_law _ _ _ _ _ _ E2) as (Hi2 & Hb2 & Hr). destruct Hr as (j & Hj & Hlen & Hgot); [done|done|].
  assert (j = i) as -> by (rewrite Hi in Hj; congruence). rewrite Hpos, Hb, O9 in Hgot, Hlen. fold (page_off page_no) in Hgot.
  erewrite bind_run by (apply zoom_run; unfold sys; simpl; rewrite E2; reflexivity). cbv beta iota. erewrite bind_run by reflexivity. rewrite Z.eqb_refl. cbn [negb].
  eexists. split.
  - rewrite mret_run. cbn [fst snd]. f_equal. f_equal. rewrite Hgot.
    assert (length (slice (page_off page_no) (Z.to_nat n) bs) = Z.to_nat n) as L by by apply length_slice.
    rewrite take_ge by lia. unfold splice. rewrite L, drop_ge by (rewrite length_replicate; lia). simpl. by rewrite app_nil_r.
  - pose proof (lseek_path (dm_fs d) fd (page_no * PAGE_SIZE)) as L1. rewrite E1 in L1. pose proof (read_path fs1 fd n) as L2. rewrite E2 in L2. simpl in *.
    split; simpl; try done.
    + by rewrite Hi2, Hi.
    + intros y Hy. by rewrite Hi2, Hi, O3.
    + intros y k Hk. rewrite Hb2, Hb. by eapply O5.
    + by rewrite L2, L1.
    + by rewrite Hb2, Hb.
Qed.

(** A table file holds its header. *)
Definition rm_vals (h : RmFileHdr) : list Z := [record_size h; num_pages h; num_records_per_page h; first_free_page_no h; bitmap_size h].
Lemma rm_hdr_roundtrip (h : RmFileHdr) : Forall (fun v => in_i32 v = true) (rm_vals h) -> hdr_of_bytes (hdr_bytes h) = h.
Proof.
  intros H. assert (hdr_bytes h = concat (i32_bytes <$> rm_vals h) ++ []) as -> by (unfold hdr_bytes, rm_vals; cbn [fmap list_fmap concat]; by rewrite !app_nil_r).
  unfold hdr_of_bytes. change 0%nat with (4 * 0)%nat at 1. change 8%nat with (4 * 2)%nat. change 12%nat with (4 * 3)%nat. change 16%nat with (4 * 4)%nat.
  rewrite (slice_ints _ [] 0 (record_size h)), (slice_ints _ [] 2 (num_records_per_page h)), (slice_ints _ [] 3 (first_free_page_no h)), (slice_ints _ [] 4 (bitmap_size h)) by done.
  pose proof (slice_ints (rm_vals h) [] 1 (num_pages h) eq_refl) as E. change (4 * 1)%nat with 4%nat in E. rewrite E.
  unfold rm_vals in H. rewrite !Forall_cons in H. destruct h; simpl in *. rewrite !i32_roundtrip by tauto. done.
Qed.
(** ** The pool beside a new file *)
Import Bpm BpmFacts BpmSpec PoolInstance PinInstance.

Definition fresh_name (p : string) (d : DiskManager) : Prop :=
  path_ino (dm_fs d) p = None /\ sys_stat (dm_fs d) p = None /\ fd_room (dm_fs d) /\ path2fd_ d !! p = None /\ names_ok d.

Section pool.
Context (p : string) (s : BufferPoolManager R) (d : DiskManager) (fd i : Z) (bs : list Z).
Context (T : tidy s) (O : opened p (disk_manager_ s) d fd i bs).
Abbreviation s' := (set_disk d s).

Lemma bytes_kept (x : Z) : fd_open (disk_manager_ s) x -> x <> fd /\ file_bytes d x = file_bytes (disk_manager_ s) x /\ count s' x = count s x.
Proof using O.
  intros Hx. assert (x <> fd) as Hne by (intros ->; unfold fd_open in Hx; rewrite (op_new _ _ _ _ _ _ O) in Hx; by destruct Hx).
  split_and!; [done| |unfold count; simpl; by rewrite (op_count _ _ _ _ _ _ O)].
  unfold file_bytes. rewrite (op_fds _ _ _ _ _ _ O x Hne). destruct Hx as [j Hj]. rewrite Hj. simpl. f_equal. by eapply op_keep.
Qed.

Lemma set_disk_tidy : tidy s'.
Proof using T O.
  destruct T as [I W F D]. assert (forall pid f, page_table_ s !! pid = Some f -> fd_open (disk_manager_ s) (BufferPool.fd pid)) as Hop by (intros pid f E; apply (W pid f E)).
  split.
  - destruct I as [I1 I2 I3 I4 I5 I6 I7 I8 I9 I10 I11 I12]. split; try done.
    + intros x y j Hx Hy. simpl in *. destruct (decide (x = fd)) as [->|Nx], (decide (y = fd)) as [->|Ny]; [done|..].
      * rewrite (op_fd _ _ _ _ _ _ O) in Hx. rewrite (op_fds _ _ _ _ _ _ O) in Hy by done. simplify_eq. by apply (op_private _ _ _ _ _ _ O) in Hy.
      * rewrite (op_fd _ _ _ _ _ _ O) in Hy. rewrite (op_fds _ _ _ _ _ _ O) in Hx by done. simplify_eq. by apply (op_private _ _ _ _ _ _ O) in Hx.
      * rewrite !(op_fds _ _ _ _ _ _ O) in * by done. by eapply I11.
    + intros f q Hf Ht Hp Hd. destruct (I12 f q Hf Ht Hp Hd) as [E1 E2]. destruct (bytes_kept _ (Hop _ _ Ht)) as (_ & Eb & _).
      unfold synced, dpage, present, disk_page, page_present in *. simpl. by rewrite Eb.
  - intros pid f E. destruct (W pid f E) as [H1 H2]. split; [done|]. destruct (bytes_kept _ H2) as (Hne & _). destruct H2 as [j Hj]. exists j. simpl.
    by rewrite (op_fds _ _ _ _ _ _ O).
  - exact F.
  - intros pid f E. destruct (D pid f E) as [H1 H2]. split; [done|]. by rewrite (proj2 (proj2 (bytes_kept _ (Hop _ _ E)))).
Qed.

(** No page of the new file is cached. *)
Lemma new_uncached (n : Z) : page_table_ s !! mkPageId fd n = None.
Proof using T O.
  destruct (page_table_ s !! mkPageId fd n) eqn:E; [|done]. destruct (t_writable _ T _ _ E) as [_ H]. by apply bytes_kept in H as [H _].
Qed.
End pool.

(** ** A new table *)

Lemma new_hdr_ints (size : Z) : 1 <= size <= RM_MAX_RECORD_SIZE -> Forall (fun v => in_i32 v = true) (rm_vals (new_hdr size)).
Proof.
  intros H. unfold rm_vals, new_hdr. simpl. unfold RM_MAX_RECORD_SIZE in H.
  assert (0 <= records_per_page size <= 4096) as Hn.
  { unfold records_per_page, BITMAP_WIDTH, PAGE_SIZE, SIZEOF_RmFileHdr. rewrite Z.quot_div_nonneg by lia. split; [apply Z.div_pos; lia|]. apply Z.div_le_upper_bound; lia. }
  assert (0 <= Z.quot (records_per_page size + BITMAP_WIDTH - 1) BITMAP_WIDTH <= 4096) as Hb.
  { unfold BITMAP_WIDTH. rewrite Z.quot_div_nonneg by lia. split; [apply Z.div_pos; lia|]. apply Z.div_le_upper_bound; lia. }
  repeat constructor; unfold in_i32, INT32_MIN, INT32_MAX, RM_NO_PAGE; lia.
Qed.

Lemma rm_create_run (p : string) (size : Z) (d : DiskManager) : 1 <= size <= RM_MAX_RECORD_SIZE -> fresh_name p d ->
  exists d' i, rm_create_file p size d = (Ret tt, d') /\ closed p d d' i (hdr_bytes (new_hdr size)).
Proof.
  intros Hs (F1 & F2 & F3 & F4 & F5). destruct (create_run p d F1 F2 F3) as (d1 & i & R1 & C1).
  destruct (open_run p d d1 i [] C1 F4) as (d2 & fd & R2 & O2).
  destruct (write_run p d d2 fd i RM_FILE_HDR_PAGE SIZEOF_RmFileHdr [] (hdr_bytes (new_hdr size)) O2) as (d3 & R3 & O3); [done|done|].
  destruct (close_run p d d3 fd i _ O3 F5 F4) as (d4 & R4 & C4). exists d4, i. split.
  - unfold rm_create_file. rewrite (proj2 (Z.ltb_ge _ _)), (proj2 (Z.ltb_ge _ _)) by lia. cbn [orb].
    by rewrite (bind_run _ _ _ _ _ R1), (bind_run _ _ _ _ _ R2), (bind_run _ _ _ _ _ R3).
  - exact C4.
Qed.

Lemma rm_open_run (p : string) (h : RmFileHdr) (rest : list Z) (d0 d : DiskManager) (i : Z) :
  Forall (fun v => in_i32 v = true) (rm_vals h) -> closed p d0 d i (hdr_bytes h ++ rest) -> path2fd_ d0 !! p = None ->
  exists d' fd, rm_open_file p d = (Ret (fd, h), d') /\ opened p d0 d' fd i (hdr_bytes h ++ rest) /\ fd2pageno_ d' !! fd = Some (num_pages h).
Proof.
  intros Hh C Hp. destruct (open_run p d0 d i _ C Hp) as (d1 & fd & R1 & O1).
  destruct (read_local_run p d0 d1 fd i RM_FILE_HDR_PAGE SIZEOF_RmFileHdr _ O1) as (d2 & R2 & O2); [done|done| |].
  { rewrite length_app, RmFacts.length_rm_hdr_bytes. change (page_off RM_FILE_HDR_PAGE + Z.to_nat SIZEOF_RmFileHdr)%nat with 20%nat. lia. }
  change (page_off RM_FILE_HDR_PAGE) with 0%nat in R2. change (Z.to_nat SIZEOF_RmFileHdr) with 20%nat in R2.
  rewrite slice_0_app in R2 by apply RmFacts.length_rm_hdr_bytes.
  destruct (pageno_run p d0 d2 fd i (num_pages h) _ O2) as (d3 & R3 & O3 & _). destruct (pageno_run p d0 d3 fd i (num_pages h) _ O3) as (d4 & R4 & O4 & P4).
  exists d4, fd. split; [|done]. unfold rm_open_file, rm_handle. rewrite (bind_run _ _ _ _ _ R1).
  rewrite (bind_run _ _ d1 d3 h); [by rewrite (bind_run _ _ _ _ _ R4)|]. rewrite (bind_run _ _ _ _ _ R2). rewrite rm_hdr_roundtrip by done.
  by rewrite (bind_run _ _ _ _ _ R3).
Qed.

Lemma new_table_run (p : string) (size : Z) (s : BufferPoolManager R) (lk : Lock.LockManager) :
  idle s -> fresh_name p (disk_manager_ s) -> 1 <= size <= RM_MAX_RECORD_SIZE -> LockFacts.inv lk ->
  exists d1 d2 fd, rm_create_file p size (disk_manager_ s) = (Ret tt, d1) /\ rm_open_file p d1 = (Ret (fd, new_hdr size), d2) /\
    let t := Rm.mkFH (set_disk d2 s) lk fd (new_hdr size) in
    RmFacts.file_ok t /\ RmFacts.room t /\ (forall rid, RmFacts.lookup t rid = None) /\
    forall pid, fd_open (disk_manager_ s) (BufferPool.fd pid) -> logical (set_disk d2 s) pid = logical s pid.
Proof.
  intros Hidle Hf Hs Hlk. destruct (rm_create_run p size _ Hs Hf) as (d1 & i & R1 & C1). rewrite <- (app_nil_r (hdr_bytes _)) in C1.
  destruct (rm_open_run p _ [] _ d1 i (new_hdr_ints size Hs) C1) as (d2 & fd & R2 & O2 & Hc); [apply Hf|].
  pose proof (op_valid _ _ _ _ _ _ O2) as Hv. pose proof (valid_range _ Hv) as Hr.
  destruct Hidle as (T & (g & q & Hg & Hq) & Hp). pose proof (set_disk_tidy p s d2 fd i _ T O2) as T2.
  exists d1, d2, fd. split; [done|]. split; [done|]. cbv zeta. split_and!.
  - split; [| |unfold pp_count; simpl; unfold count; simpl; by rewrite Hc|intros n Hn; simpl in Hn; lia|reflexivity|done].
    + split; [by apply new_hdr_layout|done|intros n Hn; simpl in Hn; lia|].
      exists []. split_and!; [constructor|done|]. intros n Hn. simpl in Hn. lia.
    + split_and!; [exact T2|by exists g, q|exact Hp].
  - intros _. split; [|done]. split_and!; [unfold fd_in_range, MAX_FD; simpl; lia|exists i; apply O2|unfold count; simpl; by rewrite Hc|unfold count; simpl; by rewrite Hc].
  - intros rid. unfold RmFacts.lookup. simpl. destruct (Z.leb_spec 1 (rid_page_no rid)), (Z.ltb_spec (rid_page_no rid) 1); try done; lia.
  - intros pid Hpid. unfold logical. simpl. destruct (page_table_ s !! pid ≫= _) eqn:E; [done|]. unfold dpage, disk_page.
    by rewrite (proj1 (proj2 (bytes_kept p s d2 fd i _ O2 _ Hpid))).
Qed.

(** A table created under a fresh name and opened is an empty table the
    record operations work on, and the pages of every file that was open before
    are as they were. *)
Theorem rm_new_table (p : string) (size : Z) (s : BufferPoolManager R) (lk : Lock.LockManager) :
  idle s -> fresh_name p (disk_manager_ s) -> 1 <= size <= RM_MAX_RECORD_SIZE -> LockFacts.inv lk ->
  exists d1 d2 fd, rm_create_file p size (disk_manager_ s) = (Ret tt, d1) /\ rm_open_file p d1 = (Ret (fd, new_hdr size), d2) /\
    let t := Rm.mkFH (set_disk d2 s) lk fd (new_hdr size) in
    RmFacts.file_ok t /\ RmFacts.room t /\ (forall rid, RmFacts.lookup t rid = None) /\
    forall pid, fd_open (disk_manager_ s) (BufferPool.fd pid) -> logical (set_disk d2 s) pid = logical s pid.
Proof. exact (new_table_run p size s lk). Qed.

(** ** A new index *)

Section new_index.
Context (cs : list ColMeta).
Abbreviation cols := (col_pairs cs).
Context (Hok : Forall col_ok cols) (Hlen : 1 <= tot cols <= IX_MAX_COL_LEN) (Hfit : 40 + 8 * Z.of_nat (length cs) <= PAGE_SIZE).

Lemma order_of (len : Z) : 1 <= len <= IX_MAX_COL_LEN ->
  btree_order_for len = 4072 / (len + 8) - 1 /\ 6 <= btree_order_for len <= 451.
Proof using.
  clear cs Hok Hlen Hfit.
  intros H. unfold IX_MAX_COL_LEN in H. unfold btree_order_for, wrap_u, Log.SIZEOF_Rid, PAGE_SIZE, SIZEOF_IxPageHdr.
  rewrite (Z.mod_small (len + 8)) by lia. change (4096 - 24) with 4072.
  assert (7 <= 4072 / (len + 8) < 453) by (split; [apply Z.div_le_lower_bound; lia|apply Z.div_lt_upper_bound; lia]).
  rewrite Z.mod_small by lia. rewrite wrap_s_id by lia. lia.
Qed.

Lemma new_ix_layout : IxNodeFacts.ix_layout (new_ix_hdr cols).
Proof using Hok Hlen.
  destruct (order_of (tot cols) Hlen) as [E1 E2]. unfold IX_MAX_COL_LEN in Hlen. unfold new_ix_hdr, update_tot_len, set_tot_len_. fold (tot cols).
  split; simpl; try done; [by rewrite !length_fmap| | |lia|lia|].
  - unfold IxNodeFacts.cols. simpl. by rewrite zip_fst_snd.
  - unfold IxNodeFacts.cols. simpl. by rewrite zip_fst_snd.
  - unfold SIZEOF_IxPageHdr, Log.SIZEOF_Rid, PAGE_SIZE. rewrite E1. pose proof (Z.mul_div_le 4072 (tot cols + 8) ltac:(lia)). nia.
Qed.

Lemma len_bound (c : ColType * Z) : c ∈ cols -> 0 <= c.2 <= IX_MAX_COL_LEN.
Proof using Hok Hlen.
  intros Hc. assert (forall l, Forall col_ok l -> 0 <= tot l /\ (c ∈ l -> 0 <= c.2 <= tot l)) as H.
  { induction 1 as [|a l Ha _ IH]; [split; [done|intros H; by apply elem_of_nil in H]|]. rewrite tot_cons.
    assert (0 <= a.2) by (unfold col_ok in Ha; destruct (a.1); lia). split; [lia|]. intros [->|Hin]%elem_of_cons; [lia|]. apply IH in Hin. lia. }
  destruct (H _ Hok) as [_ H2]. specialize (H2 Hc). lia.
Qed.

Lemma new_ix_wf : hdr_wf (new_ix_hdr cols).
Proof using Hok Hlen Hfit.
  destruct (order_of (tot cols) Hlen) as [E1 E2]. unfold IX_MAX_COL_LEN in *.
  assert (length cols = length cs) as El by apply length_fmap.
  assert (Forall (fun v => in_i32 v = true) (snd <$> cols)) as Hl.
  { apply Forall_fmap, Forall_forall. intros c Hc%len_bound. unfold IX_MAX_COL_LEN in Hc. simpl. unfold in_i32, INT32_MIN, INT32_MAX. lia. }
  assert (Forall (fun v => in_i32 v = true) (coltype_code <$> (fst <$> cols))) as Ht by (apply Forall_fmap, Forall_forall; intros c _; simpl; by destruct c).
  unfold new_ix_hdr, update_tot_len, set_tot_len_. fold (tot cols). split; simpl; [by rewrite length_fmap..|lia|].
  unfold hdr_vals. simpl. unfold PAGE_SIZE in Hfit. unfold in_i32, INT32_MIN, INT32_MAX in *.
  repeat (apply Forall_cons; split; [cbn beta; unfold IX_NO_PAGE, IX_INIT_NUM_PAGES, IX_INIT_ROOT_PAGE; lia|]).
  apply Forall_app_2; [exact Ht|]. apply Forall_app_2; [exact Hl|].
  repeat (apply Forall_cons; split; [cbn beta; unfold IX_INIT_ROOT_PAGE; nia|]). constructor.
Qed.

End new_index.

Lemma add_lens_run (n : Z) (l : list ColMeta) (d : DiskManager) : Forall col_ok (col_pairs l) -> 0 <= n -> n + tot (col_pairs l) <= IX_MAX_COL_LEN ->
  add_lens n l d = (Ret (n + tot (col_pairs l)), d).
Proof.
  revert n. induction l as [|c l IH]; intros n Hl Hn Ht; [by rewrite Z.add_0_r|]. cbn [add_lens col_pairs fmap list_fmap] in *. rewrite tot_cons in *. simpl in Ht.
  apply Forall_cons in Hl as [Hc Hl]. assert (0 <= cm_len c) by (unfold col_ok in Hc; simpl in Hc; destruct (cm_type c); lia).
  pose proof (tot_nonneg _ Hl). fold (col_pairs l) in *. unfold IX_MAX_COL_LEN in *.
  rewrite (bind_run _ _ d d (n + cm_len c)) by (apply int_op_Ret; unfold in_i32, INT32_MIN, INT32_MAX; lia).
  rewrite IH by (done || lia). simpl. by rewrite Z.add_assoc.
Qed.

Lemma length_leaf_page (a b : Z) : length (leaf_page a b) = page_len.
Proof. unfold leaf_page. rewrite !length_app, !length_i32_bytes, length_replicate. simpl length. apply Nat2Z.inj. vm_compute. reflexivity. Qed.

(** The bytes of a new index file. *)
Definition index_bytes (h : IxFileHdr) : list Z :=
  pwrite (pwrite (pwrite [] (page_off 0) (concat (i32_bytes <$> hdr_vals h))) (page_off 1) (leaf_page IX_INIT_ROOT_PAGE IX_INIT_ROOT_PAGE))
    (page_off 2) (leaf_page IX_LEAF_HEADER_PAGE IX_LEAF_HEADER_PAGE).

Lemma page_offs : page_off 0 = 0%nat /\ page_off 1 = page_len /\ page_off 2 = (page_len + page_len)%nat.
Proof. unfold page_off, page_len, PAGE_SIZE. lia. Qed.

Lemma index_bytes_pages (h : IxFileHdr) : (length (concat (i32_bytes <$> hdr_vals h)) <= page_len)%nat ->
  length (index_bytes h) = (3 * page_len)%nat /\
  slice (page_off 0) page_len (index_bytes h) =
    concat (i32_bytes <$> hdr_vals h) ++ replicate (page_len - length (concat (i32_bytes <$> hdr_vals h))) 0 /\
  zslice (page_off 2) page_len (index_bytes h) = leaf_page IX_LEAF_HEADER_PAGE IX_LEAF_HEADER_PAGE.
Proof.
  intros Hl. destruct page_offs as (P0 & P1 & P2). set (x := concat _) in *. assert (length (index_bytes h) = (3 * page_len)%nat) as L.
  { unfold index_bytes. rewrite !length_pwrite, !length_leaf_page, P0, P1, P2. fold x. cbn [length]. clear P0 P1 P2. clearbody x. generalize dependent page_len. intros n Hn. lia. }
  split; [exact L|]. split.
  - rewrite <- zslice_slice by (rewrite L, P0; lia). unfold index_bytes. fold x.
    rewrite zslice_pwrite_disjoint by (rewrite P0, P2; lia). rewrite zslice_pwrite_disjoint by (rewrite P0, P1; lia). rewrite P0.
    unfold pwrite, zslice. rewrite take_0, drop_nil, app_nil_l, app_nil_r, drop_0.
    rewrite take_app_ge by done. rewrite take_replicate. do 2 f_equal. lia.
  - unfold index_bytes. rewrite <- (length_leaf_page IX_LEAF_HEADER_PAGE IX_LEAF_HEADER_PAGE) at 1. apply zslice_pwrite_same.
Qed.

Lemma ix_create_run (p : string) (cs : list ColMeta) (d : DiskManager) : let name := get_index_name p (cm_name <$> cs) in
  Forall col_ok (col_pairs cs) -> 1 <= tot (col_pairs cs) <= IX_MAX_COL_LEN -> 40 + 8 * Z.of_nat (length cs) <= PAGE_SIZE -> fresh_name name d ->
  exists d' i, ix_create_index p cs d = (Ret tt, d') /\ closed name d d' i (index_bytes (new_ix_hdr (col_pairs cs))).
Proof.
  intros name Hok Hlen Hfit (F1 & F2 & F3 & F4 & F5). set (h := new_ix_hdr (col_pairs cs)).
  pose proof (new_ix_wf cs Hok Hlen Hfit) as W. fold h in W. destruct (order_of (tot (col_pairs cs)) Hlen) as [Eo Bo].
  pose proof (length_ints (hdr_vals h)) as Lx. rewrite (length_hdr_vals h W) in Lx. pose proof (hw_tot _ W) as Ht. pose proof (hw_types _ W) as Hn. set (x := concat (i32_bytes <$> hdr_vals h)) in *.
  destruct (create_run name d F1 F2 F3) as (d1 & i & R1 & C1). destruct (open_run name d d1 i [] C1 F4) as (d2 & fd & R2 & O2).
  destruct (write_run name d d2 fd i 0 (tot_len_ h) [] x O2) as (d3 & R3 & O3); [lia|done|].
  destruct (write_run name d d3 fd i 1 PAGE_SIZE _ (leaf_page IX_INIT_ROOT_PAGE IX_INIT_ROOT_PAGE) O3) as (d4 & R4 & O4); [by rewrite length_leaf_page|done|].
  destruct (write_run name d d4 fd i 2 PAGE_SIZE _ (leaf_page IX_LEAF_HEADER_PAGE IX_LEAF_HEADER_PAGE) O4) as (d5 & R5 & O5); [by rewrite length_leaf_page|done|].
  destruct (pageno_run name d d5 fd i (IX_INIT_NUM_PAGES - 1) _ O5) as (d6 & R6 & O6 & _).
  destruct (close_run name d d6 fd i _ O6 F5 F4) as (d7 & R7 & C7). exists d7, i. split; [|exact C7].
  unfold ix_create_index. rewrite (bind_run _ _ _ _ _ R1), (bind_run _ _ _ _ _ R2).
  rewrite (bind_run _ _ _ _ _ (add_lens_run 0 cs d2 Hok ltac:(lia) ltac:(lia))). rewrite Z.add_0_l. rewrite (proj2 (Z.ltb_ge _ _)) by lia.
  unfold IX_MAX_COL_LEN, Log.SIZEOF_Rid in *. rewrite (proj2 (Z.eqb_neq _ _)) by (unfold wrap_u; rewrite Z.mod_small; lia).
  erewrite bind_run by reflexivity. rewrite (bind_run _ _ d2 d2 tt). 2: { by rewrite (proj2 (Z.ltb_lt _ _)) by lia. }
  rewrite (bind_run _ _ d2 d2 x). 2: { fold h. rewrite ix_serialize_run; [done|done|]. rewrite length_replicate. lia. }
  by rewrite (bind_run _ _ _ _ _ R3), (bind_run _ _ _ _ _ R4), (bind_run _ _ _ _ _ R5), (bind_run _ _ _ _ _ R6).
Qed.

Lemma ix_open_run (p : string) (names : list string) (h : IxFileHdr) (rest bs : list Z) (d0 d : DiskManager) (i : Z) : let name := get_index_name p names in
  hdr_wf h -> in_i32 (num_pages_ h - 1) = true -> closed name d0 d i bs -> path2fd_ d0 !! name = None ->
  (page_len <= length bs)%nat -> slice (page_off 0) page_len bs = concat (i32_bytes <$> hdr_vals h) ++ rest ->
  exists d' fd, ix_open_index p names d = (Ret (fd, h), d') /\ opened name d0 d' fd i bs /\ fd2pageno_ d' !! fd = Some (num_pages_ h).
Proof.
  intros name W Hn C Hp Hl Hs. destruct (open_run name d0 d i _ C Hp) as (d1 & fd & R1 & O1). destruct page_offs as (P0 & _ & _).
  destruct (read_local_run name d0 d1 fd i 0 8 _ O1) as (d2 & R2 & O2); [done|done|rewrite P0; unfold page_len, PAGE_SIZE in *; lia|].
  destruct (read_local_run name d0 d2 fd i 0 PAGE_SIZE _ O2) as (d3 & R3 & O3); [done|done|rewrite P0; exact Hl|].
  destruct (pageno_run name d0 d3 fd i (num_pages_ h) _ O3) as (d4 & R4 & O4 & P4). exists d4, fd. split; [|done].
  unfold ix_open_index, ix_handle. rewrite (bind_run _ _ _ _ _ R1). rewrite (bind_run _ _ d1 d4 h); [done|].
  rewrite (bind_run _ _ _ _ _ R2), (bind_run _ _ _ _ _ R3). fold page_len. rewrite Hs, ix_deserialize_run by done. erewrite bind_run by reflexivity.
  rewrite (bind_run _ _ d3 d3 (num_pages_ h - 1)) by by apply int_op_Ret. rewrite Z.sub_add.
  assert (in_i32 (num_pages_ h) = true) as Hi.
  { destruct W as [_ _ _ W]. unfold hdr_vals in W. simpl in W. rewrite !Forall_cons in W. tauto. }
  rewrite (bind_run _ _ _ _ _ (int_op_Ret _ d3 Hi)). by rewrite (bind_run _ _ _ _ _ R4).
Qed.

(** The empty leaf a new index has for a root. *)
Lemma leaf_page_node (h : IxFileHdr) (a b : Z) : IxNodeFacts.ix_layout h ->
  IxNodeSpec.sorted_node h (leaf_page a b) /\ IxTree.is_leaf (leaf_page a b) = true /\ IxNodeFacts.entries h (leaf_page a b) = [] /\
  IxTree.parent_no (leaf_page a b) = IX_NO_PAGE.
Proof.
  intros Lay. set (r := replicate (page_len - 24) 0).
  assert (leaf_page a b = i32_bytes IX_NO_PAGE ++ i32_bytes IX_NO_PAGE ++ i32_bytes 0 ++ [1; 0; 0; 0] ++ i32_bytes a ++ i32_bytes b ++ r) as E.
  { unfold leaf_page, r. rewrite <- !app_assoc. rewrite !length_app, !length_i32_bytes. reflexivity. }
  assert (IxNodeFacts.num_key (leaf_page a b) = 0) as E0.
  { unfold IxNodeFacts.num_key. rewrite E, !slice_app_r by (rewrite ?length_i32_bytes; lia). rewrite !length_i32_bytes. by rewrite slice_0_app by done. }
  assert (IxNodeFacts.size (leaf_page a b) = 0%nat) as Ez by (unfold IxNodeFacts.size; by rewrite E0).
  assert (IxNodeFacts.entries h (leaf_page a b) = []) as Ee by (unfold IxNodeFacts.entries; by rewrite Ez).
  split_and!; [split| |done|].
  - split_and!; [apply length_leaf_page|lia|lia].
  - unfold IxNodeSpec.keys. rewrite Ee. constructor.
  - unfold IxNodeSpec.keys. rewrite Ee. intros i j x y _ Hi. done.
  - unfold IxTree.is_leaf. rewrite E. rewrite !slice_app_r by (rewrite ?length_i32_bytes; lia). rewrite !length_i32_bytes. reflexivity.
  - unfold IxTree.parent_no. rewrite E. rewrite slice_app_r by (rewrite ?length_i32_bytes; lia). rewrite !length_i32_bytes. by rewrite slice_0_app by done.
Qed.

Definition handle_of (s : BufferPoolManager R) (fd : Z) (h : IxFileHdr) : Ix.IxIndexHandle (BufferPoolManager R) :=
  Ix.mkIH s fd h false ∅ [] [].

Lemma new_index_run (p : string) (cs : list ColMeta) (s : BufferPoolManager R) : let cols := col_pairs cs in let h := new_ix_hdr cols in
  tidy s -> (0 < spare s)%nat -> fresh_name (get_index_name p (cm_name <$> cs)) (disk_manager_ s) ->
  Forall col_ok cols -> 1 <= tot cols <= IX_MAX_COL_LEN -> 40 + 8 * Z.of_nat (length cs) <= PAGE_SIZE ->
  exists d1 d2 fd, ix_create_index p cs (disk_manager_ s) = (Ret tt, d1) /\ ix_open_index p (cm_name <$> cs) d1 = (Ret (fd, h), d2) /\
    let t := handle_of (set_disk d2 s) fd h in
    IxNodeFacts.ix_layout h /\ IxTree.quiet t /\ IxTree.tree h (IxTree.content t) (IxTree.page_ok t) 0 (root_page_ h) [] /\
    IxTree.parent_no (IxTree.content t (root_page_ h)) = IX_NO_PAGE /\
    pn_file (set_disk d2 s) fd /\ pn_count (set_disk d2 s) fd = 3 /\ pn_spare (set_disk d2 s) = spare s.
Proof.
  intros cols h T Hsp Hf Hok Hlen Hfit. set (name := get_index_name p (cm_name <$> cs)) in *.
  destruct (ix_create_run p cs _ Hok Hlen Hfit Hf) as (d1 & i & R1 & C1). fold cols h name in C1.
  pose proof (new_ix_wf cs Hok Hlen Hfit) as W. fold cols h in W. pose proof (new_ix_layout cs Hok Hlen) as Lay. fold cols h in Lay.
  destruct (index_bytes_pages h) as (L3 & S0 & Z2).
  { rewrite length_ints, (length_hdr_vals h W). pose proof (hw_types _ W) as Hn. assert (length (col_types_ h) = length cs) as E by (transitivity (length (fst <$> col_pairs cs)); [done|]; unfold col_pairs; by rewrite !length_fmap).
    unfold page_len, PAGE_SIZE in *. lia. }
  destruct (ix_open_run p (cm_name <$> cs) h (replicate (page_len - length (concat (i32_bytes <$> hdr_vals h))) 0) _ (disk_manager_ s) d1 i W eq_refl C1) as (d2 & fd & R2 & O2 & Hc); [apply Hf|rewrite L3; lia|exact S0|].
  fold name in O2. exists d1, d2, fd. split; [done|]. split; [done|]. cbv zeta.
  pose proof (set_disk_tidy name s d2 fd i _ T O2) as T2. pose proof (valid_range _ (op_valid _ _ _ _ _ _ O2)) as Hr.
  assert (forall n, page_table_ (set_disk d2 s) !! mkPageId fd n = None) as Hu by (intros n; exact (new_uncached name s d2 fd i _ T O2 n)).
  assert (file_bytes d2 fd = Some (index_bytes h)) as Hb by (unfold file_bytes; rewrite (op_fd _ _ _ _ _ _ O2); simpl; by rewrite (op_bytes _ _ _ _ _ _ O2)).
  assert (count (set_disk d2 s) fd = 3) as H3 by (unfold count; simpl; by rewrite Hc).
  set (t := handle_of (set_disk d2 s) fd h).
  assert (IxTree.content t 2 = leaf_page IX_LEAF_HEADER_PAGE IX_LEAF_HEADER_PAGE) as Ec.
  { unfold IxTree.content, IxTree.pid. change (logical (set_disk d2 s) (mkPageId fd 2) = leaf_page IX_LEAF_HEADER_PAGE IX_LEAF_HEADER_PAGE).
    unfold logical. rewrite Hu. unfold dpage, disk_page. simpl. by rewrite Hb, Z2. }
  destruct (leaf_page_node h IX_LEAF_HEADER_PAGE IX_LEAF_HEADER_PAGE Lay) as (N1 & N2 & N3 & N4).
  change (root_page_ h) with 2. split_and!; [done| | |by rewrite Ec| |exact H3|done].
  - split; try done. intros n. unfold IxTree.pinned, IxTree.pid. change (pins (set_disk d2 s) (mkPageId fd n) = 0). unfold pins. by rewrite Hu.
  - cbn [IxTree.tree]. rewrite Ec. split_and!; try done.
    unfold IxTree.page_ok, IxTree.pid. change (page_exists (set_disk d2 s) (mkPageId fd 2)).
    split_and!; [done|simpl; lia|done|by exists i; apply O2|]. right. unfold present, page_present. cbn [BufferPool.fd page_no disk_manager_ set_disk]. rewrite Hb. split; [done|].
    destruct page_offs as (_ & _ & ->). rewrite L3. lia.
  - split_and!; [unfold fd_in_range, MAX_FD; lia|by exists i; apply O2|lia|by rewrite H3].
Qed.

(** An index created under a fresh name and opened is an empty tree, with
    the node layout its columns ask for, ready for the tree operations. *)
Theorem ix_new_index (p : string) (cs : list ColMeta) (s : BufferPoolManager R) : let cols := col_pairs cs in let h := new_ix_hdr cols in
  tidy s -> (0 < spare s)%nat -> fresh_name (get_index_name p (cm_name <$> cs)) (disk_manager_ s) ->
  Forall col_ok cols -> 1 <= tot cols <= IX_MAX_COL_LEN -> 40 + 8 * Z.of_nat (length cs) <= PAGE_SIZE ->
  exists d1 d2 fd, ix_create_index p cs (disk_manager_ s) = (Ret tt, d1) /\ ix_open_index p (cm_name <$> cs) d1 = (Ret (fd, h), d2) /\
    let t := handle_of (set_disk d2 s) fd h in
    IxNodeFacts.ix_layout h /\ IxTree.quiet t /\ IxTree.tree h (IxTree.content t) (IxTree.page_ok t) 0 (root_page_ h) [] /\
    IxTree.parent_no (IxTree.content t (root_page_ h)) = IX_NO_PAGE /\
    pn_file (set_disk d2 s) fd /\ pn_count (set_disk d2 s) fd = 3 /\ pn_spare (set_disk d2 s) = spare s.
Proof. exact (new_index_run p cs s). Qed.

End files.

End ManagersSpec.

Module TableDemo.
Import Disk Bpm BpmFacts BpmSpec PoolInstance Replacer.Lru Posix.MemFS FileFacts RmDemo ManagersSpec.

Definition pool_t : BufferPoolManager LRUReplacer := Bpm.make 0 3 demo_dm.

Lemma rm_new_table_witness : exists d1 d2 fd, rm_create_file "r" 8 (disk_manager_ pool_t) = (Ret tt, d1) /\ rm_open_file "r" d1 = (Ret (fd, new_hdr 8), d2) /\
  let t := Rm.mkFH (set_disk d2 pool_t) demo_locks fd (new_hdr 8) in
  RmFacts.file_ok t /\ RmFacts.room t /\ (forall rid, RmFacts.lookup t rid = None) /\
  forall pid, fd_open (disk_manager_ pool_t) (BufferPool.fd pid) -> logical (set_disk d2 pool_t) pid = logical pool_t pid.
Proof.
  apply (rm_new_table "r" 8 pool_t demo_locks demo_idle).
  - split_and!; try reflexivity; [exists 3; vm_compute; reflexivity|]. intros x [y Hy]. simpl in Hy. by rewrite lookup_empty in Hy.
  - unfold RM_MAX_RECORD_SIZE. lia.
  - exact demo_locks_inv.
Defined.
End TableDemo.
