(* ===== verification/IxSpec.v ===== *)
(** * The index as a map from keys to record positions

    Searching a tree of any height, inserting into a one-leaf index, and where
    merging nodes fails. *)

From S2P Require Import Prelude Bytes Posix Disk ManagersSpec Replacer BufferPool BufferPoolFacts BufferPoolSpec PagePool PinPool Txn Log IxDefs IxCompare IxNode IxNodeFacts IxNodeSpec IxIndex IxTree IxPage IxInsert Values SmMeta Managers.

Module IxSpec.
Import Ix IxNodeFacts IxNodeSpec IxTree IxPage IxInsert.

Section spec.
Context {T : Type} {PO : PagePool T} {PN : PinPool T} {PL : PinPoolLaws T}.
Abbreviation IH := (IxIndexHandle T).
Implicit Types s : IH.

(** ** Entries after an insertion *)

Section entries.
Context (h : IxFileHdr) (Lay : ix_layout h).
Abbreviation kc := (kcmp h).

Lemma kc_congr (t k x : list Z) : valid_key h t -> valid_key h k -> valid_key h x -> kc t k = 0 -> 0 < kc k x -> kc t x <> 0.
Proof.
  intros Ht Hk Hx E H. destruct (kc_order h Lay) as [Oa Ot]. rewrite (Oa x k) in H by done.
  pose proof (kc_lt_le h Lay x k t Hx Hk Ht ltac:(lia)) as L. rewrite (Oa t k) in L by done. rewrite (Oa x t) by done. lia.
Qed.

(** Looking up in [a ++ (key, v) :: b], where [key] is not among [a]. *)
Lemma found_insert (a b : list (list Z * list Z)) (key t : list Z) (v : Rid) :
  in_i32 (rid_page_no v) = true -> in_i32 (rid_slot_no v) = true -> valid_key h t -> valid_key h key ->
  Forall (fun e => valid_key h e.1 /\ 0 < kc key e.1) a ->
  found h t (a ++ (key, Log.rid_bytes v) :: b) = if kc t key =? 0 then Some v else found h t (a ++ b).
Proof.
  intros H1 H2 Ht Hk Ha. unfold found, find_key. rewrite !find_app. cbn [List.find fst]. destruct (Z.eqb_spec (kc t key) 0) as [E|E].
  - rewrite (find_none _ a); [change (Some (IxNode.rid_of_bytes (Log.rid_bytes v)) = Some v); by rewrite rid_roundtrip|]. eapply Forall_impl; [exact Ha|]. simpl. intros e [He1 He2].
    apply Z.eqb_neq. by apply (kc_congr t key).
  - by destruct (List.find _ a).
Qed.
End entries.

(** ** Correctness *)

(** C31: on a search tree of any height, [get_value] and [is_key_exist] return
    exactly what the entries of the tree say about the key, the recursion bound
    being any number not below the height, and leave the tree, the pins and the
    latches as they were. *)
Theorem index_search (s : IH) (key : list Z) (txn : bool) (n fuel : nat) (es : list (list Z * list Z)) : let h := ix_hdr s in
  ix_layout h -> quiet s -> tree h (content s) (page_ok s) n (root_page_ h) es -> (n <= fuel)%nat -> valid_key h key ->
  (exists s', get_value fuel key txn s = (Ret (match found h key es with Some r => (true, [r]) | None => (false, []) end), s') /\
     quiet s' /\ same_index s s') /\
  (exists s', is_key_exist fuel key txn s = (Ret (bool_decide (is_Some (found h key es))), s') /\ quiet s' /\ same_index s s').
Proof.
  intros h Lay Q Ht Hf Hk. split; [by apply (get_value_run h Lay key txn n)|by apply (is_key_exist_run h Lay key txn n)].
Qed.

(** C32: inserting a key that the index does not hold, and whose old copy is not
    left in the free slot behind the last entry ([~ stale]), into an index that is
    one leaf returns the leaf and yields a search tree with the entry added, of
    height 0 or, when the leaf fills up and is split under a new root, of height 1.
    Without a split the header and the links of the leaf are as before.  With one
    the new leaf, page [n], has the old one before it and its successor behind it,
    the old leaf points to it, both have the new root, page [n + 1], as parent, the
    root has none, and the header has the new root, two more pages, and the new
    leaf as last leaf where the old one was; all other pages are as they were.
    Afterwards a search finds the new position for the key and the old answer for
    every other. *)
Theorem index_insert (s : IH) (key : list Z) (value : Rid) (fuel : nat) (es : list (list Z * list Z)) :
  let h := ix_hdr s in let p := root_page_ h in let n := pn_count (ix_pool s) (ix_fd s) in
  ix_layout h -> quiet s -> (3 <= pn_spare (ix_pool s))%nat -> pn_file (ix_pool s) (ix_fd s) ->
  Disk.page_no_ok n = true -> Disk.page_no_ok (n + 1) = true -> 0 <= num_pages_ h -> in_i32 (num_pages_ h + 2) = true ->
  tree h (content s) (page_ok s) 0 p es -> parent_no (content s p) = IX_NO_PAGE -> (length es < cap h)%nat ->
  valid_key h key -> (forall e, e ∈ es -> kcmp h key e.1 <> 0) -> ~ stale h (content s p) key ->
  in_i32 (rid_page_no value) = true -> in_i32 (rid_slot_no value) = true ->
  exists s' k es', insert_entry fuel key value true s = (Ret p, s') /\ quiet s' /\ ix_fd s' = ix_fd s /\
    k = (if decide (length es + 1 = cap h) then 1 else 0)%nat /\
    tree (ix_hdr s') (content s') (page_ok s') k (root_page_ (ix_hdr s')) es' /\ es' ≡ₚ (key, Log.rid_bytes value) :: es /\ insert_links s s' k /\
    forall t, valid_key h t -> exists s'',
      get_value 1 t true s' =
        (Ret (match (if kcmp h t key =? 0 then Some value else found h t es) with Some r => (true, [r]) | None => (false, []) end), s'').
Proof.
  intros h p n Lay Q Hsp Hfile Hn Hn1 H0 Hi (Hp & Sn & Hleaf & ->) Hpar Hc Hk Hno Hst Hr1 Hr2. rewrite length_entries in *.
  assert (~ has_key h (content s p) key) as Hno'.
  { intros (k & Hin & E). unfold keys in Hin. apply list_elem_of_fmap in Hin as (e & -> & He). by eapply Hno. }
  assert (exists s' r, insert_entry fuel key value true s = (Ret p, s') /\
    insert_post s key value s' (if decide (size (content s p) + 1 = cap h)%nat then 1 else 0)%nat r) as (s' & r & R & (Q' & Hr & Ef & Sh & Lay' & _ & Ht & Hln)).
  { destruct (decide (size (content s p) + 1 = cap h)%nat) as [E|E].
    - exact (insert_split s Lay fuel key value Q Hsp Hfile Hp Sn Hleaf Hpar Hk Hno' Hst Hc E Hn Hn1 H0 Hi).
    - apply (insert_no_split s Lay fuel key value Q Hsp Hfile Hp Sn Hleaf Hpar Hk Hno' Hst Hc). fold h p. lia. }
  fold h p in Hr. exists s', (if decide (size (content s p) + 1 = cap h)%nat then 1 else 0)%nat, (inserted s key value r).
  split_and!; [done|done|done|done|done| |done|].
  { unfold inserted. fold h p. rewrite <- Permutation_middle, take_drop. done. }
  intros t Hvt. assert (same_shape h (ix_hdr s')) as Sh' by (destruct Sh as (? & ? & ? & ? & ?); by split_and!).
  destruct (get_value_run (ix_hdr s') Lay' t true (if decide (size (content s p) + 1 = cap h)%nat then 1 else 0) 1 s' _ eq_refl Q' Ht) as (s'' & R' & _); [by case_decide; lia|by apply (shape_valid h)|].
  exists s''. rewrite R'. do 2 f_equal. rewrite (shape_found h (ix_hdr s') Sh'). unfold inserted. fold h p.
  rewrite (found_insert h Lay), take_drop; [done..|]. apply Forall_forall. intros e He.
  apply list_elem_of_lookup in He as [j Hj]. apply lookup_take_Some in Hj as [Hj Hjr].
  assert (keys h (content s p) !! j = Some e.1) as Hkj by (unfold keys; by rewrite list_lookup_fmap, Hj).
  split; [by eapply Forall_lookup_1 in Hkj; [|apply Sn]|]. destruct Hr as (_ & Hr & _). by eapply Hr.
Qed.

(** ** Merging under the root *)

Lemma node_get_state {A} (f : Z) (m : IxFileHdr -> M (list Z) A) (s s' : IH) (r : outcome A) : node_get f m s = (r, s') -> s' = s.
Proof.
  unfold node_get, page_of, mbind, M_bind, gets, unwrap. destruct (pp_page (ix_pool s) f); [|by intros [= _ <-]]. by intros [= _ <-].
Qed.

Lemma release_null (s : IH) : release_root None s = (Stuck NullDeref, s).
Proof. done. Qed.

(** With a null [root_is_latched] only a node that is not the root and is not
    underfull is let through. *)
Lemma coalesce_null_returns (fuel : nat) (node : Z) (txn : bool) (s s' : IH) (r : bool * option bool) :
  coalesce_or_redistribute fuel node txn None s = (Ret r, s') ->
  r = (false, None) /\ is_root_page node s = (Ret false, s) /\
  exists sz, get_size node s = (Ret sz, s) /\ IxNode.get_min_size (ix_hdr s) <= sz.
Proof.
  intros H. destruct fuel as [|fuel]; cbn [coalesce_or_redistribute] in H.
  all: apply bind_Ret_inv in H as (root & s1 & R1 & H); pose proof (node_get_state _ _ _ _ _ R1) as ->; destruct root;
    [apply bind_Ret_inv in H as (nd & s2 & _ & H); apply bind_Ret_inv in H as (l & s3 & E & _); by rewrite release_null in E|].
  all: apply bind_Ret_inv in H as (sz & s2 & R2 & H); pose proof (node_get_state _ _ _ _ _ R2) as ->.
  all: erewrite bind_run in H by reflexivity; destruct (Z.leb_spec (IxNode.get_min_size (ix_hdr s)) sz) as [Hsz|Hsz].
  1, 3: apply bind_Ret_inv in H as (x & s3 & _ & H); apply bind_Ret_inv in H as (y & s4 & _ & H); injection H as <- _; by eauto.
  - done.
  - do 8 apply bind_Ret_inv in H as (? & ? & _ & H). destruct (_ <=? _) in H.
    + do 7 apply bind_Ret_inv in H as (? & ? & _ & H). apply bind_Ret_inv in H as (? & ? & E & _). by rewrite release_null in E.
    + do 8 apply bind_Ret_inv in H as (? & ? & _ & H). apply bind_Ret_inv in H as (? & ? & E & _). by rewrite release_null in E.
Qed.

(** Called with a null [root_is_latched], as the recursion after a merge
    calls it, [coalesce_or_redistribute] does not return for the root or for an
    underfull node: a deletion that merges two children of the root never
    completes. *)
Theorem coalesce_null_latch (fuel : nat) (node : Z) (txn : bool) (s : IH) :
  is_root_page node s = (Ret true, s) \/ (exists sz, get_size node s = (Ret sz, s) /\ sz < IxNode.get_min_size (ix_hdr s)) ->
  forall r, (coalesce_or_redistribute fuel node txn None s).1 <> Ret r.
Proof.
  intros H r E. destruct (coalesce_or_redistribute fuel node txn None s) as [o s'] eqn:R. simpl in E. subst o.
  destruct (coalesce_null_returns fuel node txn s s' r R) as (_ & R1 & sz & R2 & Hsz).
  destruct H as [H|(z & H & Hz)]; [by rewrite H in R1|]. rewrite H in R2. injection R2 as <-. lia.
Qed.

End spec.
End IxSpec.

Module IxDemo.
Import Bpm BpmFacts BpmSpec PoolInstance PinInstance Replacer.Lru Posix.MemFS FileFacts ManagersSpec Ix IxNodeFacts IxNodeSpec IxTree IxPage IxInsert IxSpec.

Lemma make_tidy {R : Type} {RO : Replacer R} {RL : ReplacerLaws R} {FO : FileSystem} {FL : FileSystemLaws} (g : Z) (n : nat) (d : Disk.DiskManager) :
  fd_distinct (Disk.dm_fs d) -> tidy (Bpm.make (R := R) g n d).
Proof.
  intros Hd. split.
  - by apply make_inv.
  - intros pid f E. simpl in E. by rewrite lookup_empty in E.
  - intros x q _ Hq. unfold frame in Hq. destruct (0 <=? x); [|done]. by apply lookup_replicate in Hq as [-> _].
  - intros pid f E. simpl in E. by rewrite lookup_empty in E.
Qed.

(** A pool of four frames over an empty disk, and an index on an [INT] column. *)
Definition pool0 : BufferPoolManager LRUReplacer := Bpm.make 0 4 (Disk.make MemFS.empty).
Definition cols_a : list ColMeta := [mkCol "t" "a" TYPE_INT 4 0 true].
Definition hd : IxFileHdr := new_ix_hdr (col_pairs cols_a).
Definition disk1 : Disk.DiskManager := (ix_create_index "t" cols_a (disk_manager_ pool0)).2.
Definition disk2 : Disk.DiskManager := (ix_open_index "t" (cm_name <$> cols_a) disk1).2.
Definition fd0 : Z := match (ix_open_index "t" (cm_name <$> cols_a) disk1).1 with Ret (fd, _) => fd | _ => 0 end.
Definition empty_index : IxIndexHandle (BufferPoolManager LRUReplacer) := handle_of (set_disk disk2 pool0) fd0 hd.

Lemma pool0_tidy : tidy pool0.
Proof. apply make_tidy. intros x y i Hx. simpl in Hx. unfold ino in Hx. simpl in Hx. by rewrite lookup_empty in Hx. Qed.

Lemma fresh0 : fresh_name (get_index_name "t" (cm_name <$> cols_a)) (disk_manager_ pool0).
Proof.
  split_and!; try reflexivity.
  - exists 3. vm_compute. reflexivity.
  - intros x [y Hy]. simpl in Hy. by rewrite lookup_empty in Hy.
Qed.

Lemma empty_index_ok : ix_layout hd /\ quiet empty_index /\ tree hd (content empty_index) (page_ok empty_index) 0 (root_page_ hd) [] /\
  parent_no (content empty_index (root_page_ hd)) = IX_NO_PAGE /\ pn_file (ix_pool empty_index) (ix_fd empty_index) /\
  pn_count (ix_pool empty_index) (ix_fd empty_index) = 3 /\ pn_spare (ix_pool empty_index) = 4%nat.
Proof.
  destruct (new_index_run "t" cols_a pool0 pool0_tidy) as (d1 & d2 & fd & R1 & R2 & H).
  - vm_compute. lia.
  - exact fresh0.
  - by repeat constructor.
  - done.
  - done.
  - assert (disk1 = d1) as E1 by (unfold disk1; by rewrite R1).
    assert (disk2 = d2) as E2 by (unfold disk2; rewrite E1; by rewrite R2).
    assert (fd0 = fd) as E3 by (unfold fd0; rewrite E1; by rewrite R2).
    unfold empty_index. rewrite E2, E3. destruct H as (H1 & H2 & H3 & H4 & H5 & H6 & H7). split_and!; [exact H1|exact H2|exact H3|exact H4|exact H5|exact H6|exact H7].
Qed.

Definition key (n : Z) : list Z := i32_bytes n.
Definition one_entry : IxIndexHandle (BufferPoolManager LRUReplacer) := (insert_entry 1 (key 7) (mkRid 1 4) true empty_index).2.

Lemma key_ok (n : Z) : valid_key hd (key n).
Proof. apply IxNodeDemo.key_valid_int. Qed.

Lemma not_stale_empty : ~ stale hd (content empty_index (root_page_ hd)) (key 7).
Proof.
  destruct empty_index_ok as (_ & _ & (_ & _ & _ & He) & _). intros [H _]. rewrite <- (length_entries hd), <- He in H. simpl in H. lia.
Qed.

(** The index with one entry, as the insertion leaves it. *)
Lemma one_entry_ok : ix_hdr one_entry = hd /\ quiet one_entry /\
  tree hd (content one_entry) (page_ok one_entry) 0 (root_page_ hd) [(key 7, Log.rid_bytes (mkRid 1 4))].
Proof.
  destruct empty_index_ok as (Lay & Q & (Hp & Sn & Hl & He) & Hpar & Hf & Hc & Hsp). set (d := content empty_index (root_page_ hd)) in *.
  assert (size d = 0%nat) as Ez by (rewrite <- (length_entries hd), <- He; done).
  assert (3 <= pn_spare (ix_pool empty_index))%nat as Hsp' by (rewrite Hsp; lia).
  assert (~ has_key hd d (key 7)) as Hno by (intros (k & Hk & _); unfold keys in Hk; rewrite <- He in Hk; by apply elem_of_nil in Hk).
  assert (2 <= cap hd)%nat as Hcap by (apply Nat.leb_le; vm_compute; reflexivity).
  assert (size d < cap hd)%nat as Hroom by lia. assert (size d + 1 < cap hd)%nat as Hroom' by (destruct (layout_nat hd Lay) as (_ & L3 & _); lia).
  destruct (insert_no_split empty_index Lay 1 (key 7) (mkRid 1 4) Q Hsp' Hf Hp Sn Hl Hpar (key_ok 7) Hno not_stale_empty Hroom Hroom')
    as (s' & r & R & (Q' & Hr & _ & _ & _ & _ & Ht & _)).
  assert (one_entry = s') as E by (unfold one_entry; by rewrite R). assert (ix_hdr s' = hd) as Eh by (rewrite <- E; vm_compute; reflexivity).
  rewrite E. rewrite Eh in Ht. split; [exact Eh|]. split; [exact Q'|]. unfold inserted in Ht. change (ix_hdr empty_index) with hd in Ht. fold d in Ht. rewrite <- He in Ht.
  rewrite take_nil, drop_nil in Ht. exact Ht.
Qed.

Lemma index_search_witness : found hd (key 7) [(key 7, Log.rid_bytes (mkRid 1 4))] = Some (mkRid 1 4) /\
  (exists s', get_value 1 (key 7) true one_entry = (Ret (true, [mkRid 1 4]), s') /\ quiet s' /\ same_index one_entry s') /\
  (exists s', is_key_exist 1 (key 7) true one_entry = (Ret true, s') /\ quiet s' /\ same_index one_entry s').
Proof.
  destruct one_entry_ok as (Eh & Q & Ht). pose proof (proj1 empty_index_ok) as Lay.
  assert (found hd (key 7) [(key 7, Log.rid_bytes (mkRid 1 4))] = Some (mkRid 1 4)) as F by (vm_compute; reflexivity). split; [exact F|].
  pose proof (index_search one_entry (key 7) true 0 1 [(key 7, Log.rid_bytes (mkRid 1 4))]) as H. cbv zeta in H. rewrite Eh, F in H.
  destruct (H Lay Q Ht (Nat.le_0_l 1) (key_ok 7)) as [H1 H2]. rewrite bool_decide_eq_true_2 in H2 by done. exact (conj H1 H2).
Defined.

(** ** A leaf that fills up

    An index on a [CHAR(512)] column, whose nodes hold seven entries: six keys go
    into the leaf, the seventh splits it. *)

Definition cols_w : list ColMeta := [mkCol "t" "w" TYPE_STRING 512 0 true].
Definition hw : IxFileHdr := new_ix_hdr (col_pairs cols_w).
Definition wdisk1 : Disk.DiskManager := (ix_create_index "t" cols_w (disk_manager_ pool0)).2.
Definition wdisk2 : Disk.DiskManager := (ix_open_index "t" (cm_name <$> cols_w) wdisk1).2.
Definition wfd : Z := match (ix_open_index "t" (cm_name <$> cols_w) wdisk1).1 with Ret (fd, _) => fd | _ => 0 end.
Abbreviation DemoIH := (IxIndexHandle (BufferPoolManager LRUReplacer)).
Definition wkey (k : nat) : list Z := Z.of_nat (Datatypes.S k) :: replicate 511 0.
Definition wrid (k : nat) : Rid := mkRid 1 (Z.of_nat k).
(** The index with the first [k] keys. *)
Fixpoint wide (k : nat) : DemoIH :=
  match k with
  | O => handle_of (set_disk wdisk2 pool0) wfd hw
  | Datatypes.S k => (insert_entry 1 (wkey k) (wrid k) true (wide k)).2
  end.

(** What holds of it as long as it is one leaf. *)
Definition one_leaf (s : DemoIH) (es : list (list Z * list Z)) : Prop :=
  ix_hdr s = hw /\ quiet s /\ tree hw (content s) (page_ok s) 0 2 es /\ parent_no (content s 2) = IX_NO_PAGE /\
  pn_file (ix_pool s) (ix_fd s) /\ pn_count (ix_pool s) (ix_fd s) = 3 /\ (3 <= pn_spare (ix_pool s))%nat.

Lemma wide_layout : ix_layout hw /\ one_leaf (wide 0) [].
Proof.
  destruct (new_index_run "t" cols_w pool0 pool0_tidy) as (d1 & d2 & fd & R1 & R2 & H).
  - vm_compute. lia.
  - split_and!; try reflexivity; [exists 3; vm_compute; reflexivity|]. intros x [y Hy]. simpl in Hy. by rewrite lookup_empty in Hy.
  - by repeat constructor.
  - done.
  - done.
  - assert (wdisk1 = d1) as E1 by (unfold wdisk1; by rewrite R1).
    assert (wdisk2 = d2) as E2 by (unfold wdisk2; rewrite E1; by rewrite R2).
    assert (wfd = fd) as E3 by (unfold wfd; rewrite E1; by rewrite R2).
    unfold one_leaf, wide. rewrite E2, E3. destruct H as (H1 & H2 & H3 & H4 & H5 & H6 & H7). split; [exact H1|].
    split_and!; [reflexivity|exact H2|exact H3|exact H4|exact H5|exact H6|]. change (3 <= pn_spare (set_disk d2 pool0))%nat. rewrite H7. vm_compute. lia.
Qed.

Lemma wkey_valid (k : nat) : (k < 255)%nat -> valid_key hw (wkey k).
Proof.
  intros Hk. exists (wkey k), []. split_and!; [by rewrite app_nil_r| |done]. split_and!; [by unfold wkey; cbn [length]; rewrite length_replicate| |done].
  constructor; [apply andb_true_intro; split; [apply Z.leb_le|apply Z.ltb_lt]; lia|]. by apply Forall_replicate.
Qed.

(** The keys differ, and none is left behind the entries. *)
Definition fresh_step (k : nat) : bool :=
  let d := content (wide k) 2 in
  negb (kcmp hw (nkey hw d (size d)) (wkey k) =? 0) && forallb (fun j => negb (kcmp hw (wkey k) (wkey j) =? 0)) (seq 0 k).
Lemma fresh_steps : forallb fresh_step (seq 0 7) = true.
Proof. vm_compute. reflexivity. Qed.

Definition wentries (k : nat) : list (list Z * list Z) := (fun j => (wkey j, Log.rid_bytes (wrid j))) <$> seq 0 k.

Lemma fresh_at (k : nat) (es : list (list Z * list Z)) : (k < 7)%nat -> es ≡ₚ wentries k ->
  ~ stale hw (content (wide k) 2) (wkey k) /\ forall e, e ∈ es -> kcmp hw (wkey k) e.1 <> 0.
Proof.
  intros Hk Hp. pose proof fresh_steps as H. rewrite forallb_forall in H. specialize (H k ltac:(apply in_seq; lia)). apply andb_prop in H as [H1 H2]. split.
  - intros (_ & _ & E). unfold fresh_step in H1. by rewrite E in H1.
  - intros e He. rewrite Hp in He. apply list_elem_of_fmap in He as (j & -> & Hj). rewrite forallb_forall in H2. apply list_elem_of_In in Hj.
    specialize (H2 j Hj). apply negb_true_iff, Z.eqb_neq in H2. exact H2.
Qed.

Lemma wide_cap : cap hw = 7%nat.
Proof. vm_compute. reflexivity. Qed.

Lemma wide_ok (k : nat) : (k <= 6)%nat -> exists es, one_leaf (wide k) es /\ es ≡ₚ wentries k.
Proof.
  destruct wide_layout as [Lay W0]. induction k as [|k IH]; intros Hk; [by exists []|].
  destruct IH as (es & (Eh & Q & Ht & Hpar & Hf & Hc & Hsp) & Hp); [lia|]. destruct (fresh_at k es ltac:(lia) Hp) as [Hst Hno].
  destruct Ht as (Hpg & Sn & Hl & He). assert (length es = k) as Hlen by (rewrite Hp; unfold wentries; by rewrite length_fmap, length_seq).
  assert (size (content (wide k) 2) = k) as Hsz by (rewrite <- (length_entries hw), <- He; done).
  pose proof (insert_no_split (wide k)) as Ins. rewrite Eh in Ins. change (root_page_ hw) with 2 in Ins.
  destruct (Ins Lay 1%nat (wkey k) (wrid k) Q Hsp Hf Hpg Sn Hl Hpar (wkey_valid k ltac:(lia))) as (s' & r & R & (Q' & Hr & Ef & _ & _ & Hsp' & Ht' & Hln)).
  - intros (x & Hx & E). unfold keys in Hx. rewrite <- He in Hx. apply list_elem_of_fmap in Hx as (e & -> & Hin). by apply (Hno e).
  - done.
  - rewrite Hsz, wide_cap. lia.
  - rewrite Hsz, wide_cap. lia.
  - destruct Hln as ((E1 & E2 & _) & _ & E3 & E4). rewrite Eh in E1, E2. rewrite E1 in Ht'. change (root_page_ hw) with 2 in Ht', E2.
    unfold inserted in Ht'. rewrite Eh in Ht'. change (root_page_ hw) with 2 in Ht'. rewrite <- He in Ht'.
    exists (take r es ++ (wkey k, Log.rid_bytes (wrid k)) :: drop r es). cbn [wide]. rewrite R. cbn [snd]. rewrite Hc in E3, E4. split; [|].
    + split_and!; [exact E1|exact Q'|exact Ht'|exact E2|by apply E4|exact E3|exact Hsp'].
    + rewrite <- Permutation_middle, take_drop. unfold wentries. rewrite seq_S, fmap_app, Hp. cbn [fmap list_fmap]. by rewrite Permutation_app_comm.
Qed.

Lemma index_insert_witness : exists es s' es', es ≡ₚ wentries 6 /\ insert_entry 1 (wkey 6) (wrid 6) true (wide 6) = (Ret 2, s') /\ quiet s' /\
    tree (ix_hdr s') (content s') (page_ok s') 1 4 es' /\ es' ≡ₚ (wkey 6, Log.rid_bytes (wrid 6)) :: es /\
    root_page_ (ix_hdr s') = 4 /\ last_leaf_ (ix_hdr s') = 3 /\ next_no (content s' 2) = 3 /\ prev_no (content s' 3) = 2 /\
    parent_no (content s' 2) = 4 /\ parent_no (content s' 3) = 4 /\ parent_no (content s' 4) = INVALID_PAGE_ID /\
    exists s'', get_value 1 (wkey 6) true s' = (Ret (true, [wrid 6]), s'').
Proof.
  destruct (wide_ok 6 ltac:(lia)) as (es & (Eh & Q & Ht & Hpar & Hf & Hc & Hsp) & Hp). destruct (fresh_at 6 es ltac:(lia) Hp) as [Hst Hno].
  assert (length es = 6%nat) as Hlen by (rewrite Hp; unfold wentries; by rewrite length_fmap, length_seq).
  pose proof (index_insert (wide 6) (wkey 6) (wrid 6) 1 es) as H. cbv zeta in H. rewrite Eh in H. change (root_page_ hw) with 2 in H. rewrite Hc in H.
  destruct (H (proj1 wide_layout) Q Hsp Hf eq_refl eq_refl ltac:(done) eq_refl Ht Hpar ltac:(rewrite Hlen, wide_cap; lia) (wkey_valid 6 ltac:(lia)) Hno Hst eq_refl eq_refl)
    as (s' & k & es' & R & Q' & _ & -> & Ht' & Hp' & Hln & Hget).
  rewrite Hlen, wide_cap in Ht', Hln. change (if decide (6 + 1 = 7)%nat then 1%nat else 0%nat) with 1%nat in Ht', Hln.
  unfold insert_links in Hln. rewrite Eh in Hln. change (root_page_ hw) with 2 in Hln. rewrite Hc in Hln.
  destruct Hln as ((E1 & (P1 & _ & _ & N1) & (P2 & _ & V2 & _) & (P3 & _)) & _). rewrite E1 in Ht'. change (root_page_ (set_root_page_ (3 + 1) _)) with 4 in Ht'.
  exists es, s', es'. rewrite E1.
  refine (conj Hp (conj R (conj Q' (conj Ht' (conj Hp' (conj _ (conj _ (conj N1 (conj V2 (conj P1 (conj P2 (conj P3 _)))))))))))); [reflexivity|reflexivity|].
  destruct (Hget (wkey 6) (wkey_valid 6 ltac:(lia))) as [s'' E]. exists s''. rewrite E. by replace (kcmp hw (wkey 6) (wkey 6) =? 0) with true by (vm_compute; reflexivity).
Defined.

(** The root leaf, fetched. *)
Definition root_held : IxIndexHandle (BufferPoolManager LRUReplacer) := (fetch_node 2 one_entry).2.
Definition root_frame : Z := match (fetch_node 2 one_entry).1 with Ret f => f | _ => 0 end.

Lemma coalesce_null_latch_witness : is_root_page root_frame root_held = (Ret true, root_held) /\
  forall r, (coalesce_or_redistribute 1 root_frame true None root_held).1 <> Ret r.
Proof.
  assert ((is_root_page root_frame root_held).1 = Ret true) as R1 by (vm_compute; reflexivity).
  assert (is_root_page root_frame root_held = (Ret true, root_held)) as R.
  { destruct (is_root_page root_frame root_held) as [o s'] eqn:E. pose proof (node_get_state _ _ _ _ _ E) as ->. simpl in R1. by rewrite R1. }
  split; [exact R|]. exact (coalesce_null_latch 1 root_frame true root_held (or_introl R)).
Defined.

Lemma ix_new_index_witness : exists d1 d2 fd, ix_create_index "t" cols_a (disk_manager_ pool0) = (Ret tt, d1) /\
    ix_open_index "t" (cm_name <$> cols_a) d1 = (Ret (fd, hd), d2) /\
    let t := handle_of (set_disk d2 pool0) fd hd in
    ix_layout hd /\ quiet t /\ tree hd (content t) (page_ok t) 0 (root_page_ hd) [] /\
    parent_no (content t (root_page_ hd)) = IX_NO_PAGE /\
    pn_file (set_disk d2 pool0) fd /\ pn_count (set_disk d2 pool0) fd = 3 /\ pn_spare (set_disk d2 pool0) = spare pool0.
Proof.
  apply (ix_new_index "t" cols_a pool0 pool0_tidy).
  - vm_compute. lia.
  - exact fresh0.
  - by repeat constructor.
  - done.
  - done.
Defined.

(** ** A descriptor that is used again *)

(** Close an index with [IxManager::close_index], create and open one on other
    columns, and look a key up in it.  [close_index] leaves the pages of the old
    index in the pool, and the new file gets the old descriptor. *)
Definition cols_b : list ColMeta := [mkCol "t" "b" TYPE_INT 4 4 true].
Definition reopen (old : IxIndexHandle (BufferPoolManager LRUReplacer)) (k : list Z) : outcome (bool * list Rid) :=
  let pool := ix_pool old in
  let pool := (ix_close_index (map_to_list (page_table_ pool)) (ix_fd old) (ix_hdr old) pool).2 in
  let d := (ix_destroy_index "t" (cm_name <$> cols_a) (disk_manager_ pool)).2 in
  let d := (ix_create_index "t" cols_b d).2 in
  match ix_open_index "t" (cm_name <$> cols_b) d with
  | (Ret (fd, h), d) => (get_value 1 k true (handle_of (set_disk d pool) fd h)).1
  | _ => Stuck Diverges
  end.

(** The new, empty index answers with the entry of the dropped one. *)
Lemma new_index_sees_old_pages : reopen one_entry (key 7) = Ret (true, [mkRid 1 4]).
Proof. vm_compute. reflexivity. Qed.

End IxDemo.
