(* ===== verification/Executors.v ===== *)
(** * Query operators ([src/src/execution])

    An executor works on the database [D] it shares with the other executors and
    on its own fields [X].  [AbstractExecutor] is the interface; the operators
    below are built over any executors that implement it.  A record is its
    bytes. *)

From S2P Require Import Prelude Bytes Disk Txn Log IxDefs Values SmMeta.

Class AbstractExecutor (D X : Type) : Type := {
  tupleLen : X -> Z;
  cols : X -> list ColMeta;
  beginTuple : M (D * X) unit;
  nextTuple : M (D * X) unit;
  is_end : M (D * X) bool;
  Next : M (D * X) (list Z);
  get_col_offset : X -> TabCol -> outcome ColMeta
}.

(** [get_col_offset] of an operator that does not define its own: [ColMeta()]. *)
Definition no_col_offset (target : TabCol) : outcome ColMeta := Ret (mkCol "" "" TYPE_INT 0 0 false).

(** Run an operation of a child executor that is a field of this one. *)
Definition on_child {D X Y A} (get : Y -> X) (put : X -> Y -> Y) (m : M (D * X) A) : M (D * Y) A := fun s =>
  let '(r, (d, x)) := m (s.1, get s.2) in (r, (d, put x s.2)).
Definition own {D Y A} (f : Y -> A) : M (D * Y) A := gets (fun s => f s.2).
Definition change {D Y} (f : Y -> Y) : M (D * Y) unit := modify (fun s => (s.1, f s.2)).

(** ** Conditions on a record ([executor_utils.hpp]) *)

Definition is_target (t : TabCol) (c : ColMeta) : bool :=
  bool_decide (tc_col_name t = cm_name c) && bool_decide (tc_tab_name t = cm_tab_name c).

(** [*std::find_if]: dereferencing [end] is undefined. *)
Definition find_deref (t : TabCol) (cs : list ColMeta) : outcome ColMeta := or_stuck OutOfBounds (List.find (is_target t) cs).

(** The value of a column; the pointer is [record->data + offset].  [g] is what
    the union of a fresh [Value] holds. *)
Definition load_col (g : list Z) (record : list Z) (c : ColMeta) : outcome Value :=
  _ ← ensure OutOfBounds ((0 <=? cm_offset c) && (cm_offset c <=? Z.of_nat (length record)));
  load_raw (cm_len c) (drop (Z.to_nat (cm_offset c)) record) (blank g (cm_type c)).

Fixpoint checkConds (g : list Z) (record : list Z) (conds : list Condition) (cs : list ColMeta) : outcome bool :=
  match conds with
  | [] => Ret true
  | cond :: conds =>
      lcol ← find_deref (lhs_col cond) cs;
      lval ← load_col g record lcol;
      rval ← (if is_rhs_val cond then Ret (rhs_val cond)
              else rcol ← find_deref (rhs_col cond) cs; load_col g record rcol);
      b ← binop (c_op cond) lval rval;
      if (b : bool) then checkConds g record conds cs else Ret false
  end.

(** [AbstractExecutor::get_col]: the position of a column. *)
Fixpoint find_col (target : TabCol) (cs : list ColMeta) : option (nat * ColMeta) :=
  match cs with
  | [] => None
  | c :: cs => if is_target target c then Some (O, c) else '(i, c') ← find_col target cs; Some (Datatypes.S i, c')
  end.
Definition dotted (t : TabCol) : string := String.append (tc_tab_name t) (String.append "." (tc_col_name t)).
Definition get_col (cs : list ColMeta) (target : TabCol) : outcome (nat * ColMeta) :=
  match find_col target cs with Some r => Ret r | None => Throw (ColumnNotFoundError (dotted target)) end.

Section operators.
Context {D : Type} (g : Z).     (* what fresh memory holds *)
Abbreviation g8 := (replicate 8 g).

(** ** [ProjectionExecutor] *)

Section projection.
Context {X : Type} {EX : AbstractExecutor D X}.

Record ProjectionExecutor : Type := mkProj {
  pj_prev : X;
  pj_cols : list ColMeta;
  pj_len : Z;
  pj_sel_idxs : list Z
}.
Definition pj_set_prev (x : X) (p : ProjectionExecutor) : ProjectionExecutor := mkProj x (pj_cols p) (pj_len p) (pj_sel_idxs p).
Definition pj_child {A} (m : M (D * X) A) : M (D * ProjectionExecutor) A := on_child pj_prev pj_set_prev m.

(** The constructor's loop; [curr_offset] is a [size_t] stored into an [int]. *)
Fixpoint project_cols (prev_cols : list ColMeta) (curr_offset : Z) (sel_cols : list TabCol) : outcome (list Z * list ColMeta * Z) :=
  match sel_cols with
  | [] => Ret ([], [], curr_offset)
  | sel_col :: sel_cols =>
      '(i, c) ← get_col prev_cols sel_col;
      let c' := set_offset (wrap_s 32 curr_offset) c in
      '(idxs, cs, len) ← project_cols prev_cols (wrap_u 64 (curr_offset + cm_len c)) sel_cols;
      Ret (Z.of_nat i :: idxs, c' :: cs, len)
  end.
Definition make_projection (prev : X) (sel_cols : list TabCol) : outcome ProjectionExecutor :=
  '(idxs, cs, len) ← project_cols (cols prev) 0 sel_cols;
  Ret (mkProj prev cs len idxs).

(** [std::copy_n] of each column into the result. *)
Fixpoint project (prev_cols cs : list ColMeta) (src result : list Z) : outcome (list Z) :=
  match cs with
  | [] => Ret result
  | c :: cs =>
      raw_col ← find_deref (mkTabCol (cm_tab_name c) (cm_name c)) prev_cols;
      x ← read (cm_offset raw_col) (Z.max 0 (cm_len c)) src;
      result ← write (cm_offset c) x result;
      project prev_cols cs src result
  end.
Definition pj_next : M (D * ProjectionExecutor) (list Z) :=
  len ← own pj_len;
  src ← pj_child Next;
  cs ← own pj_cols;
  prev ← own pj_prev;
  lift (project (cols prev) cs src (replicate (Z.to_nat len) g)).

#[export] Instance Projection_executor : AbstractExecutor D ProjectionExecutor := {|
  tupleLen := pj_len; cols := pj_cols;
  beginTuple := pj_child beginTuple; nextTuple := pj_child nextTuple; is_end := pj_child is_end;
  Next := pj_next; get_col_offset := fun _ => no_col_offset
|}.
End projection.

(** ** [BlockNestedLoopJoinExecutor] *)

Section block_join.
Context {XL XR : Type} {EL : AbstractExecutor D XL} {ER : AbstractExecutor D XR}.

Definition MAX_BUFFER_SIZE : Z := 2048.

Record BlockNestedLoopJoinExecutor : Type := mkBnl {
  bl_left : XL;
  bl_right : XR;
  bl_len : Z;
  bl_left_len : Z;
  bl_right_len : Z;
  bl_cols : list ColMeta;
  bl_left_isend : bool;
  bl_left_ptr : Z;
  bl_left_size : Z;
  bl_left_buffer : list (option (list Z));
  bl_conds : list Condition
}.
Abbreviation BJ := BlockNestedLoopJoinExecutor.
Definition bl_set_left (x : XL) (j : BJ) : BJ := mkBnl x (bl_right j) (bl_len j) (bl_left_len j) (bl_right_len j) (bl_cols j) (bl_left_isend j) (bl_left_ptr j) (bl_left_size j) (bl_left_buffer j) (bl_conds j).
Definition bl_set_right (x : XR) (j : BJ) : BJ := mkBnl (bl_left j) x (bl_len j) (bl_left_len j) (bl_right_len j) (bl_cols j) (bl_left_isend j) (bl_left_ptr j) (bl_left_size j) (bl_left_buffer j) (bl_conds j).
Definition bl_set_isend (b : bool) (j : BJ) : BJ := mkBnl (bl_left j) (bl_right j) (bl_len j) (bl_left_len j) (bl_right_len j) (bl_cols j) b (bl_left_ptr j) (bl_left_size j) (bl_left_buffer j) (bl_conds j).
Definition bl_set_ptr (p : Z) (j : BJ) : BJ := mkBnl (bl_left j) (bl_right j) (bl_len j) (bl_left_len j) (bl_right_len j) (bl_cols j) (bl_left_isend j) p (bl_left_size j) (bl_left_buffer j) (bl_conds j).
Definition bl_set_buffer (n : Z) (b : list (option (list Z))) (j : BJ) : BJ := mkBnl (bl_left j) (bl_right j) (bl_len j) (bl_left_len j) (bl_right_len j) (bl_cols j) (bl_left_isend j) (bl_left_ptr j) n b (bl_conds j).
Definition bl_l {A} (m : M (D * XL) A) : M (D * BJ) A := on_child bl_left bl_set_left m.
Definition bl_r {A} (m : M (D * XR) A) : M (D * BJ) A := on_child bl_right bl_set_right m.

(** [len] is a [size_t], the offset an [int]. *)
Definition shift_cols (len : Z) (cs : list ColMeta) : list ColMeta := (fun c => set_offset (wrap_s 32 (cm_offset c + len)) c) <$> cs.
Definition make_block_join (left : XL) (right : XR) (conds : list Condition) : BJ :=
  let l := tupleLen left in
  let r := tupleLen right in
  mkBnl left right (wrap_u 64 (l + r)) l r (cols left ++ shift_cols l (cols right)) false 0 0
    (replicate (Z.to_nat MAX_BUFFER_SIZE) None) conds.

(** [n] slots of the buffer are still free. *)
Fixpoint fill_buffer (n : nat) : M (D * BJ) unit :=
  e ← bl_l is_end;
  if (e : bool) then mret tt else
  match n with
  | O => mret tt
  | S n =>
      r ← bl_l Next;
      change (fun j => bl_set_buffer (bl_left_size j + 1) (<[Z.to_nat (bl_left_size j) := Some r]> (bl_left_buffer j)) j) ;;
      bl_l nextTuple ;;
      fill_buffer n
  end.
Definition load_left_buffer : M (D * BJ) unit :=
  change (bl_set_ptr 0) ;;
  e ← bl_l is_end;
  change (bl_set_isend e) ;;
  change (fun j => bl_set_buffer 0 (bl_left_buffer j) j) ;;
  fill_buffer (Z.to_nat MAX_BUFFER_SIZE).

(** [left_buffer\[left_ptr\]->data]: past the array or on a null pointer it is
    undefined. *)
Definition bl_next : M (D * BJ) (list Z) :=
  j ← own id;
  slot ← unwrap OutOfBounds (bl_left_buffer j !! Z.to_nat (bl_left_ptr j));
  l ← unwrap NullDeref slot;
  l ← lift (read 0 (bl_left_len j) l);
  r ← bl_r Next;
  r ← lift (read 0 (bl_right_len j) r);
  buf ← lift (write 0 l (replicate (Z.to_nat (bl_len j)) g));
  lift (write (bl_left_len j) r buf).

Definition bl_check : M (D * BJ) bool :=
  r ← bl_next;
  j ← own id;
  lift (checkConds g8 r (bl_conds j) (bl_cols j)).

(** The inner loop over the rest of the buffer, [n] records; true when a match
    was found. *)
Fixpoint scan_buffer (n : nat) : M (D * BJ) bool :=
  match n with
  | O => mret false
  | S n =>
      b ← bl_check;
      if (b : bool) then mret true else
      change (fun j => bl_set_ptr (bl_left_ptr j + 1) j) ;;
      scan_buffer n
  end.

(** At the end of the buffer: the next right row, or the next block; true when
    there is neither. *)
Definition bl_advance : M (D * BJ) bool :=
  bl_r nextTuple ;;
  re ← bl_r is_end;
  le ← (if (re : bool) then bl_l is_end else mret false);
  if re && le then mret true else
  re ← bl_r is_end;
  (if (re : bool) then bl_r beginTuple ;; load_left_buffer else mret tt) ;;
  change (bl_set_ptr 0) ;;
  mret false.

(** The [while] loop of [nextTuple]. *)
Fixpoint bl_loop (fuel : nat) : M (D * BJ) unit :=
  match fuel with
  | O => stuck Diverges
  | S fuel =>
      le ← bl_l is_end;
      re ← (if (le : bool) then bl_r is_end else mret false);
      if le && re then mret tt else
      j ← own id;
      stop ← (if bl_left_ptr j =? bl_left_size j then bl_advance else mret false);
      if (stop : bool) then mret tt else
      j ← own id;
      found ← scan_buffer (Z.to_nat (bl_left_size j - bl_left_ptr j));
      if (found : bool) then mret tt else bl_loop fuel
  end.
Definition bl_nextTuple (fuel : nat) : M (D * BJ) unit :=
  change (fun j => bl_set_ptr (wrap_u 64 (bl_left_ptr j + 1)) j) ;;
  bl_loop fuel.

Definition bl_beginTuple (fuel : nat) : M (D * BJ) unit :=
  bl_l beginTuple ;;
  le ← bl_l is_end;
  if (le : bool) then mret tt else
  bl_r beginTuple ;;
  re ← bl_r is_end;
  if (re : bool) then mret tt else
  load_left_buffer ;;
  change (bl_set_ptr (2 ^ 64 - 1)) ;;
  bl_nextTuple fuel.

Definition bl_is_end : M (D * BJ) bool :=
  le ← bl_l is_end;
  if (le : bool) then bl_r is_end else mret false.

Definition bl_get_col_offset (j : BJ) (target : TabCol) : outcome ColMeta :=
  match List.find (is_target target) (bl_cols j) with Some c => Ret c | None => Throw (ColumnNotFoundError (dotted target)) end.

Definition BlockJoin_executor (fuel : nat) : AbstractExecutor D BJ := {|
  tupleLen := bl_len; cols := bl_cols;
  beginTuple := bl_beginTuple fuel; nextTuple := bl_nextTuple fuel; is_end := bl_is_end; Next := bl_next;
  get_col_offset := bl_get_col_offset
|}.
End block_join.

(** ** [NestedLoopJoinExecutor] *)

Section nested_join.
Context {XL XR : Type} {EL : AbstractExecutor D XL} {ER : AbstractExecutor D XR}.

Record NestedLoopJoinExecutor : Type := mkNl {
  nl_left : XL;
  nl_right : XR;
  nl_left_len : Z;
  nl_right_len : Z;
  nl_len : Z;
  nl_cols : list ColMeta;
  nl_conds : list Condition;
  nl_isend : bool
}.
Abbreviation NJ := NestedLoopJoinExecutor.
Definition nl_set_left (x : XL) (j : NJ) : NJ := mkNl x (nl_right j) (nl_left_len j) (nl_right_len j) (nl_len j) (nl_cols j) (nl_conds j) (nl_isend j).
Definition nl_set_right (x : XR) (j : NJ) : NJ := mkNl (nl_left j) x (nl_left_len j) (nl_right_len j) (nl_len j) (nl_cols j) (nl_conds j) (nl_isend j).
Definition nl_set_isend (b : bool) (j : NJ) : NJ := mkNl (nl_left j) (nl_right j) (nl_left_len j) (nl_right_len j) (nl_len j) (nl_cols j) (nl_conds j) b.
Definition nl_l {A} (m : M (D * XL) A) : M (D * NJ) A := on_child nl_left nl_set_left m.
Definition nl_r {A} (m : M (D * XR) A) : M (D * NJ) A := on_child nl_right nl_set_right m.

Definition make_nested_join (left : XL) (right : XR) (conds : list Condition) : NJ :=
  let l := tupleLen left in
  let r := tupleLen right in
  mkNl left right l r (wrap_u 64 (l + r)) (cols left ++ shift_cols l (cols right)) conds false.

Definition nl_next : M (D * NJ) (list Z) :=
  j ← own id;
  l ← nl_l Next;
  l ← lift (read 0 (nl_left_len j) l);
  buf ← lift (write 0 l (replicate (Z.to_nat (nl_len j)) g));
  r ← nl_r Next;
  r ← lift (read 0 (nl_right_len j) r);
  lift (write (nl_left_len j) r buf).

Definition nl_check : M (D * NJ) bool :=
  r ← nl_next;
  j ← own id;
  lift (checkConds g8 r (nl_conds j) (nl_cols j)).

(** The inner loop of [beginTuple] and [nextTuple] over the left child: true
    when it stopped on a match. *)
Fixpoint nl_inner (fuel : nat) : M (D * NJ) bool :=
  match fuel with
  | O => stuck Diverges
  | S fuel =>
      le ← nl_l is_end;
      if (le : bool) then mret false else
      b ← nl_check;
      if (b : bool) then mret true else
      nl_l nextTuple ;; nl_inner fuel
  end.
(** The outer loop over the right child, [inner] steps of the left one each. *)
Fixpoint nl_loop (inner fuel : nat) : M (D * NJ) bool :=
  match fuel with
  | O => stuck Diverges
  | S fuel =>
      re ← nl_r is_end;
      if (re : bool) then mret false else
      found ← nl_inner inner;
      if (found : bool) then mret true else
      nl_l beginTuple ;; nl_r nextTuple ;; nl_loop inner fuel
  end.

Definition nl_beginTuple (fuel : nat) : M (D * NJ) unit :=
  nl_l beginTuple ;;
  nl_r beginTuple ;;
  _ ← nl_loop fuel fuel;
  mret tt.
Definition nl_nextTuple (fuel : nat) : M (D * NJ) unit :=
  nl_l nextTuple ;;
  found ← nl_loop fuel fuel;
  if (found : bool) then mret tt else change (nl_set_isend true).

Definition NestedJoin_executor (fuel : nat) : AbstractExecutor D NJ := {|
  tupleLen := nl_len; cols := nl_cols;
  beginTuple := nl_beginTuple fuel; nextTuple := nl_nextTuple fuel; is_end := own nl_isend; Next := nl_next;
  get_col_offset := fun _ => no_col_offset
|}.
End nested_join.

(** ** How a client drives an executor *)

(** [for (root->beginTuple(); !root->is_end(); root->nextTuple()) root->Next()],
    as [SortExecutor] and [QlManager::select_from] do. *)
Section drive.
Context {X : Type} {EX : AbstractExecutor D X}.

Fixpoint drain (fuel : nat) (acc : list (list Z)) : M (D * X) (list (list Z)) :=
  match fuel with
  | O => stuck Diverges
  | S fuel =>
      e ← is_end;
      if (e : bool) then mret acc else
      r ← Next;
      nextTuple ;;
      drain fuel (acc ++ [r])
  end.
Definition collect (fuel : nat) : M (D * X) (list (list Z)) := beginTuple ;; drain fuel [].
End drive.

(** ** [SortExecutor] *)

Section sort.
Context {X : Type} {EX : AbstractExecutor D X}.
(** [std::sort] with a comparison. *)
Context (std_sort : (list Z -> list Z -> bool) -> list (list Z) -> list (list Z)).

(** [all_record]: a record that [Next] has moved out is null. *)
Record SortExecutor : Type := mkSort {
  so_prev : X;
  so_cols : list (ColMeta * bool);
  so_tuple_ptr : Z;
  so_all_record : list (option (list Z));
  so_limit : Z
}.
Definition so_set_prev (x : X) (s : SortExecutor) : SortExecutor := mkSort x (so_cols s) (so_tuple_ptr s) (so_all_record s) (so_limit s).
Definition so_set_ptr (n : Z) (s : SortExecutor) : SortExecutor := mkSort (so_prev s) (so_cols s) n (so_all_record s) (so_limit s).
Definition so_set_all (l : list (option (list Z))) (s : SortExecutor) : SortExecutor := mkSort (so_prev s) (so_cols s) (so_tuple_ptr s) l (so_limit s).
Definition so_child {A} (m : M (D * X) A) : M (D * SortExecutor) A := on_child so_prev so_set_prev m.

(** The constructor: the child says where each sort column is. *)
Fixpoint sort_cols (prev : X) (sel_cols : list (TabCol * bool)) : outcome (list (ColMeta * bool)) :=
  match sel_cols with
  | [] => Ret []
  | (sel_col, is_desc) :: sel_cols =>
      c ← get_col_offset prev sel_col;
      cs ← sort_cols prev sel_cols;
      Ret ((c, is_desc) :: cs)
  end.
Definition make_sort (prev : X) (sel_cols : list (TabCol * bool)) (limit : Z) : outcome SortExecutor :=
  cs ← sort_cols prev sel_cols;
  Ret (mkSort prev cs 0 [] limit).

(** The comparison passed to [std::sort]. *)
Fixpoint so_less (cs : list (ColMeta * bool)) (a b : list Z) : outcome bool :=
  match cs with
  | [] => Ret false
  | (c, is_desc) :: cs =>
      v1 ← load_col g8 a c;
      v2 ← load_col g8 b c;
      is_gt ← binop OP_GT v1 v2;
      is_lt ← binop OP_LT v1 v2;
      if negb is_gt && negb is_lt then so_less cs a b
      else Ret ((is_desc && is_gt) || (negb is_desc && negb is_gt))
  end.
Definition less (cs : list (ColMeta * bool)) (a b : list Z) : bool := match so_less cs a b with Ret r => r | _ => false end.

(** The comparison is defined on every pair the sort may ask for. *)
Definition comparable (cs : list (ColMeta * bool)) (l : list (list Z)) : bool :=
  forallb (fun a => forallb (fun b => match so_less cs a b with Ret _ => true | _ => false end) l) l.

Definition so_beginTuple (fuel : nat) : M (D * SortExecutor) unit :=
  rows ← so_child (collect fuel);
  s ← own id;
  old ← unwrap NullDeref (mapM id (so_all_record s));
  let all := old ++ rows in
  (if comparable (so_cols s) all then mret tt else stuck OutOfBounds) ;;
  change (so_set_all (Some <$> std_sort (less (so_cols s)) all)).

Definition so_next : M (D * SortExecutor) (list Z) :=
  s ← own id;
  slot ← unwrap OutOfBounds (so_all_record s !! Z.to_nat (so_tuple_ptr s));
  change (so_set_all (<[Z.to_nat (so_tuple_ptr s) := None]> (so_all_record s))) ;;
  unwrap NullDeref slot.

(** [limit_] is converted to [size_t]. *)
Definition so_is_end : M (D * SortExecutor) bool :=
  s ← own id;
  let n := Z.of_nat (length (so_all_record s)) in
  mret (if (so_limit s =? -1) || (n <=? wrap_u 64 (so_limit s)) then so_tuple_ptr s =? n else so_tuple_ptr s =? wrap_u 64 (so_limit s)).

Definition Sort_executor (fuel : nat) : AbstractExecutor D SortExecutor := {|
  tupleLen := fun _ => 0; cols := fun s => cols (so_prev s);
  beginTuple := so_beginTuple fuel;
  nextTuple := change (fun s => so_set_ptr (so_tuple_ptr s + 1) s);
  is_end := so_is_end; Next := so_next; get_col_offset := fun _ => no_col_offset
|}.
End sort.

End operators.
