(* ===== verification/JoinSpec.v ===== *)
(** * The block nested-loop join computes the join

    [RowSpec] says when a row satisfies conditions, by the values in its columns.
    Against any children that enumerate their rows ([ExecutorLaws]), driving the
    join collects, block of left rows by block, the concatenations that satisfy
    the conditions. *)

From S2P Require Import Prelude Bytes Disk Txn Log IxDefs IxCompare Values ValuesSpec SmMeta Executors.

Abbreviation row := (list Z).

(** What an executor promises: [over rows x], it enumerates [rows]; [at_ rows
    rest x], it stands before [rest].  The database satisfies [I] throughout. *)
Class ExecutorLaws (D X : Type) {E : AbstractExecutor D X} (I : D -> Prop) : Type := {
  over : list row -> X -> Prop;
  at_ : list row -> list row -> X -> Prop;
  at_over : forall rows rest x, at_ rows rest x -> over rows x;
  at_suffix : forall rows rest x, at_ rows rest x -> exists pre, rows = pre ++ rest;
  begin_ok : forall d x rows, I d -> over rows x -> exists d' x', beginTuple (d, x) = (Ret tt, (d', x')) /\ I d' /\ at_ rows rows x';
  is_end_ok : forall d x rows rest, I d -> at_ rows rest x -> is_end (d, x) = (Ret (bool_decide (rest = [])), (d, x));
  record_ok : forall d x rows r rest, I d -> at_ rows (r :: rest) x ->
    exists d' x', Next (d, x) = (Ret r, (d', x')) /\ I d' /\ at_ rows (r :: rest) x';
  next_ok : forall d x rows r rest, I d -> at_ rows (r :: rest) x ->
    exists d' x', nextTuple (d, x) = (Ret tt, (d', x')) /\ I d' /\ at_ rows rest x'
}.

(** ** Rows as SQL sees them

    A row of bytes and a list of columns denote a value for each column; a
    condition compares two of them or one with a literal. *)

Module RowSpec.
Import ValuesSpec.

Definition cell (r : row) (c : ColMeta) : list Z := slice (Z.to_nat (cm_offset c)) (Z.to_nat (cm_len c)) r.
Definition cell_value (r : row) (c : ColMeta) : sql_value := sql_of (cm_type c) (cell r c).

(** The first column of that name. *)
Definition named (cs : list ColMeta) (t : TabCol) : option ColMeta :=
  head (filter (fun c => tc_tab_name t = cm_tab_name c /\ tc_col_name t = cm_name c) cs).

(** Whether a row satisfies a condition, and all of them. *)
Definition sql_cond (cs : list ColMeta) (r : row) (cond : Condition) : bool :=
  match named cs (lhs_col cond), (if is_rhs_val cond then Some (value_of (rhs_val cond)) else cell_value r <$> named cs (rhs_col cond)) with
  | Some c, Some v => sql_op (c_op cond) (cell_value r c) v
  | _, _ => false
  end.
Definition sql_where (cs : list ColMeta) (conds : list Condition) (r : row) : bool := forallb (sql_cond cs r) conds.

(** The columns lie inside rows of [n] bytes and have the lengths of their types. *)
Definition column_ok (n : Z) (c : ColMeta) : Prop := col_ok (cm_type c, cm_len c) /\ 0 <= cm_offset c /\ cm_offset c + cm_len c <= n.
(** The columns of a condition exist and texts are compared with texts. *)
Definition cond_ok (cs : list ColMeta) (cond : Condition) : Prop :=
  exists c, named cs (lhs_col cond) = Some c /\
    if is_rhs_val cond then is_text (cm_type c) = is_text (v_type (rhs_val cond))
    else exists c', named cs (rhs_col cond) = Some c' /\ is_text (cm_type c) = is_text (cm_type c').

Lemma named_find (cs : list ColMeta) (t : TabCol) : List.find (is_target t) cs = named cs t.
Proof.
  unfold named. induction cs as [|c cs IH]; [done|]. rewrite filter_cons. cbn [List.find].
  destruct (is_target t c) eqn:E; unfold is_target in E.
  - apply andb_prop in E as [E1%bool_decide_eq_true E2%bool_decide_eq_true]. by rewrite decide_True.
  - rewrite decide_False; [exact IH|]. intros [E1 E2]. by rewrite !bool_decide_eq_true_2 in E.
Qed.
Lemma named_elem (cs : list ColMeta) (t : TabCol) (c : ColMeta) : named cs t = Some c -> c ∈ cs /\ tc_tab_name t = cm_tab_name c /\ tc_col_name t = cm_name c.
Proof.
  intros H. assert (c ∈ filter (fun c => tc_tab_name t = cm_tab_name c /\ tc_col_name t = cm_name c) cs) as Hc.
  { unfold named in H. destruct (filter _ cs); [done|]. injection H as ->. left. }
  apply list_elem_of_filter in Hc. tauto.
Qed.
Lemma column_len (n : Z) (c : ColMeta) : column_ok n c -> 0 <= cm_len c.
Proof. intros (H & _). unfold col_ok in H. cbn [fst snd] in H. destruct (cm_type c); lia. Qed.
Lemma cell_length (n : Z) (r : row) (c : ColMeta) : column_ok n c -> Z.of_nat (length r) = n -> Z.of_nat (length (cell r c)) = cm_len c.
Proof. intros Hc Hr. pose proof (column_len n c Hc). destruct Hc as (_ & H1 & H2). unfold cell. rewrite length_slice; lia. Qed.

Lemma load_col_sql (g : list Z) (n : Z) (r : row) (c : ColMeta) : column_ok n c -> Z.of_nat (length r) = n ->
  exists w, load_col g r c = Ret w /\ v_type w = cm_type c /\ value_of w = cell_value r c.
Proof.
  intros Hc Hr. pose proof (cell_length n r c Hc Hr) as Hl. pose proof (column_len n c Hc). destruct Hc as (Hc & H1 & H2).
  unfold load_col. rewrite (proj2 (Z.leb_le 0 _)), (proj2 (Z.leb_le (cm_offset c) _)) by lia. cbn [andb ensure mbind outcome_bind].
  rewrite <- (take_drop (Z.to_nat (cm_len c)) (drop (Z.to_nat (cm_offset c)) r)). by apply load_raw_sql.
Qed.

(** The test of the code is the meaning of the conditions. *)
Lemma checkConds_sql (g : list Z) (n : Z) (cs : list ColMeta) (r : row) (conds : list Condition) :
  Forall (column_ok n) cs -> Z.of_nat (length r) = n -> Forall (cond_ok cs) conds -> checkConds g r conds cs = Ret (sql_where cs conds r).
Proof.
  intros Hcs Hr. rewrite Forall_forall in Hcs.
  assert (forall t c, named cs t = Some c -> find_deref t cs = Ret c /\ column_ok n c) as Hn.
  { intros t c H. unfold find_deref. rewrite named_find, H. split; [done|]. apply Hcs. by apply (named_elem cs t). }
  induction 1 as [|cond conds (c & Hl & Hk) _ IH]; [done|]. cbn [checkConds sql_where forallb]. unfold sql_cond at 1. rewrite Hl.
  destruct (Hn _ _ Hl) as [El Cl]. rewrite El. cbn [mbind outcome_bind]. destruct (load_col_sql g n r c Cl Hr) as (w & Ew & Tw & Vw). rewrite Ew. cbn [mbind outcome_bind].
  assert (exists v, (if is_rhs_val cond then Ret (rhs_val cond) else rcol ← find_deref (rhs_col cond) cs; load_col g r rcol) = Ret v /\
    is_text (v_type w) = is_text (v_type v) /\ (if is_rhs_val cond then Some (value_of (rhs_val cond)) else cell_value r <$> named cs (rhs_col cond)) = Some (value_of v)) as (v & Ev & Kv & Vv).
  { destruct (is_rhs_val cond); [exists (rhs_val cond); by rewrite Tw|]. destruct Hk as (c' & Hr' & Hk). destruct (Hn _ _ Hr') as [Er Cr]. rewrite Er. cbn [mbind outcome_bind].
    destruct (load_col_sql g n r c' Cr Hr) as (v & Ev & Tv & Vv). exists v. rewrite Hr', Tw, Tv. simpl. by rewrite Vv. }
  rewrite Ev, Vv. cbn [mbind outcome_bind]. rewrite (binop_sql _ _ _ Kv), Vw. cbn [mbind outcome_bind]. by destruct (sql_op _ _ _).
Qed.

(** The columns of a join: those of the left rows, then those of the right. *)
Lemma join_columns (ll rl : Z) (lcs rcs : list ColMeta) : 0 <= ll -> 0 <= rl -> ll + rl < 2 ^ 31 ->
  Forall (column_ok ll) lcs -> Forall (column_ok rl) rcs -> Forall (column_ok (ll + rl)) (lcs ++ shift_cols ll rcs).
Proof.
  intros H1 H2 H3 Hl Hr. apply Forall_app. split.
  - eapply Forall_impl; [exact Hl|]. intros c (H & ? & ?). split; [done|lia].
  - apply Forall_fmap. eapply Forall_impl; [exact Hr|]. intros c Hc. pose proof (column_len _ _ Hc). destruct Hc as (Hok & ? & ?).
    split; [done|]. cbn [set_offset cm_offset cm_len]. unfold wrap_s. rewrite Z.mod_small by lia. lia.
Qed.

End RowSpec.

Module JoinSpec.
Import ValuesSpec RowSpec.

Lemma child_run {D X Y A} (get : Y -> X) (put : X -> Y -> Y) (m : M (D * X) A) (d d' : D) (x' : X) (y : Y) (r : outcome A) :
  m (d, get y) = (r, (d', x')) -> on_child get put m (d, y) = (r, (d', put x' y)).
Proof. intros H. unfold on_child. simpl. by rewrite H. Qed.

(** ** The reference *)

Section reference.
Context (P : row -> bool) (B : nat).

(** The rows of a block that match a right row. *)
Definition matches (block : list row) (r : row) : list row := List.filter P ((fun l => l ++ r) <$> block).

Fixpoint blocks (n : nat) (l : list row) : list (list row) :=
  match n with O => [] | S n => match l with [] => [] | _ => take B l :: blocks n (drop B l) end end.

(** For each block of left rows, for each right row, the matches. *)
Definition block_rows (R block : list row) : list row := concat (matches block <$> R).
Definition join_from (R : list row) (n : nat) (l : list row) : list row := concat (block_rows R <$> blocks n l).
Definition join_rows (L R : list row) : list row := join_from R (length L) L.

Lemma blocks_nil (n : nat) : blocks n [] = [].
Proof. by destruct n. Qed.
Lemma blocks_cons (n : nat) (l : list row) : l <> [] -> (length l <= n)%nat -> (0 < B)%nat ->
  exists m, blocks n l = take B l :: blocks m (drop B l) /\ n = S m.
Proof. intros Hl Hn HB. destruct n as [|m]; [destruct l; simpl in Hn; [done|lia]|]. exists m. by destruct l. Qed.
Definition nested (L R : list row) : list row := concat ((fun l => List.filter P ((fun r => l ++ r) <$> R)) <$> L).

Lemma block_cons (R : list row) (l : row) (block : list row) :
  block_rows R (l :: block) ≡ₚ List.filter P ((fun r => l ++ r) <$> R) ++ block_rows R block.
Proof.
  unfold block_rows. induction R as [|r R IH]; [done|]. rewrite !fmap_cons. cbn [concat]. rewrite IH. unfold matches. rewrite fmap_cons. cbn [List.filter].
  destruct (P (l ++ r)); simpl; rewrite <- ?app_assoc; [f_equiv|]; by rewrite !app_assoc, (Permutation_app_comm (List.filter P ((fun r => l ++ r) <$> R))).
Qed.
Lemma block_nested (R block : list row) : block_rows R block ≡ₚ nested block R.
Proof.
  induction block as [|l block IH]; [|by rewrite block_cons, IH]. unfold block_rows, nested. simpl. by induction R.
Qed.
Lemma join_nested (R : list row) (n : nat) : (0 < B)%nat -> forall l, (length l <= n)%nat -> join_from R n l ≡ₚ nested l R.
Proof.
  intros HB. induction n as [|n IH]; intros l Hl; destruct l as [|x l]; try done; [simpl in Hl; lia|].
  unfold join_from. cbn [blocks]. rewrite fmap_cons. cbn [concat]. fold (join_from R n (drop B (x :: l))).
  rewrite IH by (rewrite length_drop; cbn [length] in *; lia). rewrite block_nested. unfold nested.
  by rewrite <- concat_app, <- fmap_app, take_drop.
Qed.
Lemma nested_length (L R : list row) : (length (nested L R) <= length R * length L)%nat.
Proof.
  induction L as [|l L IH]; unfold nested in *; [simpl; lia|]. rewrite fmap_cons. cbn [concat length]. rewrite length_app.
  pose proof (filter_length_le P ((fun r => l ++ r) <$> R)) as H. rewrite length_fmap in H. lia.
Qed.
End reference.

Section join.
Context {D XL XR : Type} {EL : AbstractExecutor D XL} {ER : AbstractExecutor D XR} (I : D -> Prop).
Context {LL : ExecutorLaws D XL I} {LR : ExecutorLaws D XR I}.
Context (g : Z) (L R : list row) (ll rl : nat) (conds : list Condition) (cs : list ColMeta) (P : row -> bool).
Context (HL : forall l, l ∈ L -> length l = ll) (HR : forall r, r ∈ R -> length r = rl).
Context (Hcheck : forall l r, l ∈ L -> r ∈ R -> checkConds (replicate 8 g) (l ++ r) conds cs = Ret (P (l ++ r))).
Abbreviation BJ := (BlockNestedLoopJoinExecutor (XL := XL) (XR := XR)).
Abbreviation B := (Z.to_nat MAX_BUFFER_SIZE).

(** The join with [block] in its buffer at [i], its children before [lrest]
    and [rrest]. *)
Record bj (lrest rrest block : list row) (i : nat) (s : D * BJ) : Prop := {
  bj_I : I s.1;
  bj_left : at_ L lrest (bl_left s.2);
  bj_right : at_ R rrest (bl_right s.2);
  bj_size : bl_left_size s.2 = Z.of_nat (length block);
  bj_ptr : bl_left_ptr s.2 = Z.of_nat i;
  bj_buf : forall k l, block !! k = Some l -> bl_left_buffer s.2 !! k = Some (Some l);
  bj_cap : length (bl_left_buffer s.2) = B;
  bj_fit : (length block <= B)%nat;
  bj_in : forall l, l ∈ block -> l ∈ L;
  bj_len : bl_len s.2 = Z.of_nat (ll + rl);
  bj_ll : bl_left_len s.2 = Z.of_nat ll;
  bj_rl : bl_right_len s.2 = Z.of_nat rl;
  bj_conds : bl_conds s.2 = conds;
  bj_cols : bl_cols s.2 = cs
}.

Lemma bj_right_in lrest rrest block i s r : bj lrest rrest block i s -> r ∈ rrest -> r ∈ R.
Proof. intros J Hr. destruct (at_suffix _ _ _ (bj_right _ _ _ _ _ J)) as [pre ->]. apply elem_of_app. by right. Qed.
Lemma bj_left_in lrest rrest block i s l : bj lrest rrest block i s -> l ∈ lrest -> l ∈ L.
Proof. intros J Hl. destruct (at_suffix _ _ _ (bj_left _ _ _ _ _ J)) as [pre ->]. apply elem_of_app. by right. Qed.

Lemma left_end lrest rrest block i s : bj lrest rrest block i s -> bl_l is_end s = (Ret (bool_decide (lrest = [])), s).
Proof.
  intros J. destruct s as [d j]. pose proof (is_end_ok d (bl_left j) _ _ (bj_I _ _ _ _ _ J) (bj_left _ _ _ _ _ J)) as H.
  unfold bl_l. rewrite (child_run bl_left bl_set_left _ d d (bl_left j) j _ H). by destruct j.
Qed.
Lemma right_end lrest rrest block i s : bj lrest rrest block i s -> bl_r is_end s = (Ret (bool_decide (rrest = [])), s).
Proof.
  intros J. destruct s as [d j]. pose proof (is_end_ok d (bl_right j) _ _ (bj_I _ _ _ _ _ J) (bj_right _ _ _ _ _ J)) as H.
  unfold bl_r. rewrite (child_run bl_right bl_set_right _ d d (bl_right j) j _ H). by destruct j.
Qed.

Lemma right_next lrest r rrest block i s : bj lrest (r :: rrest) block i s ->
  exists s', bl_r nextTuple s = (Ret tt, s') /\ bj lrest rrest block i s'.
Proof.
  intros [J1 J2 J3 J4 J5 J6 J7 J8 J9 J10 J11 J12 J13 J14]. destruct s as [d j]. destruct (next_ok d (bl_right j) _ _ _ J1 J3) as (d' & x & H & Hi & Ha).
  eexists. split; [by apply (child_run bl_right bl_set_right)|]. by split.
Qed.
Lemma right_begin lrest rrest block i s : bj lrest rrest block i s ->
  exists s', bl_r beginTuple s = (Ret tt, s') /\ bj lrest R block i s'.
Proof.
  intros [J1 J2 J3 J4 J5 J6 J7 J8 J9 J10 J11 J12 J13 J14]. destruct s as [d j]. destruct (begin_ok d (bl_right j) _ J1 (at_over _ _ _ J3)) as (d' & x & H & Hi & Ha).
  eexists. split; [by apply (child_run bl_right bl_set_right)|]. by split.
Qed.
Lemma set_ptr_run lrest rrest block i k s (f : BJ -> BJ) : bj lrest rrest block i s -> (forall j, bl_left_ptr j = Z.of_nat i -> f j = bl_set_ptr (Z.of_nat k) j) ->
  exists s', change f s = (Ret tt, s') /\ bj lrest rrest block k s'.
Proof.
  intros [J1 J2 J3 J4 J5 J6 J7 J8 J9 J10 J11 J12 J13 J14] Hf. eexists. split; [reflexivity|]. cbn [fst snd]. rewrite (Hf _ J5). by split.
Qed.

(** ** The row under the cursor *)

Lemma next_row lrest r rrest block i l s : bj lrest (r :: rrest) block i s -> block !! i = Some l ->
  exists s', bl_next g s = (Ret (l ++ r), s') /\ bj lrest (r :: rrest) block i s'.
Proof.
  intros J Hl. pose proof J as [J1 J2 J3 J4 J5 J6 J7 J8 J9 J10 J11 J12 J13 J14]. destruct s as [d j]. simpl in *.
  assert (length l = ll) as El by (apply HL, J9; by eapply list_elem_of_lookup_2). assert (length r = rl) as Er by (apply HR, (bj_right_in _ _ _ _ _ _ J); left).
  destruct (record_ok d (bl_right j) _ _ _ J1 J3) as (d' & x & H & Hi & Ha).
  exists (d', bl_set_right x j). split; [|by split].
  unfold bl_next. erewrite bind_run by reflexivity. cbn [snd id]. rewrite J5, Nat2Z.id, (J6 _ _ Hl). erewrite bind_run by reflexivity. erewrite bind_run by reflexivity.
  rewrite (bind_run _ _ (d, j) (d, j) l). 2: { unfold lift. by rewrite read_exact by lia. }
  rewrite (bind_run _ _ _ _ _ (child_run bl_right bl_set_right _ _ _ _ _ _ H)).
  rewrite (bind_run _ _ (d', bl_set_right x j) (d', bl_set_right x j) r). 2: { unfold lift. by rewrite read_exact by lia. }
  rewrite J10, Nat2Z.id. rewrite (bind_run _ _ (d', bl_set_right x j) (d', bl_set_right x j) (l ++ replicate rl g)).
  2: { unfold lift. rewrite buf_write_run by (rewrite length_replicate; lia). rewrite El, drop_replicate. do 4 f_equal. lia. }
  unfold lift. f_equal. rewrite J11. unfold write, mem_write. rewrite length_app, length_replicate.
  rewrite (proj2 (Z.leb_le 0 _)), (proj2 (Z.leb_le _ _)) by lia. cbn [andb or_stuck]. rewrite Nat2Z.id. unfold splice.
  rewrite <- El at 1. rewrite take_app_length. rewrite drop_ge by (rewrite length_app, length_replicate; lia). by rewrite app_nil_r.
Qed.

Lemma check_row lrest r rrest block i l s : bj lrest (r :: rrest) block i s -> block !! i = Some l ->
  exists s', bl_check g s = (Ret (P (l ++ r)), s') /\ bj lrest (r :: rrest) block i s'.
Proof.
  intros J Hl. destruct (next_row _ _ _ _ _ _ _ J Hl) as (s' & R1 & J'). exists s'. split; [|done].
  unfold bl_check. rewrite (bind_run _ _ _ _ _ R1). erewrite bind_run by reflexivity. unfold lift. cbn [id]. rewrite (bj_conds _ _ _ _ _ J'), (bj_cols _ _ _ _ _ J').
  rewrite Hcheck; [done| |apply (bj_right_in _ _ _ _ _ _ J); left]. apply (bj_in _ _ _ _ _ J). by eapply list_elem_of_lookup_2.
Qed.

(** ** The buffer *)

(** From position [i] the scan stops at the first match. *)
Lemma scan_ok (n : nat) : forall lrest r rrest block i s, bj lrest (r :: rrest) block i s -> (i + n = length block)%nat ->
  match matches P (drop i block) r with
  | [] => exists s', scan_buffer g n s = (Ret false, s') /\ bj lrest (r :: rrest) block (length block) s'
  | x :: rest => exists s' k l, scan_buffer g n s = (Ret true, s') /\ bj lrest (r :: rrest) block k s' /\ block !! k = Some l /\
      x = l ++ r /\ rest = matches P (drop (S k) block) r
  end.
Proof.
  induction n as [|n IH]; intros lrest r rrest block i s J Hi.
  - rewrite drop_ge by lia. simpl. exists s. split; [done|]. by replace (length block) with i by lia.
  - destruct (lookup_lt_is_Some_2 block i) as [l Hl]; [lia|]. rewrite (drop_S _ _ _ Hl). unfold matches. rewrite fmap_cons. cbn [List.filter].
    destruct (check_row _ _ _ _ _ _ _ J Hl) as (s1 & R1 & J1). cbn [scan_buffer]. rewrite (bind_run _ _ _ _ _ R1). destruct (P (l ++ r)) eqn:EP.
    + exists s1, i, l. split_and!; try done.
    + destruct (set_ptr_run _ _ _ _ (S i) s1 (fun j => bl_set_ptr (bl_left_ptr j + 1) j) J1) as (s2 & R2 & J2).
      { intros j ->. f_equal. lia. }
      rewrite (bind_run _ _ _ _ _ R2). apply (IH lrest r rrest block (S i) s2 J2). lia.
Qed.

Lemma fill_ok (n : nat) : forall lrest rrest block i s, bj lrest rrest block i s -> (length block + n = B)%nat ->
  exists s', fill_buffer n s = (Ret tt, s') /\ bj (drop n lrest) rrest (block ++ take n lrest) i s'.
Proof.
  induction n as [|n IH]; intros lrest rrest block i s J Hn.
  - exists s. cbn [fill_buffer]. rewrite (bind_run _ _ _ _ _ (left_end _ _ _ _ _ J)), take_0, drop_0, app_nil_r. by case_bool_decide.
  - cbn [fill_buffer]. rewrite (bind_run _ _ _ _ _ (left_end _ _ _ _ _ J)). destruct lrest as [|l lrest].
    + exists s. rewrite bool_decide_eq_true_2 by done. split; [done|]. by rewrite take_nil, drop_nil, app_nil_r.
    + rewrite bool_decide_eq_false_2 by done. assert (l ∈ L) as Hl by (apply (bj_left_in _ _ _ _ _ _ J); left).
      pose proof J as [J1 J2 J3 J4 J5 J6 J7 J8 J9 J10 J11 J12 J13 J14]. destruct s as [d j]. simpl in *.
      destruct (record_ok d (bl_left j) _ _ _ J1 J2) as (d1 & x1 & H1 & I1 & A1).
      rewrite (bind_run _ _ _ _ _ (child_run bl_left bl_set_left _ _ _ _ _ _ H1)). erewrite bind_run by reflexivity. cbn [fst snd].
      set (j2 := bl_set_buffer _ _ _). destruct (next_ok d1 (bl_left j2) _ _ _ I1 A1) as (d3 & x3 & H3 & I3 & A3).
      rewrite (bind_run _ _ _ _ _ (child_run bl_left bl_set_left _ _ _ _ _ _ H3)).
      destruct (IH lrest rrest (block ++ [l]) i (d3, bl_set_left x3 j2)) as (s' & R' & J').
      { split; simpl; try done.
        - rewrite J4, length_app. simpl. lia.
        - intros k y. rewrite J4, Nat2Z.id. intros [Hk|[Hk Hy]]%lookup_app_Some.
          + pose proof (lookup_lt_Some _ _ _ Hk). rewrite list_lookup_insert_ne by lia. by apply J6.
          + destruct (k - length block)%nat eqn:E; [|done]. simpl in Hy. simplify_eq. replace k with (length block) by lia. apply list_lookup_insert_eq. lia.
        - by rewrite length_insert.
        - rewrite length_app. simpl. lia.
        - intros y [Hy|Hy]%elem_of_app; [by apply J9|]. by apply list_elem_of_singleton in Hy as ->. }
      { rewrite length_app. simpl. lia. }
      exists s'. split; [done|]. simpl. by rewrite <- app_assoc in J'.
Qed.

(** The join over its children, wherever it stands. *)
Record joins (j : BJ) : Prop := {
  jo_left : over L (bl_left j);
  jo_right : over R (bl_right j);
  jo_cap : length (bl_left_buffer j) = B;
  jo_len : bl_len j = Z.of_nat (ll + rl);
  jo_ll : bl_left_len j = Z.of_nat ll;
  jo_rl : bl_right_len j = Z.of_nat rl;
  jo_conds : bl_conds j = conds;
  jo_cols : bl_cols j = cs
}.

Lemma bj_joins lrest rrest block i s : bj lrest rrest block i s -> joins s.2.
Proof. intros [J1 J2 J3 J4 J5 J6 J7 J8 J9 J10 J11 J12 J13 J14]. split; try done; by eapply at_over. Qed.

Lemma load_ready lrest rrest d j : I d -> joins j -> at_ L lrest (bl_left j) -> at_ R rrest (bl_right j) ->
  exists s', load_left_buffer (d, j) = (Ret tt, s') /\ bj (drop B lrest) rrest (take B lrest) 0 s'.
Proof.
  intros Hd J Hl Hr. unfold load_left_buffer. erewrite bind_run by reflexivity. cbn [fst snd].
  pose proof (is_end_ok d (bl_left j) _ _ Hd Hl) as E. rewrite (bind_run _ _ _ _ _ (child_run bl_left bl_set_left _ d d (bl_left j) (bl_set_ptr 0 j) _ E)).
  erewrite bind_run by reflexivity. erewrite bind_run by reflexivity. destruct J as [K1 K2 K3 K4 K5 K6 K7 K8].
  refine (fill_ok B lrest rrest [] 0 _ _ _); [|done]. split; simpl; try done; [lia|]. intros l H. by apply elem_of_nil in H.
Qed.
Lemma load_ok lrest rrest block i s : bj lrest rrest block i s ->
  exists s', load_left_buffer s = (Ret tt, s') /\ bj (drop B lrest) rrest (take B lrest) 0 s'.
Proof. intros J. destruct s as [d j]. apply (load_ready lrest rrest d j); [apply J|by apply bj_joins in J|apply J..]. Qed.

(** ** The rows still to come *)

Definition pending (n : nat) (lrest rr block : list row) (r : row) (i : nat) : list row :=
  matches P (drop i block) r ++ block_rows P rr block ++ join_from P B R n lrest.

(** The join stands before [rows]; [N] bounds the (block, right row) pairs it
    has not reached. *)
Definition stands (N : nat) (rows : list row) (s : D * BJ) : Prop :=
  match rows with
  | [] => exists block i, bj [] [] block i s
  | x :: rest => exists n lrest r rr block k l, bj lrest (r :: rr) block k s /\ block !! k = Some l /\ x = l ++ r /\
      rest = pending n lrest rr block r (S k) /\ (length lrest <= n)%nat /\ (length rr + length R * n <= N)%nat
  end.

Lemma B_pos : (0 < B)%nat. Proof using. vm_compute. lia. Qed.

(** One round that starts inside a block. *)
Lemma scan_stands (N n : nat) lrest r rr block i s : bj lrest (r :: rr) block i s -> (i <= length block)%nat -> (length lrest <= n)%nat ->
  (length rr + length R * n <= N)%nat ->
  (exists s', scan_buffer g (length block - i) s = (Ret true, s') /\ stands N (pending n lrest rr block r i) s') \/
  (exists s', scan_buffer g (length block - i) s = (Ret false, s') /\ bj lrest (r :: rr) block (length block) s' /\
     pending n lrest rr block r i = pending n lrest rr block r (length block)).
Proof.
  intros J Hi Hn HN. pose proof (scan_ok (length block - i) lrest r rr block i s J ltac:(lia)) as H. unfold pending at 1 2.
  destruct (matches P (drop i block) r) as [|x rest] eqn:E.
  - right. destruct H as (s' & R1 & J1). exists s'. split_and!; [done..|]. unfold pending. by rewrite (drop_ge block (length block)).
  - left. destruct H as (s' & k & l & R1 & J1 & Hl & -> & ->). exists s'. split; [done|]. exists n, lrest, r, rr, block, k, l. by split_and!.
Qed.

(** Past a block: the next right row, the next block, or the end. *)
Lemma advance_ok lrest r rr block s : R <> [] -> bj lrest (r :: rr) block (length block) s ->
  match rr, lrest with
  | r' :: rr', _ => exists s', bl_advance s = (Ret false, s') /\ bj lrest (r' :: rr') block 0 s'
  | [], [] => exists s', bl_advance s = (Ret true, s') /\ bj [] [] block (length block) s'
  | [], _ => exists s', bl_advance s = (Ret false, s') /\ bj (drop B lrest) R (take B lrest) 0 s'
  end.
Proof.
  intros HR0 J. unfold bl_advance. destruct (right_next _ _ _ _ _ _ J) as (s1 & R1 & J1). rewrite (bind_run _ _ _ _ _ R1).
  rewrite (bind_run _ _ _ _ _ (right_end _ _ _ _ _ J1)). destruct rr as [|r' rr].
  - rewrite bool_decide_eq_true_2 by done. rewrite (bind_run _ _ _ _ _ (left_end _ _ _ _ _ J1)). destruct lrest as [|l lrest].
    + rewrite bool_decide_eq_true_2 by done. by exists s1.
    + rewrite bool_decide_eq_false_2 by done. cbn [andb]. rewrite (bind_run _ _ _ _ _ (right_end _ _ _ _ _ J1)). rewrite bool_decide_eq_true_2 by done.
      destruct (right_begin _ _ _ _ _ J1) as (s2 & R2 & J2). destruct (load_ok _ _ _ _ _ J2) as (s3 & R3 & J3).
      destruct (set_ptr_run _ _ _ _ 0 s3 (bl_set_ptr 0) J3) as (s4 & R4 & J4); [done|]. exists s4. split; [|done].
      rewrite (bind_run _ _ s1 s3 tt); [by rewrite (bind_run _ _ _ _ _ R4)|]. by rewrite (bind_run _ _ _ _ _ R2).
  - rewrite bool_decide_eq_false_2 by done. erewrite bind_run by reflexivity. cbn [andb].
    rewrite (bind_run _ _ _ _ _ (right_end _ _ _ _ _ J1)). rewrite bool_decide_eq_false_2 by done. erewrite bind_run by reflexivity.
    destruct (set_ptr_run _ _ _ _ 0 s1 (bl_set_ptr 0) J1) as (s4 & R4 & J4); [done|]. exists s4. split; [|done]. by rewrite (bind_run _ _ _ _ _ R4).
Qed.

(** A round goes on to the scan while the right side stands on a row. *)
Lemma loop_round fuel lrest r rr block i s : bj lrest (r :: rr) block i s ->
  bl_loop g (S fuel) s = (stop ← (if bool_decide (i = length block) then bl_advance else mret false);
    if (stop : bool) then mret tt else
    j ← own id;
    found ← scan_buffer g (Z.to_nat (bl_left_size j - bl_left_ptr j));
    if (found : bool) then mret tt else bl_loop g fuel) s.
Proof.
  intros J. cbn [bl_loop]. rewrite (bind_run _ _ _ _ _ (left_end _ _ _ _ _ J)).
  assert (forall b, (if b : bool then bl_r is_end else mret false) s = (Ret false, s)) as E.
  { intros [|]; [|done]. by rewrite (right_end _ _ _ _ _ J). }
  rewrite (bind_run _ _ _ _ _ (E _)), andb_false_r. erewrite bind_run by reflexivity. cbn [id]. rewrite (bj_size _ _ _ _ _ J), (bj_ptr _ _ _ _ _ J).
  replace (Z.of_nat i =? Z.of_nat (length block)) with (bool_decide (i = length block)); [done|]. case_bool_decide; lia.
Qed.

Lemma loop_scan fuel lrest rr block i s : bj lrest rr block i s ->
  (j ← own id; found ← scan_buffer g (Z.to_nat (bl_left_size j - bl_left_ptr j)); if (found : bool) then mret tt else bl_loop g fuel) s =
  (found ← scan_buffer g (length block - i); if (found : bool) then mret tt else bl_loop g fuel) s.
Proof. intros J. erewrite bind_run by reflexivity. cbn [id]. rewrite (bj_size _ _ _ _ _ J), (bj_ptr _ _ _ _ _ J). do 2 f_equal. lia. Qed.

Lemma pending_row n lrest r' rr block r : pending n lrest (r' :: rr) block r (length block) = pending n lrest rr block r' 0.
Proof. unfold pending. rewrite drop_ge, drop_0 by done. unfold block_rows. rewrite fmap_cons. simpl. by rewrite <- app_assoc. Qed.
Lemma pending_block m lrest block r r0 R' : R = r0 :: R' -> lrest <> [] -> pending (S m) lrest [] block r (length block) = pending m (drop B lrest) R' (take B lrest) r0 0.
Proof.
  intros HR0 Hl. unfold pending. rewrite drop_ge, drop_0 by done. destruct lrest as [|l lrest]; [done|]. unfold join_from. cbn [blocks]. rewrite fmap_cons. cbn [concat].
  unfold block_rows at 2. rewrite HR0 at 1. rewrite fmap_cons. cbn [concat]. rewrite <- app_assoc. reflexivity.
Qed.

Definition one_round (N fuel : nat) (n : nat) (lrest rr block : list row) (r : row) (i : nat) (s : D * BJ) : Prop :=
  exists s', bl_loop g fuel s = (Ret tt, s') /\ stands N (pending n lrest rr block r i) s'.

(** A scan that finds nothing goes round again from the end of the block. *)
Lemma scan_round N fuel n lrest r rr block i s : bj lrest (r :: rr) block i s -> (i <= length block)%nat -> (length lrest <= n)%nat ->
  (length rr + length R * n <= N)%nat -> (forall s', bj lrest (r :: rr) block (length block) s' -> one_round N fuel n lrest rr block r (length block) s') ->
  exists s', (j ← own id; found ← scan_buffer g (Z.to_nat (bl_left_size j - bl_left_ptr j)); if (found : bool) then mret tt else bl_loop g fuel) s = (Ret tt, s') /\
    stands N (pending n lrest rr block r i) s'.
Proof.
  intros J Hi Hn HN IH. rewrite (loop_scan _ _ _ _ _ _ J). destruct (scan_stands N n _ _ _ _ _ _ J Hi Hn HN) as [(s' & R1 & S1)|(s' & R1 & J1 & ->)].
  - exists s'. split; [|done]. by rewrite (bind_run _ _ _ _ _ R1).
  - rewrite (bind_run _ _ _ _ _ R1). exact (IH s' J1).
Qed.

(** The loop stops on the next match, or at the end. *)
Lemma loop_ok (N fuel : nat) : R <> [] -> forall n lrest r rr block i s, bj lrest (r :: rr) block i s -> (i <= length block)%nat -> (length lrest <= n)%nat ->
  (length rr + length R * n <= N)%nat -> (length rr + length R * n + (if bool_decide (i = length block) then 1 else 2) <= fuel)%nat ->
  one_round N fuel n lrest rr block r i s.
Proof.
  intros HR0. induction fuel as [|fuel IH]; intros n lrest r rr block i s J Hi Hn HN Hf; [destruct (bool_decide _); lia|].
  unfold one_round. rewrite (loop_round _ _ _ _ _ _ _ J). case_bool_decide as E.
  2: { erewrite bind_run by reflexivity. apply (scan_round N fuel n _ _ _ _ _ _ J Hi Hn HN). intros s' J'. apply (IH n _ _ _ _ _ _ J'); try done. rewrite bool_decide_eq_true_2 by done. lia. }
  subst i. pose proof (advance_ok _ _ _ _ _ HR0 J) as A. destruct rr as [|r' rr].
  - destruct lrest as [|l lrest].
    + destruct A as (s' & R1 & J1). exists s'. split; [by rewrite (bind_run _ _ _ _ _ R1)|].
      unfold pending. rewrite drop_ge by done. unfold join_from. rewrite blocks_nil. simpl. by exists block, (length block).
    + destruct A as (s' & R1 & J1). rewrite (bind_run _ _ _ _ _ R1). destruct n as [|m]; [simpl in Hn; lia|]. assert (exists r0 R', R = r0 :: R') as (r0 & R' & HeqR) by (clear -HR0; destruct R; eauto; done).
      rewrite HeqR in J1. rewrite (pending_block m _ _ _ r0 R') by done. pose proof B_pos. pose proof (f_equal length HeqR) as Hlen. cbn [length] in *.
      assert (length (drop B (l :: lrest)) <= m)%nat as Hd by (rewrite length_drop; cbn [length]; lia).
      apply (scan_round N fuel m _ _ _ _ _ _ J1); [lia|done|rewrite Nat.mul_succ_r in HN; lia|]. intros s2 J2. rewrite Nat.mul_succ_r in HN, Hf.
      apply (IH m _ _ _ _ _ _ J2); [lia|done|lia|]. rewrite bool_decide_eq_true_2 by done. lia.
  - destruct A as (s' & R1 & J1). rewrite (bind_run _ _ _ _ _ R1), pending_row. cbn [length] in *.
    apply (scan_round N fuel n _ _ _ _ _ _ J1); [lia|done|lia|]. intros s2 J2. apply (IH n _ _ _ _ _ _ J2); [lia|done|lia|].
    rewrite bool_decide_eq_true_2 by done. lia.
Qed.

(** ** The operations of the join *)

Lemma stands_end N rows s : stands N rows s -> bl_is_end s = (Ret (bool_decide (rows = [])), s).
Proof.
  unfold bl_is_end. destruct rows as [|x rest].
  - intros (block & i & J). rewrite (bind_run _ _ _ _ _ (left_end _ _ _ _ _ J)). rewrite !bool_decide_eq_true_2 by done.
    rewrite (right_end _ _ _ _ _ J). by rewrite bool_decide_eq_true_2.
  - intros (n & lrest & r & rr & block & k & l & J & _). rewrite (bind_run _ _ _ _ _ (left_end _ _ _ _ _ J)).
    rewrite (bool_decide_eq_false_2 (x :: rest = [])) by done. case_bool_decide; [|done]. by rewrite (right_end _ _ _ _ _ J).
Qed.

Lemma stands_row N x rest s : stands N (x :: rest) s -> exists s', bl_next g s = (Ret x, s') /\ stands N (x :: rest) s'.
Proof.
  intros (n & lrest & r & rr & block & k & l & J & Hl & -> & H). destruct (next_row _ _ _ _ _ _ _ J Hl) as (s' & R1 & J1).
  exists s'. split; [done|]. by exists n, lrest, r, rr, block, k, l.
Qed.

Lemma stands_next N fuel x rest s : R <> [] -> (N + 2 <= fuel)%nat -> stands N (x :: rest) s ->
  exists s', bl_nextTuple g fuel s = (Ret tt, s') /\ stands N rest s'.
Proof.
  intros HR0 Hf (n & lrest & r & rr & block & k & l & J & Hl & -> & -> & Hn & HN). unfold bl_nextTuple. pose proof (lookup_lt_Some _ _ _ Hl) as Hk.
  pose proof (bj_fit _ _ _ _ _ J) as Hfit. assert (Z.of_nat B = 2048) as HB by reflexivity.
  destruct (set_ptr_run _ _ _ _ (S k) s (fun j => bl_set_ptr (wrap_u 64 (bl_left_ptr j + 1)) j) J) as (s1 & R1 & J1).
  { intros j ->. f_equal. unfold wrap_u. rewrite Z.mod_small by (change (2 ^ 64) with 18446744073709551616; lia). lia. }
  rewrite (bind_run _ _ _ _ _ R1). apply (loop_ok N fuel HR0 n _ _ _ _ _ _ J1); [lia|done..|]. destruct (bool_decide _); lia.
Qed.

Lemma joins_begin fuel d j : L <> [] -> R <> [] -> I d -> joins j -> (length R * length L + 2 <= fuel)%nat ->
  exists s', bl_beginTuple g fuel (d, j) = (Ret tt, s') /\ stands (length R * length L) (join_rows P B L R) s'.
Proof.
  intros HL0 HR0 Hd J Hf. unfold bl_beginTuple. destruct J as [K1 K2 K3 K4 K5 K6 K7 K8].
  destruct (begin_ok d _ _ Hd K1) as (d1 & x1 & B1 & I1 & A1). rewrite (bind_run _ _ _ _ _ (child_run bl_left bl_set_left _ _ _ _ _ _ B1)).
  pose proof (is_end_ok d1 x1 _ _ I1 A1) as E1. rewrite (bind_run _ _ _ _ _ (child_run bl_left bl_set_left _ _ _ _ (bl_set_left x1 j) _ E1)).
  rewrite bool_decide_eq_false_2 by done. destruct (begin_ok d1 (bl_right j) _ I1 K2) as (d2 & x2 & B2 & I2 & A2).
  rewrite (bind_run _ _ _ _ _ (child_run bl_right bl_set_right _ _ _ _ (bl_set_left x1 (bl_set_left x1 j)) _ B2)). pose proof (is_end_ok d2 x2 _ _ I2 A2) as E2.
  rewrite (bind_run _ _ _ _ _ (child_run bl_right bl_set_right _ _ _ _ (bl_set_right x2 (bl_set_left x1 (bl_set_left x1 j))) _ E2)).
  rewrite bool_decide_eq_false_2 by done. destruct (load_ready L R d2 (bl_set_right x2 (bl_set_right x2 (bl_set_left x1 (bl_set_left x1 j)))) I2) as (s3 & R3 & J3).
  { split; try done; simpl; by eapply at_over. } { done. } { done. }
  rewrite (bind_run _ _ _ _ _ R3). unfold bl_nextTuple. erewrite bind_run by reflexivity. erewrite bind_run by reflexivity. cbn [fst snd].
  destruct (set_ptr_run _ _ _ _ 0 s3 (bl_set_ptr 0) J3) as (s4 & R4 & J4); [done|]. injection R4 as E4.
  match goal with |- context [bl_loop g fuel ?s] => replace s with s4 by (rewrite <- E4; reflexivity) end.
  assert (exists r0 R', R = r0 :: R') as (r0 & R' & HeqR) by (clear -HR0; destruct R; eauto; done).
  assert (exists m, length L = S m) as [m Hm] by (clear -HL0; destruct L; [done|simpl; eauto]). pose proof (f_equal length HeqR) as Hlen. cbn [length] in Hlen. rewrite HeqR in J4.
  pose proof B_pos as HB0. assert (length (drop B L) <= m)%nat as Hd'. { rewrite length_drop. idtac. lia. }
  unfold join_rows. rewrite Hm, Nat.mul_succ_r in Hf |- *.
  pose proof (pending_block m L [] [] r0 R' HeqR HL0) as HP. unfold pending at 1 in HP. simpl in HP. rewrite HP.
  apply (loop_ok _ fuel HR0 m _ _ _ _ _ _ J4); [lia|done|lia|clear -Hlen Hf; destruct (bool_decide _); lia].
Qed.

Section laws.
Context (fuel : nat) (HL0 : L <> []) (HR0 : R <> []) (Hfuel : (length R * length L + 2 <= fuel)%nat).
Abbreviation N := (length R * length L)%nat.
Abbreviation rows_of := (join_rows P B L R).

Lemma stands_any n rest d d' j : stands n rest (d, j) -> I d' -> stands n rest (d', j).
Proof.
  assert (forall lrest rrest block i, bj lrest rrest block i (d, j) -> I d' -> bj lrest rrest block i (d', j)) as E.
  { intros lrest rrest block i [J1 J2 J3 J4 J5 J6 J7 J8 J9 J10 J11 J12 J13 J14] H. by split. }
  destruct rest as [|x rest]; simpl.
  - intros (block & i & J) H. exists block, i. by apply E.
  - intros (m & lrest & r & rr & block & k & l & J & H1) H. exists m, lrest, r, rr, block, k, l. split; [by apply E|done].
Qed.
Lemma stands_joins n rest s : stands n rest s -> I s.1 /\ joins s.2.
Proof.
  destruct rest as [|x rest]; simpl; [intros (block & i & J)|intros (m & lrest & r & rr & block & k & l & J & H1)]; split; try apply J; by eapply bj_joins.
Qed.

Definition jo_at (rows rest : list row) (j : BJ) : Prop :=
  rows = rows_of /\ (exists pre, rows = pre ++ rest) /\ joins j /\ forall d, I d -> stands N rest (d, j).
Lemma jo_at_intro rest s : (exists pre, rows_of = pre ++ rest) -> stands N rest s -> I s.1 /\ jo_at rows_of rest s.2.
Proof. intros H S1. destruct (stands_joins _ _ _ S1) as [HI HJ]. split; [done|]. split_and!; try done. intros d Hd. destruct s as [d' j]. by eapply stands_any. Qed.

Lemma jo_begin d j rows : I d -> rows = rows_of /\ joins j -> exists d' j', bl_beginTuple g fuel (d, j) = (Ret tt, (d', j')) /\ I d' /\ jo_at rows rows j'.
Proof.
  intros Hd [-> J]. destruct (joins_begin fuel d j HL0 HR0 Hd J Hfuel) as ([d' j'] & R1 & S1). exists d', j'. split; [done|].
  apply (jo_at_intro _ (d', j')); [by exists []|done].
Qed.
Lemma jo_is_end d j rows rest : I d -> jo_at rows rest j -> bl_is_end (d, j) = (Ret (bool_decide (rest = [])), (d, j)).
Proof. intros Hd (_ & _ & _ & S1). by eapply stands_end, S1. Qed.
Lemma jo_record d j rows r rest : I d -> jo_at rows (r :: rest) j -> exists d' j', bl_next g (d, j) = (Ret r, (d', j')) /\ I d' /\ jo_at rows (r :: rest) j'.
Proof.
  intros Hd (-> & Hp & _ & S1). destruct (stands_row _ _ _ _ (S1 d Hd)) as ([d' j'] & R1 & S2). exists d', j'. split; [done|]. by apply (jo_at_intro _ (d', j')).
Qed.
Lemma jo_next d j rows r rest : I d -> jo_at rows (r :: rest) j -> exists d' j', bl_nextTuple g fuel (d, j) = (Ret tt, (d', j')) /\ I d' /\ jo_at rows rest j'.
Proof.
  intros Hd (-> & (pre & Hp) & _ & S1). destruct (stands_next _ fuel _ _ _ HR0 Hfuel (S1 d Hd)) as ([d' j'] & R1 & S2). exists d', j'. split; [done|].
  apply (jo_at_intro _ (d', j')); [|done]. exists (pre ++ [r]). by rewrite <- app_assoc.
Qed.

(** The join keeps the promise it relies on, so joins nest. *)
Definition join_laws : @ExecutorLaws D BJ (BlockJoin_executor g fuel) I := {|
  over := fun rows j => rows = rows_of /\ joins j; at_ := jo_at;
  at_over := fun rows rest j H => conj (proj1 H) (proj1 (proj2 (proj2 H)));
  at_suffix := fun rows rest j H => proj1 (proj2 H);
  begin_ok := jo_begin : forall d x rows, I d -> _ -> exists d' x', @beginTuple D BJ (BlockJoin_executor g fuel) (d, x) = _ /\ _;
  is_end_ok := jo_is_end : forall d x rows rest, I d -> jo_at rows rest x -> @is_end D BJ (BlockJoin_executor g fuel) (d, x) = _;
  record_ok := jo_record : forall d x rows r rest, I d -> jo_at rows (r :: rest) x -> exists d' x', @Next D BJ (BlockJoin_executor g fuel) (d, x) = _ /\ _;
  next_ok := jo_next : forall d x rows r rest, I d -> jo_at rows (r :: rest) x -> exists d' x', @nextTuple D BJ (BlockJoin_executor g fuel) (d, x) = _ /\ _
|}.
End laws.

End join.

(** ** Driving an executor *)

Section drive.
Context {D X : Type} {E : AbstractExecutor D X} (I : D -> Prop) {LX : ExecutorLaws D X I}.

Lemma drain_ok (rows : list row) (rest : list row) : forall fuel acc d x, I d -> at_ rows rest x -> (length rest < fuel)%nat ->
  exists d' x', drain fuel acc (d, x) = (Ret (acc ++ rest), (d', x')) /\ I d' /\ at_ rows [] x'.
Proof.
  induction rest as [|r rest IH]; intros [|fuel] acc d x Hd Ha Hf; simpl in Hf; try lia; cbn [drain]; rewrite (bind_run _ _ _ _ _ (is_end_ok d x _ _ Hd Ha)).
  - rewrite bool_decide_eq_true_2 by done. exists d, x. by rewrite app_nil_r.
  - rewrite bool_decide_eq_false_2 by done. destruct (record_ok d x _ _ _ Hd Ha) as (d1 & x1 & R1 & I1 & A1). rewrite (bind_run _ _ _ _ _ R1).
    destruct (next_ok d1 x1 _ _ _ I1 A1) as (d2 & x2 & R2 & I2 & A2). rewrite (bind_run _ _ _ _ _ R2).
    destruct (IH fuel (acc ++ [r]) d2 x2 I2 A2 ltac:(lia)) as (d3 & x3 & R3 & H). exists d3, x3. by rewrite R3, <- app_assoc.
Qed.
Lemma collect_ok (rows : list row) (fuel : nat) (d : D) (x : X) : I d -> over rows x -> (length rows < fuel)%nat ->
  exists d' x', collect fuel (d, x) = (Ret rows, (d', x')) /\ I d' /\ at_ rows [] x'.
Proof.
  intros Hd Ho Hf. unfold collect. destruct (begin_ok d x rows Hd Ho) as (d1 & x1 & R1 & I1 & A1). rewrite (bind_run _ _ _ _ _ R1).
  exact (drain_ok rows rows fuel [] d1 x1 I1 A1 Hf).
Qed.
End drive.

(** ** The join from its constructor on *)

Section whole.
Context {D XL XR : Type} {EL : AbstractExecutor D XL} {ER : AbstractExecutor D XR} (I : D -> Prop).
Context {LL : ExecutorLaws D XL I} {LR : ExecutorLaws D XR I}.
Context (g : Z) (L R : list row) (ll rl : nat) (conds : list Condition) (left : XL) (right : XR) (d : D).
Context (Hll : tupleLen left = Z.of_nat ll) (Hrl : tupleLen right = Z.of_nat rl) (Hfit : Z.of_nat (ll + rl) < 2 ^ 64).
Context (HoL : over L left) (HoR : over R right) (HI : I d).
Abbreviation join_cols := (cols left ++ shift_cols (tupleLen left) (cols right)).

Lemma make_joins : joins I L R ll rl conds join_cols (make_block_join left right conds).
Proof.
  split; try done; unfold make_block_join; simpl. unfold wrap_u. rewrite Hll, Hrl, Z.mod_small by lia. lia.
Qed.

Lemma join_collected (P : row -> bool) (fuel : nat) :
  L <> [] -> R <> [] -> (forall l, l ∈ L -> length l = ll) -> (forall r, r ∈ R -> length r = rl) ->
  (forall l r, l ∈ L -> r ∈ R -> checkConds (replicate 8 g) (l ++ r) conds join_cols = Ret (P (l ++ r))) ->
  (length R * length L + 2 <= fuel)%nat ->
  exists d' j', collect (EX := BlockJoin_executor g fuel) fuel (d, make_block_join left right conds) =
      (Ret (join_rows P (Z.to_nat MAX_BUFFER_SIZE) L R), (d', j')) /\ I d' /\
    join_rows P (Z.to_nat MAX_BUFFER_SIZE) L R ≡ₚ nested P L R.
Proof.
  intros HL0 HR0 HL HR Hc Hf. pose proof (join_nested P (Z.to_nat MAX_BUFFER_SIZE) R (length L) B_pos L ltac:(done)) as HP.
  fold (join_rows P (Z.to_nat MAX_BUFFER_SIZE) L R) in HP.
  destruct (@collect_ok D _ (BlockJoin_executor g fuel) I (join_laws I g L R ll rl conds join_cols P HL HR Hc fuel HL0 HR0 Hf)
    (join_rows P (Z.to_nat MAX_BUFFER_SIZE) L R) fuel d (make_block_join left right conds) HI) as (d' & j' & R1 & I1 & _).
  - split; [done|]. exact make_joins.
  - rewrite HP. pose proof (nested_length P L R). lia.
  - by exists d', j'.
Qed.

(** With an empty right side the join reports a row it does not have: reading
    it dereferences the empty buffer. *)
Theorem block_join_empty_right (fuel : nat) : L <> [] -> R = [] ->
  exists s', collect (EX := BlockJoin_executor g (Datatypes.S fuel)) (Datatypes.S fuel) (d, make_block_join left right conds) = (Stuck NullDeref, s').
Proof.
  intros HL0 HR0. destruct make_joins as [K1 K2 K3 K4 K5 K6 K7 K8]. unfold collect. cbn [beginTuple BlockJoin_executor].
  destruct (begin_ok d left _ HI HoL) as (d1 & x1 & B1 & I1 & A1). destruct (begin_ok d1 right _ I1 HoR) as (d2 & x2 & B2 & I2 & A2).
  pose proof (is_end_ok d1 x1 _ _ I1 A1) as E1. pose proof (is_end_ok d2 x2 _ _ I2 A2) as E2. pose proof (is_end_ok d2 x1 _ _ I2 A1) as E3.
  rewrite bool_decide_eq_false_2 in E1, E3 by done. rewrite bool_decide_eq_true_2 in E2 by done.
  set (j0 := make_block_join left right conds). set (j1 := bl_set_left x1 j0). set (j2 := bl_set_left x1 j1). set (j3 := bl_set_right x2 j2). set (j4 := bl_set_right x2 j3).
  rewrite (bind_run _ _ _ (d2, j4) tt).
  - cbn [drain is_end BlockJoin_executor]. rewrite (bind_run _ _ _ (d2, bl_set_left x1 j4) false); [eexists; reflexivity|].
    unfold bl_is_end. by rewrite (bind_run _ _ _ _ _ (child_run bl_left bl_set_left _ _ _ _ j4 _ E3)).
  - unfold bl_beginTuple. rewrite (bind_run _ _ _ _ _ (child_run bl_left bl_set_left _ _ _ _ j0 _ B1)).
    rewrite (bind_run _ _ _ _ _ (child_run bl_left bl_set_left _ _ _ _ j1 _ E1)), (bind_run _ _ _ _ _ (child_run bl_right bl_set_right _ _ _ _ j2 _ B2)).
    by rewrite (bind_run _ _ _ _ _ (child_run bl_right bl_set_right _ _ _ _ j3 _ E2)).
Qed.

(** C39: the block nested-loop join computes the join.  Its children enumerate
    the rows [L] and [R] of the lengths [ll] and [rl], their columns lie inside
    these rows, and the conditions compare columns of the join.  When both sides
    have rows, driving it (begin, read, advance until the end, with enough fuel for
    every pair) returns, block of 2048 left rows by block, the concatenations of
    a left and a right row that satisfy the conditions: a permutation of the
    nested loop over [L] and [R].  When the left side has rows and the right side
    has none, the join of the code is not empty: reading its first row
    dereferences a null pointer.  (With an empty left side the right child is
    asked for its end before it has begun.) *)
Theorem block_join_correct (fuel : nat) :
  L <> [] -> (forall l, l ∈ L -> length l = ll) -> (forall r, r ∈ R -> length r = rl) ->
  Z.of_nat (ll + rl) < 2 ^ 31 -> Forall (column_ok (Z.of_nat ll)) (cols left) -> Forall (column_ok (Z.of_nat rl)) (cols right) ->
  Forall (cond_ok join_cols) conds -> (length R * length L + 2 <= fuel)%nat ->
  let keep := sql_where join_cols conds in
  match R with
  | [] => exists s', collect (EX := BlockJoin_executor g fuel) fuel (d, make_block_join left right conds) = (Stuck NullDeref, s')
  | _ => exists d' j', collect (EX := BlockJoin_executor g fuel) fuel (d, make_block_join left right conds) =
      (Ret (join_rows keep (Z.to_nat MAX_BUFFER_SIZE) L R), (d', j')) /\ I d' /\
      join_rows keep (Z.to_nat MAX_BUFFER_SIZE) L R ≡ₚ nested keep L R
  end.
Proof.
  intros HL0 HL HR Hlen Hcl Hcr Hcond Hf keep.
  assert (R <> [] -> exists d' j', collect (EX := BlockJoin_executor g fuel) fuel (d, make_block_join left right conds) =
    (Ret (join_rows keep (Z.to_nat MAX_BUFFER_SIZE) L R), (d', j')) /\ I d' /\ join_rows keep (Z.to_nat MAX_BUFFER_SIZE) L R ≡ₚ nested keep L R) as Hgood.
  { intros HR0. apply join_collected; try done. intros l r Hl Hr.
    pose proof (join_columns (Z.of_nat ll) (Z.of_nat rl) _ _ ltac:(lia) ltac:(lia) ltac:(lia) Hcl Hcr) as Hcs. rewrite <- Hll in Hcs.
    apply (checkConds_sql _ (tupleLen left + Z.of_nat rl)); [done| |done]. rewrite length_app, (HL l Hl), (HR r Hr). lia. }
  destruct (decide (R = [])) as [HR0|HR0].
  - rewrite HR0. destruct fuel as [|fuel]; [lia|]. by apply block_join_empty_right.
  - destruct R; [done|]. by apply Hgood.
Qed.

(** The nested-loop join never learns that it began at its end: with an empty
    right side it reports a row. *)
Theorem nested_join_empty_right (fuel : nat) : R = [] ->
  exists s', (beginTuple (AbstractExecutor := NestedJoin_executor g (Datatypes.S fuel)) ;; is_end (AbstractExecutor := NestedJoin_executor g (Datatypes.S fuel)))
    (d, make_nested_join left right conds) = (Ret false, s').
Proof.
  intros HR0. destruct (begin_ok d left _ HI HoL) as (d1 & x1 & B1 & I1 & A1). destruct (begin_ok d1 right _ I1 HoR) as (d2 & x2 & B2 & I2 & A2).
  pose proof (is_end_ok d2 x2 _ _ I2 A2) as E2. rewrite bool_decide_eq_true_2 in E2 by done. cbn [beginTuple is_end NestedJoin_executor].
  set (j0 := make_nested_join left right conds). set (j1 := nl_set_left x1 j0). set (j2 := nl_set_right x2 j1).
  exists (d2, nl_set_right x2 j2). rewrite (bind_run _ _ _ (d2, nl_set_right x2 j2) tt); [reflexivity|].
  unfold nl_beginTuple. rewrite (bind_run _ _ _ _ _ (child_run nl_left nl_set_left _ _ _ _ j0 _ B1)), (bind_run _ _ _ _ _ (child_run nl_right nl_set_right _ _ _ _ j1 _ B2)).
  rewrite (bind_run _ _ _ (d2, nl_set_right x2 j2) false); [reflexivity|]. cbn [nl_loop]. by rewrite (bind_run _ _ _ _ _ (child_run nl_right nl_set_right _ _ _ _ j2 _ E2)).
Qed.
End whole.
End JoinSpec.
