(* ===== verification/Engine.v ===== *)
(** * The running system

    The objects that [src/src/rmdb.cpp] creates once and every statement works
    on: the buffer pool with its disk manager, the lock manager with the
    transactions, the log manager, the catalogue, and the open handles of
    [SmManager].  A handle is a view of this state: running one of its
    operations reads the shared parts and writes them back. *)

From S2P Require Import Prelude Bytes Posix Disk Replacer BufferPool BufferPoolFacts BufferPoolSpec PagePool Txn Lock Log RmFile IxDefs IxNode IxIndex Values SmMeta Managers.

(** [fhs_] and [ihs_] hold the handles by name; what a handle keeps besides the
    shared objects. *)
Record TabFile : Type := mkTF { tf_fd : Z; tf_hdr : RmFileHdr }.
Record IxFile : Type := mkXF { xf_fd : Z; xf_hdr : IxFileHdr; xf_root_latch : bool }.

Module Engine.
Import Bpm PoolInstance.
Section engine.
Context {R : Type} {RO : Replacer R} {FO : FileSystem}.
Abbreviation BPM := (BufferPoolManager R).

(** [en_latches]: the latches of the pages, by frame.  [en_index_sets]: the
    index page sets of each transaction.  [en_meta]: the catalogue file.  The log
    manager writes through the disk manager of the pool. *)
Record Engine : Type := mkEng {
  en_pool : BPM;
  en_locks : Lock.LockManager;
  en_log : Log.LogManager;
  db_ : DbMeta;
  fhs_ : gmap string TabFile;
  ihs_ : gmap string IxFile;
  en_latches : gmap Z Latch;
  en_index_sets : gmap Z (list Z * list Z);
  en_meta : list Z
}.

Definition set_pool (x : BPM) (s : Engine) : Engine := mkEng x (en_locks s) (en_log s) (db_ s) (fhs_ s) (ihs_ s) (en_latches s) (en_index_sets s) (en_meta s).
Definition set_locks (x : Lock.LockManager) (s : Engine) : Engine := mkEng (en_pool s) x (en_log s) (db_ s) (fhs_ s) (ihs_ s) (en_latches s) (en_index_sets s) (en_meta s).
Definition set_log (x : Log.LogManager) (s : Engine) : Engine := mkEng (en_pool s) (en_locks s) x (db_ s) (fhs_ s) (ihs_ s) (en_latches s) (en_index_sets s) (en_meta s).
Definition set_db (x : DbMeta) (s : Engine) : Engine := mkEng (en_pool s) (en_locks s) (en_log s) x (fhs_ s) (ihs_ s) (en_latches s) (en_index_sets s) (en_meta s).
Definition set_fhs (x : gmap string TabFile) (s : Engine) : Engine := mkEng (en_pool s) (en_locks s) (en_log s) (db_ s) x (ihs_ s) (en_latches s) (en_index_sets s) (en_meta s).
Definition set_ihs (x : gmap string IxFile) (s : Engine) : Engine := mkEng (en_pool s) (en_locks s) (en_log s) (db_ s) (fhs_ s) x (en_latches s) (en_index_sets s) (en_meta s).
Definition set_latches (x : gmap Z Latch) (s : Engine) : Engine := mkEng (en_pool s) (en_locks s) (en_log s) (db_ s) (fhs_ s) (ihs_ s) x (en_index_sets s) (en_meta s).
Definition set_index_sets (x : gmap Z (list Z * list Z)) (s : Engine) : Engine := mkEng (en_pool s) (en_locks s) (en_log s) (db_ s) (fhs_ s) (ihs_ s) (en_latches s) x (en_meta s).

Definition set_meta (x : list Z) (s : Engine) : Engine := mkEng (en_pool s) (en_locks s) (en_log s) (db_ s) (fhs_ s) (ihs_ s) (en_latches s) (en_index_sets s) x.

Definition on_pool {A} (m : M BPM A) : M Engine A := zoom en_pool set_pool m.
Definition on_disk {A} (m : M Disk.DiskManager A) : M Engine A := on_pool (Bpm.on_disk m).
Definition on_locks {A} (m : M Lock.LockManager A) : M Engine A := zoom en_locks set_locks m.

(** The log manager as it stands: its disk is the pool's. *)
Definition the_log (s : Engine) : Log.LogManager := Log.set_lm_disk (disk_manager_ (en_pool s)) (en_log s).
Definition put_log (l : Log.LogManager) (s : Engine) : Engine := set_log l (set_pool (set_disk (Log.lm_disk l) (en_pool s)) s).
Definition on_log {A} (m : M Log.LogManager A) : M Engine A := zoom the_log put_log m.

(** [fhs_.at(name)] and an operation of the handle. *)
Definition table_of (t : TabFile) (s : Engine) : Rm.RmFileHandle BPM := Rm.mkFH (en_pool s) (en_locks s) (tf_fd t) (tf_hdr t).
Definition put_table (name : string) (h : Rm.RmFileHandle BPM) (s : Engine) : Engine :=
  set_fhs (<[name := mkTF (Rm.fd_ h) (Rm.file_hdr_ h)]> (fhs_ s)) (set_locks (Rm.rm_locks h) (set_pool (Rm.rm_pool h) s)).
Definition on_table {A} (name : string) (m : M (Rm.RmFileHandle BPM) A) : M Engine A := fun s =>
  match fhs_ s !! name with
  | None => (Throw OutOfRange, s)
  | Some t => zoom (table_of t) (put_table name) m s
  end.

(** [ihs_.at(name)] and an operation of the handle in transaction [txn]. *)
Definition index_of (txn : Z) (x : IxFile) (s : Engine) : Ix.IxIndexHandle BPM :=
  let sets := default ([], []) (en_index_sets s !! txn) in
  Ix.mkIH (en_pool s) (xf_fd x) (xf_hdr x) (xf_root_latch x) (en_latches s) sets.1 sets.2.
Definition put_index_of (txn : Z) (name : string) (h : Ix.IxIndexHandle BPM) (s : Engine) : Engine :=
  set_ihs (<[name := mkXF (Ix.ix_fd h) (Ix.ix_hdr h) (Ix.root_latch_ h)]> (ihs_ s))
    (set_index_sets (<[txn := (Ix.index_latch_page_set_ h, Ix.index_deleted_page_set_ h)]> (en_index_sets s))
      (set_latches (Ix.rwlock h) (set_pool (Ix.ix_pool h) s))).
Definition on_index {A} (txn : Z) (name : string) (m : M (Ix.IxIndexHandle BPM) A) : M Engine A := fun s =>
  match ihs_ s !! name with
  | None => (Throw OutOfRange, s)
  | Some x => zoom (index_of txn x) (put_index_of txn name) m s
  end.

(** The transaction a [Context] carries. *)
Definition the_txn (txn : Z) : M Engine Transaction := on_locks (Lock.get_txn txn).

(** [record.prev_lsn_ = txn->get_prev_lsn(); txn->set_prev_lsn(add_log_to_buffer(&record))] *)
Definition log_txn (txn : Z) (r : Log.LogRecord) : M Engine unit :=
  t ← the_txn txn;
  p ← on_log (Log.add_log_to_buffer (Log.map_hdr (Log.set_prev (prev_lsn_ t)) r));
  on_locks (Lock.upd_txn txn (set_prev_lsn p.1)).

(** ** Keys *)

(** [memcpy] of the columns of an index, one behind the other, into a key
    buffer of [col_tot_len] bytes. *)
Fixpoint fill_key (key : list Z) (offset : Z) (data : list Z) (cs : list ColMeta) : outcome (list Z) :=
  match cs with
  | [] => Ret key
  | c :: cs =>
      x ← read (cm_offset c) (cm_len c) data;
      key ← write offset x key;
      fill_key key (offset + cm_len c) data cs
  end.
Definition index_key (g : Z) (index : IndexMeta) (data : list Z) (cs : list ColMeta) : outcome (list Z) :=
  fill_key (replicate (Z.to_nat (im_col_tot_len index)) g) 0 data cs.

(** The executors go by [col_num]: [index.cols\[i\]] past the end is undefined. *)
Definition counted_cols (index : IndexMeta) : outcome (list ColMeta) :=
  _ ← ensure OutOfBounds (im_col_num index <=? Z.of_nat (length (im_cols index)));
  Ret (take (Z.to_nat (im_col_num index)) (im_cols index)).
Definition counted_key (g : Z) (index : IndexMeta) (data : list Z) : outcome (list Z) :=
  cs ← counted_cols index; index_key g index data cs.

Definition index_name (tab_name : string) (index : IndexMeta) : string := get_index_name tab_name (cm_name <$> im_cols index).

End engine.
Arguments Engine R {_}.
End Engine.
