(* ===== verification/Dml.v ===== *)
(** * The modifying operators ([executor_insert.h], [executor_delete.h], [executor_update.h])

    [Next] performs the whole statement: the table, its indexes, the log and the
    write set of the transaction.  [txn] is the transaction of the context,
    [fuel] bounds the recursion of the index operations. *)

From Stdlib Require Import Floats.SpecFloat.
From S2P Require Import Prelude Bytes Posix Disk Replacer BufferPool BufferPoolFacts BufferPoolSpec PagePool Txn Lock Log RmFile IxDefs IxNode IxIndex Values SmMeta Managers Engine.
Import Engine PoolInstance.

(** The bits of a [float]; every NaN is written as the default one. *)
Definition bits_of_f32 (f : spec_float) : Z :=
  let sign (s : bool) : Z := if s then 2 ^ 31 else 0 in
  match f with
  | S754_zero s => sign s
  | S754_infinity s => sign s + 255 * 2 ^ 23
  | S754_nan => 511 * 2 ^ 22
  | S754_finite s m e => sign s + (if Zpos m <? 2 ^ 23 then Zpos m else (e + 150) * 2 ^ 23 + (Zpos m - 2 ^ 23))
  end.

(** [strncmp] of the first [n] bytes; reading past a buffer is undefined. *)
Fixpoint strncmp (n : nat) (a b : list Z) : outcome Z :=
  match n with
  | O => Ret 0
  | Datatypes.S n =>
      match a, b with
      | x :: a, y :: b => if negb (x =? y) then Ret (x - y) else if x =? 0 then Ret 0 else strncmp n a b
      | _, _ => Stuck OutOfBounds
      end
  end.

Section dml.
Context {R : Type} {RO : Replacer R} {FO : FileSystem} (g : Z) (fuel : nat) (txn : Z).
Abbreviation Eng := (Engine R).
Abbreviation E := (M Eng).

Definition append_write (w : WriteRecord) : E unit := on_locks (Lock.upd_txn txn (append_write_record w)).
Definition record_len (tab_name : string) : E Z := on_table tab_name (gets (fun h => record_size (Rm.file_hdr_ h))).

(** ** [InsertExecutor] *)

Record InsertExecutor : Type := mkInsert {
  ie_tab : TabMeta;
  ie_values : list Value;
  ie_tab_name : string;
  ie_rid : Rid
}.
Definition ie_set_values (x : list Value) (e : InsertExecutor) : InsertExecutor := mkInsert (ie_tab e) x (ie_tab_name e) (ie_rid e).
Definition ie_set_rid (x : Rid) (e : InsertExecutor) : InsertExecutor := mkInsert (ie_tab e) (ie_values e) (ie_tab_name e) x.

(** [r0] is what the uninitialised [rid_] holds. *)
Definition make_insert (tab_name : string) (values : list Value) (r0 : Rid) : E InsertExecutor :=
  db ← gets db_;
  tab ← lift (get_table tab_name db);
  if negb (length values =? length (tm_cols tab))%nat then throw InvalidValueCountError else
  x ← on_table tab_name (gets Rm.fd_);
  _ ← on_locks (Lock.lock_IX_on_table txn x);
  mret (mkInsert tab values tab_name r0).

(** One value into the record buffer; the value keeps its raw form. *)
Definition put_value (c : ColMeta) (v : Value) (rec : list Z) : outcome (Value * list Z) :=
  if negb (is_compatible_type (cm_type c) (v_type v)) then incompatible (cm_type c) (v_type v) else
  v ← init_raw g (cm_len c) v;
  buf ← or_stuck NullDeref (raw v);
  x ← read 0 (cm_len c) buf;
  rec ← write (cm_offset c) x rec;
  Ret (v, rec).
Fixpoint put_values (cs : list ColMeta) (vs : list Value) (rec : list Z) : outcome (list Value * list Z) :=
  match cs, vs with
  | c :: cs, v :: vs =>
      '(v, rec) ← put_value c v rec;
      '(vs, rec) ← put_values cs vs rec;
      Ret (v :: vs, rec)
  | _, _ => Ret ([], rec)
  end.

(** The keys of the new record; an index that has one already refuses it. *)
Fixpoint unique_keys (tab_name : string) (rec : list Z) (indexes : list IndexMeta) : E (list (list Z)) :=
  match indexes with
  | [] => mret []
  | index :: indexes =>
      (has ← gets (fun s => ihs_ s !! index_name tab_name index);
       match has with None => throw OutOfRange | Some _ => mret tt end) ;;
      key ← lift (counted_key g index rec);
      found ← on_index txn (index_name tab_name index) (Ix.is_key_exist fuel key true);
      if (found : bool) then throw (RMDBError "index unique error!") else
      keys ← unique_keys tab_name rec indexes;
      mret (key :: keys)
  end.
Definition insert_keys (tab_name : string) (rid : Rid) (indexes : list IndexMeta) (keys : list (list Z)) : E unit :=
  forM (zip indexes keys) (fun p =>
    _ ← on_index txn (index_name tab_name p.1) (Ix.insert_entry fuel p.2 rid true); mret tt).

Definition insert_next (e : InsertExecutor) : E InsertExecutor :=
  let tab := ie_tab e in
  let tab_name := ie_tab_name e in
  n ← record_len tab_name;
  '(vs, rec) ← lift (put_values (tm_cols tab) (ie_values e) (replicate (Z.to_nat n) g));
  keys ← unique_keys tab_name rec (tm_indexes tab);
  rid ← on_table tab_name (Rm.insert_record rec (Some txn));
  t ← the_txn txn;
  log_txn txn (Log.insert_record (txn_id_ t) (Log.mkRec n rec) rid (bytes_of_string tab_name)) ;;
  insert_keys tab_name rid (tm_indexes tab) keys ;;
  append_write (mkWriteRecord INSERT_TUPLE tab_name rid []) ;;
  mret (ie_set_rid rid (ie_set_values vs e)).

(** ** [DeleteExecutor] *)

Record DeleteExecutor : Type := mkDelete {
  de_tab : TabMeta;
  de_conds : list Condition;
  de_rids : list Rid;
  de_tab_name : string
}.
Definition make_delete (tab_name : string) (conds : list Condition) (rids : list Rid) : E DeleteExecutor :=
  db ← gets db_;
  tab ← lift (get_table tab_name db);
  x ← on_table tab_name (gets Rm.fd_);
  _ ← on_locks (Lock.lock_IX_on_table txn x);
  mret (mkDelete tab conds rids tab_name).

Definition delete_keys (tab_name : string) (rec : list Z) (indexes : list IndexMeta) : E unit :=
  forM indexes (fun index =>
    (has ← gets (fun s => ihs_ s !! index_name tab_name index);
     match has with None => throw OutOfRange | Some _ => mret tt end) ;;
    key ← lift (counted_key g index rec);
    _ ← on_index txn (index_name tab_name index) (Ix.delete_entry fuel key true);
    mret tt).

Definition delete_one (tab : TabMeta) (tab_name : string) (rid : Rid) : E unit :=
  rec ← on_table tab_name (Rm.get_record rid (Some txn));
  t ← the_txn txn;
  log_txn txn (Log.delete_record (txn_id_ t) (Log.mkRec (Z.of_nat (length rec)) rec) rid (bytes_of_string tab_name)) ;;
  delete_keys tab_name rec (tm_indexes tab) ;;
  on_table tab_name (Rm.delete_record rid (Some txn)) ;;
  append_write (mkWriteRecord DELETE_TUPLE tab_name rid rec).
Definition delete_next (e : DeleteExecutor) : E unit := forM (de_rids e) (delete_one (de_tab e) (de_tab_name e)).

(** ** [UpdateExecutor] *)

Record UpdateExecutor : Type := mkUpdate {
  ue_tab : TabMeta;
  ue_conds : list Condition;
  ue_rids : list Rid;
  ue_tab_name : string;
  ue_set_clauses : list SetClause
}.
Definition make_update (tab_name : string) (set_clauses : list SetClause) (conds : list Condition) (rids : list Rid) : E UpdateExecutor :=
  db ← gets db_;
  tab ← lift (get_table tab_name db);
  x ← on_table tab_name (gets Rm.fd_);
  _ ← on_locks (Lock.lock_IX_on_table txn x);
  mret (mkUpdate tab conds rids tab_name set_clauses).

(** [val.int_val += old_val.int_val] and the like: the union changes, the type
    of the value stays; signed overflow is undefined. *)
Definition self_add (t : ColType) (old val : Value) : outcome Value :=
  match t with
  | TYPE_INT =>
      let z := int_val val + int_val old in
      _ ← ensure SignedOverflow (in_i32 z); Ret (set_num (v_type val) (i32_bytes z) val)
  | TYPE_BIGINT =>
      let z := bigint_val val + bigint_val old in
      _ ← ensure SignedOverflow ((- 2 ^ 63 <=? z) && (z <? 2 ^ 63)); Ret (set_num (v_type val) (i64_bytes z) val)
  | TYPE_FLOAT => Ret (set_num (v_type val) (u32_bytes (bits_of_f32 (SFadd 24 128 (float_val val) (float_val old)))) val)
  | _ => Throw (InternalError "Unsupported operation.")
  end.

Definition apply_clause (tab : TabMeta) (target rec : list Z) (x : SetClause) : outcome (list Z) :=
  c ← get_col (tc_col_name (sc_lhs x)) tab;
  let val := sc_rhs x in
  if negb (is_compatible_type (cm_type c) (v_type val)) then incompatible (cm_type c) (v_type val) else
  val ← (if is_selfadd x then
           _ ← ensure OutOfBounds ((0 <=? cm_offset c) && (cm_offset c <=? Z.of_nat (length target)));
           old ← load_raw (cm_len c) (drop (Z.to_nat (cm_offset c)) target) (blank (replicate 8 g) (cm_type c));
           val ← self_add (cm_type c) old val;
           init_raw g (cm_len c) val
         else Ret val);
  buf ← or_stuck NullDeref (raw val);
  b ← read 0 (cm_len c) buf;
  write (cm_offset c) b rec.
Fixpoint apply_clauses (tab : TabMeta) (target rec : list Z) (xs : list SetClause) : outcome (list Z) :=
  match xs with
  | [] => Ret rec
  | x :: xs => rec ← apply_clause tab target rec x; apply_clauses tab target rec xs
  end.

(** The keys are compared as strings over the length of column [i] of the
    index, [i] being the number of the index. *)
Definition same_key (i : nat) (index : IndexMeta) (a b : list Z) : outcome bool :=
  c ← or_stuck OutOfBounds (im_cols index !! i);
  r ← strncmp (Z.to_nat (cm_len c)) a b;
  Ret (r =? 0).

Fixpoint changed_keys (tab_name : string) (i : nat) (rec target : list Z) (indexes : list IndexMeta) : E (list (list Z * list Z)) :=
  match indexes with
  | [] => mret []
  | index :: indexes =>
      (has ← gets (fun s => ihs_ s !! index_name tab_name index);
       match has with None => throw OutOfRange | Some _ => mret tt end) ;;
      key1 ← lift (counted_key g index rec);
      key2 ← lift (counted_key g index target);
      same ← lift (same_key i index key1 key2);
      found ← (if negb same then on_index txn (index_name tab_name index) (Ix.is_key_exist fuel key1 true) else mret false);
      if (found : bool) then throw (RMDBError "update index unique error!") else
      keys ← changed_keys tab_name (Datatypes.S i) rec target indexes;
      mret ((key1, key2) :: keys)
  end.

(** [p] is an index with its number and its new and old key. *)
Definition move_key (tab_name : string) (rid : Rid) (p : (nat * IndexMeta) * (list Z * list Z)) : E unit :=
  let '((i, index), (new_key, old_key)) := p in
  same ← lift (same_key i index old_key new_key);
  if (same : bool) then mret tt else
  _ ← on_index txn (index_name tab_name index) (Ix.delete_entry fuel old_key true);
  _ ← on_index txn (index_name tab_name index) (Ix.insert_entry fuel new_key rid true);
  mret tt.

Definition update_one (tab : TabMeta) (tab_name : string) (set_clauses : list SetClause) (rid : Rid) : E unit :=
  target ← on_table tab_name (Rm.get_record rid (Some txn));
  n ← record_len tab_name;
  new ← lift (read 0 n target);
  new ← lift (apply_clauses tab target new set_clauses);
  keys ← changed_keys tab_name 0 new target (tm_indexes tab);
  t ← the_txn txn;
  log_txn txn (Log.update_record (txn_id_ t) (Log.mkRec (Z.of_nat (length target)) target) (Log.mkRec n new) rid (bytes_of_string tab_name)) ;;
  forM (zip (imap pair (tm_indexes tab)) keys) (move_key tab_name rid) ;;
  on_table tab_name (Rm.update_record rid new (Some txn)) ;;
  append_write (mkWriteRecord UPDATE_TUPLE tab_name rid target).
Definition update_next (e : UpdateExecutor) : E unit := forM (ue_rids e) (update_one (ue_tab e) (ue_tab_name e) (ue_set_clauses e)).

End dml.
