(* ===== verification/Rollback.v ===== *)
(** * Aborting a transaction ([TransactionManager::abort])

    The write set is undone from its end: an inserted record is deleted, a
    deleted one inserted again (wherever there is room), an updated one gets its
    old bytes back, with the indexes following; then the locks are released and
    an abort record is logged. *)

From S2P Require Import Prelude Bytes Posix Disk Replacer BufferPool BufferPoolFacts BufferPoolSpec PagePool Txn Lock Log RmFile IxDefs IxNode IxIndex Values SmMeta Managers Engine.
Import Engine PoolInstance.

Module Rollback.
Section rollback.
Context {R : Type} {RO : Replacer R} {FO : FileSystem} (fuel : nat) (txn : Z).
Abbreviation E := (M (Engine R)).

(** [make_unique<char\[\]>] clears the key buffer. *)
Definition zero_key (index : IndexMeta) (data : list Z) : outcome (list Z) := index_key 0 index data (im_cols index).
Definition find_ih (tab_name : string) (index : IndexMeta) : E unit :=
  has ← gets (fun s => ihs_ s !! index_name tab_name index);
  match has with None => throw OutOfRange | Some _ => mret tt end.

Definition find_fh (tab_name : string) : E unit :=
  has ← gets (fun s => fhs_ s !! tab_name);
  match has with None => throw OutOfRange | Some _ => mret tt end.

Definition undo_insert (tab : TabMeta) (w : WriteRecord) : E unit :=
  let tab_name := tab_name_ w in
  rec ← on_table tab_name (Rm.get_record (wr_rid w) (Some txn));
  forM (tm_indexes tab) (fun index =>
    find_ih tab_name index ;;
    key ← lift (zero_key index rec);
    _ ← on_index txn (index_name tab_name index) (Ix.delete_entry fuel key true);
    mret tt) ;;
  on_table tab_name (Rm.delete_record (wr_rid w) (Some txn)).

Definition undo_delete (tab : TabMeta) (w : WriteRecord) : E unit :=
  let tab_name := tab_name_ w in
  new_rid ← on_table tab_name (Rm.insert_record (wr_record w) (Some txn));
  forM (tm_indexes tab) (fun index =>
    find_ih tab_name index ;;
    key ← lift (zero_key index (wr_record w));
    _ ← on_index txn (index_name tab_name index) (Ix.insert_entry fuel key new_rid true);
    mret tt).

Definition undo_update (tab : TabMeta) (w : WriteRecord) : E unit :=
  let tab_name := tab_name_ w in
  rec ← on_table tab_name (Rm.get_record (wr_rid w) (Some txn));
  on_table tab_name (Rm.update_record (wr_rid w) (wr_record w) (Some txn)) ;;
  forM (tm_indexes tab) (fun index =>
    find_ih tab_name index ;;
    new_key ← lift (zero_key index rec);
    old_key ← lift (zero_key index (wr_record w));
    if bool_decide (new_key = old_key) then mret tt else
    _ ← on_index txn (index_name tab_name index) (Ix.delete_entry fuel new_key true);
    _ ← on_index txn (index_name tab_name index) (Ix.insert_entry fuel old_key (wr_rid w) true);
    mret tt).

(** One turn of the loop: look the table up, undo, drop the record. *)
Definition undo_last (w : WriteRecord) : E unit :=
  db ← gets db_;
  tab ← lift (get_table (tab_name_ w) db);
  find_fh (tab_name_ w) ;;
  (match wtype_ w with
   | INSERT_TUPLE => undo_insert tab w
   | DELETE_TUPLE => undo_delete tab w
   | UPDATE_TUPLE => undo_update tab w
   end) ;;
  on_locks (Lock.upd_txn txn (fun t => set_write_set (removelast (write_set_ t)) t)).

(** [while (!write_set->empty())], [n] turns at most. *)
Fixpoint rollback (n : nat) : E unit :=
  t ← the_txn txn;
  match last (write_set_ t) with
  | None => mret tt
  | Some w =>
      match n with
      | O => stuck Diverges
      | Datatypes.S n => undo_last w ;; rollback n
      end
  end.

Definition abort : E unit :=
  t ← the_txn txn;
  rollback (length (write_set_ t)) ;;
  t ← the_txn txn;
  forM (elements (lock_set_ t)) (fun id => _ ← on_locks (Lock.unlock txn id); mret tt) ;;
  on_locks (Lock.upd_txn txn (set_lock_set ∅)) ;;
  on_locks (Lock.upd_txn txn (set_write_set [])) ;;
  t ← the_txn txn;
  log_txn txn (Log.abort_record (txn_id_ t)) ;;
  on_locks (Lock.upd_txn txn (set_state ABORTED)).

End rollback.
End Rollback.
