(* ===== verification/Recovery.v ===== *)
(** * Recovery ([src/src/recovery/log_recovery.{h,cpp}])

    At start-up [analyze] reads the log and collects the unfinished transactions
    and, for every page a record touches, the records newer than the page;
    [redo] and [undo] replay them on the tables. *)

From stdpp Require Import sorting.
From S2P Require Import Prelude Bytes Posix Disk Replacer BufferPool BufferPoolFacts BufferPoolSpec PagePool Txn Lock Log RmFile IxDefs IxNode IxIndex Values SmMeta Managers Engine.
Import Engine PoolInstance.

Module Recovery.
Section recovery.
Context {R : Type} {RO : Replacer R} {FO : FileSystem}.

(** [table_file_] is the table whose handle it points to. *)
Record RedoLogsInPage : Type := mkRedo { table_file_ : string; redo_logs_ : list Z }.

Record RecoveryManager : Type := mkRec {
  active_transaction_table : gmap Z (list Z);
  dirty_page_table : gmap PageId RedoLogsInPage;
  lsn2log : gmap Z Log.LogRecord
}.
Abbreviation V := (M (Engine R * RecoveryManager)).
Definition set_att (x : gmap Z (list Z)) (r : RecoveryManager) : RecoveryManager := mkRec x (dirty_page_table r) (lsn2log r).
Definition set_dpt (x : gmap PageId RedoLogsInPage) (r : RecoveryManager) : RecoveryManager := mkRec (active_transaction_table r) x (lsn2log r).
Definition set_l2l (x : gmap Z Log.LogRecord) (r : RecoveryManager) : RecoveryManager := mkRec (active_transaction_table r) (dirty_page_table r) x.
Definition on_engine {A} (m : M (Engine R) A) : V A := zoom fst (fun e s => (e, s.2)) m.
Definition tables {A} (f : RecoveryManager -> A) : V A := gets (fun s => f s.2).
Definition change (f : RecoveryManager -> RecoveryManager) : V unit := modify (fun s => (s.1, f s.2)).

(** The memory from [p] on. *)
Definition from (buffer : list Z) (p : Z) : Log.source := fun o n => mem_read (p + o) n buffer.

(** [active_transaction_table.emplace(tid, lsn)] constructs the vector from the
    number, before it looks for the key: [lsn] zeros, and a negative number is
    no length.  An entry that is there stays. *)
Definition att_emplace (tid lsn : Z) (t : gmap Z (list Z)) : outcome (gmap Z (list Z)) :=
  if lsn <? 0 then Throw LengthError else
  Ret (match t !! tid with Some _ => t | None => <[tid := replicate (Z.to_nat lsn) 0]> t end).
Definition att_push (tid lsn : Z) (t : gmap Z (list Z)) : gmap Z (list Z) :=
  <[tid := default [] (t !! tid) ++ [lsn]]> t.

(** A record that changed position [rid] of a table: the page enters the dirty
    page table with the number it carries on disk, and the record is kept when
    it is newer.  The table is a [std::map] ordered by [PageId::operator<], which
    is no strict order ([page.h:25]); it is modelled as the map it is meant to be. *)
Definition note_page (name : string) (rid : Rid) (lsn : Z) : V unit :=
  fd ← on_engine (on_table name (gets Rm.fd_));
  let page_id := mkPageId fd (rid_page_no rid) in
  dpt ← tables dirty_page_table;
  entry ← match dpt !! page_id with
          | Some e => mret e
          | None =>
              n ← on_engine (on_table name (Rm.get_page_lsn (rid_page_no rid)));
              mret (mkRedo name [n])
          end;
  first ← unwrap OutOfBounds (head (redo_logs_ entry));
  let entry := if first <? lsn then mkRedo (table_file_ entry) (redo_logs_ entry ++ [lsn]) else entry in
  change (fun r => set_dpt (<[page_id := entry]> (dirty_page_table r)) r).

Definition note_change (h : Log.LogHdr) (rid : Rid) (name : list Z) : V unit :=
  change (fun r => set_att (att_push (Log.log_tid_ h) (Log.lsn_ h) (active_transaction_table r)) r) ;;
  note_page (string_of_bytes name) rid (Log.lsn_ h).

(** The [switch] on the type of the record. *)
Definition note_record (r : Log.LogRecord) : V unit :=
  (match r with
   | Log.BeginLogRecord h =>
       t ← tables active_transaction_table;
       t ← lift (att_emplace (Log.log_tid_ h) (Log.lsn_ h) t);
       change (set_att t)
   | Log.AbortLogRecord h | Log.CommitLogRecord h => change (fun t => set_att (delete (Log.log_tid_ h) (active_transaction_table t)) t)
   | Log.InsertLogRecord h _ rid name | Log.DeleteLogRecord h _ rid name | Log.UpdateLogRecord h _ _ rid name => note_change h rid name
   end) ;;
  change (fun t => set_l2l (<[Log.lsn_ (Log.hdr r) := r]> (lsn2log t)) t).

(** The records of one buffer, from [offset]; returns how far it got.  The sum
    of the offset, an [int], and the length is a [uint32_t].  A type that is none
    of the six leaves the loop where it is. *)
Fixpoint read_buffer (fuel : nat) (buffer : list Z) (offset : Z) : V Z :=
  match fuel with
  | O => stuck Diverges
  | Datatypes.S fuel =>
      n ← unwrap OutOfBounds (from buffer offset Log.OFFSET_LOG_TOT_LEN 4);
      let log_tot_len := u32_val n in
      if (LOG_BUFFER_SIZE <=? wrap_u 32 (offset + log_tot_len)) || (log_tot_len =? 0) then mret offset else
      t ← unwrap OutOfBounds (from buffer offset Log.OFFSET_LOG_TYPE 4);
      match Log.type_of_code (i32_val t) with
      | None => stuck Diverges
      | Some ty =>
          r ← unwrap OutOfBounds (Log.deserialize ty (from buffer offset));
          note_record r ;;
          read_buffer fuel buffer (wrap_s 32 (offset + Log.log_tot_len_ (Log.hdr r)))
      end
  end.

(** [g] is the byte behind the [LOG_BUFFER_SIZE] bytes that are read; [inner]
    bounds the records of one buffer, [fuel] the buffers. *)
Fixpoint analyze_from (g : Z) (inner fuel : nat) (log_offset : Z) : V unit :=
  match fuel with
  | O => stuck Diverges
  | Datatypes.S fuel =>
      p ← on_engine (on_disk (Disk.read_log LOG_BUFFER_SIZE log_offset));
      let '(log_bytes, data) := p in
      (if log_bytes <? 0 then stuck OutOfBounds else mret tt) ;;
      let buffer := take (Z.to_nat LOG_BUFFER_SIZE) (data ++ replicate (Z.to_nat LOG_BUFFER_SIZE) 0) ++ [g] in
      used ← read_buffer inner buffer 0;
      if log_bytes <? LOG_BUFFER_SIZE then mret tt else analyze_from g inner fuel (wrap_s 32 (log_offset + used))
  end.
Definition analyze (g : Z) (inner fuel : nat) : V unit := analyze_from g inner fuel 0.

(** ** Replay *)

(** [lsn2log\[lsn\]] of an unknown number is a null pointer, which is no record
    of any kind.  The context is null. *)
Definition redo_one (name : string) (lsn : Z) : V unit :=
  l ← tables lsn2log;
  match l !! lsn with
  | Some (Log.InsertLogRecord h v _ n) =>
      rid ← on_engine (on_table name (Rm.insert_record (Log.rec_data v) None));
      change (fun t => set_l2l (<[lsn := Log.InsertLogRecord h v rid n]> (lsn2log t)) t)
  | Some (Log.DeleteLogRecord h v rid n) => on_engine (on_table name (Rm.delete_record rid None))
  | Some (Log.UpdateLogRecord h a b rid n) => on_engine (on_table name (Rm.update_record rid (Log.rec_data b) None))
  | _ => mret tt
  end.
(** [pages] is the dirty page table in the order of the traversal. *)
Definition redo (pages : list RedoLogsInPage) : V unit :=
  forM pages (fun p => forM (redo_logs_ p) (redo_one (table_file_ p))) ;;
  change (set_dpt ∅).

Definition undo_one (lsn : Z) : V unit :=
  l ← tables lsn2log;
  match l !! lsn with
  | Some (Log.InsertLogRecord h v rid n) => on_engine (on_table (string_of_bytes n) (Rm.delete_record rid None))
  | Some (Log.DeleteLogRecord h v rid n) => _ ← on_engine (on_table (string_of_bytes n) (Rm.insert_record (Log.rec_data v) None)); mret tt
  | Some (Log.UpdateLogRecord h a b rid n) => on_engine (on_table (string_of_bytes n) (Rm.update_record rid (Log.rec_data a) None))
  | _ => mret tt
  end.
(** The transactions in the order of their numbers. *)
Definition by_txn (a b : Z * list Z) : Prop := a.1 <= b.1.
#[local] Instance by_txn_dec : RelDecision by_txn.
Proof. intros a b. unfold by_txn. apply _. Defined.
Definition undo : V unit :=
  t ← tables active_transaction_table;
  forM (merge_sort by_txn (map_to_list t)) (fun e => forM e.2 undo_one) ;;
  change (set_att ∅) ;; change (set_l2l ∅).

End recovery.
End Recovery.
