(* ===== verification/SmManager.v ===== *)
(** * The catalogue manager ([src/src/system/sm_manager.{h,cpp}])

    DDL statements over the running system: the catalogue, the files of tables
    and indexes, and the open handles.  Directories are the shell's and the
    operating system's business: [create_db] and [drop_db] are not modelled, and
    [open_db] and [close_db] are what they do inside the database's directory. *)

From S2P Require Import Prelude Bytes Posix Disk Replacer BufferPool BufferPoolFacts BufferPoolSpec PagePool Txn Lock Log RmFile IxDefs IxNode IxIndex Values SmMeta Managers Engine.
Import Engine PoolInstance.

Record ColDef : Type := mkColDef { cd_name : string; cd_type : ColType; cd_len : Z }.

Section sm.
Context {R : Type} {RO : Replacer R} {FO : FileSystem}.
Abbreviation E := (M (Engine R)).

(** [std::ofstream] truncates the file. *)
Definition flush_meta : E unit := modify (fun s => set_meta (put_db (db_ s)) s).

(** ** Opening and closing *)

(** [emplace] of a handle: a name that is there keeps its handle. *)
Definition keep {A} (name : string) (x : A) (m : gmap string A) : gmap string A :=
  match m !! name with Some _ => m | None => <[name := x]> m end.

(** Tables of the file enter the catalogue in memory; a file that is no catalogue
    is outside the model. *)
Definition load_meta : E unit :=
  s ← gets id;
  p ← unwrap OutOfBounds (read_db (en_meta s));
  modify (set_db (mkDb (name_ p.1) (tabs_ p.1 ∪ tabs_ (db_ s)))).

Definition open_table (tab_name : string) : E unit :=
  p ← on_disk (rm_open_file tab_name);
  modify (fun s => set_fhs (keep tab_name (mkTF p.1 p.2) (fhs_ s)) s).

(** The file that is opened is named after all columns of the table, and the
    handle is entered under the name of the table. *)
Definition open_indexes (e : string * TabMeta) : E unit :=
  let '(tab_name, tab) := e in
  forM (tm_indexes tab) (fun _ =>
    p ← on_disk (ix_open_index tab_name (cm_name <$> tm_cols tab));
    modify (fun s => set_ihs (keep tab_name (mkXF p.1 p.2 false) (ihs_ s)) s)).

Definition open_db : E unit :=
  load_meta ;;
  tabs ← gets (fun s => map_entries (tabs_ (db_ s)));
  forM tabs (fun e => open_table e.1) ;;
  forM tabs open_indexes.

(** [order]: how the page table is traversed. *)
Definition close_db (order : list (PageId * Z)) : E unit :=
  flush_meta ;;
  on_pool (Bpm.flush_all_page order) ;;
  modify (set_fhs ∅) ;;
  modify (set_ihs ∅).

(** ** Tables *)

Fixpoint layout_cols (tab_name : string) (curr_offset : Z) (col_defs : list ColDef) : E (list ColMeta * Z) :=
  match col_defs with
  | [] => mret ([], curr_offset)
  | d :: col_defs =>
      next ← int_op (curr_offset + cd_len d);
      p ← layout_cols tab_name next col_defs;
      mret (mkCol tab_name (cd_name d) (cd_type d) (cd_len d) curr_offset false :: p.1, p.2)
  end.

(** [emplace] copies the new table, which has no indexes to lose. *)
Definition create_table (tab_name : string) (col_defs : list ColDef) : E unit :=
  db ← gets db_;
  if is_table tab_name db then throw (TableExistsError tab_name) else
  p ← layout_cols tab_name 0 col_defs;
  on_disk (rm_create_file tab_name p.2) ;;
  modify (fun s => set_db (SetTabMeta tab_name (copy_tab (mkTab tab_name p.1 [])) (db_ s)) s) ;;
  open_table tab_name ;;
  flush_meta.

(** ** Indexes *)

Definition put_tab_meta (tab_name : string) (t : TabMeta) : E unit := modify (fun s => set_db (SetTabMeta tab_name t (db_ s)) s).

(** For each name, every column of that name is marked and copied. *)
Definition mark_col (y : string) (x : ColMeta) : ColMeta :=
  if bool_decide (cm_name x = y) then mkCol (cm_tab_name x) (cm_name x) (cm_type x) (cm_len x) (cm_offset x) true else x.
Fixpoint pick_cols (col_names : list string) (cs : list ColMeta) : list ColMeta * list ColMeta :=
  match col_names with
  | [] => (cs, [])
  | y :: col_names =>
      let cs' := mark_col y <$> cs in
      let chosen := filter (fun x => cm_name x = y) cs' in
      let '(cs'', rest) := pick_cols col_names cs' in
      (cs'', chosen ++ rest)
  end.

(** Filling the new index from the table: a scan of the file; [n] bounds the
    records. *)
Fixpoint index_rows (fuel n : nat) (txn : Z) (tab_name : string) (name : string) (cs : list ColMeta) (key : list Z) (rid : Rid) : E unit :=
  if Rm.scan_is_end rid then mret tt else
  match n with
  | O => stuck Diverges
  | Datatypes.S n =>
      rec ← on_table tab_name (Rm.get_record rid (Some txn));
      key ← lift (fill_key key 0 rec cs);
      _ ← on_index txn name (Ix.insert_entry fuel key rid true);
      r ← on_table tab_name (Rm.scan_next rid);
      index_rows fuel n txn tab_name name cs key r
  end.

(** The key buffer is allocated with the [col_tot_len] that was just set to 0. *)
Definition create_index (fuel n : nat) (txn : Z) (tab_name : string) (col_names : list string) : E unit :=
  s ← gets id;
  if ix_exists tab_name col_names (Bpm.disk_manager_ (en_pool s)) then throw (IndexExistsError tab_name col_names) else
  match tabs_ (db_ s) !! tab_name with
  | None => throw (RMDBError "tab not find")
  | Some table =>
      let '(cs, chosen) := pick_cols col_names (tm_cols table) in
      put_tab_meta tab_name (mkTab (tm_name table) cs (tm_indexes table)) ;;
      let col_num := Z.of_nat (length col_names) in
      if negb (length chosen =? length col_names)%nat then throw (InvalidColLengthError (wrap_s 32 col_num)) else
      let new_index := mkIndex tab_name 0 col_num chosen in
      on_disk (ix_create_index tab_name chosen) ;;
      put_tab_meta tab_name (mkTab (tm_name table) cs (tm_indexes table ++ [new_index])) ;;
      let name := get_index_name tab_name col_names in
      p ← on_disk (ix_open_index tab_name col_names);
      modify (fun s => set_ihs (keep name (mkXF p.1 p.2 false) (ihs_ s)) s) ;;
      _ ← on_index txn name (mret tt);
      rid ← on_table tab_name Rm.scan_begin;
      index_rows fuel n txn tab_name name chosen [] rid
  end.

Definition remove_index (k : nat) (t : TabMeta) : TabMeta := mkTab (tm_name t) (tm_cols t) (delete k (tm_indexes t)).

Definition drop_index (order : list (PageId * Z)) (tab_name : string) (col_names : list string) : E unit :=
  s ← gets id;
  match tabs_ (db_ s) !! tab_name with
  | None => throw IndexEntryNotFoundError
  | Some table =>
      b ← lift (is_index col_names table);
      if negb b then throw (RMDBError "index not find!") else
      k ← lift (get_index_meta col_names table);
      put_tab_meta tab_name (remove_index k table) ;;
      let name := get_index_name tab_name col_names in
      match ihs_ s !! name with
      | None => throw OutOfRange
      | Some x =>
          on_pool (ix_close_index order (xf_fd x) (xf_hdr x)) ;;
          on_disk (ix_destroy_index tab_name col_names) ;;
          modify (fun s => set_ihs (delete name (ihs_ s)) s)
      end
  end.
(** The overload on column metadata. *)
Definition drop_index_cols (order : list (PageId * Z)) (tab_name : string) (cs : list ColMeta) : E unit := drop_index order tab_name (cm_name <$> cs).

(** The loop over the indexes erases the element it stands on; with another one
    behind it the next turn reads a destroyed element. *)
Definition drop_indexes (order : list (PageId * Z)) (table : TabMeta) : E unit :=
  match tm_indexes table with
  | [] => mret tt
  | index :: rest =>
      drop_index_cols order (tm_name table) (im_cols index) ;;
      match rest with [] => mret tt | _ => stuck UseAfterFree end
  end.

Definition drop_table (order1 order2 order3 : list (PageId * Z)) (tab_name : string) : E unit :=
  s ← gets id;
  match tabs_ (db_ s) !! tab_name with
  | None => throw (TableNotFoundError tab_name)
  | Some table =>
      drop_indexes order1 table ;;
      t ← gets (fun s => fhs_ s !! tab_name);
      t ← unwrap NullDeref t;
      on_pool (rm_close_all_page order2 (tf_fd t)) ;;
      on_pool (rm_close_file order3 (tf_fd t) (tf_hdr t)) ;;
      on_disk (rm_destroy_file tab_name) ;;
      modify (fun s => set_fhs (delete tab_name (fhs_ s)) s) ;;
      modify (fun s => set_db (mkDb (name_ (db_ s)) (delete tab_name (tabs_ (db_ s)))) s) ;;
      flush_meta
  end.

End sm.
