(* ===== verification/Ast.v ===== *)
(** * Statements, queries and plans ([parser/ast.h], [analyze/analyze.h], [optimizer/plan.h])

    The tree the parser builds, the query the analyzer makes of it, and the plan
    the planner makes of the query.  A class hierarchy becomes an inductive type
    with one constructor per class; a [float] literal is given by its bits, a
    string by its bytes, a name by a [string]. *)

From S2P Require Import Prelude Bytes Disk Txn Log IxDefs Values SmMeta SmManager.

Module Ast.

Inductive JoinType : Type := INNER_JOIN | LEFT_JOIN | RIGHT_JOIN | FULL_JOIN.
Inductive SvType : Type := SV_TYPE_INT | SV_TYPE_BIGINT | SV_TYPE_FLOAT | SV_TYPE_STRING | SV_TYPE_DATETIME.
Inductive SvCompOp : Type := SV_OP_EQ | SV_OP_NE | SV_OP_LT | SV_OP_GT | SV_OP_LE | SV_OP_GE.
Inductive OrderByDir : Type := OrderBy_DEFAULT | OrderBy_ASC | OrderBy_DESC.
Inductive AggregateType : Type := SV_NONE | SV_COUNT | SV_MAX | SV_MIN | SV_SUM.
#[global] Instance OrderByDir_eq_dec : EqDecision OrderByDir.
Proof. solve_decision. Defined.

Record TypeLen : Type := mkTypeLen { tl_type : SvType; tl_len : Z }.
(** A field of [create table]: a column, or the base class itself. *)
Inductive Field : Type := PlainField | ColDefField (col_name : string) (type_len : TypeLen).

(** The subclasses of [ast::Value]. *)
Inductive Lit : Type :=
| IntLit (val : Z)
| BigintLit (val : Z)
| FloatLit (bits : Z)
| StringLit (val : list Z)
| DatetimeLit (val : list Z).

Record Col : Type := mkAstCol { c_tab_name : string; c_col_name : string }.
Inductive Expr : Type := ValueExpr (v : Lit) | ColExpr (c : Col).
Record SetClause : Type := mkAstSet { s_col_name : string; s_val : Lit; s_is_selfadd : bool }.
Record BinaryExpr : Type := mkBinary { be_lhs : Col; be_op : SvCompOp; be_rhs : Expr }.
Record OrderBy : Type := mkOrderBy { ob_col : Col; orderby_dir : OrderByDir }.
Record JoinExpr : Type := mkJoinExpr { je_left : string; je_right : string; je_conds : list BinaryExpr; je_type : JoinType }.

Record SelectStmt : Type := mkSelect {
  ss_cols : list Col;
  ss_tabs : list string;
  ss_conds : list BinaryExpr;
  ss_jointree : list JoinExpr;
  has_sort : bool;
  orders : list OrderBy;
  ss_limit : Z;
  aggregate_type : AggregateType;
  ss_alias : string
}.
(** Its two constructors. *)
Definition aggregate_select (cols : list Col) (tabs : list string) (conds : list BinaryExpr) (t : AggregateType) (alias : string) : SelectStmt :=
  mkSelect cols tabs conds [] false [] (-1) t alias.
Definition order_select (cols : list Col) (tabs : list string) (conds : list BinaryExpr) (orders : list OrderBy) (limit : Z) : SelectStmt :=
  mkSelect cols tabs conds [] (match orders with [] => false | _ => true end) orders limit SV_NONE "".
(** [std::move(x->tabs)]. *)
Definition move_tabs (x : SelectStmt) : SelectStmt :=
  mkSelect (ss_cols x) [] (ss_conds x) (ss_jointree x) (has_sort x) (orders x) (ss_limit x) (aggregate_type x) (ss_alias x).

Inductive TreeNode : Type :=
| Help
| ShowTables
| TxnBegin
| TxnCommit
| TxnAbort
| TxnRollback
| CreateTable (tab_name : string) (fields : list Field)
| DropTable (tab_name : string)
| DescTable (tab_name : string)
| ShowIndex (tab_name : string)
| CreateIndex (tab_name : string) (col_names : list string)
| DropIndex (tab_name : string) (col_names : list string)
| LoadStmt (path tab_name : string)
| InsertStmt (tab_name : string) (vals : list Lit)
| DeleteStmt (tab_name : string) (conds : list BinaryExpr)
| UpdateStmt (tab_name : string) (set_clauses : list SetClause) (conds : list BinaryExpr)
| Select (s : SelectStmt).

End Ast.

(** ** The analyzed query *)

Record Query : Type := mkQuery {
  parse : Ast.TreeNode;
  q_conds : list Condition;
  q_cols : list TabCol;
  q_tables : list string;
  q_set_clauses : list SetClause;
  q_values : list Value;
  q_is_all : bool
}.
Definition q_set_conds (x : list Condition) (q : Query) : Query := mkQuery (parse q) x (q_cols q) (q_tables q) (q_set_clauses q) (q_values q) (q_is_all q).

(** ** Plans *)

Inductive PlanTag : Type :=
| T_Invalid | T_Help | T_ShowTable | T_ShowIndex | T_DescTable | T_CreateTable | T_DropTable | T_CreateIndex | T_DropIndex
| T_Insert | T_Load | T_Update | T_Delete | T_select | T_select_count | T_select_max | T_select_min | T_select_sum
| T_Transaction_begin | T_Transaction_commit | T_Transaction_abort | T_Transaction_rollback
| T_SeqScan | T_IndexScan | T_NestLoop | T_Sort | T_Projection.
#[export] Instance PlanTag_eq_dec : EqDecision PlanTag.
Proof. solve_decision. Defined.

(** [NullPlan] is the null pointer.  The fields of a scan that only repeat the
    catalogue are computed by [make_scan_plan]. *)
Inductive Plan : Type :=
| NullPlan
| ScanPlan (tag : PlanTag) (tab_name_ : string) (cols_ : list ColMeta) (conds_ : list Condition) (len_ : Z) (fed_conds_ : list Condition) (index_col_names_ : list string)
| JoinPlan (tag : PlanTag) (left_ right_ : Plan) (conds_ : list Condition) (type : Ast.JoinType)
| ProjectionPlan (tag : PlanTag) (subplan_ : Plan) (sel_cols_ : list TabCol)
| SortPlan (tag : PlanTag) (subplan_ : Plan) (sel_col_ : list (TabCol * bool)) (limit_ : Z)
| LoadPlan (tab_name_ path_ : string)
| DMLPlan (tag : PlanTag) (subplan_ : Plan) (tab_name_ : string) (values_ : list Value) (conds_ : list Condition) (set_clauses_ : list SetClause) (alias_ : string) (is_all_ : bool)
| DDLPlan (tag : PlanTag) (tab_name_ : string) (tab_col_names_ : list string) (cols_ : list ColDef)
| OtherPlan (tag : PlanTag) (tab_name_ : string).

(** The constructors that compute something. *)
Definition make_scan_plan (tag : PlanTag) (db : DbMeta) (tab_name : string) (conds : list Condition) (index_col_names : list string) : outcome Plan :=
  tab ← get_table tab_name db;
  lastc ← or_stuck OutOfBounds (last (tm_cols tab));
  let len := cm_offset lastc + cm_len lastc in
  _ ← ensure SignedOverflow (in_i32 len);
  Ret (ScanPlan tag tab_name (tm_cols tab) conds (wrap_u 64 len) conds index_col_names).
Definition make_join_plan (left right : Plan) (conds : list Condition) : Plan := JoinPlan T_NestLoop left right conds Ast.INNER_JOIN.
