(* ===== verification/Analyze.v ===== *)
(** * The analyzer ([src/src/analyze/analyze.cpp])

    Names of a statement are resolved against the catalogue and its literals are
    converted; the catalogue is only read.  [g8] is what the union of a fresh
    [Value] holds, [g] what a fresh byte of memory does. *)

From S2P Require Import Prelude Bytes Disk Txn Log IxDefs Values SmMeta SmManager Ast.

Section analyze.
Context (g : Z) (g8 : list Z).

(** A fresh [Value]: its type is unspecified until it is set. *)
Definition fresh_value : Value := blank g8 TYPE_INT.

Definition convert_sv_value (sv_val : Ast.Lit) : Value :=
  match sv_val with
  | Ast.IntLit z => set_int z fresh_value
  | Ast.BigintLit z => set_bigint z fresh_value
  | Ast.FloatLit b => set_float b fresh_value
  | Ast.StringLit s => set_str s fresh_value
  | Ast.DatetimeLit s => set_datetime s fresh_value
  end.

Definition convert_sv_comp_op (op : Ast.SvCompOp) : CompOp :=
  match op with
  | Ast.SV_OP_EQ => OP_EQ | Ast.SV_OP_NE => OP_NE | Ast.SV_OP_LT => OP_LT
  | Ast.SV_OP_GT => OP_GT | Ast.SV_OP_LE => OP_LE | Ast.SV_OP_GE => OP_GE
  end.

(** ** Columns *)

(** The loop that infers the table of a column; [tab_name] is empty until the
    first match. *)
Fixpoint infer_table (all_cols : list ColMeta) (col_name tab_name : string) : outcome string :=
  match all_cols with
  | [] => Ret tab_name
  | c :: all_cols =>
      if bool_decide (cm_name c = col_name) then
        if bool_decide (tab_name <> "") then Throw (AmbiguousColumnError col_name) else infer_table all_cols col_name (cm_tab_name c)
      else infer_table all_cols col_name tab_name
  end.
Definition infer_column (all_cols : list ColMeta) (col_name : string) : outcome TabCol :=
  tab_name ← infer_table all_cols col_name "";
  if bool_decide (tab_name = "") then Throw (ColumnNotFoundError col_name) else Ret (mkTabCol tab_name col_name).
Definition names_col (target : TabCol) (c : ColMeta) : bool :=
  bool_decide (cm_tab_name c = tc_tab_name target) && bool_decide (cm_name c = tc_col_name target).

Definition check_column (all_cols : list ColMeta) (target : TabCol) : outcome TabCol :=
  if bool_decide (tc_tab_name target = "") then infer_column all_cols (tc_col_name target)
  else if existsb (names_col target) all_cols then Ret target else Throw (ColumnNotFoundError (tc_col_name target)).

Fixpoint get_all_cols (db : DbMeta) (tab_names : list string) : outcome (list ColMeta) :=
  match tab_names with
  | [] => Ret []
  | t :: tab_names =>
      tab ← get_table t db;
      rest ← get_all_cols db tab_names;
      Ret (tm_cols tab ++ rest)
  end.

(** ** Conditions *)

Definition tab_col (c : Ast.Col) : TabCol := mkTabCol (Ast.c_tab_name c) (Ast.c_col_name c).
Definition convert_cond (e : Ast.BinaryExpr) : Condition :=
  let l := tab_col (Ast.be_lhs e) in
  let op := convert_sv_comp_op (Ast.be_op e) in
  match Ast.be_rhs e with
  | Ast.ValueExpr v => mkCond l op true (mkTabCol "" "") (convert_sv_value v)
  | Ast.ColExpr c => mkCond l op false (tab_col c) fresh_value
  end.
Definition get_clause (sv_conds : list Ast.BinaryExpr) : list Condition := convert_cond <$> sv_conds.

Fixpoint over {A B} (f : A -> outcome B) (l : list A) : outcome (list B) :=
  match l with [] => Ret [] | x :: l => y ← f x; ys ← over f l; Ret (y :: ys) end.

Definition check_cond (db : DbMeta) (all_cols : list ColMeta) (cond : Condition) : outcome Condition :=
  l ← check_column all_cols (lhs_col cond);
  r ← (if is_rhs_val cond then Ret (rhs_col cond) else check_column all_cols (rhs_col cond));
  lhs_tab ← get_table (tc_tab_name l) db;
  lc ← get_col (tc_col_name l) lhs_tab;
  '(v, rhs_type) ←
    (if is_rhs_val cond then v ← init_raw g (cm_len lc) (rhs_val cond); Ret (v, v_type v)
     else rhs_tab ← get_table (tc_tab_name r) db; rc ← get_col (tc_col_name r) rhs_tab; Ret (rhs_val cond, cm_type rc));
  if negb (is_compatible_type (cm_type lc) rhs_type) then incompatible (cm_type lc) rhs_type
  else Ret (mkCond l (c_op cond) (is_rhs_val cond) r v).
Definition check_clause (db : DbMeta) (tab_names : list string) (conds : list Condition) : outcome (list Condition) :=
  all_cols ← get_all_cols db tab_names;
  over (check_cond db all_cols) conds.

(** ** Statements *)

Fixpoint check_tables (db : DbMeta) (tables : list string) : outcome unit :=
  match tables with
  | [] => Ret tt
  | t :: tables => if is_table t db then check_tables db tables else Throw (TableNotFoundError t)
  end.

(** No column named: all of them. *)
Definition analyze_select (db : DbMeta) (x : Ast.SelectStmt) : outcome Query :=
  let tables := Ast.ss_tabs x in
  _ ← check_tables db tables;
  all_cols ← get_all_cols db tables;
  cols ← (match Ast.ss_cols x with
          | [] => Ret ((fun c => mkTabCol (cm_tab_name c) (cm_name c)) <$> all_cols)
          | _ => over (fun c => check_column all_cols (tab_col c)) (Ast.ss_cols x)
          end);
  conds ← check_clause db tables (get_clause (Ast.ss_conds x));
  Ret (mkQuery (Ast.Select (Ast.move_tabs x)) conds cols tables [] [] (match Ast.ss_cols x with [] => true | _ => false end)).

Definition check_set (table : TabMeta) (tab_name : string) (s : Ast.SetClause) : outcome SetClause :=
  if negb (is_col (Ast.s_col_name s) table) then Throw (ColumnNotFoundError (Ast.s_col_name s)) else
  let val := convert_sv_value (Ast.s_val s) in
  c ← get_col (Ast.s_col_name s) table;
  if negb (is_compatible_type (cm_type c) (v_type val)) then incompatible (cm_type c) (v_type val) else
  val ← init_raw g (cm_len c) val;
  Ret (mkSet (mkTabCol tab_name (Ast.s_col_name s)) val (Ast.s_is_selfadd s)).
Definition analyze_update (db : DbMeta) (tab_name : string) (set_clauses : list Ast.SetClause) (conds : list Ast.BinaryExpr) : outcome Query :=
  if negb (is_table tab_name db) then Throw (TableNotFoundError tab_name) else
  table ← get_table tab_name db;
  sets ← over (check_set (copy_tab table) tab_name) set_clauses;
  cs ← check_clause db [tab_name] (get_clause conds);
  Ret (mkQuery (Ast.UpdateStmt tab_name set_clauses conds) cs [] [tab_name] sets [] false).

Definition do_analyze (db : DbMeta) (x : Ast.TreeNode) : outcome Query :=
  match x with
  | Ast.Select s => analyze_select db s
  | Ast.UpdateStmt tab_name set_clauses conds => analyze_update db tab_name set_clauses conds
  | Ast.DeleteStmt tab_name conds =>
      cs ← check_clause db [tab_name] (get_clause conds);
      Ret (mkQuery x cs [] [] [] [] false)
  | Ast.InsertStmt tab_name vals => Ret (mkQuery x [] [] [] [] (convert_sv_value <$> vals) false)
  | Ast.LoadStmt path tab_name =>
      if negb (is_table tab_name db) then Throw (TableNotFoundError tab_name) else Ret (mkQuery x [] [] [] [] [] false)
  | _ => Ret (mkQuery x [] [] [] [] [] false)
  end.

End analyze.
