(* ===== verification/AnalyzeSpec.v ===== *)
(** * What the analyzer accepts

    A declarative reading of a select statement: which table a column name
    denotes, which conditions are well typed.  [do_analyze] returns a query
    exactly when the statement has one, and it is that query. *)

From S2P Require Import Prelude Bytes Disk Txn Log IxDefs Values ValuesSpec SmMeta SmManager Ast Analyze.

Module AnalyzeSpec.

(** Every table has a name, which its columns carry. *)
Definition db_ok (db : DbMeta) : Prop := map_Forall (fun n t => n <> ""%string /\ Forall (fun c => cm_tab_name c = n) (tm_cols t)) (tabs_ db).

(** The columns of the tables of a statement. *)
Definition columns_of (db : DbMeta) (tables : list string) : option (list ColMeta) :=
  (fun l => concat l) <$> mapM (fun t => tm_cols <$> tabs_ db !! t) tables.

Definition named (n : string) (c : ColMeta) : bool := bool_decide (cm_name c = n).

(** A qualified name denotes itself when the table has the column, a bare name
    the only column of that name. *)
Definition denotes (all : list ColMeta) (t r : TabCol) : Prop :=
  if bool_decide (tc_tab_name t = "") then exists c, List.filter (named (tc_col_name t)) all = [c] /\ r = mkTabCol (cm_tab_name c) (tc_col_name t)
  else r = t /\ exists c, c ∈ all /\ cm_tab_name c = tc_tab_name t /\ cm_name c = tc_col_name t.

(** The first column of that name in the table [r] names. *)
Definition column (db : DbMeta) (r : TabCol) : option ColMeta :=
  t ← tabs_ db !! tc_tab_name r; List.find (named (tc_col_name r)) (tm_cols t).

(** A literal can be stored in a column of [len] bytes: by the kind of the
    literal, not of the column, so that an integer literal needs four bytes or
    at least eight, a big one eight, a float four, and a text no more than its
    length. *)
Definition lit_fits (len : Z) (l : Ast.Lit) : Prop :=
  match l with
  | Ast.IntLit _ => len = 4 \/ 8 <= len
  | Ast.BigintLit _ => len = 8
  | Ast.FloatLit _ => len = 4
  | Ast.StringLit s | Ast.DatetimeLit s => Z.of_nat (length s) <= len
  end.
(** Its bytes there; [g] is what the rest of a fresh buffer holds. *)
Definition lit_bytes (g len : Z) (l : Ast.Lit) : list Z :=
  match l with
  | Ast.IntLit z => let n := i32_val (i32_bytes z) in if len =? 4 then i32_bytes n else i64_bytes n ++ replicate (Z.to_nat (len - 8)) g
  | Ast.BigintLit z => i64_bytes (i64_val (i64_bytes z))
  | Ast.FloatLit b => u32_bytes b
  | Ast.StringLit s | Ast.DatetimeLit s => s ++ replicate (Z.to_nat len - length s) 0
  end.

Definition cond_denotes (g : Z) (g8 : list Z) (db : DbMeta) (all : list ColMeta) (e : Ast.BinaryExpr) (c : Condition) : Prop :=
  denotes all (tab_col (Ast.be_lhs e)) (lhs_col c) /\ c_op c = convert_sv_comp_op (Ast.be_op e) /\
  exists lc, column db (lhs_col c) = Some lc /\
    match Ast.be_rhs e with
    | Ast.ValueExpr v =>
        is_rhs_val c = true /\ rhs_col c = mkTabCol "" "" /\ lit_fits (cm_len lc) v /\
        rhs_val c = set_raw (Some (lit_bytes g (cm_len lc) v)) (convert_sv_value g8 v) /\
        is_compatible_type (cm_type lc) (v_type (convert_sv_value g8 v)) = true
    | Ast.ColExpr r =>
        is_rhs_val c = false /\ denotes all (tab_col r) (rhs_col c) /\ rhs_val c = fresh_value g8 /\
        exists rc, column db (rhs_col c) = Some rc /\ is_compatible_type (cm_type lc) (cm_type rc) = true
    end.

Definition select_denotes (g : Z) (g8 : list Z) (db : DbMeta) (x : Ast.SelectStmt) (q : Query) : Prop :=
  exists all, columns_of db (Ast.ss_tabs x) = Some all /\
    (Ast.ss_cols x = [] -> q_cols q = (fun c => mkTabCol (cm_tab_name c) (cm_name c)) <$> all) /\
    (Ast.ss_cols x <> [] -> Forall2 (denotes all) (tab_col <$> Ast.ss_cols x) (q_cols q)) /\
    Forall2 (cond_denotes g g8 db all) (Ast.ss_conds x) (q_conds q) /\
    q = mkQuery (Ast.Select (Ast.move_tabs x)) (q_conds q) (q_cols q) (Ast.ss_tabs x) [] [] (bool_decide (Ast.ss_cols x = [])).

(** ** Names *)

(** The inference loop, with the name found so far. *)
Lemma infer_table_run (all : list ColMeta) (n t : string) : Forall (fun c => cm_tab_name c <> ""%string) all ->
  infer_table all n t =
    match List.filter (named n) all with
    | [] => Ret t
    | c :: rest => if bool_decide (t <> ""%string) then Throw (AmbiguousColumnError n) else
                   match rest with [] => Ret (cm_tab_name c) | _ => Throw (AmbiguousColumnError n) end
    end.
Proof.
  intros H. revert t. induction H as [|c all Hc H IH]; intros t; [done|]. cbn [infer_table List.filter]. unfold named at 1.
  destruct (bool_decide (cm_name c = n)); [|apply IH]. destruct (bool_decide (t <> ""%string)) eqn:Et; [done|].
  rewrite IH. destruct (List.filter (named n) all) as [|d rest]; [done|]. by rewrite bool_decide_eq_true_2.
Qed.

Lemma check_column_exact (all : list ColMeta) (t r : TabCol) : Forall (fun c => cm_tab_name c <> ""%string) all ->
  check_column all t = Ret r <-> denotes all t r.
Proof.
  intros H. unfold check_column, denotes. destruct (bool_decide (tc_tab_name t = "")) eqn:E.
  - unfold infer_column. rewrite infer_table_run by done. destruct (List.filter _ all) as [|c [|d l]] eqn:Ef; cbn -[bool_decide].
    + split; [by rewrite bool_decide_eq_true_2|]. by intros (c & ? & _).
    + assert (cm_tab_name c <> ""%string) as Hc. { rewrite Forall_forall in H. apply H. apply list_elem_of_In. apply (List.filter_In (named (tc_col_name t))). rewrite Ef. by left. }
      rewrite bool_decide_eq_false_2 by (by intros ?). cbn -[bool_decide]. rewrite bool_decide_eq_false_2 by done. split; [intros [= <-]; eauto|]. by intros (c' & [= <-] & ->).
    + rewrite bool_decide_eq_false_2 by (by intros ?). split; [discriminate|]. by intros (c' & ? & _).
  - destruct (existsb (names_col t) all) eqn:Ex.
    + split; [intros [= <-]; split; [done|]|by intros [-> _]]. apply existsb_exists in Ex as (c & Hin & Hc). unfold names_col in Hc.
      apply andb_prop in Hc as [H1%bool_decide_eq_true H2%bool_decide_eq_true]. exists c. by rewrite list_elem_of_In.
    + split; [discriminate|]. intros (_ & c & Hin & H1 & H2). apply not_true_iff_false in Ex. destruct Ex. apply existsb_exists. exists c.
      rewrite <- list_elem_of_In. split; [done|]. unfold names_col. by rewrite !bool_decide_eq_true_2.
Qed.

Lemma get_all_cols_run (db : DbMeta) (tabs : list string) (all : list ColMeta) : get_all_cols db tabs = Ret all <-> columns_of db tabs = Some all.
Proof.
  revert all. unfold columns_of. induction tabs as [|t tabs IH]; intros all; cbn [get_all_cols]; [by split; intros [= <-]|].
  unfold get_table. rewrite obind_Ret. simpl. destruct (tabs_ db !! t) as [tab|]; simpl; [|split; [by intros (a & ? & _)|done]].
  split.
  - intros (a & [= <-] & (rest & Hr & [= <-])%obind_Ret). apply IH in Hr. destruct (mapM _ tabs) as [cs|]; simplify_eq/=. done.
  - intros H. exists tab. split; [done|]. destruct (mapM _ tabs) as [cs|]; simplify_eq/=. rewrite obind_Ret. eexists. by rewrite IH.
Qed.

Lemma columns_named (db : DbMeta) (tabs : list string) (all : list ColMeta) : db_ok db -> columns_of db tabs = Some all ->
  Forall (fun c => cm_tab_name c <> ""%string) all.
Proof.
  intros Hdb. unfold columns_of. revert all. induction tabs as [|t tabs IH]; intros all; simpl; [by intros [= <-]|].
  destruct (tabs_ db !! t) as [tab|] eqn:E; simpl; [|done]. destruct (mapM _ tabs) as [cs|]; simpl; [|done]. intros [= <-]. cbn [concat]. apply Forall_app. split; [|by apply IH].
  destruct (Hdb _ _ E) as [Hn Hc]. eapply Forall_impl; [exact Hc|]. simpl. by intros ? ->.
Qed.

Lemma check_tables_run (db : DbMeta) (tabs : list string) (all : list ColMeta) : columns_of db tabs = Some all -> check_tables db tabs = Ret tt.
Proof.
  unfold columns_of. revert all. induction tabs as [|t tabs IH]; intros all; simpl; [done|]. unfold is_table.
  destruct (tabs_ db !! t); simpl; [|done]. destruct (mapM _ tabs); simpl; [|done]. intros _. by eapply IH.
Qed.

Lemma over_run {A B} (f : A -> outcome B) (P : A -> B -> Prop) : (forall a b, f a = Ret b <-> P a b) -> forall l l', over f l = Ret l' <-> Forall2 P l l'.
Proof.
  intros H. induction l as [|a l IH]; intros l'; cbn [over].
  - split; [intros [= <-]; constructor|]. by intros ->%Forall2_nil_inv_l.
  - rewrite obind_Ret. split.
    + intros (b & Hb & (bs & Hbs & [= <-])%obind_Ret). constructor; [by apply H|by apply IH].
    + intros (b & bs & Hb & Hbs & ->)%Forall2_cons_inv_l. exists b. split; [by apply H|]. rewrite obind_Ret. exists bs. by rewrite IH.
Qed.

Lemma column_run (db : DbMeta) (r : TabCol) (c : ColMeta) : (t ← get_table (tc_tab_name r) db; get_col (tc_col_name r) t) = Ret c <-> column db r = Some c.
Proof.
  rewrite obind_Ret. unfold get_table, column, get_col. destruct (tabs_ db !! tc_tab_name r) as [t|]; simpl.
  - unfold named. split; [intros (a & [= <-] & H); destruct (List.find _ _); by simplify_eq|]. intros H. exists t. by rewrite H.
  - by split; [intros (a & ? & _)|].
Qed.

(** ** Conditions *)

Lemma buf_write_exact (x l r : list Z) : write 0 x l = Ret r <-> (length x <= length l)%nat /\ r = x ++ drop (length x) l.
Proof.
  split.
  - intros H. assert (length x <= length l)%nat as Hl.
    { unfold write, mem_write in H. destruct (Z.leb_spec (0 + Z.of_nat (length x)) (Z.of_nat (length l))); [lia|discriminate H]. }
    split; [done|]. rewrite (ValuesSpec.buf_write_run x l Hl) in H. by injection H.
  - intros [Hl ->]. by apply ValuesSpec.buf_write_run.
Qed.
Lemma put_string_exact (g len : Z) (v : Value) (x r : list Z) : (Z.of_nat (length (str_val v)) <= Z.of_nat (length x)) ->
  put_string len v x (replicate (Z.to_nat len) g) = Ret r <-> Z.of_nat (length x) <= len /\ r = x ++ replicate (Z.to_nat len - length x) 0.
Proof.
  intros Hs. unfold put_string. destruct (Z.ltb_spec len (Z.of_nat (length (str_val v)))) as [H|H]; [split; [done|intros [? _]; exfalso; lia]|].
  rewrite obind_Ret. split.
  - intros (b & Hb & Hr). apply buf_write_exact in Hb as [_ ->], Hr as [Hl ->]. rewrite !length_app, !length_drop, !length_replicate in *.
    rewrite (drop_ge (replicate (Z.to_nat len) g)), app_nil_r, drop_replicate by (rewrite length_replicate; lia). split; [lia|done].
  - intros [Hl ->]. exists (replicate (Z.to_nat len) 0). rewrite !buf_write_exact, !length_replicate, !drop_replicate, Nat.sub_diag.
    simpl. rewrite app_nil_r. split_and!; [lia|done|lia|done].
Qed.

(** When a literal can be stored, and what becomes of it. *)
Lemma init_raw_exact (g : Z) (g8 : list Z) (len : Z) (l : Ast.Lit) (w : Value) :
  init_raw g len (convert_sv_value g8 l) = Ret w <-> lit_fits len l /\ w = set_raw (Some (lit_bytes g len l)) (convert_sv_value g8 l).
Proof.
  unfold init_raw. rewrite obind_Ret. cbn [raw convert_sv_value].
  assert (raw (convert_sv_value g8 l) = None) as -> by (by destruct l). cbn [default].
  assert ((exists b, (match v_type (convert_sv_value g8 l) with
      | TYPE_INT => _ ← ensure AssertFailed (4 <=? len);
          if len =? 4 then write 0 (i32_bytes (int_val (convert_sv_value g8 l))) (replicate (Z.to_nat len) g) else write 0 (i64_bytes (int_val (convert_sv_value g8 l))) (replicate (Z.to_nat len) g)
      | TYPE_BIGINT => _ ← ensure AssertFailed (len =? 8); write 0 (i64_bytes (bigint_val (convert_sv_value g8 l))) (replicate (Z.to_nat len) g)
      | TYPE_FLOAT => _ ← ensure AssertFailed (len =? 4); write 0 (slice 0 4 (v_num (convert_sv_value g8 l))) (replicate (Z.to_nat len) g)
      | TYPE_STRING => put_string len (convert_sv_value g8 l) (str_val (convert_sv_value g8 l)) (replicate (Z.to_nat len) g)
      | TYPE_DATETIME => put_string len (convert_sv_value g8 l) (datetime_val (convert_sv_value g8 l)) (replicate (Z.to_nat len) g)
      end) = Ret b /\ Ret (set_raw (Some b) (convert_sv_value g8 l)) = Ret w) <->
    lit_fits len l /\ w = set_raw (Some (lit_bytes g len l)) (convert_sv_value g8 l)) as H; [|exact H].
  assert (forall b : list Z, Ret (set_raw (Some b) (convert_sv_value g8 l)) = Ret w <-> w = set_raw (Some b) (convert_sv_value g8 l)) as Hw by (intros b; split; congruence).
  setoid_rewrite Hw. destruct l as [z|z|z|s|s]; cbn [convert_sv_value set_int set_bigint set_float set_str set_datetime set_num v_type str_val datetime_val lit_fits lit_bytes v_num].
  - change (int_val (set_int z (fresh_value g8))) with (i32_val (slice 0 4 (splice 0 (i32_bytes z) g8))). rewrite ValuesSpec.num_after by done. set (n := i32_val (i32_bytes z)).
    destruct (Z.leb_spec 4 len) as [H4|H4]; cbn [ensure mbind outcome_bind]; [|split; [by intros (b & ? & _)|intros [? _]; exfalso; lia]].
    destruct (Z.eqb_spec len 4) as [->|Hne]; setoid_rewrite buf_write_exact; rewrite ?length_i32_bytes, ?length_i64_bytes, length_replicate, drop_replicate.
    + split; [intros (b & [_ ->] & ->)|intros [_ ->]; eexists; split; [split; [lia|done]|]]; rewrite ?app_nil_r; try done. split; [by left|done].
    + replace (Z.to_nat len - 8)%nat with (Z.to_nat (len - 8)) by lia.
      split; [intros (b & [Hl ->] & ->); split; [lia|done]|]. intros [Hl ->]. eexists. split; [split; [lia|done]|done].
  - change (bigint_val (set_bigint z (fresh_value g8))) with (i64_val (slice 0 8 (splice 0 (i64_bytes z) g8))). rewrite ValuesSpec.num_after by done.
    destruct (Z.eqb_spec len 8) as [->|Hne]; cbn [ensure mbind outcome_bind]; [|split; [by intros (b & ? & _)|intros [? _]; exfalso; lia]].
    setoid_rewrite buf_write_exact. rewrite length_i64_bytes, length_replicate, drop_replicate. cbn [Z.to_nat]. change (replicate _ g) with (@nil Z). rewrite app_nil_r.
    split; [intros (b & [_ ->] & ->); done|]. intros [_ ->]. eexists. split; [split; [lia|done]|done].
  - rewrite ValuesSpec.num_after by done. destruct (Z.eqb_spec len 4) as [->|Hne]; cbn [ensure mbind outcome_bind]; [|split; [by intros (b & ? & _)|intros [? _]; exfalso; lia]].
    setoid_rewrite buf_write_exact. rewrite length_u32_bytes, length_replicate, drop_replicate. change (replicate _ g) with (@nil Z). rewrite app_nil_r.
    split; [intros (b & [_ ->] & ->); done|]. intros [_ ->]. eexists. split; [split; [lia|done]|done].
  - setoid_rewrite put_string_exact; [|done]. split; [intros (b & [Hl ->] & ->); done|]. intros [Hl ->]. eexists. split; [split; [lia|done]|done].
  - setoid_rewrite put_string_exact; [|simpl; lia]. split; [intros (b & [Hl ->] & ->); done|]. intros [Hl ->]. eexists. split; [split; [lia|done]|done].
Qed.

Lemma check_cond_exact (g : Z) (g8 : list Z) (db : DbMeta) (all : list ColMeta) (e : Ast.BinaryExpr) (c : Condition) :
  Forall (fun c => cm_tab_name c <> ""%string) all ->
  check_cond g db all (convert_cond g8 e) = Ret c <-> cond_denotes g g8 db all e c.
Proof.
  intros H. unfold check_cond, cond_denotes, convert_cond. destruct (Ast.be_rhs e) as [v|r]; cbn [lhs_col rhs_col is_rhs_val rhs_val c_op].
  - split.
    + intros (l & Hl & (r & [= <-] & (lt & Ht & (lc & Hc & (p & (w & Hw & [= <-])%obind_Ret & Hp)%obind_Ret)%obind_Ret)%obind_Ret)%obind_Ret)%obind_Ret.
      cbv beta iota in Hp. apply init_raw_exact in Hw as [Hfit ->]. cbn [set_raw v_type] in Hp. destruct (is_compatible_type _ _) eqn:Hcomp; [|discriminate Hp]. injection Hp as <-. cbn [lhs_col c_op is_rhs_val rhs_col rhs_val].
      split; [by apply check_column_exact|]. split; [done|]. exists lc. split_and!; [|done..]. apply column_run, obind_Ret. eauto.
    + intros (Hl & Hop & lc & Hlc & Hv & Hr & Hfit & Ew & Hcomp). pose proof (proj2 (init_raw_exact g g8 (cm_len lc) v _) (conj Hfit eq_refl)) as Hw. apply column_run, obind_Ret in Hlc as (lt & Ht & Hc).
      rewrite (proj2 (check_column_exact _ _ _ H) Hl). cbn [mbind outcome_bind]. rewrite Ht. cbn [mbind outcome_bind]. rewrite Hc. cbn [mbind outcome_bind]. rewrite Hw. cbn [mbind outcome_bind set_raw v_type].
      rewrite Hcomp. cbn [negb]. destruct c. simpl in *. by subst.
  - split.
    + intros (l & Hl & (r' & Hr & (lt & Ht & (lc & Hc & (p & (rt & Hrt & (rc & Hrc & [= <-])%obind_Ret)%obind_Ret & Hp)%obind_Ret)%obind_Ret)%obind_Ret)%obind_Ret)%obind_Ret.
      cbv beta iota in Hp. destruct (is_compatible_type _ _) eqn:Hcomp; [|discriminate Hp]. injection Hp as <-. cbn [lhs_col c_op is_rhs_val rhs_col rhs_val].
      split; [by apply check_column_exact|]. split; [done|]. exists lc. split_and!; [apply column_run, obind_Ret; eauto|done|by apply check_column_exact|done|].
      exists rc. split; [apply column_run, obind_Ret; eauto|done].
    + intros (Hl & Hop & lc & Hlc & Hv & Hr & Hw & rc & Hrc & Hcomp). apply column_run, obind_Ret in Hlc as (lt & Ht & Hc). apply column_run, obind_Ret in Hrc as (rt & Hrt & Hrc).
      rewrite (proj2 (check_column_exact _ _ _ H) Hl). cbn [mbind outcome_bind]. rewrite (proj2 (check_column_exact _ _ _ H) Hr). cbn [mbind outcome_bind].
      rewrite Ht. cbn [mbind outcome_bind]. rewrite Hc. cbn [mbind outcome_bind]. rewrite Hrt. cbn [mbind outcome_bind]. rewrite Hrc. cbn [mbind outcome_bind].
      rewrite Hcomp. cbn [negb]. destruct c. simpl in *. by subst.
Qed.

Lemma check_clause_exact (g : Z) (g8 : list Z) (db : DbMeta) (tabs : list string) (all : list ColMeta) (es : list Ast.BinaryExpr) (cs : list Condition) :
  db_ok db -> columns_of db tabs = Some all ->
  check_clause g db tabs (get_clause g8 es) = Ret cs <-> Forall2 (cond_denotes g g8 db all) es cs.
Proof.
  intros Hdb Hall. unfold check_clause. rewrite (proj2 (get_all_cols_run _ _ _) Hall). cbn [mbind outcome_bind]. unfold get_clause.
  rewrite (over_run _ _ (fun _ _ => iff_refl _)), Forall2_fmap_l. split; intros F; eapply Forall2_impl; [exact F| |exact F|]; intros e c; by apply check_cond_exact, (columns_named db tabs).
Qed.

Lemma select_cols_exact (all : list ColMeta) (sel : list Ast.Col) (cs : list TabCol) : Forall (fun c => cm_tab_name c <> ""%string) all ->
  (match sel with [] => Ret ((fun c => mkTabCol (cm_tab_name c) (cm_name c)) <$> all) | _ => over (fun c => check_column all (tab_col c)) sel end) = Ret cs <->
  (sel = [] -> cs = (fun c => mkTabCol (cm_tab_name c) (cm_name c)) <$> all) /\ (sel <> [] -> Forall2 (denotes all) (tab_col <$> sel) cs).
Proof.
  intros H. destruct sel as [|c sel]; [split; [by intros [= <-]|by intros [-> _]]|].
  rewrite (over_run _ (fun c r => denotes all (tab_col c) r)) by (intros; by apply check_column_exact). rewrite Forall2_fmap_l. naive_solver.
Qed.

Lemma analyzed (g : Z) (g8 : list Z) (db : DbMeta) (x : Ast.SelectStmt) (q : Query) : db_ok db ->
  do_analyze g g8 db (Ast.Select x) = Ret q <-> select_denotes g g8 db x q.
Proof.
  intros Hdb. cbn [do_analyze]. unfold analyze_select, select_denotes. split.
  - intros (_ & _ & (all & Hall & (cs & Hcs & (conds & Hconds & Hq)%obind_Ret)%obind_Ret)%obind_Ret)%obind_Ret.
    apply get_all_cols_run in Hall. exists all. split; [done|]. apply select_cols_exact in Hcs as [H1 H2]; [|by eapply columns_named].
    apply (check_clause_exact g g8 db _ all _ _ Hdb Hall) in Hconds. injection Hq as <-. cbn [q_cols q_conds]. split_and!; [done..|]. f_equal. by destruct (Ast.ss_cols x).
  - intros (all & Hall & H1 & H2 & Hconds & ->). rewrite (check_tables_run _ _ _ Hall). cbn [mbind outcome_bind].
    rewrite (proj2 (get_all_cols_run _ _ _) Hall). cbn [mbind outcome_bind]. erewrite (proj2 (select_cols_exact _ _ _ (columns_named _ _ _ Hdb Hall)) (conj H1 H2)). cbn [mbind outcome_bind].
    rewrite (proj2 (check_clause_exact g g8 db _ all _ _ Hdb Hall) Hconds). cbn [mbind outcome_bind]. do 2 f_equal. by destruct (Ast.ss_cols x).
Qed.

(** C9: the analyzer accepts exactly the select statements that have a meaning
    it can store: over a catalogue whose columns carry the name of their table,
    [do_analyze] returns a query if and only if all tables exist, every selected
    column and every column of a condition denotes one column of these tables (a
    bare name the only one that has it), each comparison has compatible types,
    and each literal fits the length of its column as [lit_fits] says (so a
    [BIGINT] literal on an [INT] column and a [FLOAT] literal on a [BIGINT]
    column, compatible as they are, are not accepted: they fail an assertion, and
    a text longer than its column is refused); the query holds the resolved
    columns and conditions, in order, with the bytes of the literals. *)
Theorem analyze_select_exact (g : Z) (g8 : list Z) (db : DbMeta) (x : Ast.SelectStmt) (q : Query) : db_ok db ->
  do_analyze g g8 db (Ast.Select x) = Ret q <-> select_denotes g g8 db x q.
Proof. exact (analyzed g g8 db x q). Qed.

End AnalyzeSpec.

Module AnalyzeDemo.
Import AnalyzeSpec.

Definition col (t n : string) (o : Z) : ColMeta := mkCol t n TYPE_INT 4 o false.
Definition two : DbMeta := mkDb "db" (<["r"%string := mkTab "r" [col "r" "a" 0; col "r" "b" 4] []]> {["s"%string := mkTab "s" [col "s" "c" 0; col "s" "d" 4] [] ]}).
Definition zeros : list Z := replicate 8 0.
(** [select a, s.d from r, s where c = b and a > 1] *)
Definition stmt : Ast.SelectStmt :=
  Ast.order_select [Ast.mkAstCol "" "a"; Ast.mkAstCol "s" "d"] ["r"%string; "s"%string]
    [Ast.mkBinary (Ast.mkAstCol "" "c") Ast.SV_OP_EQ (Ast.ColExpr (Ast.mkAstCol "" "b")); Ast.mkBinary (Ast.mkAstCol "" "a") Ast.SV_OP_GT (Ast.ValueExpr (Ast.IntLit 1))] [] (-1).
Definition query : Query := match do_analyze 0 zeros two (Ast.Select stmt) with Ret q => q | _ => mkQuery Ast.Help [] [] [] [] [] false end.

Lemma two_ok : db_ok two.
Proof.
  intros n t H. cbn [two tabs_] in H. apply lookup_insert_Some in H as [[<- <-]|[_ [<- <-]%lookup_singleton_Some]]; (split; [done|repeat constructor]).
Qed.

Lemma analyze_select_exact_witness : select_denotes 0 zeros two stmt query.
Proof. apply (analyze_select_exact 0 zeros two stmt query two_ok). vm_compute. reflexivity. Defined.

End AnalyzeDemo.
