(* ===== verification/Planner.v ===== *)
(** * The planner ([src/src/optimizer/planner.{h,cpp}], [optimizer.h])

    From a query to a plan: a scan per table with the conditions on it, joins
    over the conditions between tables, sorting and projection on top.  Like the
    analyzer it only reads the catalogue. *)

From S2P Require Import Prelude Bytes Disk Txn Log IxDefs Values SmMeta SmManager Ast Analyze.

(** ** Choosing an index *)

(** A condition that counts: on a column of the table, against a value. *)
Definition on_table_value (tab_name : string) (cond : Condition) : bool :=
  is_rhs_val cond && bool_decide (tc_tab_name (lhs_col cond) = tab_name).

(** The maps filled from those conditions. *)
Definition is_exist (conds : list Condition) (name : string) : bool := existsb (fun c => bool_decide (tc_col_name (lhs_col c) = name)) conds.
Definition isequ (conds : list Condition) (name : string) : bool :=
  existsb (fun c => bool_decide (tc_col_name (lhs_col c) = name) && bool_decide (c_op c = OP_EQ)) conds.
Definition islg (conds : list Condition) (name : string) : bool :=
  existsb (fun c => bool_decide (tc_col_name (lhs_col c) = name) && negb (bool_decide (c_op c = OP_EQ))) conds.

(** How many names from the front satisfy [f]: [while (i < size && f(name[i])) i++]. *)
Fixpoint run_length (f : string -> bool) (names : list string) : nat :=
  match names with [] => O | n :: names => if f n then S (run_length f names) else O end.

(** The columns an equality prefix and one range use, and where the columns
    without conditions behind them end. *)
Definition matched (conds : list Condition) (names : list string) : nat :=
  let i := run_length (fun n => is_exist conds n && isequ conds n) names in
  match names !! i with Some n => if is_exist conds n && islg conds n then S i else i | None => i end.
Definition gap_end (conds : list Condition) (names : list string) (j : nat) : nat :=
  (j + run_length (fun n => negb (is_exist conds n)) (drop j names))%nat.

(** The loop over the indexes.  [names] is what [indexed_colnames] holds: an
    index that is passed over leaves its columns there. *)
Fixpoint best_index (conds : list Condition) (indexes : list IndexMeta) (names : list string) (maxlen : nat) (best : list string) : list string :=
  match indexes with
  | [] => best
  | index :: indexes =>
      let own := cm_name <$> im_cols index in
      let names := names ++ own in
      if existsb (fun c => negb (bool_decide (tc_col_name (lhs_col c) ∈ own))) conds then best_index conds indexes names maxlen best else
      let j := matched conds names in
      if (j =? 0)%nat then best else
      if (gap_end conds names j =? length names)%nat && (maxlen <? j)%nat then best_index conds indexes [] j names
      else best_index conds indexes [] maxlen best
  end.

Definition get_index_cols (db : DbMeta) (tab_name : string) (curr_conds : list Condition) : outcome (bool * list string) :=
  tab ← get_table tab_name db;
  let names := best_index (List.filter (on_table_value tab_name) curr_conds) (tm_indexes tab) [] O [] in
  Ret (match names with [] => false | _ => true end, names).

(** [T_IndexScan] when there is an index, [T_SeqScan] otherwise. *)
Definition scan_of (db : DbMeta) (tab_name : string) (conds : list Condition) : outcome Plan :=
  '(index_exist, names) ← get_index_cols db tab_name conds;
  if (index_exist : bool) then make_scan_plan T_IndexScan db tab_name conds names
  else make_scan_plan T_SeqScan db tab_name conds [].

(** ** Conditions *)

(** The conditions a scan takes: a value on this table, or two columns of one
    table, whichever that is. *)
Definition scan_takes (tab_name : string) (c : Condition) : bool :=
  (bool_decide (tab_name = tc_tab_name (lhs_col c)) && is_rhs_val c) || bool_decide (tc_tab_name (lhs_col c) = tc_tab_name (rhs_col c)).
Definition pop_conds (conds : list Condition) (tab_name : string) : list Condition * list Condition :=
  (List.filter (scan_takes tab_name) conds, List.filter (fun c => negb (scan_takes tab_name c)) conds).

Definition swap_op (op : CompOp) : CompOp :=
  match op with OP_EQ => OP_EQ | OP_NE => OP_NE | OP_LT => OP_GT | OP_GT => OP_LT | OP_LE => OP_GE | OP_GE => OP_LE end.
Definition swap_cond (c : Condition) : Condition := mkCond (rhs_col c) (swap_op (c_op c)) (is_rhs_val c) (lhs_col c) (rhs_val c).

(** Where a condition belongs: 0 nowhere here, 1 and 2 only one side, 3 it has
    been added to a join of this plan. *)
Fixpoint push_conds (c : Condition) (p : Plan) : Z * Plan :=
  match p with
  | ScanPlan _ tab _ _ _ _ _ =>
      (if bool_decide (tab = tc_tab_name (lhs_col c)) then 1 else if bool_decide (tab = tc_tab_name (rhs_col c)) then 2 else 0, p)
  | JoinPlan tag l r conds ty =>
      let '(lr, l') := push_conds c l in
      if lr =? 3 then (3, JoinPlan tag l' r conds ty) else
      let '(rr, r') := push_conds c r in
      if rr =? 3 then (3, JoinPlan tag l r' conds ty) else
      if (lr =? 0) || (rr =? 0) then (lr + rr, p) else
      (3, JoinPlan tag l r (conds ++ [if lr =? 2 then swap_cond c else c]) ty)
  | _ => (0, p)
  end.

(** ** Joins *)

Record JoinState : Type := mkJS { js_scantbl : list Z; js_joined : list string }.

(** The scan of [table], marked as used; the null pointer when there is none. *)
Fixpoint pop_scan (i : nat) (table : string) (plans : list Plan) (s : JoinState) : outcome (Plan * JoinState) :=
  match plans with
  | [] => Ret (NullPlan, s)
  | p :: plans =>
      match p with
      | ScanPlan _ tab _ _ _ _ _ =>
          if bool_decide (tab = table) then Ret (p, mkJS (<[i := 1]> (js_scantbl s)) (js_joined s ++ [tab]))
          else pop_scan (S i) table plans s
      | _ => Stuck NullDeref
      end
  end.
Definition is_null (p : Plan) : bool := match p with NullPlan => true | _ => false end.

(** [pop_scan] of a table that is not joined yet. *)
Definition need_scan (table : string) (plans : list Plan) (s : JoinState) : outcome (Plan * JoinState) :=
  if bool_decide (table ∈ js_joined s) then Ret (NullPlan, s) else pop_scan O table plans s.

(** The second and later conditions. *)
Definition join_cond (plans : list Plan) (c : Condition) (tree : Plan) (s : JoinState) : outcome (Plan * JoinState) :=
  '(l, s) ← need_scan (tc_tab_name (lhs_col c)) plans s;
  let isneedreverse := negb (bool_decide (tc_tab_name (rhs_col c) ∈ js_joined s)) in
  '(r, s) ← need_scan (tc_tab_name (rhs_col c)) plans s;
  Ret (if negb (is_null l) && negb (is_null r) then make_join_plan (make_join_plan l r [c]) tree []
       else if negb (is_null l) || negb (is_null r) then
         if (isneedreverse : bool) then make_join_plan r tree [swap_cond c] else make_join_plan l tree [c]
       else (push_conds c tree).2, s).
Fixpoint join_conds (plans : list Plan) (conds : list Condition) (tree : Plan) (s : JoinState) : outcome (Plan * JoinState) :=
  match conds with
  | [] => Ret (tree, s)
  | c :: conds => '(tree, s) ← join_cond plans c tree s; join_conds plans conds tree s
  end.

(** The tables no condition has joined. *)
Fixpoint join_rest (plans : list Plan) (scantbl : list Z) (tree : Plan) : Plan :=
  match plans, scantbl with
  | p :: plans, b :: scantbl => join_rest plans scantbl (if b =? -1 then make_join_plan p tree [] else tree)
  | _, _ => tree
  end.

Fixpoint table_scans (db : DbMeta) (tables : list string) (conds : list Condition) : outcome (list Plan * list Condition) :=
  match tables with
  | [] => Ret ([], conds)
  | t :: tables =>
      let '(mine, conds) := pop_conds conds t in
      p ← scan_of db t mine;
      '(ps, conds) ← table_scans db tables conds;
      Ret (p :: ps, conds)
  end.

(** The first join or the first table. *)
Definition first_join (plans : list Plan) (conds : list Condition) (s : JoinState) : outcome (Plan * JoinState * list Condition) :=
  match conds with
  | c :: conds =>
      '(l, s) ← pop_scan O (tc_tab_name (lhs_col c)) plans s;
      '(r, s) ← pop_scan O (tc_tab_name (rhs_col c)) plans s;
      Ret (make_join_plan l r [c], s, conds)
  | [] =>
      p ← or_stuck OutOfBounds (head plans);
      Ret (p, mkJS (<[O := 1]> (js_scantbl s)) (js_joined s), [])
  end.

(** Also returns the conditions left in the query. *)
Definition make_one_rel (db : DbMeta) (query : Query) : outcome (Plan * Query) :=
  let tables := q_tables query in
  '(plans, conds) ← table_scans db tables (q_conds query);
  if (length tables =? 1)%nat then p ← or_stuck OutOfBounds (head plans); Ret (p, q_set_conds conds query) else
  '(tree, s, rest) ← first_join plans conds (mkJS (replicate (length tables) (-1)) (replicate (length tables) ""));
  '(tree, s) ← join_conds plans rest tree s;
  Ret (join_rest plans (js_scantbl s) tree, q_set_conds [] query).

(** ** Sorting *)

Definition is_desc (o : Ast.OrderBy) : bool := bool_decide (Ast.orderby_dir o = Ast.OrderBy_DESC).
Definition order_col (all_cols : list ColMeta) (o : Ast.OrderBy) : outcome (TabCol * bool) :=
  c ← check_column all_cols (tab_col (Ast.ob_col o));
  Ret (c, is_desc o).
(** The second loop adds the order columns once more, in the order of the tables. *)
Definition order_again (orders : list Ast.OrderBy) (c : ColMeta) : list (TabCol * bool) :=
  omap (fun o =>
    if (bool_decide (Ast.c_tab_name (Ast.ob_col o) = "") || bool_decide (cm_tab_name c = Ast.c_tab_name (Ast.ob_col o)))
       && bool_decide (cm_name c = Ast.c_col_name (Ast.ob_col o))
    then Some (mkTabCol (cm_tab_name c) (cm_name c), is_desc o) else None) orders.
Definition select_of (q : Query) : outcome Ast.SelectStmt := match parse q with Ast.Select s => Ret s | _ => Stuck NullDeref end.
Definition generate_sort_plan (db : DbMeta) (query : Query) (plan : Plan) : outcome Plan :=
  x ← select_of query;
  if negb (Ast.has_sort x) then Ret plan else
  all_cols ← get_all_cols db (q_tables query);
  sel ← over (order_col all_cols) (Ast.orders x);
  Ret (SortPlan T_Sort plan (sel ++ concat (order_again (Ast.orders x) <$> all_cols)) (Ast.ss_limit x)).

(** ** Statements *)

Definition logical_optimization (query : Query) : Query := query.
Definition physical_optimization (db : DbMeta) (query : Query) : outcome Plan :=
  '(plan, query) ← make_one_rel db query;
  generate_sort_plan db query plan.
Definition generate_select_plan (db : DbMeta) (query : Query) : outcome Plan :=
  let query := logical_optimization query in
  subplan ← physical_optimization db query;
  Ret (ProjectionPlan T_Projection subplan (q_cols query)).

Definition interp_sv_type (t : Ast.SvType) : ColType :=
  match t with
  | Ast.SV_TYPE_INT => TYPE_INT | Ast.SV_TYPE_BIGINT => TYPE_BIGINT | Ast.SV_TYPE_FLOAT => TYPE_FLOAT
  | Ast.SV_TYPE_STRING => TYPE_STRING | Ast.SV_TYPE_DATETIME => TYPE_DATETIME
  end.
Definition interp_field (f : Ast.Field) : outcome ColDef :=
  match f with
  | Ast.ColDefField name tl => Ret (mkColDef name (interp_sv_type (Ast.tl_type tl)) (Ast.tl_len tl))
  | Ast.PlainField => Throw (InternalError "Unexpected field type")
  end.
Definition select_tag (t : Ast.AggregateType) : PlanTag :=
  match t with
  | Ast.SV_NONE => T_select | Ast.SV_COUNT => T_select_count | Ast.SV_MAX => T_select_max
  | Ast.SV_MIN => T_select_min | Ast.SV_SUM => T_select_sum
  end.

Definition do_planner (db : DbMeta) (query : Query) : outcome Plan :=
  match parse query with
  | Ast.CreateTable tab_name fields => col_defs ← over interp_field fields; Ret (DDLPlan T_CreateTable tab_name [] col_defs)
  | Ast.DropTable tab_name => Ret (DDLPlan T_DropTable tab_name [] [])
  | Ast.CreateIndex tab_name col_names => Ret (DDLPlan T_CreateIndex tab_name col_names [])
  | Ast.DropIndex tab_name col_names => Ret (DDLPlan T_DropIndex tab_name col_names [])
  | Ast.InsertStmt tab_name _ => Ret (DMLPlan T_Insert NullPlan tab_name (q_values query) [] [] "" false)
  | Ast.LoadStmt path tab_name => Ret (LoadPlan tab_name path)
  | Ast.DeleteStmt tab_name _ =>
      scan ← scan_of db tab_name (q_conds query);
      Ret (DMLPlan T_Delete scan tab_name [] (q_conds query) [] "" false)
  | Ast.UpdateStmt tab_name _ _ =>
      scan ← scan_of db tab_name (q_conds query);
      Ret (DMLPlan T_Update scan tab_name [] (q_conds query) (q_set_clauses query) "" false)
  | Ast.Select x =>
      projection ← generate_select_plan db query;
      Ret (DMLPlan (select_tag (Ast.aggregate_type x)) projection "" [] [] [] (Ast.ss_alias x) (q_is_all query))
  | _ => Throw (InternalError "Unexpected AST root")
  end.

(** [Optimizer::plan_query] *)
Definition plan_query (db : DbMeta) (query : Query) : outcome Plan :=
  match parse query with
  | Ast.Help => Ret (OtherPlan T_Help "")
  | Ast.ShowTables => Ret (OtherPlan T_ShowTable "")
  | Ast.ShowIndex tab_name => Ret (OtherPlan T_ShowIndex tab_name)
  | Ast.DescTable tab_name => Ret (OtherPlan T_DescTable tab_name)
  | Ast.TxnBegin => Ret (OtherPlan T_Transaction_begin "")
  | Ast.TxnAbort => Ret (OtherPlan T_Transaction_abort "")
  | Ast.TxnCommit => Ret (OtherPlan T_Transaction_commit "")
  | Ast.TxnRollback => Ret (OtherPlan T_Transaction_rollback "")
  | _ => do_planner db query
  end.
