(* ===== verification/PlannerSpec.v ===== *)
(** * Plans keep the meaning of a query

    [make_one_rel] distributes the conditions of a query over scans and joins.
    Every table is scanned once and every condition ends up at one place,
    possibly with its sides exchanged.  When its columns are at hand there, the
    rows of the plan are those of the query: the combinations of rows of the
    tables that satisfy its conditions. *)

From Stdlib Require Import Floats.SpecFloat.
From S2P Require Import Prelude Bytes Disk Txn Log IxDefs Values ValuesSpec SmMeta SmManager Executors Ast Analyze AnalyzeSpec Planner.

Module PlannerSpec.
Import ValuesSpec.

(** ** Meaning of a condition *)

(** A table is a list of rows, a row gives every column a value; a combination
    has a row for each of several tables. *)
Definition Row : Type := string -> sql_value.
Abbreviation tuple := (gmap string Row).

Definition column_value (m : tuple) (c : TabCol) : option sql_value := (fun r : Row => r (tc_col_name c)) <$> m !! tc_tab_name c.
Definition cond_true (m : tuple) (c : Condition) : bool :=
  match column_value m (lhs_col c), (if is_rhs_val c then Some (value_of (rhs_val c)) else column_value m (rhs_col c)) with
  | Some a, Some b => sql_op (c_op c) a b
  | _, _ => false
  end.
Definition where_true (cs : list Condition) (m : tuple) : bool := forallb (cond_true m) cs.

(** Every combination of rows of the tables, and those that satisfy the
    conditions of a statement. *)
Fixpoint product (D : string -> list Row) (tables : list string) : list tuple :=
  match tables with
  | [] => [∅]
  | t :: tables => r ← D t; m ← product D tables; [<[t := r]> m]
  end.
Definition statement_rows (D : string -> list Row) (tables : list string) (conds : list Condition) : list tuple :=
  List.filter (where_true conds) (product D tables).

(** The rows of a plan: a scan, by an index or not, keeps the rows of its table
    that satisfy its conditions, a join those of the pairs that satisfy its own. *)
Fixpoint plan_rows (D : string -> list Row) (p : Plan) : list tuple :=
  match p with
  | ScanPlan _ t _ cs _ _ _ => List.filter (where_true cs) ((fun r => {[t := r]}) <$> D t)
  | JoinPlan _ l r cs _ => List.filter (where_true cs) (a ← plan_rows D l; b ← plan_rows D r; [a ∪ b])
  | _ => []
  end.

Lemma lex_compare_swap (a b : list Z) : lex_compare b a = CompOpp (lex_compare a b).
Proof.
  revert b. induction a as [|x a IH]; intros [|y b]; try done. cbn [lex_compare]. rewrite (Z.compare_antisym x y), IH. by destruct (Z.compare x y).
Qed.
Lemma sql_compare_swap (a b : sql_value) : sql_compare b a = CompOpp <$> sql_compare a b.
Proof.
  destruct a as [x|x|x], b as [y|y|y]; simpl; rewrite ?(Z.compare_antisym x y), ?(lex_compare_swap x y); try done; apply SFcompare_antisym.
Qed.
Lemma sql_op_swap (op : CompOp) (a b : sql_value) : sql_op (swap_op op) b a = sql_op op a b.
Proof. unfold sql_op. rewrite (sql_compare_swap a b). by destruct op, (sql_compare a b) as [[]|]. Qed.

(** The same condition, perhaps read from the other side. *)
Definition same_cond (c d : Condition) : Prop := d = c \/ (is_rhs_val c = false /\ d = swap_cond c).
Lemma same_cond_true (m : tuple) (c d : Condition) : same_cond c d -> cond_true m d = cond_true m c.
Proof.
  intros [->|[H ->]]; [done|]. unfold cond_true, swap_cond. cbn [lhs_col rhs_col is_rhs_val c_op]. rewrite H.
  destruct (column_value m (rhs_col c)), (column_value m (lhs_col c)); try done. apply sql_op_swap.
Qed.
Lemma where_perm (cs ds : list Condition) (m : tuple) : cs ≡ₚ ds -> where_true cs m = where_true ds m.
Proof. unfold where_true. induction 1; simpl; [done|by f_equal|by rewrite !andb_assoc, (andb_comm (cond_true m y))|by etrans]. Qed.
Lemma where_same (cs ds : list Condition) (m : tuple) : Forall2 same_cond cs ds -> where_true ds m = where_true cs m.
Proof. unfold where_true. induction 1 as [|c d cs ds H _ IH]; [done|]. simpl. by rewrite IH, (same_cond_true m c d H). Qed.
Lemma where_app (cs ds : list Condition) (m : tuple) : where_true (cs ++ ds) m = where_true cs m && where_true ds m.
Proof. apply forallb_app. Qed.

(** ** Products *)

Section products.
Context (D : string -> list Row).

Lemma bind_split {A B C} (l : list A) (k : list B) (f : A -> B -> list C) : (x ← l; y ← k; f x y) ≡ₚ (y ← k; x ← l; f x y).
Proof.
  assert (forall (u v : B -> list C), (k ≫= fun y => u y ++ v y) ≡ₚ (k ≫= u) ++ (k ≫= v)) as H.
  { intros u v. induction k as [|y k IH]; [done|]. rewrite !bind_cons, IH, <- !app_assoc. f_equiv. rewrite !app_assoc. f_equiv. apply Permutation_app_comm. }
  induction l as [|x l IH]; [clear H; induction k as [|y k IHk]; [done|by rewrite bind_cons]|]. rewrite bind_cons, IH. rewrite <- H. apply reflexive_eq. by apply list_bind_ext.
Qed.
Lemma bind_perm_ext {A B} (l : list A) (f g : A -> list B) : (forall x, f x ≡ₚ g x) -> (l ≫= f) ≡ₚ (l ≫= g).
Proof. intros H. induction l as [|x l IH]; [done|]. by rewrite !bind_cons, H, IH. Qed.
Lemma bind_bind {A B C} (l : list A) (f : A -> list B) (g : B -> list C) : ((l ≫= f) ≫= g) = (x ← l; f x ≫= g).
Proof. induction l as [|x l IH]; [done|]. by rewrite !bind_cons, bind_app, IH. Qed.

Lemma product_two (t u : string) (ts : list string) : product D (t :: u :: ts) = (a ← D t; b ← D u; m ← product D ts; [<[t := a]> (<[u := b]> m)]).
Proof.
  cbn [product]. apply list_bind_ext; [intros a|done]. rewrite bind_bind. apply list_bind_ext; [intros b|done]. rewrite bind_bind. apply list_bind_ext; [intros m|done]. by rewrite bind_cons, app_nil_r.
Qed.
Lemma product_perm (ts us : list string) : ts ≡ₚ us -> NoDup ts -> product D ts ≡ₚ product D us.
Proof.
  induction 1 as [|t ts us H IH|t u ts|ts us vs H1 IH1 H2 IH2]; intros N; [done| | |].
  - apply NoDup_cons in N as [_ N]. cbn [product]. apply bind_perm_ext. intros r. by rewrite IH.
  - apply NoDup_cons in N as [N _]. rewrite elem_of_cons in N. rewrite !product_two, (bind_split (D u)). apply bind_perm_ext. intros a. apply bind_perm_ext. intros b. apply bind_perm_ext. intros m.
    rewrite insert_insert_ne; [done|]. intros ->. auto.
  - rewrite IH1 by done. apply IH2. by rewrite <- H1.
Qed.

Lemma product_app (ts us : list string) : product D (ts ++ us) = (a ← product D ts; b ← product D us; [a ∪ b]).
Proof.
  induction ts as [|t ts IH]; cbn [app product].
  - rewrite bind_cons, app_nil_r. induction (product D us) as [|b l IHl]; [done|]. by rewrite bind_cons, <- IHl, (left_id_L ∅ (∪)).
  - rewrite IH, bind_bind. apply list_bind_ext; [intros r|done]. rewrite !bind_bind. apply list_bind_ext; [intros a|done]. rewrite bind_bind, bind_cons, app_nil_r.
    apply list_bind_ext; [intros b|done]. rewrite bind_cons, app_nil_r. by rewrite insert_union_l.
Qed.
Lemma product_dom (ts : list string) (m : tuple) : m ∈ product D ts -> forall t, is_Some (m !! t) <-> t ∈ ts.
Proof.
  revert m. induction ts as [|t ts IH]; intros m Hm u; cbn [product] in Hm.
  - apply list_elem_of_singleton in Hm as ->. rewrite lookup_empty. split; [by intros [? ?]|by intros ?%not_elem_of_nil].
  - apply list_elem_of_bind in Hm as (r & Hm & _). apply list_elem_of_bind in Hm as (m' & Hm & Hm'). apply list_elem_of_singleton in Hm as ->. rewrite elem_of_cons, <- (IH m' Hm' u).
    destruct (decide (u = t)) as [->|Hne]; [rewrite lookup_insert_eq; split; eauto|]. rewrite lookup_insert_ne by done. tauto.
Qed.

(** A selection from pairs, part of which looks at one side only. *)
Lemma filter_pairs {A B C} (f : A -> B -> C) (l : list A) (k : list B) (P : C -> bool) (Pl : A -> bool) (Pr : B -> bool) (Pj : C -> bool) :
  (forall a b, a ∈ l -> b ∈ k -> P (f a b) = Pj (f a b) && (Pl a && Pr b)) ->
  List.filter P (a ← l; b ← k; [f a b]) = List.filter Pj (a ← List.filter Pl l; b ← List.filter Pr k; [f a b]).
Proof.
  induction l as [|a l IH]; intros H; [done|]. rewrite bind_cons, List.filter_app, IH by (intros; apply H; [by right|done]). cbn [List.filter].
  assert (List.filter P (b ← k; [f a b]) = if Pl a then List.filter Pj (b ← List.filter Pr k; [f a b]) else []) as ->; [|destruct (Pl a); [by rewrite bind_cons, List.filter_app|done]].
  clear IH. assert (forall b, b ∈ k -> P (f a b) = Pj (f a b) && (Pl a && Pr b)) as Ha by (intros; apply H; [by left|done]). clear H.
  induction k as [|b k IH]; [by destruct (Pl a)|]. rewrite bind_cons. cbn [app List.filter]. rewrite IH by (intros; apply Ha; by right). rewrite (Ha b) by (by left).
  destruct (Pl a), (Pr b); rewrite ?andb_false_r, ?andb_true_r, ?bind_cons; done.
Qed.
End products.

(** ** The shape of a plan *)

Definition scan_tab (p : Plan) : string := match p with ScanPlan _ t _ _ _ _ _ => t | _ => "" end.
Definition scan_conds (p : Plan) : list Condition := match p with ScanPlan _ _ _ cs _ _ _ => cs | _ => [] end.
(** The scans of a plan, and the conditions at its joins. *)
Fixpoint leaves (p : Plan) : list Plan :=
  match p with ScanPlan _ _ _ _ _ _ _ => [p] | JoinPlan _ l r _ _ => leaves l ++ leaves r | _ => [] end.
Fixpoint joins (p : Plan) : list Condition :=
  match p with JoinPlan _ l r cs _ => cs ++ joins l ++ joins r | _ => [] end.
Definition plan_tables (p : Plan) : list string := scan_tab <$> leaves p.
Definition plan_conds (p : Plan) : list Condition := concat (scan_conds <$> leaves p) ++ joins p.

Definition is_scan (p : Plan) : bool := match p with ScanPlan _ _ _ _ _ _ _ => true | _ => false end.
Lemma scan_leaves (p : Plan) : is_scan p = true -> leaves p = [p] /\ joins p = [] /\ is_null p = false.
Proof. by destruct p. Qed.

(** A tree of joins over scans in which every condition of a join compares its
    two sides. *)
Fixpoint placed (p : Plan) : Prop :=
  match p with
  | ScanPlan _ _ _ _ _ _ _ => True
  | JoinPlan _ l r cs _ =>
      placed l /\ placed r /\
      Forall (fun c => is_rhs_val c = false /\ tc_tab_name (lhs_col c) ∈ plan_tables l /\ tc_tab_name (rhs_col c) ∈ plan_tables r) cs
  | _ => False
  end.

(** Every condition of a scan is about its table. *)
Definition at_home (p : Plan) : Prop :=
  Forall (fun s => Forall (fun c => tc_tab_name (lhs_col c) = scan_tab s /\ (is_rhs_val c = true \/ tc_tab_name (rhs_col c) = scan_tab s)) (scan_conds s)) (leaves p).

(** A condition between two tables. *)
Definition between (tables : list string) (c : Condition) : Prop :=
  is_rhs_val c = false /\ tc_tab_name (lhs_col c) ∈ tables /\ tc_tab_name (rhs_col c) ∈ tables /\ tc_tab_name (lhs_col c) <> tc_tab_name (rhs_col c).
(** A condition on columns of the tables. *)
Definition plannable (tables : list string) (c : Condition) : Prop :=
  tc_tab_name (lhs_col c) ∈ tables /\
  if is_rhs_val c then tc_tab_name (rhs_col c) = ""%string
  else tc_tab_name (rhs_col c) ∈ tables.
Definition scannable (db : DbMeta) (t : string) : Prop :=
  t <> ""%string /\ exists tab c, tabs_ db !! t = Some tab /\ last (tm_cols tab) = Some c /\ in_i32 (cm_offset c + cm_len c) = true.

(** ** Scans *)

Lemma scan_of_run (db : DbMeta) (t : string) (conds : list Condition) : scannable db t ->
  exists tag cs len names, scan_of db t conds = Ret (ScanPlan tag t cs conds len conds names).
Proof.
  intros (_ & tab & c & Ht & Hc & Hlen). unfold scan_of, get_index_cols, make_scan_plan, get_table. rewrite Ht. cbn [mbind outcome_bind].
  destruct (best_index _ _ _ _ _) as [|n names]; rewrite Hc; cbn [or_stuck mbind outcome_bind]; unfold ensure; rewrite Hlen; cbn [mbind outcome_bind]; eauto.
Qed.

Lemma partition_perm {A} (f : A -> bool) (l : list A) : List.filter f l ++ List.filter (fun x => negb (f x)) l ≡ₚ l.
Proof. induction l as [|x l IH]; [done|]. cbn [List.filter]. destruct (f x); simpl; [by rewrite IH|]. by rewrite <- Permutation_middle, IH. Qed.
Lemma In_filter {A} (f : A -> bool) (x : A) (l : list A) : x ∈ List.filter f l <-> x ∈ l /\ f x = true.
Proof. by rewrite !list_elem_of_In, List.filter_In. Qed.

Lemma scan_takes_false (t : string) (c : Condition) : scan_takes t c = false ->
  (is_rhs_val c = true -> tc_tab_name (lhs_col c) <> t) /\ tc_tab_name (lhs_col c) <> tc_tab_name (rhs_col c).
Proof.
  unfold scan_takes. intros [H1 H2%bool_decide_eq_false]%orb_false_iff. split; [|done]. intros Hv E. rewrite Hv, andb_true_r in H1. by apply bool_decide_eq_false in H1.
Qed.

(** A scan per table.  A comparison inside one table goes to the first scan; what
    is left compares columns of different tables. *)
Lemma table_scans_run (db : DbMeta) (tables : list string) (conds : list Condition) : Forall (scannable db) tables ->
  exists plans rest, table_scans db tables conds = Ret (plans, rest) /\ scan_tab <$> plans = tables /\
    Forall (fun p => is_scan p = true) plans /\ concat (scan_conds <$> plans) ++ rest ≡ₚ conds /\
    (forall c, c ∈ rest -> c ∈ conds /\ (is_rhs_val c = true -> tc_tab_name (lhs_col c) ∉ tables) /\ (tables <> [] -> tc_tab_name (lhs_col c) <> tc_tab_name (rhs_col c))) /\
    (forall p, head plans = Some p -> scan_conds p = List.filter (scan_takes (scan_tab p)) conds) /\
    (forall p c, p ∈ tail plans -> c ∈ scan_conds p -> tc_tab_name (lhs_col c) = scan_tab p /\ is_rhs_val c = true).
Proof.
  revert conds. induction tables as [|t tables IH]; intros conds Hs; cbn [table_scans].
  { exists [], conds. split_and!; try done; [|by intros p c ?%not_elem_of_nil]. intros c Hin. split_and!; [done|intros _; apply not_elem_of_nil|done]. }
  apply Forall_cons in Hs as [Ht Hs]. cbn [pop_conds]. destruct (scan_of_run db t (List.filter (scan_takes t) conds) Ht) as (tag & cs & len & names & E).
  unfold pop_conds. rewrite E. cbn [mbind outcome_bind].
  destruct (IH (List.filter (fun c => negb (scan_takes t c)) conds) Hs) as (plans & rest & -> & Hp1 & Hp3 & Hp4 & Hp5 & Hp6 & Hp7).
  cbn [mbind outcome_bind]. eexists _, _. split; [done|]. split_and!.
  - by rewrite fmap_cons, Hp1.
  - by constructor.
  - rewrite fmap_cons. cbn [concat scan_conds]. rewrite <- app_assoc, Hp4. apply partition_perm.
  - intros c Hin. apply Hp5 in Hin as (Hin & Hv & _). apply In_filter in Hin as [Hin Hn%negb_true_iff]. apply scan_takes_false in Hn as [H1 H2].
    split_and!; [done| |done]. intros Hr. apply not_elem_of_cons. auto.
  - by intros p [= <-].
  - cbn [tail]. intros p c Hp Hc. destruct plans as [|p0 plans]; [by apply not_elem_of_nil in Hp|]. apply elem_of_cons in Hp as [->|Hp]; [|by apply (Hp7 p)].
    rewrite (Hp6 p0 eq_refl) in Hc. apply In_filter in Hc as [[_ Hn%negb_true_iff]%In_filter Hc]. apply scan_takes_false in Hn as [_ Hn]. unfold scan_takes in Hc.
    rewrite (bool_decide_eq_false_2 _ Hn), orb_false_r in Hc. by apply andb_prop in Hc as [->%bool_decide_eq_true ->].
Qed.

(** ** The rows of a plan *)

(** A condition sees the tables it names only. *)
Lemma cond_agree (c : Condition) (m n : tuple) : m !! tc_tab_name (lhs_col c) = n !! tc_tab_name (lhs_col c) ->
  (is_rhs_val c = true \/ m !! tc_tab_name (rhs_col c) = n !! tc_tab_name (rhs_col c)) -> cond_true m c = cond_true n c.
Proof. intros H1 H2. unfold cond_true, column_value. rewrite H1. destruct (is_rhs_val c); [done|]. destruct H2 as [?|H2]; [done|]. by rewrite H2. Qed.

(** The conditions of a plan are about its tables. *)
Definition inside (ts : list string) (c : Condition) : Prop := tc_tab_name (lhs_col c) ∈ ts /\ (is_rhs_val c = true \/ tc_tab_name (rhs_col c) ∈ ts).
Lemma conds_inside (p : Plan) : placed p -> at_home p -> Forall (inside (plan_tables p)) (plan_conds p).
Proof.
  unfold plan_conds, at_home, plan_tables. induction p as [|tag t cs conds len fed names|tag l IHl r IHr conds ty| | | | | |]; try done; intros Hp Hh.
  - cbn [leaves fmap list_fmap concat scan_conds joins app scan_tab] in *. rewrite !app_nil_r. apply Forall_cons in Hh as [Hh _]. cbn [scan_conds scan_tab] in Hh. eapply Forall_impl; [exact Hh|]. intros c [E H]. unfold inside. rewrite !list_elem_of_singleton. tauto.
  - destruct Hp as (Pl & Pr & Hc). cbn [leaves joins] in *. apply Forall_app in Hh as [Hl Hr]. specialize (IHl Pl Hl). specialize (IHr Pr Hr). apply Forall_app in IHl as [Cl Jl]. apply Forall_app in IHr as [Cr Jr].
    unfold inside in *. rewrite !fmap_app, concat_app. rewrite !Forall_app.
    assert (forall A (x : A) a b, x ∈ a -> x ∈ a ++ b) as Il by (intros; apply elem_of_app; auto). assert (forall A (x : A) a b, x ∈ b -> x ∈ a ++ b) as Ir by (intros; apply elem_of_app; auto).
    split_and!; [eapply Forall_impl; [exact Cl|]|eapply Forall_impl; [exact Cr|]|eapply Forall_impl; [exact Hc|]|eapply Forall_impl; [exact Jl|]|eapply Forall_impl; [exact Jr|]]; intros c; naive_solver.
Qed.

Lemma where_left (ts : list string) (cs : list Condition) (D : string -> list Row) (a b : tuple) : Forall (inside ts) cs -> a ∈ product D ts -> where_true cs (a ∪ b) = where_true cs a.
Proof.
  intros F Ha. pose proof (product_dom D ts a Ha) as Hd. unfold where_true. induction F as [|c cs [H1 H2] F IH]; [done|]. simpl. rewrite IH. f_equal.
  assert (forall t, t ∈ ts -> (a ∪ b) !! t = a !! t) as Hu by (intros t Ht; apply lookup_union_l'; by apply Hd). apply cond_agree; [auto|]. destruct H2; auto.
Qed.
Lemma where_right (ts us : list string) (cs : list Condition) (D : string -> list Row) (a b : tuple) : (forall t, t ∈ us -> t ∉ ts) -> Forall (inside us) cs -> a ∈ product D ts ->
  where_true cs (a ∪ b) = where_true cs b.
Proof.
  intros Hdis F Ha. pose proof (product_dom D ts a Ha) as Hd. unfold where_true. induction F as [|c cs [H1 H2] F IH]; [done|]. simpl. rewrite IH. f_equal.
  assert (forall t, t ∈ us -> (a ∪ b) !! t = b !! t) as Hu. { intros t Ht. apply lookup_union_r. apply eq_None_not_Some. rewrite Hd. auto. }
  apply cond_agree; [auto|]. destruct H2; auto.
Qed.

Lemma plan_rows_run (D : string -> list Row) (p : Plan) : placed p -> at_home p -> NoDup (plan_tables p) ->
  plan_rows D p = List.filter (where_true (plan_conds p)) (product D (plan_tables p)).
Proof.
  induction p as [|tag t cs conds len fed names|tag l IHl r IHr conds ty| | | | | |]; try done; intros Hp Hh N.
  - cbn [plan_rows]. unfold plan_conds, plan_tables. cbn [leaves fmap list_fmap concat scan_conds joins scan_tab product]. by rewrite !app_nil_r.
  - pose proof Hp as (Pl & Pr & Hc). pose proof Hh as Hh'. unfold at_home in Hh'. cbn [leaves] in Hh'. apply Forall_app in Hh' as [Hl Hr]. pose proof N as N'. unfold plan_tables in N'. cbn [leaves] in N'. rewrite fmap_app in N'.
    apply NoDup_app in N' as (Nl & Hdis & Nr). fold (plan_tables l) in *. fold (plan_tables r) in *. cbn [plan_rows]. rewrite (IHl Pl Hl Nl), (IHr Pr Hr Nr).
    change (plan_tables (JoinPlan tag l r conds ty)) with (scan_tab <$> (leaves l ++ leaves r)). rewrite fmap_app. fold (plan_tables l) (plan_tables r). rewrite product_app. symmetry. apply filter_pairs.
    intros a b Ha Hb. assert (plan_conds (JoinPlan tag l r conds ty) ≡ₚ conds ++ plan_conds l ++ plan_conds r) as ->%(where_perm _ _ (a ∪ b)).
    { unfold plan_conds. cbn [leaves joins]. rewrite fmap_app, concat_app. solve_Permutation. }
    rewrite !where_app. rewrite (where_left (plan_tables l) (plan_conds l) D a b (conds_inside l Pl Hl) Ha).
    rewrite (where_right (plan_tables l) (plan_tables r) (plan_conds r) D a b); [done| |by apply conds_inside|done]. intros t Ht Ht'. by apply (Hdis t).
Qed.

(** ** Pushing a condition into the tree *)

Definition has (t : string) (p : Plan) : bool := bool_decide (t ∈ plan_tables p).
(** What [push_conds] answers. *)
Definition side (c : Condition) (p : Plan) : Z :=
  match has (tc_tab_name (lhs_col c)) p, has (tc_tab_name (rhs_col c)) p with true, true => 3 | true, false => 1 | false, true => 2 | false, false => 0 end.

Lemma has_join (t : string) (tag : PlanTag) (l r : Plan) (cs : list Condition) (ty : Ast.JoinType) : has t (JoinPlan tag l r cs ty) = has t l || has t r.
Proof.
  unfold has. change (plan_tables (JoinPlan tag l r cs ty)) with (scan_tab <$> (leaves l ++ leaves r)). rewrite fmap_app. fold (plan_tables l) (plan_tables r).
  destruct (bool_decide (t ∈ plan_tables l)) eqn:E1, (bool_decide (t ∈ plan_tables r)) eqn:E2; simpl; apply bool_decide_eq_true || apply bool_decide_eq_false; rewrite elem_of_app;
    rewrite ?bool_decide_eq_true, ?bool_decide_eq_false in *; tauto.
Qed.

Lemma push_conds_run (c : Condition) (p : Plan) : placed p -> NoDup (plan_tables p) -> is_rhs_val c = false -> tc_tab_name (lhs_col c) <> tc_tab_name (rhs_col c) ->
  exists p', push_conds c p = (side c p, p') /\
    if side c p =? 3 then leaves p' = leaves p /\ placed p' /\ exists d, same_cond c d /\ joins p' ≡ₚ d :: joins p else p' = p.
Proof.
  intros Hp Hnd Hv Hne. induction p as [|tag t cs conds len fed names|tag l IHl r IHr conds ty| | | | | |]; try (by destruct Hp).
  - cbn [push_conds]. assert (side c (ScanPlan tag t cs conds len fed names) = if bool_decide (t = tc_tab_name (lhs_col c)) then 1 else if bool_decide (t = tc_tab_name (rhs_col c)) then 2 else 0) as ->.
    { unfold side, has, plan_tables. cbn [leaves fmap list_fmap scan_tab].
      assert (forall x : string, bool_decide (x ∈ [t]) = bool_decide (t = x)) as Hx by (intros x; apply bool_decide_ext; rewrite list_elem_of_singleton; split; congruence).
      rewrite !Hx. destruct (decide (t = tc_tab_name (lhs_col c))), (decide (t = tc_tab_name (rhs_col c))); repeat case_bool_decide; congruence. }
    eexists. split; [done|]. repeat case_bool_decide; done.
  - destruct Hp as (Hl & Hr & Hcs). unfold plan_tables in Hnd. cbn [leaves] in Hnd. rewrite fmap_app in Hnd. apply NoDup_app in Hnd as (Nl & Hdis & Nr).
    destruct (IHl Hl Nl) as (l' & El & Pl). destruct (IHr Hr Nr) as (r' & Er & Pr). clear IHl IHr. cbn [push_conds]. rewrite El, Er.
    assert (forall t, has t l = true -> has t r = false) as Hd.
    { intros t H1%bool_decide_eq_true. apply bool_decide_eq_false. by apply Hdis. }
    pose proof (Hd (tc_tab_name (lhs_col c))) as D1. pose proof (Hd (tc_tab_name (rhs_col c))) as D2. unfold side in *. rewrite !has_join.
    destruct (has (tc_tab_name (lhs_col c)) l) eqn:L1, (has (tc_tab_name (rhs_col c)) l) eqn:L2; rewrite ?D1, ?D2 in * by done; cbn [orb] in *; cbn -[same_cond joins] in Pl |- *.
    + eexists. split; [done|]. destruct Pl as (E & P & d & Sd & Jd). cbn [leaves placed]. rewrite E. split_and!; try done.
      { eapply Forall_impl; [exact Hcs|]. intros x (X1 & X2 & X3). unfold plan_tables. by rewrite E. }
      exists d. split; [done|]. cbn [joins]. rewrite Jd. cbn [app]. by rewrite <- Permutation_middle.
    + destruct (has (tc_tab_name (rhs_col c)) r) eqn:R2; cbn -[same_cond joins] in Pr |- *; [|eauto]. eexists. split; [done|]. split; [done|]. split.
      { split_and!; [done..|]. apply Forall_app. split; [done|]. apply Forall_singleton. by rewrite <- (bool_decide_eq_true (_ ∈ plan_tables l)), <- (bool_decide_eq_true (_ ∈ plan_tables r)). }
      exists c. split; [by left|]. cbn [joins]. rewrite <- app_assoc. cbn [app]. by rewrite <- Permutation_middle.
    + destruct (has (tc_tab_name (lhs_col c)) r) eqn:R1; cbn -[same_cond joins] in Pr |- *; [|eauto]. eexists. split; [done|]. split; [done|]. split.
      { split_and!; [done..|]. apply Forall_app. split; [done|]. apply Forall_singleton. cbn [swap_cond is_rhs_val lhs_col rhs_col].
        by rewrite <- (bool_decide_eq_true (_ ∈ plan_tables l)), <- (bool_decide_eq_true (_ ∈ plan_tables r)). }
      exists (swap_cond c). split; [by right|]. cbn [joins]. rewrite <- app_assoc. cbn [app]. by rewrite <- Permutation_middle.
    + destruct (has (tc_tab_name (lhs_col c)) r) eqn:R1, (has (tc_tab_name (rhs_col c)) r) eqn:R2; cbn -[same_cond joins] in Pr |- *; [|eauto..].
      eexists. split; [done|]. destruct Pr as (E & P & d & Sd & Jd). cbn [leaves placed]. rewrite E. split_and!; try done.
      { eapply Forall_impl; [exact Hcs|]. intros x (X1 & X2 & X3). unfold plan_tables. by rewrite E. }
      exists d. split; [done|]. cbn [joins]. rewrite Jd. by rewrite !app_assoc, <- Permutation_middle.
Qed.

(** ** Building the joins *)

Section joining.
Context (plans : list Plan) (Hscan : Forall (fun p => is_scan p = true) plans) (Hplaced : Forall placed plans) (Hnd : NoDup (scan_tab <$> plans)).
Abbreviation tabs := (scan_tab <$> plans).

Definition chosen (J : list string) : list Plan := List.filter (fun p => bool_decide (scan_tab p ∈ J)) plans.
Definition marks (J : list string) : list Z := (fun p => if bool_decide (scan_tab p ∈ J) then 1 else -1) <$> plans.

Lemma tab_inj (i j : nat) (p q : Plan) : plans !! i = Some p -> plans !! j = Some q -> scan_tab p = scan_tab q -> i = j.
Proof. intros Hi Hj E. apply (NoDup_lookup _ i j (scan_tab p) Hnd); rewrite list_lookup_fmap, ?Hi, ?Hj; simpl; by rewrite ?E. Qed.

Lemma chosen_extend (J : list string) (j : nat) (p : Plan) : plans !! j = Some p -> scan_tab p ∉ J -> chosen (J ++ [scan_tab p]) ≡ₚ p :: chosen J.
Proof.
  intros Hj HJ. unfold chosen. rewrite <- (take_drop_middle _ _ _ Hj). rewrite !List.filter_app. cbn [List.filter].
  rewrite (bool_decide_eq_true_2 (scan_tab p ∈ J ++ [scan_tab p])) by (rewrite elem_of_app, list_elem_of_singleton; auto). rewrite (bool_decide_eq_false_2 (scan_tab p ∈ J)) by done.
  assert (forall l, (forall q, q ∈ l -> scan_tab q <> scan_tab p) -> List.filter (fun q => bool_decide (scan_tab q ∈ J ++ [scan_tab p])) l = List.filter (fun q => bool_decide (scan_tab q ∈ J)) l) as E.
  { intros l Hl. apply List.filter_ext_in. intros q Hq%list_elem_of_In. apply Hl in Hq. apply bool_decide_ext. rewrite elem_of_app, list_elem_of_singleton. tauto. }
  rewrite !E, <- Permutation_middle; [done| |]; intros q (k & Hk)%list_elem_of_lookup Heq.
  - rewrite lookup_drop in Hk. pose proof (tab_inj _ _ _ _ Hk Hj Heq). lia.
  - apply lookup_take_Some in Hk as [Hk Hlt]. pose proof (tab_inj _ _ _ _ Hk Hj Heq). lia.
Qed.

Lemma marks_extend (J : list string) (j : nat) (p : Plan) : plans !! j = Some p -> <[j := 1]> (marks J) = marks (J ++ [scan_tab p]).
Proof.
  intros Hj. apply list_eq. intros k. unfold marks. destruct (decide (j = k)) as [<-|Hne].
  - rewrite list_lookup_insert_eq by (rewrite length_fmap; by eapply lookup_lt_Some). rewrite list_lookup_fmap, Hj. simpl. rewrite bool_decide_eq_true_2; [done|]. rewrite elem_of_app, list_elem_of_singleton. auto.
  - rewrite list_lookup_insert_ne by done. rewrite !list_lookup_fmap. destruct (plans !! k) as [q|] eqn:Hk; [|done]. simpl. f_equal.
    enough (bool_decide (scan_tab q ∈ J) = bool_decide (scan_tab q ∈ J ++ [scan_tab p])) as -> by done. apply bool_decide_ext. rewrite elem_of_app, list_elem_of_singleton. split; [auto|]. intros [?|E]; [done|]. by destruct (Hne (tab_inj _ _ _ _ Hj Hk (eq_sym E))).
Qed.

Lemma pop_scan_run (t : string) (s : JoinState) : t ∈ tabs ->
  exists j p, plans !! j = Some p /\ scan_tab p = t /\ pop_scan O t plans s = Ret (p, mkJS (<[j := 1]> (js_scantbl s)) (js_joined s ++ [t])).
Proof.
  clear Hplaced Hnd. assert (forall i, t ∈ tabs -> exists j p, plans !! j = Some p /\ scan_tab p = t /\ pop_scan i t plans s = Ret (p, mkJS (<[(i + j)%nat := 1]> (js_scantbl s)) (js_joined s ++ [t]))) as H; [|exact (H O)].
  induction Hscan as [|p ps Hp Hps IH]; intros i Ht; [by apply not_elem_of_nil in Ht|]. destruct p as [|tag t' cs conds len fed names| | | | | | |]; try done. cbn [pop_scan].
  destruct (decide (t' = t)) as [->|Hne].
  - rewrite bool_decide_eq_true_2 by done. exists O. rewrite Nat.add_0_r. eauto.
  - rewrite bool_decide_eq_false_2 by done. rewrite fmap_cons, elem_of_cons in Ht. destruct Ht as [Ht|Ht]; [by destruct Hne|]. destruct (IH Hps (S i) Ht) as (j & q & H1 & H2 & H3).
    exists (S j), q. rewrite Nat.add_succ_r. done.
Qed.

(** A state in which the tables [J] are joined. *)
Definition tracks (J : list string) (s : JoinState) : Prop := js_scantbl s = marks J /\ js_joined s = J.

Lemma take_table (t : string) (J : list string) (s : JoinState) : t ∈ tabs -> t ∉ J -> tracks J s ->
  exists p s', pop_scan O t plans s = Ret (p, s') /\ is_scan p = true /\ placed p /\ scan_tab p = t /\ tracks (J ++ [t]) s' /\ chosen (J ++ [t]) ≡ₚ p :: chosen J.
Proof.
  intros Ht HJ [T1 T2]. destruct (pop_scan_run t s Ht) as (j & p & Hj & <- & E). eexists p, _. split; [exact E|].
  split; [by eapply (Forall_lookup_1 _ _ _ _ Hscan)|]. split; [by eapply (Forall_lookup_1 _ _ _ _ Hplaced)|]. split; [done|]. split.
  - split; simpl; [rewrite T1; by apply marks_extend|by rewrite T2].
  - by eapply chosen_extend.
Qed.

Lemma need_scan_run (t : string) (J : list string) (s : JoinState) : t ∈ tabs -> tracks J s ->
  exists p s', need_scan t plans s = Ret (p, s') /\
    if bool_decide (t ∈ J) then p = NullPlan /\ s' = s
    else is_scan p = true /\ placed p /\ scan_tab p = t /\ tracks (J ++ [t]) s' /\ chosen (J ++ [t]) ≡ₚ p :: chosen J.
Proof.
  intros Ht T. unfold need_scan. pose proof T as [_ ->]. case_bool_decide as H; [eauto|]. by apply take_table.
Qed.

(** The tree joins the tables [J] and has placed the conditions [done]. *)
Record joining (J : list string) (placed_conds : list Condition) (tree : Plan) : Prop := {
  jn_leaves : leaves tree ≡ₚ chosen J;
  jn_placed : placed tree;
  jn_conds : exists cs, Forall2 same_cond placed_conds cs /\ joins tree ≡ₚ cs
}.

Lemma tree_tables (J : list string) (ds : list Condition) (tree : Plan) (t : string) : joining J ds tree -> t ∈ J -> t ∈ tabs -> t ∈ plan_tables tree.
Proof.
  intros [Hl _ _] HJ (p & -> & Hp)%list_elem_of_fmap. unfold plan_tables. apply list_elem_of_fmap. exists p. split; [done|]. rewrite Hl. apply In_filter. by rewrite bool_decide_eq_true_2.
Qed.
Lemma tree_nodup (J : list string) (ds : list Condition) (tree : Plan) : joining J ds tree -> NoDup (plan_tables tree).
Proof.
  intros [Hl _ _]. unfold plan_tables. rewrite Hl. unfold chosen. clear Hl Hscan Hplaced. induction plans as [|p ps IH]; [constructor|].
  rewrite fmap_cons in Hnd. apply NoDup_cons in Hnd as [Hp Hps]. cbn [List.filter]. case_bool_decide; [|by apply IH]. rewrite fmap_cons. constructor; [|by apply IH].
  intros (q & E & [Hq _]%In_filter)%list_elem_of_fmap. apply Hp. rewrite E. by apply list_elem_of_fmap_2.
Qed.

Lemma join_placed (l r : Plan) (cs : list Condition) : placed l -> placed r ->
  Forall (fun c => is_rhs_val c = false /\ tc_tab_name (lhs_col c) ∈ plan_tables l /\ tc_tab_name (rhs_col c) ∈ plan_tables r) cs -> placed (make_join_plan l r cs).
Proof. done. Qed.
Lemma scan_tables (p : Plan) : is_scan p = true -> plan_tables p = [scan_tab p].
Proof. by destruct p. Qed.

(** A further table in front of the tree, with at most one condition. *)
Lemma joining_one (J : list string) (ds : list Condition) (tree p : Plan) (c d : Condition) : joining J ds tree -> is_scan p = true -> placed p ->
  chosen (J ++ [scan_tab p]) ≡ₚ p :: chosen J -> same_cond c d -> is_rhs_val d = false -> tc_tab_name (lhs_col d) = scan_tab p -> tc_tab_name (rhs_col d) ∈ plan_tables tree ->
  joining (J ++ [scan_tab p]) (c :: ds) (make_join_plan p tree [d]).
Proof.
  intros [Hl Hp (cs & F & Hj)] Hs Hpp Hch Hcd Hv E1 E2. destruct (scan_leaves p Hs) as (L1 & L2 & _). split.
  - cbn [make_join_plan leaves]. by rewrite L1, Hch, Hl.
  - apply join_placed; [done..|]. apply Forall_singleton. rewrite (scan_tables p Hs), list_elem_of_singleton. done.
  - exists (d :: cs). split; [by constructor|]. cbn [make_join_plan joins]. by rewrite L2, Hj.
Qed.

Lemma join_cond_run (J : list string) (ds : list Condition) (tree : Plan) (s : JoinState) (c : Condition) : joining J ds tree -> tracks J s -> between tabs c ->
  exists tree' s' J', join_cond plans c tree s = Ret (tree', s') /\ joining J' (c :: ds) tree' /\ tracks J' s'.
Proof.
  intros Hj HT (Hv & Hl & Hr & Hne). unfold join_cond. destruct (need_scan_run _ J s Hl HT) as (l & s1 & -> & PL). cbn [mbind outcome_bind].
  destruct (decide (tc_tab_name (lhs_col c) ∈ J)) as [HlJ|HlJ]; [rewrite bool_decide_eq_true_2 in PL by done; destruct PL as [-> ->]|rewrite bool_decide_eq_false_2 in PL by done; destruct PL as (S1 & P1 & E1 & T1 & C1)].
  - pose proof HT as [_ HJ]. rewrite HJ. destruct (need_scan_run _ J s Hr HT) as (r & s2 & -> & PR). cbn [mbind outcome_bind].
    destruct (decide (tc_tab_name (rhs_col c) ∈ J)) as [HrJ|HrJ]; [rewrite bool_decide_eq_true_2 in PR by done; destruct PR as [-> ->]|rewrite bool_decide_eq_false_2 in PR |- * by done; destruct PR as (S2 & P2 & E2 & T2 & C2)].
    + cbn [is_null negb andb orb]. destruct (push_conds_run c tree (jn_placed _ _ _ Hj) (tree_nodup _ _ _ Hj) Hv Hne) as (tree' & Ep & Pp). rewrite Ep.
      assert (side c tree = 3) as Es. { unfold side, has. rewrite !bool_decide_eq_true_2 by (by apply (tree_tables J ds)). done. }
      rewrite Es in Pp. destruct Pp as (L & P & d & Sd & Jd). exists tree', s, J. split; [done|]. split; [|done]. destruct Hj as [Hl' Hp' (cs & F & Hcs)]. split; [by rewrite L|done|].
      exists (d :: cs). split; [by constructor|]. by rewrite Jd, Hcs.
    + destruct (scan_leaves r S2) as (_ & _ & Nr). rewrite Nr. cbn [is_null negb andb orb]. eexists _, s2, (J ++ [scan_tab r]). split; [done|]. split; [|rewrite E2; exact T2]. rewrite <- E2 in C2.
      apply joining_one; [done..|by right|done|by rewrite E2|]. by apply (tree_tables J ds).
  - destruct (scan_leaves l S1) as (L1 & L2 & N1). pose proof T1 as [_ HJ]. rewrite HJ. destruct (need_scan_run _ _ s1 Hr T1) as (r & s2 & -> & PR). cbn [mbind outcome_bind]. rewrite N1.
    destruct (decide (tc_tab_name (rhs_col c) ∈ J ++ [tc_tab_name (lhs_col c)])) as [HrJ|HrJ]; [rewrite bool_decide_eq_true_2 in PR |- * by done; destruct PR as [-> ->]|rewrite bool_decide_eq_false_2 in PR by done; destruct PR as (S2 & P2 & E2 & T2 & C2)].
    + cbn [is_null negb andb orb]. eexists _, s1, (J ++ [scan_tab l]). split; [done|]. split; [|rewrite E1; exact T1]. rewrite <- E1 in C1.
      apply joining_one; [done..|by left|done|done|]. apply (tree_tables J ds); [done| |done]. apply elem_of_app in HrJ as [?|?%list_elem_of_singleton]; [done|congruence].
    + destruct (scan_leaves r S2) as (R1 & R2 & N2). rewrite N2. cbn [negb andb orb]. eexists _, s2, _. split; [done|]. split; [|exact T2]. destruct Hj as [Hl' Hp' (cs & F & Hcs)]. split.
      * cbn [make_join_plan leaves]. rewrite L1, R1, C2, C1, Hl'. cbn [app]. apply perm_swap.
      * apply join_placed; [|done|constructor]. apply join_placed; [done..|]. apply Forall_singleton. by rewrite !scan_tables, !list_elem_of_singleton, E1, E2.
      * exists (c :: cs). split; [constructor; [by left|done]|]. cbn [make_join_plan joins]. by rewrite L2, R2, Hcs.
Qed.

Lemma join_conds_run (conds : list Condition) : forall J ds tree s, joining J ds tree -> tracks J s -> Forall (between tabs) conds ->
  exists tree' s' J' ds', join_conds plans conds tree s = Ret (tree', s') /\ joining J' ds' tree' /\ tracks J' s' /\ ds' ≡ₚ conds ++ ds.
Proof.
  induction conds as [|c conds IH]; intros J ds tree s Hj HT Hc; cbn [join_conds]; [eauto 10|]. apply Forall_cons in Hc as [Hc Hcs].
  destruct (join_cond_run J ds tree s c Hj HT Hc) as (tree1 & s1 & J1 & -> & Hj1 & HT1). cbn [mbind outcome_bind].
  destruct (IH J1 _ tree1 s1 Hj1 HT1 Hcs) as (tree2 & s2 & J2 & ds2 & E & Hj2 & HT2 & Hp). exists tree2, s2, J2, ds2. split_and!; [done..|]. rewrite Hp. cbn [app]. by rewrite <- Permutation_middle.
Qed.

Lemma join_rest_run (ps : list Plan) : forall (st : list Z) (tree : Plan), Forall (fun p => is_scan p = true) ps -> Forall placed ps -> placed tree -> length st = length ps ->
  leaves (join_rest ps st tree) ≡ₚ leaves tree ++ (List.filter (fun x => x.2 =? -1) (zip ps st)).*1 /\ joins (join_rest ps st tree) = joins tree /\ placed (join_rest ps st tree).
Proof.
  induction ps as [|p ps IH]; intros [|b st] tree S P T E; try done; cbn [join_rest zip_with].
  - by rewrite app_nil_r.
  - apply Forall_cons in S as [Sp S]. apply Forall_cons in P as [Pp P]. injection E as E. destruct (scan_leaves p Sp) as (L1 & L2 & _). cbn [List.filter snd]. destruct (b =? -1).
    + destruct (IH st (make_join_plan p tree []) S P) as (A & B & C); [by apply join_placed|done|]. rewrite A, B. cbn [make_join_plan leaves joins fmap list_fmap]. rewrite L1, L2. cbn [app fst].
      split_and!; [by rewrite <- Permutation_middle|done|done].
    + by apply IH.
Qed.

(** All tables, after the remaining ones have been joined. *)
Lemma finish (J : list string) (ds : list Condition) (tree : Plan) : joining J ds tree ->
  let p := join_rest plans (marks J) tree in leaves p ≡ₚ plans /\ placed p /\ exists cs, Forall2 same_cond ds cs /\ joins p ≡ₚ cs.
Proof.
  intros [Hl Hp Hc]. destruct (join_rest_run plans (marks J) tree) as (A & B & C); [done..|by unfold marks; rewrite length_fmap|]. cbv zeta. rewrite A, B, Hl. split_and!; [|done|done].
  rewrite <- (partition_perm (fun p => bool_decide (scan_tab p ∈ J)) plans) at 2. unfold chosen. f_equiv. unfold marks. clear. induction plans as [|p ps IH]; [done|].
  cbn [fmap list_fmap zip_with List.filter snd]. destruct (bool_decide (scan_tab p ∈ J)); [done|]. change (-1 =? -1) with true. cbn [negb fmap list_fmap fst]. by rewrite IH.
Qed.

End joining.

(** ** The relation of a query *)

Lemma no_tables_joined (plans : list Plan) (n : nat) : Forall (fun p => scan_tab p <> ""%string) plans ->
  chosen plans (replicate n ""%string) = [] /\ marks plans (replicate n ""%string) = replicate (length plans) (-1).
Proof.
  intros H. unfold chosen, marks. induction H as [|p ps Hp H [IH1 IH2]]; [done|]. cbn [List.filter fmap list_fmap length replicate].
  rewrite bool_decide_eq_false_2 by (by intros [? _]%elem_of_replicate). split; [done|]. f_equal. apply IH2.
Qed.

(** The first join covers the tables of the first condition. *)
Lemma first_join_run (plans : list Plan) (c : Condition) (conds : list Condition) (n : nat) : Forall (fun p => is_scan p = true) plans -> Forall placed plans ->
  NoDup (scan_tab <$> plans) -> Forall (fun p => scan_tab p <> ""%string) plans -> between (scan_tab <$> plans) c ->
  exists tree s J, first_join plans (c :: conds) (mkJS (replicate (length plans) (-1)) (replicate n "")) = Ret (tree, s, conds) /\ joining plans J [c] tree /\ tracks plans J s.
Proof.
  intros S P N Hne (Hv & Hl & Hr & Hd). destruct (no_tables_joined plans n Hne) as [Z1 Z2]. set (J := replicate n ""%string) in *.
  assert (forall t, t ∈ scan_tab <$> plans -> t ∉ J) as HJ. { intros t (p & -> & Hp)%list_elem_of_fmap [E _]%elem_of_replicate. rewrite Forall_forall in Hne. by apply (Hne p). }
  destruct (take_table plans S P N _ J (mkJS (replicate (length plans) (-1)) J) Hl (HJ _ Hl)) as (l & s1 & E1 & S1 & P1 & T1 & R1 & C1); [by split|].
  destruct (take_table plans S P N _ (J ++ [tc_tab_name (lhs_col c)]) s1 Hr) as (r & s2 & E2 & S2 & P2 & T2 & R2 & C2); [rewrite elem_of_app, list_elem_of_singleton; intros [H|H]; [by apply (HJ _ Hr)|congruence]|done|].
  cbn [first_join]. rewrite E1. cbn [mbind outcome_bind]. rewrite E2. cbn [mbind outcome_bind]. eexists _, s2, _. split; [done|]. split; [|exact R2].
  destruct (scan_leaves l S1) as (L1 & L2 & _), (scan_leaves r S2) as (L3 & L4 & _). split.
  - cbn [make_join_plan leaves]. rewrite L1, L3, C2, C1, Z1. apply perm_swap.
  - apply join_placed; [done..|]. apply Forall_singleton. by rewrite !scan_tables, !list_elem_of_singleton, T1, T2.
  - exists [c]. split; [constructor; [by left|constructor]|]. cbn [make_join_plan joins]. by rewrite L2, L4.
Qed.

(** What a plan for the tables [tables] and conditions [conds] must be. *)
Definition implements (tables : list string) (conds : list Condition) (p : Plan) : Prop :=
  plan_tables p ≡ₚ tables /\ placed p /\ exists ds cs, ds ≡ₚ conds /\ Forall2 same_cond ds cs /\ plan_conds p ≡ₚ cs.

Lemma filter_ext_perm {A} (f g : A -> bool) (l k : list A) : (forall x, f x = g x) -> l ≡ₚ k -> List.filter f l ≡ₚ List.filter g k.
Proof.
  intros E. induction 1 as [|x l k H IH|x y l|l k h H1 IH1 H2 IH2]; cbn [List.filter].
  - done.
  - rewrite E. by destruct (g x); rewrite IH.
  - rewrite !E. rewrite (List.filter_ext f g E). destruct (g x), (g y); try done. apply perm_swap.
  - etrans; [exact IH1|]. rewrite <- (List.filter_ext f g E k). exact IH2.
Qed.

(** A plan whose conditions are where their columns are has the rows of the query. *)
Lemma implements_rows (D : string -> list Row) (tables : list string) (conds : list Condition) (p : Plan) : NoDup tables -> implements tables conds p -> at_home p ->
  plan_rows D p ≡ₚ statement_rows D tables conds.
Proof.
  intros N (Ht & Hp & ds & cs & Hd & F & Hc) Hh. assert (NoDup (plan_tables p)) as N' by (by rewrite Ht). rewrite (plan_rows_run D p Hp Hh N'). unfold statement_rows.
  apply filter_ext_perm; [|by apply product_perm]. intros m. rewrite (where_perm _ _ m Hc), (where_same _ _ m F). by apply where_perm.
Qed.

Lemma same_refl (l : list Condition) : Forall2 same_cond l l.
Proof. induction l; constructor; [by left|done]. Qed.

Lemma implements_intro (plans : list Plan) (tables : list string) (conds rest ds cs : list Condition) (p : Plan) : scan_tab <$> plans = tables ->
  concat (scan_conds <$> plans) ++ rest ≡ₚ conds -> ds ≡ₚ rest -> leaves p ≡ₚ plans -> placed p -> Forall2 same_cond ds cs -> joins p ≡ₚ cs -> implements tables conds p.
Proof.
  intros <- Hc Hd Hl Hp F Hj. split; [unfold plan_tables; by rewrite Hl|]. split; [done|]. exists (concat (scan_conds <$> plans) ++ ds), (concat (scan_conds <$> plans) ++ cs).
  split; [by rewrite Hd|]. split; [apply Forall2_app; [apply same_refl|done]|]. unfold plan_conds. rewrite Hj. f_equiv. clear -Hl. induction Hl; simpl; [done|by f_equiv| |by etrans].
  rewrite !app_assoc. f_equiv. apply Permutation_app_comm.
Qed.

(** Which conditions of a plan over the tables [tables] its scans have. *)
Definition scanned (tables : list string) (conds : list Condition) (p : Plan) : Prop :=
  exists plans, leaves p ≡ₚ plans /\ scan_tab <$> plans = tables /\
    (forall s, head plans = Some s -> scan_conds s = List.filter (scan_takes (scan_tab s)) conds) /\
    (forall s c, s ∈ tail plans -> c ∈ scan_conds s -> tc_tab_name (lhs_col c) = scan_tab s /\ is_rhs_val c = true).

Lemma scans_placed (plans : list Plan) : Forall (fun p => is_scan p = true) plans -> Forall placed plans.
Proof. intros F. eapply Forall_impl; [exact F|]. by intros []. Qed.

Lemma make_one_rel_run (db : DbMeta) (q : Query) : q_tables q <> [] -> NoDup (q_tables q) -> Forall (scannable db) (q_tables q) -> Forall (plannable (q_tables q)) (q_conds q) ->
  exists p q', make_one_rel db q = Ret (p, q') /\ q_tables q' = q_tables q /\ parse q' = parse q /\ implements (q_tables q) (q_conds q) p /\ scanned (q_tables q) (q_conds q) p.
Proof.
  intros Ht Hn Hs Hc. rewrite Forall_forall in Hc. unfold make_one_rel.
  destruct (table_scans_run db (q_tables q) (q_conds q) Hs) as (plans & rest & -> & E & S & Hp & Hr & Hh1 & Hh2). pose proof (scans_placed plans S) as P.
  assert (forall p, leaves p ≡ₚ plans -> scanned (q_tables q) (q_conds q) p) as Hscanned by (intros p Hp'; by exists plans).
  assert (Forall (between (scan_tab <$> plans)) rest) as Hb.
  { rewrite E. apply Forall_forall. intros c Hin. destruct (Hr c Hin) as (Hin' & Hv & Hd). destruct (Hc c Hin') as [H1 H2]. destruct (is_rhs_val c) eqn:Ev; [by destruct (Hv eq_refl H1)|]. unfold between. split_and!; [done|done|apply H2|by apply Hd]. }
  assert (Forall (fun p => scan_tab p <> ""%string) plans) as Hne. { assert (Forall (fun t => t <> ""%string) (scan_tab <$> plans)) as H; [|apply (proj1 (Forall_fmap scan_tab (fun t => t <> ""%string) plans)) in H; exact H]. rewrite E. eapply Forall_impl; [exact Hs|]. by intros t [? _]. }
  assert (length plans = length (q_tables q)) as Hlen by (rewrite <- E; by rewrite length_fmap). rewrite <- E in Hn. cbn [mbind outcome_bind].
  destruct (Nat.eqb_spec (length (q_tables q)) 1) as [E1|E1].
  - destruct plans as [|p [|p' plans]]; simpl in Hlen; try lia. assert (rest = []) as ->.
    { destruct rest as [|c rest]; [done|]. apply Forall_cons in Hb as [(_ & H1 & H2 & H3) _]. apply list_elem_of_singleton in H1, H2. congruence. }
    destruct (scan_leaves p) as (L1 & L2 & _); [by inversion S|]. cbn [head or_stuck mbind outcome_bind]. eexists p, _. split_and!; [done..| |apply Hscanned; by rewrite L1].
    apply (implements_intro [p] _ _ [] [] []); try done; [by rewrite L1|by inversion P|by rewrite L2].
  - rewrite <- Hlen. destruct rest as [|c rest].
    + destruct plans as [|p plans]; [by destruct (q_tables q)|]. cbn [first_join head or_stuck mbind outcome_bind join_conds js_scantbl]. eexists _, _. split; [done|]. split; [done|]. split; [done|].
      pose proof S as S'. pose proof P as P'. apply Forall_cons in S as [S1 S]. apply Forall_cons in P as [P1 P]. change (<[O := 1]> (replicate (length (p :: plans)) (-1))) with (1 :: replicate (length plans) (-1)). cbn [join_rest]. change (1 =? -1) with false. cbv iota.
      destruct (join_rest_run plans (replicate (length plans) (-1)) p S P P1) as (A & B & C); [by rewrite length_replicate|]. destruct (scan_leaves p S1) as (L1 & L2 & _).
      enough (leaves (join_rest plans (replicate (length plans) (-1)) p) ≡ₚ p :: plans) as Hall.
      { split; [|by apply Hscanned]. apply (implements_intro (p :: plans) _ _ [] [] []); try done. by rewrite B, L2. }
      rewrite A, L1. cbn [app]. f_equiv. clear. induction plans as [|x l IH]; [done|]. cbn [length replicate zip_with List.filter snd].
      change (-1 =? -1) with true. cbn [fmap list_fmap fst]. by f_equiv.
    + apply Forall_cons in Hb as [Hb Hbs]. destruct (first_join_run plans c rest (length plans) S P Hn Hne Hb) as (tree & s & J & -> & Hj & HT). cbn [mbind outcome_bind].
      destruct (join_conds_run plans S P Hn rest J [c] tree s Hj HT Hbs) as (tree2 & s2 & J2 & ds & -> & Hj2 & [HT2 _] & Hds). cbn [mbind outcome_bind]. rewrite HT2. eexists _, _. split; [done|]. split; [done|]. split; [done|].
      destruct (finish plans S P J2 ds tree2 Hj2) as (F1 & F2 & cs & F3 & F4). split; [|by apply Hscanned]. apply (implements_intro plans _ _ (c :: rest) ds cs); try done. rewrite Hds. by rewrite <- Permutation_cons_append.
Qed.

(** ** From the statement to the plan *)

Lemma column_table (db : DbMeta) (tables : list string) (all : list ColMeta) (c : ColMeta) : AnalyzeSpec.db_ok db -> AnalyzeSpec.columns_of db tables = Some all -> c ∈ all -> cm_tab_name c ∈ tables.
Proof.
  intros Hdb. unfold AnalyzeSpec.columns_of. revert all. induction tables as [|t tables IH]; intros all; simpl; [intros [= <-] []%not_elem_of_nil|].
  destruct (tabs_ db !! t) as [tab|] eqn:E; simpl; [|done]. destruct (mapM _ tables) as [cs|]; simpl; [|done]. intros [= <-] Hin. cbn [concat] in Hin. apply elem_of_cons. apply elem_of_app in Hin as [Hin|Hin]; [|by right; apply (IH _ eq_refl)].
  left. destruct (Hdb _ _ E) as [_ F]. rewrite Forall_forall in F. by apply F.
Qed.

Lemma denotes_table (db : DbMeta) (tables : list string) (all : list ColMeta) (t r : TabCol) : AnalyzeSpec.db_ok db -> AnalyzeSpec.columns_of db tables = Some all ->
  AnalyzeSpec.denotes all t r -> tc_tab_name r ∈ tables.
Proof.
  intros Hdb Hall. unfold AnalyzeSpec.denotes. destruct (bool_decide _).
  - intros (c & Hc & ->). simpl. apply (column_table db _ all); [done..|]. apply (In_filter (AnalyzeSpec.named (tc_col_name t))). rewrite Hc. apply list_elem_of_singleton. done.
  - intros (-> & c & Hin & <- & _). by apply (column_table db _ all).
Qed.

(** The analyzer's conditions are plannable. *)
Lemma analyzed_plannable (g : Z) (g8 : list Z) (db : DbMeta) (x : Ast.SelectStmt) (q : Query) : AnalyzeSpec.db_ok db -> AnalyzeSpec.select_denotes g g8 db x q -> Forall (plannable (Ast.ss_tabs x)) (q_conds q).
Proof.
  intros Hdb (all & Hall & _ & _ & F & _). rewrite Forall_forall. intros c Hin. apply list_elem_of_lookup in Hin as (k & Hk). apply (Forall2_lookup_r _ _ _ _ _ F) in Hk as (e & He & (D1 & _ & lc & _ & D2)).
  split; [by eapply denotes_table|]. destruct (Ast.be_rhs e).
  - destruct D2 as (-> & -> & _). done.
  - destruct D2 as (-> & D3 & _). by eapply denotes_table.
Qed.

(** A comparison inside one table is about the first table. *)
Definition inner_first (tables : list string) (c : Condition) : Prop :=
  is_rhs_val c = false -> tc_tab_name (lhs_col c) = tc_tab_name (rhs_col c) -> head tables = Some (tc_tab_name (lhs_col c)).

Lemma scanned_home (tables : list string) (conds : list Condition) (p : Plan) : Forall (fun t => t <> ""%string) tables -> Forall (plannable tables) conds -> Forall (inner_first tables) conds -> scanned tables conds p -> at_home p.
Proof.
  intros Hne Hc Hi (plans & Hl & <- & H1 & H2). unfold at_home. rewrite Hl. destruct plans as [|s plans]; [constructor|]. apply Forall_cons. split.
  - specialize (H1 s eq_refl). rewrite H1. apply Forall_forall. intros c [Hin Ht]%In_filter. rewrite Forall_forall in Hc, Hi. destruct (Hc c Hin) as [P1 P2]. specialize (Hi c Hin). unfold inner_first in Hi. rewrite fmap_cons in Hi. cbn [head] in Hi.
    unfold scan_takes in Ht. apply orb_prop in Ht as [[E1%bool_decide_eq_true E2]%andb_prop|E%bool_decide_eq_true]; [by auto|]. destruct (is_rhs_val c) eqn:Ev.
    + rewrite Forall_forall in Hne. destruct (Hne _ P1). by rewrite E.
    + specialize (Hi eq_refl E). injection Hi as Hi. rewrite <- Hi in *. auto.
  - apply Forall_forall. intros s' Hs'. apply Forall_forall. intros c Hin. destruct (H2 s' c Hs' Hin). auto.
Qed.

(** A comparison inside a table ends up at the scan of the first one. *)
Lemma scanned_inner (tables : list string) (conds : list Condition) (p : Plan) (c : Condition) : tables <> [] -> scanned tables conds p -> c ∈ conds -> tc_tab_name (lhs_col c) = tc_tab_name (rhs_col c) ->
  exists s, s ∈ leaves p /\ head tables = Some (scan_tab s) /\ c ∈ scan_conds s.
Proof.
  intros Hne (plans & Hl & <- & H1 & _) Hin E. destruct plans as [|s plans]; [done|]. exists s. split; [rewrite Hl; by left|]. split; [done|]. rewrite (H1 s eq_refl). apply In_filter. split; [done|].
  unfold scan_takes. by rewrite (bool_decide_eq_true_2 _ E), orb_true_r.
Qed.

(** ** Sorting *)

(** A sort key for an order column: the column it denotes, and the direction. *)
Definition order_denotes (all : list ColMeta) (o : Ast.OrderBy) (k : TabCol * bool) : Prop := AnalyzeSpec.denotes all (tab_col (Ast.ob_col o)) k.1 /\ k.2 = is_desc o.

Lemma order_col_run (all : list ColMeta) (os : list Ast.OrderBy) (ks : list (TabCol * bool)) : Forall (fun c => cm_tab_name c <> ""%string) all ->
  over (order_col all) os = Ret ks <-> Forall2 (order_denotes all) os ks.
Proof.
  intros H. apply AnalyzeSpec.over_run. intros o k. unfold order_col, order_denotes. rewrite obind_Ret. split.
  - intros (c & Hc & [= <-]). by apply AnalyzeSpec.check_column_exact in Hc.
  - intros [Hc Hk]. exists k.1. split; [by apply AnalyzeSpec.check_column_exact|]. rewrite <- Hk. by destruct k.
Qed.

(** What the second loop adds is among the keys already. *)
Lemma order_again_sub (all : list ColMeta) (os : list Ast.OrderBy) (ks : list (TabCol * bool)) : Forall2 (order_denotes all) os ks -> concat (order_again os <$> all) ⊆ ks.
Proof.
  intros F k Hk. apply list_elem_of_In, in_concat in Hk as (l & Hl & Hk). apply list_elem_of_In in Hl, Hk. apply list_elem_of_fmap in Hl as (c & -> & Hc). unfold order_again in Hk. apply list_elem_of_omap in Hk as (o & Ho & E).
  destruct (_ && _) eqn:B in E; [|done]. injection E as <-. apply andb_prop in B as [B1 B2%bool_decide_eq_true]. apply list_elem_of_lookup in Ho as (i & Hi). destruct (Forall2_lookup_l _ _ _ _ _ F Hi) as ([kc kd] & Hk & D & Hd). cbn [fst snd] in *.
  enough (kc = mkTabCol (cm_tab_name c) (cm_name c)) as <- by (rewrite <- Hd; by eapply list_elem_of_lookup_2). unfold AnalyzeSpec.denotes, tab_col in D. cbn [tc_tab_name tc_col_name] in D.
  destruct (bool_decide (Ast.c_tab_name (Ast.ob_col o) = "")) eqn:Eb.
  - destruct D as (c' & Hf & ->). assert (c ∈ [c']) as ->%list_elem_of_singleton by (rewrite <- Hf; apply In_filter; split; [done|]; unfold AnalyzeSpec.named; by apply bool_decide_eq_true). by rewrite B2.
  - destruct D as [-> _]. apply bool_decide_eq_true in B1. by rewrite B1, B2.
Qed.

(** The plan of the statement around the tree [p]. *)
Definition select_top (x : Ast.SelectStmt) (q : Query) (p : Plan) : Plan :=
  DMLPlan (select_tag (Ast.aggregate_type x)) (ProjectionPlan T_Projection p (q_cols q)) "" [] [] [] (Ast.ss_alias x) (q_is_all q).

Lemma plan_sorted (db : DbMeta) (x : Ast.SelectStmt) (q q' : Query) (p : Plan) (all : list ColMeta) : AnalyzeSpec.db_ok db -> AnalyzeSpec.columns_of db (q_tables q) = Some all ->
  parse q = Ast.Select (Ast.move_tabs x) -> make_one_rel db q = Ret (p, q') -> q_tables q' = q_tables q -> parse q' = parse q ->
  if Ast.has_sort x then
    match plan_query db q with
    | Ret plan => exists keys more, Forall2 (order_denotes all) (Ast.orders x) keys /\ more ⊆ keys /\ plan = select_top x q (SortPlan T_Sort p (keys ++ more) (Ast.ss_limit x))
    | _ => ~ exists keys, Forall2 (order_denotes all) (Ast.orders x) keys
    end
  else plan_query db q = Ret (select_top x q p).
Proof.
  intros Hdb Hall Eparse E Et Ep. pose proof (AnalyzeSpec.columns_named db _ all Hdb Hall) as Hn.
  unfold plan_query, do_planner, generate_select_plan, logical_optimization, physical_optimization. rewrite Eparse, E. cbn [mbind outcome_bind]. unfold generate_sort_plan, select_of. rewrite Ep, Eparse. cbn [mbind outcome_bind].
  change (Ast.has_sort (Ast.move_tabs x)) with (Ast.has_sort x). destruct (Ast.has_sort x); [|done]. cbn [negb]. rewrite Et, (proj2 (AnalyzeSpec.get_all_cols_run _ _ _) Hall). cbn [mbind outcome_bind].
  change (Ast.orders (Ast.move_tabs x)) with (Ast.orders x). pose proof (fun ks => order_col_run all (Ast.orders x) ks Hn) as Ho.
  destruct (over (order_col all) (Ast.orders x)) as [ks|e|w]; cbn [mbind outcome_bind]; [|by intros [ks F%Ho]..].
  exists ks, (concat (order_again (Ast.orders x) <$> all)). pose proof (proj1 (Ho ks) eq_refl) as F. split_and!; [done|by apply order_again_sub|done].
Qed.

(** C30: a select statement and its plan have the same rows.  For a statement over
    distinct tables that the analyzer accepts, the planner builds a tree of joins
    [p] that scans every table once and has every condition once, perhaps with its
    sides exchanged.  If every comparison between two columns of the same table is
    on the first table, then whatever rows the tables hold, the rows of [p] are
    those combinations of one row of each table that satisfy the conditions, each
    as often; scans are read alike with and without an index.  A comparison inside
    another table is given to the scan of the first one, which does not have its
    columns.  The plan of the statement is the projection of [p], and with
    [order by] that of a sort of [p] by the columns the names denote, to which some
    of them are added once more; it is refused exactly when one of them denotes
    none. *)
Theorem select_plan_correct (g : Z) (g8 : list Z) (db : DbMeta) (x : Ast.SelectStmt) (q : Query) : AnalyzeSpec.db_ok db ->
  do_analyze g g8 db (Ast.Select x) = Ret q -> Ast.ss_tabs x <> [] -> NoDup (Ast.ss_tabs x) -> Forall (scannable db) (Ast.ss_tabs x) ->
  exists p all, AnalyzeSpec.columns_of db (Ast.ss_tabs x) = Some all /\ implements (Ast.ss_tabs x) (q_conds q) p /\
    (Forall (inner_first (Ast.ss_tabs x)) (q_conds q) -> forall D, plan_rows D p ≡ₚ statement_rows D (Ast.ss_tabs x) (q_conds q)) /\
    (forall c, c ∈ q_conds q -> is_rhs_val c = false -> tc_tab_name (lhs_col c) = tc_tab_name (rhs_col c) ->
      exists s, s ∈ leaves p /\ head (Ast.ss_tabs x) = Some (scan_tab s) /\ c ∈ scan_conds s) /\
    if Ast.has_sort x then
      match plan_query db q with
      | Ret plan => exists keys more, Forall2 (order_denotes all) (Ast.orders x) keys /\ more ⊆ keys /\ plan = select_top x q (SortPlan T_Sort p (keys ++ more) (Ast.ss_limit x))
      | _ => ~ exists keys, Forall2 (order_denotes all) (Ast.orders x) keys
      end
    else plan_query db q = Ret (select_top x q p).
Proof.
  intros Hdb Ha Ht Hn Hs. apply (AnalyzeSpec.analyzed g g8 db x q Hdb) in Ha. pose proof (analyzed_plannable g g8 db x q Hdb Ha) as Hp.
  destruct Ha as (all & Hall & _ & _ & _ & Eq). assert (q_tables q = Ast.ss_tabs x) as Et by (by rewrite Eq). assert (parse q = Ast.Select (Ast.move_tabs x)) as Eparse by (by rewrite Eq).
  rewrite <- Et in *. destruct (make_one_rel_run db q Ht Hn Hs Hp) as (p & q' & E & Et' & Ep & I & Sc). exists p, all. split; [done|]. split; [done|]. split; [|split].
  - intros Hi D. apply implements_rows; [done..|]. apply (scanned_home (q_tables q) (q_conds q)); try done. eapply Forall_impl; [exact Hs|]. by intros t [? _].
  - intros c Hc _ Hsame. by apply (scanned_inner _ (q_conds q)).
  - by apply (plan_sorted db x q q' p all).
Qed.

End PlannerSpec.

Module PlannerDemo.
Import AnalyzeSpec AnalyzeDemo PlannerSpec.

Lemma two_scannable : Forall (scannable two) ["r"%string; "s"%string].
Proof.
  apply Forall_cons; split; [|apply Forall_singleton]; (split; [discriminate|]).
  - exists (mkTab "r" [col "r" "a" 0; col "r" "b" 4] []), (col "r" "b" 4). split_and!; reflexivity.
  - exists (mkTab "s" [col "s" "c" 0; col "s" "d" 4] []), (col "s" "d" 4). split_and!; reflexivity.
Qed.

(** [select a, s.d from r, s where c = b and a > 1 order by d desc] *)
Definition sorted_stmt : Ast.SelectStmt :=
  Ast.order_select (Ast.ss_cols stmt) (Ast.ss_tabs stmt) (Ast.ss_conds stmt) [Ast.mkOrderBy (Ast.mkAstCol "" "d") Ast.OrderBy_DESC] (-1).
Definition sorted_query : Query := match do_analyze 0 zeros two (Ast.Select sorted_stmt) with Ret q => q | _ => query end.

Definition two_r : TabMeta := mkTab "r" [col "r" "a" 0; col "r" "b" 4] [].
Definition two_s : TabMeta := mkTab "s" [col "s" "c" 0; col "s" "d" 4] [].

(** Two rows in [r], two in [s]: one combination satisfies the conditions. *)
Definition row2 (c d : string) (x y : Z) : Row := fun n => if String.eqb n c then ValuesSpec.SInt x else ValuesSpec.SInt y.
Definition data (t : string) : list Row := if String.eqb t "r" then [row2 "a" "b" 1 7; row2 "a" "b" 2 8] else [row2 "c" "d" 7 10; row2 "c" "d" 8 20].

Lemma select_plan_correct_witness : exists p, implements ["r"%string; "s"%string] (q_conds sorted_query) p /\
  plan_rows data p = [<["r"%string := row2 "a" "b" 2 8]> {["s"%string := row2 "c" "d" 8 20]}] /\
  exists keys more, keys = [(mkTabCol "s" "d", true)] /\ more ⊆ keys /\ plan_query two sorted_query = Ret (select_top sorted_stmt sorted_query (SortPlan T_Sort p (keys ++ more) (-1))).
Proof.
  destruct (select_plan_correct 0 zeros two sorted_stmt sorted_query two_ok) as (p & all & Hall & I & Hrows & _ & Hsort).
  - vm_compute. reflexivity.
  - discriminate.
  - apply NoDup_cons; split; [by intros ?%list_elem_of_singleton|apply NoDup_singleton].
  - exact two_scannable.
  - exists p. split; [exact I|]. split.
    + apply Permutation_singleton_r. rewrite Hrows; [vm_compute; reflexivity|]. vm_compute. apply Forall_cons; split; [intros _ H; discriminate H|]. apply Forall_cons; split; [intros H; discriminate H|constructor].
    + change (Ast.has_sort sorted_stmt) with true in Hsort. cbv iota in Hsort. assert (exists plan, plan_query two sorted_query = Ret plan) as [plan E] by (eexists; vm_compute; reflexivity).
      rewrite E in Hsort |- *. destruct Hsort as (keys & more & F & Hm & ->). exists keys, more. split; [|done]. assert (Some all = Some (tm_cols two_r ++ tm_cols two_s)) as [= ->] by (rewrite <- Hall; reflexivity).
      apply Forall2_cons_inv_l in F as ([k b] & ks & [D Hb] & ->%Forall2_nil_inv_l & ->). cbn [fst snd] in *. rewrite Hb. destruct D as (c & Hc & ->). by injection Hc as <-.
Defined.

(** ** Runs *)

(** [select * from r, s where s.c = s.d]: the scan of [r], the first table, takes
    the condition on [s], and cannot find its columns. *)
Definition inner : Ast.SelectStmt :=
  Ast.order_select [] ["r"%string; "s"%string] [Ast.mkBinary (Ast.mkAstCol "s" "c") Ast.SV_OP_EQ (Ast.ColExpr (Ast.mkAstCol "s" "d"))] [] (-1).
Definition inner_plan : Plan :=
  match (q ← do_analyze 0 zeros two (Ast.Select inner); make_one_rel two q) with Ret p => p.1 | _ => NullPlan end.
Lemma inner_cond_misplaced : plan_tables inner_plan = ["s"%string; "r"%string] /\ (fun p => length (scan_conds p)) <$> leaves inner_plan = [0; 1]%nat /\
  (fun p => checkConds zeros zeros (scan_conds p) (tm_cols (default (mkTab "" [] []) (tabs_ two !! scan_tab p)))) <$> leaves inner_plan = [Ret true; Stuck OutOfBounds].
Proof. vm_compute. done. Qed.

(** An index that does not have the column of a condition hides the ones behind it. *)
Definition indexed : DbMeta :=
  mkDb "db" {["r"%string := mkTab "r" [col "r" "a" 0; col "r" "b" 4] [mkIndex "r" 4 1 [col "r" "a" 0]; mkIndex "r" 4 1 [col "r" "b" 4]]]}.
Definition on_b : Condition := mkCond (mkTabCol "r" "b") OP_EQ true (mkTabCol "" "") (set_int 1 (blank zeros TYPE_INT)).
Lemma second_index_hidden : get_index_cols indexed "r" [on_b] = Ret (false, []).
Proof. vm_compute. done. Qed.

(** With the indexes [(a)] and [(a, b)], conditions on both columns choose the
    columns of the first one followed by those of the second, which is no index:
    the executor of the plan is refused. *)
Definition indexed_twice : DbMeta :=
  mkDb "db" {["r"%string := mkTab "r" [col "r" "a" 0; col "r" "b" 4] [mkIndex "r" 4 1 [col "r" "a" 0]; mkIndex "r" 8 2 [col "r" "a" 0; col "r" "b" 4]]]}.
Definition on_a : Condition := mkCond (mkTabCol "r" "a") OP_EQ true (mkTabCol "" "") (set_int 1 (blank zeros TYPE_INT)).
Lemma index_columns_doubled : get_index_cols indexed_twice "r" [on_a; on_b] = Ret (true, ["a"%string; "a"%string; "b"%string]) /\
  (tab ← get_table "r" indexed_twice; get_index_meta ["a"%string; "a"%string; "b"%string] tab) = Throw (IndexNotFoundError "r" ["a"%string; "a"%string; "b"%string]).
Proof. vm_compute. done. Qed.

End PlannerDemo.
