(* ===== verification/IndexScan.v ===== *)
(** * The index scan ([src/src/execution/executor_index_scan.h])

    The conditions give a range of keys; the scan walks the index through that
    range, reads each record from the table and checks all conditions again. *)

From S2P Require Import Prelude Bytes Posix Disk Replacer BufferPool BufferPoolFacts BufferPoolSpec PagePool Txn Lock Log RmFile IxDefs IxNode IxIndex Values SmMeta Managers Engine Executors Ast Analyze Planner.
Import Engine PoolInstance.

(** ** The key range *)

Section range.
Context (g : Z).    (* what fresh memory holds *)
Abbreviation g8 := (replicate 8 g).

(** The bits of [__FLT_MAX__] and of its negation. *)
Definition FLT_MAX_BITS : Z := 255 * 2 ^ 23 - 1.
Definition NEG_FLT_MAX_BITS : Z := 2 ^ 31 + FLT_MAX_BITS.

(** The widest range of a column: the minimum and the maximum. *)
Definition full_range (c : ColMeta) : outcome (Value * Value) :=
  let v := blank g8 (cm_type c) in
  let len := cm_len c in
  let both (lo hi : Value) : outcome (Value * Value) := hi ← init_raw g len hi; lo ← init_raw g len lo; Ret (lo, hi) in
  match cm_type c with
  | TYPE_INT => both (set_int INT32_MIN v) (set_int INT32_MAX v)
  | TYPE_FLOAT => both (set_float NEG_FLT_MAX_BITS v) (set_float FLT_MAX_BITS v)
  | TYPE_STRING => both (set_str (replicate (Z.to_nat len) 0) v) (set_str (replicate (Z.to_nat len) 255) v)
  | TYPE_DATETIME => both (set_datetime (bytes_of_string "1000-01-01 00:00:00") v) (set_datetime (bytes_of_string "9999-12-31 23:59:59") v)
  | TYPE_BIGINT => Throw InvalidTypeError
  end.

(** [if (binop(OP_GT, v, tem_min)) tem_min = v] and its counterpart. *)
Definition raise_min (v lo : Value) : outcome Value := b ← binop OP_GT v lo; Ret (if (b : bool) then v else lo).
Definition lower_max (v hi : Value) : outcome Value := b ← binop OP_LT v hi; Ret (if (b : bool) then v else hi).

(** One condition; [is_last]: the columns behind get their widest range. *)
Definition narrow (c : ColMeta) (cond : Condition) (s : bool * Value * Value) : outcome (bool * Value * Value) :=
  let '(is_last, lo, hi) := s in
  if bool_decide (tc_col_name (lhs_col cond) = cm_name c) && is_rhs_val cond then
    let v := rhs_val cond in
    match c_op cond with
    | OP_EQ => lo ← raise_min v lo; hi ← lower_max v hi; Ret (is_last, lo, hi)
    | OP_GT | OP_GE => lo ← raise_min v lo; Ret (true, lo, hi)
    | OP_LT | OP_LE => hi ← lower_max v hi; Ret (true, lo, hi)
    | OP_NE => Ret (true, lo, hi)
    end
  else Ret s.
Fixpoint narrow_all (c : ColMeta) (conds : list Condition) (s : bool * Value * Value) : outcome (bool * Value * Value) :=
  match conds with [] => Ret s | cond :: conds => s ← narrow c cond s; narrow_all c conds s end.

(** [std::copy_n(v.raw->data, len, rm.data + offset)] *)
Definition copy_raw (v : Value) (len offset : Z) (rm : list Z) : outcome (list Z) :=
  b ← or_stuck NullDeref (raw v);
  x ← read 0 len b;
  write offset x rm.

Fixpoint key_range (conds : list Condition) (cs : list ColMeta) (is_last : bool) (offset : Z) (min_rm max_rm : list Z) : outcome (list Z * list Z) :=
  match cs with
  | [] => Ret (min_rm, max_rm)
  | c :: cs =>
      '(lo, hi) ← full_range c;
      '(is_last, lo, hi) ← (if (is_last : bool) then Ret (true, lo, hi) else narrow_all c conds (false, lo, hi));
      max_rm ← copy_raw hi (cm_len c) offset max_rm;
      min_rm ← copy_raw lo (cm_len c) offset min_rm;
      key_range conds cs is_last (offset + cm_len c) min_rm max_rm
  end.
Definition init_key_range (conds : list Condition) (index : IndexMeta) : outcome (list Z * list Z) :=
  let fresh := replicate (Z.to_nat (im_col_tot_len index)) g in
  key_range conds (im_cols index) false 0 fresh fresh.
End range.

(** ** The executor *)

Section index_scan.
Context {R : Type} {RO : Replacer R} {FO : FileSystem} (g txn : Z) (depth : nat).
Abbreviation D := (Engine R).

(** [scan_]: the position and the end, none until [beginTuple]. *)
Record IndexScanExecutor : Type := mkIxScan {
  xs_tab_name : string;
  xs_conds : list Condition;
  xs_index : IndexMeta;
  xs_cols : list ColMeta;
  xs_len : Z;
  xs_rid : Rid;
  xs_scan : option (Iid * Iid)
}.
Definition xs_set_rid (r : Rid) (x : IndexScanExecutor) : IndexScanExecutor := mkIxScan (xs_tab_name x) (xs_conds x) (xs_index x) (xs_cols x) (xs_len x) r (xs_scan x).
Definition xs_set_scan (p : Iid * Iid) (x : IndexScanExecutor) : IndexScanExecutor := mkIxScan (xs_tab_name x) (xs_conds x) (xs_index x) (xs_cols x) (xs_len x) (xs_rid x) (Some p).

(** A condition on another table must have this one on its right. *)
Definition face (tab_name : string) (cond : Condition) : outcome Condition :=
  if bool_decide (tc_tab_name (lhs_col cond) = tab_name) then Ret cond else
  _ ← ensure AssertFailed (negb (is_rhs_val cond) && bool_decide (tc_tab_name (rhs_col cond) = tab_name));
  Ret (swap_cond cond).

Definition make_index_scan (tab_name : string) (conds : list Condition) (index_col_names : list string) (r0 : Rid) : M D IndexScanExecutor :=
  db ← gets db_;
  tab ← lift (get_table tab_name db);
  k ← lift (get_index_meta index_col_names tab);
  index ← unwrap OutOfBounds (tm_indexes tab !! k);
  fd ← on_table tab_name (gets Rm.fd_);
  _ ← on_index txn (index_name tab_name index) (mret tt);
  lastc ← unwrap OutOfBounds (last (tm_cols tab));
  len ← int_op (cm_offset lastc + cm_len lastc);
  conds ← lift (Analyze.over (face tab_name) conds);
  _ ← on_locks (Lock.lock_shared_on_table txn fd);
  mret (mkIxScan tab_name conds index (tm_cols tab) (wrap_u 64 len) r0 None).

Definition on_db {A} (m : M D A) : M (D * IndexScanExecutor) A := zoom fst (fun d s => (d, s.2)) m.
Definition on_ih {A} (m : M (Ix.IxIndexHandle (Bpm.BufferPoolManager R)) A) : M (D * IndexScanExecutor) A :=
  x ← own id; on_db (on_index txn (index_name (xs_tab_name x) (xs_index x)) m).
Definition on_fh {A} (m : M (Rm.RmFileHandle (Bpm.BufferPoolManager R)) A) : M (D * IndexScanExecutor) A :=
  x ← own id; on_db (on_table (xs_tab_name x) m).

Definition xs_at : M (D * IndexScanExecutor) (Iid * Iid) := x ← own id; unwrap NullDeref (xs_scan x).
Definition xs_is_end : M (D * IndexScanExecutor) bool := p ← xs_at; mret (Ix.scan_is_end p.1 p.2).
Definition xs_check : M (D * IndexScanExecutor) bool :=
  p ← xs_at;
  r ← on_ih (Ix.scan_rid p.1);
  rec ← on_fh (Rm.get_record r (Some txn));
  x ← own id;
  lift (checkConds (replicate 8 g) rec (xs_conds x) (xs_cols x)).
Definition xs_advance : M (D * IndexScanExecutor) unit :=
  p ← xs_at;
  i ← on_ih (Ix.scan_next p.1 p.2);
  Executors.change (xs_set_scan (i, p.2)).

Fixpoint xs_seek (fuel : nat) : M (D * IndexScanExecutor) unit :=
  match fuel with
  | O => stuck Diverges
  | Datatypes.S fuel =>
      e ← xs_is_end;
      if (e : bool) then mret tt else
      b ← xs_check;
      if (b : bool) then p ← xs_at; r ← on_ih (Ix.scan_rid p.1); Executors.change (xs_set_rid r)
      else xs_advance ;; xs_seek fuel
  end.
Definition xs_beginTuple (fuel : nat) : M (D * IndexScanExecutor) unit :=
  x ← own id;
  keys ← lift (init_key_range g (xs_conds x) (xs_index x));
  lo ← on_ih (Ix.lower_bound depth keys.1);
  hi ← on_ih (Ix.upper_bound depth keys.2);
  Executors.change (xs_set_scan (lo, hi)) ;;
  xs_seek fuel.
Definition xs_nextTuple (fuel : nat) : M (D * IndexScanExecutor) unit := xs_advance ;; xs_seek fuel.
Definition xs_next : M (D * IndexScanExecutor) (list Z) :=
  e ← xs_is_end;
  assert (negb e) ;;
  x ← own id;
  on_fh (Rm.get_record (xs_rid x) (Some txn)).

(** [tupleLen] and [get_col_offset] are those of the base class. *)
Definition IndexScan_executor (fuel : nat) : AbstractExecutor D IndexScanExecutor := {|
  tupleLen := fun _ => 0; cols := xs_cols;
  beginTuple := xs_beginTuple fuel; nextTuple := xs_nextTuple fuel; is_end := xs_is_end; Next := xs_next;
  get_col_offset := fun _ => no_col_offset
|}.
End index_scan.
