(* ===== verification/IndexScanSpec.v ===== *)
(** * The key range of an index scan covers the result

    Every record that satisfies the conditions has, in the index, a key between
    the two keys [init_key_range] computes, where it computes them. *)

From Stdlib Require Import Floats.SpecFloat.
From S2P Require Import Prelude Bytes Posix Disk Replacer BufferPool Txn Lock Log RmFile IxDefs IxCompare IxNode IxIndex Values ValuesSpec SmMeta Managers Engine Executors Ast Analyze Planner IndexScan.

Module IndexScanSpec.
Import ValuesSpec Engine.

Definition typ (c : ColMeta) : ColType * Z := (cm_type c, cm_len c).
Definition is_text (t : ColType) : bool := match t with TYPE_STRING | TYPE_DATETIME => true | _ => false end.

(** The bytes of a column as the program stores them. *)
Definition stored (c : ColType * Z) (x : list Z) : Prop := col_valid c x /\ (is_text c.1 = true -> padded x).

(** The value [v] is what the bytes [b] hold. *)
Definition den (c : ColType * Z) (v : Value) (b : list Z) : Prop :=
  v_type v = c.1 /\ stored c b /\
  match c.1 with
  | TYPE_INT => int_val v = i32_val b
  | TYPE_BIGINT => bigint_val v = i64_val b
  | TYPE_FLOAT => float_val v = f32_of_bits (u32_val b)
  | TYPE_STRING => cstr (str_val v) = cstr b
  | TYPE_DATETIME => cstr (datetime_val v) = cstr b
  end.

Lemma den_binop (c : ColType * Z) (v w : Value) (x y : list Z) (op : CompOp) : col_ok c -> den c v x -> den c w y ->
  binop op v w = Ret (op_int op (col_cmp c x y) 0).
Proof.
  intros Hc (Tv & [(Lx & Bx & Fx) Px] & Ev) (Tw & [(Ly & By & Fy) Py] & Ew). unfold binop. rewrite Tv, Tw. unfold col_cmp, ix_compare_col, col_ok in *.
  destruct c as [t len]. cbn [fst snd] in *. destruct t; rewrite !mem_read_exact by lia; simpl.
  - by rewrite Ev, Ew, <- op_int_cmp.
  - by rewrite Ev, Ew, <- op_int_cmp.
  - rewrite Ev, Ew. f_equal. pose proof (le_val_range x Bx). pose proof (le_val_range y By). unfold u32_val in *. rewrite Lx, Ly, Hc in *. apply op_float_cmp; apply f32_not_nan; auto.
  - unfold op_str, strcmp. rewrite Ev, Ew. fold (strcmp x y). rewrite memcmp_strcmp; auto. lia.
  - unfold op_str, strcmp. rewrite Ev, Ew. fold (strcmp x y). rewrite memcmp_strcmp; auto. lia.
Qed.

Lemma den_load (g : list Z) (c : ColMeta) (rec x : list Z) : col_ok (typ c) -> stored (typ c) x -> 0 <= cm_offset c -> cm_offset c + cm_len c <= Z.of_nat (length rec) ->
  x = slice (Z.to_nat (cm_offset c)) (Z.to_nat (cm_len c)) rec -> exists v, load_col g rec c = Ret v /\ den (typ c) v x.
Proof.
  intros Hc S Ho Hl Hx. pose proof S as [(L & B & _) _]. cbn [typ fst snd] in L. unfold load_col. rewrite (proj2 (Z.leb_le 0 _)), (proj2 (Z.leb_le (cm_offset c) _)) by lia. cbn [andb ensure mbind outcome_bind].
  rewrite <- (take_drop (Z.to_nat (cm_len c)) (drop _ rec)). fold (slice (Z.to_nat (cm_offset c)) (Z.to_nat (cm_len c)) rec). rewrite <- Hx.
  rewrite (load_raw_run g (cm_len c) (cm_type c) x _ L Hc). eexists. split; [done|]. unfold den. split; [by cbn [typ fst]; destruct (cm_type c)|]. split; [exact S|].
  unfold col_ok, typ in *. cbn [fst snd] in *. unfold int_val, bigint_val, float_val. destruct (cm_type c); try done; cbn [set_num v_num]; by rewrite num_after by lia.
Qed.

(** ** The widest range *)

(** The column is inside what [full_range] considers the widest range: finite
    floats, dates of four-digit years; [BIGINT] has none. *)
Definition spanned (c : ColType * Z) (x : list Z) : Prop :=
  match c.1 with
  | TYPE_INT | TYPE_STRING => True
  | TYPE_FLOAT => u32_val x mod 2 ^ 31 < 255 * 2 ^ 23
  | TYPE_DATETIME =>
      19 <= c.2 /\ memcmp (bytes_of_string "1000-01-01 00:00:00" ++ replicate (Z.to_nat c.2 - 19) 0) x <= 0 /\
      memcmp x (bytes_of_string "9999-12-31 23:59:59" ++ replicate (Z.to_nat c.2 - 19) 0) <= 0
  | TYPE_BIGINT => False
  end.

Lemma padded_pad (x : list Z) (n : nat) : Forall (fun b => b <> 0) x -> padded (x ++ replicate n 0).
Proof.
  intros H. unfold padded. rewrite cstr_pad. assert (cstr x = x) as ->. { induction H as [|b x Hb H IH]; [done|]. simpl. by rewrite (proj2 (Z.eqb_neq b 0)), IH. }
  f_equal. f_equal. rewrite length_app, length_replicate. lia.
Qed.
Lemma memcmp_zeros (x : list Z) (n : nat) : length x = n -> Forall (fun b => is_byte b = true) x -> memcmp (replicate n 0) x <= 0.
Proof.
  intros <-. induction 1 as [|b x Hb H IH]; [done|]. simpl. unfold is_byte in Hb. destruct (Z.ltb_spec 0 b), (Z.ltb_spec b 0); lia.
Qed.
Lemma memcmp_ones (x : list Z) (n : nat) : length x = n -> Forall (fun b => is_byte b = true) x -> memcmp x (replicate n 255) <= 0.
Proof.
  intros <-. induction 1 as [|b x Hb H IH]; [done|]. simpl. unfold is_byte in Hb. destruct (Z.ltb_spec b 255), (Z.ltb_spec 255 b); lia.
Qed.
Lemma col_cmp_float (x y : list Z) : col_valid (TYPE_FLOAT, 4) x -> col_valid (TYPE_FLOAT, 4) y -> col_cmp (TYPE_FLOAT, 4) x y = cmpZ (f32_rank (u32_val x)) (f32_rank (u32_val y)).
Proof.
  intros (Lx & Bx & Nx) (Ly & By & Ny). cbn [fst snd] in *. unfold col_cmp, ix_compare_col. cbn [fst snd]. rewrite !mem_read_exact by done. simpl.
  pose proof (le_val_range x Bx) as Rx. pose proof (le_val_range y By) as Ry. rewrite Lx in Rx. rewrite Ly in Ry. unfold cmpF, cmpZ. by rewrite !f32_lt by (done || by apply Nx || by apply Ny).
Qed.

(** A value that covers: bytes [b] are its raw form and hold it. *)
Definition holds_raw (c : ColType * Z) (v : Value) (b : list Z) : Prop := den c v b /\ raw v = Some b.

Lemma init_holds (g len : Z) (t : ColType) (v : Value) : storable t len v -> v_type v = t -> stored (t, len) (column_of len v) ->
  exists w, init_raw g len v = Ret w /\ holds_raw (t, len) w (column_of len v).
Proof.
  intros S T St. destruct (init_raw_run g len t v S) as [E Hl]. eexists. split; [exact E|]. split; [|done]. split; [done|]. split; [done|].
  destruct S as (Hn & _ & _ & Ht). unfold column_of. rewrite T in *. cbn [fst]. destruct t; cbn [set_raw]; unfold int_val, bigint_val, float_val; cbn [v_num set_raw str_val datetime_val].
  - subst len. cbn [Z.eqb Pos.eqb]. rewrite i32_roundtrip by apply i32_val_range. done.
  - rewrite i64_roundtrip by apply i64_val_range. done.
  - done.
  - by rewrite cstr_pad.
  - by rewrite cstr_pad.
Qed.

Lemma union_length (g : Z) (x : list Z) : (length x <= 8)%nat -> length (splice 0 x (replicate 8 g)) = 8%nat.
Proof. intros. rewrite length_splice; rewrite length_replicate; lia. Qed.
Lemma fresh_storable (g len : Z) (t : ColType) (x : list Z) : col_ok (t, len) -> length x = (match t with TYPE_BIGINT => 8 | _ => 4 end)%nat -> is_text t = false ->
  storable t len (set_num t x (blank (replicate 8 g) t)).
Proof.
  intros Hc Hx Ht. unfold storable, col_ok in *. cbn [set_num v_num raw str_val v_type blank fst snd length] in *. split; [apply union_length; destruct t; lia|]. split; [done|]. destruct t; try discriminate Ht; split; done || lia.
Qed.

Lemma le_val_inj (x y : list Z) : length x = length y -> Forall (fun b => is_byte b = true) x -> Forall (fun b => is_byte b = true) y -> le_val x = le_val y -> x = y.
Proof.
  revert y. induction x as [|b x IH]; intros [|c y] L Bx By; try done. intros H. cbn [le_val] in H. apply Forall_cons in Bx as [Hb Bx]. apply Forall_cons in By as [Hc By]. unfold is_byte in Hb, Hc.
  assert (b = c) as <- by lia. f_equal. apply IH; [by injection L|done..|lia].
Qed.
Lemma i32_bytes_val (x : list Z) : length x = 4%nat -> Forall (fun b => is_byte b = true) x -> i32_bytes (i32_val x) = x.
Proof.
  intros L B. apply le_val_inj; [by rewrite length_i32_bytes|apply le_bytes_is_byte|done|]. unfold i32_bytes. rewrite le_val_le_bytes. pose proof (le_val_range x B) as R. rewrite L in R.
  unfold i32_val, wrap_s. change (8 * Z.of_nat 4) with 32 in *. rewrite Zminus_mod_idemp_l. rewrite <- (Z.mod_small (le_val x) (2 ^ 32)) at 2 by lia. f_equal. lia.
Qed.

(** A value set to [x] in a column of [x]'s length. *)
Lemma num_column (g len : Z) (t : ColType) (x : list Z) : col_ok (t, len) -> t = TYPE_INT \/ t = TYPE_FLOAT -> stored (t, len) x ->
  column_of len (set_num t x (blank (replicate 8 g) t)) = x.
Proof.
  intros Hc Ht [(L & B & _) _]. unfold column_of, col_ok in *. cbn [set_num v_type v_num fst snd] in *. destruct Ht as [-> | ->].
  - unfold int_val. cbn [v_num set_num]. rewrite Hc in *. cbn [Z.eqb Pos.eqb]. rewrite num_after by lia. by apply i32_bytes_val; [lia|].
  - rewrite num_after; [done|lia].
Qed.

Lemma num_range (g len : Z) (t : ColType) (lo hi : list Z) : col_ok (t, len) -> t = TYPE_INT \/ t = TYPE_FLOAT -> stored (t, len) lo -> stored (t, len) hi ->
  exists v w, init_raw g len (set_num t hi (blank (replicate 8 g) t)) = Ret w /\ init_raw g len (set_num t lo (blank (replicate 8 g) t)) = Ret v /\
    holds_raw (t, len) v lo /\ holds_raw (t, len) w hi.
Proof.
  intros Hc Ht Sl Sh. assert (forall x, stored (t, len) x -> exists v, init_raw g len (set_num t x (blank (replicate 8 g) t)) = Ret v /\ holds_raw (t, len) v x) as H.
  { intros x Sx. pose proof (num_column g len t x Hc Ht Sx) as Ec. destruct (init_holds g len t (set_num t x (blank (replicate 8 g) t))) as (v & Ev & Hv); [|by destruct Ht as [-> | ->]|by rewrite Ec|rewrite Ec in Hv; eauto].
    apply fresh_storable; [done| |by destruct Ht as [-> | ->]]. pose proof Sx as [(L & _) _]. unfold col_ok in Hc. cbn [fst snd] in *. destruct Ht as [-> | ->]; lia. }
  destruct (H lo Sl) as (v & E1 & H1), (H hi Sh) as (w & E2 & H2). by exists v, w.
Qed.

Definition text_value (g : Z) (t : ColType) (x : list Z) : Value := match t with TYPE_STRING => set_str x (blank (replicate 8 g) t) | _ => set_datetime x (blank (replicate 8 g) t) end.
Definition pad (len : Z) (x : list Z) : list Z := x ++ replicate (Z.to_nat len - length x) 0.
Lemma text_storable (g len : Z) (t : ColType) (x : list Z) : 0 <= len -> is_text t = true -> Z.of_nat (length x) <= len ->
  storable t len (text_value g t x) /\ v_type (text_value g t x) = t /\ column_of len (text_value g t x) = pad len x.
Proof.
  intros H0 Ht Hx. unfold storable, column_of, pad. destruct t; try done; cbn [text_value set_str set_datetime v_num raw str_val datetime_val v_type blank length]; rewrite length_replicate; split_and!; done || lia.
Qed.

(** Two values of the type of the column; if [P] holds, the bytes [x] of the
    column lie between them. *)
Definition covers (P : Prop) (c : ColType * Z) (x : list Z) (lo hi : Value) : Prop :=
  exists b b', holds_raw c lo b /\ holds_raw c hi b' /\ (P -> col_cmp c b x <= 0 /\ col_cmp c x b' <= 0).

Lemma text_range (P : Prop) (g len : Z) (t : ColType) (lo hi x : list Z) : 0 <= len -> is_text t = true -> Z.of_nat (length lo) <= len -> Z.of_nat (length hi) <= len ->
  stored (t, len) (pad len lo) -> stored (t, len) (pad len hi) -> Z.of_nat (length x) = len -> memcmp (pad len lo) x <= 0 -> memcmp x (pad len hi) <= 0 ->
  exists v w, init_raw g len (text_value g t hi) = Ret w /\ init_raw g len (text_value g t lo) = Ret v /\ covers P (t, len) x v w.
Proof.
  intros H0 Ht Hl Hh Sl Sh Hx M1 M2. destruct (text_storable g len t lo H0 Ht Hl) as (Sv & Tv & Cv), (text_storable g len t hi H0 Ht Hh) as (Sw & Tw & Cw).
  destruct (init_holds g len t _ Sv Tv) as (v' & E1 & P1); [by rewrite Cv|]. destruct (init_holds g len t _ Sw Tw) as (w' & E2 & P2); [by rewrite Cw|]. rewrite Cv in P1. rewrite Cw in P2.
  exists v', w'. split_and!; [done..|]. exists (pad len lo), (pad len hi). split_and!; [done..|intros _]; split; destruct Sl as [(L1 & _) _], Sh as [(L2 & _) _]; cbn [fst snd] in *; unfold col_cmp, ix_compare_col; cbn [fst snd]; destruct t; try done; by rewrite !mem_read_exact by done.
Qed.

Lemma full_range_run (P : Prop) (g : Z) (c : ColMeta) (x : list Z) : col_ok (typ c) -> stored (typ c) x -> spanned (typ c) x ->
  exists lo hi, full_range g c = Ret (lo, hi) /\ covers P (typ c) x lo hi.
Proof.
  intros Hc [V Hpd] Hs. unfold full_range, typ in *. unfold spanned in Hs. cbn [fst snd] in *. destruct (cm_type c) eqn:Et; [| | | |].
  - assert (forall z, stored (TYPE_INT, cm_len c) (i32_bytes z)) as Hst. { intros z. split; [|done]. unfold col_ok in Hc. split; [rewrite length_i32_bytes; cbn [fst snd] in *; lia|]. split; [apply le_bytes_is_byte|done]. }
    destruct (num_range g (cm_len c) TYPE_INT (i32_bytes INT32_MIN) (i32_bytes INT32_MAX) Hc) as (v & w & E1 & E2 & H1 & H2); [by left|done..|].
    unfold set_int. rewrite E1. cbn [mbind outcome_bind]. rewrite E2. cbn [mbind outcome_bind]. exists v, w. split; [done|]. exists (i32_bytes INT32_MIN), (i32_bytes INT32_MAX). split_and!; [done..|intros _]; split;
      destruct V as (L & _); unfold col_ok in Hc; cbn [fst snd] in *; unfold col_cmp, ix_compare_col; cbn [fst snd]; rewrite !mem_read_exact by (rewrite ?length_i32_bytes; lia); simpl; rewrite i32_roundtrip by done; apply cmpZ_le;
      pose proof (i32_val_range x) as R; unfold in_i32 in R; lia.
  - done.
  - assert (Hl : cm_len c = 4) by exact Hc. rewrite Hl in *. assert (forall b, 0 <= b < 2 ^ 32 -> f32_nan b = false -> stored (TYPE_FLOAT, 4) (u32_bytes b)) as Hst.
    { intros b Hb Hn. split; [|done]. split; [by rewrite length_u32_bytes|]. split; [apply le_bytes_is_byte|]. intros _. by rewrite u32_roundtrip. }
    assert (stored (TYPE_FLOAT, 4) (u32_bytes NEG_FLT_MAX_BITS)) as Sl by (apply Hst; [vm_compute; split; [discriminate|reflexivity]|vm_compute; reflexivity]).
    assert (stored (TYPE_FLOAT, 4) (u32_bytes FLT_MAX_BITS)) as Sh by (apply Hst; [vm_compute; split; [discriminate|reflexivity]|vm_compute; reflexivity]).
    destruct (num_range g 4 TYPE_FLOAT _ _ Hc (or_intror eq_refl) Sl Sh) as (v & w & E1 & E2 & H1 & H2).
    unfold set_float. rewrite E1. cbn [mbind outcome_bind]. rewrite E2. cbn [mbind outcome_bind]. exists v, w. split; [done|]. exists (u32_bytes NEG_FLT_MAX_BITS), (u32_bytes FLT_MAX_BITS).
    pose proof V as (L & B & _). pose proof (le_val_range x B) as R. cbn [fst snd] in L. rewrite L in R. change (2 ^ (8 * 4)) with (2 ^ 32) in R. unfold u32_val in *.
    pose proof (Z.div_mod (le_val x) (2 ^ 31) ltac:(done)) as D. pose proof (Z.mod_pos_bound (le_val x) (2 ^ 31) ltac:(lia)).
    split_and!; [done..|intros _]; split; rewrite col_cmp_float by (done || apply Sl || apply Sh); apply cmpZ_le; unfold u32_val; [change (le_val (u32_bytes NEG_FLT_MAX_BITS)) with NEG_FLT_MAX_BITS|change (le_val (u32_bytes FLT_MAX_BITS)) with FLT_MAX_BITS];
      unfold f32_rank, NEG_FLT_MAX_BITS, FLT_MAX_BITS; destruct (Z.ltb_spec (le_val x) (2 ^ 31)); simpl; lia.
  - assert (Hl : 0 <= cm_len c) by exact Hc. pose proof V as (L & B & _). cbn [fst snd] in L. assert (length x = Z.to_nat (cm_len c)) as Lx by lia.
    set (n := Z.to_nat (cm_len c)) in *. assert (forall z : Z, pad (cm_len c) (replicate n z) = replicate n z) as Hpad.
    { intros z. unfold pad. fold n. rewrite length_replicate, Nat.sub_diag. apply app_nil_r. }
    destruct (text_range P g (cm_len c) TYPE_STRING (replicate n 0) (replicate n 255) x Hl eq_refl) as (v & w & E1 & E2 & Hcov); [rewrite length_replicate; lia..| | |lia| | |]; rewrite ?Hpad.
    + split; [split; [rewrite length_replicate; cbn [snd]; lia|split; [by apply Forall_replicate|done]]|]. intros _. apply (padded_pad [] n). constructor.
    + split; [split; [rewrite length_replicate; cbn [snd]; lia|split; [by apply Forall_replicate|done]]|]. intros _. rewrite <- (app_nil_r (replicate n 255)). apply (padded_pad _ 0). by apply Forall_replicate.
    + by apply memcmp_zeros.
    + by apply memcmp_ones.
    + cbn [text_value] in E1, E2. rewrite E1. cbn [mbind outcome_bind]. rewrite E2. cbn [mbind outcome_bind]. eauto.
  - destruct Hs as (H19 & M1 & M2). assert (forall str, length (bytes_of_string str) = 19%nat -> Forall (fun b => b <> 0) (bytes_of_string str) -> Forall (fun b => is_byte b = true) (bytes_of_string str) ->
      stored (TYPE_DATETIME, cm_len c) (pad (cm_len c) (bytes_of_string str))) as Hst.
    { intros str Hl Hz Hb. split; [|intros _; by apply padded_pad]. split; [unfold pad; rewrite length_app, length_replicate; cbn [snd]; lia|]. split; [|done]. apply Forall_app. split; [done|by apply Forall_replicate]. }
    pose proof V as (L & _). cbn [fst snd] in L.
    destruct (text_range P g (cm_len c) TYPE_DATETIME (bytes_of_string "1000-01-01 00:00:00") (bytes_of_string "9999-12-31 23:59:59") x) as (v & w & E1 & E2 & Hcov); [lia|done| | | | |done|done|done|].
    + change (Z.of_nat (length (bytes_of_string "1000-01-01 00:00:00"))) with 19. done.
    + change (Z.of_nat (length (bytes_of_string "9999-12-31 23:59:59"))) with 19. done.
    + by apply Hst; [|repeat constructor|repeat constructor].
    + by apply Hst; [|repeat constructor|repeat constructor].
    + cbn [text_value] in E1, E2. rewrite E1. cbn [mbind outcome_bind]. rewrite E2. cbn [mbind outcome_bind]. eauto.
Qed.

(** ** Narrowing *)

(** Every condition on the column compares it with a value of its type, and holds if [P] does. *)
Definition satisfied (P : Prop) (conds : list Condition) (c : ColMeta) (x : list Z) : Prop :=
  Forall (fun cond => tc_col_name (lhs_col cond) = cm_name c -> is_rhs_val cond = true ->
    exists b, holds_raw (typ c) (rhs_val cond) b /\ (P -> op_int (c_op cond) (col_cmp (typ c) x b) 0 = true)) conds.

Lemma raise_min_run (P : Prop) (c : ColType * Z) (x b : list Z) (v lo hi : Value) : col_ok c -> covers P c x lo hi -> holds_raw c v b -> (P -> col_cmp c b x <= 0) ->
  exists lo', raise_min v lo = Ret lo' /\ covers P c x lo' hi.
Proof.
  intros Hc (bl & bh & Hl & Hh & H) Hv Hb. unfold raise_min. rewrite (den_binop c v lo b bl OP_GT Hc (proj1 Hv) (proj1 Hl)). cbn [mbind outcome_bind]. eexists. split; [done|].
  destruct (op_int OP_GT _ 0); [exists b, bh|exists bl, bh]; split_and!; try done; intros p; by destruct (H p); auto.
Qed.
Lemma lower_max_run (P : Prop) (c : ColType * Z) (x b : list Z) (v lo hi : Value) : col_ok c -> covers P c x lo hi -> holds_raw c v b -> (P -> col_cmp c x b <= 0) ->
  exists hi', lower_max v hi = Ret hi' /\ covers P c x lo hi'.
Proof.
  intros Hc (bl & bh & Hl & Hh & H) Hv Hb. unfold lower_max. rewrite (den_binop c v hi b bh OP_LT Hc (proj1 Hv) (proj1 Hh)). cbn [mbind outcome_bind]. eexists. split; [done|].
  destruct (op_int OP_LT _ 0); [exists bl, b|exists bl, bh]; split_and!; try done; intros p; by destruct (H p); auto.
Qed.

Lemma narrow_run (P : Prop) (c : ColMeta) (x : list Z) (conds : list Condition) : col_ok (typ c) -> stored (typ c) x -> satisfied P conds c x -> forall last lo hi, covers P (typ c) x lo hi ->
  exists last' lo' hi', narrow_all c conds (last, lo, hi) = Ret (last', lo', hi') /\ covers P (typ c) x lo' hi'.
Proof.
  intros Hc [Vx _]. induction 1 as [|cond conds Hs _ IH]; intros last lo hi Cov; cbn [narrow_all]; [eauto|].
  enough (exists l2 lo2 hi2, narrow c cond (last, lo, hi) = Ret (l2, lo2, hi2) /\ covers P (typ c) x lo2 hi2) as (l2 & lo2 & hi2 & -> & C2) by (cbn [mbind outcome_bind]; by apply IH).
  unfold narrow. destruct (bool_decide (tc_col_name (lhs_col cond) = cm_name c)) eqn:En; [|eauto]. apply bool_decide_eq_true in En. destruct (is_rhs_val cond) eqn:Ev; [|eauto]. cbn [andb].
  destruct (Hs En eq_refl) as (b & Hv & Hop). pose proof (or_antisym _ _ (col_cmp_order (typ c) Hc) x b Vx (proj1 (proj1 (proj2 (proj1 Hv))))) as Anti.
  destruct (c_op cond); cbn [op_int] in Hop.
  - destruct (raise_min_run P (typ c) x b (rhs_val cond) lo hi Hc Cov Hv) as (lo' & -> & C1); [intros p; specialize (Hop p); lia|]. cbn [mbind outcome_bind].
    destruct (lower_max_run P (typ c) x b (rhs_val cond) lo' hi Hc C1 Hv) as (hi' & -> & C2); [intros p; specialize (Hop p); lia|]. cbn [mbind outcome_bind]. eauto.
  - eauto.
  - destruct (lower_max_run P (typ c) x b (rhs_val cond) lo hi Hc Cov Hv) as (hi' & -> & C2); [intros p; specialize (Hop p); lia|]. cbn [mbind outcome_bind]. eauto.
  - destruct (raise_min_run P (typ c) x b (rhs_val cond) lo hi Hc Cov Hv) as (lo' & -> & C1); [intros p; specialize (Hop p); lia|]. cbn [mbind outcome_bind]. eauto.
  - destruct (lower_max_run P (typ c) x b (rhs_val cond) lo hi Hc Cov Hv) as (hi' & -> & C2); [intros p; specialize (Hop p); lia|]. cbn [mbind outcome_bind]. eauto.
  - destruct (raise_min_run P (typ c) x b (rhs_val cond) lo hi Hc Cov Hv) as (lo' & -> & C1); [intros p; specialize (Hop p); lia|]. cbn [mbind outcome_bind]. eauto.
Qed.

(** ** Keys *)

Lemma write_at (pre x rest : list Z) : (length x <= length rest)%nat -> write (Z.of_nat (length pre)) x (pre ++ rest) = Ret (pre ++ x ++ drop (length x) rest).
Proof.
  intros H. unfold write, mem_write. rewrite length_app. rewrite (proj2 (Z.leb_le 0 _)), (proj2 (Z.leb_le (_ + _) _)) by lia. cbn [andb or_stuck]. f_equal. rewrite Nat2Z.id. unfold splice.
  rewrite take_app_length. f_equal. f_equal. rewrite drop_app, drop_ge by lia. cbn [app]. f_equal. lia.
Qed.

Lemma copy_raw_run (c : ColType * Z) (v : Value) (b pre rest : list Z) : holds_raw c v b -> c.2 <= Z.of_nat (length rest) ->
  copy_raw v c.2 (Z.of_nat (length pre)) (pre ++ rest) = Ret ((pre ++ b) ++ drop (Z.to_nat c.2) rest).
Proof.
  intros [(_ & [(L & _) _] & _) Hr] Hl. unfold copy_raw. rewrite Hr. cbn [or_stuck mbind outcome_bind]. rewrite read_exact by done. cbn [mbind outcome_bind]. rewrite write_at by lia. rewrite <- app_assoc. do 4 f_equal. lia.
Qed.

Lemma key_cmp_cons (c : ColType * Z) (cols : list (ColType * Z)) (x y r r' : list Z) : col_valid c x -> col_valid c y -> col_cmp c x y <= 0 -> key_cmp cols r r' <= 0 -> key_cmp (c :: cols) (x ++ r) (y ++ r') <= 0.
Proof.
  intros (Lx & _) (Ly & _) H1 H2. cbn [key_cmp]. rewrite !take_app_length', !drop_app_length' by lia. by destruct (col_cmp c x y =? 0).
Qed.

(** A column of the index and what the record has there. *)
Definition column_fits (P : Prop) (conds : list Condition) (c : ColMeta) (x : list Z) : Prop := col_ok (typ c) /\ stored (typ c) x /\ spanned (typ c) x /\ satisfied P conds c x.

Lemma copy_raw_short (c : ColType * Z) (v : Value) (b l : list Z) (o : Z) : holds_raw c v b -> Z.of_nat (length l) < o + c.2 -> copy_raw v c.2 o l = Stuck OutOfBounds.
Proof.
  intros [(_ & [(L & _) _] & _) Hr] Hl. unfold copy_raw. rewrite Hr. cbn [or_stuck mbind outcome_bind]. rewrite read_exact by done. cbn [mbind outcome_bind].
  unfold write, mem_write. rewrite (proj2 (Z.leb_gt (_ + _) _)) by lia. by rewrite andb_false_r.
Qed.

(** One column: its two bounds, which are then copied behind the ones before. *)
Lemma column_range (P : Prop) (g : Z) (conds : list Condition) (c : ColMeta) (x : list Z) (last : bool) : column_fits P conds c x ->
  exists last' lo hi, covers P (typ c) x lo hi /\ forall cs o m m', key_range g conds (c :: cs) last o m m' =
    (m' ← copy_raw hi (cm_len c) o m'; m ← copy_raw lo (cm_len c) o m; key_range g conds cs last' (o + cm_len c) m m').
Proof.
  intros (Hc & Hst & Hsp & Hsat). destruct (full_range_run P g c x Hc Hst Hsp) as (lo & hi & E & Cov).
  assert (exists l2 lo2 hi2, (if (last : bool) then Ret (true, lo, hi) else narrow_all c conds (false, lo, hi)) = Ret (l2, lo2, hi2) /\ covers P (typ c) x lo2 hi2) as (l2 & lo2 & hi2 & E2 & C2).
  { destruct last; [eauto 10|]. by apply narrow_run with (x := x). }
  exists l2, lo2, hi2. split; [done|]. intros cs o m m'. cbn [key_range]. rewrite E. cbn [mbind outcome_bind]. rewrite E2. done.
Qed.

Lemma fits_pos (P : Prop) (conds : list Condition) (cs : list ColMeta) (xs : list (list Z)) : Forall2 (column_fits P conds) cs xs -> 0 <= tot (typ <$> cs).
Proof. intros F. apply tot_nonneg. induction F as [|c' x' cs' xs' (H & _) F IH]; constructor; done. Qed.

(** The columns [cs] in buffers with room for them: their bounds are put in
    place, and the columns behind them follow. *)
Lemma key_range_run (P : Prop) (g : Z) (conds : list Condition) (cs : list ColMeta) (xs : list (list Z)) : Forall2 (column_fits P conds) cs xs ->
  forall last pre pre' rest rest', length pre = length pre' -> tot (typ <$> cs) <= Z.of_nat (length rest) -> tot (typ <$> cs) <= Z.of_nat (length rest') ->
  exists last' lo hi, (forall cs', key_range g conds (cs ++ cs') last (Z.of_nat (length pre)) (pre ++ rest) (pre' ++ rest') =
      key_range g conds cs' last' (Z.of_nat (length pre) + tot (typ <$> cs)) (pre ++ lo ++ drop (Z.to_nat (tot (typ <$> cs))) rest) (pre' ++ hi ++ drop (Z.to_nat (tot (typ <$> cs))) rest')) /\
    key_valid (typ <$> cs) lo /\ key_valid (typ <$> cs) hi /\ (P -> key_cmp (typ <$> cs) lo (concat xs) <= 0 /\ key_cmp (typ <$> cs) (concat xs) hi <= 0).
Proof.
  intros F. induction F as [|c x cs xs Hfit F IH]; intros last pre pre' rest rest' Hp Hr Hr'.
  { exists last, [], []. split; [|done]. intros cs'. cbn [fmap list_fmap app]. by rewrite !drop_0, Z.add_0_r. }
  rewrite fmap_cons, tot_cons in *. pose proof (fits_pos _ _ _ _ F) as Hpos. destruct (column_range P g conds c x last Hfit) as (l2 & lo & hi & (b & b' & Hb & Hb' & L) & E).
  pose proof Hb as [(_ & [Vb _] & _) _]. pose proof Hb' as [(_ & [Vb' _] & _) _]. pose proof (proj1 Vb) as Lb. pose proof (proj1 Vb') as Lb'.
  destruct (IH l2 (pre ++ b) (pre' ++ b') (drop (Z.to_nat (typ c).2) rest) (drop (Z.to_nat (typ c).2) rest')) as (l3 & lo3 & hi3 & E3 & V1 & V2 & C); [rewrite !length_app; lia|rewrite length_drop; lia..|].
  exists l3, (b ++ lo3), (b' ++ hi3). split.
  - intros cs'. rewrite <- app_comm_cons, E. change (cm_len c) with ((typ c).2). rewrite Hp. rewrite (copy_raw_run _ _ _ _ _ Hb') by lia. cbn [mbind outcome_bind].
    rewrite <- Hp. rewrite (copy_raw_run _ _ _ _ _ Hb) by lia. cbn [mbind outcome_bind]. specialize (E3 cs'). rewrite length_app, Nat2Z.inj_add, Lb in E3. rewrite E3, !drop_drop, <- !app_assoc.
    replace (Z.to_nat ((typ c).2 + tot (typ <$> cs))) with (Z.to_nat (typ c).2 + Z.to_nat (tot (typ <$> cs)))%nat by lia. by rewrite Z.add_assoc.
  - cbn [key_valid concat]. split_and!; [by exists b, lo3|by exists b', hi3|]. intros p. destruct (L p), (C p). destruct Hfit as (_ & Hst & _). split; by apply key_cmp_cons; [..|done|]; try apply Hst.
Qed.

(** Without the room the copy of some column leaves the buffer. *)
Lemma key_range_short (P : Prop) (g : Z) (conds : list Condition) (cs cs' : list ColMeta) (xs : list (list Z)) : Forall2 (column_fits P conds) cs xs ->
  forall last o m m', length m = length m' -> 0 <= o -> Z.of_nat (length m) < o + tot (typ <$> cs) -> o <= Z.of_nat (length m) -> key_range g conds (cs ++ cs') last o m m' = Stuck OutOfBounds.
Proof.
  intros F. induction F as [|c x cs xs Hfit F IH]; intros last o m m' Hm Ho Hl Hi; [change (tot (typ <$> [])) with 0 in Hl; lia|].
  rewrite fmap_cons, tot_cons in Hl. destruct (column_range P g conds c x last Hfit) as (l2 & lo & hi & (b & b' & Hb & Hb' & _) & E). rewrite <- app_comm_cons, E.
  change (cm_len c) with ((typ c).2). destruct (Z.le_gt_cases (o + (typ c).2) (Z.of_nat (length m'))) as [Hroom|Hroom]; [|by rewrite (copy_raw_short _ _ _ _ _ Hb') by lia].
  pose proof Hb as [(_ & [(Lb & _) _] & _) _]. pose proof Hb' as [(_ & [(Lb' & _) _] & _) _].
  assert (exists p r, m = p ++ r /\ Z.of_nat (length p) = o) as (p & r & -> & Hpo). { exists (take (Z.to_nat o) m), (drop (Z.to_nat o) m). rewrite take_drop, length_take. split; [done|lia]. }
  assert (exists p' r', m' = p' ++ r' /\ length p' = length p) as (p' & r' & -> & Hpo'). { exists (take (Z.to_nat o) m'), (drop (Z.to_nat o) m'). rewrite take_drop, length_take. split; [done|]. rewrite length_app in *. lia. }
  rewrite !length_app in *. rewrite <- Hpo at 1. rewrite <- Hpo' at 1. rewrite (copy_raw_run _ _ _ _ _ Hb') by lia. cbn [mbind outcome_bind]. rewrite <- Hpo at 1. rewrite (copy_raw_run _ _ _ _ _ Hb) by lia. cbn [mbind outcome_bind].
  apply IH; rewrite ?length_app, ?length_drop; lia.
Qed.

(** ** Records *)

Lemma read_in (o n : Z) (l : list Z) : 0 <= o -> 0 <= n -> o + n <= Z.of_nat (length l) -> read o n l = Ret (slice (Z.to_nat o) (Z.to_nat n) l).
Proof. intros H1 H2 H3. unfold read, mem_read. by rewrite (proj2 (Z.leb_le 0 o)), (proj2 (Z.leb_le 0 n)), (proj2 (Z.leb_le (o + n) _)) by lia. Qed.

Lemma fill_key_run (data : list Z) (cs : list ColMeta) (xs : list (list Z)) : Forall2 (fun c x => read (cm_offset c) (cm_len c) data = Ret x /\ Z.of_nat (length x) = cm_len c) cs xs ->
  forall pre rest, tot (typ <$> cs) <= Z.of_nat (length rest) -> fill_key (pre ++ rest) (Z.of_nat (length pre)) data cs = Ret (pre ++ concat xs ++ drop (Z.to_nat (tot (typ <$> cs))) rest).
Proof.
  induction 1 as [|c x cs xs [Hr Hx] F IH]; intros pre rest Hl; cbn [fill_key concat]; [done|].
  rewrite fmap_cons, tot_cons in *. cbn [typ snd] in *. assert (0 <= tot (typ <$> cs)). { clear -F. induction F as [|c' x' cs' xs' [_ H] F IH]; [done|]. rewrite fmap_cons, tot_cons. cbn [typ snd]. lia. }
  rewrite Hr. cbn [mbind outcome_bind]. rewrite write_at by lia. cbn [mbind outcome_bind]. rewrite app_assoc. rewrite <- Hx, <- Nat2Z.inj_add, <- length_app. rewrite IH by (rewrite length_drop; lia).
  rewrite drop_drop, <- !app_assoc. do 5 f_equal. lia.
Qed.

Lemma checkConds_true (g8 rec : list Z) (tcols : list ColMeta) (conds : list Condition) : checkConds g8 rec conds tcols = Ret true ->
  Forall (fun cond => exists c v, find_deref (lhs_col cond) tcols = Ret c /\ load_col g8 rec c = Ret v /\ (is_rhs_val cond = true -> binop (c_op cond) v (rhs_val cond) = Ret true)) conds.
Proof.
  induction conds as [|cond conds IH]; cbn [checkConds]; [constructor|].
  intros (c & Hc & (v & Hv & (w & Hw & (b & Hb & H)%obind_Ret)%obind_Ret)%obind_Ret)%obind_Ret. destruct b; [|discriminate H]. constructor; [|by apply IH].
  exists c, v. split_and!; [done..|]. intros Hr. rewrite Hr in Hw. by injection Hw as <-.
Qed.

Definition cell (rec : list Z) (c : ColMeta) : list Z := slice (Z.to_nat (cm_offset c)) (Z.to_nat (cm_len c)) rec.

(** A column of the index is a column of the table, inside the record, with a
    comparable value. *)
Definition indexed_column (tab : string) (tcols : list ColMeta) (rec : list Z) (c : ColMeta) : Prop :=
  col_ok (typ c) /\ 0 <= cm_offset c /\ cm_offset c + cm_len c <= Z.of_nat (length rec) /\ find_deref (mkTabCol tab (cm_name c)) tcols = Ret c /\
  stored (typ c) (cell rec c) /\ spanned (typ c) (cell rec c).
(** A literal compared with a column of the index has been converted to its type. *)
Definition value_fits (tab : string) (index : IndexMeta) (cond : Condition) : Prop :=
  is_rhs_val cond = true -> tc_tab_name (lhs_col cond) = tab /\ forall c, c ∈ im_cols index -> tc_col_name (lhs_col cond) = cm_name c -> exists b, holds_raw (typ c) (rhs_val cond) b.

Lemma len_nonneg (c : ColMeta) : col_ok (typ c) -> 0 <= cm_len c.
Proof. unfold col_ok, typ. cbn [fst snd]. destruct (cm_type c); lia. Qed.

(** The bytes of the key of a record. *)
Lemma key_cells (tab : string) (tcols : list ColMeta) (rec : list Z) (cs : list ColMeta) : Forall (indexed_column tab tcols rec) cs ->
  Forall2 (fun c x => read (cm_offset c) (cm_len c) rec = Ret x /\ Z.of_nat (length x) = cm_len c) cs (cell rec <$> cs) /\ Z.of_nat (length (concat (cell rec <$> cs))) = tot (typ <$> cs).
Proof.
  intros Hcs. assert (Forall2 (fun c x => read (cm_offset c) (cm_len c) rec = Ret x /\ Z.of_nat (length x) = cm_len c) cs (cell rec <$> cs)) as Hread.
  { apply Forall2_fmap_r, Forall_Forall2_diag, (Forall_impl _ _ _ Hcs). intros c (H1 & H2 & H3 & _ & [(L & _) _] & _). pose proof (len_nonneg c H1). rewrite read_in by lia. split; [done|exact L]. }
  split; [done|]. clear -Hread. induction Hread as [|c x cs xs [_ Hx] F IH]; [done|]. rewrite fmap_cons, tot_cons. cbn [concat typ snd]. rewrite length_app. lia.
Qed.

(** What the check of the conditions says of the indexed columns. *)
Lemma record_fits (g8 : list Z) (tab : string) (tcols : list ColMeta) (index : IndexMeta) (conds : list Condition) (rec : list Z) (cs : list ColMeta) : cs ⊆ im_cols index ->
  Forall (indexed_column tab tcols rec) cs -> Forall (value_fits tab index) conds -> Forall2 (column_fits (checkConds g8 rec conds tcols = Ret true) conds) cs (cell rec <$> cs).
Proof.
  intros Hsub Hcs Hfit. rewrite Forall_forall in Hcs. rewrite Forall_forall in Hfit.
  apply Forall2_fmap_r, Forall_Forall2_diag, Forall_forall. intros c Hin. destruct (Hcs c Hin) as (H1 & H2 & H3 & H4 & H5 & H6). split_and!; [done..|]. apply Forall_forall. intros cond Hc Hname Hv.
  destruct (Hfit cond Hc Hv) as [Htab Hb]. destruct (Hb c (Hsub _ Hin) Hname) as (b & Hb'). exists b. split; [done|]. intros Hcheck.
  pose proof (checkConds_true _ _ _ _ Hcheck) as Htrue. rewrite Forall_forall in Htrue. destruct (Htrue cond Hc) as (c' & v & F & L & B). specialize (B Hv).
  assert (lhs_col cond = mkTabCol tab (cm_name c)) as E by (destruct (lhs_col cond); simpl in *; by subst). rewrite E, H4 in F. injection F as <-.
  destruct (den_load g8 c rec (cell rec c) H1 H5 H2 H3 eq_refl) as (v' & L' & D). rewrite L in L'. injection L' as <-. rewrite (den_binop _ _ _ _ _ _ H1 D (proj1 Hb')) in B. by injection B.
Qed.

Lemma ix_compare_keys (cs : list ColMeta) (x y r r' : list Z) : Forall col_ok (typ <$> cs) -> Z.of_nat (length x) = tot (typ <$> cs) -> Z.of_nat (length y) = tot (typ <$> cs) ->
  ix_compare (x ++ r) (y ++ r') (cm_type <$> cs) (cm_len <$> cs) = Some (key_cmp (typ <$> cs) x y).
Proof.
  intros Hok Hx Hy. replace (cm_type <$> cs) with (fst <$> (typ <$> cs)) by (by rewrite <- list_fmap_compose). replace (cm_len <$> cs) with (snd <$> (typ <$> cs)) by (by rewrite <- list_fmap_compose).
  rewrite ix_compare_total by (done || rewrite length_app; lia). f_equal. by apply key_cmp_prefix.
Qed.


End IndexScanSpec.

Module IndexScanDemo.
Import ValuesSpec Engine IndexScanSpec.

Definition col_a : ColMeta := mkCol "r" "a" TYPE_INT 4 0 true.
Definition col_b : ColMeta := mkCol "r" "b" TYPE_INT 4 4 false.
Definition on_a : IndexMeta := mkIndex "r" 4 1 [col_a].
Definition zeros : list Z := replicate 8 0.
Definition record (a b : Z) : list Z := i32_bytes a ++ i32_bytes b.
(** [a > n], with the literal as the analyzer leaves it. *)
Definition one : Value := mkValue TYPE_INT (i32_bytes 1 ++ replicate 4 0) [] [] (Some (i32_bytes 1)).
Definition above : Condition := mkCond (mkTabCol "r" "a") OP_GT true (mkTabCol "" "") one.

(** The same index with the length [create_index] records. *)
Definition created_a : IndexMeta := mkIndex "r" 0 1 [col_a].

Lemma record_indexed : Forall (indexed_column "r" [col_a; col_b] (record 5 7)) [col_a].
Proof.
  apply Forall_singleton. split; [reflexivity|]. split; [vm_compute; discriminate|]. split; [vm_compute; discriminate|]. split; [reflexivity|].
  split; [|exact I]. split; [|intros H; discriminate H]. split; [reflexivity|]. split; [vm_compute; repeat constructor|intros H; discriminate H].
Qed.
Lemma above_fits (index : IndexMeta) : im_cols index = [col_a] -> Forall (value_fits "r" index) [above].
Proof.
  intros E. apply Forall_singleton. intros _. split; [reflexivity|]. intros c Hc _. rewrite E in Hc. apply list_elem_of_singleton in Hc as ->. exists (i32_bytes 1). split; [|reflexivity].
  split; [reflexivity|]. split; [|reflexivity]. split; [|intros H; discriminate H]. split; [reflexivity|]. split; [vm_compute; repeat constructor|intros H; discriminate H].
Qed.


(** ** Runs *)

(** [a > 1.5]: a [FLOAT] literal is compatible with an [INT] column, but its bits
    become the lower bound of the keys.  The record with [a = 2] satisfies the
    condition and is outside the range. *)
Definition one_half : Value := set_raw (Some (u32_bytes 1069547520)) (set_float 1069547520 (blank zeros TYPE_INT)).
Definition above_half : Condition := mkCond (mkTabCol "r" "a") OP_GT true (mkTabCol "" "") one_half.
Lemma float_bound_misses : init_raw 0 4 (set_float 1069547520 (blank zeros TYPE_INT)) = Ret one_half /\ is_compatible_type TYPE_INT TYPE_FLOAT = true /\
  checkConds zeros (record 2 0) [above_half] [col_a; col_b] = Ret true /\
  match init_key_range 0 [above_half] on_a with Ret (lo, _) => ix_compare lo (record 2 0) [TYPE_INT] [4] | _ => None end = Some 1.
Proof. vm_compute. done. Qed.

End IndexScanDemo.
