(* ===== verification/Printer.v ===== *)
(** * Output ([src/src/record_printer.h], [common/context.h])

    What a statement answers: the buffer the client receives, with the number of
    bytes used, and the file [output.txt].  [RecordPrinter] draws tables into the
    buffer as long as they fit. *)

From S2P Require Import Prelude Bytes Disk Txn Log IxDefs Values SmMeta.

(** The part of [Context] that carries output, the global flag and the file. *)
Record Context : Type := mkCtx {
  data_send_ : list Z;
  offset_ : Z;
  ellipsis_ : bool;
  output2file : bool;
  output_txt : list Z
}.
Definition ctx_set_sent (d : list Z) (o : Z) (c : Context) : Context := mkCtx d o (ellipsis_ c) (output2file c) (output_txt c).
Definition ctx_set_ellipsis (b : bool) (c : Context) : Context := mkCtx (data_send_ c) (offset_ c) b (output2file c) (output_txt c).
Definition ctx_set_file (x : list Z) (c : Context) : Context := mkCtx (data_send_ c) (offset_ c) (ellipsis_ c) (output2file c) x.

Definition BUFFER_LENGTH : Z := 8192.
Definition RECORD_COUNT_LENGTH : Z := 40.
Definition COL_WIDTH : nat := 16.

Abbreviation P := (M Context).

(** A statement's context: the buffer has been cleared. *)
Definition make_context (to_file : bool) (file : list Z) : Context := mkCtx (replicate (Z.to_nat BUFFER_LENGTH) 0) 0 false to_file file.

(** [memcpy(data_send_ + *offset_, str, length); *offset_ += length] *)
Definition copy_out (str : list Z) : P unit :=
  c ← gets id;
  d ← unwrap OutOfBounds (mem_write (offset_ c) str (data_send_ c));
  modify (ctx_set_sent d (wrap_s 32 (offset_ c + Z.of_nat (length str)))).
(** The sum is a [size_t]. *)
Definition room_for (str : list Z) (c : Context) : bool :=
  negb (ellipsis_ c) && (wrap_u 64 (offset_ c + RECORD_COUNT_LENGTH + Z.of_nat (length str)) <? BUFFER_LENGTH).
(** [mark]: whether output that does not fit is remembered. *)
Definition put (mark : bool) (str : list Z) : P unit :=
  c ← gets id;
  if room_for str c then copy_out str else if mark then modify (ctx_set_ellipsis true) else mret tt.

Definition separator : list Z := 43 :: replicate (COL_WIDTH + 2) 45.
Definition print_separator (num_cols : nat) : P unit :=
  forM (replicate num_cols separator) (put true) ;;
  put true [43; 10].

(** [std::setw(COL_WIDTH)] fills on the left. *)
Definition clip (s : list Z) : list Z := if (COL_WIDTH <? length s)%nat then take (COL_WIDTH - 3) s ++ [46; 46; 46] else s.
Definition cell_text (s : list Z) : list Z := [124; 32] ++ replicate (COL_WIDTH - length (clip s)) 32 ++ clip s ++ [32].
Definition print_record (num_cols : nat) (rec_str : list (list Z)) : P unit :=
  assert (length rec_str =? num_cols)%nat ;;
  forM rec_str (fun s => put true (cell_text s)) ;;
  put false [124; 10].

Definition print_record_count (num_rec : Z) : P unit :=
  c ← gets id;
  copy_out ((if ellipsis_ c then bytes_of_string "... ..." ++ NL else []) ++ bytes_of_string "Total record(s): " ++ put_int num_rec ++ NL).

Definition make_printer (num_cols : nat) : P unit := assert (0 <? num_cols)%nat.

(** [outfile << str] under [if (output2file)]; the file is opened for appending. *)
Definition to_file (str : list Z) : P unit := modify (fun c => if output2file c then ctx_set_file (output_txt c ++ str) c else c).
(** A line of the file: ["|"], then [" x |"] per column. *)
Definition file_line (columns : list (list Z)) : list Z := [124] ++ concat ((fun x => [32] ++ x ++ [32; 124]) <$> columns) ++ NL.

(** ** [SmManager]'s answers *)

Definition show_tables (db : DbMeta) : P unit :=
  let names := (fun e => bytes_of_string (tm_name e.2)) <$> map_entries (tabs_ db) in
  to_file (bytes_of_string "| Tables |" ++ NL ++ concat ((fun n => bytes_of_string "| " ++ n ++ bytes_of_string " |" ++ NL) <$> names)) ;;
  make_printer 1 ;;
  print_separator 1 ;;
  print_record 1 [bytes_of_string "Tables"] ;;
  print_separator 1 ;;
  forM names (fun n => print_record 1 [n]) ;;
  print_separator 1.

Definition desc_table (db : DbMeta) (tab_name : string) : P unit :=
  tab ← lift (get_table tab_name db);
  make_printer 3 ;;
  print_separator 3 ;;
  print_record 3 [bytes_of_string "Field"; bytes_of_string "Type"; bytes_of_string "Index"] ;;
  print_separator 3 ;;
  forM (tm_cols tab) (fun c => print_record 3 [bytes_of_string (cm_name c); bytes_of_string (coltype2str (cm_type c)); bytes_of_string (if cm_index c then "YES" else "NO")]) ;;
  print_separator 3.

(** ["("], each name with a comma, the last byte replaced by [")"]. *)
Definition index_text (index : IndexMeta) : list Z :=
  let s := [40] ++ concat ((fun c => bytes_of_string (cm_name c) ++ [44]) <$> im_cols index) in
  removelast s ++ [41].
Definition show_index (db : DbMeta) (tab_name : string) : P unit :=
  match tabs_ db !! tab_name with
  | None => throw IndexEntryNotFoundError
  | Some table =>
      let index_names := index_text <$> tm_indexes table in
      let name := bytes_of_string tab_name in
      to_file (concat ((fun x => bytes_of_string "| " ++ name ++ bytes_of_string " | unique | " ++ x ++ bytes_of_string " |" ++ NL) <$> index_names)) ;;
      make_printer 3 ;;
      print_separator 3 ;;
      forM index_names (fun x => print_record 3 [name; bytes_of_string "unique"; x]) ;;
      print_separator 3
  end.

(** ** Columns as text *)

(** [std::to_string(float)]: six decimals, ties to even, from the bits. *)
Definition round_even (n d : Z) : Z :=
  let q := n / d in let r := n mod d in
  if 2 * r <? d then q else if d <? 2 * r then q + 1 else if Z.even q then q else q + 1.
Definition put_float (bits : Z) : list Z :=
  let sign := if 2 ^ 31 <=? bits then [45] else [] in
  let e := (bits / 2 ^ 23) mod 2 ^ 8 in
  let m := bits mod 2 ^ 23 in
  if e =? 255 then sign ++ bytes_of_string (if m =? 0 then "inf" else "nan") else
  let man := if e =? 0 then m else m + 2 ^ 23 in
  let ex := Z.max 1 e - 150 in
  let micro := if 0 <=? ex then man * 2 ^ ex * 10 ^ 6 else round_even (man * 10 ^ 6) (2 ^ (- ex)) in
  let frac := dec 6 (micro mod 10 ^ 6) [] in
  sign ++ dec 40 (micro / 10 ^ 6) [] ++ [46] ++ replicate (6 - length frac) 48 ++ frac.

(** The C string from the pointer on, which must end inside the buffer. *)
Definition c_string (o : Z) (l : list Z) : outcome (list Z) :=
  _ ← ensure OutOfBounds ((0 <=? o) && (o <=? Z.of_nat (length l)) && existsb (Z.eqb 0) (drop (Z.to_nat o) l));
  Ret (cstr (drop (Z.to_nat o) l)).
Definition column_text (tuple : list Z) (c : ColMeta) : outcome (list Z) :=
  match cm_type c with
  | TYPE_INT => x ← read (cm_offset c) 4 tuple; Ret (put_int (i32_val x))
  | TYPE_BIGINT => x ← read (cm_offset c) 8 tuple; Ret (put_int (i64_val x))
  | TYPE_FLOAT => x ← read (cm_offset c) 4 tuple; Ret (put_float (u32_val x))
  | TYPE_DATETIME => c_string (cm_offset c) tuple
  | TYPE_STRING => x ← read (cm_offset c) (cm_len c) tuple; Ret (cstr x)
  end.
