(* ===== verification/PrinterSpec.v ===== *)
(** * The answer stays inside its buffer

    Whatever is printed, nothing is written past the buffer of the client and
    there is room for the line with the number of records; what is sent is a
    prefix of what was printed followed by that line.  [QlSpec] applies this to
    the commands that print. *)

From S2P Require Import Prelude Bytes Disk Txn Log IxDefs Values SmMeta SmMetaSpec Printer.

Module PrinterSpec.

(** What the client has been sent so far. *)
Definition sent (c : Context) : list Z := take (Z.to_nat (offset_ c)) (data_send_ c).
(** Room for the final line is kept. *)
Definition fits (c : Context) : Prop :=
  Z.of_nat (length (data_send_ c)) = BUFFER_LENGTH /\ 0 <= offset_ c /\ offset_ c + RECORD_COUNT_LENGTH < BUFFER_LENGTH.
(** The output file and the flag. *)
Definition file_of (c : Context) : bool * list Z := (output2file c, output_txt c).

Lemma copy_out_run (c : Context) (s : list Z) : Z.of_nat (length (data_send_ c)) = BUFFER_LENGTH -> 0 <= offset_ c -> offset_ c + Z.of_nat (length s) <= BUFFER_LENGTH ->
  exists c', copy_out s c = (Ret tt, c') /\ Z.of_nat (length (data_send_ c')) = BUFFER_LENGTH /\ offset_ c' = offset_ c + Z.of_nat (length s) /\
    sent c' = sent c ++ s /\ ellipsis_ c' = ellipsis_ c /\ file_of c' = file_of c.
Proof.
  intros Hl H0 Hs. unfold copy_out. erewrite bind_run by reflexivity. cbn [id]. unfold mem_write. rewrite (proj2 (Z.leb_le 0 _)), (proj2 (Z.leb_le (_ + _) _)) by lia. cbn [andb unwrap].
  erewrite bind_run by apply mret_run. unfold modify. eexists. split; [done|]. cbn [data_send_ offset_ ctx_set_sent ellipsis_]. rewrite length_splice by lia.
  assert (wrap_s 32 (offset_ c + Z.of_nat (length s)) = offset_ c + Z.of_nat (length s)) as ->. { unfold wrap_s, BUFFER_LENGTH in *. rewrite Z.mod_small by lia. lia. }
  split_and!; [done..| |done|done]. unfold sent. cbn [data_send_ offset_ ctx_set_sent]. unfold splice. rewrite app_assoc. apply take_app_length'. rewrite length_app, length_take. lia.
Qed.

(** The pieces of a table. *)
Lemma put_run (mark : bool) (s : list Z) (c : Context) : fits c -> Z.of_nat (length s) < 2 ^ 32 ->
  exists c', put mark s c = (Ret tt, c') /\ fits c' /\ file_of c' = file_of c /\
    ((sent c' = sent c ++ s /\ ellipsis_ c' = ellipsis_ c) \/ (sent c' = sent c /\ ellipsis_ c' = (mark || ellipsis_ c))).
Proof.
  intros (Hl & H0 & H1) Hs. unfold put. erewrite bind_run by reflexivity. cbn [id]. destruct (room_for s c) eqn:E.
  - unfold room_for in E. apply andb_prop in E as [_ E%Z.ltb_lt]. unfold wrap_u in E. rewrite Z.mod_small in E by (unfold BUFFER_LENGTH, RECORD_COUNT_LENGTH in *; lia).
    destruct (copy_out_run c s Hl H0) as (c' & -> & L & O & S & El & F); [unfold RECORD_COUNT_LENGTH in *; lia|]. exists c'. split; [done|]. split; [|auto]. split_and!; [done|lia|]. rewrite O. lia.
  - destruct mark; unfold modify; (eexists; split; [done|]); (split; [done|]); (split; [done|]); right; done.
Qed.

Lemma puts_run (mark : bool) (l : list (list Z)) : forall c, fits c -> Forall (fun s => Z.of_nat (length s) < 2 ^ 32) l ->
  exists c', forM l (put mark) c = (Ret tt, c') /\ fits c' /\ file_of c' = file_of c.
Proof.
  induction l as [|s l IH]; intros c Hc Hl; cbn [forM]; [by exists c|]. apply Forall_cons in Hl as [Hs Hl]. destruct (put_run mark s c Hc Hs) as (c1 & E1 & F1 & G1 & _).
  rewrite (bind_run _ _ _ _ _ E1). destruct (IH c1 F1 Hl) as (c2 & -> & F2 & G2). exists c2. by rewrite G2.
Qed.

Lemma separator_run (n : nat) (c : Context) : fits c -> exists c', print_separator n c = (Ret tt, c') /\ fits c' /\ file_of c' = file_of c.
Proof.
  intros Hc. unfold print_separator. destruct (puts_run true (replicate n separator) c Hc) as (c1 & E1 & F1 & G1); [by apply Forall_replicate|].
  rewrite (bind_run _ _ _ _ _ E1). destruct (put_run true [43; 10] c1 F1) as (c2 & E2 & F2 & G2 & _); [done|]. rewrite E2. exists c2. by rewrite G2.
Qed.

Lemma cell_text_length (s : list Z) : length (cell_text s) = (COL_WIDTH + 3)%nat.
Proof.
  unfold cell_text, clip. destruct (Nat.ltb_spec COL_WIDTH (length s)) as [H|H]; rewrite !length_app, length_replicate, ?length_app, ?length_take; cbn [length]; unfold COL_WIDTH in *; lia.
Qed.

Lemma printed_record_run (n : nat) (l : list (list Z)) (c : Context) : length l = n -> fits c -> exists c', print_record n l c = (Ret tt, c') /\ fits c' /\ file_of c' = file_of c.
Proof.
  intros <- Hc. unfold print_record. rewrite Nat.eqb_refl. erewrite bind_run by reflexivity.
  assert (forall c, fits c -> exists c', forM l (fun s => put true (cell_text s)) c = (Ret tt, c') /\ fits c' /\ file_of c' = file_of c) as H.
  { clear c Hc. induction l as [|s l IH]; intros c Hc; cbn [forM]; [by exists c|]. destruct (put_run true (cell_text s) c Hc) as (c1 & E1 & F1 & G1 & _); [by rewrite cell_text_length|].
    rewrite (bind_run _ _ _ _ _ E1). destruct (IH c1 F1) as (c2 & -> & F2 & G2). exists c2. by rewrite G2. }
  destruct (H c Hc) as (c1 & E1 & F1 & G1). rewrite (bind_run _ _ _ _ _ E1). destruct (put_run false [124; 10] c1 F1) as (c2 & E2 & F2 & G2 & _); [done|]. rewrite E2. exists c2. by rewrite G2.
Qed.

Lemma dec_length (fuel d : nat) (n : Z) : 0 <= n < 10 ^ Z.of_nat d -> (0 < d)%nat -> (length (dec fuel n []) <= d)%nat.
Proof.
  revert d n. induction fuel as [|fuel IH]; intros d n Hn Hd; [simpl; lia|]. cbn [dec]. destruct (Z.ltb_spec n 10) as [H|H]; [simpl; lia|]. rewrite MetaSpec.dec_acc, length_app. cbn [length].
  destruct d as [|[|d]]; [lia|change (10 ^ Z.of_nat 1) with 10 in Hn; lia|]. assert (0 <= n / 10 < 10 ^ Z.of_nat (S d)) as H2. { split; [apply Z.div_pos; lia|]. apply Z.div_lt_upper_bound; [lia|]. rewrite <- Z.pow_succ_r by lia. rewrite <- Nat2Z.inj_succ. lia. }
  specialize (IH (S d) (n / 10) H2 ltac:(lia)). lia.
Qed.

(** A list of records of [n] columns, as the commands of [SmManager] print them. *)
Lemma records_run {A} (n : nat) (cells : A -> list (list Z)) (l : list A) : (forall a, length (cells a) = n) -> forall c, fits c ->
  exists c', forM l (fun a => print_record n (cells a)) c = (Ret tt, c') /\ fits c' /\ file_of c' = file_of c.
Proof.
  intros Hn. induction l as [|a l IH]; intros c Hc; cbn [forM]; [by exists c|]. destruct (printed_record_run n (cells a) c (Hn a) Hc) as (c1 & E1 & F1 & G1).
  rewrite (bind_run _ _ _ _ _ E1). destruct (IH c1 F1) as (c2 & -> & F2 & G2). exists c2. by rewrite G2.
Qed.

(** The line with the number of records. *)
Definition ends_with (c : Context) (str : list Z) : Prop :=
  Z.of_nat (length (data_send_ c)) = BUFFER_LENGTH /\ 0 <= offset_ c /\ offset_ c + 1 <= BUFFER_LENGTH /\ exists shown, sent c = shown ++ str.
Definition count_line (num_rec : Z) : list Z := bytes_of_string "Total record(s): " ++ put_int num_rec ++ NL.

Lemma count_run (num_rec : Z) (c : Context) : fits c -> 0 <= num_rec < 10 ^ 14 ->
  exists c', print_record_count num_rec c = (Ret tt, c') /\ file_of c' = file_of c /\ ends_with c' (count_line num_rec).
Proof.
  intros (L1 & O1 & O2) Hr. unfold print_record_count. erewrite bind_run by reflexivity. cbn [id].
  set (pre := if ellipsis_ c then bytes_of_string "... ..." ++ NL else []). unfold count_line. set (tot := bytes_of_string "Total record(s): ").
  assert (length pre <= 8)%nat as Hp by (unfold pre; destruct (ellipsis_ c); vm_compute; lia). assert (length tot = 17%nat) as Ht by reflexivity.
  assert (length (put_int num_rec) <= 14)%nat as Hd. { unfold put_int. rewrite (proj2 (Z.ltb_ge num_rec 0)) by lia. apply dec_length; [exact Hr|lia]. }
  destruct (copy_out_run c (pre ++ tot ++ put_int num_rec ++ NL) L1 O1) as (c2 & E2 & L2 & O3 & S2 & _ & G2).
  { rewrite !length_app, Ht. unfold RECORD_COUNT_LENGTH, NL in *. cbn [length]. lia. }
  rewrite E2. exists c2. split; [done|]. split; [done|]. split; [done|]. split; [lia|]. split; [|by exists (sent c ++ pre); rewrite S2, <- !app_assoc].
  rewrite O3, !length_app, Ht. unfold RECORD_COUNT_LENGTH, NL in *. cbn [length]. lia.
Qed.

Lemma fresh_fits (f : bool) (file : list Z) : fits (make_context f file).
Proof. unfold fits, make_context. cbn [data_send_ offset_]. rewrite length_replicate, Z2Nat.id by done. done. Qed.

(** The text lies inside the buffer with at least one byte behind it for the
    terminator that is sent with it. *)
Definition in_buffer (c : Context) : Prop := Z.of_nat (length (data_send_ c)) = BUFFER_LENGTH /\ 0 <= offset_ c /\ offset_ c + 1 <= BUFFER_LENGTH.
Lemma fits_in_buffer (c : Context) : fits c -> in_buffer c.
Proof. intros (H1 & H2 & H3). split_and!; [done..|]. unfold RECORD_COUNT_LENGTH in H3. lia. Qed.

End PrinterSpec.
