(* ===== verification/QlManager.v ===== *)
(** * Running a query ([src/src/execution/execution_manager.cpp])

    [QlManager::select_from] drives the root of an executor tree and prints what
    it delivers: the rows, or their number, maximum, minimum or sum.  The root is
    any executor; the state is the database, the executor and the context. *)

From Stdlib Require Import Floats.SpecFloat.
From S2P Require Import Prelude Bytes Disk Txn Log IxDefs Values SmMeta Executors Analyze Printer Dml.

Inductive SelectTag : Type :=
| ONE_SELECT | SELECT_WITH_COUNT | SELECT_WITH_UNIQUE_COUNT | SELECT_WITH_MAX | SELECT_WITH_MIN | SELECT_WITH_SUM.

(** The captions, as every case prints them. *)
Definition print_header (n : nat) (captions : list (list Z)) : P unit :=
  print_separator n ;;
  print_record n captions ;;
  print_separator n ;;
  to_file (file_line captions).
Definition print_row (n : nat) (columns : list (list Z)) : P unit :=
  print_record n columns ;;
  to_file (file_line columns).
Definition print_footer (n : nat) (num_rec : Z) : P unit :=
  print_separator n ;;
  print_record_count num_rec.

(** The answer of [MAX] and [MIN]: the column is read at the start of the
    tuple, and a string keeps its full length. *)
Definition front_text (tuple : list Z) (c : ColMeta) : outcome (list Z) :=
  match cm_type c with
  | TYPE_INT => x ← read 0 4 tuple; Ret (put_int (i32_val x))
  | TYPE_BIGINT => x ← read 0 8 tuple; Ret (put_int (i64_val x))
  | TYPE_FLOAT => x ← read 0 4 tuple; Ret (put_float (u32_val x))
  | TYPE_STRING => read 0 (cm_len c) tuple
  | TYPE_DATETIME => Throw (InternalError "Unsupported type.")
  end.

(** [sum.int_val += val.int_val] and the like; other types are not added. *)
Definition sum_zero (g : Z) (t : ColType) : Value :=
  match t with
  | TYPE_INT => set_num t (i32_bytes 0) (blank (replicate 8 g) t)
  | TYPE_BIGINT => set_num t (i64_bytes 0) (blank (replicate 8 g) t)
  | TYPE_FLOAT => set_num t (u32_bytes 0) (blank (replicate 8 g) t)
  | _ => blank (replicate 8 g) t
  end.
Definition sum_add (t : ColType) (val sum : Value) : outcome Value :=
  match t with
  | TYPE_INT | TYPE_BIGINT | TYPE_FLOAT => self_add t val sum
  | _ => Ret sum
  end.
Definition sum_text (t : ColType) (sum : Value) : option (list Z) :=
  match t with
  | TYPE_INT => Some (put_int (int_val sum))
  | TYPE_BIGINT => Some (put_int (bigint_val sum))
  | TYPE_FLOAT => Some (put_float (u32_val (slice 0 4 (v_num sum))))
  | _ => None
  end.

Section select.
Context {D X : Type} {EX : AbstractExecutor D X} (g : Z).
Abbreviation Q := (D * X * Context)%type.

Definition on_exec {A} (m : M (D * X) A) : M Q A := zoom fst (fun x s => (x, s.2)) m.
Definition on_out {A} (m : P A) : M Q A := zoom snd (fun c s => (s.1, c)) m.

(** [for (root->beginTuple(); !root->is_end(); root->nextTuple()) body], [a]
    being the variables of the loop. *)
Fixpoint each_row {A} (body : A -> M Q A) (fuel : nat) (a : A) : M Q A :=
  match fuel with
  | O => stuck Diverges
  | S fuel =>
      e ← on_exec is_end;
      if (e : bool) then mret a else
      a ← body a;
      on_exec nextTuple ;;
      each_row body fuel a
  end.
Definition for_rows {A} (body : A -> M Q A) (fuel : nat) (a : A) : M Q A := on_exec beginTuple ;; each_row body fuel a.

(** The loop of a plain select; it counts the rows in a [size_t]. *)
Definition show_row (n : nat) (num_rec : Z) : M Q Z :=
  tuple ← on_exec Next;
  cs ← on_exec (gets (fun s => cols s.2));
  columns ← lift (over (column_text tuple) cs);
  on_out (print_row n columns) ;;
  mret (wrap_u 64 (num_rec + 1)).

Definition count_row (num_rec : Z) : M Q Z := mret (wrap_u 64 (num_rec + 1)).

(** [best] is the tuple kept so far with its value. *)
Definition best_row (op : CompOp) (c : ColMeta) (best : option (list Z * Value)) : M Q (option (list Z * Value)) :=
  tuple ← on_exec Next;
  v ← lift (load_col (replicate 8 g) tuple c);
  match best with
  | None => mret (Some (tuple, v))
  | Some (_, val) =>
      b ← lift (binop op val v);
      mret (if (b : bool) then Some (tuple, v) else best)
  end.

Definition sum_row (c : ColMeta) (sum : Value) : M Q Value :=
  tuple ← on_exec Next;
  val ← lift (load_raw (cm_len c) tuple (blank (replicate 8 g) (cm_type c)));
  lift (sum_add (cm_type c) val sum).

(** [cols().front()]: of an empty vector it is undefined. *)
Definition front_col : M Q ColMeta :=
  cs ← on_exec (gets (fun s => cols s.2));
  unwrap OutOfBounds (head cs).

Definition select_best (op : CompOp) (n fuel : nat) : M Q unit :=
  c ← front_col;
  best ← for_rows (best_row op c) fuel None;
  (match best with
   | Some (tuple, _) =>
       text ← lift (front_text tuple c);
       on_out (print_row n [text])
   | None => mret tt
   end) ;;
  on_out (print_footer n 1).

Definition select_from (fuel : nat) (sel_cols : list TabCol) (tag : SelectTag) : M Q unit :=
  let captions := (fun c => bytes_of_string (tc_col_name c)) <$> sel_cols in
  let n := length sel_cols in
  on_out (make_printer n) ;;
  on_out (print_header n captions) ;;
  match tag with
  | ONE_SELECT =>
      num_rec ← for_rows (show_row n) fuel 0;
      on_out (print_footer n num_rec)
  | SELECT_WITH_COUNT | SELECT_WITH_UNIQUE_COUNT =>
      num_rec ← for_rows count_row fuel 0;
      on_out (print_row n [put_int num_rec]) ;;
      on_out (print_footer n 1)
  | SELECT_WITH_MAX => select_best OP_LT n fuel
  | SELECT_WITH_MIN => select_best OP_GT n fuel
  | SELECT_WITH_SUM =>
      c ← front_col;
      sum ← for_rows (sum_row c) fuel (sum_zero g (cm_type c));
      (match sum_text (cm_type c) sum with
       | Some text => on_out (print_row n [text])
       | None => mret tt
       end) ;;
      on_out (print_footer n 1)
  end.
End select.
