(* ===== verification/QlSpec.v ===== *)
(** * What the printing commands answer

    Over any executor that enumerates its rows, [select_from] writes exactly one
    line per row behind the captions, and the aggregates answer the number, the
    maximum, the minimum and the sum of the column; the output of [select_from]
    and of the commands about the catalogue stays inside the buffer. *)

From S2P Require Import Prelude Bytes Disk Txn Log IxDefs Values ValuesSpec SmMeta SmMetaSpec Analyze Executors JoinSpec Printer PrinterSpec Dml QlManager.

Module QlSpec.
Import PrinterSpec ValuesSpec.

(** ** Printing *)

(** The context after [s] has been added to the output file. *)
Definition written (c : Context) (s : list Z) : bool * list Z := (output2file c, if output2file c then output_txt c ++ s else output_txt c).
Definition adds (s : list Z) (c c' : Context) : Prop := fits c' /\ file_of c' = written c s.

Lemma adds_trans (s t : list Z) (c c1 c2 : Context) : adds s c c1 -> adds t c1 c2 -> adds (s ++ t) c c2.
Proof.
  intros [_ H1] [F H2]. split; [done|]. unfold file_of, written in *. injection H1 as B1 T1. rewrite H2, B1, T1. f_equal.
  destruct (output2file c); [by rewrite app_assoc|done].
Qed.
Lemma adds_nil (c c' : Context) : fits c' -> file_of c' = file_of c -> adds [] c c'.
Proof. intros H E. split; [done|]. rewrite E. unfold file_of, written. rewrite app_nil_r. by destruct (output2file c). Qed.

Lemma file_run (s : list Z) (c : Context) : fits c -> exists c', to_file s c = (Ret tt, c') /\ adds s c c'.
Proof.
  intros H. unfold to_file, modify. eexists. split; [done|]. unfold adds, written, file_of. destruct (output2file c) eqn:E; [|by rewrite E].
  cbn [output2file output_txt ctx_set_file]. by rewrite E.
Qed.

Lemma row_printed (n : nat) (columns : list (list Z)) (c : Context) : length columns = n -> fits c ->
  exists c', print_row n columns c = (Ret tt, c') /\ adds (file_line columns) c c'.
Proof.
  intros Hn Hc. unfold print_row. destruct (printed_record_run n columns c Hn Hc) as (c1 & E1 & F1 & G1). rewrite (bind_run _ _ _ _ _ E1).
  destruct (file_run (file_line columns) c1 F1) as (c2 & E2 & A2). exists c2. split; [done|]. exact (adds_trans [] _ _ _ _ (adds_nil _ _ F1 G1) A2).
Qed.

Lemma header_printed (n : nat) (captions : list (list Z)) (c : Context) : length captions = n -> fits c ->
  exists c', print_header n captions c = (Ret tt, c') /\ adds (file_line captions) c c'.
Proof.
  intros Hn Hc. unfold print_header. destruct (separator_run n c Hc) as (c1 & E1 & F1 & G1). rewrite (bind_run _ _ _ _ _ E1).
  destruct (printed_record_run n captions c1 Hn F1) as (c2 & E2 & F2 & G2). rewrite (bind_run _ _ _ _ _ E2).
  destruct (separator_run n c2 F2) as (c3 & E3 & F3 & G3). rewrite (bind_run _ _ _ _ _ E3).
  destruct (file_run (file_line captions) c3 F3) as (c4 & E4 & A4). exists c4. split; [done|].
  refine (adds_trans [] _ _ _ _ (adds_nil _ _ F3 _) A4). by rewrite G3, G2.
Qed.

(** The last step leaves a finished answer. *)
Lemma footer_printed (n : nat) (num_rec : Z) (c : Context) : fits c -> 0 <= num_rec < 10 ^ 14 ->
  exists c', print_footer n num_rec c = (Ret tt, c') /\ file_of c' = file_of c /\ ends_with c' (count_line num_rec).
Proof.
  intros Hc Hr. unfold print_footer. destruct (separator_run n c Hc) as (c1 & E1 & F1 & G1). rewrite (bind_run _ _ _ _ _ E1).
  destruct (count_run num_rec c1 F1 Hr) as (c2 & E2 & G2 & H). exists c2. by rewrite G2.
Qed.

(** ** The commands of [SmManager] *)

Definition tables_text (db : DbMeta) : list Z :=
  bytes_of_string "| Tables |" ++ NL ++ concat ((fun e => bytes_of_string "| " ++ bytes_of_string (tm_name e.2) ++ bytes_of_string " |" ++ NL) <$> map_entries (tabs_ db)).
Definition indexes_text (tab_name : string) (tab : TabMeta) : list Z :=
  concat ((fun i => bytes_of_string "| " ++ bytes_of_string tab_name ++ bytes_of_string " | unique | " ++ index_text i ++ bytes_of_string " |" ++ NL) <$> tm_indexes tab).

(** A table of records between separators. *)
Lemma framed_run {A} (n : nat) (cells : A -> list (list Z)) (l : list A) (c : Context) : (forall a, length (cells a) = n) -> fits c ->
  exists c', (print_separator n ;; forM l (fun a => print_record n (cells a)) ;; print_separator n) c = (Ret tt, c') /\ fits c' /\ file_of c' = file_of c.
Proof.
  intros Hn Hc. destruct (separator_run n c Hc) as (c1 & E1 & F1 & G1). rewrite (bind_run _ _ _ _ _ E1).
  destruct (records_run n cells l Hn c1 F1) as (c2 & E2 & F2 & G2). rewrite (bind_run _ _ _ _ _ E2).
  destruct (separator_run n c2 F2) as (c3 & E3 & F3 & G3). exists c3. by rewrite E3, G3, G2, G1.
Qed.
Lemma titled_run {A} (n : nat) (title : list (list Z)) (cells : A -> list (list Z)) (l : list A) (c : Context) : length title = n -> (forall a, length (cells a) = n) -> fits c ->
  exists c', (print_separator n ;; print_record n title ;; print_separator n ;; forM l (fun a => print_record n (cells a)) ;; print_separator n) c = (Ret tt, c') /\
    fits c' /\ file_of c' = file_of c.
Proof.
  intros Ht Hn Hc. destruct (separator_run n c Hc) as (c1 & E1 & F1 & G1). rewrite (bind_run _ _ _ _ _ E1).
  destruct (printed_record_run n title c1 Ht F1) as (c2 & E2 & F2 & G2). rewrite (bind_run _ _ _ _ _ E2).
  destruct (framed_run n cells l c2 Hn F2) as (c3 & E3 & F3 & G3). exists c3. by rewrite E3, G3, G2, G1.
Qed.

Lemma show_tables_run (db : DbMeta) (c : Context) : fits c -> exists c', show_tables db c = (Ret tt, c') /\ adds (tables_text db) c c'.
Proof.
  intros Hc. unfold show_tables.
  set (text := bytes_of_string "| Tables |" ++ NL ++ _). replace text with (tables_text db) by (unfold text, tables_text; by rewrite <- list_fmap_compose). clear text.
  destruct (file_run (tables_text db) c Hc) as (c1 & E1 & A1). rewrite (bind_run _ _ _ _ _ E1). erewrite bind_run by reflexivity.
  destruct (titled_run 1 [bytes_of_string "Tables"] (fun x => [x]) ((fun e => bytes_of_string (tm_name e.2)) <$> map_entries (tabs_ db)) c1 eq_refl (fun _ => eq_refl) (proj1 A1)) as (c2 & E2 & F2 & G2).
  exists c2. split; [exact E2|]. rewrite <- (app_nil_r (tables_text db)). exact (adds_trans _ _ _ _ _ A1 (adds_nil _ _ F2 G2)).
Qed.

Lemma desc_table_run (db : DbMeta) (tab_name : string) (tab : TabMeta) (c : Context) : tabs_ db !! tab_name = Some tab -> fits c ->
  exists c', desc_table db tab_name c = (Ret tt, c') /\ adds [] c c'.
Proof.
  intros Ht Hc. unfold desc_table. rewrite (bind_run _ _ c c tab) by (unfold lift, get_table; by rewrite Ht). erewrite bind_run by reflexivity.
  destruct (titled_run 3 [bytes_of_string "Field"; bytes_of_string "Type"; bytes_of_string "Index"]
    (fun k => [bytes_of_string (cm_name k); bytes_of_string (coltype2str (cm_type k)); bytes_of_string (if cm_index k then "YES" else "NO")]) (tm_cols tab) c eq_refl (fun _ => eq_refl) Hc)
    as (c2 & E2 & F2 & G2). exists c2. split; [exact E2|by apply adds_nil].
Qed.

Lemma show_index_run (db : DbMeta) (tab_name : string) (tab : TabMeta) (c : Context) : tabs_ db !! tab_name = Some tab -> fits c ->
  exists c', show_index db tab_name c = (Ret tt, c') /\ adds (indexes_text tab_name tab) c c'.
Proof.
  intros Ht Hc. unfold show_index. rewrite Ht. cbn zeta.
  set (text := concat _). replace text with (indexes_text tab_name tab) by (unfold text, indexes_text; by rewrite <- list_fmap_compose). clear text.
  destruct (file_run (indexes_text tab_name tab) c Hc) as (c1 & E1 & A1). rewrite (bind_run _ _ _ _ _ E1). erewrite bind_run by reflexivity.
  destruct (framed_run 3 (fun x => [bytes_of_string tab_name; bytes_of_string "unique"; x]) (index_text <$> tm_indexes tab) c1 (fun _ => eq_refl) (proj1 A1)) as (c2 & E2 & F2 & G2).
  exists c2. split; [exact E2|]. rewrite <- (app_nil_r (indexes_text tab_name tab)). exact (adds_trans _ _ _ _ _ A1 (adds_nil _ _ F2 G2)).
Qed.

(** ** The loop over the rows *)

Section loop.
Context {D X : Type} {EX : AbstractExecutor D X} (I : D -> Prop) {LX : ExecutorLaws D X I} (rows : list row).
Abbreviation Q := (D * X * Context)%type.

Lemma exec_run {A} (m : M (D * X) A) (d d' : D) (x x' : X) (c : Context) (r : outcome A) :
  m (d, x) = (r, (d', x')) -> on_exec m (d, x, c) = (r, (d', x', c)).
Proof. intros H. unfold on_exec, zoom. cbn [fst snd]. by rewrite H. Qed.
Lemma out_run {A} (m : P A) (d : D) (x : X) (c c' : Context) (r : outcome A) :
  m c = (r, c') -> on_out m (d, x, c) = (r, (d, x, c')).
Proof. intros H. unfold on_out, zoom. cbn [fst snd]. by rewrite H. Qed.

(** What the body of the loop does with one row, [Inv pre] holding of the
    variables and the context when the rows [pre] have been seen. *)
Definition body_ok {A} (body : A -> M Q A) (Inv : list row -> A -> Context -> Prop) : Prop := forall pre r rest a d x c,
  rows = pre ++ r :: rest -> I d -> at_ rows (r :: rest) x -> Inv pre a c ->
  exists a' d' x' c', body a (d, x, c) = (Ret a', (d', x', c')) /\ I d' /\ at_ rows (r :: rest) x' /\ Inv (pre ++ [r]) a' c'.

Lemma each_row_ok {A} (body : A -> M Q A) (Inv : list row -> A -> Context -> Prop) : body_ok body Inv ->
  forall rest pre fuel a d x c, rows = pre ++ rest -> I d -> at_ rows rest x -> Inv pre a c -> (length rest < fuel)%nat ->
  exists a' d' x' c', each_row body fuel a (d, x, c) = (Ret a', (d', x', c')) /\ I d' /\ at_ rows [] x' /\ Inv rows a' c'.
Proof.
  intros Hb. induction rest as [|r rest IH]; intros pre [|fuel] a d x c Hr Hd Ha Hi Hf; simpl in Hf; try lia;
    cbn [each_row]; rewrite (bind_run _ _ _ _ _ (exec_run _ _ _ _ _ c _ (is_end_ok d x _ _ Hd Ha))).
  - rewrite bool_decide_eq_true_2 by done. rewrite app_nil_r in Hr. subst pre. by exists a, d, x, c.
  - rewrite bool_decide_eq_false_2 by done. destruct (Hb pre r rest a d x c Hr Hd Ha Hi) as (a1 & d1 & x1 & c1 & R1 & I1 & A1 & V1).
    rewrite (bind_run _ _ _ _ _ R1). destruct (next_ok d1 x1 _ _ _ I1 A1) as (d2 & x2 & R2 & I2 & A2).
    rewrite (bind_run _ _ _ _ _ (exec_run _ _ _ _ _ c1 _ R2)).
    apply (IH (pre ++ [r])); try done; [by rewrite <- app_assoc|lia].
Qed.

(** The loop ends undefined when the body does at the row behind [k] rows. *)
Lemma each_row_stuck {A} (body : A -> M Q A) (Inv : list row -> A -> Context -> Prop) (k : nat) (w : fault) :
  (forall pre r rest a d x c, rows = pre ++ r :: rest -> I d -> at_ rows (r :: rest) x -> Inv pre a c ->
    if (length pre =? k)%nat then exists s', body a (d, x, c) = (Stuck w, s')
    else exists a' d' x' c', body a (d, x, c) = (Ret a', (d', x', c')) /\ I d' /\ at_ rows (r :: rest) x' /\ Inv (pre ++ [r]) a' c') ->
  forall rest pre fuel a d x c, rows = pre ++ rest -> I d -> at_ rows rest x -> Inv pre a c -> (length rest < fuel)%nat -> (length pre <= k < length rows)%nat ->
  exists s', each_row body fuel a (d, x, c) = (Stuck w, s').
Proof.
  intros Hb. induction rest as [|r rest IH]; intros pre [|fuel] a d x c Hr Hd Ha Hi Hf Hk; simpl in Hf; try lia.
  - rewrite app_nil_r in Hr. subst pre. lia.
  - cbn [each_row]. rewrite (bind_run _ _ _ _ _ (exec_run _ _ _ _ _ c _ (is_end_ok d x _ _ Hd Ha))). rewrite bool_decide_eq_false_2 by done.
    specialize (Hb pre r rest a d x c Hr Hd Ha Hi). destruct (Nat.eqb_spec (length pre) k) as [E|E].
    + destruct Hb as [s' E']. unfold mbind at 1, M_bind at 1. rewrite E'. by exists s'.
    + destruct Hb as (a1 & d1 & x1 & c1 & R1 & I1 & A1 & V1).
      rewrite (bind_run _ _ _ _ _ R1). destruct (next_ok d1 x1 _ _ _ I1 A1) as (d2 & x2 & R2 & I2 & A2).
      rewrite (bind_run _ _ _ _ _ (exec_run _ _ _ _ _ c1 _ R2)).
      apply (IH (pre ++ [r])); try done; [by rewrite <- app_assoc|lia|rewrite length_app; simpl; lia].
Qed.

Lemma for_rows_ok {A} (body : A -> M Q A) (Inv : list row -> A -> Context -> Prop) (fuel : nat) (a : A) (d : D) (x : X) (c : Context) :
  body_ok body Inv -> I d -> over rows x -> Inv [] a c -> (length rows < fuel)%nat ->
  exists a' d' x' c', for_rows body fuel a (d, x, c) = (Ret a', (d', x', c')) /\ I d' /\ at_ rows [] x' /\ Inv rows a' c'.
Proof.
  intros Hb Hd Ho Hi Hf. unfold for_rows. destruct (begin_ok d x rows Hd Ho) as (d1 & x1 & R1 & I1 & A1).
  rewrite (bind_run _ _ _ _ _ (exec_run _ _ _ _ _ c _ R1)). by apply (each_row_ok body Inv Hb rows []).
Qed.
End loop.

(** ** Rows *)

Section select.
Context {D X : Type} {EX : AbstractExecutor D X} (I : D -> Prop) {LX : ExecutorLaws D X I} (g : Z) (rows : list row) (cs : list ColMeta).
Context (Hcols : forall x, over rows x -> cols x = cs).

Definition captions (sel_cols : list TabCol) : list (list Z) := (fun c => bytes_of_string (tc_col_name c)) <$> sel_cols.

Lemma record_seen (r : row) (rest : list row) (d : D) (x : X) (c : Context) : I d -> at_ rows (r :: rest) x ->
  exists d' x', on_exec Next (d, x, c) = (Ret r, (d', x', c)) /\ I d' /\ at_ rows (r :: rest) x' /\ cols x' = cs.
Proof.
  intros Hd Ha. destruct (record_ok d x _ _ _ Hd Ha) as (d1 & x1 & R1 & I1 & A1). exists d1, x1. split; [by apply exec_run|].
  split_and!; [done..|]. eapply Hcols, at_over, A1.
Qed.

(** The texts of the rows, as [select_from] prints them. *)
Definition row_texts (texts : list (list (list Z))) : Prop := Forall2 (fun r t => Analyze.over (column_text r) cs = Ret t) rows texts.

Lemma texts_length (l : list ColMeta) (r : row) (t : list (list Z)) : Analyze.over (column_text r) l = Ret t -> length t = length l.
Proof.
  revert t. induction l as [|a l IH]; intros t H; cbn [Analyze.over] in H; [by injection H as <-|].
  apply obind_Ret in H as (b & _ & H). apply obind_Ret in H as (t' & H' & [= <-]). simpl. by rewrite (IH _ H').
Qed.

Lemma show_row_ok (texts : list (list (list Z))) (c0 : Context) : row_texts texts -> Z.of_nat (length rows) < 2 ^ 64 ->
  body_ok I rows (show_row (length cs)) (fun pre a c => a = Z.of_nat (length pre) /\ adds (concat (file_line <$> take (length pre) texts)) c0 c).
Proof.
  intros Ht Hlen pre r rest a d x c Hr Hd Ha [-> Hc]. destruct (record_seen r rest d x c Hd Ha) as (d1 & x1 & R1 & I1 & A1 & C1).
  unfold show_row. rewrite (bind_run _ _ _ _ _ R1). rewrite (bind_run _ _ (d1, x1, c) (d1, x1, c) cs) by (apply exec_run; unfold gets; cbn [snd]; by rewrite C1).
  destruct (Forall2_lookup_l _ _ _ (length pre) r Ht) as (t & Et & Ec); [rewrite Hr; by apply list_lookup_middle|]. unfold lift. rewrite Ec.
  rewrite (bind_run _ _ (d1, x1, c) (d1, x1, c) t) by done.
  destruct (row_printed (length cs) t c (texts_length _ _ _ Ec) (proj1 Hc)) as (c1 & E1 & G1). rewrite (bind_run _ _ _ _ _ (out_run _ d1 x1 _ _ _ E1)).
  eexists _, d1, x1, c1. split; [done|]. split; [done|]. split; [done|]. rewrite length_app. cbn [length]. split.
  - unfold wrap_u. rewrite Z.mod_small; [lia|]. rewrite Hr, length_app in Hlen. simpl in Hlen. lia.
  - rewrite Nat.add_1_r, (take_S_r _ _ _ Et), fmap_app, concat_app. simpl. rewrite app_nil_r. exact (adds_trans _ _ _ _ _ Hc G1).
Qed.

(** The part of [select_from] before the switch. *)
Lemma select_header (fuel : nat) (sel_cols : list TabCol) (tag : SelectTag) (d : D) (x : X) (c : Context) : fits c -> sel_cols <> [] ->
  exists c1, adds (file_line (captions sel_cols)) c c1 /\ select_from g fuel sel_cols tag (d, x, c) =
    match tag with
    | ONE_SELECT => num_rec ← for_rows (show_row (length sel_cols)) fuel 0; on_out (print_footer (length sel_cols) num_rec)
    | SELECT_WITH_COUNT | SELECT_WITH_UNIQUE_COUNT =>
        num_rec ← for_rows count_row fuel 0; on_out (print_row (length sel_cols) [put_int num_rec]) ;; on_out (print_footer (length sel_cols) 1)
    | SELECT_WITH_MAX => select_best g OP_LT (length sel_cols) fuel
    | SELECT_WITH_MIN => select_best g OP_GT (length sel_cols) fuel
    | SELECT_WITH_SUM =>
        c ← front_col; sum ← for_rows (sum_row g c) fuel (sum_zero g (cm_type c));
        (match sum_text (cm_type c) sum with Some text => on_out (print_row (length sel_cols) [text]) | None => mret tt end) ;;
        on_out (print_footer (length sel_cols) 1)
    end (d, x, c1).
Proof.
  intros Hc Hs. destruct (header_printed (length sel_cols) (captions sel_cols) c (length_fmap _ _) Hc) as (c1 & E1 & A1). exists c1. split; [done|].
  unfold select_from. rewrite (bind_run _ _ (d, x, c) (d, x, c) tt).
  - fold (captions sel_cols). by rewrite (bind_run _ _ _ _ _ (out_run _ d x _ _ _ E1)).
  - apply out_run. unfold make_printer. destruct sel_cols; [done|]. reflexivity.
Qed.

(** A plain select answers exactly the rows.  Over an executor that
    enumerates [rows] with the columns [cs], whose texts are [texts],
    [select_from] ends normally with the database invariant kept, appends to the
    output file the line of captions and one line per row, in order, and what
    the client is sent fits its buffer and ends with the number of rows. *)
Theorem select_prints_rows (texts : list (list (list Z))) (fuel : nat) (sel_cols : list TabCol) (d : D) (x : X) (c : Context) :
  I d -> over rows x -> row_texts texts -> length sel_cols = length cs -> cs <> [] -> fits c ->
  Z.of_nat (length rows) < 10 ^ 14 -> (length rows < fuel)%nat ->
  exists d' x' c', select_from g fuel sel_cols ONE_SELECT (d, x, c) = (Ret tt, (d', x', c')) /\ I d' /\
    file_of c' = written c (file_line (captions sel_cols) ++ concat (file_line <$> texts)) /\
    ends_with c' (count_line (Z.of_nat (length rows))).
Proof.
  intros Hd Ho Ht Hs H0 Hc Hn Hf. destruct (select_header fuel sel_cols ONE_SELECT d x c Hc) as (c1 & A1 & ->); [by intros ->; destruct cs|].
  rewrite Hs. destruct (for_rows_ok I rows _ _ fuel 0 d x c1 (show_row_ok texts c1 Ht ltac:(lia)) Hd Ho) as (a & d2 & x2 & c2 & R2 & I2 & _ & -> & G2); [|done|].
  { split; [done|]. apply adds_nil; [apply A1|done]. }
  rewrite (bind_run _ _ _ _ _ R2). destruct (footer_printed (length cs) (Z.of_nat (length rows)) c2 (proj1 G2)) as (c3 & E3 & F3 & L3); [lia|].
  exists d2, x2, c3. split; [by apply out_run|]. split; [done|]. split; [|done].
  rewrite (Forall2_length _ _ _ Ht), firstn_all in G2. rewrite F3. apply (adds_trans _ _ _ _ _ A1 G2).
Qed.

(** C7: output stays inside the buffer.  From a fresh context, [show_tables]
    over any catalogue, [desc_table] and [show_index] of a table that exists,
    and a plain [select_from] over any executor that enumerates its rows, fewer
    than 10^14, whatever their number and the lengths of their texts, end
    normally: no write leaves the [BUFFER_LENGTH] bytes and one byte behind the
    text stays free for the terminator.  The three commands print no count line
    (the text of the first and the third goes to the output file, [desc_table]
    writes nothing there); the select ends with the line that counts its rows.
    Asked for a table that does not exist, [desc_table] and [show_index] throw
    their errors and print nothing. *)
Theorem output_in_bounds (db : DbMeta) (tab_name : string) (f : bool) (file : list Z)
    (texts : list (list (list Z))) (fuel : nat) (sel_cols : list TabCol) (d : D) (x : X) :
  I d -> over rows x -> row_texts texts -> length sel_cols = length cs -> cs <> [] -> Z.of_nat (length rows) < 10 ^ 14 -> (length rows < fuel)%nat ->
  let c := make_context f file in
  (exists c', show_tables db c = (Ret tt, c') /\ in_buffer c' /\ file_of c' = written c (tables_text db)) /\
  match tabs_ db !! tab_name with
  | None => desc_table db tab_name c = (Throw (TableNotFoundError tab_name), c) /\ show_index db tab_name c = (Throw IndexEntryNotFoundError, c)
  | Some tab =>
      (exists c', desc_table db tab_name c = (Ret tt, c') /\ in_buffer c' /\ file_of c' = file_of c) /\
      (exists c', show_index db tab_name c = (Ret tt, c') /\ in_buffer c' /\ file_of c' = written c (indexes_text tab_name tab))
  end /\
  (exists d' x' c', select_from g fuel sel_cols ONE_SELECT (d, x, c) = (Ret tt, (d', x', c')) /\ in_buffer c' /\
     exists shown, sent c' = shown ++ bytes_of_string "Total record(s): " ++ put_int (Z.of_nat (length rows)) ++ NL).
Proof.
  intros Hd Ho Ht Hs H0 Hn Hf c. pose proof (fresh_fits f file) as Hc. fold c in Hc. split_and!.
  - destruct (show_tables_run db c Hc) as (c' & E & F & G). exists c'. split_and!; [done|by apply fits_in_buffer|done].
  - destruct (tabs_ db !! tab_name) as [tab|] eqn:Et.
    + destruct (desc_table_run db tab_name tab c Et Hc) as (c1 & E1 & F1 & G1), (show_index_run db tab_name tab c Et Hc) as (c2 & E2 & F2 & G2).
      split; [exists c1|exists c2]; (split_and!; [done|by apply fits_in_buffer|]); [|done]. rewrite G1. unfold written, file_of. rewrite app_nil_r. by destruct (output2file c).
    + split; [|unfold show_index; by rewrite Et]. unfold desc_table, mbind, M_bind, lift, get_table. by rewrite Et.
  - destruct (select_prints_rows texts fuel sel_cols d x c Hd Ho Ht Hs H0 Hc Hn Hf) as (d' & x' & c' & E & _ & _ & (H1 & H2 & H3 & H4)).
    exists d', x', c'. split; [done|]. by split.
Qed.

(** ** Aggregates of an integer column *)

Section aggregate.
Context (c0 : ColMeta) (vals : list Z) (Hfront : head cs = Some c0).
Context (Ht : cm_type c0 = TYPE_INT) (Hl : cm_len c0 = 4) (Ho : cm_offset c0 = 0).

(** The column of a row. *)
Definition int_col (r : row) (v : Z) : Prop := exists b, read 0 4 r = Ret b /\ i32_val b = v.
Context (Hvals : Forall2 int_col rows vals).

Definition extremum (f : Z -> Z -> Z) (l : list Z) : option Z := match l with [] => None | v :: l => Some (foldl f v l) end.
Definition aggregate (tag : SelectTag) (l : list Z) : option Z :=
  match tag with
  | ONE_SELECT => None
  | SELECT_WITH_COUNT | SELECT_WITH_UNIQUE_COUNT => Some (Z.of_nat (length l))
  | SELECT_WITH_MAX => extremum Z.max l
  | SELECT_WITH_MIN => extremum Z.min l
  | SELECT_WITH_SUM => Some (foldl Z.add 0 l)
  end.

Lemma extremum_snoc (f : Z -> Z -> Z) (l : list Z) (v : Z) : extremum f (l ++ [v]) = Some (match extremum f l with Some b => f b v | None => v end).
Proof. destruct l as [|w l]; [done|]. simpl. by rewrite foldl_app. Qed.

Lemma load_int (r : row) (v : Z) : int_col r v ->
  exists w, load_raw 4 r (blank (replicate 8 g) TYPE_INT) = Ret w /\ v_type w = TYPE_INT /\ int_val w = v.
Proof.
  intros (b & E & <-). eexists. unfold load_raw. cbn [v_type blank raw]. rewrite bool_decide_eq_true_2 by done. simpl. rewrite E. split; [done|]. split; [done|].
  unfold int_val. cbn [v_num set_num blank]. rewrite num_after; [done|]. unfold read in E. destruct (mem_read 0 4 r) as [d|] eqn:Er; [|done].
  injection E as <-. exact (length_mem_read _ _ _ _ Er).
Qed.

Lemma load_front (r : row) (v : Z) : int_col r v ->
  exists w, load_col (replicate 8 g) r c0 = Ret w /\ v_type w = TYPE_INT /\ int_val w = v.
Proof.
  intros Hv. destruct (load_int r v Hv) as (w & E & H). exists w. split; [|done]. unfold load_col. rewrite Ho, Hl, Ht, (proj2 (Z.leb_le 0 (Z.of_nat _))) by lia.
  cbn [andb ensure Z.leb Z.compare mbind outcome_bind]. exact E.
Qed.

Lemma front_run (d : D) (x : X) (c : Context) : over rows x -> front_col (d, x, c) = (Ret c0, (d, x, c)).
Proof. intros Hx. unfold front_col. rewrite (bind_run _ _ (d, x, c) (d, x, c) cs) by (apply exec_run; unfold gets; cbn [snd]; by rewrite Hcols). by rewrite Hfront. Qed.

Lemma taken (pre rest : list row) (r : row) : rows = pre ++ r :: rest -> exists v, int_col r v /\ take (length (pre ++ [r])) vals = take (length pre) vals ++ [v].
Proof.
  intros E. destruct (Forall2_lookup_l _ _ _ (length pre) r Hvals) as (v & Ev & H); [rewrite E; by apply list_lookup_middle|].
  exists v. split; [done|]. rewrite length_app, Nat.add_1_r. by apply take_S_r.
Qed.

(** The row kept so far is one with the extreme value. *)
Definition best_of (f : Z -> Z -> Z) (c1 : Context) (pre : list row) (best : option (list Z * Value)) (c : Context) : Prop :=
  c = c1 /\ match best with
            | None => extremum f (take (length pre) vals) = None
            | Some (t, v) => extremum f (take (length pre) vals) = Some (int_val v) /\ v_type v = TYPE_INT /\ int_col t (int_val v)
            end.
Lemma best_row_ok (op : CompOp) (f : Z -> Z -> Z) (c1 : Context) : (forall a b, f a b = if op_int op a b then b else a) ->
  body_ok I rows (best_row g op c0) (best_of f c1).
Proof.
  intros Hop pre r rest best d x c Hr Hd Ha [-> Hb]. destruct (record_seen r rest d x c1 Hd Ha) as (d1 & x1 & R1 & I1 & A1 & _).
  destruct (taken pre rest r Hr) as (v & Hv & Et). destruct (load_front r v Hv) as (w & Ew & Tw & <-).
  unfold best_row. rewrite (bind_run _ _ _ _ _ R1). unfold lift. rewrite (bind_run _ _ (d1, x1, c1) (d1, x1, c1) w) by (by rewrite Ew).
  unfold best_of. rewrite Et. destruct best as [[t u]|].
  - destruct Hb as (Eb & Tu & Hu). unfold binop. rewrite Tu, Tw. rewrite (bind_run _ _ (d1, x1, c1) (d1, x1, c1) (op_int op (int_val u) (int_val w))) by done.
    eexists _, d1, x1, c1. split; [done|]. split; [done|]. split; [done|]. split; [done|]. rewrite extremum_snoc, Eb, Hop. by destruct (op_int op _ _).
  - eexists _, d1, x1, c1. split; [done|]. split; [done|]. split; [done|]. split; [done|]. rewrite extremum_snoc. by rewrite Hb.
Qed.

Lemma count_row_ok (c1 : Context) : Z.of_nat (length rows) < 2 ^ 64 -> body_ok I rows count_row (fun pre a c => c = c1 /\ a = Z.of_nat (length pre)).
Proof.
  intros Hn pre r rest a d x c Hr Hd Ha [-> ->]. unfold count_row. eexists _, d, x, c1. split; [done|]. split; [done|]. split; [done|]. split; [done|].
  rewrite length_app. cbn [length]. unfold wrap_u. rewrite Z.mod_small; [lia|]. rewrite Hr, length_app in Hn. simpl in Hn. lia.
Qed.

Lemma sum_row_ok (c1 : Context) : (forall n, in_i32 (foldl Z.add 0 (take n vals)) = true) ->
  body_ok I rows (sum_row g c0) (fun pre a c => c = c1 /\ int_val a = foldl Z.add 0 (take (length pre) vals)).
Proof.
  intros Hi pre r rest a d x c Hr Hd Ha [-> Es]. destruct (record_seen r rest d x c1 Hd Ha) as (d1 & x1 & R1 & I1 & A1 & _).
  destruct (taken pre rest r Hr) as (v & Hv & Et). destruct (load_int r v Hv) as (w & Ew & Tw & <-).
  unfold sum_row. rewrite (bind_run _ _ _ _ _ R1). rewrite Hl, Ht, Ew. unfold lift. rewrite (bind_run _ _ (d1, x1, c1) (d1, x1, c1) w) by done.
  pose proof (Hi (length (pre ++ [r]))) as Hz. rewrite Et, foldl_app in Hz. simpl in Hz. rewrite <- Es in Hz.
  unfold sum_add, self_add. rewrite Hz. cbn [ensure mbind outcome_bind]. eexists _, d1, x1, c1. split; [done|]. split; [done|]. split; [done|]. split; [done|].
  rewrite Et, foldl_app. simpl. rewrite <- Es. unfold int_val at 1. cbn [v_num set_num]. rewrite num_after by apply length_i32_bytes. by apply i32_roundtrip.
Qed.

(** The first partial sum outside the [int] range is undefined. *)
Lemma sum_row_stuck (c1 : Context) (k : nat) : (forall n, (n <= k)%nat -> in_i32 (foldl Z.add 0 (take n vals)) = true) -> in_i32 (foldl Z.add 0 (take (S k) vals)) = false ->
  forall pre r rest a d x c, rows = pre ++ r :: rest -> I d -> at_ rows (r :: rest) x -> (c = c1 /\ int_val a = foldl Z.add 0 (take (length pre) vals)) -> (length pre <= k)%nat ->
  if (length pre =? k)%nat then exists s', sum_row g c0 a (d, x, c) = (Stuck SignedOverflow, s')
  else exists a' d' x' c', sum_row g c0 a (d, x, c) = (Ret a', (d', x', c')) /\ I d' /\ at_ rows (r :: rest) x' /\
    c' = c1 /\ int_val a' = foldl Z.add 0 (take (length (pre ++ [r])) vals).
Proof.
  intros Hlow Hk pre r rest a d x c Hr Hd Ha [-> Es] Hpre. destruct (record_seen r rest d x c1 Hd Ha) as (d1 & x1 & R1 & I1 & A1 & _).
  destruct (taken pre rest r Hr) as (v & Hv & Et). destruct (load_int r v Hv) as (w & Ew & Tw & <-).
  assert (sum_row g c0 a (d, x, c1) = lift (sum_add TYPE_INT w a) (d1, x1, c1)) as ->.
  { unfold sum_row. rewrite (bind_run _ _ _ _ _ R1). rewrite Hl, Ht, Ew. unfold lift at 1. by rewrite (bind_run _ _ (d1, x1, c1) (d1, x1, c1) w). }
  destruct (Nat.eqb_spec (length pre) k) as [E|E].
  - rewrite <- E in Hk. rewrite length_app, Nat.add_1_r in Et. rewrite Et, foldl_app in Hk. simpl in Hk. rewrite <- Es in Hk.
    unfold sum_add, self_add. rewrite Hk. by eexists.
  - pose proof (Hlow (length (pre ++ [r])) ltac:(rewrite length_app; simpl; lia)) as Hz. rewrite Et, foldl_app in Hz. simpl in Hz. rewrite <- Es in Hz.
    unfold sum_add, self_add. rewrite Hz. cbn [ensure mbind outcome_bind]. eexists _, d1, x1, c1. split; [done|]. split; [done|]. split; [done|]. split; [done|].
    rewrite Et, foldl_app. simpl. rewrite <- Es. unfold int_val at 1. cbn [v_num set_num]. rewrite num_after by apply length_i32_bytes. by apply i32_roundtrip.
Qed.

(** The least such partial sum. *)
Lemma first_overflow (n : nat) : in_i32 (foldl Z.add 0 (take n vals)) = false ->
  exists k, (k < length vals)%nat /\ (forall m, (m <= k)%nat -> in_i32 (foldl Z.add 0 (take m vals)) = true) /\ in_i32 (foldl Z.add 0 (take (S k) vals)) = false.
Proof.
  induction n as [n IH] using lt_wf_ind. intros Hn. destruct n as [|n]; [done|].
  destruct (existsb (fun m => negb (in_i32 (foldl Z.add 0 (take m vals)))) (seq 0 (S n))) eqn:Hf.
  - apply existsb_exists in Hf as (m & Hm%in_seq & E%negb_true_iff). apply (IH m); [lia|done].
  - assert (forall m, (m <= n)%nat -> in_i32 (foldl Z.add 0 (take m vals)) = true) as Hall.
    { intros m Hm. destruct (in_i32 (foldl Z.add 0 (take m vals))) eqn:E; [done|]. apply not_true_iff_false in Hf. destruct Hf. apply existsb_exists.
      exists m. split; [apply in_seq; lia|by rewrite E]. }
    exists n. split_and!; [|done..]. destruct (decide (n < length vals)%nat) as [|Hge]; [done|].
    pose proof (Hall n ltac:(lia)) as E. rewrite take_ge in E by lia. rewrite take_ge in Hn by lia. congruence.
Qed.

(** The end of an aggregate: its answer, if there is one, and one record. *)
Definition answers (v : option Z) (sel_cols : list TabCol) (c c' : Context) : Prop :=
  file_of c' = written c (file_line (captions sel_cols) ++ match v with Some z => file_line [put_int z] | None => [] end) /\ ends_with c' (count_line 1).
Lemma answered (v : option Z) (sel_cols : list TabCol) (d : D) (x : X) (c c1 : Context) : length sel_cols = 1%nat -> adds (file_line (captions sel_cols)) c c1 ->
  exists c', ((match v with Some z => on_out (print_row 1 [put_int z]) | None => mret tt end) ;; on_out (print_footer 1 1)) (d, x, c1) = (Ret tt, (d, x, c')) /\
    answers v sel_cols c c'.
Proof.
  intros Hn A1. assert (exists c2, match v with Some z => on_out (print_row 1 [put_int z]) | None => mret tt end (d, x, c1) = (Ret tt, (d, x, c2)) /\
    adds (match v with Some z => file_line [put_int z] | None => [] end) c1 c2) as (c2 & E2 & A2).
  { destruct v as [z|]; [|exists c1; split; [done|]; by apply adds_nil; [apply A1|]].
    destruct (row_printed 1 [put_int z] c1 eq_refl (proj1 A1)) as (c2 & E2 & A2). exists c2. split; [by apply out_run|done]. }
  rewrite (bind_run _ _ _ _ _ E2). destruct (footer_printed 1 1 c2 (proj1 A2)) as (c3 & E3 & F3 & L3); [lia|]. exists c3. split; [by apply out_run|].
  split; [|done]. rewrite F3. apply (adds_trans _ _ _ _ _ A1 A2).
Qed.

Lemma front_text_int (t : row) (v : Z) : int_col t v -> front_text t c0 = Ret (put_int v).
Proof. intros (b & E & <-). unfold front_text. by rewrite Ht, E. Qed.

Lemma best_answers (op : CompOp) (f : Z -> Z -> Z) (fuel : nat) (sel_cols : list TabCol) (d : D) (x : X) (c c1 : Context) :
  (forall a b, f a b = if op_int op a b then b else a) -> I d -> over rows x -> length sel_cols = 1%nat -> adds (file_line (captions sel_cols)) c c1 -> (length rows < fuel)%nat ->
  exists d' x' c', select_best g op 1 fuel (d, x, c1) = (Ret tt, (d', x', c')) /\ I d' /\ answers (extremum f vals) sel_cols c c'.
Proof.
  intros Hop Hd Hx Hn A1 Hf. unfold select_best. rewrite (bind_run _ _ _ _ _ (front_run d x c1 Hx)).
  destruct (for_rows_ok I rows _ _ fuel None d x c1 (best_row_ok op f c1 Hop) Hd Hx) as (best & d2 & x2 & c2 & R2 & I2 & _ & -> & Hb); [done|done|].
  rewrite (bind_run _ _ _ _ _ R2). rewrite (Forall2_length _ _ _ Hvals), firstn_all in Hb.
  destruct (answered (extremum f vals) sel_cols d2 x2 c c1 Hn A1) as (c' & E' & H'). exists d2, x2, c'. split; [|done]. rewrite <- E'.
  destruct best as [[t v]|]; [|by rewrite Hb]. destruct Hb as (-> & _ & Hv). by rewrite (front_text_int t _ Hv).
Qed.

Lemma sum_overflows (n fuel : nat) (sel_cols : list TabCol) (d : D) (x : X) (c : Context) :
  I d -> over rows x -> length sel_cols = 1%nat -> fits c -> (length rows < fuel)%nat -> in_i32 (foldl Z.add 0 (take n vals)) = false ->
  exists s', select_from g fuel sel_cols SELECT_WITH_SUM (d, x, c) = (Stuck SignedOverflow, s').
Proof.
  intros Hd Hx Hn Hc Hf (k & Hk & Hlow & Hov)%first_overflow. destruct (select_header fuel sel_cols SELECT_WITH_SUM d x c Hc) as (c1 & A1 & ->); [by intros ->|].
  rewrite (bind_run _ _ _ _ _ (front_run d x c1 Hx)), Ht. rewrite <- (Forall2_length _ _ _ Hvals) in Hk.
  destruct (begin_ok d x rows Hd Hx) as (d1 & x1 & R1 & I1 & At1).
  destruct (each_row_stuck I rows (sum_row g c0) (fun pre a c => (length pre <= k)%nat /\ c = c1 /\ int_val a = foldl Z.add 0 (take (length pre) vals)) k SignedOverflow)
    with (rest := rows) (pre := @nil row) (fuel := fuel) (a := sum_zero g TYPE_INT) (d := d1) (x := x1) (c := c1) as [s' E]; try done.
  - intros pre r rest a d2 x2 c2 Hr Hd2 Ha2 [Hpre Hinv]. pose proof (sum_row_stuck c1 k Hlow Hov pre r rest a d2 x2 c2 Hr Hd2 Ha2 Hinv Hpre) as Hs.
    destruct (Nat.eqb_spec (length pre) k) as [Ek|Ek]; [done|]. destruct Hs as (a' & d' & x' & c' & H1 & H2 & H3 & H4).
    exists a', d', x', c'. split_and!; try done; [rewrite length_app; simpl; lia|apply H4..].
  - split; [simpl; lia|]. split; [done|]. unfold sum_zero, int_val. cbn [v_num set_num blank]. by rewrite num_after.
  - simpl. lia.
  - exists s'. unfold for_rows, mbind, M_bind. rewrite (exec_run _ _ _ _ _ c1 _ R1). by rewrite E.
Qed.

(** C16: the aggregates are right.  Over an executor that enumerates [rows],
    whose first column is an [INT] at the front of the row and holds [vals],
    [COUNT] answers their number, [MAX] and [MIN] the largest and the smallest
    value, and [SUM] their sum when no partial sum leaves the [int] range; the
    answer is the one line behind the caption in the output file, the client is
    told of one record, and the database invariant is kept.  [MAX] and [MIN] over
    no rows print no line (and still tell of one record), and when some partial
    sum leaves the [int] range the addition of [SUM] is undefined. *)
Theorem aggregate_correct (tag : SelectTag) (fuel : nat) (sel_cols : list TabCol) (d : D) (x : X) (c : Context) :
  tag <> ONE_SELECT -> I d -> over rows x -> length sel_cols = 1%nat -> fits c -> Z.of_nat (length rows) < 2 ^ 64 -> (length rows < fuel)%nat ->
  ((tag = SELECT_WITH_SUM -> forall n, in_i32 (foldl Z.add 0 (take n vals)) = true) ->
   exists d' x' c', select_from g fuel sel_cols tag (d, x, c) = (Ret tt, (d', x', c')) /\ I d' /\ answers (aggregate tag vals) sel_cols c c') /\
  (tag = SELECT_WITH_SUM -> (exists n, in_i32 (foldl Z.add 0 (take n vals)) = false) ->
   exists s', select_from g fuel sel_cols tag (d, x, c) = (Stuck SignedOverflow, s')).
Proof.
  intros Htag Hd Hx Hn Hc Hlen Hf. split; [intros Hsum|intros -> [n0 Hov]; by apply sum_overflows with (n := n0)].
  destruct (select_header fuel sel_cols tag d x c Hc) as (c1 & A1 & ->); [by intros ->|]. rewrite Hn.
  assert (exists d' x' c', (num_rec ← for_rows count_row fuel 0; on_out (print_row 1 [put_int num_rec]) ;; on_out (print_footer 1 1)) (d, x, c1) =
    (Ret tt, (d', x', c')) /\ I d' /\ answers (Some (Z.of_nat (length vals))) sel_cols c c') as Hcount.
  { destruct (for_rows_ok I rows _ _ fuel 0 d x c1 (count_row_ok c1 Hlen) Hd Hx) as (a & d2 & x2 & c2 & R2 & I2 & _ & -> & ->); [done|done|].
    rewrite (bind_run _ _ _ _ _ R2), (Forall2_length _ _ _ Hvals). destruct (answered (Some (Z.of_nat (length vals))) sel_cols d2 x2 c c1 Hn A1) as (c' & E' & H').
    by exists d2, x2, c'. }
  destruct tag; [done|exact Hcount|exact Hcount| | |].
  - apply best_answers; [|done..]. intros a b. simpl. destruct (Z.ltb_spec a b); lia.
  - apply best_answers; [|done..]. intros a b. simpl. destruct (Z.ltb_spec b a); lia.
  - rewrite (bind_run _ _ _ _ _ (front_run d x c1 Hx)). rewrite Ht.
    destruct (for_rows_ok I rows _ _ fuel (sum_zero g TYPE_INT) d x c1 (sum_row_ok c1 (Hsum eq_refl)) Hd Hx) as (a & d2 & x2 & c2 & R2 & I2 & _ & -> & Ea); [|done|].
    { split; [done|]. unfold sum_zero, int_val. cbn [v_num set_num blank]. by rewrite num_after. }
    rewrite (bind_run _ _ _ _ _ R2). rewrite (Forall2_length _ _ _ Hvals), firstn_all in Ea. cbn [sum_text]. rewrite Ea.
    destruct (answered (Some (foldl Z.add 0 vals)) sel_cols d2 x2 c c1 Hn A1) as (c' & E' & H'). by exists d2, x2, c'.
Qed.
End aggregate.
End select.

End QlSpec.
