(* ===== verification/Csv.v ===== *)
(** * Loading a table from a CSV file ([QlManager::load_csv])

    The file is split into lines, each line into fields by
    [boost::escaped_list_separator] ([src/include/boost/token_functions.hpp]),
    and each line is inserted as a record.  A file is its bytes; [stof] is the
    conversion of the C library, by its bits. *)

From S2P Require Import Prelude Bytes Posix Disk Replacer BufferPool PagePool Txn Lock Log RmFile IxDefs IxIndex Values SmMeta Managers Engine Dml.
Import Engine PoolInstance.

(** ** Lines and fields *)

(** [std::getline] until it fails: the bytes behind the last newline are a line
    only when there are some. *)
Fixpoint lines_from (acc l : list Z) : list (list Z) :=
  match l with
  | [] => match acc with [] => [] | _ => [acc] end
  | x :: l => if x =? 10 then acc :: lines_from [] l else lines_from (acc ++ [x]) l
  end.
Definition lines (l : list Z) : list (list Z) := lines_from [] l.

(** Backslash, comma and double quote. *)
Definition is_escape (c : Z) : bool := c =? 92.
Definition is_c (c : Z) : bool := c =? 44.
Definition is_quote (c : Z) : bool := c =? 34.

(** The character an escape sequence stands for. *)
Definition do_escape (c : Z) : outcome Z :=
  if c =? 110 then Ret 10
  else if is_quote c || is_c c || is_escape c then Ret c
  else Throw (EscapedListError "unknown escape sequence").

(** The loop of [operator()]: the field, what is left, and [last_]. *)
Fixpoint scan_field (bInQuote : bool) (tok l : list Z) : outcome (list Z * list Z * bool) :=
  match l with
  | [] => Ret (tok, [], false)
  | x :: l =>
      if is_escape x then
        match l with
        | [] => Throw (EscapedListError "cannot end with escape")
        | y :: l => c ← do_escape y; scan_field bInQuote (tok ++ [c]) l
        end
      else if is_c x then
        if negb bInQuote then Ret (tok, l, true) else scan_field bInQuote (tok ++ [x]) l
      else if is_quote x then scan_field (negb bInQuote) tok l
      else scan_field bInQuote (tok ++ [x]) l
  end.

(** A position of the iterator: the current field, what is left and [last_];
    none at the end. *)
Definition Token : Type := list Z * list Z * bool.
Definition tok_next (l : list Z) (last_ : bool) : outcome (option Token) :=
  match l with
  | [] => Ret (if last_ then Some ([], [], false) else None)
  | _ => t ← scan_field false [] l; Ret (Some t)
  end.
Definition tok_begin (l : list Z) : outcome (option Token) := tok_next l false.

(** ** The header *)

(** The fields are the names of the columns, in order. *)
Fixpoint header_valid (it : option Token) (cs : list ColMeta) : outcome bool :=
  match it, cs with
  | Some (tok, l, last_), c :: cs =>
      if negb (bool_decide (tok = bytes_of_string (cm_name c))) then Ret false else
      it ← tok_next l last_;
      header_valid it cs
  | None, [] => Ret true
  | _, _ => Ret false
  end.

(** ** Values *)

(** [std::stoi] and [std::stoll]: white space, a sign, at least one digit, the
    rest ignored; [lo] and [hi] bound the result. *)
Definition sto_int (lo hi : Z) (s : list Z) : outcome Z :=
  let s := skip_spaces s in
  let '(neg, s) := match s with 45 :: s' => (true, s') | 43 :: s' => (false, s') | _ => (false, s) end in
  match take_digits s with
  | [] => Throw InvalidArgument
  | ds =>
      let v := if (neg : bool) then - digits_val ds else digits_val ds in
      if (lo <=? v) && (v <=? hi) then Ret v else Throw OutOfRange
  end.

Section load.
Context {R : Type} {RO : Replacer R} {FO : FileSystem} (g : Z) (stof : list Z -> outcome Z) (fuel : nat) (txn : Z) (r0 : Rid).

Definition csv_value (c : ColMeta) (tok : list Z) : outcome Value :=
  let val := blank (replicate 8 g) (cm_type c) in
  match cm_type c with
  | TYPE_INT => n ← sto_int (- 2 ^ 31) (2 ^ 31 - 1) tok; Ret (set_int n val)
  | TYPE_BIGINT => n ← sto_int (- 2 ^ 63) (2 ^ 63 - 1) tok; Ret (set_bigint n val)
  | TYPE_FLOAT => bits ← stof tok; Ret (set_float bits val)
  | TYPE_STRING => Ret (set_str tok val)
  | TYPE_DATETIME => d ← to_bcd tok; Ret (set_datetime d val)
  end.

(** The columns are stepped through with the fields; a field too many reads
    behind the last column. *)
Fixpoint csv_values (it : option Token) (cs : list ColMeta) : outcome (list Value) :=
  match it, cs with
  | None, _ => Ret []
  | Some _, [] => Stuck OutOfBounds
  | Some (tok, l, last_), c :: cs =>
      v ← csv_value c tok;
      it ← tok_next l last_;
      vs ← csv_values it cs;
      Ret (v :: vs)
  end.

Definition load_line (tab_name : string) (cs : list ColMeta) (line : list Z) : M (Engine R) unit :=
  it ← lift (tok_begin line);
  vs ← lift (csv_values it cs);
  e ← make_insert txn tab_name vs r0;
  _ ← insert_next g fuel txn e;
  mret tt.

(** [file]: the content of the file, if it can be opened. *)
Definition load_csv (file : option (list Z)) (tab_name : string) : M (Engine R) unit :=
  db ← gets db_;
  tab ← lift (get_table tab_name db);
  match file with
  | None => throw (InternalError "Cannot open the CSV file.")
  | Some content =>
      let '(header, rest) := match lines content with [] => ([], []) | h :: rest => (h, rest) end in
      it ← lift (tok_begin header);
      ok ← lift (header_valid it (tm_cols tab));
      if negb ok then throw (InternalError "The CSV header mismatches table header.") else
      forM rest (load_line tab_name (tm_cols tab))
  end.
End load.

(** ** Fields read back

    A field written between quotes, with the special characters escaped, is
    read back as it is; so is a plain one. *)

Definition esc (c : Z) : list Z := if c =? 10 then [92; 110] else if is_quote c || is_escape c then [92; c] else [c].
Definition quoted (f : list Z) : list Z := [34] ++ concat (esc <$> f) ++ [34].
Definition csv_line (fs : list (list Z)) : list Z := concat (match fs with [] => [] | f :: fs => quoted f :: ((fun x => 44 :: quoted x) <$> fs) end).

(** The fields of a line, all of them. *)
Fixpoint fields (fuel : nat) (it : option Token) : outcome (list (list Z)) :=
  match it, fuel with
  | None, _ => Ret []
  | Some _, O => Stuck Diverges
  | Some (tok, l, last_), Datatypes.S fuel => it ← tok_next l last_; fs ← fields fuel it; Ret (tok :: fs)
  end.

Lemma scan_esc (c : Z) (tok l : list Z) : scan_field true tok (esc c ++ l) = scan_field true (tok ++ [c]) l.
Proof.
  unfold esc. destruct (Z.eqb_spec c 10) as [->|H10]; [done|]. destruct (is_quote c || is_escape c) eqn:E.
  - cbn [app scan_field]. change (is_escape 92) with true. cbv iota. unfold do_escape.
    assert (is_quote c || is_c c || is_escape c = true) as -> by (destruct (is_quote c), (is_escape c), (is_c c); done).
    destruct (Z.eqb_spec c 110) as [->|_]; done.
  - apply orb_false_iff in E as [E1 E2]. cbn [app scan_field]. rewrite E2, E1. by destruct (is_c c).
Qed.
Lemma scan_escs (f : list Z) : forall tok l, scan_field true tok (concat (esc <$> f) ++ l) = scan_field true (tok ++ f) l.
Proof.
  induction f as [|c f IH]; intros tok l; [by rewrite app_nil_r|]. rewrite fmap_cons, concat_cons, <- app_assoc, scan_esc, IH. by rewrite <- app_assoc.
Qed.
Lemma scan_quoted (f l : list Z) : scan_field false [] (quoted f ++ l) = scan_field false f l.
Proof.
  unfold quoted. rewrite <- !app_assoc. cbn [app scan_field]. change (is_escape 34) with false. change (is_c 34) with false. change (is_quote 34) with true. cbv iota. cbn [negb].
  rewrite scan_escs. cbn [app scan_field]. by change (is_escape 34) with false.
Qed.

Lemma rest_fields (fs : list (list Z)) : forall tok, exists k, forall fuel, (k <= fuel)%nat ->
  (t ← scan_field false tok (concat ((fun x => 44 :: quoted x) <$> fs)); it ← Ret (Some t); fields fuel it) = Ret (tok :: fs).
Proof.
  induction fs as [|f fs IH]; intros tok.
  - exists 1%nat. intros [|fuel] H; [lia|]. by destruct fuel.
  - destruct (IH f) as (k & Hk). exists (Datatypes.S k). intros [|fuel] H; [lia|]. specialize (Hk fuel ltac:(lia)).
    rewrite fmap_cons, concat_cons. cbn [app scan_field]. change (is_escape 44) with false. change (is_c 44) with true. cbv iota. cbn [negb mbind outcome_bind fields].
    cbn [tok_next]. assert (exists y z, quoted f ++ concat ((fun x => 44 :: quoted x) <$> fs) = y :: z) as (y & z & E) by (eexists _, _; reflexivity).
    unfold tok_next. rewrite E, <- E, scan_quoted. cbn [mbind outcome_bind] in Hk. destruct (scan_field false f _) as [t|e|w]; [|done|done]. cbn [mbind outcome_bind] in *. apply obind_Ret. eexists. split; [exact Hk|done].
Qed.

(** Any list of fields written as a line is read back. *)
Lemma csv_roundtrip (f : list Z) (fs : list (list Z)) : exists k, forall fuel, (k <= fuel)%nat ->
  (it ← tok_begin (csv_line (f :: fs)); fields fuel it) = Ret (f :: fs).
Proof.
  destruct (rest_fields fs f) as (k & Hk). exists k. intros fuel H. specialize (Hk fuel H). unfold tok_begin, csv_line. rewrite concat_cons.
  assert (exists y z, quoted f ++ concat ((fun x => 44 :: quoted x) <$> fs) = y :: z) as (y & z & E) by (eexists _, _; reflexivity).
  unfold tok_next. rewrite E, <- E, scan_quoted. cbn [mbind outcome_bind] in Hk |- *. destruct (scan_field false f _) as [t|e|w]; [|done|done]. exact Hk.
Qed.
