(* ===== verification/TableExecutors.v ===== *)
(** * Operators on a table ([src/src/execution/executor_seq_scan.h])

    [SeqScanExecutor] walks the record file of one table; the database it works
    on is that table's file handle.  [txn] is the transaction of the context. *)

From S2P Require Import Prelude Bytes Disk BufferPool PagePool Txn Lock Log RmFile IxDefs Values SmMeta Executors.
Import Rm.

Section seq_scan.
Context {T : Type} {PO : PagePool T} (g : Z) (txn : Z).
Abbreviation FH := (RmFileHandle T).

(** [scan_] is null until [beginTuple]. *)
Record SeqScanExecutor : Type := mkSeq {
  sq_tab_name : string;
  sq_conds : list Condition;
  sq_cols : list ColMeta;
  sq_len : Z;
  sq_rid : Rid;
  sq_scan : option Rid
}.
Definition sq_set_rid (r : Rid) (x : SeqScanExecutor) : SeqScanExecutor := mkSeq (sq_tab_name x) (sq_conds x) (sq_cols x) (sq_len x) r (sq_scan x).
Definition sq_set_scan (r : Rid) (x : SeqScanExecutor) : SeqScanExecutor := mkSeq (sq_tab_name x) (sq_conds x) (sq_cols x) (sq_len x) (sq_rid x) (Some r).

(** Run an operation on the file, leaving the executor's fields alone. *)
Definition on_file {A} (m : M FH A) : M (FH * SeqScanExecutor) A := zoom fst (fun fh s => (fh, s.2)) m.

(** The constructor; [back] of a table without columns is undefined. [r0] is
    what the uninitialised [rid_] holds. *)
Definition make_seq_scan (db : DbMeta) (tab_name : string) (conds : list Condition) (r0 : Rid) : M FH SeqScanExecutor :=
  tab ← lift (get_table tab_name db);
  lastc ← unwrap OutOfBounds (last (tm_cols tab));
  len ← int_op (cm_offset lastc + cm_len lastc);
  x ← gets fd_;
  _ ← on_locks (Lock.lock_shared_on_table txn x);
  mret (mkSeq tab_name conds (tm_cols tab) (wrap_u 64 len) r0 None).

Definition sq_at : M (FH * SeqScanExecutor) Rid := x ← own id; unwrap NullDeref (sq_scan x).
Definition sq_is_end : M (FH * SeqScanExecutor) bool := r ← sq_at; mret (scan_is_end r).
Definition sq_check : M (FH * SeqScanExecutor) bool :=
  r ← sq_at;
  rec ← on_file (get_record r (Some txn));
  x ← own id;
  lift (checkConds (replicate 8 g) rec (sq_conds x) (sq_cols x)).
Definition sq_advance : M (FH * SeqScanExecutor) unit :=
  r ← sq_at;
  r ← on_file (scan_next r);
  Executors.change (sq_set_scan r).

(** The loop of [beginTuple]; the one of [nextTuple] first advances. *)
Fixpoint sq_seek (fuel : nat) : M (FH * SeqScanExecutor) unit :=
  match fuel with
  | O => stuck Diverges
  | Datatypes.S fuel =>
      e ← sq_is_end;
      if (e : bool) then mret tt else
      b ← sq_check;
      if (b : bool) then r ← sq_at; Executors.change (sq_set_rid r)
      else sq_advance ;; sq_seek fuel
  end.
Definition sq_beginTuple (fuel : nat) : M (FH * SeqScanExecutor) unit :=
  r ← on_file scan_begin;
  Executors.change (sq_set_scan r) ;;
  sq_seek fuel.
Definition sq_nextTuple (fuel : nat) : M (FH * SeqScanExecutor) unit := sq_advance ;; sq_seek fuel.
Definition sq_next : M (FH * SeqScanExecutor) (list Z) :=
  x ← own id; on_file (get_record (sq_rid x) (Some txn)).

Definition SeqScan_executor (fuel : nat) : AbstractExecutor FH SeqScanExecutor := {|
  tupleLen := sq_len; cols := sq_cols;
  beginTuple := sq_beginTuple fuel; nextTuple := sq_nextTuple fuel; is_end := sq_is_end; Next := sq_next;
  get_col_offset := fun x target => find_deref target (sq_cols x)
|}.
End seq_scan.
