(* ===== verification/ScanSpec.v ===== *)
(** * The sequential scan enumerates the table

    [SeqScanExecutor] keeps the promise [ExecutorLaws] that other operators rely
    on: in the order of the file it delivers the records that satisfy its
    conditions, so a scan can be the child of a join. *)

From Stdlib Require Import Sorting.Sorted.
From stdpp Require Import sorting.
From S2P Require Import Prelude Bytes Bitmap Posix Disk Replacer BufferPool BufferPoolFacts BufferPoolSpec PagePool Txn Lock LockFacts LockSpec RmFile RmPageFacts RmTable RmFileFacts RmSpec Log IxDefs Values SmMeta Executors JoinSpec TableExecutors.

Module ScanSpec.
Import Rm RmFacts RmSpec JoinSpec.

(** ** Reading locks *)

(** The transaction may still take locks, and nobody else holds a record of the
    table exclusively. *)
Definition readable (txn fd : Z) (lk : Lock.LockManager) : Prop :=
  (exists t, Lock.txns lk !! txn = Some t /\ (state_ t = GROWING \/ state_ t = DEFAULT)) /\
  forall rid q, Lock.lock_table_ lk !! RecordLock fd rid = Some q ->
    is_Some (Lock.find_request txn (request_queue_ q)) \/ group_lock_mode_ q = NON_LOCK \/ group_lock_mode_ q = S.

Lemma readable_growing (txn fd : Z) (lk : Lock.LockManager) : readable txn fd lk ->
  exists lk', Lock.check_lock txn lk = (Ret true, lk') /\ readable txn fd lk' /\ (exists t, Lock.txns lk' !! txn = Some t /\ state_ t = GROWING).
Proof.
  intros [(t & Ht & Hs) Hq]. unfold Lock.check_lock. rewrite (bind_run _ _ lk lk t) by (unfold Lock.get_txn; by rewrite Ht).
  destruct Hs as [Hs|Hs]; rewrite Hs.
  - exists lk. split_and!; [done| |by exists t]. split; [|done]. exists t. auto.
  - eexists. split; [|split].
    + unfold Lock.upd_txn. erewrite bind_run; [reflexivity|]. rewrite (bind_run _ _ lk lk t) by (unfold Lock.get_txn; by rewrite Ht). reflexivity.
    + split; [|done]. exists (set_state GROWING t). split; [simpl; by rewrite lookup_insert_eq|by left].
    + exists (set_state GROWING t). split; [simpl; by rewrite lookup_insert_eq|done].
Qed.

Lemma find_own (txn : Z) (l : list LockRequest) (m : LockMode) : is_Some (Lock.find_request txn (l ++ [mkRequest txn m true])).
Proof.
  destruct (Lock.find_request txn (l ++ [mkRequest txn m true])) eqn:E; [by eexists|]. exfalso. unfold Lock.find_request in E.
  apply list_find_None in E. rewrite Forall_forall in E. apply (E (mkRequest txn m true)); [|done]. apply elem_of_app. right. left.
Qed.

(** Then the shared lock on any of its records is granted, and it stays so. *)
Lemma readable_lock (txn fd : Z) (rid : Rid) (lk : Lock.LockManager) : readable txn fd lk ->
  exists lk', Lock.lock_shared_on_record txn rid fd lk = (Ret true, lk') /\ readable txn fd lk'.
Proof.
  intros H. destruct (readable_growing _ _ _ H) as (lk1 & R1 & [_ Hq] & (t & Ht & Hs)). unfold Lock.lock_shared_on_record. rewrite (bind_run _ _ _ _ _ R1).
  cbn [negb].
  assert (exists q lk2, Lock.get_queue (RecordLock fd rid) lk1 = (Ret q, lk2) /\ Lock.txns lk2 = Lock.txns lk1 /\
    (forall r q', Lock.lock_table_ lk2 !! RecordLock fd r = Some q' -> is_Some (Lock.find_request txn (request_queue_ q')) \/ group_lock_mode_ q' = NON_LOCK \/ group_lock_mode_ q' = S) /\
    (is_Some (Lock.find_request txn (request_queue_ q)) \/ group_lock_mode_ q = NON_LOCK \/ group_lock_mode_ q = S)) as (q & lk2 & R2 & T2 & Hq2 & Hc).
  { unfold Lock.get_queue. destruct (Lock.lock_table_ lk1 !! RecordLock fd rid) as [q|] eqn:E.
    - exists q, lk1. split_and!; try done. by eapply Hq.
    - eexists _, _. split_and!; [reflexivity|done| |right; by left]. intros r q'. simpl. destruct (decide (r = rid)) as [->|Hne].
      + rewrite lookup_insert_eq. intros [= <-]. right. by left.
      + rewrite lookup_insert_ne by (unfold RecordLock; congruence). by apply Hq. }
  rewrite (bind_run _ _ _ _ _ R2). destruct (Lock.find_request txn (request_queue_ q)) as [x|] eqn:Ef.
  { exists lk2. split; [done|]. split; [|done]. exists t. rewrite T2. auto. }
  assert (exists lk3, Lock.grant txn (RecordLock fd rid) SHARED S q lk2 = (Ret true, lk3) /\ readable txn fd lk3) as (lk3 & R3 & H3).
  { unfold Lock.grant, Lock.upd_txn. eexists. split.
    - erewrite bind_run. 2: { rewrite (bind_run _ _ lk2 lk2 t) by (unfold Lock.get_txn; by rewrite T2, Ht). reflexivity. } reflexivity.
    - split.
      + eexists. split; [simpl; by rewrite lookup_insert_eq|]. destruct t; simpl in *. auto.
      + intros r q'. simpl. destruct (decide (r = rid)) as [->|Hne].
        * rewrite lookup_insert_eq. intros [= <-]. left. simpl. apply find_own.
        * rewrite lookup_insert_ne by (unfold RecordLock; congruence). by apply Hq2. }
  destruct Hc as [[x ?]|[Hc|Hc]]; [congruence| |]; rewrite Hc; by exists lk3.
Qed.

Abbreviation END := (mkRid RM_NO_PAGE (-1)).

Section scan.
Context {T : Type} {PO : PagePool T} {PL : PagePoolLaws T} (g txn : Z).
Abbreviation FH := (RmFileHandle T).
Context (s0 : FH) (F0 : file_ok s0) (conds : list Condition) (cs : list ColMeta) (len : Z) (name : string) (P : row -> bool).
Context (Hcheck : forall q r, lookup s0 q = Some r -> checkConds (replicate 8 g) r conds cs = Ret (P r)).
(** The positions of the table, in the order of the file. *)
Context (l : list Rid) (Hsort : StronglySorted rid_lt l) (Hl : forall q, q ∈ l <-> is_Some (lookup s0 q)).

(** The file holds the records it held at the start, and they can be read. *)
Definition unchanged (s : FH) : Prop :=
  file_ok s /\ (forall q, lookup s q = lookup s0 q) /\ file_hdr_ s = file_hdr_ s0 /\ fd_ s = fd_ s0 /\ readable txn (fd_ s0) (rm_locks s).

Definition rows_at (suf : list Rid) : list row := List.filter P (omap (lookup s0) suf).
Definition first_of (suf : list Rid) : Rid := match suf with [] => END | q :: _ => q end.

Lemma record_run (q : Rid) (r : row) (s : FH) : unchanged s -> lookup s0 q = Some r ->
  exists s', get_record q (Some txn) s = (Ret r, s') /\ unchanged s'.
Proof.
  intros (F & L & H & X & K) Hr. destruct (readable_lock txn (fd_ s0) q (rm_locks s) K) as (lk & Rl & Kl). destruct K as [(t & Ht & _) _].
  pose proof (get_record_any s q r txn F) as G. rewrite L, X, Rl in G. destruct (G Hr ltac:(by eexists)) as (s' & R1 & F1 & K1 & L1 & H1 & X1).
  exists s'. split; [done|]. split_and!; [done|intros q'; by rewrite L1|congruence..|by rewrite K1].
Qed.

(** The next position of the scan is the next one of the list. *)
Lemma first_after (q r : Rid) (suf : list Rid) : next_rid s0 q r -> (forall x, is_Some (lookup s0 x) -> rid_lt q x -> x ∈ suf) ->
  (forall x, x ∈ suf -> rid_lt q x /\ is_Some (lookup s0 x)) -> StronglySorted rid_lt suf -> r = first_of suf.
Proof.
  intros [Hr Hgap] Hin Hsuf Hst. destruct suf as [|x suf]; simpl.
  - destruct Hr as [|[Hlt Hs]]; [done|]. by apply (Hin r Hs), elem_of_nil in Hlt.
  - destruct (Hsuf x ltac:(left)) as [Hx Hxs]. destruct Hr as [->|[Hlt Hs]].
    + rewrite Hgap in Hxs; [by destruct Hxs|done|by left].
    + apply Hin, elem_of_cons in Hs as [->|Hs]; [done| |done]. apply StronglySorted_inv in Hst as [_ Hall]. rewrite Forall_forall in Hall.
      rewrite Hgap in Hxs; [by destruct Hxs|done|right; by apply Hall].
Qed.

Lemma rid_lt_irrefl (a : Rid) : ~ rid_lt a a.
Proof. unfold rid_lt. lia. Qed.

Lemma step_run (q : Rid) (pre suf : list Rid) (s : FH) : unchanged s -> l = pre ++ q :: suf ->
  exists s', scan_next q s = (Ret (first_of suf), s') /\ unchanged s'.
Proof.
  intros (F & L & H & X & K) El. assert (is_Some (lookup s0 q)) as Hq by (apply Hl; rewrite El; apply elem_of_app; right; left).
  pose proof Hq as [r (Hp & Hin & _)%lookup_Some_inv].
  destruct (scan_next_ok q s F) as (r' & s' & R1 & S1 & Hn); [split; rewrite ?H; unfold in_page in Hin; lia|].
  pose proof S1 as (F1 & L1 & K1 & H1 & X1). exists s'. split; [|split_and!; [done|intros q'; by rewrite L1|congruence..|by rewrite K1]].
  rewrite R1. do 2 f_equal. pose proof Hsort as Hs. rewrite El in Hs.
  assert (forall x, x ∈ pre -> rid_lt x q) as Hpre. { intros x Hx. apply (StronglySorted_app_1_elem_of _ _ _ x q Hs Hx). left. }
  apply StronglySorted_app_1_r in Hs. apply StronglySorted_inv in Hs as [Hst Hall]. rewrite Forall_forall in Hall.
  apply (first_after q); try done.
  - destruct Hn as [Hn1 Hn2]. split; [by setoid_rewrite <- L|]. intros x Hx1 Hx2. rewrite <- L. by apply Hn2.
  - intros x Hx Hlt. apply Hl in Hx. rewrite El in Hx. apply elem_of_app in Hx as [Hx|Hx].
    + destruct (rid_lt_irrefl q). by apply (rid_lt_trans q x q); [|apply Hpre].
    + apply elem_of_cons in Hx as [->|Hx]; [|done]. by destruct (rid_lt_irrefl q).
  - intros x Hx. split; [by apply Hall|]. apply Hl. rewrite El. apply elem_of_app. right. by right.
Qed.

Lemma start_run (s : FH) : unchanged s -> exists s', scan_begin s = (Ret (first_of l), s') /\ unchanged s'.
Proof.
  intros (F & L & H & X & K). pose proof (lo_n _ (tb_layout _ _ (fo_table _ F))) as Hper. unfold scan_begin.
  destruct (scan_next_ok (mkRid RM_FIRST_RECORD_PAGE (-1)) s F) as (r' & s' & R1 & S1 & Hn); [split; simpl; unfold RM_FIRST_RECORD_PAGE; lia|].
  pose proof S1 as (F1 & L1 & K1 & H1 & X1). exists s'. split; [|split_and!; [done|intros q'; by rewrite L1|congruence..|by rewrite K1]].
  rewrite R1. do 2 f_equal. apply (first_after (mkRid RM_FIRST_RECORD_PAGE (-1))).
  - destruct Hn as [Hn1 Hn2]. split; [by setoid_rewrite <- L|]. intros x Hx1 Hx2. rewrite <- L. by apply Hn2.
  - intros x Hx _. by apply Hl.
  - intros x Hx%Hl. split; [|done]. destruct Hx as [y (Hp & Hin & _)%lookup_Some_inv]. unfold rid_lt, RM_FIRST_RECORD_PAGE, in_page in *. simpl. lia.
  - done.
Qed.

(** ** The executor *)

Definition scans (x : SeqScanExecutor) : Prop := sq_conds x = conds /\ sq_cols x = cs /\ sq_len x = len /\ sq_tab_name x = name.
Definition scan_over (rows : list row) (x : SeqScanExecutor) : Prop := rows = rows_at l /\ scans x.
Definition scan_at (rows rest : list row) (x : SeqScanExecutor) : Prop :=
  scan_over rows x /\ exists pre suf, l = pre ++ suf /\ rest = rows_at suf /\ sq_scan x = Some (first_of suf) /\
    match suf with [] => True | q :: _ => sq_rid x = q /\ exists r, lookup s0 q = Some r /\ P r = true end.

Lemma rows_app (a b : list Rid) : rows_at (a ++ b) = rows_at a ++ rows_at b.
Proof. unfold rows_at. rewrite omap_app. apply List.filter_app. Qed.
Lemma rows_cons (q : Rid) (suf : list Rid) (r : row) : lookup s0 q = Some r -> rows_at (q :: suf) = (if P r then [r] else []) ++ rows_at suf.
Proof. intros H. unfold rows_at. cbn [omap list_omap]. rewrite H. simpl. by destruct (P r). Qed.
Lemma in_list (pre suf : list Rid) (q : Rid) : l = pre ++ q :: suf -> exists r, lookup s0 q = Some r.
Proof. intros El. apply Hl. rewrite El. apply elem_of_app. right. left. Qed.

Lemma on_file_run {A} (m : M FH A) (s s' : FH) (x : SeqScanExecutor) (r : outcome A) : m s = (r, s') -> on_file m (s, x) = (r, (s', x)).
Proof. intros H. unfold on_file. by rewrite (zoom_run fst _ m (s, x) _ _ H). Qed.
Lemma at_run (s : FH) (x : SeqScanExecutor) (q : Rid) : sq_scan x = Some q -> sq_at (s, x) = (Ret q, (s, x)).
Proof. intros H. unfold sq_at. erewrite bind_run by reflexivity. cbn [id snd]. by rewrite H. Qed.

Lemma end_run (pre suf : list Rid) (s : FH) (x : SeqScanExecutor) : l = pre ++ suf -> sq_scan x = Some (first_of suf) ->
  sq_is_end (s, x) = (Ret (bool_decide (suf = [])), (s, x)).
Proof.
  intros El Hx. unfold sq_is_end. rewrite (bind_run _ _ _ _ _ (at_run s x _ Hx)).
  change ((Ret (scan_is_end (first_of suf)), (s, x)) = (Ret (bool_decide (suf = [])), (s, x))). do 2 f_equal. destruct suf as [|q suf]; [done|]. rewrite bool_decide_eq_false_2 by done.
  destruct (in_list _ _ _ El) as [r (Hp & _)%lookup_Some_inv]. unfold scan_is_end, first_of, RM_NO_PAGE. lia.
Qed.

Lemma check_run (q : Rid) (r : row) (s : FH) (x : SeqScanExecutor) : unchanged s -> scans x -> sq_scan x = Some q -> lookup s0 q = Some r ->
  exists s', sq_check g txn (s, x) = (Ret (P r), (s', x)) /\ unchanged s'.
Proof.
  intros U (Hc & Hs & _) Hx Hr. destruct (record_run q r s U Hr) as (s' & R1 & U1). exists s'. split; [|done].
  unfold sq_check. rewrite (bind_run _ _ _ _ _ (at_run s x q Hx)), (bind_run _ _ _ _ _ (on_file_run _ _ _ x _ R1)).
  erewrite bind_run by reflexivity. cbn [id snd]. unfold lift. by rewrite Hc, Hs, (Hcheck q r Hr).
Qed.

Lemma advance_run (q : Rid) (pre suf : list Rid) (s : FH) (x : SeqScanExecutor) : unchanged s -> l = pre ++ q :: suf -> sq_scan x = Some q ->
  exists s', sq_advance (s, x) = (Ret tt, (s', sq_set_scan (first_of suf) x)) /\ unchanged s'.
Proof.
  intros U El Hx. destruct (step_run q pre suf s U El) as (s' & R1 & U1). exists s'. split; [|done].
  unfold sq_advance. by rewrite (bind_run _ _ _ _ _ (at_run s x q Hx)), (bind_run _ _ _ _ _ (on_file_run _ _ _ x _ R1)).
Qed.

(** The seek stops on the next record that satisfies the conditions. *)
Lemma seek_ok (suf : list Rid) : forall fuel pre s x, l = pre ++ suf -> unchanged s -> scans x -> sq_scan x = Some (first_of suf) -> (length suf < fuel)%nat ->
  exists s' x', sq_seek g txn fuel (s, x) = (Ret tt, (s', x')) /\ unchanged s' /\ scan_at (rows_at l) (rows_at suf) x'.
Proof.
  induction suf as [|q suf IH]; intros [|fuel] pre s x El U Hx Hscan Hf; simpl in Hf; try lia; cbn [sq_seek]; rewrite (bind_run _ _ _ _ _ (end_run _ _ s x El Hscan)).
  - rewrite bool_decide_eq_true_2 by done. exists s, x. split_and!; [done..|]. split; [done|]. by exists pre, [].
  - rewrite bool_decide_eq_false_2 by done. destruct (in_list _ _ _ El) as [r Hr]. destruct (check_run q r s x U Hx Hscan Hr) as (s1 & R1 & U1).
    rewrite (bind_run _ _ _ _ _ R1). destruct (P r) eqn:EP.
    + exists s1, (sq_set_rid q x). split_and!; [|done|]. { by rewrite (bind_run _ _ _ _ _ (at_run s1 x q Hscan)). }
      split; [done|]. exists pre, (q :: suf). split_and!; try done. by exists r.
    + destruct (advance_run q pre suf s1 x U1 El Hscan) as (s2 & R2 & U2). rewrite (bind_run _ _ _ _ _ R2).
      destruct (IH fuel (pre ++ [q]) s2 (sq_set_scan (first_of suf) x)) as (s3 & x3 & R3 & U3 & A3); try done; [by rewrite <- app_assoc|lia|].
      exists s3, x3. by rewrite R3, (rows_cons q suf r Hr), EP.
Qed.

Section laws.
Context (fuel : nat) (Hfuel : (length l < fuel)%nat).

Lemma scan_begin_ok (s : FH) (x : SeqScanExecutor) (rows : list row) : unchanged s -> scan_over rows x ->
  exists s' x', sq_beginTuple g txn fuel (s, x) = (Ret tt, (s', x')) /\ unchanged s' /\ scan_at rows rows x'.
Proof.
  intros U [-> Hx]. destruct (start_run s U) as (s1 & R1 & U1). unfold sq_beginTuple. rewrite (bind_run _ _ _ _ _ (on_file_run _ _ _ x _ R1)).
  erewrite bind_run by reflexivity. by apply (seek_ok l fuel []).
Qed.
Lemma scan_end_ok (s : FH) (x : SeqScanExecutor) (rows rest : list row) : unchanged s -> scan_at rows rest x ->
  sq_is_end (s, x) = (Ret (bool_decide (rest = [])), (s, x)).
Proof.
  intros U (_ & pre & suf & El & -> & Hs & Hq). rewrite (end_run pre suf s x El Hs). do 2 f_equal. destruct suf as [|q suf]; [done|].
  destruct Hq as (_ & r & Hr & HP). by rewrite (rows_cons q suf r Hr), HP.
Qed.
Lemma scan_head (rows rest : list row) (r : row) (x : SeqScanExecutor) : scan_at rows (r :: rest) x ->
  scan_over rows x /\ exists pre q suf, l = pre ++ q :: suf /\ sq_scan x = Some q /\ sq_rid x = q /\ lookup s0 q = Some r /\ rest = rows_at suf.
Proof.
  intros (Hx & pre & suf & El & E & Hs & Hq). split; [done|]. destruct suf as [|q suf]; [done|]. destruct Hq as (Hr & r' & Hr' & HP).
  rewrite (rows_cons q suf r' Hr'), HP in E. injection E as -> ->. by exists pre, q, suf.
Qed.
Lemma scan_record_ok (s : FH) (x : SeqScanExecutor) (rows rest : list row) (r : row) : unchanged s -> scan_at rows (r :: rest) x ->
  exists s' x', sq_next txn (s, x) = (Ret r, (s', x')) /\ unchanged s' /\ scan_at rows (r :: rest) x'.
Proof.
  intros U A. destruct (scan_head _ _ _ _ A) as (_ & pre & q & suf & _ & _ & Hq & Hr & _). destruct (record_run q r s U Hr) as (s' & R1 & U1).
  exists s', x. split_and!; [|done|done]. unfold sq_next. erewrite bind_run by reflexivity. cbn [id snd]. rewrite Hq. exact (on_file_run _ _ _ x _ R1).
Qed.
Lemma scan_step_ok (s : FH) (x : SeqScanExecutor) (rows rest : list row) (r : row) : unchanged s -> scan_at rows (r :: rest) x ->
  exists s' x', sq_nextTuple g txn fuel (s, x) = (Ret tt, (s', x')) /\ unchanged s' /\ scan_at rows rest x'.
Proof.
  intros U A. destruct (scan_head _ _ _ _ A) as ([-> Hx] & pre & q & suf & El & Hs & _ & _ & ->).
  destruct (advance_run q pre suf s x U El Hs) as (s1 & R1 & U1). unfold sq_nextTuple. rewrite (bind_run _ _ _ _ _ R1).
  apply (seek_ok suf fuel (pre ++ [q])); try done; [by rewrite <- app_assoc|]. rewrite El, length_app in Hfuel. simpl in Hfuel. lia.
Qed.

Lemma scan_suffix (rows rest : list row) (x : SeqScanExecutor) : scan_at rows rest x -> exists pre, rows = pre ++ rest.
Proof. intros ([-> _] & pre & suf & El & -> & _). exists (rows_at pre). rewrite <- rows_app. by f_equal. Qed.

Definition scan_laws : @ExecutorLaws FH SeqScanExecutor (SeqScan_executor g txn fuel) unchanged := {|
  over := scan_over; at_ := scan_at;
  at_over := fun rows rest x H => proj1 H; at_suffix := scan_suffix;
  begin_ok := scan_begin_ok : forall d x rows, unchanged d -> scan_over rows x -> exists d' x', @beginTuple _ _ (SeqScan_executor g txn fuel) (d, x) = _ /\ _;
  is_end_ok := scan_end_ok : forall d x rows rest, unchanged d -> scan_at rows rest x -> @is_end _ _ (SeqScan_executor g txn fuel) (d, x) = _;
  record_ok := (fun d x rows r rest => scan_record_ok d x rows rest r) : forall d x rows r rest, unchanged d -> scan_at rows (r :: rest) x -> exists d' x', @Next _ _ (SeqScan_executor g txn fuel) (d, x) = _ /\ _;
  next_ok := (fun d x rows r rest => scan_step_ok d x rows rest r) : forall d x rows r rest, unchanged d -> scan_at rows (r :: rest) x -> exists d' x', @nextTuple _ _ (SeqScan_executor g txn fuel) (d, x) = _ /\ _
|}.
End laws.

End scan.

Lemma seq_make_inv {T} {PO : PagePool T} (txn : Z) (db : DbMeta) (tab_name : string) (tab : TabMeta) (conds : list Condition) (r0 : Rid) (s0 s1 : RmFileHandle T) (x : SeqScanExecutor) :
  get_table tab_name db = Ret tab -> make_seq_scan txn db tab_name conds r0 s0 = (Ret x, s1) ->
  exists b lk, Lock.lock_shared_on_table txn (fd_ s0) (rm_locks s0) = (Ret b, lk) /\ s1 = set_locks lk s0 /\ sq_conds x = conds /\ sq_cols x = tm_cols tab /\ sq_tab_name x = tab_name.
Proof.
  intros Ht R. unfold make_seq_scan in R. rewrite Ht in R. rewrite (bind_run _ _ s0 s0 tab) in R by done.
  destruct (last (tm_cols tab)) as [c|]; [|done]. rewrite (bind_run _ _ s0 s0 c) in R by done.
  unfold int_op in R. destruct (in_i32 _); [|done]. rewrite (bind_run _ _ s0 s0 (cm_offset c + cm_len c)) in R by done. erewrite bind_run in R by reflexivity.
  destruct (Lock.lock_shared_on_table txn (fd_ s0) (rm_locks s0)) as [[b|e|w] lk] eqn:El.
  - erewrite bind_run in R by (apply zoom_run; exact El). exists b, lk. by injection R as <- <-.
  - erewrite bind_throw in R by (apply zoom_run; exact El). done.
  - unfold on_locks, zoom in R. simpl in R. unfold mbind, M_bind in R. by rewrite El in R.
Qed.

Lemma omap_length_le {A B} (f : A -> option B) (l : list A) : (length (omap f l) <= length l)%nat.
Proof. induction l as [|a l IH]; [done|]. change (omap f (a :: l)) with (match f a with Some y => y :: omap f l | None => omap f l end). destruct (f a); cbn [length]; lia. Qed.

(** The scan just made: the table as it stands behind the lock request. *)
Lemma scan_made {T} {PO : PagePool T} {PL : PagePoolLaws T} (g txn : Z) (db : DbMeta) (tab_name : string) (tab : TabMeta) (conds : list Condition)
    (r0 : Rid) (P : row -> bool) (s0 s1 : RmFileHandle T) (x : SeqScanExecutor) :
  file_ok s0 -> is_Some (Lock.txns (rm_locks s0) !! txn) -> get_table tab_name db = Ret tab ->
  make_seq_scan txn db tab_name conds r0 s0 = (Ret x, s1) -> readable txn (fd_ s0) (rm_locks s1) ->
  (forall q r, lookup s0 q = Some r -> checkConds (replicate 8 g) r conds (tm_cols tab) = Ret (P r)) ->
  exists l, StronglySorted rid_lt l /\ (forall q, q ∈ l <-> is_Some (lookup s1 q)) /\ unchanged txn s1 s1 /\ (forall q, lookup s1 q = lookup s0 q) /\ fd_ s1 = fd_ s0 /\
    (forall q r, lookup s1 q = Some r -> checkConds (replicate 8 g) r conds (tm_cols tab) = Ret (P r)) /\ scans conds (tm_cols tab) (sq_len x) tab_name x.
Proof.
  intros F0 Ht Htab Hmk Hread Hc. destruct (seq_make_inv _ _ _ _ _ _ _ _ _ Htab Hmk) as (b & lk & El & -> & Hx1 & Hx2 & Hx3).
  assert (LockFacts.inv lk) as Il.
  { destruct (lock_cases (LockSpec.SharedOnTable (fd_ s0)) txn (rm_locks s0) (fo_locks _ F0) Ht) as [(? & lk' & E & ? & _)|(e & lk' & E & ?)]; simpl in E; congruence. }
  destruct (file_ok_locks s0 lk F0 Il) as [F1 L1]. destruct (scan_all_any (set_locks lk s0) _ F1 (Nat.le_refl _)) as (l & s2 & _ & _ & Hsort & Hl).
  exists l. by split_and!.
Qed.

(** C38: a sequential scan delivers the table.  Once its constructor has the
    table lock, and while no other transaction holds one of the records
    exclusively, driving it returns, in the order of the file, exactly the
    records on which the conditions hold, and leaves every record in place. *)
Theorem seq_scan_correct {T} {PO : PagePool T} {PL : PagePoolLaws T} (g txn : Z) (db : DbMeta) (tab_name : string) (tab : TabMeta) (conds : list Condition)
    (r0 : Rid) (P : row -> bool) (s0 s1 : RmFileHandle T) (x : SeqScanExecutor) :
  file_ok s0 -> is_Some (Lock.txns (rm_locks s0) !! txn) -> get_table tab_name db = Ret tab ->
  make_seq_scan txn db tab_name conds r0 s0 = (Ret x, s1) -> readable txn (fd_ s0) (rm_locks s1) ->
  (forall q r, lookup s0 q = Some r -> checkConds (replicate 8 g) r conds (tm_cols tab) = Ret (P r)) ->
  exists l, StronglySorted rid_lt l /\ (forall q, q ∈ l <-> is_Some (lookup s0 q)) /\
    forall fuel, (length l < fuel)%nat ->
      exists s' x', collect (EX := SeqScan_executor g txn fuel) fuel (s1, x) = (Ret (List.filter P (omap (lookup s0) l)), (s', x')) /\
        file_ok s' /\ forall q, lookup s' q = lookup s0 q.
Proof.
  intros F0 Ht Htab Hmk Hread Hc. destruct (scan_made g _ _ _ _ _ _ P _ _ _ F0 Ht Htab Hmk Hread Hc) as (l & Hsort & Hl & U & L1 & _ & Hc1 & Hx). exists l.
  assert (forall q, q ∈ l <-> is_Some (lookup s0 q)) as Hl0 by (intros q; by rewrite Hl, L1). split_and!; [done..|]. intros fuel Hf.
  destruct (@collect_ok _ _ (SeqScan_executor g txn fuel) (unchanged txn s1) (scan_laws g txn s1 conds (tm_cols tab) (sq_len x) tab_name P Hc1 l Hsort Hl fuel Hf)
    (rows_at s1 P l) fuel s1 x U (conj eq_refl Hx)) as (s' & x' & R & (F' & L' & _) & _).
  - unfold rows_at. pose proof (filter_length_le P (omap (lookup s1) l)). pose proof (omap_length_le (lookup s1) l). lia.
  - exists s', x'. split_and!; [|done|intros q; by rewrite L', L1]. rewrite R. unfold rows_at. do 3 f_equal. clear - L1. induction l as [|q l IH]; [done|].
    cbn [omap list_omap]. by rewrite L1, IH.
Qed.
End ScanSpec.

(** ** A scan and a self-join of a table that runs *)

Module ScanDemo.
Import Replacer.Lru Posix.MemFS Bpm BpmFacts BpmSpec PoolInstance Rm RmFacts RmSpec RmDemo JoinSpec ScanSpec.

Definition cols_t : list ColMeta := [mkCol "t" "a" TYPE_INT 4 0 false; mkCol "t" "b" TYPE_INT 4 4 false].
Definition tab_t : TabMeta := mkTab "t" cols_t [].
Definition db_t : DbMeta := mkDb "db" {[ "t"%string := tab_t ]}.
(** [t.a <> t.b] *)
Definition conds_t : list Condition := [mkCond (mkTabCol "t" "a") OP_NE false (mkTabCol "t" "b") (blank [] TYPE_INT)].
Definition scan_t : SeqScanExecutor := mkSeq "t" conds_t cols_t 8 (mkRid 0 0) None.
Definition scanned : DemoFH := (make_seq_scan 1 db_t "t" conds_t (mkRid 0 0) one_record).2.

Lemma make_scan_t : make_seq_scan 1 db_t "t" conds_t (mkRid 0 0) one_record = (Ret scan_t, scanned).
Proof. rewrite (surjective_pairing (make_seq_scan _ _ _ _ _ _)). f_equal. Qed.


(** The queues of a concrete lock table all admit a reader. *)
Definition admits (txn : Z) (q : LockRequestQueue) : bool :=
  match Lock.find_request txn (request_queue_ q) with
  | Some _ => true
  | None => match group_lock_mode_ q with NON_LOCK | S => true | _ => false end
  end.
Lemma admits_readable (txn fd : Z) (lk : Lock.LockManager) :
  (exists t, Lock.txns lk !! txn = Some t /\ (state_ t = GROWING \/ state_ t = DEFAULT)) ->
  forallb (fun e => admits txn e.2) (map_to_list (Lock.lock_table_ lk)) = true -> readable txn fd lk.
Proof.
  intros Ht H. split; [done|]. intros rid q Hq. apply elem_of_map_to_list, list_elem_of_In in Hq. rewrite forallb_forall in H.
  specialize (H _ Hq). simpl in H. unfold admits in H. destruct (Lock.find_request txn (request_queue_ q)); [left; by eexists|].
  destruct (group_lock_mode_ q); try done; auto.
Qed.
Lemma scanned_readable : readable 1 (fd_ one_record) (rm_locks scanned).
Proof.
  apply admits_readable; [|vm_compute; reflexivity].
  destruct (Lock.txns (rm_locks scanned) !! 1) as [t|] eqn:E; [|vm_compute in E; done]. exists t. split; [done|]. left.
  assert (state_ <$> (Lock.txns (rm_locks scanned) !! 1) = Some GROWING) as H by (vm_compute; reflexivity). rewrite E in H. by injection H.
Qed.
Lemma conds_t_hold (q : Rid) (r : list Z) : lookup one_record q = Some r -> checkConds (replicate 8 0) r conds_t cols_t = Ret true.
Proof. intros [_ ->]%one_record_only. vm_compute. reflexivity. Qed.

Lemma seq_scan_correct_witness : exists l, StronglySorted rid_lt l /\ (forall q, q ∈ l <-> is_Some (lookup one_record q)) /\
  forall fuel, (length l < fuel)%nat ->
    exists s' x', collect (EX := SeqScan_executor 0 1 fuel) fuel (scanned, scan_t) = (Ret (List.filter (fun _ => true) (omap (lookup one_record) l)), (s', x')) /\
      file_ok s' /\ forall q, lookup s' q = lookup one_record q.
Proof.
  destruct one_record_ok as (F & _ & _ & Ht).
  apply (seq_scan_correct 0 1 db_t "t" tab_t conds_t (mkRid 0 0) (fun _ => true) one_record scanned scan_t F Ht); [reflexivity|exact make_scan_t|exact scanned_readable|exact conds_t_hold].
Defined.
Lemma scanned_ok : file_ok scanned /\ (forall q, lookup scanned q = lookup one_record q) /\ fd_ scanned = fd_ one_record.
Proof.
  destruct one_record_ok as (F & _ & _ & Ht). destruct (seq_make_inv 1 db_t "t" tab_t conds_t (mkRid 0 0) one_record scanned scan_t eq_refl make_scan_t) as (b & lk & El & -> & _).
  destruct (lock_cases (LockSpec.SharedOnTable (fd_ one_record)) 1 (rm_locks one_record) (fo_locks _ F) Ht) as [(? & lk' & E & I & _)|(e & lk' & E & ?)]; cbn [LockSpec.op_run] in E; rewrite E in El; [|discriminate El].
  injection El as <- <-. destruct (file_ok_locks one_record lk' F I) as [F1 L1]. exact (conj F1 (conj L1 eq_refl)).
Qed.

Definition only : list Rid := [mkRid 1 0].
Lemma only_sorted : StronglySorted rid_lt only.
Proof. by repeat constructor. Qed.
Lemma only_all (q : Rid) : q ∈ only <-> is_Some (lookup scanned q).
Proof.
  destruct one_record_ok as (_ & _ & H & _). destruct scanned_ok as (_ & L & _). rewrite L. unfold only. rewrite list_elem_of_singleton. split; [intros ->; by eexists|].
  by intros [r [-> _]%one_record_only].
Qed.
Lemma scanned_conds (q : Rid) (r : row) : lookup scanned q = Some r -> checkConds (replicate 8 0) r conds_t cols_t = Ret ((fun _ => true) r).
Proof. destruct scanned_ok as (_ & L & _). rewrite L. apply conds_t_hold. Qed.
Lemma only_rows : [record_a] = rows_at scanned (fun _ => true) only.
Proof.
  destruct one_record_ok as (_ & _ & H & _). destruct scanned_ok as (_ & L & _). unfold only. by rewrite (rows_cons scanned (fun _ => true) (mkRid 1 0) [] record_a) by by rewrite L.
Qed.

Lemma only_fuel : (length only < 10)%nat.
Proof. vm_compute. lia. Qed.
Definition laws_t : @ExecutorLaws DemoFH SeqScanExecutor (SeqScan_executor 0 1 10) (unchanged 1 scanned) :=
  scan_laws 0 1 scanned conds_t cols_t 8 "t" (fun _ => true) scanned_conds only only_sorted only_all 10 only_fuel.

Lemma over_t : @over _ _ _ _ laws_t [record_a] scan_t.
Proof. exact (conj only_rows (conj eq_refl (conj eq_refl (conj eq_refl eq_refl)))). Qed.

(** The table joined with itself: the scans are the children. *)
Lemma block_join_correct_witness : exists d' j',
  let keep := RowSpec.sql_where (cols_t ++ shift_cols 8 cols_t) conds_t in
  collect (EX := @BlockJoin_executor _ 0 _ _ (SeqScan_executor 0 1 10) (SeqScan_executor 0 1 10) 10) 10
    (scanned, @make_block_join _ _ _ (SeqScan_executor 0 1 10) (SeqScan_executor 0 1 10) scan_t scan_t conds_t) =
    (Ret (join_rows keep (Z.to_nat MAX_BUFFER_SIZE) [record_a] [record_a]), (d', j')) /\ unchanged 1 scanned d' /\
  join_rows keep (Z.to_nat MAX_BUFFER_SIZE) [record_a] [record_a] ≡ₚ nested keep [record_a] [record_a].
Proof.
  destruct scanned_ok as (F & L & X). pose proof scanned_readable as K. rewrite <- X in K.
  refine (@block_join_correct _ _ _ (SeqScan_executor 0 1 10) (SeqScan_executor 0 1 10) (unchanged 1 scanned) laws_t laws_t 0 [record_a] [record_a] 8 8
    conds_t scan_t scan_t scanned eq_refl eq_refl _ over_t over_t _ 10 _ _ _ _ _ _ _ _).
  - done.
  - exact (conj F (conj (fun q => eq_refl) (conj eq_refl (conj eq_refl K)))).
  - done.
  - intros l ->%list_elem_of_singleton. done.
  - intros l ->%list_elem_of_singleton. done.
  - done.
  - by repeat constructor.
  - by repeat constructor.
  - constructor; [|constructor]. eexists. split; [reflexivity|]. eexists. split; reflexivity.
  - simpl. lia.
Defined.
End ScanDemo.
