(* ===== verification/Portal.v ===== *)
(** * From plans to executors ([src/src/portal.h])

    [Portal::start] turns a plan into a tree of executors, collecting the records
    an update or a delete is about; [Portal::run] executes the statement.  The
    tree is one type; its operations are those of the operator at its root over
    the trees below. *)

From S2P Require Import Prelude Bytes Posix Disk Replacer BufferPool BufferPoolFacts BufferPoolSpec PagePool Txn Lock Log TxnManager RmFile IxDefs IxIndex Values SmMeta Managers Executors Engine Dml Rollback SmManager Ast Analyze Planner IndexScan Printer QlManager Csv TableExecutors.
Import Engine PoolInstance.

Inductive portalTag : Type :=
| PORTAL_Invalid_Query | PORTAL_ONE_SELECT | PORTAL_SELECT_WITH_COUNT | PORTAL_SELECT_WITH_UNIQUE_COUNT
| PORTAL_SELECT_WITH_MAX | PORTAL_SELECT_WITH_MIN | PORTAL_SELECT_WITH_SUM
| PORTAL_DML_WITHOUT_SELECT | PORTAL_MULTI_QUERY | PORTAL_LOAD | PORTAL_CMD_UTILITY.

Definition help_lines : list string := [
  "Supported SQL syntax:"%string;
  "  command ;"%string;
  "command:"%string;
  "  CREATE TABLE table_name (column_name type [, column_name type ...])"%string;
  "  DROP TABLE table_name"%string;
  "  CREATE INDEX table_name (column_name)"%string;
  "  DROP INDEX table_name (column_name)"%string;
  "  INSERT INTO table_name VALUES (value [, value ...])"%string;
  "  DELETE FROM table_name [WHERE where_clause]"%string;
  "  UPDATE table_name SET column_name = value [, column_name = value ...] [WHERE where_clause]"%string;
  "  SELECT selector FROM table_name [WHERE where_clause]"%string;
  "type:"%string;
  "  {INT | FLOAT | CHAR(n)}"%string;
  "where_clause:"%string;
  "  condition [AND condition ...]"%string;
  "condition:"%string;
  "  column op {column | value}"%string;
  "column:"%string;
  "  [table_name.]column_name"%string;
  "op:"%string;
  "  {= | <> | < | > | <= | >=}"%string;
  "selector:"%string;
  "  {* | column [, column ...]}"%string].
Definition help_info : list Z := concat ((fun l => bytes_of_string l ++ NL) <$> help_lines).

(** ** Trees of executors *)

#[warnings="-register-all"] Inductive Executor : Type :=
| SeqScan (x : SeqScanExecutor)
| IndexScan (x : IndexScanExecutor)
| Projection (x : @ProjectionExecutor Executor)
| BlockJoin (x : @BlockNestedLoopJoinExecutor Executor Executor)
| Sort (x : @SortExecutor Executor).

Section portal.
Context {R : Type} {RO : Replacer R} {FO : FileSystem}.
(** [g]: uninitialised bytes; [r0]: an uninitialised position; [fuel] bounds
    loops and recursion in the index; [std_sort]: [std::sort]; [stof]: the
    conversion; [csv]: the files a load can open; [orders]: how the page table is
    traversed by the flushes of a drop; [txn]: the transaction of the context. *)
Context (g : Z) (r0 : Rid) (fuel : nat) (std_sort : (list Z -> list Z -> bool) -> list (list Z) -> list (list Z)).
Context (stof : list Z -> outcome Z) (csv : string -> option (list Z)) (order1 order2 order3 : list (PageId * Z)) (txn : Z).
Abbreviation Eng := (Engine R).
Abbreviation E := (M Eng).
(** [depth]: the height of the trees. *)
Context (depth : nat).

(** The handle of a sequential scan is a view of the engine. *)
Definition on_seq {A} (m : M (Rm.RmFileHandle (Bpm.BufferPoolManager R) * SeqScanExecutor) A) : M (Eng * SeqScanExecutor) A := fun s =>
  match fhs_ s.1 !! sq_tab_name s.2 with
  | None => (Stuck NullDeref, s)
  | Some t => let '(r, (h, x)) := m (table_of t s.1, s.2) in (r, (put_table (sq_tab_name s.2) h s.1, x))
  end.
Definition seq_over : AbstractExecutor Eng SeqScanExecutor :=
  let S := SeqScan_executor g txn fuel in {|
  tupleLen := tupleLen; cols := cols;
  beginTuple := on_seq beginTuple; nextTuple := on_seq nextTuple; is_end := on_seq is_end; Next := on_seq Next;
  get_col_offset := get_col_offset
|}.

(** An operation of the operator at the root. *)
Definition at_root {Y A} (wrap : Y -> Executor) (x : Y) (m : M (Eng * Y) A) : M (Eng * Executor) A := fun s =>
  let '(r, (d, y)) := m (s.1, x) in (r, (d, wrap y)).

(** The executor of trees of height at most [depth]. *)
Fixpoint executor_of (depth : nat) : AbstractExecutor Eng Executor :=
  match depth with
  | O => {| tupleLen := fun _ => 0; cols := fun _ => []; beginTuple := stuck Diverges; nextTuple := stuck Diverges; is_end := stuck Diverges;
            Next := stuck Diverges; get_col_offset := fun _ _ => Stuck Diverges |}
  | Datatypes.S depth =>
      let sub := executor_of depth in
      let SQ := seq_over in
      let IX := IndexScan_executor g txn fuel fuel in
      let PJ := Projection_executor (EX := sub) g in
      let BJ := BlockJoin_executor (EL := sub) (ER := sub) g fuel in
      let SO := Sort_executor (EX := sub) g std_sort fuel in
      {| tupleLen := fun x => match x with
                              | SeqScan y => tupleLen y | IndexScan y => tupleLen (AbstractExecutor := IX) y | Projection y => tupleLen y
                              | BlockJoin y => tupleLen y | Sort y => tupleLen y
                              end;
         cols := fun x => match x with
                          | SeqScan y => cols y | IndexScan y => cols (AbstractExecutor := IX) y | Projection y => cols y
                          | BlockJoin y => cols y | Sort y => cols y
                          end;
         beginTuple := fun s => match s.2 with
                                | SeqScan y => at_root SeqScan y beginTuple s | IndexScan y => at_root IndexScan y beginTuple s
                                | Projection y => at_root Projection y beginTuple s | BlockJoin y => at_root BlockJoin y beginTuple s
                                | Sort y => at_root Sort y beginTuple s
                                end;
         nextTuple := fun s => match s.2 with
                               | SeqScan y => at_root SeqScan y nextTuple s | IndexScan y => at_root IndexScan y nextTuple s
                               | Projection y => at_root Projection y nextTuple s | BlockJoin y => at_root BlockJoin y nextTuple s
                               | Sort y => at_root Sort y nextTuple s
                               end;
         is_end := fun s => match s.2 with
                            | SeqScan y => at_root SeqScan y is_end s | IndexScan y => at_root IndexScan y is_end s
                            | Projection y => at_root Projection y is_end s | BlockJoin y => at_root BlockJoin y is_end s
                            | Sort y => at_root Sort y is_end s
                            end;
         Next := fun s => match s.2 with
                          | SeqScan y => at_root SeqScan y Next s | IndexScan y => at_root IndexScan y Next s
                          | Projection y => at_root Projection y Next s | BlockJoin y => at_root BlockJoin y Next s
                          | Sort y => at_root Sort y Next s
                          end;
         get_col_offset := fun x target => match x with
                                           | SeqScan y => get_col_offset y target | IndexScan y => get_col_offset (AbstractExecutor := IX) y target
                                           | Projection y => get_col_offset y target | BlockJoin y => get_col_offset y target
                                           | Sort y => get_col_offset y target
                                           end |}
  end.
#[local] Instance executor : AbstractExecutor Eng Executor := executor_of depth.

(** [rid()]: only the scans have a position. *)
Definition rid_of (x : Executor) : Rid :=
  match x with SeqScan y => sq_rid y | IndexScan y => xs_rid y | _ => r0 end.

(** ** Converting plans *)

Definition make_seq (tab_name : string) (conds : list Condition) : E SeqScanExecutor :=
  db ← gets db_;
  _ ← lift (get_table tab_name db);
  on_table tab_name (make_seq_scan txn db tab_name conds r0).

(** None is the null pointer; the constructors of the inner operators
    dereference their children. *)
Fixpoint convert_plan_executor (plan : Plan) : E (option Executor) :=
  match plan with
  | ProjectionPlan _ subplan sel_cols =>
      prev ← convert_plan_executor subplan;
      prev ← unwrap NullDeref prev;
      x ← lift (make_projection prev sel_cols);
      mret (Some (Projection x))
  | ScanPlan tag tab_name _ conds _ _ index_col_names =>
      if bool_decide (tag = T_SeqScan) then x ← make_seq tab_name conds; mret (Some (SeqScan x))
      else x ← make_index_scan txn tab_name conds index_col_names r0; mret (Some (IndexScan x))
  | JoinPlan _ left_ right_ conds _ =>
      x ← convert_plan_executor left_;
      y ← convert_plan_executor right_;
      x ← unwrap NullDeref x;
      y ← unwrap NullDeref y;
      mret (Some (BlockJoin (make_block_join x y conds)))
  | SortPlan _ subplan sel_col limit =>
      prev ← convert_plan_executor subplan;
      prev ← unwrap NullDeref prev;
      x ← lift (make_sort prev sel_col limit);
      mret (Some (Sort x))
  | _ => mret None
  end.

(** ** Statements *)

Inductive Root : Type :=
| NoRoot
| QueryRoot (x : Executor)
| InsertRoot (x : InsertExecutor)
| DeleteRoot (x : DeleteExecutor)
| UpdateRoot (x : UpdateExecutor).
Record PortalStmt : Type := mkPortal { ps_tag : portalTag; ps_sel_cols : list TabCol; ps_root : Root; ps_plan : Plan }.

(** [for (scan->beginTuple(); !scan->is_end(); scan->nextTuple()) rids.push_back(scan->rid())] *)
Fixpoint drain_rids (n : nat) (rids : list Rid) : M (Eng * Executor) (list Rid) :=
  match n with
  | O => stuck Diverges
  | Datatypes.S n =>
      e ← is_end;
      if (e : bool) then mret rids else
      r ← own rid_of;
      nextTuple ;;
      drain_rids n (rids ++ [r])
  end.
Definition with_tree {A} (x : Executor) (m : M (Eng * Executor) A) : E A := fun d => let '(r, s) := m (d, x) in (r, s.1).
Definition scan_rids (subplan : Plan) : E (list Rid) :=
  scan ← convert_plan_executor subplan;
  scan ← unwrap NullDeref scan;
  with_tree scan (beginTuple ;; drain_rids fuel []).

(** The root of a select: [dynamic_pointer_cast] to a projection may fail. *)
Definition select_root (subplan : Plan) : E Root :=
  match subplan with
  | ProjectionPlan _ _ _ =>
      x ← convert_plan_executor subplan;
      mret (match x with Some x => QueryRoot x | None => NoRoot end)
  | _ => mret NoRoot
  end.
Definition select_cols (subplan : Plan) : E (list TabCol) :=
  match subplan with ProjectionPlan _ _ sel_cols => mret sel_cols | _ => stuck NullDeref end.
Definition aggregate_stmt (tag : portalTag) (alias : string) (subplan plan : Plan) : E PortalStmt :=
  root ← select_root subplan;
  mret (mkPortal tag [mkTabCol "" alias] root plan).

Definition start (plan : Plan) : E PortalStmt :=
  match plan with
  | OtherPlan _ _ => mret (mkPortal PORTAL_CMD_UTILITY [] NoRoot plan)
  | DDLPlan _ _ _ _ => mret (mkPortal PORTAL_MULTI_QUERY [] NoRoot plan)
  | LoadPlan _ _ => mret (mkPortal PORTAL_LOAD [] NoRoot plan)
  | DMLPlan tag subplan tab_name values conds set_clauses alias is_all =>
      match tag with
      | T_select =>
          root ← select_root subplan;
          cs ← select_cols subplan;
          mret (mkPortal PORTAL_ONE_SELECT cs root plan)
      | T_select_count => aggregate_stmt (if is_all then PORTAL_SELECT_WITH_UNIQUE_COUNT else PORTAL_SELECT_WITH_COUNT) alias subplan plan
      | T_select_max => aggregate_stmt PORTAL_SELECT_WITH_MAX alias subplan plan
      | T_select_min => aggregate_stmt PORTAL_SELECT_WITH_MIN alias subplan plan
      | T_select_sum => aggregate_stmt PORTAL_SELECT_WITH_SUM alias subplan plan
      | T_Update =>
          rids ← scan_rids subplan;
          root ← make_update txn tab_name set_clauses conds rids;
          mret (mkPortal PORTAL_DML_WITHOUT_SELECT [] (UpdateRoot root) plan)
      | T_Delete =>
          rids ← scan_rids subplan;
          root ← make_delete txn tab_name conds rids;
          mret (mkPortal PORTAL_DML_WITHOUT_SELECT [] (DeleteRoot root) plan)
      | T_Insert =>
          root ← make_insert txn tab_name values r0;
          mret (mkPortal PORTAL_DML_WITHOUT_SELECT [] (InsertRoot root) plan)
      | _ => throw (InternalError "Unexpected field type")
      end
  | _ => throw (InternalError "Unexpected field type")
  end.

(** ** The whole system *)

(** The engine and what the transaction manager keeps besides. *)
Record System : Type := mkSys { sys_engine : Eng; sys_next_txn : Z; sys_txn_map : gset Z }.
Definition sys_set_engine (x : Eng) (s : System) : System := mkSys x (sys_next_txn s) (sys_txn_map s).
Definition on_engine {A} (m : E A) : M System A := zoom sys_engine sys_set_engine m.
Definition the_mgr (s : System) : TxnMgr.TransactionManager := TxnMgr.mkTM (sys_next_txn s) (sys_txn_map s) (en_locks (sys_engine s)) (the_log (sys_engine s)).
Definition put_mgr (m : TxnMgr.TransactionManager) (s : System) : System :=
  mkSys (set_locks (TxnMgr.tm_locks m) (put_log (TxnMgr.tm_log m) (sys_engine s))) (TxnMgr.next_txn_id_ m) (TxnMgr.txn_map m).
Definition on_mgr {A} (m : M TxnMgr.TransactionManager A) : M System A := zoom the_mgr put_mgr m.

(** A statement in execution: the system, the output part of the context, and
    [context->txn_]. *)
Record Stmt : Type := mkStmt { st_sys : System; st_out : Context; st_txn : option Z }.
Definition st_set_sys (x : System) (s : Stmt) : Stmt := mkStmt x (st_out s) (st_txn s).
Definition st_set_out (x : Context) (s : Stmt) : Stmt := mkStmt (st_sys s) x (st_txn s).
Definition st_set_txn (x : option Z) (s : Stmt) : Stmt := mkStmt (st_sys s) (st_out s) x.
Definition on_sys {A} (m : M System A) : M Stmt A := zoom st_sys st_set_sys m.
Definition on_output {A} (m : P A) : M Stmt A := zoom st_out st_set_out m.
Definition on_eng {A} (m : E A) : M Stmt A := on_sys (on_engine m).

(** ** [QlManager] *)

Definition run_mutli_query (plan : Plan) : M Stmt unit :=
  match plan with
  | DDLPlan tag tab_name tab_col_names cs =>
      match tag with
      | T_CreateTable => on_eng (create_table tab_name cs)
      | T_DropTable => on_eng (drop_table order1 order2 order3 tab_name)
      | T_CreateIndex => on_eng (create_index fuel fuel txn tab_name tab_col_names)
      | T_DropIndex => on_eng (drop_index order1 tab_name tab_col_names)
      | _ => throw (InternalError "Unexpected field type")
      end
  | _ => mret tt
  end.

(** [context->txn_ = txn_mgr_->get_transaction(txn_id)] *)
Definition take_txn (txn_id : Z) : M Stmt Z :=
  t ← on_sys (on_mgr (TxnMgr.get_transaction txn_id));
  modify (st_set_txn t) ;;
  unwrap NullDeref t.
Definition print_help : P unit :=
  c ← gets id;
  d ← unwrap OutOfBounds (mem_write (offset_ c) help_info (data_send_ c));
  modify (ctx_set_sent d (Z.of_nat (length help_info))).

Definition run_cmd_utility (plan : Plan) (txn_id : Z) : M Stmt unit :=
  match plan with
  | OtherPlan tag tab_name =>
      match tag with
      | T_Help => on_output print_help
      | T_ShowTable => db ← on_eng (gets db_); on_output (show_tables db)
      | T_ShowIndex => db ← on_eng (gets db_); on_output (show_index db tab_name)
      | T_DescTable => db ← on_eng (gets db_); on_output (desc_table db tab_name)
      | T_Transaction_begin =>
          t ← gets st_txn;
          t ← unwrap NullDeref t;
          on_eng (on_locks (Lock.upd_txn t (set_txn_mode true)))
      | T_Transaction_commit => t ← take_txn txn_id; on_sys (on_mgr (TxnMgr.commit t))
      | T_Transaction_rollback | T_Transaction_abort => t ← take_txn txn_id; on_eng (Rollback.abort fuel t)
      | _ => throw (InternalError "Unexpected field type")
      end
  | _ => mret tt
  end.

(** [select_from] owns the tree. *)
Definition run_select (root : Root) (sel_cols : list TabCol) (tag : SelectTag) : M Stmt unit :=
  match root with
  | QueryRoot x => fun s =>
      let '(r, (d, _, c)) := select_from g fuel sel_cols tag (sys_engine (st_sys s), x, st_out s) in
      (r, mkStmt (sys_set_engine d (st_sys s)) c (st_txn s))
  | _ => stuck NullDeref
  end.
Definition run_dml (root : Root) : M Stmt unit :=
  match root with
  | InsertRoot x => on_eng (_ ← insert_next g fuel txn x; mret tt)
  | DeleteRoot x => on_eng (delete_next g fuel txn x)
  | UpdateRoot x => on_eng (update_next g fuel txn x)
  | _ => stuck NullDeref
  end.
Definition run_load (plan : Plan) : M Stmt unit :=
  match plan with
  | LoadPlan tab_name path => on_eng (load_csv g stof fuel txn r0 (csv path) tab_name)
  | _ => stuck NullDeref
  end.

(** ** [Portal::run] *)

Definition run (p : PortalStmt) (txn_id : Z) : M Stmt unit :=
  match ps_tag p with
  | PORTAL_ONE_SELECT => run_select (ps_root p) (ps_sel_cols p) ONE_SELECT
  | PORTAL_SELECT_WITH_COUNT => run_select (ps_root p) (ps_sel_cols p) SELECT_WITH_COUNT
  | PORTAL_SELECT_WITH_UNIQUE_COUNT => run_select (ps_root p) (ps_sel_cols p) SELECT_WITH_UNIQUE_COUNT
  | PORTAL_SELECT_WITH_MAX => run_select (ps_root p) (ps_sel_cols p) SELECT_WITH_MAX
  | PORTAL_SELECT_WITH_MIN => run_select (ps_root p) (ps_sel_cols p) SELECT_WITH_MIN
  | PORTAL_SELECT_WITH_SUM => run_select (ps_root p) (ps_sel_cols p) SELECT_WITH_SUM
  | PORTAL_LOAD => run_load (ps_plan p)
  | PORTAL_DML_WITHOUT_SELECT => run_dml (ps_root p)
  | PORTAL_MULTI_QUERY => run_mutli_query (ps_plan p)
  | PORTAL_CMD_UTILITY => run_cmd_utility (ps_plan p) txn_id
  | PORTAL_Invalid_Query => throw (InternalError "Unexpected field type")
  end.
End portal.
