(* ===== verification/PortalSpec.v ===== *)
(** * Statements from their plans to their answers

    The operators keep [ExecutorLaws] when they are stacked into a tree over the
    whole engine; so a select statement over a sequential scan answers exactly the
    records of its table that satisfy its conditions. *)

From Stdlib Require Import Sorting.Sorted.
From stdpp Require Import sorting.
From S2P Require Import Prelude Bytes Posix Disk Replacer BufferPool BufferPoolFacts BufferPoolSpec PagePool Txn Lock LockFacts LockSpec RmFile RmPageFacts RmTable RmFileFacts RmSpec Log IxDefs IxCompare Values ValuesSpec SmMeta Managers Analyze Executors JoinSpec Engine Dml SmManager Ast Planner IndexScan Printer PrinterSpec QlManager QlSpec TableExecutors ScanSpec Portal.

Module PortalSpec.
Import Engine PoolInstance PrinterSpec QlSpec RowSpec.

(** ** The scan over the engine *)

Section seq.
Context {R : Type} {RO : Replacer R} {FO : FileSystem} (g txn : Z) (fuel : nat).
Abbreviation Eng := (Engine R).
Abbreviation FH := (Rm.RmFileHandle (Bpm.BufferPoolManager R)).
Context (I : FH -> Prop) (L : @ExecutorLaws FH SeqScanExecutor (SeqScan_executor g txn fuel) I) (name : string) (db : DbMeta).
Context (Hname : forall rows x, over (ExecutorLaws := L) rows x -> sq_tab_name x = name).

(** The engine while the scan runs: its table is as [I] says. *)
Definition holds_table (e : Eng) : Prop := db_ e = db /\ exists t, fhs_ e !! name = Some t /\ I (table_of t e).

Lemma table_put (h : FH) (e : Eng) : fhs_ (put_table name h e) !! name = Some (mkTF (Rm.fd_ h) (Rm.file_hdr_ h)) /\
  table_of (mkTF (Rm.fd_ h) (Rm.file_hdr_ h)) (put_table name h e) = h.
Proof. split; [apply lookup_insert_eq|]. by destruct h. Qed.
Lemma put_same (t : TabFile) (e : Eng) : fhs_ e !! name = Some t -> put_table name (table_of t e) e = e.
Proof. intros H. destruct e, t. unfold put_table, table_of. simpl in *. by rewrite insert_id. Qed.

Lemma seq_run {A} (m : M (FH * SeqScanExecutor) A) (e : Eng) (t : TabFile) (x x' : SeqScanExecutor) (h : FH) (r : outcome A) :
  fhs_ e !! name = Some t -> sq_tab_name x = name -> m (table_of t e, x) = (r, (h, x')) -> on_seq m (e, x) = (r, (put_table name h e, x')).
Proof. intros Ht Hx H. unfold on_seq. cbn [fst snd]. by rewrite Hx, Ht, H. Qed.
Lemma table_kept (h : FH) (e : Eng) : holds_table e -> I h -> holds_table (put_table name h e).
Proof. intros [Hd _] H. split; [done|]. eexists. split; [apply table_put|]. by rewrite (proj2 (table_put h e)). Qed.

(** The laws of the scan lifted to the engine. *)
Definition seq_laws : @ExecutorLaws Eng SeqScanExecutor (seq_over g fuel txn) holds_table.
Proof.
  refine {| over := over (ExecutorLaws := L); at_ := at_ (ExecutorLaws := L); at_over := at_over (ExecutorLaws := L); at_suffix := at_suffix (ExecutorLaws := L) |}.
  - intros e x rows H Hx. pose proof H as (_ & t & Ht & HI). destruct (begin_ok (ExecutorLaws := L) _ x rows HI Hx) as (h & x' & E & Ih & A).
    exists (put_table name h e), x'. split; [apply (seq_run _ _ _ _ _ _ _ Ht (Hname _ _ Hx) E)|]. split; [by apply table_kept|done].
  - intros e x rows rest H Hx. pose proof H as (_ & t & Ht & HI). pose proof (is_end_ok (ExecutorLaws := L) _ x rows rest HI Hx) as E.
    rewrite <- (put_same t e Ht) at 2. apply (seq_run _ _ _ _ _ _ _ Ht (Hname _ _ (at_over _ _ _ Hx)) E).
  - intros e x rows r rest H Hx. pose proof H as (_ & t & Ht & HI). destruct (record_ok (ExecutorLaws := L) _ x rows r rest HI Hx) as (h & x' & E & Ih & A).
    exists (put_table name h e), x'. split; [apply (seq_run _ _ _ _ _ _ _ Ht (Hname _ _ (at_over _ _ _ Hx)) E)|]. split; [by apply table_kept|done].
  - intros e x rows r rest H Hx. pose proof H as (_ & t & Ht & HI). destruct (next_ok (ExecutorLaws := L) _ x rows r rest HI Hx) as (h & x' & E & Ih & A).
    exists (put_table name h e), x'. split; [apply (seq_run _ _ _ _ _ _ _ Ht (Hname _ _ (at_over _ _ _ Hx)) E)|]. split; [by apply table_kept|done].
Defined.
End seq.

(** ** Projection *)

Section projection.
Context {D X : Type} {EX : AbstractExecutor D X} (I : D -> Prop) (L : ExecutorLaws D X I) (g : Z) (pcs cs : list ColMeta) (len : Z).
Context (Hcols : forall rows x, over rows x -> cols x = pcs).
Abbreviation PJ := (@ProjectionExecutor X).

(** A row and what the projection makes of it. *)
Definition projects (r r' : row) : Prop := project pcs cs r (replicate (Z.to_nat len) g) = Ret r'.
Definition proj_over (rows' : list row) (p : PJ) : Prop :=
  pj_cols p = cs /\ pj_len p = len /\ exists rows, over rows (pj_prev p) /\ Forall2 projects rows rows'.
Definition proj_at (rows' rest' : list row) (p : PJ) : Prop :=
  pj_cols p = cs /\ pj_len p = len /\ exists rows rest pre pre', at_ rows rest (pj_prev p) /\ rows = pre ++ rest /\ rows' = pre' ++ rest' /\
    Forall2 projects pre pre' /\ Forall2 projects rest rest'.

Lemma prev_run {A} (m : M (D * X) A) (d d' : D) (p : PJ) (x' : X) (r : outcome A) :
  m (d, pj_prev p) = (r, (d', x')) -> pj_child m (d, p) = (r, (d', pj_set_prev x' p)).
Proof. intros H. unfold pj_child, on_child. cbn [fst snd]. by rewrite H. Qed.
Lemma set_prev_same (p : PJ) : pj_set_prev (pj_prev p) p = p.
Proof. by destruct p. Qed.

Definition projection_laws : @ExecutorLaws D PJ (Projection_executor g) I.
Proof.
  refine {| over := proj_over; at_ := proj_at |}.
  - intros rows' rest' p (H1 & H2 & rows & rest & pre & pre' & Ha & -> & -> & F1 & F2). split_and!; [done..|].
    exists (pre ++ rest). split; [exact (at_over _ _ _ Ha)|]. by apply Forall2_app.
  - intros rows' rest' p (_ & _ & rows & rest & pre & pre' & _ & _ & -> & _). by exists pre'.
  - intros d p rows' Hd (H1 & H2 & rows & Ho & F). destruct (begin_ok d (pj_prev p) rows Hd Ho) as (d' & x' & E & I' & A).
    exists d', (pj_set_prev x' p). split; [by apply prev_run|]. split; [done|]. split_and!; [done..|]. by exists rows, rows, [], [].
  - intros d p rows' rest' Hd (_ & _ & rows & rest & pre & pre' & Ha & _ & _ & _ & F2). rewrite <- (set_prev_same p) at 2. apply prev_run.
    rewrite (is_end_ok d (pj_prev p) _ _ Hd Ha). do 2 f_equal. by destruct F2.
  - intros d p rows' r' rest' Hd (H1 & H2 & rows & rest & pre & pre' & Ha & Er & Er' & F1 & F2). inversion F2 as [|r ? rest0 ? Hr F3]; subst.
    destruct (record_ok d (pj_prev p) _ _ _ Hd Ha) as (d' & x' & E & I' & A). exists d', (pj_set_prev x' p). split; [|split; [done|]].
    + unfold Next, Projection_executor, pj_next. erewrite bind_run by reflexivity. rewrite (bind_run _ _ _ _ _ (prev_run _ _ _ p _ _ E)). do 2 (erewrite bind_run by reflexivity).
      cbn [snd pj_set_prev pj_len pj_cols pj_prev]. rewrite (Hcols _ _ (at_over _ _ _ A)). unfold lift. by rewrite H1, H2, Hr.
    + split_and!; [done..|]. by exists (pre ++ r :: rest0), (r :: rest0), pre, pre'.
  - intros d p rows' r' rest' Hd (H1 & H2 & rows & rest & pre & pre' & Ha & Er & Er' & F1 & F2). inversion F2 as [|r ? rest0 ? Hr F3]; subst.
    destruct (next_ok d (pj_prev p) _ _ _ Hd Ha) as (d' & x' & E & I' & A). exists d', (pj_set_prev x' p). split; [by apply prev_run|]. split; [done|].
    split_and!; [done..|]. exists (pre ++ r :: rest0), rest0, (pre ++ [r]), (pre' ++ [r']). rewrite <- !app_assoc. split_and!; try done. apply Forall2_app; [done|by constructor].
Defined.
End projection.

(** ** What a row of the answer says

    The text of a column, from its type and its bytes, and the texts of the
    chosen columns of a row. *)

Definition sql_text (t : ColType) (b : list Z) : list Z :=
  match t with
  | TYPE_INT => put_int (i32_val b)
  | TYPE_BIGINT => put_int (i64_val b)
  | TYPE_FLOAT => put_float (u32_val b)
  | TYPE_STRING | TYPE_DATETIME => cstr b
  end.
Definition row_text (scols : list ColMeta) (r : row) : list (list Z) := (fun c => sql_text (cm_type c) (cell r c)) <$> scols.
(** A date is printed up to a zero byte, which its column should hold. *)
Definition terminated (r : row) (c : ColMeta) : Prop := cm_type c = TYPE_DATETIME -> existsb (Z.eqb 0) (cell r c) = true.

Definition total_len (l : list ColMeta) : Z := foldr (fun c n => cm_len c + n) 0 l.
(** The columns side by side. *)
Fixpoint laid (cur : Z) (l : list ColMeta) : list ColMeta :=
  match l with [] => [] | c :: l => set_offset cur c :: laid (cur + cm_len c) l end.

Section row_text.
Context (n : Z) (pcs : list ColMeta) (Hpcs : Forall (column_ok n) pcs).

(** A column the projection found. *)
Definition found (c : ColMeta) : Prop := named pcs (mkTabCol (cm_tab_name c) (cm_name c)) = Some c /\ column_ok n c.

Lemma total_nonneg (l : list ColMeta) : Forall found l -> 0 <= total_len l.
Proof. induction 1 as [|c l [_ Hc] _ IH]; simpl; [lia|]. pose proof (column_len n c Hc). lia. Qed.

Lemma get_col_named (cs : list ColMeta) (t : TabCol) (c : ColMeta) : named cs t = Some c -> exists i, get_col cs t = Ret (i, c).
Proof.
  rewrite <- named_find. unfold get_col. intros H. assert (exists i, find_col t cs = Some (i, c)) as [i ->]; [|by exists i].
  induction cs as [|c' cs IH]; [done|]. cbn [List.find find_col] in *. destruct (is_target t c'); [injection H as ->; by exists O|].
  destruct (IH H) as [i ->]. by exists (Datatypes.S i).
Qed.

Lemma found_all (sel : list TabCol) (scols : list ColMeta) : mapM (named pcs) sel = Some scols -> Forall found scols.
Proof.
  intros H%mapM_Some. induction H as [|t c sel scols Hn _ IH]; constructor; [|done].
  destruct (named_elem _ _ _ Hn) as (Hin & E1 & E2). split; [rewrite <- E1, <- E2; by destruct t|]. rewrite Forall_forall in Hpcs. by apply Hpcs.
Qed.

Lemma project_cols_run (sel : list TabCol) : forall scols cur, mapM (named pcs) sel = Some scols -> 0 <= cur -> cur + total_len scols < 2 ^ 31 ->
  exists idxs, project_cols pcs cur sel = Ret (idxs, laid cur scols, cur + total_len scols).
Proof.
  induction sel as [|t sel IH]; intros scols cur Hm Hc Hb; cbn [mapM mbind option_bind] in Hm.
  - injection Hm as <-. exists []. simpl. do 2 f_equal. lia.
  - destruct (named pcs t) as [c|] eqn:En; [|done]. cbn [mbind option_bind] in Hm. destruct (mapM (named pcs) sel) as [l|] eqn:Em; [|done]. injection Hm as <-.
    pose proof (total_nonneg l (found_all _ _ Em)). assert (0 <= cm_len c).
    { apply (column_len n). rewrite Forall_forall in Hpcs. apply Hpcs. by apply (named_elem pcs t). }
    simpl in Hb. destruct (get_col_named _ _ _ En) as [i Ei]. cbn [project_cols]. rewrite Ei. cbn [mbind outcome_bind].
    assert (wrap_u 64 (cur + cm_len c) = cur + cm_len c) as -> by (unfold wrap_u; rewrite Z.mod_small; lia).
    destruct (IH l (cur + cm_len c) eq_refl) as [idxs ->]; [lia|lia|]. cbn [mbind outcome_bind]. eexists. cbn [laid total_len foldr]. fold (total_len l).
    assert (wrap_s 32 cur = cur) as -> by (unfold wrap_s; rewrite Z.mod_small; lia). do 2 f_equal. lia.
Qed.

Lemma project_run (src : row) (scols : list ColMeta) : Z.of_nat (length src) = n -> Forall found scols -> forall cur result, 0 <= cur -> Z.of_nat (length result) = cur + total_len scols ->
  project pcs (laid cur scols) src result = Ret (take (Z.to_nat cur) result ++ concat (cell src <$> scols)).
Proof.
  intros Hs. induction 1 as [|c l [Hn Hc] Hl IH]; intros cur result H0 Hr; cbn [laid project]; simpl in Hr.
  - rewrite take_ge by lia. simpl. by rewrite app_nil_r.
  - pose proof (total_nonneg l Hl). pose proof (column_len n c Hc). pose proof (cell_length n src c Hc Hs) as Lc. destruct Hc as (_ & Ho1 & Ho2).
    cbn [set_offset cm_tab_name cm_name cm_len cm_offset]. unfold find_deref. rewrite named_find, Hn. cbn [or_stuck mbind outcome_bind].
    assert (read (cm_offset c) (Z.max 0 (cm_len c)) src = Ret (cell src c)) as ->.
    { unfold read, mem_read. rewrite Z.max_r by lia. rewrite (proj2 (Z.leb_le 0 (cm_offset c))), (proj2 (Z.leb_le 0 (cm_len c))), (proj2 (Z.leb_le (_ + _) _)) by lia. done. }
    cbn [mbind outcome_bind]. unfold write, mem_write. rewrite (proj2 (Z.leb_le 0 cur)), (proj2 (Z.leb_le (_ + _) _)) by lia. cbn [andb or_stuck mbind outcome_bind].
    rewrite IH; [|lia|rewrite length_splice by lia; lia]. unfold splice. rewrite fmap_cons. cbn [concat]. f_equal.
    replace (Z.to_nat (cur + cm_len c)) with (length (take (Z.to_nat cur) result ++ cell src c)) by (rewrite length_app, length_take; lia).
    rewrite !app_assoc, take_app_length. done.
Qed.

Lemma read_mid (pre b rest : list Z) (k : Z) : Z.of_nat (length b) = k -> read (Z.of_nat (length pre)) k (pre ++ b ++ rest) = Ret b.
Proof.
  intros Hk. unfold read, mem_read. rewrite !length_app. rewrite (proj2 (Z.leb_le 0 (Z.of_nat (length pre)))), (proj2 (Z.leb_le 0 k)), (proj2 (Z.leb_le (_ + _) _)) by lia.
  cbn [andb or_stuck]. f_equal. unfold slice. rewrite Nat2Z.id, drop_app_length. apply take_app_length'. lia.
Qed.
Lemma cstr_app (b rest : list Z) : existsb (Z.eqb 0) b = true -> cstr (b ++ rest) = cstr b.
Proof.
  induction b as [|x b IH]; [done|]. cbn [existsb cstr app]. rewrite (Z.eqb_sym 0 x). destruct (x =? 0); [done|]. intros H. f_equal. by apply IH.
Qed.

Lemma cell_printed (pre rest : list Z) (c : ColMeta) (src : row) : Z.of_nat (length src) = n -> column_ok n c -> terminated src c ->
  column_text (pre ++ cell src c ++ rest) (set_offset (Z.of_nat (length pre)) c) = Ret (sql_text (cm_type c) (cell src c)).
Proof.
  intros Hs Hc Ht. pose proof (cell_length n src c Hc Hs) as Lc. destruct Hc as (Hok & _). unfold col_ok in Hok. unfold column_text, terminated in *.
  cbn [set_offset cm_type cm_offset cm_len fst snd] in *. destruct (cm_type c); cbn [sql_text]; try (rewrite read_mid by lia; done).
  unfold c_string. rewrite Nat2Z.id, drop_app_length, !length_app. rewrite (proj2 (Z.leb_le 0 _)), (proj2 (Z.leb_le (Z.of_nat (length pre)) _)) by lia.
  rewrite existsb_app, (Ht eq_refl). cbn [andb orb ensure mbind outcome_bind]. by rewrite cstr_app by by apply Ht.
Qed.

Lemma texts_printed (src : row) (scols : list ColMeta) : Z.of_nat (length src) = n -> Forall found scols -> Forall (terminated src) scols -> forall pre,
  Analyze.over (column_text (pre ++ concat (cell src <$> scols))) (laid (Z.of_nat (length pre)) scols) = Ret (row_text scols src).
Proof.
  intros Hs Hf. induction Hf as [|c l [Hn Hc] Hl IH]; intros Ht pre; [done|]. apply Forall_cons in Ht as [Ht Hts]. rewrite fmap_cons. cbn [concat laid Analyze.over].
  rewrite (cell_printed pre _ c src Hs Hc Ht). cbn [mbind outcome_bind]. specialize (IH Hts (pre ++ cell src c)). rewrite length_app, Nat2Z.inj_add, (cell_length n src c Hc Hs), <- app_assoc in IH.
  by rewrite IH.
Qed.
End row_text.

(** ** The root of a tree *)

Section root.
Context {R : Type} {FO : FileSystem} {Y : Type} (EY : AbstractExecutor (Engine R) Y) (ET : AbstractExecutor (Engine R) Executor) (I : Engine R -> Prop) (L : ExecutorLaws (Engine R) Y I).
Context (wrap : Y -> Executor).
Context (Hb : forall d y, @beginTuple _ _ ET (d, wrap y) = at_root wrap y beginTuple (d, wrap y)) (Hn : forall d y, @nextTuple _ _ ET (d, wrap y) = at_root wrap y nextTuple (d, wrap y)).
Context (He : forall d y, @is_end _ _ ET (d, wrap y) = at_root wrap y is_end (d, wrap y)) (Hr : forall d y, @Next _ _ ET (d, wrap y) = at_root wrap y Next (d, wrap y)).

Lemma root_run {A} (m : M (Engine R * Y) A) (d d' : Engine R) (y y' : Y) (x : Executor) (r : outcome A) : m (d, y) = (r, (d', y')) -> at_root wrap y m (d, x) = (r, (d', wrap y')).
Proof. intros H. unfold at_root. cbn [fst]. by rewrite H. Qed.

Definition root_laws : @ExecutorLaws (Engine R) Executor ET I.
Proof.
  refine {| over := fun rows x => exists y, x = wrap y /\ over rows y; at_ := fun rows rest x => exists y, x = wrap y /\ at_ rows rest y |}.
  - intros rows rest x (y & -> & H). exists y. split; [done|exact (at_over _ _ _ H)].
  - intros rows rest x (y & -> & H). exact (at_suffix _ _ _ H).
  - intros d x rows Hd (y & -> & H). destruct (begin_ok d y rows Hd H) as (d' & y' & E & I' & A). exists d', (wrap y'). rewrite Hb. split; [by apply root_run|]. split; [done|by exists y'].
  - intros d x rows rest Hd (y & -> & H). rewrite He. apply root_run, (is_end_ok d y rows rest Hd H).
  - intros d x rows r rest Hd (y & -> & H). destruct (record_ok d y rows r rest Hd H) as (d' & y' & E & I' & A). exists d', (wrap y'). rewrite Hr. split; [by apply root_run|]. split; [done|by exists y'].
  - intros d x rows r rest Hd (y & -> & H). destruct (next_ok d y rows r rest Hd H) as (d' & y' & E & I' & A). exists d', (wrap y'). rewrite Hn. split; [by apply root_run|]. split; [done|by exists y'].
Defined.
End root.

(** ** A select over one table *)

Section statement.
Context {R : Type} {RO : Replacer R} {RL : ReplacerLaws R} {FO : FileSystem} {FL : FileSystemLaws} {FR : FileSystemReliable}.
Context (g : Z) (r0 : Rid) (std_sort : (list Z -> list Z -> bool) -> list (list Z) -> list (list Z)).
Context (stof : list Z -> outcome Z) (csv : string -> option (list Z)) (order1 order2 order3 : list (PageId * Z)) (txn : Z) (n : nat).
Abbreviation Eng := (Engine R).
Abbreviation tree fuel := (executor_of g fuel std_sort txn).

Lemma eng_run {A} (m : M Eng A) (st : Stmt (R := R)) (e' : Eng) (r : outcome A) : m (sys_engine (st_sys st)) = (r, e') ->
  on_eng m st = (r, st_set_sys (sys_set_engine e' (st_sys st)) st).
Proof. intros H. unfold on_eng, on_sys, on_engine, zoom. by rewrite H. Qed.

Lemma texts_of (pcs cs : list ColMeta) (len : Z) (text : row -> list (list Z)) (rows : list row) :
  Forall (fun r => exists r', projects g pcs cs len r r' /\ Analyze.over (column_text r') cs = Ret (text r)) rows ->
  exists rows', Forall2 (projects g pcs cs len) rows rows' /\ row_texts rows' cs (text <$> rows).
Proof.
  induction 1 as [|r rows (r' & H1 & H2) _ (rows' & F1 & F2)]; [exists []; by split; constructor|]. exists (r' :: rows'). split; by constructor.
Qed.

(** The projection of a scan, as a tree: the laws stack up. *)
Section stacked.
Context (fuel : nat) (h : Rm.RmFileHandle (Bpm.BufferPoolManager R)) (name : string) (db : DbMeta) (conds : list Condition) (tcs cs : list ColMeta) (slen len : Z) (P : row -> bool).
Context (Hc : forall q r, RmFacts.lookup h q = Some r -> checkConds (replicate 8 g) r conds tcs = Ret (P r)).
Context (l : list Rid) (Hsort : StronglySorted RmSpec.rid_lt l) (Hl : forall q, q ∈ l <-> is_Some (RmFacts.lookup h q)) (Hf : (length l < fuel)%nat).
Abbreviation I := (holds_table (ScanSpec.unchanged txn h) name db).

Definition leaf_laws : @ExecutorLaws Eng Executor (tree fuel (Datatypes.S n)) I :=
  root_laws (seq_over g fuel txn) (tree fuel (Datatypes.S n)) I
    (seq_laws g txn fuel (ScanSpec.unchanged txn h) (ScanSpec.scan_laws g txn h conds tcs slen name P Hc l Hsort Hl fuel Hf) name db (fun rows x H => proj2 (proj2 (proj2 (proj2 H)))))
    SeqScan (fun d y => eq_refl) (fun d y => eq_refl) (fun d y => eq_refl) (fun d y => eq_refl).
Lemma leaf_cols (rows : list row) (x : Executor) : over (ExecutorLaws := leaf_laws) rows x -> @cols _ _ (tree fuel (Datatypes.S n)) x = tcs.
Proof. intros (y & -> & _ & _ & H & _). exact H. Qed.

Definition stacked_laws : @ExecutorLaws Eng Executor (tree fuel (Datatypes.S (Datatypes.S n))) I :=
  root_laws (Projection_executor (EX := tree fuel (Datatypes.S n)) g) (tree fuel (Datatypes.S (Datatypes.S n))) I
    (projection_laws (EX := tree fuel (Datatypes.S n)) I leaf_laws g tcs cs len leaf_cols)
    Projection (fun d y => eq_refl) (fun d y => eq_refl) (fun d y => eq_refl) (fun d y => eq_refl).
Lemma stacked_cols (rows : list row) (x : Executor) : over (ExecutorLaws := stacked_laws) rows x -> @cols _ _ (tree fuel (Datatypes.S (Datatypes.S n))) x = cs.
Proof. intros (y & -> & H & _). exact H. Qed.
End stacked.

(** Building the tree: the scan takes its lock, the projection finds its columns. *)
Section built.
Context (fuel : nat) (name : string) (tab : TabMeta) (t : TabFile) (conds fed : list Condition) (sel : list TabCol) (cs : list ColMeta) (len : Z) (idxs : list Z).
Context (e : Eng) (x : SeqScanExecutor) (h1 : Rm.RmFileHandle (Bpm.BufferPoolManager R)).
Context (Htab : get_table name (db_ e) = Ret tab) (Ht : fhs_ e !! name = Some t).
Context (Hmk : make_seq_scan txn (db_ e) name conds r0 (table_of t e) = (Ret x, h1)) (Hx : sq_cols x = tm_cols tab).
Context (Hproj : project_cols (tm_cols tab) 0 sel = Ret (idxs, cs, len)).
Context (tag : PlanTag) (pcs : list ColMeta) (plen : Z) (ixs : list string).
Abbreviation plan := (ProjectionPlan tag (ScanPlan T_SeqScan name pcs conds plen fed ixs) sel).

Lemma tree_built : convert_plan_executor g r0 fuel std_sort txn (Datatypes.S (Datatypes.S n)) plan e =
  (Ret (Some (Projection (mkProj (SeqScan x) cs len idxs))), put_table name h1 e).
Proof.
  cbn [convert_plan_executor]. rewrite bool_decide_eq_true_2 by done.
  assert (make_seq r0 txn name conds e = (Ret x, put_table name h1 e)) as E.
  { unfold make_seq. erewrite bind_run by reflexivity. rewrite (bind_run _ _ e e tab) by (unfold lift; by rewrite Htab). unfold on_table. rewrite Ht. by apply zoom_run. }
  rewrite (bind_run _ _ e (put_table name h1 e) (Some (SeqScan x))) by (by rewrite (bind_run _ _ _ _ _ E)). erewrite bind_run by reflexivity.
  unfold make_projection, lift. change (@cols _ _ (executor g fuel std_sort txn (Datatypes.S (Datatypes.S n))) (SeqScan x)) with (sq_cols x). rewrite Hx, Hproj. reflexivity.
Qed.
End built.

(** The statement, for any predicate the conditions decide and any texts the
    projection prints. *)
Lemma select_statement_run (name : string) (tab : TabMeta) (t : TabFile) (conds fed : list Condition) (sel : list TabCol) (cs : list ColMeta) (len : Z) (idxs : list Z)
    (P : row -> bool) (text : row -> list (list Z)) (st : Stmt (R := R)) (x : SeqScanExecutor) (h1 : Rm.RmFileHandle (Bpm.BufferPoolManager R))
    (tag : PlanTag) (pcs : list ColMeta) (plen : Z) (ixs : list string) (tn alias : string) (vs : list Value) (cds : list Condition) (scs : list SetClause) (is_all : bool) (txn_id : Z) :
  let e := sys_engine (st_sys st) in
  let plan := DMLPlan T_select (ProjectionPlan tag (ScanPlan T_SeqScan name pcs conds plen fed ixs) sel) tn vs cds scs alias is_all in
  get_table name (db_ e) = Ret tab -> fhs_ e !! name = Some t -> RmFacts.file_ok (table_of t e) -> is_Some (Lock.txns (en_locks e) !! txn) ->
  make_seq_scan txn (db_ e) name conds r0 (table_of t e) = (Ret x, h1) -> ScanSpec.readable txn (tf_fd t) (Rm.rm_locks h1) ->
  (forall q r, RmFacts.lookup (table_of t e) q = Some r -> checkConds (replicate 8 g) r conds (tm_cols tab) = Ret (P r)) ->
  project_cols (tm_cols tab) 0 sel = Ret (idxs, cs, len) -> cs <> [] -> length sel = length cs ->
  (forall q r, RmFacts.lookup (table_of t e) q = Some r -> P r = true -> exists r', projects g (tm_cols tab) cs len r r' /\ Analyze.over (column_text r') cs = Ret (text r)) ->
  fits (st_out st) ->
  exists l, StronglySorted RmSpec.rid_lt l /\ (forall q, q ∈ l <-> is_Some (RmFacts.lookup (table_of t e) q)) /\
    forall fuel, (length l < fuel)%nat -> Z.of_nat (length l) < 10 ^ 14 ->
    let rows := List.filter P (omap (RmFacts.lookup (table_of t e)) l) in
    exists st', (p ← on_eng (start g r0 fuel std_sort txn (Datatypes.S (Datatypes.S n)) plan);
        run g r0 fuel std_sort stof csv order1 order2 order3 txn (Datatypes.S (Datatypes.S n)) p txn_id) st = (Ret tt, st') /\
      file_of (st_out st') = written (st_out st) (file_line (captions sel) ++ concat (file_line <$> (text <$> rows))) /\
      ends_with (st_out st') (count_line (Z.of_nat (length rows))) /\
      exists t', fhs_ (sys_engine (st_sys st')) !! name = Some t' /\ RmFacts.file_ok (table_of t' (sys_engine (st_sys st'))) /\
        forall q, RmFacts.lookup (table_of t' (sys_engine (st_sys st'))) q = RmFacts.lookup (table_of t e) q.
Proof.
  intros e plan Htab Ht F0 Htx Hmk Hread Hc Hproj Hcs Hsel Htext Hfit.
  destruct (ScanSpec.scan_made g txn (db_ e) name tab conds r0 P _ h1 x F0 Htx Htab Hmk Hread Hc) as (l & Hsort & Hl & U & L1 & _ & Hc1 & Hx).
  exists l. split; [done|]. split; [intros q; by rewrite Hl, L1|]. intros fuel Hf Hlen rows.
  assert (rows = ScanSpec.rows_at h1 P l) as Hrows. { unfold rows, ScanSpec.rows_at. f_equal. clear - L1. induction l as [|q l IH]; [done|]. cbn [omap list_omap]. by rewrite L1, IH. }
  destruct (texts_of (tm_cols tab) cs len text rows) as (rows' & F1 & F2).
  { apply List.Forall_forall. intros r [Hr HP]%List.filter_In. apply list_elem_of_In, list_elem_of_omap in Hr as (q & _ & Hq). exact (Htext q r Hq HP). }
  assert (length rows' = length rows) as Hlr by (symmetry; exact (Forall2_length _ _ _ F1)).
  assert (length rows <= length l)%nat as Hle.
  { unfold rows. pose proof (filter_length_le P (omap (RmFacts.lookup (table_of t e)) l)). pose proof (ScanSpec.omap_length_le (RmFacts.lookup (table_of t e)) l). lia. }
  pose proof (tree_built fuel name tab t conds fed sel cs len idxs e x h1 Htab Ht Hmk (proj1 (proj2 Hx)) Hproj tag pcs plen ixs) as Hb.
  set (root := Projection (mkProj (SeqScan x) cs len idxs)) in *. set (e1 := put_table name h1 e) in *.
  assert (start g r0 fuel std_sort txn (Datatypes.S (Datatypes.S n)) plan e = (Ret (mkPortal PORTAL_ONE_SELECT sel (QueryRoot root) plan), e1)) as Es.
  { unfold start, plan, select_root. erewrite bind_run; [|by rewrite (bind_run _ _ _ _ _ Hb)]. reflexivity. }
  rewrite (bind_run _ _ _ _ _ (eng_run _ st _ _ Es)). cbn [run ps_tag ps_root ps_sel_cols run_select st_set_sys st_sys st_out st_txn sys_engine sys_set_engine].
  set (LX := stacked_laws fuel h1 name (db_ e) conds (tm_cols tab) cs (sq_len x) len P Hc1 l Hsort Hl Hf).
  destruct (@select_prints_rows _ _ (tree fuel (Datatypes.S (Datatypes.S n))) _ LX g rows' cs
    (stacked_cols fuel h1 name (db_ e) conds (tm_cols tab) cs (sq_len x) len P Hc1 l Hsort Hl Hf rows') (text <$> rows) fuel sel e1 root (st_out st)) as (d' & x' & c' & Er & HI & Hfile & Hend);
    [| |done|done|done|done|rewrite Hlr; lia|rewrite Hlr; lia|].
  - destruct (table_put name h1 e) as [T1 T2]. fold e1 in T1, T2. split; [done|]. eexists. split; [exact T1|]. by rewrite T2.
  - exists (mkProj (SeqScan x) cs len idxs). split; [done|]. split; [done|]. split; [done|]. exists rows. split; [|done]. exists x. split; [done|]. by split.
  - unfold run_select, executor. cbn [st_sys st_out st_txn st_set_sys sys_engine sys_set_engine]. rewrite Er. eexists. split; [done|]. cbn [st_out st_sys sys_engine sys_set_engine]. rewrite <- Hlr. split; [done|]. split; [done|].
    destruct HI as (_ & t' & Ht' & (F' & L' & _)). exists t'. split; [done|]. split; [done|]. intros q. by rewrite L', L1.
Qed.

(** Records have the size the header says. *)
Lemma record_length (h : Rm.RmFileHandle (Bpm.BufferPoolManager R)) (q : Rid) (r : row) : RmFacts.file_ok h -> RmFacts.lookup h q = Some r ->
  Z.of_nat (length r) = record_size (Rm.file_hdr_ h).
Proof.
  intros F Hr. destruct (RmFacts.lookup_Some_inv _ _ _ Hr) as (Hn & Hsl & _ & ->). pose proof (tb_layout _ _ (RmFacts.fo_table _ F)) as Lo.
  destruct (slot_off_bounds _ Lo _ Hsl) as [B1 B2]. pose proof (lo_size _ Lo). pose proof (lo_n _ Lo). pose proof (lo_bitmap _ Lo).
  unfold raw_slot. rewrite length_slice; [simpl in *; lia|]. rewrite (RmFacts.file_page_len _ _ F Hn). unfold Disk.page_len, PAGE_SIZE in *. lia.
Qed.

(** C34: a select over one table answers the table.  The plan is the projection
    of a sequential scan of one table, without sort (what the planner makes of a
    select over one table for which no index serves and no order is asked).  The
    columns of the table lie inside its records, the conditions compare existing
    columns with columns or literals of the same kind, the selected columns exist
    and the dates among them end with a zero byte.  When the scan gets its table
    lock and no other transaction holds a record exclusively, building the
    executors and running them ends normally; the output file gets the captions
    and, in the order of the file, one line for each record on which the
    conditions hold, as comparisons of the numbers and texts in its columns, and
    no other; the line shows the numbers and texts of the selected columns; the
    client's buffer ends with the number of rows; and the table is as it was. *)
Theorem select_statement_correct (name : string) (tab : TabMeta) (t : TabFile) (conds fed : list Condition) (sel : list TabCol) (scols : list ColMeta)
    (st : Stmt (R := R)) (x : SeqScanExecutor) (h1 : Rm.RmFileHandle (Bpm.BufferPoolManager R))
    (tag : PlanTag) (pcs : list ColMeta) (plen : Z) (ixs : list string) (tn alias : string) (vs : list Value) (cds : list Condition) (scs : list SetClause) (is_all : bool) (txn_id : Z) :
  let e := sys_engine (st_sys st) in
  let plan := DMLPlan T_select (ProjectionPlan tag (ScanPlan T_SeqScan name pcs conds plen fed ixs) sel) tn vs cds scs alias is_all in
  get_table name (db_ e) = Ret tab -> fhs_ e !! name = Some t -> RmFacts.file_ok (table_of t e) -> is_Some (Lock.txns (en_locks e) !! txn) ->
  make_seq_scan txn (db_ e) name conds r0 (table_of t e) = (Ret x, h1) -> ScanSpec.readable txn (tf_fd t) (Rm.rm_locks h1) ->
  Forall (column_ok (record_size (Rm.file_hdr_ (table_of t e)))) (tm_cols tab) -> Forall (cond_ok (tm_cols tab)) conds ->
  mapM (named (tm_cols tab)) sel = Some scols -> sel <> [] -> total_len scols < 2 ^ 31 ->
  (forall q r, RmFacts.lookup (table_of t e) q = Some r -> Forall (terminated r) scols) ->
  fits (st_out st) ->
  exists l, StronglySorted RmSpec.rid_lt l /\ (forall q, q ∈ l <-> is_Some (RmFacts.lookup (table_of t e) q)) /\
    forall fuel, (length l < fuel)%nat -> Z.of_nat (length l) < 10 ^ 14 ->
    let rows := List.filter (sql_where (tm_cols tab) conds) (omap (RmFacts.lookup (table_of t e)) l) in
    exists st', (p ← on_eng (start g r0 fuel std_sort txn (Datatypes.S (Datatypes.S n)) plan);
        run g r0 fuel std_sort stof csv order1 order2 order3 txn (Datatypes.S (Datatypes.S n)) p txn_id) st = (Ret tt, st') /\
      file_of (st_out st') = written (st_out st) (file_line (captions sel) ++ concat (file_line <$> (row_text scols <$> rows))) /\
      ends_with (st_out st') (count_line (Z.of_nat (length rows))) /\
      exists t', fhs_ (sys_engine (st_sys st')) !! name = Some t' /\ RmFacts.file_ok (table_of t' (sys_engine (st_sys st'))) /\
        forall q, RmFacts.lookup (table_of t' (sys_engine (st_sys st'))) q = RmFacts.lookup (table_of t e) q.
Proof.
  intros e plan Htab Ht F0 Htx Hmk Hread Hcols Hconds Hsel Hne Hlen Hterm Hfit. set (k := record_size (Rm.file_hdr_ (table_of t e))) in *.
  pose proof (found_all k _ Hcols _ _ Hsel) as Hfound. destruct (project_cols_run k _ Hcols sel scols 0 Hsel) as [idxs Hproj]; [lia|lia|].
  assert (length sel = length scols) as Hls by (apply mapM_Some in Hsel; by eapply Forall2_length).
  assert (length (laid 0 scols) = length scols) as Hll by (generalize 0; clear; induction scols as [|c l IH]; intros z; simpl; [done|by rewrite IH]).
  apply (select_statement_run name tab t conds fed sel (laid 0 scols) (0 + total_len scols) idxs (sql_where (tm_cols tab) conds) (row_text scols) st x h1 tag pcs plen ixs); try done.
  - intros q r Hr. apply (checkConds_sql _ k); [done|by apply (record_length _ q)|done].
  - intros E. apply (f_equal length) in E. rewrite Hll, <- Hls in E. by destruct sel.
  - congruence.
  - intros q r Hr _. pose proof (record_length _ _ _ F0 Hr) as Lr. fold k in Lr. exists (concat (cell r <$> scols)). split.
    + unfold projects. apply (project_run k _ r scols Lr Hfound 0); [lia|]. rewrite length_replicate. pose proof (total_nonneg k _ scols Hfound). lia.
    + exact (texts_printed k _ r scols Lr Hfound (Hterm q r Hr) []).
Qed.
End statement.
End PortalSpec.

(** ** Runs *)

Module PortalDemo.
Import Engine Bpm BpmFacts BpmSpec PoolInstance Replacer.Lru Posix.MemFS RmFacts RmSpec RmDemo ScanSpec ScanDemo PrinterSpec QlSpec RowSpec PortalSpec.

(** The table of one record and the statement [select b from t where a <> b]. *)
Definition eng0 : Engine LRUReplacer :=
  mkEng (Rm.rm_pool one_record) (Rm.rm_locks one_record) (Log.make 0 demo_dm) db_t
    {[ "t"%string := mkTF (Rm.fd_ one_record) (Rm.file_hdr_ one_record) ]} ∅ ∅ ∅ [].
Definition sys0 : System := mkSys eng0 2 {[ 1 ]}.
Definition stmt0 : Stmt := mkStmt sys0 (make_context true []) (Some 1).
Definition sel_b : list TabCol := [mkTabCol "t" "b"].
Definition cols_b : list ColMeta := [mkCol "t" "b" TYPE_INT 4 4 false].
Definition plan_b : Plan := DMLPlan T_select (ProjectionPlan T_Projection (ScanPlan T_SeqScan "t" cols_t conds_t 8 conds_t []) sel_b) "" [] [] [] "" false.
Definition no_sort (le : list Z -> list Z -> bool) (l : list (list Z)) : list (list Z) := l.

Lemma table_t : table_of (mkTF (Rm.fd_ one_record) (Rm.file_hdr_ one_record)) eng0 = one_record.
Proof. unfold table_of, eng0. simpl. by destruct one_record. Qed.

Lemma one_record_size : record_size (Rm.file_hdr_ one_record) = 8.
Proof. vm_compute. reflexivity. Qed.

Lemma select_statement_correct_witness :
  exists l, StronglySorted rid_lt l /\ (forall q, q ∈ l <-> is_Some (lookup (table_of (mkTF (Rm.fd_ one_record) (Rm.file_hdr_ one_record)) eng0) q)) /\
    forall fuel, (length l < fuel)%nat -> Z.of_nat (length l) < 10 ^ 14 ->
    let rows := List.filter (sql_where cols_t conds_t) (omap (lookup (table_of (mkTF (Rm.fd_ one_record) (Rm.file_hdr_ one_record)) eng0)) l) in
    exists st', (p ← on_eng (start 0 (mkRid 0 0) fuel no_sort 1 2 plan_b);
        run 0 (mkRid 0 0) fuel no_sort (fun _ => Throw InvalidArgument) (fun _ => None) [] [] [] 1 2 p 1) stmt0 = (Ret tt, st') /\
      file_of (st_out st') = written (make_context true []) (file_line (captions sel_b) ++ concat (file_line <$> (row_text cols_b <$> rows))) /\
      ends_with (st_out st') (count_line (Z.of_nat (length rows))) /\
      exists t', fhs_ (sys_engine (st_sys st')) !! "t"%string = Some t' /\ file_ok (table_of t' (sys_engine (st_sys st'))) /\
        forall q, lookup (table_of t' (sys_engine (st_sys st'))) q = lookup (table_of (mkTF (Rm.fd_ one_record) (Rm.file_hdr_ one_record)) eng0) q.
Proof.
  destruct one_record_ok as (F & _ & _ & Htx).
  apply (select_statement_correct 0 (mkRid 0 0) no_sort (fun _ => Throw InvalidArgument) (fun _ => None) [] [] [] 1 0 "t" tab_t (mkTF (Rm.fd_ one_record) (Rm.file_hdr_ one_record))
    conds_t conds_t sel_b cols_b stmt0 scan_t scanned T_Projection cols_t 8 [] "" "" [] [] [] false 1).
  - reflexivity.
  - reflexivity.
  - change (sys_engine (st_sys stmt0)) with eng0. rewrite table_t. exact F.
  - exact Htx.
  - change (sys_engine (st_sys stmt0)) with eng0. rewrite table_t. exact make_scan_t.
  - exact scanned_readable.
  - change (sys_engine (st_sys stmt0)) with eng0. rewrite table_t, one_record_size. by repeat constructor.
  - constructor; [|constructor]. eexists. split; [reflexivity|]. eexists. split; reflexivity.
  - reflexivity.
  - discriminate.
  - done.
  - intros q r _. constructor; [discriminate|constructor].
  - apply fresh_fits.
Defined.

(** The line of a record is its column [b]. *)
Lemma row_text_b (r : list Z) : row_text cols_b r = [put_int (i32_val (slice 4 4 r))].
Proof. reflexivity. Qed.

(** The maximum of a column of that table, over the scan itself. *)
Lemma aggregate_correct_witness : exists d' x' c', select_from (EX := SeqScan_executor 0 1 10) 0 10 [mkTabCol "" "max"] SELECT_WITH_MAX (scanned, scan_t, make_context true []) =
  (Ret tt, (d', x', c')) /\ unchanged 1 scanned d' /\ answers (Some (i32_val (slice 0 4 record_a))) [mkTabCol "" "max"] (make_context true []) c'.
Proof.
  destruct scanned_ok as (F & L & X). pose proof scanned_readable as K. rewrite <- X in K.
  refine (proj1 (@aggregate_correct _ _ (SeqScan_executor 0 1 10) (unchanged 1 scanned) laws_t 0 [record_a] cols_t _ (mkCol "t" "a" TYPE_INT 4 0 false) [i32_val (slice 0 4 record_a)] eq_refl eq_refl eq_refl eq_refl _
    SELECT_WITH_MAX 10 [mkTabCol "" "max"] scanned scan_t (make_context true []) _ _ over_t eq_refl (fresh_fits true []) _ _) _).
  - intros x (_ & _ & H & _). exact H.
  - constructor; [|constructor]. exists (slice 0 4 record_a). split; [vm_compute|]; reflexivity.
  - discriminate.
  - exact (conj F (conj (fun q => eq_refl) (conj eq_refl (conj eq_refl K)))).
  - simpl. lia.
  - simpl. lia.
  - discriminate.
Defined.

(** The commands over the catalogue of that table, and the select over its scan. *)
Lemma output_in_bounds_witness :
  (exists c', show_tables db_t (make_context true []) = (Ret tt, c') /\ in_buffer c' /\ file_of c' = (true, bytes_of_string "| Tables |" ++ NL ++ bytes_of_string "| t |" ++ NL)) /\
  (exists c', desc_table db_t "t" (make_context true []) = (Ret tt, c') /\ in_buffer c' /\ file_of c' = (true, [])) /\
  desc_table db_t "u" (make_context true []) = (Throw (TableNotFoundError "u"), make_context true []) /\
  (exists d' x' c', select_from (EX := SeqScan_executor 0 1 10) 0 10 [mkTabCol "t" "a"; mkTabCol "t" "b"] ONE_SELECT (scanned, scan_t, make_context true []) = (Ret tt, (d', x', c')) /\ in_buffer c' /\
     exists shown, sent c' = shown ++ bytes_of_string "Total record(s): " ++ put_int 1 ++ NL).
Proof.
  destruct scanned_ok as (F & L & X). pose proof scanned_readable as K. rewrite <- X in K.
  assert (unchanged 1 scanned scanned) as U by exact (conj F (conj (fun q => eq_refl) (conj eq_refl (conj eq_refl K)))).
  assert (row_texts [record_a] cols_t [[put_int (i32_val (slice 0 4 record_a)); put_int (i32_val (slice 4 4 record_a))]]) as T by (constructor; [reflexivity|constructor]).
  pose proof (fun name => @output_in_bounds _ _ (SeqScan_executor 0 1 10) (unchanged 1 scanned) laws_t 0 [record_a] cols_t (fun x H => proj1 (proj2 (proj2 H))) db_t name true []
    [[put_int (i32_val (slice 0 4 record_a)); put_int (i32_val (slice 4 4 record_a))]] 10 [mkTabCol "t" "a"; mkTabCol "t" "b"] scanned scan_t U over_t T eq_refl ltac:(done) ltac:(done) ltac:(simpl; lia)) as H.
  destruct (H "t"%string) as (H1 & (H2 & _) & H3), (H "u"%string) as (_ & (H4 & _) & _). split; [exact H1|]. split; [exact H2|]. split; [exact H4|exact H3].
Defined.
End PortalDemo.
