(* ===== verification/Server.v ===== *)
(** * The server ([src/src/rmdb.cpp])

    What [client_handler] does with one request, from the parsed statement to the
    answer: the transaction it runs in, the stages of its processing, the answers
    to errors, and the commit that ends a single statement.  The outcome of parsing
    is an argument here; [Frontend] supplies it from the bytes received.  Sockets and
    threads are outside. *)

From S2P Require Import Prelude Bytes Posix Disk Replacer BufferPool BufferPoolFacts BufferPoolSpec PagePool Txn Lock Log TxnManager RmFile IxDefs Values SmMeta Managers Engine Rollback Ast Analyze Planner Printer Portal.
Import Engine PoolInstance.

(** ** Messages ([errors.h]) *)

Definition col_list (col_names : list string) : list Z :=
  match col_names with
  | [] => []
  | x :: l => bytes_of_string x ++ concat ((fun y => [44; 32] ++ bytes_of_string y) <$> l)
  end.
(** The text behind ["Error: "]; [strerror] is what [strerror(errno)] says.
    None: the exception is not an [RMDBError]. *)
Definition message (strerror : list Z) (e : error) : option (list Z) :=
  let s := bytes_of_string in
  match e with
  | RMDBError msg | InternalError msg => Some (s msg)
  | UnixError => Some strerror
  | FileNotOpenError fd => Some (s "Invalid file descriptor: " ++ put_int fd)
  | FileNotClosedError filename => Some (s "File is opened: " ++ s filename)
  | FileExistsError filename => Some (s "File already exists: " ++ s filename)
  | FileNotFoundError filename => Some (s "File not found: " ++ s filename)
  | RecordNotFoundError page_no slot_no => Some (s "Record not found: (" ++ put_int page_no ++ s "," ++ put_int slot_no ++ s ")")
  | InvalidRecordSizeError n => Some (s "Invalid record size: " ++ put_int n)
  | InvalidColLengthError n => Some (s "Invalid column length: " ++ put_int n)
  | IndexEntryNotFoundError => Some (s "Index entry not found")
  | IndexDeleteNotFoundError => Some (s "Index delete element not found")
  | DatabaseNotFoundError n => Some (s "Database not found: " ++ s n)
  | DatabaseExistsError n => Some (s "Database already exists: " ++ s n)
  | TableNotFoundError n => Some (s "Table not found: " ++ s n)
  | TableExistsError n => Some (s "Table already exists: " ++ s n)
  | ColumnNotFoundError n => Some (s "Column not found: " ++ s n)
  | IndexNotFoundError t cs => Some (s "Index not found: " ++ s t ++ s ".(" ++ col_list cs ++ s ")")
  | IndexExistsError t cs => Some (s "Index already exists: " ++ s t ++ s ".(" ++ col_list cs ++ s ")")
  | InvalidValueCountError => Some (s "Invalid value count")
  | StringOverflowError => Some (s "String is too long")
  | IncompatibleTypeError lhs rhs => Some (s "Incompatible type error: lhs " ++ s lhs ++ s ", rhs " ++ s rhs)
  | AmbiguousColumnError n => Some (s "Ambiguous column: " ++ s n)
  | PageNotExistError t n => Some (s "Page " ++ put_int n ++ s " in table " ++ s t ++ s "not exits")
  | InvalidTypeError => Some (s "type not exits!")
  | TransactionAbortException _ _ | EscapedListError _ | InvalidArgument | OutOfRange | LengthError => None
  end.
Definition what (strerror : list Z) (e : error) : option (list Z) := app (bytes_of_string "Error: ") <$> message strerror e.

(** The answer is overwritten from its start by [msg], a newline and a zero. *)
Definition send_line (msg : list Z) : P unit :=
  c ← gets id;
  d ← unwrap OutOfBounds (mem_write 0 (msg ++ [10; 0]) (data_send_ c));
  modify (ctx_set_sent d (Z.of_nat (length msg) + 1)).

(** ** One request *)

Inductive Parsed : Type :=
| ParseFailed
| ParseThrew (what : list Z)
| ParseTree (parse_tree : Ast.TreeNode).

Section server.
Context {R : Type} {RO : Replacer R} {FO : FileSystem}.
Context (g : Z) (r0 : Rid) (fuel : nat) (std_sort : (list Z -> list Z -> bool) -> list (list Z) -> list (list Z)).
Context (stof : list Z -> outcome Z) (csv : string -> option (list Z)) (order1 order2 order3 : list (PageId * Z)) (depth : nat) (strerror : list Z) (garbage : bool).

(** [SetTransaction]: the transaction of the client goes on unless it has ended;
    then a new one begins for a single statement.  The identifier is returned. *)
Definition SetTransaction (txn_id : Z) : M (Stmt (R := R)) Z :=
  t ← on_sys (on_mgr (TxnMgr.get_transaction txn_id));
  modify (st_set_txn t) ;;
  ended ← (match t with
           | None => mret true
           | Some x => tx ← on_eng (the_txn x); mret (bool_decide (state_ tx = COMMITTED) || bool_decide (state_ tx = ABORTED))
           end);
  if (ended : bool) then
    x ← on_sys (on_mgr (TxnMgr.begin_ garbage None));
    modify (st_set_txn (Some x)) ;;
    tx ← on_eng (the_txn x);
    on_eng (on_locks (Lock.upd_txn x (set_txn_mode false))) ;;
    mret (txn_id_ tx)
  else mret txn_id.

(** Analysis, planning, [Portal::start] and [Portal::run]. *)
Definition execute (tree : Ast.TreeNode) (txn_id : Z) : M (Stmt (R := R)) unit :=
  db ← on_eng (gets db_);
  query ← lift (do_analyze g (replicate 8 g) db tree);
  plan ← lift (plan_query db query);
  t ← gets st_txn;
  txn ← unwrap NullDeref t;
  p ← on_eng (start g r0 fuel std_sort txn depth plan);
  run g r0 fuel std_sort stof csv order1 order2 order3 txn depth p txn_id.

(** The handlers: a transaction that must abort is rolled back; an error is
    reported; another exception is not caught. *)
Definition on_abort : M (Stmt (R := R)) unit :=
  on_output (send_line (bytes_of_string "abort")) ;;
  t ← gets st_txn;
  txn ← unwrap NullDeref t;
  on_eng (Rollback.abort fuel txn) ;;
  on_output (to_file (bytes_of_string "abort" ++ NL)).
Definition on_error (msg : list Z) : M (Stmt (R := R)) unit :=
  on_output (send_line msg) ;;
  on_output (to_file (bytes_of_string "failure" ++ NL)).
Definition guarded (body : M (Stmt (R := R)) unit) : M (Stmt (R := R)) unit := fun s =>
  match body s with
  | (Throw (TransactionAbortException _ _), s') => on_abort s'
  | (Throw e, s') => match what strerror e with Some msg => on_error msg s' | None => (Throw e, s') end
  | r => r
  end.

(** A single statement is committed when it has been answered. *)
Definition finish : M (Stmt (R := R)) unit :=
  t ← gets st_txn;
  txn ← unwrap NullDeref t;
  tx ← on_eng (the_txn txn);
  if negb (txn_mode_ tx) then on_sys (on_mgr (TxnMgr.commit txn)) else mret tt.

(** [delivered]: whether the answer could be written to the client; if not, the
    connection ends there. *)
Definition request (delivered : bool) (p : Parsed) (txn_id : Z) : M (Stmt (R := R)) Z :=
  txn_id ← SetTransaction txn_id;
  (match p with
   | ParseFailed => mret tt
   | ParseThrew msg => on_error (bytes_of_string "Error: " ++ msg)
   | ParseTree tree => guarded (execute tree txn_id)
   end) ;;
  (if (delivered : bool) then finish else mret tt) ;;
  mret txn_id.
End server.
