(* ===== verification/ServerSpec.v ===== *)
(** * Requests

    A request of a client without a running transaction is a transaction of its
    own: it begins one, is processed, answered and committed.  A statement the
    analyzer refuses is answered with its message and leaves the database, its
    pages and all locks as they were. *)

From S2P Require Import Prelude Bytes Posix Disk Replacer BufferPool BufferPoolFacts BufferPoolSpec PagePool Txn Lock LockFacts LockSpec Log LogFacts LogSpec TxnManager RmFile IxDefs Values SmMeta Managers Engine Rollback Ast Analyze AnalyzeSpec Planner Printer PrinterSpec QlSpec Portal Server.

Module ServerSpec.
Import Engine PoolInstance PrinterSpec QlSpec.

Section views.
Context {R : Type} {RO : Replacer R} {FO : FileSystem}.
Implicit Types (sys : System (R := R)) (st : Stmt (R := R)) (m : TxnMgr.TransactionManager).

(** The transaction manager is a view of the system. *)
Lemma mgr_of_put (m : TxnMgr.TransactionManager) (sys : System (R := R)) : the_mgr (put_mgr m sys) = m.
Proof. destruct m as [a b c l]. unfold the_mgr, put_mgr. simpl. f_equal. by destruct l. Qed.
Lemma mgr_put_put (m m' : TxnMgr.TransactionManager) (sys : System (R := R)) : put_mgr m' (put_mgr m sys) = put_mgr m' sys.
Proof. reflexivity. Qed.
Lemma put_locks (m : TxnMgr.TransactionManager) (lk : Lock.LockManager) (sys : System (R := R)) :
  sys_set_engine (set_locks lk (sys_engine (put_mgr m sys))) (put_mgr m sys) = put_mgr (TxnMgr.set_tm_locks lk m) sys.
Proof. reflexivity. Qed.

Lemma mgr_run {A} (f : M TxnMgr.TransactionManager A) (st : Stmt (R := R)) (r : outcome A) (m : TxnMgr.TransactionManager) :
  f (the_mgr (st_sys st)) = (r, m) -> on_sys (on_mgr f) st = (r, st_set_sys (put_mgr m (st_sys st)) st).
Proof. intros H. unfold on_sys, on_mgr, zoom. by rewrite H. Qed.
Lemma locks_run {A} (f : M Lock.LockManager A) (st : Stmt (R := R)) (r : outcome A) (lk : Lock.LockManager) :
  f (en_locks (sys_engine (st_sys st))) = (r, lk) -> on_eng (on_locks f) st = (r, st_set_sys (sys_set_engine (set_locks lk (sys_engine (st_sys st))) (st_sys st)) st).
Proof. intros H. unfold on_eng, on_sys, on_engine, on_locks, zoom. by rewrite H. Qed.
Lemma txn_run (x : Z) (tx : Transaction) (st : Stmt (R := R)) : Lock.txns (en_locks (sys_engine (st_sys st))) !! x = Some tx -> on_eng (the_txn x) st = (Ret tx, st).
Proof.
  intros H. unfold the_txn. erewrite locks_run by (unfold Lock.get_txn; rewrite H; reflexivity). destruct st as [[[] ? ?] ? ?]. reflexivity.
Qed.
End views.

Section requests.
Context {R : Type} {RO : Replacer R} {FO : FileSystem} {FL : FileSystemLaws} {FR : FileSystemReliable}.
Context (g : Z) (r0 : Rid) (fuel : nat) (std_sort : (list Z -> list Z -> bool) -> list (list Z) -> list (list Z)).
Context (stof : list Z -> outcome Z) (csv : string -> option (list Z)) (order1 order2 order3 : list (PageId * Z)) (depth : nat) (strerror : list Z) (garbage : bool).

(** A client that has no running transaction. *)
Definition idle (txn_id : Z) (m : TxnMgr.TransactionManager) : Prop :=
  txn_id = INVALID_TXN_ID \/
  (txn_id <> INVALID_TXN_ID /\ txn_id ∈ TxnMgr.txn_map m /\ exists tx, Lock.txns (TxnMgr.tm_locks m) !! txn_id = Some tx /\ (state_ tx = COMMITTED \/ state_ tx = ABORTED)).
(** The manager may begin another transaction, the log holding [l]. *)
Definition may_begin (l : list Z) (m : TxnMgr.TransactionManager) : Prop :=
  LockFacts.inv (TxnMgr.tm_locks m) /\ Lock.txns (TxnMgr.tm_locks m) !! TxnMgr.next_txn_id_ m = None /\ LogFacts.log_ready (TxnMgr.tm_log m) l /\
  in_i32 (TxnMgr.next_txn_id_ m) = true /\ in_i32 (Log.global_lsn_ (TxnMgr.tm_log m)) = true.

Abbreviation began m := (LogFacts.bytes (Log.BeginLogRecord (Log.mkLogHdr Log.BEGIN (Log.global_lsn_ (TxnMgr.tm_log m)) 20 (TxnMgr.next_txn_id_ m) INVALID_LSN))).

(** An idle client gets a new transaction for its statement. *)
Lemma set_transaction_new (txn_id : Z) (l : list Z) (st : Stmt (R := R)) : let m := the_mgr (st_sys st) in
  idle txn_id m -> may_begin l m ->
  exists m2 tx, SetTransaction garbage txn_id st = (Ret (TxnMgr.next_txn_id_ m), mkStmt (put_mgr m2 (st_sys st)) (st_out st) (Some (TxnMgr.next_txn_id_ m))) /\
    LockFacts.inv (TxnMgr.tm_locks m2) /\ Lock.txns (TxnMgr.tm_locks m2) !! TxnMgr.next_txn_id_ m = Some tx /\
    txn_id_ tx = TxnMgr.next_txn_id_ m /\ txn_mode_ tx = false /\ state_ tx = DEFAULT /\ prev_lsn_ tx = Log.global_lsn_ (TxnMgr.tm_log m) /\
    (forall y id k, LockFacts.holds (TxnMgr.tm_locks m2) y id k <-> LockFacts.holds (TxnMgr.tm_locks m) y id k) /\
    Log.global_lsn_ (TxnMgr.tm_log m2) = wrap_s 32 (Log.global_lsn_ (TxnMgr.tm_log m) + 1) /\ LogFacts.log_ready (TxnMgr.tm_log m2) (l ++ began m).
Proof.
  intros m Hidle (I & Hx & Hl & H1 & H2). set (x := TxnMgr.next_txn_id_ m) in *.
  destruct (TxnMgr.begin_creates_transaction m garbage l I Hx Hl H1 H2) as (m1 & E1 & I1 & Hh1 & T1 & _ & _ & G1 & L1).
  set (t1 := set_prev_lsn (Log.global_lsn_ (TxnMgr.tm_log m)) (make_txn garbage x)). fold x t1 in T1.
  assert (Lock.txns (TxnMgr.tm_locks m1) !! x = Some t1) as Ht1 by (rewrite T1; apply lookup_insert_eq).
  destruct (TxnMgr.upd_txn_inv x (set_txn_mode false) (TxnMgr.tm_locks m1) t1 I1 Ht1 eq_refl) as [I2 Hh2].
  set (lk2 := Lock.set_txns (<[x := set_txn_mode false t1]> (Lock.txns (TxnMgr.tm_locks m1))) (TxnMgr.tm_locks m1)) in *.
  exists (TxnMgr.set_tm_locks lk2 m1), (set_txn_mode false t1). split.
  - set (st0 := st_set_sys (put_mgr m (st_sys st)) st). assert (the_mgr (st_sys st0) = m) as Em by apply mgr_of_put.
    assert (exists t, on_sys (on_mgr (TxnMgr.get_transaction txn_id)) st = (Ret t, st0) /\
      (match t with None => mret true | Some y => tx ← on_eng (the_txn y); mret (bool_decide (state_ tx = COMMITTED) || bool_decide (state_ tx = ABORTED)) end)
        (st_set_txn t st0) = (Ret true, st_set_txn t st0)) as (t & Eg & Ee).
    { destruct Hidle as [->|(Hn & Hin & tx & Htx & Hend)]; [exists None; by split; [apply mgr_run|]|]. exists (Some txn_id). split.
      - apply mgr_run. unfold TxnMgr.get_transaction. rewrite (proj2 (Z.eqb_neq _ _) Hn). erewrite bind_run by reflexivity. cbn [id]. by rewrite bool_decide_eq_true_2.
      - rewrite (bind_run _ _ _ _ _ (txn_run txn_id tx (st_set_txn (Some txn_id) st0) Htx)). rewrite mret_run. do 2 f_equal. destruct Hend as [->| ->]; done. }
    unfold SetTransaction. rewrite (bind_run _ _ _ _ _ Eg). erewrite bind_run by reflexivity. rewrite (bind_run _ _ _ _ _ Ee).
    assert (TxnMgr.begin_ garbage None (the_mgr (st_sys (st_set_txn t st0))) = (Ret x, m1)) as E2 by (change (the_mgr (st_sys (st_set_txn t st0))) with (the_mgr (st_sys st0)); rewrite Em; exact E1).
    rewrite (bind_run _ _ _ _ _ (mgr_run _ (st_set_txn t st0) _ _ E2)). erewrite bind_run by reflexivity.
    erewrite bind_run by (apply txn_run; exact Ht1). erewrite bind_run by (apply locks_run, TxnMgr.upd_txn_run; exact Ht1). reflexivity.
  - split; [done|]. split; [apply lookup_insert_eq|]. do 4 (split; [done|]). split; [|done]. intros y id k. rewrite <- Hh1. apply Hh2.
Qed.

(** ** Answers *)

Lemma send_line_run (msg : list Z) (c : Context) : Z.of_nat (length (data_send_ c)) = BUFFER_LENGTH -> Z.of_nat (length msg) + 2 <= BUFFER_LENGTH ->
  exists c', send_line msg c = (Ret tt, c') /\ file_of c' = file_of c /\ sent c' = msg ++ NL.
Proof.
  intros Hl Hm. unfold send_line. erewrite bind_run by reflexivity. cbn [id]. unfold mem_write. rewrite length_app. cbn [length].
  rewrite (proj2 (Z.leb_le (0 + _) _)) by (unfold BUFFER_LENGTH in *; lia). cbn [andb Z.leb Z.compare unwrap]. erewrite bind_run by apply mret_run.
  unfold modify. eexists. split; [done|]. split; [done|]. unfold sent. cbn [offset_ data_send_ ctx_set_sent].
  assert (splice (Z.to_nat 0) (msg ++ [10; 0]) (data_send_ c) = (msg ++ NL) ++ ([0] ++ drop (length (msg ++ [10; 0])) (data_send_ c))) as ->.
  { unfold splice, NL. change (Z.to_nat 0) with O. by rewrite take_0, <- !app_assoc. }
  apply take_app_length'. rewrite length_app. unfold NL. cbn [length]. lia.
Qed.

Lemma error_answered (msg : list Z) (c : Context) : Z.of_nat (length (data_send_ c)) = BUFFER_LENGTH -> Z.of_nat (length msg) + 2 <= BUFFER_LENGTH ->
  exists c', (forall st : Stmt (R := R), st_out st = c -> on_error msg st = (Ret tt, st_set_out c' st)) /\ sent c' = msg ++ NL /\ file_of c' = written c (bytes_of_string "failure" ++ NL).
Proof.
  intros Hl Hm. destruct (send_line_run msg c Hl Hm) as (c1 & E1 & F1 & S1). eexists. split.
  - intros st <-. unfold on_error, on_output. rewrite (bind_run _ _ _ _ _ (zoom_run st_out st_set_out _ st _ _ E1)). unfold to_file, modify, zoom. cbn [st_out st_set_out]. reflexivity.
  - unfold file_of, written in *. injection F1 as B1 T1. rewrite B1, T1. destruct (output2file c); [by cbn [output2file output_txt ctx_set_file]; rewrite B1|by rewrite B1, T1].
Qed.

(** The commit behind a single statement. *)
Lemma finished (x : Z) (tx : Transaction) (l : list Z) (st : Stmt (R := R)) (m : TxnMgr.TransactionManager) : the_mgr (st_sys st) = m -> st_txn st = Some x ->
  LockFacts.inv (TxnMgr.tm_locks m) -> TxnMgr.active (TxnMgr.tm_locks m) x tx -> txn_mode_ tx = false -> LogFacts.log_ready (TxnMgr.tm_log m) l ->
  in_i32 (txn_id_ tx) = true -> in_i32 (prev_lsn_ tx) = true -> in_i32 (Log.global_lsn_ (TxnMgr.tm_log m)) = true ->
  exists m' tx', finish st = (Ret tt, st_set_sys (put_mgr m' (st_sys st)) st) /\ LockFacts.inv (TxnMgr.tm_locks m') /\
    (forall id k, ~ LockFacts.holds (TxnMgr.tm_locks m') x id k) /\
    (forall y id k, y <> x -> LockFacts.holds (TxnMgr.tm_locks m') y id k <-> LockFacts.holds (TxnMgr.tm_locks m) y id k) /\
    Lock.txns (TxnMgr.tm_locks m') !! x = Some tx' /\ state_ tx' = COMMITTED /\
    LogFacts.log_ready (TxnMgr.tm_log m') (l ++ LogFacts.bytes (Log.CommitLogRecord (Log.mkLogHdr Log.COMMIT (Log.global_lsn_ (TxnMgr.tm_log m)) 20 (txn_id_ tx) (prev_lsn_ tx)))).
Proof.
  intros Em Hx I A Hmode Hl H1 H2 H3. destruct (TxnMgr.commit_run m x tx l I A Hl H1 H2 H3) as (m' & tx' & R1 & I1 & Hno & Hot & Ht' & Hs' & _ & _ & L1 & _).
  exists m', tx'. split; [|by split_and!]. unfold finish. erewrite bind_run by reflexivity. rewrite Hx. erewrite bind_run by reflexivity.
  erewrite bind_run. 2: { apply txn_run. rewrite <- Em in A. exact (proj1 A). }
  rewrite Hmode. cbn [negb]. apply mgr_run. by rewrite Em.
Qed.

(** A request whose processing only answers is a transaction of its own that
    changes nothing else. *)
Lemma request_only_answers (p : Parsed) (txn_id : Z) (l : list Z) (c1 : Context) (st : Stmt (R := R)) :
  let m := the_mgr (st_sys st) in let x := TxnMgr.next_txn_id_ m in
  idle txn_id m -> may_begin l m ->
  (forall m2, let st1 := mkStmt (put_mgr m2 (st_sys st)) (st_out st) (Some x) in
     (match p with
      | ParseFailed => mret tt
      | ParseThrew msg => on_error (bytes_of_string "Error: " ++ msg)
      | ParseTree tree => guarded fuel strerror (execute g r0 fuel std_sort stof csv order1 order2 order3 depth tree x)
      end) st1 = (Ret tt, st_set_out c1 st1)) ->
  exists st' m' tx, request g r0 fuel std_sort stof csv order1 order2 order3 depth strerror garbage true p txn_id st = (Ret x, st') /\
    st_out st' = c1 /\ st_sys st' = put_mgr m' (st_sys st) /\
    Lock.txns (TxnMgr.tm_locks m') !! x = Some tx /\ state_ tx = COMMITTED /\ (forall id k, ~ LockFacts.holds (TxnMgr.tm_locks m') x id k) /\
    (forall y id k, y <> x -> LockFacts.holds (TxnMgr.tm_locks m') y id k <-> LockFacts.holds (TxnMgr.tm_locks m) y id k) /\
    LogFacts.log_ready (TxnMgr.tm_log m') ((l ++ began m) ++ LogFacts.bytes (Log.CommitLogRecord
      (Log.mkLogHdr Log.COMMIT (wrap_s 32 (Log.global_lsn_ (TxnMgr.tm_log m) + 1)) 20 x (Log.global_lsn_ (TxnMgr.tm_log m))))).
Proof.
  intros m x Hidle Hmay Hp. destruct (set_transaction_new txn_id l st Hidle Hmay) as (m2 & tx2 & E1 & I2 & Ht2 & Hid & Hmode & Hst & Hprev & Hh2 & Hg2 & L2).
  fold m x in E1, Ht2, Hid, Hg2, Hprev, Hh2, L2. specialize (Hp m2). cbv zeta in Hp. set (st1 := mkStmt (put_mgr m2 (st_sys st)) (st_out st) (Some x)) in *.
  destruct (finished x tx2 (l ++ began m) (st_set_out c1 st1) m2 (mgr_of_put _ _) eq_refl I2) as (m' & tx' & E3 & I3 & Hno & Hot & Ht3 & Hs3 & L3).
  - split; [done|]. by rewrite Hst.
  - done.
  - exact L2.
  - rewrite Hid. apply Hmay.
  - rewrite Hprev. apply Hmay.
  - rewrite Hg2. apply wrap_s_range.
  - exists (st_set_sys (put_mgr m' (st_sys (st_set_out c1 st1))) (st_set_out c1 st1)), m', tx'. split.
    + unfold request. rewrite (bind_run _ _ _ _ _ E1). rewrite (bind_run _ _ st1 (st_set_out c1 st1) tt); [by rewrite (bind_run _ _ _ _ _ E3)|exact Hp].
    + split; [done|]. split; [reflexivity|]. split; [done|]. split; [done|]. split; [done|]. split.
      * intros y id k Hy. rewrite (Hot y id k Hy). apply Hh2.
      * rewrite Hg2, Hid, Hprev in L3. exact L3.
Qed.

(** ** Inside a transaction of the client's own *)

(** The client has begun a transaction, which has not ended. *)
Definition running (txn_id : Z) (tx : Transaction) (m : TxnMgr.TransactionManager) : Prop :=
  txn_id <> INVALID_TXN_ID /\ txn_id ∈ TxnMgr.txn_map m /\ Lock.txns (TxnMgr.tm_locks m) !! txn_id = Some tx /\
  state_ tx <> COMMITTED /\ state_ tx <> ABORTED /\ txn_mode_ tx = true.

Lemma set_transaction_running (txn_id : Z) (tx : Transaction) (st : Stmt (R := R)) : let m := the_mgr (st_sys st) in running txn_id tx m ->
  SetTransaction garbage txn_id st = (Ret txn_id, mkStmt (put_mgr m (st_sys st)) (st_out st) (Some txn_id)).
Proof.
  intros m (Hn & Hin & Htx & Hc & Ha & _). unfold SetTransaction.
  assert (TxnMgr.get_transaction txn_id m = (Ret (Some txn_id), m)) as Eg.
  { unfold TxnMgr.get_transaction. rewrite (proj2 (Z.eqb_neq _ _) Hn). erewrite bind_run by reflexivity. cbn [id]. by rewrite bool_decide_eq_true_2. }
  rewrite (bind_run _ _ _ _ _ (mgr_run _ st _ _ Eg)). erewrite bind_run by reflexivity. set (st0 := st_set_txn _ _).
  rewrite (bind_run _ _ st0 st0 false); [reflexivity|]. rewrite (bind_run _ _ _ _ _ (txn_run txn_id tx st0 Htx)), mret_run. by rewrite !bool_decide_eq_false_2.
Qed.

(** A request whose processing only answers changes nothing else, and the
    transaction goes on. *)
Lemma request_running (p : Parsed) (txn_id : Z) (tx : Transaction) (c1 : Context) (st : Stmt (R := R)) :
  let m := the_mgr (st_sys st) in running txn_id tx m ->
  (let st1 := mkStmt (put_mgr m (st_sys st)) (st_out st) (Some txn_id) in
     (match p with
      | ParseFailed => mret tt
      | ParseThrew msg => on_error (bytes_of_string "Error: " ++ msg)
      | ParseTree tree => guarded fuel strerror (execute g r0 fuel std_sort stof csv order1 order2 order3 depth tree txn_id)
      end) st1 = (Ret tt, st_set_out c1 st1)) ->
  exists st', request g r0 fuel std_sort stof csv order1 order2 order3 depth strerror garbage true p txn_id st = (Ret txn_id, st') /\
    st_out st' = c1 /\ st_sys st' = put_mgr m (st_sys st).
Proof.
  intros m Hrun Hp. cbv zeta in Hp. set (st1 := mkStmt (put_mgr m (st_sys st)) (st_out st) (Some txn_id)) in *. exists (st_set_out c1 st1). split; [|done].
  unfold request. rewrite (bind_run _ _ _ _ _ (set_transaction_running txn_id tx st Hrun)). fold m st1. rewrite (bind_run _ _ _ _ _ Hp).
  destruct Hrun as (_ & _ & Htx & _ & _ & Hmode). rewrite (bind_run _ _ (st_set_out c1 st1) (st_set_out c1 st1) tt); [done|].
  unfold finish. erewrite bind_run by reflexivity. cbn [st_txn st_set_out st1]. erewrite bind_run by reflexivity.
  rewrite (bind_run _ _ _ _ _ (txn_run txn_id tx (st_set_out c1 st1) Htx)). by rewrite Hmode.
Qed.

(** What the analyzer refuses is reported. *)
Lemma refused_body (tree : Ast.TreeNode) (x : Z) (e : error) (msg : list Z) (st st1 : Stmt (R := R)) :
  do_analyze g (replicate 8 g) (db_ (sys_engine (st_sys st))) tree = Throw e -> what strerror e = Some msg -> db_ (sys_engine (st_sys st1)) = db_ (sys_engine (st_sys st)) ->
  guarded fuel strerror (execute g r0 fuel std_sort stof csv order1 order2 order3 depth tree x) st1 = on_error msg st1.
Proof.
  intros Han Hw Hdb. unfold guarded. assert (execute g r0 fuel std_sort stof csv order1 order2 order3 depth tree x st1 = (Throw e, st1)) as ->.
  { unfold execute. rewrite (bind_run _ _ st1 st1 (db_ (sys_engine (st_sys st1)))) by (destruct st1 as [[[] ? ?] ? ?]; reflexivity). by rewrite Hdb, Han. }
  rewrite Hw. by destruct e.
Qed.

Lemma error_overflows (msg : list Z) (st : Stmt (R := R)) : Z.of_nat (length (data_send_ (st_out st))) = BUFFER_LENGTH -> BUFFER_LENGTH < Z.of_nat (length msg) + 2 ->
  exists st', on_error msg st = (Stuck OutOfBounds, st').
Proof.
  intros Hl Hm. unfold on_error, mbind, M_bind, on_output, zoom, send_line, mbind, M_bind, gets, mem_write. cbn [id].
  rewrite length_app. cbn [length]. rewrite (proj2 (Z.leb_gt (0 + _) _)) by lia. cbn [andb Z.leb Z.compare unwrap]. by eexists.
Qed.

End requests.
End ServerSpec.

Module ServerDemo.
Import Engine Bpm BpmFacts BpmSpec PoolInstance Replacer.Lru Posix.MemFS PrinterSpec QlSpec ServerSpec.

(** An empty database on which two other transactions hold locks, and a new
    client that asks for a table there is not. *)
Definition eng1 : Engine LRUReplacer :=
  mkEng (Bpm.make 0 3 (Log.lm_disk LogDemo.demo_lm)) LockDemo.shared LogDemo.demo_lm (mkDb "db" ∅) ∅ ∅ ∅ ∅ [].
Definition sys1 : System := mkSys eng1 3 {[ 1; 2 ]}.
Definition stmt1 : Stmt := mkStmt sys1 (make_context true []) None.
Definition unknown_table : Ast.TreeNode := Ast.Select (Ast.order_select [] ["nosuch"%string] [] [] (-1)).


End ServerDemo.
