(* ===== verification/RollbackSpec.v ===== *)
(** * Aborting undoes the writes

    A transaction that inserted and updated records of a table without indexes,
    and holds them exclusively, is rolled back to exactly the table it found. *)

From S2P Require Import Prelude Bytes Posix Disk Replacer BufferPool BufferPoolFacts BufferPoolSpec PagePool Txn Lock LockFacts LockSpec Log RmFile RmPageFacts RmTable RmFileFacts RmSpec IxDefs IxNode IxIndex Values SmMeta Managers Engine Rollback.

Module RollbackSpec.
Import Engine Bpm BpmFacts BpmSpec PoolInstance RmFacts RmSpec Rollback.

(** ** Locks that are held already *)

(** [txn] may lock and holds the record exclusively. *)
Definition owns (txn fd : Z) (rid : Rid) (lk : Lock.LockManager) : Prop :=
  exists q i r, Lock.lock_table_ lk !! RecordLock fd rid = Some q /\ Lock.find_request txn (request_queue_ q) = Some (i, r) /\ lock_mode_ r = EXCLUSIVE.
Definition growing (txn : Z) (lk : Lock.LockManager) (ws : list WriteRecord) : Prop :=
  exists t, Lock.txns lk !! txn = Some t /\ state_ t = GROWING /\ write_set_ t = ws.

Lemma growing_check txn lk ws : growing txn lk ws -> Lock.check_lock txn lk = (Ret true, lk).
Proof.
  intros (t & Ht & Hs & _). unfold Lock.check_lock. rewrite (bind_run _ _ lk lk t) by (unfold Lock.get_txn; by rewrite Ht). by rewrite Hs.
Qed.
Lemma owns_shared txn fd rid lk ws : growing txn lk ws -> owns txn fd rid lk -> Lock.lock_shared_on_record txn rid fd lk = (Ret true, lk).
Proof.
  intros Hg (q & i & r & Hq & Hf & Hm). unfold Lock.lock_shared_on_record. rewrite (bind_run _ _ _ _ _ (growing_check _ _ _ Hg)). cbn [negb].
  rewrite (bind_run _ _ lk lk q) by (unfold Lock.get_queue; by rewrite Hq). by rewrite Hf.
Qed.
Lemma owns_exclusive txn fd rid lk ws : growing txn lk ws -> owns txn fd rid lk -> Lock.lock_exclusive_on_record txn rid fd lk = (Ret true, lk).
Proof.
  intros Hg (q & i & r & Hq & Hf & Hm). unfold Lock.lock_exclusive_on_record. rewrite (bind_run _ _ _ _ _ (growing_check _ _ _ Hg)). cbn [negb].
  rewrite (bind_run _ _ lk lk q) by (unfold Lock.get_queue; by rewrite Hq). rewrite Hf. by rewrite decide_True.
Qed.

(** ** The writes of a transaction on a table *)

Abbreviation row := (list Z).
Definition put (q : Rid) (x : option row) (m : Rid -> option row) : Rid -> option row := fun q' => if decide (q' = q) then x else m q'.

(** [writes n m0 ws m]: performing [ws] in order on [m0] gives [m]; records have
    [n] bytes. *)
Inductive writes (n : nat) (m0 : Rid -> option row) : list WriteRecord -> (Rid -> option row) -> Prop :=
| writes_none m : (forall q, m q = m0 q) -> writes n m0 [] m
| writes_insert ws w m1 m x : writes n m0 ws m1 -> wtype_ w = INSERT_TUPLE -> m1 (wr_rid w) = None ->
    (forall q, m q = put (wr_rid w) (Some x) m1 q) -> writes n m0 (ws ++ [w]) m
| writes_update ws w m1 m x : writes n m0 ws m1 -> wtype_ w = UPDATE_TUPLE -> m1 (wr_rid w) = Some (wr_record w) -> length (wr_record w) = n ->
    (forall q, m q = put (wr_rid w) (Some x) m1 q) -> writes n m0 (ws ++ [w]) m.

Lemma writes_ext n m0 ws m m' : (forall q, m' q = m q) -> writes n m0 ws m -> writes n m0 ws m'.
Proof.
  intros E H. destruct H as [m H|ws w m1 m x H Ht Hn Hm|ws w m1 m x H Ht Ho Hl Hm].
  - apply writes_none. intros q. by rewrite E, H.
  - apply (writes_insert n m0 ws w m1 m' x); [done..|]. intros q. by rewrite E.
  - apply (writes_update n m0 ws w m1 m' x); [done..|]. intros q. by rewrite E.
Qed.

Section undo.
Context {R : Type} {RO : Replacer R} {RL : ReplacerLaws R} {FO : FileSystem} {FL : FileSystemLaws} {FR : FileSystemReliable}.
Context (fuel : nat) (txn : Z) (name : string) (tab : TabMeta) (x : Z) (size : Z) (Htab : tm_indexes tab = []).
Abbreviation Eng := (Engine R).

(** The table [name] is open on descriptor [x], holds [m], and the transaction
    has [ws] to undo. *)
Record undoing (ws : list WriteRecord) (m : Rid -> option row) (s : Eng) : Prop := {
  u_table : exists t, fhs_ s !! name = Some t /\ tf_fd t = x /\ record_size (tf_hdr t) = size /\ file_ok (table_of t s) /\ forall q, lookup (table_of t s) q = m q;
  u_db : get_table name (db_ s) = Ret tab;
  u_txn : growing txn (en_locks s) ws;
  u_owns : forall w, w ∈ ws -> owns txn x (wr_rid w) (en_locks s);
  u_names : forall w, w ∈ ws -> tab_name_ w = name
}.

Lemma on_table_run {A} (m : M (Rm.RmFileHandle (BufferPoolManager R)) A) (t : TabFile) (s : Eng) (r : outcome A) (h : Rm.RmFileHandle (BufferPoolManager R)) :
  fhs_ s !! name = Some t -> m (table_of t s) = (r, h) -> on_table name m s = (r, put_table name h s).
Proof. intros Ht Hm. unfold on_table. rewrite Ht. by apply zoom_run. Qed.

(** An operation on the table that changes no lock. *)
Lemma undoing_table ws m m' s h t : undoing ws m s -> fhs_ s !! name = Some t -> file_ok h -> Rm.rm_locks h = en_locks s -> Rm.fd_ h = x ->
  record_size (Rm.file_hdr_ h) = size -> (forall q, lookup h q = m' q) -> undoing ws m' (put_table name h s).
Proof.
  intros [_ U2 U3 U4 U5] Ht F K X Hs Hl. split; simpl; try done; [|by rewrite K|intros w Hw; rewrite K; by apply U4].
  exists (mkTF (Rm.fd_ h) (Rm.file_hdr_ h)). rewrite lookup_insert_eq. split_and!; try done; by destruct h.
Qed.

Lemma undo_get ws m s q r : undoing ws m s -> m q = Some r -> owns txn x q (en_locks s) ->
  exists s', on_table name (Rm.get_record q (Some txn)) s = (Ret r, s') /\ undoing ws m s' /\ en_locks s' = en_locks s.
Proof.
  intros U Hr Ho. pose proof U as [(t & Ht & X & Hs & F & L) _ Hg _ _]. pose proof (get_record_any (table_of t s) q r txn F) as G.
  rewrite L in G. simpl in G. rewrite X, (owns_shared _ _ _ _ _ Hg Ho) in G. destruct Hg as (tx & Htx & _).
  destruct (G Hr ltac:(by eexists)) as (h & R1 & F1 & K1 & L1 & H1 & X1). exists (put_table name h s). split; [by apply (on_table_run _ t)|].
  split; [|done]. apply (undoing_table ws m m s h t U Ht F1 K1); [by rewrite X1|by rewrite H1|]. intros q'. by rewrite L1, L.
Qed.
Lemma undo_del ws m s q r : undoing ws m s -> m q = Some r -> owns txn x q (en_locks s) ->
  exists s', on_table name (Rm.delete_record q (Some txn)) s = (Ret tt, s') /\ undoing ws (put q None m) s' /\ en_locks s' = en_locks s.
Proof.
  intros U Hr Ho. pose proof U as [(t & Ht & X & Hs & F & L) _ Hg _ _]. pose proof (delete_record_any (table_of t s) q r txn F) as G.
  rewrite L in G. simpl in G. rewrite X, (owns_exclusive _ _ _ _ _ Hg Ho) in G. destruct Hg as (tx & Htx & _).
  destruct (G Hr ltac:(by eexists)) as (h & R1 & F1 & K1 & X1 & H1 & L1). exists (put_table name h s). split; [by apply (on_table_run _ t)|].
  split; [|done]. apply (undoing_table ws m _ s h t U Ht F1 K1); [by rewrite X1|rewrite <- Hs; apply H1|].
  intros q'. rewrite L1. unfold put. by rewrite L.
Qed.
Lemma undo_upd ws m s q r old : undoing ws m s -> m q = Some r -> owns txn x q (en_locks s) -> Z.of_nat (length old) = size ->
  exists s', on_table name (Rm.update_record q old (Some txn)) s = (Ret tt, s') /\ undoing ws (put q (Some old) m) s' /\ en_locks s' = en_locks s.
Proof.
  intros U Hr Ho Hlen. pose proof U as [(t & Ht & X & Hs & F & L) _ Hg _ _]. pose proof (update_record_any (table_of t s) q r old txn F) as G.
  rewrite L in G. simpl in G. rewrite X, (owns_exclusive _ _ _ _ _ Hg Ho) in G. destruct Hg as (tx & Htx & _).
  destruct (G Hr ltac:(lia) ltac:(by eexists)) as (h & R1 & F1 & K1 & X1 & H1 & L1). exists (put_table name h s). split; [by apply (on_table_run _ t)|].
  split; [|done]. apply (undoing_table ws m _ s h t U Ht F1 K1); [by rewrite X1|rewrite <- Hs; apply H1|].
  intros q'. rewrite L1. unfold put. rewrite Hs, take_ge by lia. by rewrite L.
Qed.

(** Dropping the record that was undone. *)
Lemma undo_pop ws w m s : undoing (ws ++ [w]) m s ->
  exists s', on_locks (Lock.upd_txn txn (fun t => set_write_set (removelast (write_set_ t)) t)) s = (Ret tt, s') /\ undoing ws m s'.
Proof.
  intros [(t & Ht & X & Hs & F & L) U2 (tx & Htx & Hst & Hws) U4 U5].
  set (lk := Lock.set_txns (<[txn := set_write_set (removelast (write_set_ tx)) tx]> (Lock.txns (en_locks s))) (en_locks s)).
  exists (set_locks lk s). split.
  - apply (zoom_run en_locks set_locks _ s (Ret tt) lk). unfold Lock.upd_txn.
    rewrite (bind_run _ _ (en_locks s) (en_locks s) tx); [reflexivity|]. unfold Lock.get_txn. by rewrite Htx.
  - assert (LockFacts.inv lk) as Il.
    { apply (LockSpec.inv_txns (en_locks s)); [apply (fo_locks _ F)|done|]. intros y u Hu. simpl.
      destruct (decide (y = txn)) as [->|Hne]; [rewrite lookup_insert_eq|rewrite lookup_insert_ne by done; by exists u].
      eexists. split; [done|]. rewrite Htx in Hu. injection Hu as <-. by destruct tx. }
    destruct (file_ok_locks (table_of t s) lk F Il) as [F1 L1]. split; try done.
    + by exists t.
    + exists (set_write_set (removelast (write_set_ tx)) tx). split_and!; [simpl; by rewrite lookup_insert_eq|by destruct tx|].
      simpl. rewrite Hws. apply removelast_last.
    + intros w' Hw. apply U4. apply elem_of_app. by left.
    + intros w' Hw. apply U5. apply elem_of_app. by left.
Qed.

(** What is left of [m] when the write [w] is taken back. *)
Definition taken_back (w : WriteRecord) (m m1 : Rid -> option row) : Prop :=
  (exists cur, m (wr_rid w) = Some cur) /\ (forall q, q <> wr_rid w -> m q = m1 q) /\
  (wtype_ w = INSERT_TUPLE /\ m1 (wr_rid w) = None \/
   wtype_ w = UPDATE_TUPLE /\ m1 (wr_rid w) = Some (wr_record w) /\ Z.of_nat (length (wr_record w)) = size).

Lemma undoing_ext ws m m' s : (forall q, m' q = m q) -> undoing ws m s -> undoing ws m' s.
Proof. intros E [(t & Ht & X & Hs & F & L) U2 U3 U4 U5]. split; try done. exists t. split_and!; try done. intros q. by rewrite L, E. Qed.

Lemma undo_body ws m m1 s w : undoing ws m s -> tab_name_ w = name -> owns txn x (wr_rid w) (en_locks s) -> taken_back w m m1 ->
  exists s', (match wtype_ w with INSERT_TUPLE => undo_insert fuel txn tab w | DELETE_TUPLE => undo_delete fuel txn tab w | UPDATE_TUPLE => undo_update fuel txn tab w end) s =
    (Ret tt, s') /\ undoing ws m1 s'.
Proof.
  intros U Hn Ho ((cur & Hcur) & Hoth & Hcase). destruct (undo_get ws m s _ _ U Hcur Ho) as (s1 & R1 & U1 & K1). rewrite <- K1 in Ho.
  destruct Hcase as [[-> Hm1]|(-> & Hm1 & Hlen)].
  - destruct (undo_del ws m s1 _ _ U1 Hcur Ho) as (s2 & R2 & U2 & _). exists s2. split.
    + unfold undo_insert. rewrite Hn, (bind_run _ _ _ _ _ R1), Htab. cbn [forM]. erewrite bind_run by reflexivity. exact R2.
    + eapply undoing_ext, U2. intros q. unfold put. case_decide as Hq; [by subst|by rewrite Hoth].
  - destruct (undo_upd ws m s1 _ _ (wr_record w) U1 Hcur Ho Hlen) as (s2 & R2 & U2 & _). exists s2. split.
    + unfold undo_update. by rewrite Hn, (bind_run _ _ _ _ _ R1), (bind_run _ _ _ _ _ R2), Htab.
    + eapply undoing_ext, U2. intros q. unfold put. case_decide as Hq; [by subst|by rewrite Hoth].
Qed.

Lemma writes_last m0 ws w m : 0 <= size -> writes (Z.to_nat size) m0 (ws ++ [w]) m -> exists m1, taken_back w m m1 /\ writes (Z.to_nat size) m0 ws m1.
Proof.
  intros Hsz W. inversion W as [m' H E1 E2|ws' w' m1 m' y H Ht1 Hnone Hm E1 E2|ws' w' m1 m' y H Ht1 Hold Hlen Hm E1 E2]; [by destruct ws|..];
    apply app_inj_tail in E1 as [-> ->]; exists m1; (split; [|done]); (split_and!; [exists y; rewrite Hm; unfold put; by rewrite decide_True| |]).
  - intros q Hq. rewrite Hm. unfold put. by rewrite decide_False.
  - by left.
  - intros q Hq. rewrite Hm. unfold put. by rewrite decide_False.
  - right. split_and!; [done|done|lia].
Qed.

(** One turn of the loop undoes the last write. *)
Lemma undo_step m0 ws w m s : undoing (ws ++ [w]) m s -> writes (Z.to_nat size) m0 (ws ++ [w]) m -> 0 <= size ->
  exists m1 s', undo_last fuel txn w s = (Ret tt, s') /\ undoing ws m1 s' /\ writes (Z.to_nat size) m0 ws m1.
Proof.
  intros U W Hsz. assert (w ∈ ws ++ [w]) as Hw by (apply elem_of_app; right; left). pose proof (u_names _ _ _ U w Hw) as Hn. pose proof (u_owns _ _ _ U w Hw) as Ho.
  pose proof U as [(t & Ht & _ & _ & _ & _) Hdb _ _ _]. destruct (writes_last _ _ _ _ Hsz W) as (m1 & Hb & W1).
  destruct (undo_body (ws ++ [w]) m m1 s w U Hn Ho Hb) as (s2 & R2 & U2). destruct (undo_pop ws w m1 s2 U2) as (s3 & R3 & U3).
  exists m1, s3. split_and!; [|done|done]. unfold undo_last. erewrite bind_run by reflexivity. rewrite Hn, (bind_run _ _ s s tab) by (unfold lift; by rewrite Hdb).
  rewrite (bind_run _ _ s s tt); [by rewrite (bind_run _ _ _ _ _ R2)|]. unfold find_fh. erewrite bind_run by reflexivity. by rewrite Ht.
Qed.

Lemma the_txn_run tx (s : Eng) : Lock.txns (en_locks s) !! txn = Some tx -> the_txn txn s = (Ret tx, s).
Proof. intros H. unfold the_txn, on_locks. rewrite (zoom_run en_locks set_locks _ s (Ret tx) (en_locks s)); [by destruct s|]. unfold Lock.get_txn. by rewrite H. Qed.

Lemma rollback_ok m0 (ws : list WriteRecord) : 0 <= size -> forall m s, undoing ws m s -> writes (Z.to_nat size) m0 ws m ->
  exists s', rollback fuel txn (length ws) s = (Ret tt, s') /\ undoing [] m0 s'.
Proof.
  intros Hsz. induction ws as [|w ws IH] using rev_ind; intros m s U W.
  - exists s. pose proof (u_txn _ _ _ U) as (tx & Htx & _ & Hws). split.
    + cbn [length rollback]. by rewrite (bind_run _ _ _ _ _ (the_txn_run tx s Htx)), Hws.
    + inversion W as [m' H E1 E2|ws' w' m1 m' y H Ht1 Hnone Hm E1 E2|ws' w' m1 m' y H Ht1 Hold Hlen Hm E1 E2]; [|by destruct ws'..]. eapply undoing_ext, U. intros q. by rewrite H.
  - destruct (undo_step _ _ _ _ _ U W Hsz) as (m1 & s1 & R1 & U1 & W1). destruct (IH m1 s1 U1 W1) as (s2 & R2 & U2). exists s2. split; [|done].
    rewrite length_app. cbn [length]. rewrite Nat.add_1_r. cbn [rollback]. pose proof (u_txn _ _ _ U) as (tx & Htx & _ & Hws).
    rewrite (bind_run _ _ _ _ _ (the_txn_run tx s Htx)), Hws, last_snoc. by rewrite (bind_run _ _ _ _ _ R1).
Qed.

(** C24: rolling back restores the table.  When the write set records, in order,
    the insertions and updates that led from the contents [m0] to the present
    ones, and the transaction holds those records exclusively, the loop of
    [abort] ends, the table holds exactly [m0] again, its file invariant holds
    and nothing is left to undo. *)
Theorem rollback_restores (m0 m : Rid -> option row) (ws : list WriteRecord) (s : Eng) : 0 <= size ->
  undoing ws m s -> writes (Z.to_nat size) m0 ws m ->
  exists s', rollback fuel txn (length ws) s = (Ret tt, s') /\ undoing [] m0 s'.
Proof. intros Hsz. exact (rollback_ok m0 ws Hsz m s). Qed.

End undo.
End RollbackSpec.

Module RollbackDemo.
Import Engine Bpm BpmFacts BpmSpec PoolInstance Replacer.Lru Posix.MemFS RmFacts RmSpec RmDemo Rollback RollbackSpec.

Definition tab_t : TabMeta := mkTab "t" [mkCol "t" "a" TYPE_BIGINT 8 0 false] [].
Definition inserted : WriteRecord := mkWriteRecord INSERT_TUPLE "t" (mkRid 1 0) [].
(** The table of one record, which transaction 1 has inserted. *)
Definition eng0 : Engine LRUReplacer :=
  mkEng (Rm.rm_pool one_record) (Rm.rm_locks one_record) (Log.make 0 demo_dm) (mkDb "db" {[ "t"%string := tab_t ]})
    {[ "t"%string := mkTF (Rm.fd_ one_record) (Rm.file_hdr_ one_record) ]} ∅ ∅ ∅ [].
Definition eng1 : Engine LRUReplacer := (on_locks (Lock.upd_txn 1 (append_write_record inserted)) eng0).2.

Lemma eng1_undoing : undoing 1 "t" tab_t (Rm.fd_ one_record) 8 [inserted] (lookup one_record) eng1.
Proof.
  destruct one_record_ok as (F & (Hs & _) & _ & tx & Htx).
  set (lk := Lock.set_txns (<[1 := append_write_record inserted tx]> (Lock.txns (Rm.rm_locks one_record))) (Rm.rm_locks one_record)).
  assert (eng1 = set_locks lk eng0) as E.
  { unfold eng1, on_locks. erewrite zoom_run; [reflexivity|]. unfold Lock.upd_txn. erewrite bind_run; [reflexivity|]. unfold Lock.get_txn. change (en_locks eng0) with (Rm.rm_locks one_record). rewrite Htx. reflexivity. }
  assert (LockFacts.inv lk) as Il.
  { apply (LockSpec.inv_txns (Rm.rm_locks one_record)); [exact (fo_locks _ F)|reflexivity|]. intros y u Hu. cbn [Lock.txns Lock.set_txns lk].
    destruct (decide (y = 1)) as [->|Hne]; [rewrite lookup_insert_eq|rewrite lookup_insert_ne by (intros Hn; apply Hne; symmetry; exact Hn); exists u; split; [exact Hu|reflexivity]].
    eexists. split; [reflexivity|]. rewrite Htx in Hu. injection Hu as <-. destruct tx. reflexivity. }
  destruct (file_ok_locks one_record lk F Il) as [F1 L1]. rewrite E.
  split.
  - exists (mkTF (Rm.fd_ one_record) (Rm.file_hdr_ one_record)). split; [reflexivity|]. split; [reflexivity|]. split; [exact Hs|]. split; [exact F1|exact L1].
  - reflexivity.
  - exists (append_write_record inserted tx). split; [cbn [Lock.txns Lock.set_txns lk en_locks set_locks]; apply lookup_insert_eq|].
    assert ((fun t => (state_ t, write_set_ t)) <$> (Lock.txns (Rm.rm_locks one_record) !! 1) = Some (GROWING, [])) as H by (vm_compute; reflexivity).
    rewrite Htx in H. injection H as H1 H2. destruct tx. cbn in H1, H2. subst. split; reflexivity.
  - intros w Hw. apply list_elem_of_singleton in Hw as ->. eexists _, _, _. split; [vm_compute; reflexivity|]. split; [vm_compute; reflexivity|reflexivity].
  - intros w Hw. apply list_elem_of_singleton in Hw as ->. reflexivity.
Qed.

Lemma rollback_restores_witness : exists s', rollback 1 1 1 eng1 = (Ret tt, s') /\ undoing 1 "t" tab_t (Rm.fd_ one_record) 8 [] (fun _ => None) s'.
Proof.
  apply (rollback_restores 1 1 "t" tab_t (Rm.fd_ one_record) 8 eq_refl (fun _ => None) (lookup one_record) [inserted] eng1); [lia|exact eng1_undoing|].
  apply (writes_insert _ _ [] inserted (fun _ => None) (lookup one_record) record_a); [by apply writes_none|reflexivity|reflexivity|].
  intros q. unfold put. destruct one_record_ok as (_ & _ & H & _). case_decide as Hq; [rewrite Hq; exact H|].
  destruct (lookup one_record q) as [r|] eqn:E; [|reflexivity]. apply one_record_only in E as [E _]. destruct (Hq E).
Defined.

End RollbackDemo.
