(* ===== verification/Apart.v ===== *)
(** * What operations on tables leave alone

    A table and the log live in different files.  An operation of a record file
    writes and allocates pages of its own file and, when it makes room in the
    pool, writes pages of other tables; the log file and its descriptor stay as they
    were, whatever the outcome.  Conversely, writing the log changes no table. *)

From S2P Require Import Prelude Bytes Posix Disk Replacer BufferPool BufferPoolFacts BufferPoolSpec PagePool Txn Lock LockFacts Log LogFacts RmFile RmPageFacts RmTable RmFileFacts.

(** ** Keeping a property *)

(** Whatever [m] ends with, [J] still holds, and what it returns satisfies [Q]. *)
Definition keeps {S A} (J : S -> Prop) (m : M S A) (Q : A -> Prop) : Prop :=
  forall s r s', J s -> m s = (r, s') -> J s' /\ forall a, r = Ret a -> Q a.
Abbreviation any := (fun _ => True).
Create HintDb keeps.

Section keeping.
Context {S : Type} (J : S -> Prop).

Lemma keeps_ret {A} (a : A) : keeps J (mret a) any.
Proof. intros s r s' H [= <- <-]. by split. Qed.
Lemma keeps_bind {A B} (m : M S A) (k : A -> M S B) (Q : A -> Prop) (P : B -> Prop) :
  keeps J m Q -> (forall a, Q a -> keeps J (k a) P) -> keeps J (m ≫= k) P.
Proof.
  intros Hm Hk s r s' H. unfold mbind, M_bind. destruct (m s) as [[a|e|w] s1] eqn:E; destruct (Hm s _ s1 H E) as [H1 HQ].
  - intros E2. by apply (Hk a (HQ a eq_refl) s1 r s').
  - by intros [= <- <-].
  - by intros [= <- <-].
Qed.
Lemma keeps_weaken {A} (m : M S A) (Q P : A -> Prop) : keeps J m Q -> (forall a, Q a -> P a) -> keeps J m P.
Proof. intros Hm H s r s' Hs E. destruct (Hm s r s' Hs E) as [H1 H2]. split; [done|]. intros a Ea. by apply H, H2. Qed.
Lemma keeps_throw {A} (e : error) (Q : A -> Prop) : keeps J (throw e) Q.
Proof. intros s r s' H [= <- <-]. by split. Qed.
Lemma keeps_stuck {A} (w : fault) (Q : A -> Prop) : keeps J (stuck w) Q.
Proof. intros s r s' H [= <- <-]. by split. Qed.
Lemma keeps_gets {A} (f : S -> A) : keeps J (gets f) any.
Proof. intros s r s' H [= <- <-]. by split. Qed.
Lemma keeps_modify (f : S -> S) : (forall s, J s -> J (f s)) -> keeps J (modify f) any.
Proof. intros Hf s r s' H [= <- <-]. split; [by apply Hf|done]. Qed.
Lemma keeps_unwrap {A} (w : fault) (o : option A) : keeps J (unwrap w o) any.
Proof. destruct o; [apply keeps_ret|apply keeps_stuck]. Qed.
Lemma keeps_assert (b : bool) : keeps J (assert b) any.
Proof. destruct b; [apply keeps_ret|apply keeps_stuck]. Qed.
Lemma keeps_int_op (z : Z) : keeps J (int_op z) any.
Proof. unfold int_op. intros s r s'. destruct (in_i32 z); intros H [= <- <-]; by split. Qed.
Lemma keeps_zoom {T A} (get : S -> T) (put : T -> S -> S) (JT : T -> Prop) (m : M T A) (Q : A -> Prop) :
  (forall s, J s -> JT (get s)) -> (forall s t, J s -> JT t -> J (put t s)) -> keeps JT m Q -> keeps J (zoom get put m) Q.
Proof.
  intros Hg Hp Hm s r s' H. unfold zoom. destruct (m (get s)) as [r1 t] eqn:E. intros [= <- <-].
  destruct (Hm _ _ _ (Hg s H) E) as [H1 H2]. split; [by apply Hp|done].
Qed.
End keeping.
#[export] Hint Resolve keeps_ret keeps_throw keeps_stuck keeps_gets keeps_unwrap keeps_assert keeps_int_op : keeps.

(** Take a computation apart, leaving what its primitives must keep. *)
Ltac keep :=
  repeat first
    [ progress eauto with keeps
    | apply (keeps_bind _ _ _ any); [|intros ? _]
    | match goal with
      | |- keeps _ (if ?b then _ else _) _ => destruct b
      | |- keeps _ (match ?x with _ => _ end) _ => destruct x
      | |- keeps _ (let '(_, _) := ?x in _) _ => destruct x
      end ].

Module Apart.
Import Disk Bpm BpmFacts PoolInstance Rm.
Section apart.
Context {R : Type} {RO : Replacer R} {FO : FileSystem} {FL : FileSystemLaws} (lfd i : Z) (l : list Z).
Abbreviation BPM := (BufferPoolManager R).

(** ** The disk *)

(** The log is open on [lfd], which is file [i] and holds [l]. *)
Definition log_at (d : DiskManager) : Prop :=
  log_fd_ d = lfd /\ fd_distinct (dm_fs d) /\ fd_ino (dm_fs d) lfd = Some i /\ ino_bytes (dm_fs d) i = l.

Lemma keeps_sys {A} (f : FS -> A * FS) (x : Z) : x <> lfd ->
  (forall fs a fs', f fs = (a, fs') -> (forall y, fd_ino fs' y = fd_ino fs y) /\ forall j, fd_ino fs x <> Some j -> ino_bytes fs' j = ino_bytes fs j) ->
  keeps log_at (sys f) any.
Proof.
  intros Hx Hf d r d' (H1 & H2 & H3 & H4) E. unfold sys in E. destruct (f (dm_fs d)) as [a fs] eqn:Ef. injection E as <- <-. destruct (Hf _ _ _ Ef) as [I B].
  split; [|done]. split; [done|]. cbn [dm_fs set_fs fd2pageno_]. split; [intros y z j; rewrite !I; apply H2|]. rewrite I. split; [done|].
  rewrite B; [done|]. intros Ex. apply Hx. exact (H2 x lfd i Ex H3).
Qed.
Lemma keeps_lseek (x o : Z) : x <> lfd -> keeps log_at (sys (fun fs => sys_lseek fs x o)) any.
Proof. intros Hx. apply (keeps_sys _ x Hx). intros fs a fs' E. destruct (lseek_law _ _ _ _ _ E) as (I & B & _). split; [done|]. intros j _. apply B. Qed.
Lemma keeps_write (x : Z) (buf : list Z) : x <> lfd -> keeps log_at (sys (fun fs => sys_write fs x buf)) any.
Proof. intros Hx. apply (keeps_sys _ x Hx). intros fs a fs' E. destruct (write_law _ _ _ _ _ E) as (I & B & _). by split. Qed.
Lemma keeps_read (x n : Z) : x <> lfd -> keeps log_at (sys (fun fs => sys_read fs x n)) any.
Proof. intros Hx. apply (keeps_sys _ x Hx). intros fs [a b] fs' E. destruct (read_law _ _ _ _ _ _ E) as (I & B & _). split; [done|]. intros j _. apply B. Qed.
#[local] Hint Resolve keeps_lseek keeps_write keeps_read : keeps.

Lemma keeps_write_page (x n : Z) (data : list Z) (k : Z) : x <> lfd -> keeps log_at (write_page x n data k) any.
Proof. intros Hx. unfold write_page. keep. Qed.
Lemma keeps_read_page (x n k : Z) : x <> lfd -> keeps (fun s : DiskManager * list Z => log_at s.1) (read_page x n k) any.
Proof.
  intros Hx. unfold read_page.
  assert (forall A (m : M DiskManager A), keeps log_at m any -> keeps (fun s : DiskManager * list Z => log_at s.1) (zoom fst (fun d s => (d, s.2)) m) any) as Hz.
  { intros A m H. by apply (keeps_zoom _ _ _ log_at). }
  keep. all: try (apply Hz; keep). all: by apply keeps_modify.
Qed.
Lemma keeps_allocate (x : Z) : x <> lfd -> keeps log_at (allocate_page x) any.
Proof.
  intros Hx. unfold allocate_page, get_fd2pageno, set_fd2pageno. keep.
  - intros d r d' H E. destruct (fd_in_range x); by injection E as <- <-.
  - intros d r d' H E. destruct (fd_in_range x); by injection E as <- <-.
Qed.
#[local] Hint Resolve keeps_write_page keeps_read_page keeps_allocate : keeps.

(** ** The pool *)

(** No frame carries a page of the log. *)
Definition apart (s : BPM) : Prop := log_at (disk_manager_ s) /\ Forall (fun p => fd (id_ p) <> lfd) (pages_ s).

Lemma keeps_disk {A} (m : M DiskManager A) : keeps log_at m any -> keeps apart (on_disk m) any.
Proof. apply keeps_zoom; [by intros s [H _]|by intros s d [_ H] Hd]. Qed.
Lemma keeps_replacer {A} (m : M R A) : keeps apart (on_replacer m) any.
Proof. apply (keeps_zoom _ _ _ any); [done|by intros s t H _|]. intros s r s' _ _. by split. Qed.
Lemma keeps_frame (f : Z) : keeps apart (get_frame f) (fun p => fd (id_ p) <> lfd).
Proof.
  intros s r s' H E. unfold get_frame in E. destruct (frame s f) as [p|] eqn:Ef; injection E as <- <-; (split; [done|]); [|done].
  intros a [= <-]. unfold frame in Ef. destruct (0 <=? f); [|done]. exact (Forall_lookup_1 _ _ _ _ (proj2 H) Ef).
Qed.
Lemma keeps_put (f : Z) (p : Page) (s : BPM) : apart s -> fd (id_ p) <> lfd -> apart (put_frame f p s).
Proof. intros [H1 H2] Hp. split; [done|]. by apply Forall_insert. Qed.
Lemma keeps_upd (f : Z) (g : Page -> Page) : (forall p, fd (id_ p) <> lfd -> fd (id_ (g p)) <> lfd) -> keeps apart (upd_frame f g) any.
Proof.
  intros Hg. unfold upd_frame. apply (keeps_bind _ _ _ _ _ (keeps_frame f)). intros p Hp. apply keeps_modify. intros s H. by apply keeps_put, Hg.
Qed.
Lemma keeps_table (f : BPM -> gmap PageId Z) : keeps apart (modify (fun s => set_table (f s) s)) any.
Proof. by apply keeps_modify. Qed.
#[local] Hint Resolve keeps_disk keeps_replacer keeps_upd keeps_table : keeps.

Ltac at_frame := apply (keeps_bind _ _ _ _ _ (keeps_frame _)); intros ? ?.
Lemma keeps_incr_pin (f : Z) : keeps apart (incr_pin f) any.
Proof. unfold incr_pin. at_frame. keep. Qed.
Lemma keeps_victim : keeps apart find_victim_page any.
Proof. unfold find_victim_page. keep. all: by apply keeps_modify. Qed.
Lemma keeps_update_page (f : Z) (pid : PageId) (n : Z) : fd pid <> lfd -> keeps apart (update_page f pid n) any.
Proof. intros Hp. unfold update_page. at_frame. keep. Qed.
Lemma keeps_read_into (f : Z) (pid : PageId) : fd pid <> lfd -> keeps apart (read_into f pid) any.
Proof.
  intros Hp. unfold read_into. at_frame. apply (keeps_zoom _ _ _ (fun s : DiskManager * list Z => log_at s.1)); [by intros s [K _]| |by apply keeps_read_page].
  intros s t [K1 K2] Ht. by apply keeps_put.
Qed.
Lemma keeps_frame_any (f : Z) : keeps apart (get_frame f) any.
Proof. by apply (keeps_weaken _ _ _ _ (keeps_frame f)). Qed.
#[local] Hint Resolve keeps_frame_any keeps_incr_pin keeps_victim keeps_update_page keeps_read_into : keeps.

Lemma keeps_fetch (pid : PageId) : fd pid <> lfd -> keeps apart (fetch_page pid) any.
Proof. intros Hp. unfold fetch_page. keep. Qed.
Lemma keeps_unpin (pid : PageId) (b : bool) : keeps apart (unpin_page pid b) any.
Proof. unfold unpin_page. keep. Qed.
Lemma keeps_flush (pid : PageId) : fd pid <> lfd -> keeps apart (flush_page pid) any.
Proof. intros Hp. unfold flush_page. keep. Qed.
Lemma keeps_new (x : Z) : x <> lfd -> keeps apart (new_page x) (fun o => forall f pid, o = Some (f, pid) -> fd pid = x).
Proof.
  intros Hx. unfold new_page. apply (keeps_bind _ _ _ _ _ keeps_victim). intros [f|] _; [|intros s r s' H [= <- <-]; split; [done|by intros ? [= <-]]].
  apply (keeps_bind _ _ _ any); [keep|]. intros n _. do 4 (apply (keeps_bind _ _ _ any); [keep|intros _ _]).
  intros s r s' H [= <- <-]. split; [done|]. by intros ? [= <-] f' pid [= <- <-].
Qed.
Lemma keeps_data (f : Z) (g : list Z -> list Z) : keeps apart (modify_data f g) any.
Proof. unfold modify_data. keep. Qed.
#[local] Hint Resolve keeps_fetch keeps_unpin keeps_flush keeps_data : keeps.

(** ** The record file *)

Abbreviation FH := (RmFileHandle BPM).
Context (x : Z) (Hx : x <> lfd).
Definition table_apart (h : FH) : Prop := apart (rm_pool h) /\ fd_ h = x.

Lemma keeps_pool {A} (m : M BPM A) (Q : A -> Prop) : keeps apart m Q -> keeps table_apart (Rm.on_pool m) Q.
Proof. apply keeps_zoom; [by intros s [H _]|by intros s t [_ H] Ht]. Qed.
Lemma keeps_locks {A} (m : M Lock.LockManager A) : keeps table_apart (Rm.on_locks m) any.
Proof. apply (keeps_zoom _ _ _ any); [done|by intros s t H _|]. intros s r s' _ _. by split. Qed.
Lemma keeps_fd : keeps table_apart (gets fd_) (fun y => y = x).
Proof. intros s r s' [H1 H2] [= <- <-]. split; [by split|]. by intros a [= <-]. Qed.
Lemma keeps_page_of (f : Z) : keeps table_apart (page_of f) (fun p => fd (id_ p) <> lfd).
Proof.
  intros s r s' H E. unfold page_of in E. cbn [pp_page bpm_PagePool] in E.
  destruct (frame (rm_pool s) f) as [p|] eqn:Ef; injection E as <- <-; (split; [done|]); [|done].
  intros a [= <-]. unfold frame in Ef. destruct (0 <=? f); [|done]. exact (Forall_lookup_1 _ _ _ _ (proj2 (proj1 H)) Ef).
Qed.
Lemma keeps_page_of_any (f : Z) : keeps table_apart (page_of f) any.
Proof. by apply (keeps_weaken _ _ _ _ (keeps_page_of f)). Qed.
Lemma keeps_hdr (g : FH -> RmFileHdr) : keeps table_apart (modify (fun s => set_hdr (g s) s)) any.
Proof. by apply keeps_modify. Qed.
#[local] Hint Resolve keeps_pool keeps_locks keeps_page_of_any keeps_hdr : keeps.

Ltac at_fd := apply (keeps_bind _ _ _ _ _ keeps_fd); intros ? ->.
Lemma keeps_change (f : Z) (g : list Z -> option (list Z)) : keeps table_apart (change f g) any.
Proof. unfold change. keep. Qed.
Lemma keeps_write_hdr : keeps table_apart write_hdr any.
Proof. unfold write_hdr. apply (keeps_bind _ _ _ any); [keep|intros h _]. at_fd. apply keeps_pool, keeps_disk, keeps_write_page, Hx. Qed.
Lemma keeps_fetch_handle (n : Z) : keeps table_apart (fetch_page_handle n) any.
Proof.
  unfold fetch_page_handle. destruct (n =? INVALID_PAGE_ID); [apply keeps_throw|]. at_fd.
  apply (keeps_bind _ _ _ any); [by apply keeps_pool, keeps_fetch|]. keep.
Qed.
Lemma keeps_new_handle : keeps table_apart create_new_page_handle any.
Proof.
  unfold create_new_page_handle. at_fd. apply (keeps_bind _ _ _ _ _ (keeps_pool _ _ (keeps_new x Hx))). intros [[f pid]|] H; [|keep].
  pose proof (H f pid eq_refl) as Hp. pose proof keeps_change. pose proof keeps_write_hdr. keep. apply keeps_pool, keeps_flush. by rewrite Hp.
Qed.
Lemma keeps_create_handle : keeps table_apart create_page_handle any.
Proof. pose proof keeps_new_handle. pose proof keeps_fetch_handle. unfold create_page_handle. keep. Qed.
Lemma keeps_stamp (f : Z) (ctx : option Z) : keeps table_apart (stamp_lsn f ctx) any.
Proof. pose proof keeps_change. unfold stamp_lsn. keep. Qed.

(** Inserting a record leaves the log as it was. *)
Lemma keeps_insert (buf : list Z) (ctx : option Z) : keeps table_apart (insert_record buf ctx) any.
Proof.
  pose proof keeps_create_handle. pose proof keeps_change. pose proof keeps_write_hdr. pose proof keeps_stamp. unfold insert_record. keep.
  all: apply keeps_pool, keeps_unpin.
Qed.
Lemma keeps_get (rid : Rid) (ctx : option Z) : keeps table_apart (get_record rid ctx) any.
Proof. pose proof keeps_fetch_handle. unfold get_record. keep. all: apply keeps_pool, keeps_unpin. Qed.
Lemma keeps_update (rid : Rid) (buf : list Z) (ctx : option Z) : keeps table_apart (update_record rid buf ctx) any.
Proof. pose proof keeps_fetch_handle. pose proof keeps_change. pose proof keeps_stamp. unfold update_record. keep. all: apply keeps_pool, keeps_unpin. Qed.
Lemma keeps_delete (rid : Rid) (ctx : option Z) : keeps table_apart (delete_record rid ctx) any.
Proof.
  pose proof keeps_fetch_handle. pose proof keeps_change. pose proof keeps_stamp. pose proof keeps_write_hdr. unfold delete_record, release_page_handle. keep.
  all: apply keeps_pool, keeps_unpin.
Qed.
End apart.

(** ** Writing the log *)

Section log_write.
Context {R : Type} {RO : Replacer R} {RL : ReplacerLaws R} {FO : FileSystem} {FL : FileSystemLaws} {FR : FileSystemReliable}.
Context (lfd i : Z) (l : list Z) (s : BufferPoolManager R) (d : DiskManager) (Ha : apart lfd i l s) (Hd : LogFacts.log_only (disk_manager_ s) d).

Lemma other_bytes (x : Z) : x <> lfd -> file_bytes d x = file_bytes (disk_manager_ s) x.
Proof.
  destruct Ha as [(H1 & H2 & H3 & _) _]. destruct Hd as (_ & I & B & _). intros Hx. unfold file_bytes. rewrite I.
  destruct (fd_ino (dm_fs (disk_manager_ s)) x) as [j|] eqn:Ej; [|done]. simpl. rewrite B; [done|]. rewrite H1. intros E. apply Hx. by apply (H2 x lfd j).
Qed.
Lemma other_page (x n : Z) : x <> lfd -> disk_page d x n = disk_page (disk_manager_ s) x n /\ (page_present (disk_manager_ s) x n -> page_present d x n).
Proof. intros Hx. unfold disk_page, page_present. by rewrite (other_bytes x Hx). Qed.
Lemma cached_other (pid : PageId) (f : Z) : inv s -> page_table_ s !! pid = Some f -> fd pid <> lfd.
Proof.
  intros I Hp. destruct (i_table _ I _ _ Hp) as [(p & Hf & <-) _]. unfold frame in Hf. destruct (0 <=? f); [|done]. exact (Forall_lookup_1 _ _ _ _ (proj2 Ha) Hf).
Qed.

Lemma log_write_tidy : tidy s -> tidy (set_disk d s).
Proof.
  intros T. pose proof (t_inv _ T) as I. pose proof Hd as (_ & Hi & _ & Hno & _). split; [split; try apply I| |apply T|].
  - simpl. intros x y j. rewrite !Hi. apply I.
  - simpl. intros f p Hf Hm H1 H2. pose proof (cached_other _ _ I Hm) as Hx. destruct (other_page (fd (id_ p)) (page_no (id_ p)) Hx) as [E1 E2].
    destruct (i_clean _ I f p Hf Hm H1 H2) as [S1 S2]. split; [|by apply E2]. unfold dpage in *. by rewrite E1.
  - intros x g Hx. destruct (t_writable _ T x g Hx) as [H1 H2]. split; [done|]. unfold fd_open. simpl. by rewrite Hi.
  - unfold count. simpl. rewrite Hno. apply T.
Qed.
Lemma log_write_logical (q : PageId) : fd q <> lfd -> logical (set_disk d s) q = logical s q.
Proof.
  intros Hq. unfold logical. simpl. destruct (page_table_ s !! q ≫= frame s) eqn:E; change (frame (set_disk d s)) with (frame s); rewrite E; [done|].
  unfold dpage. by apply other_page.
Qed.
Lemma log_write_exists (q : PageId) : fd q <> lfd -> page_exists s q -> page_exists (set_disk d s) q.
Proof.
  intros Hq (H1 & H2 & H3 & H4 & H5). pose proof Hd as (_ & Hi & _ & Hno & _). split_and!; [done|unfold count; simpl; by rewrite Hno|done|unfold fd_open; simpl; by rewrite Hi|].
  destruct H5 as [H5|H5]; [by left|right]. by apply other_page.
Qed.

(** No table changes when the log is written. *)
Lemma log_write_table (h : RmFileHandle (BufferPoolManager R)) :
  rm_pool h = s -> fd_ h <> lfd -> RmFacts.file_ok h ->
  RmFacts.file_ok (set_pool (set_disk d s) h) /\ forall q, RmFacts.lookup (set_pool (set_disk d s) h) q = RmFacts.lookup h q.
Proof.
  intros E Hx [F1 F2 F3 F4 F5 F6]. pose proof Hd as (_ & Hi & _ & Hno & _). rewrite E in F2, F3, F4.
  assert (forall n, RmFacts.pg (set_pool (set_disk d s) h) n = RmFacts.pg h n) as Hpg by (intros n; unfold RmFacts.pg; rewrite E; by apply log_write_logical).
  split; [|intros q; unfold RmFacts.lookup; by rewrite Hpg]. split; try done.
  - by apply (table_ext (file_hdr_ h) (RmFacts.pg h)).
  - destruct F2 as (T & Hs & Hp). split_and!; [by apply log_write_tidy|done|done].
  - simpl in *. unfold count in *. simpl. by rewrite Hno.
  - intros n Hn. apply log_write_exists; [done|]. by apply F4.
Qed.
End log_write.
End Apart.
