(* ===== verification/DmlSpec.v ===== *)
(** * Statements that change a table

    An inserted or updated record of a table without indexes is stored, logged
    and noted in the write set of its transaction, so that it can be undone. *)

From S2P Require Import Prelude Bytes Posix Disk Replacer BufferPool BufferPoolFacts BufferPoolSpec PagePool Txn Lock LockFacts LockSpec Log LogFacts TxnManager RmFile RmPageFacts RmTable RmFileFacts RmSpec IxDefs IxNode IxIndex Values SmMeta Managers Engine Dml Rollback RollbackSpec Apart.

Module DmlSpec.
Import Engine Bpm BpmFacts BpmSpec PoolInstance RmFacts RmSpec Rollback RollbackSpec Apart.

(** ** Locks *)

(** The same transaction but for the locks it holds. *)
Definition same_txn (t t' : Transaction) : Prop :=
  txn_id_ t' = txn_id_ t /\ prev_lsn_ t' = prev_lsn_ t /\ state_ t' = state_ t /\ write_set_ t' = write_set_ t.

Lemma find_last txn (l : list LockRequest) m : Lock.find_request txn l = None ->
  exists i, Lock.find_request txn (l ++ [mkRequest txn m true]) = Some (i, mkRequest txn m true).
Proof.
  intros H. exists (length l). apply list_find_Some. split_and!; [by rewrite lookup_app_r, Nat.sub_diag|done|].
  intros j y Hj Hlt Hy. rewrite lookup_app_l in Hj by done. destruct (list_find_elem_of (fun r => req_txn r = txn) l y) as [z Hz]; [by eapply list_elem_of_lookup_2|done|].
  unfold Lock.find_request in H. congruence.
Qed.
Lemma find_upgraded txn (l : list LockRequest) i r m : Lock.find_request txn l = Some (i, r) ->
  exists r', Lock.find_request txn (Lock.set_mode i m l) = Some (i, r') /\ lock_mode_ r' = m.
Proof.
  intros (H1 & H2 & H3)%list_find_Some. exists (mkRequest (req_txn r) m (granted_ r)). split; [|done]. apply list_find_Some. unfold Lock.set_mode.
  rewrite list_lookup_alter_eq, H1. split_and!; [done|done|]. intros j y Hj Hlt. rewrite list_lookup_alter_ne in Hj by lia. by apply (H3 j).
Qed.
Lemma get_queue_run id lk : exists q lk1, Lock.get_queue id lk = (Ret q, lk1) /\ Lock.lock_table_ lk1 !! id = Some q /\ Lock.txns lk1 = Lock.txns lk /\
  forall id' q', Lock.lock_table_ lk !! id' = Some q' -> Lock.lock_table_ lk1 !! id' = Some q'.
Proof.
  unfold Lock.get_queue. destruct (Lock.lock_table_ lk !! id) as [q|] eqn:Eq; eexists _, _; (split; [reflexivity|]); [done|]. simpl. rewrite lookup_insert_eq.
  split_and!; [done|done|]. intros id' q' H. by rewrite lookup_insert_ne by congruence.
Qed.
Lemma owns_put txn fd rid rid' lk q x i r : Lock.find_request txn (request_queue_ q) = Some (i, r) -> lock_mode_ r = EXCLUSIVE ->
  rid' = rid \/ owns txn fd rid' lk -> owns txn fd rid' {| Lock.lock_table_ := <[RecordLock fd rid := q]> (Lock.lock_table_ lk); Lock.txns := x |}.
Proof.
  intros Hf Hm Ho. destruct (decide (rid' = rid)) as [->|Hne].
  - exists q, i, r. simpl. by rewrite lookup_insert_eq.
  - destruct Ho as [|(q' & i' & r' & Hq & H)]; [done|]. exists q', i', r'. simpl. rewrite lookup_insert_ne; [done|]. intros [= E]. by apply Hne.
Qed.

(** A growing transaction that is granted an exclusive lock holds it, and keeps
    what it held. *)
Lemma exclusive_granted txn fd rid lk lk' b t :
  Lock.txns lk !! txn = Some t -> state_ t = GROWING -> Lock.lock_exclusive_on_record txn rid fd lk = (Ret b, lk') ->
  (forall rid', rid' = rid \/ owns txn fd rid' lk -> owns txn fd rid' lk') /\ exists t', Lock.txns lk' !! txn = Some t' /\ same_txn t t'.
Proof.
  intros Ht Hs. unfold Lock.lock_exclusive_on_record. assert (growing txn lk (write_set_ t)) as Hg by by exists t.
  rewrite (bind_run _ _ _ _ _ (growing_check _ _ _ Hg)). cbn [negb]. destruct (get_queue_run (RecordLock fd rid) lk) as (q & lk1 & R1 & Hq & Hx & Hk).
  rewrite (bind_run _ _ _ _ _ R1). rewrite <- Hx in Ht.
  assert (forall rid', owns txn fd rid' lk -> owns txn fd rid' lk1) as Ho by (intros rid' (q' & i & r & H & H'); exists q', i, r; split; [by apply Hk|done]).
  destruct (Lock.find_request txn (request_queue_ q)) as [[i r]|] eqn:Ef.
  - destruct (decide (lock_mode_ r = EXCLUSIVE)) as [Em|_].
    { intros [= <- <-]. split; [intros rid' [->|H]; [by exists q, i, r|by apply Ho]|]. by exists t. }
    destruct (decide (group_lock_mode_ q = S /\ length (request_queue_ q) = 1%nat)); [|done]. intros [= <- <-]. destruct (find_upgraded _ _ _ _ EXCLUSIVE Ef) as (r' & Ef' & Em').
    split; [|by exists t]. intros rid' H. apply (owns_put _ _ _ _ _ _ _ i r'); [done|done|]. naive_solver.
  - destruct (decide (group_lock_mode_ q = NON_LOCK)); [|done]. unfold Lock.grant. rewrite (bind_run _ _ _ _ _ (TxnMgr.upd_txn_run _ _ _ _ Ht)). intros [= <- <-].
    destruct (find_last txn _ EXCLUSIVE Ef) as (i & Ef'). split; [|eexists; split; [simpl; apply lookup_insert_eq|by destruct t]].
    intros rid' H. eapply (owns_put _ _ _ _ _ _ _ i); [exact Ef'|done|]. naive_solver.
Qed.
Lemma shared_granted txn fd rid lk lk' b t :
  Lock.txns lk !! txn = Some t -> state_ t = GROWING -> Lock.lock_shared_on_record txn rid fd lk = (Ret b, lk') ->
  (forall rid', owns txn fd rid' lk -> owns txn fd rid' lk') /\ exists t', Lock.txns lk' !! txn = Some t' /\ same_txn t t'.
Proof.
  intros Ht Hs. unfold Lock.lock_shared_on_record. assert (growing txn lk (write_set_ t)) as Hg by by exists t.
  rewrite (bind_run _ _ _ _ _ (growing_check _ _ _ Hg)). cbn [negb]. destruct (get_queue_run (RecordLock fd rid) lk) as (q & lk1 & R1 & Hq & Hx & Hk).
  rewrite (bind_run _ _ _ _ _ R1). rewrite <- Hx in Ht.
  assert (forall rid', owns txn fd rid' lk -> owns txn fd rid' lk1) as Ho by (intros rid' (q' & i & r & H & H'); exists q', i, r; split; [by apply Hk|done]).
  destruct (Lock.find_request txn (request_queue_ q)) as [[i r]|] eqn:Ef.
  - intros [= <- <-]. split; [done|]. by exists t.
  - intros E. assert (Lock.grant txn (RecordLock fd rid) SHARED S q lk1 = (Ret b, lk')) as E' by (by destruct (group_lock_mode_ q)). clear E. revert E'.
    unfold Lock.grant. rewrite (bind_run _ _ _ _ _ (TxnMgr.upd_txn_run _ _ _ _ Ht)). intros [= <- <-]. split; [|eexists; split; [simpl; apply lookup_insert_eq|by destruct t]].
    intros rid' H. destruct (Ho rid' H) as (q' & i & r & Hq' & Hf & Hm). exists q', i, r. split; [|done]. simpl. rewrite lookup_insert_ne; [done|].
    intros E. rewrite <- E, Hq in Hq'. injection Hq' as ->. by rewrite Ef in Hf.
Qed.

(** No other transaction holds the record. *)
Definition alone (txn fd : Z) (rid : Rid) (lk : Lock.LockManager) : Prop := forall z md, z <> txn -> ~ LockFacts.holds lk z (RecordLock fd rid) md.
(** The locks of other transactions are the same. *)
Definition undisturbed (txn : Z) (lk lk' : Lock.LockManager) : Prop := forall z id md, z <> txn -> LockFacts.holds lk' z id md <-> LockFacts.holds lk z id md.

Lemma undisturbed_trans txn a b c : undisturbed txn a b -> undisturbed txn b c -> undisturbed txn a c.
Proof. intros H1 H2 z id md Hz. by rewrite (H2 z id md Hz), (H1 z id md Hz). Qed.
Lemma undisturbed_table txn a b : Lock.lock_table_ b = Lock.lock_table_ a -> undisturbed txn a b.
Proof. intros H z id md _. by apply LockSpec.holds_table. Qed.
Lemma alone_undisturbed txn fd rid a b : undisturbed txn a b -> alone txn fd rid a -> alone txn fd rid b.
Proof. intros H1 H2 z md Hz. rewrite (H1 z _ md Hz). by apply H2. Qed.
Lemma alone_granted (op : LockSpec.LockOp) txn fd rid lk t : LockFacts.inv lk -> Lock.txns lk !! txn = Some t -> state_ t = GROWING -> alone txn fd rid lk ->
  LockSpec.op_id op = RecordLock fd rid -> exists lk', LockSpec.op_run op txn lk = (Ret true, lk') /\ undisturbed txn lk lk'.
Proof.
  intros I Ht Hs Ha Hop. destruct (TxnMgr.growing_granted op txn t lk I Ht) as (lk' & _ & E & _); [by right| |].
  - intros (z & md & held & Hz & Hh & _). rewrite Hop in Hh. by apply (Ha z md).
  - exists lk'. split; [done|]. intros z id md Hz. apply (LockSpec.rr_others _ _ _ _ _ _ (LockSpec.op_result op txn lk lk' _ I E)). by left.
Qed.

(** ** A transaction at work on a table *)

Section statements.
Context {R : Type} {RO : Replacer R} {RL : ReplacerLaws R} {FO : FileSystem} {FL : FileSystemLaws} {FR : FileSystemReliable}.
Context (g : Z) (fuel : nat) (txn : Z) (name : string) (tab : TabMeta) (x size lfd i : Z).
Context (Htab : tm_indexes tab = []) (Hx : x <> lfd) (Hlfd : lfd <> -1) (Hname : Z.of_nat (length (bytes_of_string name)) <= PAGE_SIZE).
Abbreviation Eng := (Engine R).
Implicit Types s : Eng.

(** The table holds [m], the log file [l]; the transaction is [t] and has [ws]
    to undo; what was logged has been written out. *)
Record working (t : Transaction) (ws : list WriteRecord) (m : Rid -> option row) (l : list Z) (s : Eng) : Prop := {
  wk_undo : undoing txn name tab x size ws m s;
  wk_apart : apart lfd i l (en_pool s);
  wk_buffer : Log.buffer_ (en_log s) = [];
  wk_lsn : in_i32 (Log.global_lsn_ (en_log s)) = true;
  wk_txn : Lock.txns (en_locks s) !! txn = Some t;
  wk_id : in_i32 (txn_id_ t) = true;
  wk_prev : in_i32 (prev_lsn_ t) = true
}.

Lemma working_state t ws m l s : working t ws m l s -> state_ t = GROWING /\ write_set_ t = ws.
Proof. intros W. destruct (u_txn _ _ _ _ _ _ _ _ (wk_undo _ _ _ _ _ W)) as (t' & Ht & H). pose proof (wk_txn _ _ _ _ _ W). naive_solver. Qed.
Lemma working_size t ws m l s : working t ws m l s -> 1 <= size <= PAGE_SIZE.
Proof.
  intros W. destruct (u_table _ _ _ _ _ _ _ _ (wk_undo _ _ _ _ _ W)) as (tf & _ & _ & <- & F & _). destruct (tb_layout _ _ (fo_table _ F)) as [H1 H2 H3 H4].
  unfold OFF_BITMAP in *. simpl in *. nia.
Qed.

(** Changing what the transaction object holds, its locks apart. *)
Lemma working_upd (f : Transaction -> Transaction) t ws m l s : working t ws m l s ->
  lock_set_ (f t) = lock_set_ t -> state_ (f t) = state_ t -> in_i32 (txn_id_ (f t)) = true -> in_i32 (prev_lsn_ (f t)) = true ->
  (forall w, w ∈ write_set_ (f t) -> w ∈ ws \/ owns txn x (wr_rid w) (en_locks s) /\ tab_name_ w = name) ->
  exists s', on_locks (Lock.upd_txn txn f) s = (Ret tt, s') /\ working (f t) (write_set_ (f t)) m l s' /\
    en_log s' = en_log s /\ Lock.lock_table_ (en_locks s') = Lock.lock_table_ (en_locks s).
Proof.
  intros W H1 H2 H3 H4 H5. destruct (working_state _ _ _ _ _ W) as [Hst _]. destruct W as [[(tf & Ht & X & Hs & F & L) U2 U3 U4 U5] A B G T _ _].
  set (lk := Lock.set_txns (<[txn := f t]> (Lock.txns (en_locks s))) (en_locks s)).
  exists (set_locks lk s). split; [by apply (zoom_run en_locks set_locks), TxnMgr.upd_txn_run|]. split; [|done].
  assert (LockFacts.inv lk) as Il.
  { apply (LockSpec.inv_txns (en_locks s)); [apply (fo_locks _ F)|done|]. intros y u Hu. simpl.
    destruct (decide (y = txn)) as [->|Hne]; [rewrite lookup_insert_eq|rewrite lookup_insert_ne by done; by exists u].
    eexists. split; [done|]. congruence. }
  destruct (file_ok_locks (table_of tf s) lk F Il) as [F1 L1]. split; try done; [|apply lookup_insert_eq]. split; try done.
  - by exists tf.
  - exists (f t). simpl. rewrite lookup_insert_eq. split_and!; congruence.
  - intros w Hw. destruct (H5 w Hw) as [Hin|[Ho _]]; [by apply U4|done].
  - intros w Hw. destruct (H5 w Hw) as [Hin|[_ Hn]]; [by apply U5|done].
Qed.

(** ** Logging *)

(** The record as it is written: with its sequence number and the link to the
    previous record of the transaction. *)
Definition logged (t : Transaction) (s : Eng) (r : Log.LogRecord) : Log.LogRecord :=
  Log.map_hdr (Log.set_lsn (Log.global_lsn_ (en_log s))) (Log.map_hdr (Log.set_prev (prev_lsn_ t)) r).

Lemma working_log t ws m l s r : working t ws m l s -> LogFacts.log_wf r -> Log.log_tot_len_ (Log.hdr r) <= LOG_BUFFER_SIZE ->
  exists s' t', log_txn txn r s = (Ret tt, s') /\ working t' ws m (l ++ LogFacts.bytes (logged t s r)) s' /\ Lock.lock_table_ (en_locks s') = Lock.lock_table_ (en_locks s) /\
    txn_id_ t' = txn_id_ t /\ prev_lsn_ t' = Log.global_lsn_ (en_log s) /\ Log.global_lsn_ (en_log s') = wrap_s 32 (Log.global_lsn_ (en_log s) + 1).
Proof.
  intros W Hr Hlen. destruct (working_state _ _ _ _ _ W) as [Hst Hws]. pose proof W as [[(tf & Ht & X & Hs & F & L) U2 U3 U4 U5] A B G T Hid Hp].
  set (r1 := Log.map_hdr (Log.set_prev (prev_lsn_ t)) r).
  assert (LogFacts.log_ready (the_log s) l) as Hready.
  { split; [done|]. destruct A as [(A1 & A2 & A3 & A4) _]. simpl. split; [by rewrite A1|]. exists i. by rewrite A1. }
  destruct (LogFacts.add_log_ok (the_log s) l r1 Hready) as (lm & R1 & Hr1 & Hg & Ho); [by apply LogFacts.log_wf_prev|by destruct r|done|].
  set (s1 := put_log lm s).
  assert (working t ws m (l ++ LogFacts.bytes (logged t s r)) s1) as W1.
  { destruct (log_write_table lfd i l (en_pool s) (Log.lm_disk lm) A Ho (table_of tf s) eq_refl) as [F1 L1]; [simpl; by rewrite X|done|]. split; try done.
    - split; try done. exists tf. split_and!; try done. intros q. by rewrite <- L, <- L1.
    - destruct A as [(A1 & A2 & A3 & A4) A5], Ho as (O1 & O2 & O3 & _). split; [|done]. destruct Hr1 as [_ (_ & j & J1 & J2)].
      split; [by rewrite <- A1|]. split; [intros y z k; simpl; rewrite !O2; apply A2|]. simpl in *. rewrite O2. split; [done|].
      rewrite O1, A1, O2 in J1. assert (j = i) as -> by congruence. exact J2.
    - apply Hr1.
    - simpl. rewrite Hg. apply wrap_s_range. }
  destruct (working_upd (set_prev_lsn (Log.global_lsn_ (en_log s))) t ws m _ s1 W1) as (s2 & R2 & W2 & G2 & K2); [by destruct t|by destruct t|by destruct t|by destruct t|intros w Hw; left; by destruct t; simpl in *; subst|].
  exists s2, (set_prev_lsn (Log.global_lsn_ (en_log s)) t). split_and!.
  - unfold log_txn. rewrite (bind_run _ _ _ _ _ (the_txn_run txn t s T)). rewrite (bind_run _ _ s s1 (Log.global_lsn_ (en_log s), logged t s r)); [exact R2|].
    unfold on_log. by apply (zoom_run the_log put_log).
  - replace ws with (write_set_ (set_prev_lsn (Log.global_lsn_ (en_log s)) t)) by by destruct t. exact W2.
  - done.
  - by destruct t.
  - by destruct t.
  - by rewrite G2.
Qed.

(** ** The table *)

Lemma put_table_same tf s : fhs_ s !! name = Some tf -> put_table name (table_of tf s) s = s.
Proof. intros H. destruct s, tf. unfold put_table, table_of, set_fhs, set_locks, set_pool in *. simpl in *. by rewrite insert_id. Qed.
Lemma record_len_run t ws m l s : working t ws m l s -> record_len name s = (Ret size, s).
Proof.
  intros W. destruct (u_table _ _ _ _ _ _ _ _ (wk_undo _ _ _ _ _ W)) as (tf & Ht & _ & Hs & _). unfold record_len.
  rewrite (on_table_run name _ tf s (Ret size) (table_of tf s) Ht) by (rewrite <- Hs; reflexivity). by rewrite (put_table_same tf).
Qed.

(** The next free page of the table exists or can be made. *)
Definition has_room (s : Eng) : Prop := forall tf, fhs_ s !! name = Some tf -> room (table_of tf s).

(** An operation of the table after which the locks are [lk]. *)
Lemma working_table t t' ws m m' l s h tf : working t ws m l s -> fhs_ s !! name = Some tf -> same_txn t t' ->
  file_ok h -> table_apart lfd i l x h -> record_size (Rm.file_hdr_ h) = size -> (forall q, lookup h q = m' q) ->
  Lock.txns (Rm.rm_locks h) !! txn = Some t' -> (forall q, owns txn x q (en_locks s) -> owns txn x q (Rm.rm_locks h)) ->
  working t' ws m' l (put_table name h s).
Proof.
  intros W Ht (E1 & E2 & E3 & E4) F [A X] Hs L T O. destruct (working_state _ _ _ _ _ W) as [Hst Hws]. destruct W as [[_ U2 U3 U4 U5] _ B G _ I1 I2]. split; try done; [|congruence..].
  split; simpl; try done.
  - exists (mkTF (Rm.fd_ h) (Rm.file_hdr_ h)). rewrite lookup_insert_eq. split_and!; try done; by destruct h.
  - exists t'. split_and!; congruence.
  - intros w Hw. apply O, U4, Hw.
Qed.

Lemma lookup_rid_ok (h : Rm.RmFileHandle (BufferPoolManager R)) rid r : file_ok h -> lookup h rid = Some r -> LogFacts.rid_ok rid.
Proof.
  intros F L. destruct (lookup_Some_inv _ _ _ L) as (Hn & Hsl & _). pose proof (fo_small _ F) as Hsm.
  pose proof (per_page_small _ (tb_layout _ _ (fo_table _ F))). unfold in_page, PAGE_SIZE, LogFacts.rid_ok, in_i32, INT32_MIN, INT32_MAX in *. lia.
Qed.
Lemma working_insert t ws m l s rec : working t ws m l s -> has_room s -> Z.of_nat (length rec) = size ->
  exists rid, m rid = None /\
    match Lock.lock_exclusive_on_record txn rid x (en_locks s) with
    | (Ret _, _) => exists t' s', on_table name (Rm.insert_record rec (Some txn)) s = (Ret rid, s') /\ working t' ws (put rid (Some rec) m) l s' /\
        en_log s' = en_log s /\ same_txn t t' /\ owns txn x rid (en_locks s') /\ LogFacts.rid_ok rid /\ undisturbed txn (en_locks s) (en_locks s')
    | (Throw e, lk) => exists s' tf, on_table name (Rm.insert_record rec (Some txn)) s = (Throw e, s') /\ en_log s' = en_log s /\ en_locks s' = lk /\
        apart lfd i l (en_pool s') /\ fhs_ s' !! name = Some tf /\ forall q, lookup (table_of tf s') q = m q
    | (Stuck _, _) => False
    end.
Proof.
  intros W Hroom Hlen. pose proof W as [[(tf & Ht & X & Hs & F & L) U2 U3 U4 U5] A B G T Hid Hp]. destruct (working_state _ _ _ _ _ W) as [Hst Hws].
  destruct (insert_record_any (table_of tf s) rec txn F (Hroom tf Ht)) as (rid & Hnone & H); [simpl; lia|by exists t|]. exists rid. rewrite <- L. split; [done|].
  simpl in H. rewrite X in H. assert (table_apart lfd i l x (table_of tf s)) as TA by by split.
  destruct (Lock.lock_exclusive_on_record txn rid x (en_locks s)) as [[b|e|w] lk] eqn:El; [| |done].
  - destruct H as (h & R1 & F1 & K1 & (Y1 & Y2 & Y3) & L1). destruct (keeps_insert lfd i l x Hx rec (Some txn) _ _ _ TA R1) as [TA1 _].
    destruct (exclusive_granted _ _ _ _ _ _ _ T Hst El) as (O & t' & T' & S'). exists t', (put_table name h s). split; [by apply (on_table_run name _ tf)|].
    pose proof (LockSpec.op_result (LockSpec.ExclusiveOnRecord rid x) txn _ _ _ (fo_locks _ F) El) as [_ Hoth _ _].
    rewrite <- K1 in *. split_and!; [|done|done|by apply O; left| |intros z id md Hz; apply Hoth; by left].
    + apply (working_table t t' ws m _ l s h tf W Ht S' F1 TA1); [congruence| |done|intros q Hq; by apply O; right].
      intros q. rewrite L1. unfold put. rewrite L. by rewrite Hs, take_ge by lia.
    + apply (lookup_rid_ok h _ rec F1). by rewrite L1, decide_True, Hs, take_ge by (done || lia).
  - destruct H as (h & R1 & K1 & _ & L1). destruct (keeps_insert lfd i l x Hx rec (Some txn) _ _ _ TA R1) as [[A1 X1] _].
    exists (put_table name h s), (mkTF (Rm.fd_ h) (Rm.file_hdr_ h)). split; [by apply (on_table_run name _ tf)|]. split_and!; [done|done|done|by apply lookup_insert_eq|].
    intros q. rewrite <- L, <- L1. by destruct h.
Qed.

(** What reading, updating and deleting a record that nobody else holds does. *)
Lemma working_get t ws m l s rid r : working t ws m l s -> m rid = Some r -> alone txn x rid (en_locks s) ->
  exists t' s', on_table name (Rm.get_record rid (Some txn)) s = (Ret r, s') /\ working t' ws m l s' /\ same_txn t t' /\ en_log s' = en_log s /\
    undisturbed txn (en_locks s) (en_locks s').
Proof.
  intros W Hr Ha. pose proof W as [[(tf & Ht & X & Hs & F & L) U2 U3 U4 U5] A B G T Hid Hp]. destruct (working_state _ _ _ _ _ W) as [Hst Hws].
  destruct (alone_granted (LockSpec.SharedOnRecord rid x) txn x rid (en_locks s) t (fo_locks _ F) T Hst Ha eq_refl) as (lk & El & D). simpl in El.
  rewrite <- L in Hr. pose proof (get_record_any (table_of tf s) rid r txn F Hr ltac:(by exists t)) as H. simpl in H. rewrite X, El in H.
  destruct H as (h & R1 & F1 & K1 & L1 & H1 & X1). destruct (keeps_get lfd i l x Hx rid (Some txn) (table_of tf s) (Ret r) h ltac:(by split) R1) as [TA1 _].
  destruct (shared_granted _ _ _ _ _ _ _ T Hst El) as (O & t' & T' & S'). exists t', (put_table name h s). rewrite <- K1 in *.
  split_and!; [by apply (on_table_run name _ tf)| |done|done|done].
  apply (working_table t t' ws m m l s h tf W Ht S' F1 TA1); [by rewrite H1| |done|done]. intros q. by rewrite L1.
Qed.
Lemma working_write {A} (op : M (Rm.RmFileHandle (BufferPoolManager R)) A) (a : A) t ws m m' l s tf rid : working t ws m l s -> fhs_ s !! name = Some tf ->
  alone txn x rid (en_locks s) -> keeps (table_apart lfd i l x) op any ->
  (forall lk, Lock.lock_exclusive_on_record txn rid x (en_locks s) = (Ret true, lk) -> exists h, op (table_of tf s) = (Ret a, h) /\ file_ok h /\ Rm.rm_locks h = lk /\
    same_layout (tf_hdr tf) (Rm.file_hdr_ h) /\ forall q, lookup h q = m' q) ->
  exists t' s', on_table name op s = (Ret a, s') /\ working t' ws m' l s' /\ same_txn t t' /\
    en_log s' = en_log s /\ undisturbed txn (en_locks s) (en_locks s') /\ owns txn x rid (en_locks s').
Proof.
  intros W Ht Ha Hk Hop. pose proof W as [[(tf' & Ht' & X & Hs & F & L) U2 U3 U4 U5] A1 B G T Hid Hp]. rewrite Ht in Ht'. injection Ht' as <-.
  destruct (working_state _ _ _ _ _ W) as [Hst Hws].
  destruct (alone_granted (LockSpec.ExclusiveOnRecord rid x) txn x rid (en_locks s) t (fo_locks _ F) T Hst Ha eq_refl) as (lk & El & D). simpl in El.
  destruct (Hop lk El) as (h & R1 & F1 & K1 & (Y1 & Y2 & Y3) & L1). destruct (Hk (table_of tf s) (Ret a) h ltac:(by split) R1) as [TA1 _].
  destruct (exclusive_granted _ _ _ _ _ _ _ T Hst El) as (O & t' & T' & S'). exists t', (put_table name h s). rewrite <- K1 in *.
  split_and!; [by apply (on_table_run name _ tf)| |done|done|done|by apply O; left].
  apply (working_table t t' ws m m' l s h tf W Ht S' F1 TA1); [congruence|done|done|]. intros q Hq. by apply O; right.
Qed.
Lemma working_update t ws m l s rid r rec : working t ws m l s -> m rid = Some r -> alone txn x rid (en_locks s) -> Z.of_nat (length rec) = size ->
  exists t' s', on_table name (Rm.update_record rid rec (Some txn)) s = (Ret tt, s') /\ working t' ws (put rid (Some rec) m) l s' /\ same_txn t t' /\
    en_log s' = en_log s /\ undisturbed txn (en_locks s) (en_locks s') /\ owns txn x rid (en_locks s').
Proof.
  intros W Hr Ha Hlen. destruct (u_table _ _ _ _ _ _ _ _ (wk_undo _ _ _ _ _ W)) as (tf & Ht & X & Hs & F & L).
  apply (working_write _ _ t ws m _ l s tf rid W Ht Ha (keeps_update _ _ _ _ Hx _ _ _)). intros lk El.
  pose proof (update_record_any (table_of tf s) rid r rec txn F) as H. rewrite L in H. specialize (H Hr ltac:(simpl; lia) ltac:(exists t; apply W)). simpl in H. rewrite X, El in H.
  destruct H as (h & R1 & F1 & K1 & X1 & Y & L1). exists h. split_and!; try done. intros q. rewrite L1. unfold put. rewrite L. by rewrite Hs, take_ge by lia.
Qed.
Lemma working_delete t ws m l s rid r : working t ws m l s -> m rid = Some r -> alone txn x rid (en_locks s) ->
  exists t' s', on_table name (Rm.delete_record rid (Some txn)) s = (Ret tt, s') /\ working t' ws (put rid None m) l s' /\ same_txn t t' /\
    en_log s' = en_log s /\ undisturbed txn (en_locks s) (en_locks s') /\ owns txn x rid (en_locks s').
Proof.
  intros W Hr Ha. destruct (u_table _ _ _ _ _ _ _ _ (wk_undo _ _ _ _ _ W)) as (tf & Ht & X & Hs & F & L).
  apply (working_write _ _ t ws m _ l s tf rid W Ht Ha (keeps_delete _ _ _ _ Hx _ _)). intros lk El.
  pose proof (delete_record_any (table_of tf s) rid r txn F) as H. rewrite L in H. specialize (H Hr ltac:(exists t; apply W)). simpl in H. rewrite X, El in H.
  destruct H as (h & R1 & F1 & K1 & X1 & Y & L1). exists h. split_and!; try done. intros q. rewrite L1. unfold put. by rewrite L.
Qed.
(** Records have the size the header says, at positions that fit a log record. *)
Lemma working_row t ws m l s rid r : working t ws m l s -> m rid = Some r -> Z.of_nat (length r) = size /\ LogFacts.rid_ok rid.
Proof.
  intros W Hr. destruct (u_table _ _ _ _ _ _ _ _ (wk_undo _ _ _ _ _ W)) as (tf & Ht & X & Hs & F & L). rewrite <- L in Hr. split.
  - destruct (lookup_Some_inv _ _ _ Hr) as (Hn & Hsl & _ & ->). pose proof (tb_layout _ _ (fo_table _ F)) as Lo. destruct (slot_off_bounds _ Lo _ Hsl) as [B1 B2].
    pose proof (lo_size _ Lo). pose proof (lo_n _ Lo). pose proof (lo_bitmap _ Lo). unfold raw_slot. rewrite length_slice; [simpl in *; lia|]. rewrite (file_page_len _ _ F Hn). unfold Disk.page_len, PAGE_SIZE in *. lia.
  - by apply (lookup_rid_ok _ _ _ F Hr).
Qed.

(** ** Insertion *)

Ltac small := cbn -[Z.add Z.mul]; unfold Log.SIZEOF_Rid, PAGE_SIZE in *; lia.

Lemma write_length o d l l' : Values.write o d l = Ret l' -> length l' = length l.
Proof. unfold Values.write. destruct (mem_write o d l) as [r|] eqn:E; [|done]. intros [= <-]. by apply length_mem_write in E. Qed.
Lemma put_values_length cs vs rec vs' rec' : put_values g cs vs rec = Ret (vs', rec') -> length rec' = length rec.
Proof.
  revert vs rec vs' rec'. induction cs as [|c cs IH]; intros [|v vs] rec vs' rec'; try (by intros [= <- <-]). cbn [put_values].
  intros ([v1 rec1] & H1 & ([vs1 rec2] & H2 & [= <- <-])%obind_Ret)%obind_Ret. rewrite (IH _ _ _ _ H2). unfold put_value in H1. destruct (negb _); [done|].
  apply obind_Ret in H1 as (? & _ & (? & _ & (? & _ & (rec3 & H3 & [= _ <-])%obind_Ret)%obind_Ret)%obind_Ret). by apply write_length in H3.
Qed.

(** What a statement logs fits the buffer. *)
Lemma small_log_wf t ws m l s r : working t ws m l s -> Log.hdr r = Log.new_hdr (LogFacts.kind r) (txn_id_ t) (LogFacts.payload r) -> LogFacts.body_ok r ->
  LogFacts.payload r <= 4 * PAGE_SIZE -> LogFacts.log_wf r /\ Log.log_tot_len_ (Log.hdr r) <= LOG_BUFFER_SIZE.
Proof.
  intros W Hh Hb Hp. pose proof (LogFacts.length_body_bytes r Hb) as Hl.
  assert (Log.log_tot_len_ (Log.hdr r) = Log.LOG_HEADER_SIZE + LogFacts.payload r /\ Log.LOG_HEADER_SIZE + LogFacts.payload r <= LOG_BUFFER_SIZE) as [E1 E2].
  { rewrite Hh. unfold Log.LOG_HEADER_SIZE, Log.OFFSET_LOG_DATA, LOG_BUFFER_SIZE, PAGE_SIZE, wrap_u in *. cbn -[Z.mul Z.add Z.modulo]. unfold wrap_u. rewrite Z.mod_small; unfold Log.LOG_HEADER_SIZE, Log.OFFSET_LOG_DATA; lia. }
  split; [|lia]. split; try done; try (by rewrite Hh); [unfold LOG_BUFFER_SIZE, PAGE_SIZE in E2; lia|rewrite Hh; apply W].
Qed.
Lemma row_ok t ws m l s (r : row) : working t ws m l s -> Z.of_nat (length r) = size -> LogFacts.rec_ok (Log.mkRec size r).
Proof. intros W H. pose proof (working_size _ _ _ _ _ W). split; [done|]. unfold in_i32, INT32_MIN, INT32_MAX, PAGE_SIZE in *. simpl. lia. Qed.
Lemma append_run w t ws m l s : working t ws m l s -> owns txn x (wr_rid w) (en_locks s) -> tab_name_ w = name ->
  exists t' s', append_write txn w s = (Ret tt, s') /\ working t' (ws ++ [w]) m l s' /\ prev_lsn_ t' = prev_lsn_ t /\ txn_id_ t' = txn_id_ t /\
    en_log s' = en_log s /\ Lock.lock_table_ (en_locks s') = Lock.lock_table_ (en_locks s).
Proof.
  intros W Ho Hn. destruct (working_state _ _ _ _ _ W) as [_ Hws]. destruct (working_upd (append_write_record w) t ws m l s W) as (s' & R1 & W1 & G1 & K1).
  - by destruct t.
  - by destruct t.
  - destruct t. apply W.
  - destruct t. apply W.
  - intros w' Hw. destruct t. simpl in *. subst. apply elem_of_app in Hw as [Hw|Hw%list_elem_of_singleton]; [by left|right; by subst].
  - exists (append_write_record w t), s'. split; [done|]. destruct t. simpl in *. by subst.
Qed.

(** C18: [InsertExecutor::Next] on a table without indexes.  Values that do not
    fit the columns are refused with nothing changed.  Otherwise the record they
    form goes to a position that was free: if its lock is granted the table gains
    exactly this record, the log file gains exactly its insert record, linked to
    the previous record of the transaction, the write set gains the entry, no lock
    of another transaction changes, and rolling back from there takes the table to
    what it was when the transaction started; if the lock is refused the table and
    the log stay as they were and the lock manager has merely seen the request. *)
Theorem insert_statement_correct t ws m l s vals r0 : working t ws m l s -> has_room s ->
  let stmt := insert_next g fuel txn (mkInsert tab vals name r0) in
  match put_values g (tm_cols tab) vals (replicate (Z.to_nat size) g) with
  | Ret (vs, rec) => exists rid, m rid = None /\
      match Lock.lock_exclusive_on_record txn rid x (en_locks s) with
      | (Ret _, _) => exists t' s', stmt s = (Ret (mkInsert tab vs name rid), s') /\ prev_lsn_ t' = Log.global_lsn_ (en_log s) /\
          working t' (ws ++ [mkWriteRecord INSERT_TUPLE name rid []]) (put rid (Some rec) m)
            (l ++ LogFacts.bytes (logged t s (Log.insert_record (txn_id_ t) (Log.mkRec size rec) rid (bytes_of_string name)))) s' /\
          undisturbed txn (en_locks s) (en_locks s') /\
          forall m0, writes (Z.to_nat size) m0 ws m -> exists s'', rollback fuel txn (length ws + 1) s' = (Ret tt, s'') /\ undoing txn name tab x size [] m0 s''
      | (Throw e, lk) => exists s' tf, stmt s = (Throw e, s') /\ en_locks s' = lk /\ en_log s' = en_log s /\
          apart lfd i l (en_pool s') /\ fhs_ s' !! name = Some tf /\ forall q, lookup (table_of tf s') q = m q
      | (Stuck _, _) => False
      end
  | Throw e => stmt s = (Throw e, s)
  | Stuck w => stmt s = (Stuck w, s)
  end.
Proof.
  intros W Hroom stmt. unfold stmt, insert_next. cbn [ie_tab ie_tab_name ie_values]. rewrite (bind_run _ _ _ _ _ (record_len_run _ _ _ _ _ W)).
  destruct (put_values g (tm_cols tab) vals (replicate (Z.to_nat size) g)) as [[vs rec]|e|w] eqn:Ep; [|done..]. pose proof (working_size _ _ _ _ _ W) as Hsz.
  pose proof (put_values_length _ _ _ _ _ Ep) as Hlen. rewrite length_replicate in Hlen.
  destruct (working_insert t ws m l s rec W Hroom ltac:(lia)) as (rid & Hnone & H). exists rid. split; [done|].
  assert (forall B (k : list Value * list Z -> M Eng B), (lift (Ret (vs, rec)) ≫= k) s = k (vs, rec) s) as -> by done. rewrite Htab. erewrite bind_run by reflexivity.
  destruct (Lock.lock_exclusive_on_record txn rid x (en_locks s)) as [[b|e|w] lk]; [| |done].
  - destruct H as (t1 & s1 & R1 & W1 & G1 & (I1 & P1 & _ & _) & O1 & Hrid & D1). pose proof (row_ok _ _ _ _ _ rec W1 ltac:(lia)) as Hrow.
    destruct (small_log_wf t1 _ _ _ _ (Log.insert_record (txn_id_ t1) (Log.mkRec size rec) rid (bytes_of_string name)) W1) as [Hwf Htot]; [done|done|small|].
    destruct (working_log _ _ _ _ _ _ W1 Hwf Htot) as (s2 & t2 & R2 & W2 & K2 & I2 & P2 & _).
    set (w := mkWriteRecord INSERT_TUPLE name rid []).
    assert (owns txn x (wr_rid w) (en_locks s2)) as O2 by (destruct O1 as (q & j & r & H); exists q, j, r; by rewrite K2).
    destruct (append_run w _ _ _ _ _ W2 O2 eq_refl) as (t3 & s3 & R3 & W3 & P3 & _ & _ & K3). exists t3, s3. split_and!.
    + rewrite (bind_run _ _ _ _ _ R1), (bind_run _ _ _ _ _ (the_txn_run txn t1 s1 (wk_txn _ _ _ _ _ W1))), (bind_run _ _ _ _ _ R2).
      erewrite bind_run by reflexivity. by rewrite (bind_run _ _ _ _ _ R3).
    + by rewrite P3, P2, G1.
    + unfold logged in *. by rewrite G1, I1, P1 in W3.
    + eapply undisturbed_trans; [exact D1|]. apply undisturbed_table. congruence.
    + intros m0 Hm. destruct (rollback_ok fuel txn name tab x size Htab m0 (ws ++ [w]) ltac:(lia) _ s3 (wk_undo _ _ _ _ _ W3)) as (s4 & R4 & U4).
      * by apply (writes_insert _ _ ws w m _ rec).
      * rewrite length_app in R4. by exists s4.
  - destruct H as (s1 & tf & R1 & H1 & H2 & H3 & H4 & H5). exists s1, tf. split_and!; try done. by rewrite (bind_throw _ _ _ _ _ R1).
Qed.

(** ** Update *)

Lemma apply_clauses_length target cs rec rec' : apply_clauses g tab target rec cs = Ret rec' -> length rec' = length rec.
Proof.
  revert rec. induction cs as [|c cs IH]; intros rec; [by intros [= <-]|]. cbn [apply_clauses]. intros (rec1 & H1 & H2)%obind_Ret. rewrite (IH _ H2).
  apply obind_Ret in H1 as (c0 & _ & H1). cbv zeta in H1. destruct (is_compatible_type (cm_type c0) (v_type (sc_rhs c))); cbn [negb] in H1; [|done]. apply obind_Ret in H1 as (? & _ & (? & _ & (? & _ & H1)%obind_Ret)%obind_Ret). by apply write_length in H1.
Qed.

(** The log records of a statement: each links to the one before. *)
Fixpoint chained (prev lsn : Z) (rs : list Log.LogRecord) : list Z :=
  match rs with
  | [] => []
  | r :: rs => LogFacts.bytes (Log.map_hdr (Log.set_lsn lsn) (Log.map_hdr (Log.set_prev prev) r)) ++ chained lsn (wrap_s 32 (lsn + 1)) rs
  end.

(** A row that a statement changes: its record before and after, [None] when it
    is deleted. *)
Record change : Type := mkChange { ch_rid : Rid; ch_old : row; ch_new : option row }.
Definition applied (cs : list change) (m : Rid -> option row) : Rid -> option row := foldl (fun m c => put (ch_rid c) (ch_new c) m) m cs.

(** [one] carries out a change: it leaves a write record and a log record. *)
Definition carries_out (one : Rid -> M Eng unit) (entry : change -> WriteRecord) (log : Z -> change -> Log.LogRecord) (c : change) : Prop :=
  forall t ws m l s, working t ws m l s -> m (ch_rid c) = Some (ch_old c) -> alone txn x (ch_rid c) (en_locks s) ->
  exists t' s', one (ch_rid c) s = (Ret tt, s') /\
    working t' (ws ++ [entry c]) (put (ch_rid c) (ch_new c) m) (l ++ LogFacts.bytes (logged t s (log (txn_id_ t) c))) s' /\
    undisturbed txn (en_locks s) (en_locks s') /\ txn_id_ t' = txn_id_ t /\ prev_lsn_ t' = Log.global_lsn_ (en_log s) /\
    Log.global_lsn_ (en_log s') = wrap_s 32 (Log.global_lsn_ (en_log s) + 1).

Lemma rows_ok one entry log cs : Forall (carries_out one entry log) cs -> NoDup (ch_rid <$> cs) ->
  forall t ws m l s, working t ws m l s -> (forall c, c ∈ cs -> m (ch_rid c) = Some (ch_old c) /\ alone txn x (ch_rid c) (en_locks s)) ->
  exists t' s', forM (ch_rid <$> cs) one s = (Ret tt, s') /\
    working t' (ws ++ (entry <$> cs)) (applied cs m) (l ++ chained (prev_lsn_ t) (Log.global_lsn_ (en_log s)) (log (txn_id_ t) <$> cs)) s'.
Proof.
  induction cs as [|c cs IH]; intros Hone Hnd t ws m l s W Hcs.
  - exists t, s. split; [done|]. cbn [fmap list_fmap chained]. by rewrite !app_nil_r.
  - apply Forall_cons in Hone as [Hc Hone]. cbn [fmap list_fmap] in Hnd. apply NoDup_cons in Hnd as [Hni Hnd].
    destruct (Hcs c ltac:(left)) as [Hr Ha]. destruct (Hc _ _ _ _ _ W Hr Ha) as (t1 & s1 & R1 & W1 & D1 & I1 & P1 & N1).
    destruct (IH Hone Hnd _ _ _ _ _ W1) as (t2 & s2 & R2 & W2).
    { intros c' Hin. destruct (Hcs c' ltac:(by right)) as [Hr' Ha']. split; [|by apply (alone_undisturbed _ _ _ _ _ D1)].
      unfold put. rewrite decide_False; [done|]. intros E. apply Hni. rewrite <- E. by apply list_elem_of_fmap_2. }
    exists t2, s2. split; [cbn [fmap list_fmap forM]; by rewrite (bind_run _ _ _ _ _ R1)|].
    rewrite <- !app_assoc, I1, P1, N1 in W2. exact W2.
Qed.

Definition update_entry (c : change) : WriteRecord := mkWriteRecord UPDATE_TUPLE name (ch_rid c) (ch_old c).
Definition update_log (id : Z) (c : change) : Log.LogRecord :=
  Log.update_record id (Log.mkRec size (ch_old c)) (Log.mkRec size (default [] (ch_new c))) (ch_rid c) (bytes_of_string name).

Lemma update_one_ok sets c new : ch_new c = Some new -> apply_clauses g tab (ch_old c) (ch_old c) sets = Ret new ->
  carries_out (update_one g fuel txn tab name sets) update_entry update_log c.
Proof.
  destruct c as [rid old nw]. cbn [ch_rid ch_old ch_new]. intros -> Hc t ws m l s W Hr Ha. cbn [ch_rid ch_old ch_new] in *. destruct (working_row _ _ _ _ _ _ _ W Hr) as [Hlo Hrid].
  pose proof (apply_clauses_length _ _ _ _ Hc) as Hln. pose proof (working_size _ _ _ _ _ W) as Hsz.
  destruct (working_get _ _ _ _ _ _ _ W Hr Ha) as (t1 & s1 & R1 & W1 & (I1 & P1 & _ & _) & G1 & D1).
  pose proof (row_ok _ _ _ _ _ old W1 ltac:(lia)) as Ho. pose proof (row_ok _ _ _ _ _ new W1 ltac:(lia)) as Hn.
  destruct (small_log_wf t1 _ _ _ _ (update_log (txn_id_ t1) (mkChange rid old (Some new))) W1) as [Hwf Htot]; [done|done|small|].
  destruct (working_log _ _ _ _ _ _ W1 Hwf Htot) as (s2 & t2 & R2 & W2 & K2 & I2 & P2 & N2).
  pose proof (undisturbed_trans _ _ _ _ D1 (undisturbed_table txn _ _ K2)) as D2.
  destruct (working_update _ _ _ _ _ _ _ new W2 Hr (alone_undisturbed _ _ _ _ _ D2 Ha) ltac:(lia)) as (t3 & s3 & R3 & W3 & (I3 & P3 & _ & _) & G3 & D3 & O3).
  destruct (append_run (update_entry (mkChange rid old (Some new))) _ _ _ _ _ W3 O3 eq_refl) as (t4 & s4 & R4 & W4 & P4 & I4 & G4 & K4). exists t4, s4. split_and!.
  - unfold update_one. rewrite (bind_run _ _ _ _ _ R1), (bind_run _ _ _ _ _ (record_len_run _ _ _ _ _ W1)).
    assert (Values.read 0 size old = Ret old) as Er.
    { unfold Values.read. rewrite (proj2 (mem_read_Some 0 size old old)); [done|]. split_and!; [lia|lia|lia|]. rewrite slice_all; [done|lia]. }
    rewrite Er. rewrite (bind_run _ _ s1 s1 old) by reflexivity. rewrite Hc. rewrite (bind_run _ _ s1 s1 new) by reflexivity. rewrite Htab. erewrite bind_run by reflexivity.
    rewrite (bind_run _ _ _ _ _ (the_txn_run txn t1 s1 (wk_txn _ _ _ _ _ W1))), Hlo, (bind_run _ _ _ _ _ R2).
    erewrite bind_run by reflexivity. by rewrite (bind_run _ _ _ _ _ R3).
  - unfold logged in *. by rewrite G1, I1, P1 in W4.
  - eapply undisturbed_trans; [exact D2|]. eapply undisturbed_trans; [exact D3|]. by apply undisturbed_table.
  - congruence.
  - congruence.
  - congruence.
Qed.

(** Undoing the updates of a statement, in the sense of [writes]. *)
Lemma writes_applied m0 cs : forall ws m, (forall c, c ∈ cs -> is_Some (ch_new c) /\ Z.of_nat (length (ch_old c)) = size /\ m (ch_rid c) = Some (ch_old c)) ->
  NoDup (ch_rid <$> cs) -> writes (Z.to_nat size) m0 ws m -> writes (Z.to_nat size) m0 (ws ++ (update_entry <$> cs)) (applied cs m).
Proof.
  induction cs as [|c cs IH]; intros ws m Hcs Hnd Hw; [by rewrite app_nil_r|]. cbn [fmap list_fmap] in *. apply NoDup_cons in Hnd as [Hni Hnd].
  destruct (Hcs c ltac:(left)) as ([new Hnew] & Hlen & Hold). rewrite cons_middle, app_assoc. apply IH; [|done|].
  - intros c' Hin. destruct (Hcs c' ltac:(by right)) as (H1 & H2 & H3). split_and!; [done|done|]. unfold put. rewrite decide_False; [done|].
    intros E. apply Hni. rewrite <- E. by apply list_elem_of_fmap_2.
  - apply (writes_update _ _ ws (update_entry c) m _ new); [done|done|done|simpl; lia|]. intros q. by rewrite Hnew.
Qed.

(** C20: [UpdateExecutor::Next] on a table without indexes.  When the set clauses
    give every chosen row its new record, and no other transaction holds one of
    these rows, the table afterwards holds exactly the new records at the chosen
    positions and what it held elsewhere; the log file gains one update record
    per row, with old and new contents, in order and linked to each other; the
    write set gains the old contents in order; and rolling back from there
    returns to the table the transaction started from. *)
Theorem update_statement_correct t ws m l s conds sets cs : working t ws m l s -> NoDup (ch_rid <$> cs) ->
  (forall c, c ∈ cs -> m (ch_rid c) = Some (ch_old c) /\ alone txn x (ch_rid c) (en_locks s) /\
    exists new, ch_new c = Some new /\ apply_clauses g tab (ch_old c) (ch_old c) sets = Ret new) ->
  exists t' s', update_next g fuel txn (mkUpdate tab conds (ch_rid <$> cs) name sets) s = (Ret tt, s') /\
    working t' (ws ++ (update_entry <$> cs)) (applied cs m) (l ++ chained (prev_lsn_ t) (Log.global_lsn_ (en_log s)) (update_log (txn_id_ t) <$> cs)) s' /\
    forall m0, writes (Z.to_nat size) m0 ws m -> exists s'', rollback fuel txn (length ws + length cs) s' = (Ret tt, s'') /\ undoing txn name tab x size [] m0 s''.
Proof.
  intros W Hnd Hcs. destruct (rows_ok (update_one g fuel txn tab name sets) update_entry update_log cs) with t ws m l s as (t' & s' & R1 & W1); [|done|done|naive_solver|].
  { apply Forall_forall. intros c Hc. destruct (Hcs c Hc) as (_ & _ & new & H1 & H2). by apply (update_one_ok sets c new). }
  exists t', s'. split_and!; [done|done|]. intros m0 Hm. pose proof (working_size _ _ _ _ _ W) as Hsz.
  destruct (rollback_ok fuel txn name tab x size Htab m0 (ws ++ (update_entry <$> cs)) ltac:(lia) _ s' (wk_undo _ _ _ _ _ W1)) as (s2 & R2 & U2).
  - apply writes_applied; [|done|done]. intros c Hc. destruct (Hcs c Hc) as (H1 & _ & new & H2 & _). destruct (working_row _ _ _ _ _ _ _ W H1) as [H3 _]. split_and!; [by eexists|done|done].
  - rewrite length_app, length_fmap in R2. by exists s2.
Qed.

(** ** Deletion *)

Definition delete_entry (c : change) : WriteRecord := mkWriteRecord DELETE_TUPLE name (ch_rid c) (ch_old c).
Definition delete_log (id : Z) (c : change) : Log.LogRecord := Log.delete_record id (Log.mkRec size (ch_old c)) (ch_rid c) (bytes_of_string name).

Lemma delete_one_ok c : ch_new c = None -> carries_out (delete_one g fuel txn tab name) delete_entry delete_log c.
Proof.
  destruct c as [rid old nw]. cbn [ch_new]. intros -> t ws m l s W Hr Ha. cbn [ch_rid ch_old ch_new] in *. destruct (working_row _ _ _ _ _ _ _ W Hr) as [Hlo Hrid].
  pose proof (working_size _ _ _ _ _ W) as Hsz. destruct (working_get _ _ _ _ _ _ _ W Hr Ha) as (t1 & s1 & R1 & W1 & (I1 & P1 & _ & _) & G1 & D1).
  pose proof (row_ok _ _ _ _ _ old W1 ltac:(lia)) as Ho.
  destruct (small_log_wf t1 _ _ _ _ (delete_log (txn_id_ t1) (mkChange rid old None)) W1) as [Hwf Htot]; [done|done|small|].
  destruct (working_log _ _ _ _ _ _ W1 Hwf Htot) as (s2 & t2 & R2 & W2 & K2 & I2 & P2 & N2).
  pose proof (undisturbed_trans _ _ _ _ D1 (undisturbed_table txn _ _ K2)) as D2.
  destruct (working_delete _ _ _ _ _ _ _ W2 Hr (alone_undisturbed _ _ _ _ _ D2 Ha)) as (t3 & s3 & R3 & W3 & (I3 & P3 & _ & _) & G3 & D3 & O3).
  destruct (append_run (delete_entry (mkChange rid old None)) _ _ _ _ _ W3 O3 eq_refl) as (t4 & s4 & R4 & W4 & P4 & I4 & G4 & K4). exists t4, s4. split_and!.
  - unfold delete_one. rewrite (bind_run _ _ _ _ _ R1), (bind_run _ _ _ _ _ (the_txn_run txn t1 s1 (wk_txn _ _ _ _ _ W1))), Hlo, (bind_run _ _ _ _ _ R2), Htab.
    erewrite bind_run by reflexivity. by rewrite (bind_run _ _ _ _ _ R3).
  - unfold logged in *. by rewrite G1, I1, P1 in W4.
  - eapply undisturbed_trans; [exact D2|]. eapply undisturbed_trans; [exact D3|]. by apply undisturbed_table.
  - congruence.
  - congruence.
  - congruence.
Qed.

(** C17: [DeleteExecutor::Next] on a table without indexes.  When no other
    transaction holds one of the chosen rows, they are gone afterwards and every
    other row is as before; the log file gains one delete record per row, with
    its contents, in order and linked to each other, and the write set gains the
    contents in order. *)
Theorem delete_statement_correct t ws m l s conds cs : working t ws m l s -> NoDup (ch_rid <$> cs) ->
  (forall c, c ∈ cs -> m (ch_rid c) = Some (ch_old c) /\ alone txn x (ch_rid c) (en_locks s) /\ ch_new c = None) ->
  exists t' s', delete_next g fuel txn (mkDelete tab conds (ch_rid <$> cs) name) s = (Ret tt, s') /\
    working t' (ws ++ (delete_entry <$> cs)) (applied cs m) (l ++ chained (prev_lsn_ t) (Log.global_lsn_ (en_log s)) (delete_log (txn_id_ t) <$> cs)) s'.
Proof.
  intros W Hnd Hcs. apply (rows_ok (delete_one g fuel txn tab name) delete_entry delete_log cs); [|done|done|naive_solver].
  apply Forall_forall. intros c Hc. by apply delete_one_ok, Hcs.
Qed.
End statements.
End DmlSpec.

Module DmlDemo.
Import Engine Bpm BpmFacts BpmSpec PoolInstance Replacer.Lru Posix.MemFS RmFacts RmSpec RmDemo Rollback RollbackSpec RollbackDemo Apart DmlSpec.

(** The table is open on descriptor 5, the log on 6. *)
Definition both_fs : MemFS.t :=
  {| paths := {[ "t"%string := (S_ISREG, 10); LOG_FILE_NAME := (S_ISREG, 11) ]}; data := {[ 10 := RmFile.hdr_bytes (new_hdr 8); 11 := [] ]}; fds := {[ 5 := (10, O); 6 := (11, O) ]} |}.
Definition both_dm : Disk.DiskManager := Disk.SetLogFd 6 (Disk.set_pageno {[ 5 := 1 ]} (Disk.make both_fs)).
Definition busy_1 : Transaction := set_state GROWING (make_txn false 1).
Definition busy_locks : Lock.LockManager := {| Lock.lock_table_ := ∅; Lock.txns := {[ 1 := busy_1 ]} |}.
Definition stmt_eng : Engine LRUReplacer :=
  mkEng (Bpm.make 0 3 both_dm) busy_locks (Log.make 0 both_dm) (mkDb "db" {[ "t"%string := tab_t ]}) {[ "t"%string := mkTF 5 (new_hdr 8) ]} ∅ ∅ ∅ [].
Definition nothing : Rid -> option row := fun _ => None.

Lemma both_distinct : fd_distinct both_fs.
Proof.
  intros a b j Ha Hb. assert (forall a, fd_ino both_fs a = Some j -> a = 5 /\ j = 10 \/ a = 6 /\ j = 11) as H.
  { intros c. simpl. unfold ino. simpl. rewrite lookup_insert, lookup_singleton. repeat case_decide; simpl; intros [= <-]; lia. }
  destruct (H a Ha), (H b Hb); lia.
Qed.
Lemma stmt_pool : idle (Bpm.make 0 3 both_dm).
Proof.
  split_and!; [split|exists 0; eexists; split; reflexivity|intros pid; unfold pins; simpl; by rewrite lookup_empty].
  - apply make_inv, both_distinct.
  - intros pid f E. simpl in E. by rewrite lookup_empty in E.
  - intros g q _ Hq. unfold frame in Hq. destruct (0 <=? g); [|done]. by apply lookup_replicate in Hq as [-> _].
  - intros pid f E. simpl in E. by rewrite lookup_empty in E.
Qed.
Lemma stmt_table : file_ok (table_of (mkTF 5 (new_hdr 8)) stmt_eng).
Proof.
  split; [|apply stmt_pool|reflexivity|intros n Hn; simpl in Hn; lia|reflexivity|split; intros id q; simpl; by rewrite lookup_empty].
  split; [by apply new_hdr_layout|done|intros n Hn; simpl in Hn; lia|].
  exists []. split_and!; [constructor|done|]. intros n Hn. simpl in Hn. lia.
Qed.
Lemma stmt_working : working 1 "t" tab_t 5 8 6 11 busy_1 [] nothing [] stmt_eng.
Proof.
  split; try reflexivity.
  - split; try reflexivity; [|exists busy_1; split_and!; reflexivity|intros w Hw; by apply elem_of_nil in Hw|intros w Hw; by apply elem_of_nil in Hw].
    exists (mkTF 5 (new_hdr 8)). split_and!; [reflexivity|reflexivity|reflexivity|exact stmt_table|]. intros [a b]. unfold lookup. cbn [Rm.file_hdr_ table_of tf_hdr rid_page_no].
    change (num_pages (new_hdr 8)) with 1. destruct (Z.leb_spec 1 a), (Z.ltb_spec a 1); (lia || reflexivity).
  - split; [split_and!; [reflexivity|exact both_distinct|reflexivity|reflexivity]|]. repeat constructor; discriminate.
Qed.
Lemma stmt_room : has_room "t" stmt_eng.
Proof. intros tf [= <-] _. split; [|done]. split_and!; try done. by exists 10. Qed.
Lemma stmt_alone rid : alone 1 5 rid busy_locks.
Proof. intros z md _ (q & r & Hq & _). simpl in Hq. by rewrite lookup_empty in Hq. Qed.
Lemma stmt_granted rid : exists lk, Lock.lock_exclusive_on_record 1 rid 5 busy_locks = (Ret true, lk) /\ undisturbed 1 busy_locks lk.
Proof. apply (alone_granted (LockSpec.ExclusiveOnRecord rid 5) 1 5 rid busy_locks busy_1 (fo_locks _ stmt_table)); [reflexivity|reflexivity|apply stmt_alone|reflexivity]. Qed.

(** Inserting the value 7. *)
Definition seven : Value := set_num TYPE_BIGINT (i64_bytes 7) (blank (replicate 8 0) TYPE_BIGINT).
Lemma insert_statement_correct_witness : exists rid vs t' s', insert_next 0 4 1 (mkInsert tab_t [seven] "t" (mkRid 0 0)) stmt_eng = (Ret (mkInsert tab_t vs "t" rid), s') /\
  working 1 "t" tab_t 5 8 6 11 t' [mkWriteRecord INSERT_TUPLE "t" rid []] (put rid (Some (i64_bytes 7)) nothing)
    (LogFacts.bytes (logged busy_1 stmt_eng (Log.insert_record 1 (Log.mkRec 8 (i64_bytes 7)) rid (bytes_of_string "t")))) s' /\
  exists s'', rollback 4 1 1 s' = (Ret tt, s'') /\ undoing 1 "t" tab_t 5 8 [] nothing s''.
Proof.
  pose proof (insert_statement_correct 0 4 1 "t" tab_t 5 8 6 11 eq_refl ltac:(lia) ltac:(lia) ltac:(unfold PAGE_SIZE; simpl; lia)
    busy_1 [] nothing [] stmt_eng [seven] (mkRid 0 0) stmt_working stmt_room) as H. cbv zeta in H.
  assert (put_values 0 (tm_cols tab_t) [seven] (replicate (Z.to_nat 8) 0) = Ret ([set_raw (Some (i64_bytes 7)) seven], i64_bytes 7)) as E by reflexivity. rewrite E in H.
  destruct H as (rid & _ & H). change (en_locks stmt_eng) with busy_locks in H. destruct (stmt_granted rid) as (lk & El & _). rewrite El in H.
  destruct H as (t' & s' & R1 & _ & W1 & _ & Hr). exists rid, [set_raw (Some (i64_bytes 7)) seven], t', s'. split; [exact R1|]. split; [exact W1|]. apply Hr. by apply writes_none.
Defined.

(** A table that holds one record, which nobody else has locked. *)
Definition stored_eng : Engine LRUReplacer := (on_table "t" (Rm.insert_record record_a (Some 1)) stmt_eng).2.
Abbreviation rid_a := (mkRid 1 0).
Lemma stored_working : exists t, working 1 "t" tab_t 5 8 6 11 t [] (put rid_a (Some record_a) nothing) [] stored_eng /\ alone 1 5 rid_a (en_locks stored_eng) /\
  prev_lsn_ t = -1 /\ txn_id_ t = 1 /\ Log.global_lsn_ (en_log stored_eng) = 0.
Proof.
  destruct (working_insert 1 "t" tab_t 5 8 6 11 ltac:(lia) busy_1 [] nothing [] stmt_eng record_a stmt_working stmt_room eq_refl) as (rid & _ & H).
  change (en_locks stmt_eng) with busy_locks in H. destruct (stmt_granted rid) as (lk & El & _). rewrite El in H. destruct H as (t & s & R1 & W & G & (I & P & _) & _ & _ & D).
  assert ((on_table "t" (Rm.insert_record record_a (Some 1)) stmt_eng).1 = Ret rid_a) as E by (vm_compute; reflexivity). rewrite R1 in E. cbn [fst] in E. injection E as ->.
  exists t. unfold stored_eng. rewrite R1. cbn [snd]. split; [exact W|]. split; [apply (alone_undisturbed _ _ _ _ _ D), stmt_alone|].
  split; [exact P|]. split; [exact I|]. rewrite G. reflexivity.
Qed.

(** [update t set a = ...] and [delete from t] on it. *)
Definition nine : Value := set_raw (Some (i64_bytes 9)) (set_num TYPE_BIGINT (i64_bytes 9) (blank (replicate 8 0) TYPE_BIGINT)).
Definition set_nine : list SetClause := [mkSet (mkTabCol "t" "a") nine false].
Definition to_nine : change := mkChange rid_a record_a (Some (i64_bytes 9)).
Definition gone : change := mkChange rid_a record_a None.
Lemma update_statement_correct_witness : exists t s', update_next 0 4 1 (mkUpdate tab_t [] [rid_a] "t" set_nine) stored_eng = (Ret tt, s') /\
  working 1 "t" tab_t 5 8 6 11 t [update_entry "t" to_nine] (put rid_a (Some (i64_bytes 9)) (put rid_a (Some record_a) nothing))
    (chained (-1) 0 [update_log "t" 8 1 to_nine]) s'.
Proof.
  destruct stored_working as (t & W & A & P & I & G).
  destruct (update_statement_correct 0 4 1 "t" tab_t 5 8 6 11 eq_refl ltac:(lia) ltac:(lia) ltac:(unfold PAGE_SIZE; simpl; lia) t [] _ [] stored_eng [] set_nine [to_nine] W)
    as (t' & s' & R1 & W1 & _).
  - apply NoDup_singleton.
  - intros c Hc. apply list_elem_of_singleton in Hc as ->. split; [reflexivity|]. split; [exact A|]. exists (i64_bytes 9). split; reflexivity.
  - exists t', s'. split; [exact R1|]. rewrite P, I, G in W1. exact W1.
Defined.
Lemma delete_statement_correct_witness : exists t s', delete_next 0 4 1 (mkDelete tab_t [] [rid_a] "t") stored_eng = (Ret tt, s') /\
  working 1 "t" tab_t 5 8 6 11 t [delete_entry "t" gone] (put rid_a None (put rid_a (Some record_a) nothing)) (chained (-1) 0 [delete_log "t" 8 1 gone]) s'.
Proof.
  destruct stored_working as (t & W & A & P & I & G).
  destruct (delete_statement_correct 0 4 1 "t" tab_t 5 8 6 11 eq_refl ltac:(lia) ltac:(lia) ltac:(unfold PAGE_SIZE; simpl; lia) t [] _ [] stored_eng [] [gone] W)
    as (t' & s' & R1 & W1).
  - apply NoDup_singleton.
  - intros c Hc. apply list_elem_of_singleton in Hc as ->. split; [reflexivity|]. split; [exact A|reflexivity].
  - exists t', s'. split; [exact R1|]. rewrite P, I, G in W1. exact W1.
Defined.
End DmlDemo.
