(* ===== verification/SmSpec.v ===== *)
(** * Creating tables

    [create_table] adds one empty table: catalogue, file, handle and the
    catalogue file agree afterwards, and nothing else changes. *)

From S2P Require Import Prelude Bytes Posix Disk ManagersSpec Replacer BufferPool BufferPoolFacts BufferPoolSpec PagePool Txn Lock LockFacts LockSpec Log RmFile RmPageFacts RmTable RmFileFacts RmSpec IxDefs IxNode IxIndex Values SmMeta SmMetaSpec Managers Engine Dml Recovery SmManager.

Module SmSpec.
Import Bpm BpmFacts BpmSpec PoolInstance FileFacts ManagersSpec MetaSpec Engine.

(** The columns one behind the other. *)
Fixpoint columns (tab_name : string) (offset : Z) (defs : list ColDef) : list ColMeta :=
  match defs with
  | [] => []
  | d :: defs => mkCol tab_name (cd_name d) (cd_type d) (cd_len d) offset false :: columns tab_name (offset + cd_len d) defs
  end.
Fixpoint width (defs : list ColDef) : Z := match defs with [] => 0 | d :: defs => cd_len d + width defs end.

Section create.
Context {R : Type} {RO : Replacer R} {RL : ReplacerLaws R} {FO : FileSystem} {FL : FileSystemLaws} {FR : FileSystemReliable} {FP : FileSystemPaths}.
Abbreviation Eng := (Engine R).

Lemma layout_run (name : string) (defs : list ColDef) : Forall (fun d => 0 <= cd_len d) defs -> forall o s, 0 <= o -> o + width defs <= INT32_MAX ->
  layout_cols name o defs (s : Eng) = (Ret (columns name o defs, o + width defs), s) /\ 0 <= width defs.
Proof.
  induction 1 as [|d defs Hd _ IH]; intros o s Ho Hw; simpl in *; [by rewrite Z.add_0_r|]. destruct (IH (o + cd_len d) s) as [IH1 IH2]; [lia|lia|].
  split; [|lia]. rewrite (bind_run _ _ s s (o + cd_len d)).
  - rewrite (bind_run _ _ _ _ _ IH1). cbn [fst snd]. rewrite mret_run. do 3 f_equal. lia.
  - unfold int_op. assert (in_i32 (o + cd_len d) = true) as ->; [|done]. unfold in_i32, INT32_MIN, INT32_MAX in *. lia.
Qed.

Lemma on_disk_run {A} (m : M Disk.DiskManager A) (s : Eng) (r : outcome A) (d : Disk.DiskManager) :
  m (disk_manager_ (en_pool s)) = (r, d) -> on_disk m s = (r, set_pool (set_disk d (en_pool s)) s).
Proof. intros H. unfold Engine.on_disk, on_pool. rewrite (zoom_run en_pool set_pool _ s r (set_disk d (en_pool s))); [done|]. unfold Bpm.on_disk. by rewrite (zoom_run _ _ m _ _ _ H). Qed.

(** C29: [create_table] under a fresh name, with columns that fill a legal record
    size, succeeds: the catalogue gains the table with its columns packed in
    order, a handle on an empty table that satisfies the file invariant is open
    under the name, the catalogue file reads back as the new catalogue, and the
    other handles, locks and the pages of open files are as before. *)
Theorem create_table_correct (name : string) (defs : list ColDef) (s : Eng) :
  idle (en_pool s) -> LockFacts.inv (en_locks s) -> fresh_name name (disk_manager_ (en_pool s)) ->
  tabs_ (db_ s) !! name = None -> fhs_ s !! name = None ->
  Forall (fun d => 0 <= cd_len d) defs -> 1 <= width defs <= RM_MAX_RECORD_SIZE ->
  exists s' fd, create_table name defs s = (Ret tt, s') /\
    let t := mkTF fd (new_hdr (width defs)) in
    db_ s' = SetTabMeta name (mkTab name (columns name 0 defs) []) (db_ s) /\
    fhs_ s' = <[name := t]> (fhs_ s) /\ ihs_ s' = ihs_ s /\ en_locks s' = en_locks s /\
    RmFacts.file_ok (table_of t s') /\ RmFacts.room (table_of t s') /\ (forall rid, RmFacts.lookup (table_of t s') rid = None) /\
    (db_wf (db_ s') -> exists rest, read_db (en_meta s') = Some (db_ s', rest)) /\
    forall pid, Disk.fd_open (disk_manager_ (en_pool s)) (BufferPool.fd pid) -> logical (en_pool s') pid = logical (en_pool s) pid.
Proof.
  intros Hidle Hlk Hfresh Hdb Hfh Hdefs Hw.
  destruct (new_table_run name (width defs) (en_pool s) (en_locks s) Hidle Hfresh Hw Hlk) as (d1 & d2 & fd & R1 & R2 & F & Rm & L & K).
  destruct (layout_run name defs Hdefs 0 s) as [Rl _]; [lia|unfold RM_MAX_RECORD_SIZE, INT32_MAX in *; lia|]. rewrite Z.add_0_l in Rl.
  set (s1 := set_pool (set_disk d1 (en_pool s)) s). set (s2 := set_db (SetTabMeta name (mkTab name (columns name 0 defs) []) (db_ s)) s1).
  set (s3 := set_pool (set_disk d2 (en_pool s2)) s2). set (t := mkTF fd (new_hdr (width defs))).
  set (s4 := set_fhs (<[name := t]> (fhs_ s)) s3). set (s5 := set_meta (put_db (db_ s4)) s4).
  exists s5, fd. split.
  - unfold create_table. erewrite bind_run by reflexivity. unfold is_table. rewrite Hdb, bool_decide_eq_false_2 by (by intros [? ?]).
    rewrite (bind_run _ _ _ _ _ Rl). cbn [fst snd]. rewrite (bind_run _ _ s s1 tt) by exact (on_disk_run _ s _ _ R1).
    rewrite (bind_run _ _ s1 s2 tt) by reflexivity. rewrite (bind_run _ _ s2 s4 tt); [reflexivity|].
    unfold open_table. rewrite (bind_run _ _ s2 s3 (fd, new_hdr (width defs))); [|exact (on_disk_run _ s2 _ _ R2)].
    unfold modify, keep. cbn [fst snd]. change (fhs_ s3) with (fhs_ s). by rewrite Hfh.
  - split_and!; try done. intros Hwf. exact (read_put_db _ Hwf).
Qed.

End create.
End SmSpec.

Module SmDemo.
Import Bpm BpmFacts BpmSpec PoolInstance Replacer.Lru Posix.MemFS FileFacts ManagersSpec MetaSpec RmDemo SmSpec Engine.

Definition eng : Engine LRUReplacer :=
  mkEng (Bpm.make 0 3 demo_dm) demo_locks (Log.make 0 demo_dm) (mkDb "db" ∅) ∅ ∅ ∅ ∅ [].
Definition defs_r : list ColDef := [mkColDef "a" TYPE_INT 4; mkColDef "b" TYPE_INT 4].

Lemma create_table_correct_witness : exists s' fd, create_table "r" defs_r eng = (Ret tt, s') /\
  let t := mkTF fd (new_hdr 8) in
  db_ s' = SetTabMeta "r" (mkTab "r" (columns "r" 0 defs_r) []) (db_ eng) /\
  fhs_ s' = <["r"%string := t]> (fhs_ eng) /\ ihs_ s' = ihs_ eng /\ en_locks s' = en_locks eng /\
  RmFacts.file_ok (table_of t s') /\ RmFacts.room (table_of t s') /\ (forall rid, RmFacts.lookup (table_of t s') rid = None) /\
  (db_wf (db_ s') -> exists rest, read_db (en_meta s') = Some (db_ s', rest)) /\
  forall pid, Disk.fd_open (disk_manager_ (en_pool eng)) (BufferPool.fd pid) -> logical (en_pool s') pid = logical (en_pool eng) pid.
Proof.
  apply (create_table_correct "r" defs_r eng).
  - exact demo_idle.
  - exact demo_locks_inv.
  - split_and!; try reflexivity; [exists 3; vm_compute; reflexivity|]. intros x [y Hy]. simpl in Hy. by rewrite lookup_empty in Hy.
  - reflexivity.
  - reflexivity.
  - repeat constructor; simpl; lia.
  - unfold RM_MAX_RECORD_SIZE. simpl. lia.
Defined.

(** ** Runs *)

(** A table with one record; then an index on its first column. *)
Definition with_row : Engine LRUReplacer := ((create_table "r" defs_r ;; on_table "r" (Rm.insert_record record_a (Some 1))) eng).2.

(** [create_index] allocates its key buffer before it knows the length of the
    key: filling the index from a table that has a record writes past it. *)
Lemma create_index_overflows : (create_index 4 4 1 "r" ["a"%string] with_row).1 = Stuck OutOfBounds.
Proof. vm_compute. reflexivity. Qed.
(** On an empty table it goes through, and every later insertion fails. *)
Definition with_index : Engine LRUReplacer := ((create_table "r" defs_r ;; create_index 4 4 1 "r" ["a"%string]) eng).2.
Definition lit (z : Z) : Value := set_int z (blank (replicate 8 0) TYPE_INT).
Lemma insert_after_index_overflows :
  ((e ← make_insert 1 "r" [lit 1; lit 2] (mkRid 0 0); insert_next 0 4 1 e) with_index).1 = Stuck OutOfBounds.
Proof. vm_compute. reflexivity. Qed.

(** A database with an index cannot be opened again: the file it looks for is
    named after all columns of the table. *)
Definition closed_db : Engine LRUReplacer := (close_db (map_to_list (page_table_ (en_pool with_index))) with_index).2.
Definition restarted : Engine LRUReplacer :=
  let fs := Disk.dm_fs (disk_manager_ (en_pool closed_db)) in
  mkEng (Bpm.make 0 3 (Disk.make {| paths := paths fs; data := data fs; fds := ∅ |})) demo_locks (Log.make 0 demo_dm) (mkDb "" ∅) ∅ ∅ ∅ ∅ (en_meta closed_db).
Lemma open_db_misses_index : (open_db restarted).1 = Throw (FileNotFoundError "r_a_b.idx").
Proof. vm_compute. reflexivity. Qed.

End SmDemo.
