(* ===== verification/RecoverySpec.v ===== *)
(** * What recovery reads, and what it can replay

    [analyze] recovers from the log file exactly the records the log manager
    appended, in order; the replay passes a null context and never completes. *)

From S2P Require Import Prelude Bytes Posix Disk Replacer BufferPool BufferPoolFacts BufferPoolSpec PagePool Txn Lock Log LogFacts LogSpec RmFile IxDefs IxNode IxIndex Values SmMeta Managers Engine Recovery.

Module RecoverySpec.
Import Bpm LogFacts PoolInstance Engine Recovery.

Section analyze.
Context {R : Type} {RO : Replacer R} {FO : FileSystem}.
Abbreviation V := (M (Engine R * RecoveryManager)).

Lemma reads_from (pre l rest : list Z) : reads (from (pre ++ l ++ rest) (Z.of_nat (length pre))) l.
Proof.
  intros o n Ho Hn Hl. unfold from. apply mem_read_Some. rewrite !length_app. split_and!; [lia|lia|lia|].
  rewrite Z2Nat.inj_add, Nat2Z.id by lia. unfold slice. rewrite drop_app, (drop_ge pre) by lia. cbn [app].
  replace (length pre + Z.to_nat o - length pre)%nat with (Z.to_nat o) by lia. rewrite drop_app_le, take_app_le; [done|rewrite length_drop; lia|lia].
Qed.

(** The fields of the header that the loop looks at first. *)
Lemma peek (src : Log.source) (r : Log.LogRecord) : log_wf r -> reads src (bytes r) ->
  src Log.OFFSET_LOG_TOT_LEN 4 = Some (u32_bytes (Log.log_tot_len_ (Log.hdr r))) /\ src Log.OFFSET_LOG_TYPE 4 = Some (i32_bytes (Log.type_code (kind r))).
Proof.
  intros [W1 W2 W3 W4 W5 W6 W7] H. unfold bytes, hdr_bytes, Log.hdr_fields in H. cbn [concat] in H. rewrite app_nil_r, <- !app_assoc in H. split.
  - rewrite (app_assoc (i32_bytes _) (i32_bytes _)) in H. by apply (reads_mid src _ _ _ _ _ H).
  - rewrite <- W1. by apply (reads_mid src [] _ _ _ _ H).
Qed.

Definition log_bytes (rs : list Log.LogRecord) : list Z := concat (bytes <$> rs).

(** One buffer: every record it holds is noted, in order. *)
Lemma read_buffer_ok (rs : list Log.LogRecord) : forall fuel pre rest (s : Engine R * RecoveryManager), Forall log_wf rs ->
  Z.of_nat (length (pre ++ log_bytes rs)) < LOG_BUFFER_SIZE -> (12 <= length rest)%nat -> slice 8 4 rest = replicate 4 0 -> (length rs < fuel)%nat ->
  read_buffer fuel (pre ++ log_bytes rs ++ rest) (Z.of_nat (length pre)) s = (forM rs note_record ;; mret (Z.of_nat (length (pre ++ log_bytes rs)))) s.
Proof.
  induction rs as [|r rs IH]; intros [|fuel] pre rest s W Hlen Hrest Hz Hf; simpl in Hf; try lia; cbn [read_buffer].
  - unfold log_bytes in *. cbn [fmap list_fmap concat app] in *. rewrite app_nil_r in *.
    assert (from (pre ++ rest) (Z.of_nat (length pre)) Log.OFFSET_LOG_TOT_LEN 4 = Some (replicate 4 0)) as E.
    { pose proof (reads_from pre rest []) as H. rewrite app_nil_r in H. unfold Log.OFFSET_LOG_TOT_LEN. rewrite H by lia. f_equal. exact Hz. }
    rewrite E, (bind_run _ _ s s (replicate 4 0)) by done. change (u32_val (replicate 4 0) =? 0) with true. by rewrite orb_true_r.
  - apply Forall_cons in W as [Wr W]. unfold log_bytes in *. cbn [fmap list_fmap concat] in *. fold (log_bytes rs) in *. rewrite <- app_assoc in *.
    pose proof (reads_from pre (bytes r) (log_bytes rs ++ rest)) as Hr. destruct (peek _ r Wr Hr) as [P1 P2]. pose proof (length_bytes r Wr) as Hb.
    assert (Z.of_nat (length (bytes r)) = Log.LOG_HEADER_SIZE + payload r /\ Log.LOG_HEADER_SIZE + payload r < 2 ^ 32) as [Hb2 Hb3] by (rewrite Hb; split; [apply Wr|apply Wr]).
    assert (20 <= Z.of_nat (length (bytes r))) as Hb4. { unfold bytes. rewrite length_app, length_hdr_bytes. lia. }
    rewrite P1, (bind_run _ _ s s _) by done. rewrite u32_roundtrip by lia.
    rewrite !length_app in Hlen. assert (LOG_BUFFER_SIZE < 2 ^ 31) as Hbs by done.
    assert (wrap_u 32 (Z.of_nat (length pre) + Log.log_tot_len_ (Log.hdr r)) = Z.of_nat (length pre) + Log.log_tot_len_ (Log.hdr r)) as -> by (unfold wrap_u; rewrite Z.mod_small; lia).
    rewrite (proj2 (Z.leb_gt _ _)), (proj2 (Z.eqb_neq _ _)) by lia. cbn [orb].
    rewrite P2, (bind_run _ _ s s _) by done. rewrite i32_roundtrip by apply type_code_i32. rewrite type_of_code_code.
    rewrite (deserialize_ok r _ Wr Hr), (bind_run _ _ s s r) by done. cbn [forM]. rewrite bind_assoc.
    apply bind_ext. intros [] s1. rewrite <- Hb.
    assert (wrap_s 32 (Z.of_nat (length pre) + Z.of_nat (length (bytes r))) = Z.of_nat (length pre) + Z.of_nat (length (bytes r))) as -> by (unfold wrap_s; rewrite Z.mod_small; lia). pose proof (IH fuel (pre ++ bytes r) rest s1 W) as IH'.
    rewrite <- !app_assoc in IH'. rewrite !length_app in IH'. rewrite <- Nat2Z.inj_add. rewrite IH' by (lia || done). rewrite !length_app. by rewrite ?Nat.add_assoc.
Qed.

(** *** What the tables hold afterwards *)

(** A transaction is active when its last record does not end it. *)
Definition ends (r : Log.LogRecord) : bool := match r with Log.CommitLogRecord _ | Log.AbortLogRecord _ => true | _ => false end.
Fixpoint active (b : bool) (rs : list Log.LogRecord) (t : Z) : bool :=
  match rs with
  | [] => b
  | r :: rs => active (if Log.log_tid_ (Log.hdr r) =? t then negb (ends r) else b) rs t
  end.
Definition in_att (v : RecoveryManager) (t : Z) : bool := bool_decide (is_Some (active_transaction_table v !! t)).

Lemma on_engine_inv {A} (m : M (Engine R) A) (s s' : Engine R * RecoveryManager) (o : outcome A) : on_engine m s = (o, s') -> s'.2 = s.2.
Proof. intros (e & _ & ->)%zoom_inv. done. Qed.

Lemma note_page_att (name : string) (rid : Rid) (n : Z) (s s' : Engine R * RecoveryManager) :
  note_page name rid n s = (Ret tt, s') -> active_transaction_table s'.2 = active_transaction_table s.2 /\ lsn2log s'.2 = lsn2log s.2.
Proof.
  unfold note_page, tables, change. intros H. inv_run. simpl.
  apply on_engine_inv in Hrun as E0. apply unwrap_inv in Hrun2 as [_ ->]. rewrite <- E0.
  destruct (dirty_page_table _ !! _) in Hrun1; inv_run; [done|]. apply on_engine_inv in Hrun0 as E1. by rewrite E1.
Qed.

Lemma in_emplace (t n : Z) (m m' : gmap Z (list Z)) : att_emplace t n m = Ret m' -> bool_decide (is_Some (m' !! t)) = true.
Proof.
  intros H. apply bool_decide_eq_true. unfold att_emplace in H. destruct (n <? 0); [done|]. injection H as <-.
  destruct (m !! t) eqn:E; [by rewrite E|]. rewrite lookup_insert_eq. eauto.
Qed.
Lemma in_emplace_ne (t u n : Z) (m m' : gmap Z (list Z)) : att_emplace t n m = Ret m' -> t <> u -> bool_decide (is_Some (m' !! u)) = bool_decide (is_Some (m !! u)).
Proof. intros H Hne. unfold att_emplace in H. destruct (n <? 0); [done|]. injection H as <-. destruct (m !! t); [done|]. by rewrite lookup_insert_ne. Qed.

(** One record: its transaction becomes active or ends, the others stay. *)
Lemma note_record_att (r : Log.LogRecord) (s s' : Engine R * RecoveryManager) (t : Z) : note_record r s = (Ret tt, s') ->
  in_att s'.2 t = (if Log.log_tid_ (Log.hdr r) =? t then negb (ends r) else in_att s.2 t) /\ lsn2log s'.2 = <[Log.lsn_ (Log.hdr r) := r]> (lsn2log s.2).
Proof.
  unfold note_record, change, tables. intros H. inv_run. simpl. unfold in_att. simpl.
  destruct r as [h|h|h|h v p n|h v p n|h v w p n]; cbn [Log.hdr ends negb] in *; inv_run; simpl.
  1: unfold lift in Hrun1; injection Hrun1 as Hrun1 <-.
  1-3: split; [|done]; destruct (Z.eqb_spec (Log.log_tid_ h) t) as [<-|Hne]; [|by first [exact (in_emplace_ne _ _ _ _ _ Hrun1 Hne)|rewrite lookup_delete_ne]].
  1-3: first [exact (in_emplace _ _ _ _ Hrun1)|rewrite lookup_delete_eq; by apply bool_decide_eq_false; intros [? ?]].
  all: unfold note_change, change in Hrun; inv_run; destruct r0; apply note_page_att in Hrun as [E1 E2]; simpl in E1, E2; rewrite E1, E2; split; [|done].
  all: unfold att_push; destruct (Z.eqb_spec (Log.log_tid_ h) t) as [<-|Hne]; [rewrite lookup_insert_eq; apply bool_decide_eq_true; eauto|by rewrite lookup_insert_ne].
Qed.

Lemma note_records_att (rs : list Log.LogRecord) : forall (s s' : Engine R * RecoveryManager), forM rs note_record s = (Ret tt, s') ->
  (forall t, in_att s'.2 t = active (in_att s.2 t) rs t) /\ lsn2log s'.2 = foldl (fun m r => <[Log.lsn_ (Log.hdr r) := r]> m) (lsn2log s.2) rs.
Proof.
  induction rs as [|r rs IH]; intros s s' H; cbn [forM active foldl] in *; inv_run; [done|].
  destruct r0. apply IH in H as [H1 H2]. split; [intros t; rewrite H1|rewrite H2]; by destruct (note_record_att r s s0 (Log.log_tid_ (Log.hdr r)) Hrun) as [_ ->] || destruct (note_record_att r s s0 t Hrun) as [-> _].
Qed.

End analyze.

Section log_file.
Context {R : Type} {RO : Replacer R} {FO : FileSystem} {FL : FileSystemLaws} {FR : FileSystemReliable}.

(** Reading a log file that fits one buffer. *)
Lemma read_log_ok (d : Disk.DiskManager) (l : list Z) : log_content d l -> Disk.get_file_size LOG_FILE_NAME d = Z.of_nat (length l) ->
  Z.of_nat (length l) < LOG_BUFFER_SIZE -> exists d', Disk.read_log LOG_BUFFER_SIZE 0 d = (Ret (Z.of_nat (length l), l), d').
Proof.
  intros (Hfd & i & Hi & Hl) Hsz Hlen. unfold Disk.read_log, Disk.open_log.
  assert ((log_fd ← gets Disk.log_fd_; if log_fd =? -1 then (fd ← Disk.open_file LOG_FILE_NAME; modify (Disk.SetLogFd fd)) else mret tt) d = (Ret tt, d)) as E0.
  { erewrite bind_run by reflexivity. by rewrite (proj2 (Z.eqb_neq _ _) Hfd). }
  rewrite (bind_run _ _ _ _ _ E0). erewrite bind_run by reflexivity. rewrite Hsz, (proj2 (Z.ltb_ge _ _)) by lia. rewrite Z.sub_0_r.
  rewrite (bind_run _ _ d d (Z.of_nat (length l))). 2: { unfold int_op. assert (in_i32 (Z.of_nat (length l)) = true) as ->; [|done]. unfold in_i32, INT32_MIN, INT32_MAX, LOG_BUFFER_SIZE, PAGE_SIZE in *. lia. }
  rewrite Z.min_r by lia. destruct (Z.eqb_spec (Z.of_nat (length l)) 0) as [E|E]; [destruct l; [by exists d|simpl in E; lia]|].
  erewrite bind_run by reflexivity. destruct (sys_lseek (Disk.dm_fs d) (Disk.log_fd_ d) 0) as [r fs1] eqn:E1. erewrite bind_run by (unfold Disk.sys; rewrite E1; reflexivity).
  assert (r = 0) as ->. { pose proof (lseek_ok (Disk.dm_fs d) (Disk.log_fd_ d) 0) as L. rewrite E1 in L. apply L; [by rewrite Hi|lia]. }
  destruct (lseek_law _ _ _ _ _ E1) as (I1 & B1 & P1). destruct P1 as (_ & _ & P1); [lia|].
  destruct (sys_read fs1 (Disk.log_fd_ d) (Z.of_nat (length l))) as [[rr got] fs2] eqn:E2. erewrite bind_run by (unfold Disk.sys; simpl; rewrite E2; reflexivity). cbv beta iota.
  assert (rr = Z.of_nat (length l)) as ->.
  { pose proof (read_ok fs1 (Disk.log_fd_ d) (Z.of_nat (length l)) i) as L. rewrite E2 in L. simpl in L. rewrite I1, P1, B1, Hl in L. apply L; [done|lia..]. }
  destruct (read_law _ _ _ _ _ _ E2) as (_ & _ & Hr). destruct Hr as (j & Hj & _ & ->); [lia|done|]. rewrite I1, Hi in Hj. injection Hj as <-.
  rewrite P1, B1, Hl, Nat2Z.id. eexists. unfold assert. rewrite Z.eqb_refl. erewrite bind_run by reflexivity. rewrite mret_run. do 3 f_equal.
  unfold slice. change (Z.to_nat 0) with O. by rewrite drop_0, take_ge.
Qed.

Lemma bind_unit {S : Type} (m : M S unit) (s : S) : (m ≫= (fun _ => mret tt)) s = m s.
Proof. unfold mbind, M_bind. by destruct (m s) as [[[]|e|w] s1]. Qed.

(** The buffer of [N] bytes: what was read, zeros behind it, and one byte more. *)
Lemma filled_buffer (N : nat) (g : Z) (l : list Z) : (length l + 12 <= N)%nat ->
  exists rest, take N (l ++ replicate N 0) ++ [g] = l ++ rest /\ (12 <= length rest)%nat /\ slice 8 4 rest = replicate 4 0.
Proof.
  intros H. exists (replicate (N - length l) 0 ++ [g]). split_and!.
  - rewrite take_app, take_ge by lia. rewrite take_replicate, Nat.min_l by lia. by rewrite <- app_assoc.
  - rewrite length_app, length_replicate. simpl. lia.
  - rewrite slice_app_l by (rewrite length_replicate; lia). unfold slice. rewrite drop_replicate, take_replicate. f_equal. lia.
Qed.

Lemma buffer_room (n : nat) : Z.of_nat n + 12 <= LOG_BUFFER_SIZE -> (n + 12 <= Z.to_nat LOG_BUFFER_SIZE)%nat.
Proof. generalize LOG_BUFFER_SIZE. intros. lia. Qed.

Lemma whole_buffer (g : Z) (inner : nat) (rs : list Log.LogRecord) (s : Engine R * RecoveryManager) : Forall log_wf rs ->
  Z.of_nat (length (log_bytes rs)) + 12 <= LOG_BUFFER_SIZE -> (length rs < inner)%nat ->
  read_buffer inner (take (Z.to_nat LOG_BUFFER_SIZE) (log_bytes rs ++ replicate (Z.to_nat LOG_BUFFER_SIZE) 0) ++ [g]) 0 s
  = (forM rs note_record ;; mret (Z.of_nat (length (log_bytes rs)))) s.
Proof.
  intros W Hlen Hin. destruct (filled_buffer _ g _ (buffer_room _ Hlen)) as (rest & -> & H1 & H2).
  apply (read_buffer_ok rs inner [] rest s W); [cbn [app]; lia|done..].
Qed.

(** C10: [analyze] reads back what the log manager wrote.  If the log file holds
    the bytes of the well-formed records [rs] (and [stat] reports its size) and
    fits one log buffer, [analyze] reads them all and notes exactly [rs], in
    order; the fuel needed is one more than their number.  When it completes, the
    active transaction table has exactly the transactions whose last record is no
    commit and no abort, and every number leads to the last record that carries
    it. *)
Theorem analyze_reads_log (g : Z) (inner fuel : nat) (rs : list Log.LogRecord) (e : Engine R) (v : RecoveryManager) :
  Forall log_wf rs -> log_content (disk_manager_ (en_pool e)) (log_bytes rs) ->
  Disk.get_file_size LOG_FILE_NAME (disk_manager_ (en_pool e)) = Z.of_nat (length (log_bytes rs)) ->
  Z.of_nat (length (log_bytes rs)) + 12 <= LOG_BUFFER_SIZE -> (length rs < inner)%nat ->
  exists d, analyze g inner (Datatypes.S fuel) (e, v) = forM rs note_record (set_pool (set_disk d (en_pool e)) e, v) /\
    forall s', analyze g inner (Datatypes.S fuel) (e, v) = (Ret tt, s') ->
      (forall t, in_att s'.2 t = active (in_att v t) rs t) /\ lsn2log s'.2 = foldl (fun m r => <[Log.lsn_ (Log.hdr r) := r]> m) (lsn2log v) rs.
Proof.
  intros W Hc Hsz Hlen Hin. destruct (read_log_ok _ _ Hc Hsz) as (d & Hr); [lia|]. exists d. enough (analyze g inner (Datatypes.S fuel) (e, v) = forM rs note_record (set_pool (set_disk d (en_pool e)) e, v)) as E.
  { split; [exact E|]. intros s' H. rewrite E in H. exact (note_records_att rs _ s' H). }
  unfold analyze. cbn [analyze_from].
  set (e1 := set_pool (set_disk d (en_pool e)) e). set (l := log_bytes rs) in *.
  rewrite (bind_run _ _ (e, v) (e1, v) (Z.of_nat (length l), l)).
  2: { unfold on_engine. rewrite (zoom_run fst _ _ (e, v) (Ret (Z.of_nat (length l), l)) e1); [done|]. unfold Engine.on_disk, Engine.on_pool.
       rewrite (zoom_run en_pool set_pool _ e (Ret (Z.of_nat (length l), l)) (set_disk d (en_pool e))); [done|]. unfold Bpm.on_disk. by rewrite (zoom_run _ _ _ _ _ _ Hr). }
  rewrite (proj2 (Z.ltb_ge _ 0)) by lia. erewrite bind_run by reflexivity. rewrite (proj2 (Z.ltb_lt _ _)) by lia.
  rewrite (bind_ext_l _ _ _ _ (whole_buffer g inner rs (e1, v) W Hlen Hin)).
  rewrite bind_assoc. apply bind_unit.
Qed.
End log_file.
End RecoverySpec.

Module RecoveryDemo.
Import Bpm LogFacts PoolInstance Engine Recovery RecoverySpec Replacer.Lru Posix.MemFS.

(** Two transactions in the log; the second has not ended. *)
Definition logged : list Log.LogRecord := LogSpec.numbered 0 [Log.begin_record 1; Log.begin_record 2; Log.commit_record 1].
Definition log_fs : MemFS.t :=
  {| paths := {[ LOG_FILE_NAME := (S_ISREG, 9) ]}; data := {[ 9 := log_bytes logged ]}; fds := {[ 4 := (9, O) ]} |}.
Definition log_dm : Disk.DiskManager := Disk.SetLogFd 4 (Disk.make log_fs).
Definition crashed : Engine LRUReplacer := mkEng (Bpm.make 0 1 log_dm) (Lock.mkLM ∅ ∅) (Log.make 0 log_dm) (mkDb "db" ∅) ∅ ∅ ∅ ∅ [].
Definition fresh : RecoveryManager := mkRec ∅ ∅ ∅.

Lemma analyze_reads_log_witness : exists d, analyze 0 4 1 (crashed, fresh) = forM logged note_record (set_pool (set_disk d (en_pool crashed)) crashed, fresh) /\
  forall s', analyze 0 4 1 (crashed, fresh) = (Ret tt, s') ->
    (forall t, in_att s'.2 t = active (in_att fresh t) logged t) /\ lsn2log s'.2 = foldl (fun m r => <[Log.lsn_ (Log.hdr r) := r]> m) (lsn2log fresh) logged.
Proof.
  apply (analyze_reads_log 0 4 0 logged crashed fresh).
  - repeat constructor.
  - split; [done|]. exists 9. split; vm_compute; reflexivity.
  - vm_compute. reflexivity.
  - vm_compute. discriminate.
  - vm_compute. lia.
Defined.

End RecoveryDemo.
