(* ===== verification/Parser.v ===== *)
(** * The parser ([parser/yacc.tab.cpp], [parser/ast.h])

    [yyparse] as bison generated it: the semantic values, the actions of the
    rules and the automaton that the tables of [YaccTables] drive.  The scanner is
    an argument.  A pointer that a tree stores is not null in [Ast]; storing a
    null one is the fault [NullDeref].  Locations and the text of error messages,
    which go to the standard error output, are not kept. *)

From S2P Require Import Prelude Bytes Values SmMeta Ast.

(** ** The tables of the generated parser ([parser/yacc.tab.cpp], [parser/yacc.tab.h])

    The symbol kinds and the tables bison computed from [parser/yacc.y], as they
    stand in the source. *)

(** ** Symbol kinds ([enum yysymbol_kind_t])

    Tokens are below [YYNTOKENS], nonterminals above. *)

Module Sym.
Definition YYEMPTY : Z := -2.
Definition YYEOF : Z := 0.
Definition YYerror : Z := 1.
Definition YYUNDEF : Z := 2.
Definition SHOW : Z := 3.
Definition TABLES : Z := 4.
Definition CREATE : Z := 5.
Definition TABLE : Z := 6.
Definition DROP : Z := 7.
Definition DESC : Z := 8.
Definition INSERT : Z := 9.
Definition INTO : Z := 10.
Definition VALUES : Z := 11.
Definition DELETE : Z := 12.
Definition FROM : Z := 13.
Definition ASC : Z := 14.
Definition ORDER : Z := 15.
Definition BY : Z := 16.
Definition LOAD : Z := 17.
Definition LIMIT : Z := 18.
Definition WHERE : Z := 19.
Definition UPDATE : Z := 20.
Definition SET : Z := 21.
Definition SELECT : Z := 22.
Definition INT : Z := 23.
Definition CHAR : Z := 24.
Definition FLOAT : Z := 25.
Definition BIGINT : Z := 26.
Definition DATETIME : Z := 27.
Definition INDEX : Z := 28.
Definition AND : Z := 29.
Definition JOIN : Z := 30.
Definition EXIT : Z := 31.
Definition HELP : Z := 32.
Definition TXN_BEGIN : Z := 33.
Definition TXN_COMMIT : Z := 34.
Definition TXN_ABORT : Z := 35.
Definition TXN_ROLLBACK : Z := 36.
Definition ORDER_BY : Z := 37.
Definition COUNT : Z := 38.
Definition MAX : Z := 39.
Definition MIN : Z := 40.
Definition SUM : Z := 41.
Definition AS : Z := 42.
Definition LEQ : Z := 43.
Definition NEQ : Z := 44.
Definition GEQ : Z := 45.
Definition T_EOF : Z := 46.
Definition IDENTIFIER : Z := 47.
Definition VALUE_STRING : Z := 48.
Definition VALUE_INT : Z := 49.
Definition VALUE_BIGINT : Z := 50.
Definition VALUE_FLOAT : Z := 51.
Definition VALUE_DATETIME : Z := 52.
Definition semicolon : Z := 53.
Definition lparen : Z := 54.
Definition rparen : Z := 55.
Definition comma : Z := 56.
Definition dot : Z := 57.
Definition equal : Z := 58.
Definition less : Z := 59.
Definition greater : Z := 60.
Definition star : Z := 61.
Definition slash : Z := 62.
Definition YYACCEPT : Z := 63.
Definition start : Z := 64.
Definition stmt : Z := 65.
Definition txnStmt : Z := 66.
Definition dbStmt : Z := 67.
Definition ddl : Z := 68.
Definition dml : Z := 69.
Definition aggregate_function : Z := 70.
Definition fieldList : Z := 71.
Definition colNameList : Z := 72.
Definition field : Z := 73.
Definition type_ : Z := 74.
Definition valueList : Z := 75.
Definition value : Z := 76.
Definition condition : Z := 77.
Definition optWhereClause : Z := 78.
Definition whereClause : Z := 79.
Definition col : Z := 80.
Definition colList : Z := 81.
Definition op : Z := 82.
Definition expr : Z := 83.
Definition setClauses : Z := 84.
Definition setClause : Z := 85.
Definition selector : Z := 86.
Definition tableList : Z := 87.
Definition opt_order_clause : Z := 88.
Definition opt_limit : Z := 89.
Definition order_clause_list : Z := 90.
Definition order_clause : Z := 91.
Definition opt_asc_desc : Z := 92.
Definition tbName : Z := 93.
Definition colName : Z := 94.
Definition path : Z := 95.
Definition filename : Z := 96.
End Sym.

(** ** Token kinds ([enum yytokentype]): a character stands for itself, the others are numbered from 258 in the order of their symbols. *)

Module Tok.
Definition YYEMPTY : Z := -2.
Definition YYEOF : Z := 0.
Definition YYerror : Z := 256.
Definition YYUNDEF : Z := 257.
Definition SHOW : Z := 258.
Definition TABLES : Z := 259.
Definition CREATE : Z := 260.
Definition TABLE : Z := 261.
Definition DROP : Z := 262.
Definition DESC : Z := 263.
Definition INSERT : Z := 264.
Definition INTO : Z := 265.
Definition VALUES : Z := 266.
Definition DELETE : Z := 267.
Definition FROM : Z := 268.
Definition ASC : Z := 269.
Definition ORDER : Z := 270.
Definition BY : Z := 271.
Definition LOAD : Z := 272.
Definition LIMIT : Z := 273.
Definition WHERE : Z := 274.
Definition UPDATE : Z := 275.
Definition SET : Z := 276.
Definition SELECT : Z := 277.
Definition INT : Z := 278.
Definition CHAR : Z := 279.
Definition FLOAT : Z := 280.
Definition BIGINT : Z := 281.
Definition DATETIME : Z := 282.
Definition INDEX : Z := 283.
Definition AND : Z := 284.
Definition JOIN : Z := 285.
Definition EXIT : Z := 286.
Definition HELP : Z := 287.
Definition TXN_BEGIN : Z := 288.
Definition TXN_COMMIT : Z := 289.
Definition TXN_ABORT : Z := 290.
Definition TXN_ROLLBACK : Z := 291.
Definition ORDER_BY : Z := 292.
Definition COUNT : Z := 293.
Definition MAX : Z := 294.
Definition MIN : Z := 295.
Definition SUM : Z := 296.
Definition AS : Z := 297.
Definition LEQ : Z := 298.
Definition NEQ : Z := 299.
Definition GEQ : Z := 300.
Definition T_EOF : Z := 301.
Definition IDENTIFIER : Z := 302.
Definition VALUE_STRING : Z := 303.
Definition VALUE_INT : Z := 304.
Definition VALUE_BIGINT : Z := 305.
Definition VALUE_FLOAT : Z := 306.
Definition VALUE_DATETIME : Z := 307.
End Tok.

(** ** Constants and tables *)

Definition YYFINAL : Z := 50.
Definition YYLAST : Z := 162.
Definition YYNTOKENS : Z := 63.
Definition YYMAXUTOK : Z := 307.
Definition YYPACT_NINF : Z := -101.
Definition YYINITDEPTH : Z := 200.

(** The symbol of a token kind. *)
Definition yytranslate : list Z :=
  [0; 2; 2; 2; 2; 2; 2; 2; 2; 2; 2; 2; 2; 2; 2; 2; 2; 2; 2; 2; 2; 2; 2; 2; 2; 2; 2; 2; 2; 2; 2; 2; 2; 2; 2; 2;
   2; 2; 2; 2; 54; 55; 61; 2; 56; 2; 57; 62; 2; 2; 2; 2; 2; 2; 2; 2; 2; 2; 2; 53; 59; 58; 60; 2; 2; 2; 2; 2;
   2; 2; 2; 2; 2; 2; 2; 2; 2; 2; 2; 2; 2; 2; 2; 2; 2; 2; 2; 2; 2; 2; 2; 2; 2; 2; 2; 2; 2; 2; 2; 2; 2; 2; 2; 2;
   2; 2; 2; 2; 2; 2; 2; 2; 2; 2; 2; 2; 2; 2; 2; 2; 2; 2; 2; 2; 2; 2; 2; 2; 2; 2; 2; 2; 2; 2; 2; 2; 2; 2; 2; 2;
   2; 2; 2; 2; 2; 2; 2; 2; 2; 2; 2; 2; 2; 2; 2; 2; 2; 2; 2; 2; 2; 2; 2; 2; 2; 2; 2; 2; 2; 2; 2; 2; 2; 2; 2; 2;
   2; 2; 2; 2; 2; 2; 2; 2; 2; 2; 2; 2; 2; 2; 2; 2; 2; 2; 2; 2; 2; 2; 2; 2; 2; 2; 2; 2; 2; 2; 2; 2; 2; 2; 2; 2;
   2; 2; 2; 2; 2; 2; 2; 2; 2; 2; 2; 2; 2; 2; 2; 2; 2; 2; 2; 2; 2; 2; 2; 2; 2; 2; 2; 2; 2; 2; 2; 2; 2; 2; 2; 2;
   2; 2; 2; 2; 2; 2; 2; 2; 1; 2; 3; 4; 5; 6; 7; 8; 9; 10; 11; 12; 13; 14; 15; 16; 17; 18; 19; 20; 21; 22; 23;
   24; 25; 26; 27; 28; 29; 30; 31; 32; 33; 34; 35; 36; 37; 38; 39; 40; 41; 42; 43; 44; 45; 46; 47; 48; 49; 50;
   51; 52].

(** Where in [yytable] the actions of a state are. *)
Definition yypact : list Z :=
  [73; 4; 9; 12; (-27); 20; 13; (-28); (-27); 26; (-101); (-101); (-101); (-101); (-101); (-101); (-101); 38;
   3; (-101); (-101); (-101); (-101); (-101); 36; (-27); (-27); (-27); (-27); (-101); (-101); (-27); (-27);
   (-101); (-18); 48; (-7); 39; (-101); (-101); (-101); (-101); 5; (-101); 23; (-101); 30; 70; 32; (-101);
   (-101); (-101); (-27); 37; 40; (-101); 45; 81; 101; 76; (-28); (-27); 63; (-28); 92; (-36); 93; (-27); 92;
   (-101); 92; 92; 92; 46; 93; (-101); (-28); (-101); (-101); (-101); (-101); (-101); (-2); (-101); 83; 87;
   (-101); (-14); (-101); (-101); (-3); (-101); 91; 14; (-101); 16; 85; (-101); 114; 53; (-101); 92; (-101);
   74; 102; (-27); (-27); 130; (-101); 92; (-101); 94; (-101); (-101); (-101); (-101); (-101); 92; (-101);
   (-101); (-101); (-101); (-101); (-101); 19; (-101); 93; (-101); (-101); (-101); (-101); (-101); (-101); 80;
   (-101); (-101); 85; 92; (-101); (-101); 131; 128; (-101); 100; (-101); (-101); 85; (-101); (-101); (-101);
   (-101); (-101); 137; 93; 103; (-101); 96; (-101); (-27); 27; 97; (-101); (-101); (-101); (-14); (-101);
   (-101); (-101); 93; (-101); (-101)].

(** The default reduction of a state; 0 is an error. *)
Definition yydefact : list Z :=
  [0; 0; 0; 0; 0; 0; 0; 0; 0; 0; 4; 3; 10; 11; 12; 13; 5; 0; 0; 9; 6; 7; 8; 14; 0; 0; 0; 0; 0; 84; 18; 0; 0;
   91; 0; 0; 86; 0; 27; 28; 29; 30; 85; 69; 0; 55; 70; 0; 0; 54; 1; 2; 0; 0; 0; 17; 0; 0; 49; 0; 0; 0; 0; 0;
   0; 0; 0; 0; 0; 15; 0; 0; 0; 0; 0; 22; 0; 90; 26; 87; 88; 85; 49; 65; 0; 0; 56; 49; 71; 53; 0; 31; 0; 0; 33;
   0; 0; 51; 50; 0; 89; 0; 23; 0; 0; 0; 0; 75; 16; 0; 36; 0; 39; 37; 40; 35; 19; 0; 20; 46; 43; 44; 45; 47; 0;
   41; 0; 61; 60; 62; 57; 58; 59; 0; 66; 67; 0; 0; 73; 72; 0; 77; 32; 0; 34; 21; 0; 52; 63; 64; 48; 68; 0; 0;
   0; 24; 0; 42; 0; 83; 74; 78; 76; 38; 49; 82; 81; 80; 0; 25; 79].

(** Where in [yytable] the gotos of a nonterminal are. *)
Definition yypgoto : list Z :=
  [(-101); (-101); (-101); (-101); (-101); (-101); (-101); (-101); (-101); 84; 49; (-101); (-101); (-100); 29;
   (-80); (-101); (-65); (-101); (-101); (-101); (-101); 56; 95; 1; (-101); (-101); (-101); (-6); (-101);
   (-4); (-58); (-29); 99].

(** The default goto of a nonterminal. *)
Definition yydefgoto : list Z :=
  [0; 17; 18; 19; 20; 21; 22; 44; 90; 93; 91; 115; 124; 125; 97; 75; 98; 45; 46; 133; 150; 82; 83; 47; 87; 141;
   155; 160; 161; 167; 48; 49; 35; 36].

(** Shifts (positive), reductions (negative) and gotos. *)
Definition yytable : list Z :=
  [30; 86; 102; 135; 37; 74; 84; 107; 23; 99; 89; 42; 92; 94; 94; 25; 105; 74; 27; 33; 29; 53; 54; 55; 56; 43;
   32; 57; 58; 34; 31; 77; 24; 148; 80; 165; 151; 26; 50; 59; 28; 166; 106; 84; 60; 136; 157; 100; 69; 52; 62;
   92; 108; 109; 101; 63; 51; 78; 61; 144; 64; 99; (-84); 88; 38; 39; 40; 41; 149; 116; 117; 118; 117; 42;
   145; 146; 1; 65; 2; 152; 3; 4; 5; 67; 169; 6; 66; 43; 159; 68; 7; 70; 73; 8; 71; 9; 127; 128; 129; 72; 96;
   138; 139; 159; 10; 11; 12; 13; 14; 15; 33; 130; 131; 132; 110; 111; 112; 113; 114; 16; 74; 81; 119; 120;
   121; 122; 123; 42; 119; 120; 121; 122; 123; 119; 120; 121; 122; 123; 76; 81; 42; 103; 104; 126; 137; 140;
   154; 153; 143; 156; 158; 163; 162; 168; 88; 147; 95; 134; 142; 164; 85; 79; 170].

(** Whose entry it is. *)
Definition yycheck : list Z :=
  [4; 66; 82; 103; 8; 19; 64; 87; 4; 74; 68; 47; 70; 71; 72; 6; 30; 19; 6; 47; 47; 25; 26; 27; 28; 61; 13; 31;
   32; 57; 10; 60; 28; 133; 63; 8; 136; 28; 0; 57; 28; 14; 56; 101; 62; 103; 146; 76; 52; 13; 57; 109; 55; 56;
   56; 62; 53; 61; 10; 117; 21; 126; 57; 67; 38; 39; 40; 41; 133; 55; 56; 55; 56; 47; 55; 56; 3; 54; 5; 137;
   7; 8; 9; 13; 164; 12; 56; 61; 153; 57; 17; 54; 11; 20; 54; 22; 43; 44; 45; 54; 54; 105; 106; 168; 31; 32;
   33; 34; 35; 36; 47; 58; 59; 60; 23; 24; 25; 26; 27; 46; 19; 47; 48; 49; 50; 51; 52; 47; 48; 49; 50; 51; 52;
   48; 49; 50; 51; 52; 62; 47; 47; 58; 55; 29; 42; 15; 18; 16; 54; 49; 13; 55; 49; 56; 158; 126; 72; 101; 109;
   158; 65; 62; 168].

(** The symbol a state is entered by. *)
Definition yystos : list Z :=
  [0; 3; 5; 7; 8; 9; 12; 17; 20; 22; 31; 32; 33; 34; 35; 36; 46; 64; 65; 66; 67; 68; 69; 4; 28; 6; 28; 6; 28;
   47; 93; 10; 13; 47; 57; 95; 96; 93; 38; 39; 40; 41; 47; 61; 70; 80; 81; 86; 93; 94; 0; 53; 13; 93; 93; 93;
   93; 93; 93; 57; 62; 10; 57; 62; 21; 54; 56; 13; 57; 93; 54; 54; 54; 11; 19; 78; 62; 95; 93; 96; 95; 47; 84;
   85; 94; 86; 80; 87; 93; 94; 71; 73; 94; 72; 94; 72; 54; 77; 79; 80; 95; 56; 78; 58; 55; 30; 56; 78; 55; 56;
   23; 24; 25; 26; 27; 74; 55; 56; 55; 48; 49; 50; 51; 52; 75; 76; 29; 43; 44; 45; 58; 59; 60; 82; 85; 76; 94;
   42; 93; 93; 15; 88; 73; 54; 94; 55; 56; 77; 76; 80; 83; 76; 94; 16; 18; 89; 49; 76; 13; 80; 90; 91; 49; 55;
   87; 8; 14; 92; 56; 78; 91].

(** The left-hand side of a rule. *)
Definition yyr1 : list Z :=
  [0; 63; 64; 64; 64; 64; 65; 65; 65; 65; 66; 66; 66; 66; 67; 67; 68; 68; 68; 68; 68; 69; 69; 69; 69; 69; 69;
   70; 70; 70; 70; 71; 71; 72; 72; 73; 74; 74; 74; 74; 74; 75; 75; 76; 76; 76; 76; 76; 77; 78; 78; 79; 79; 80;
   80; 81; 81; 82; 82; 82; 82; 82; 82; 83; 83; 84; 84; 85; 85; 86; 86; 87; 87; 87; 88; 88; 89; 89; 90; 90; 91;
   92; 92; 92; 93; 94; 95; 95; 95; 95; 95; 96].

(** The length of its right-hand side. *)
Definition yyr2 : list Z :=
  [0; 2; 2; 1; 1; 1; 1; 1; 1; 1; 1; 1; 1; 1; 2; 4; 6; 3; 2; 6; 6; 7; 4; 5; 7; 10; 4; 1; 1; 1; 1; 1; 3; 1; 3; 2;
   1; 1; 4; 1; 1; 1; 3; 1; 1; 1; 1; 1; 3; 0; 2; 1; 3; 3; 1; 1; 3; 1; 1; 1; 1; 1; 1; 1; 1; 1; 3; 3; 4; 1; 1; 1;
   3; 3; 3; 0; 2; 0; 1; 3; 2; 1; 1; 0; 1; 1; 1; 3; 3; 4; 3; 1].

(** An array is read inside its bounds. *)
Definition at_ (t : list Z) (i : Z) : outcome Z := if i <? 0 then Stuck OutOfBounds else or_stuck OutOfBounds (t !! Z.to_nat i).

(** ** Semantic values ([struct SemValue])

    All members live side by side; a shared pointer is an [option], a [float] is
    given by its bits. *)

Record SemValue : Type := mkSemValue {
  sv_int : Z;
  sv_bigint : Z;
  sv_float : Z;
  sv_datetime : list Z;
  sv_str : string;
  sv_strs : list string;
  sv_node : option Ast.TreeNode;
  sv_comp_op : Ast.SvCompOp;
  sv_type_len : option Ast.TypeLen;
  sv_field : option Ast.Field;
  sv_fields : list Ast.Field;
  sv_expr : option Ast.Expr;
  sv_val : option Ast.Lit;
  sv_vals : list Ast.Lit;
  sv_col : option Ast.Col;
  sv_cols : list Ast.Col;
  sv_set_clause : option Ast.SetClause;
  sv_set_clauses : list Ast.SetClause;
  sv_cond : option Ast.BinaryExpr;
  sv_conds : list Ast.BinaryExpr;
  sv_orderby_dir : Ast.OrderByDir;
  sv_orderby : option Ast.OrderBy;
  sv_aggregate_type : Ast.AggregateType;
  sv_orderbys : list Ast.OrderBy
}.

Definition set_sv_int (x : Z) (s : SemValue) : SemValue :=
  mkSemValue x (sv_bigint s) (sv_float s) (sv_datetime s) (sv_str s) (sv_strs s) (sv_node s) (sv_comp_op s) (sv_type_len s) (sv_field s) (sv_fields s) (sv_expr s) (sv_val s) (sv_vals s) (sv_col s) (sv_cols s) (sv_set_clause s) (sv_set_clauses s) (sv_cond s) (sv_conds s) (sv_orderby_dir s) (sv_orderby s) (sv_aggregate_type s) (sv_orderbys s).
Definition set_sv_bigint (x : Z) (s : SemValue) : SemValue :=
  mkSemValue (sv_int s) x (sv_float s) (sv_datetime s) (sv_str s) (sv_strs s) (sv_node s) (sv_comp_op s) (sv_type_len s) (sv_field s) (sv_fields s) (sv_expr s) (sv_val s) (sv_vals s) (sv_col s) (sv_cols s) (sv_set_clause s) (sv_set_clauses s) (sv_cond s) (sv_conds s) (sv_orderby_dir s) (sv_orderby s) (sv_aggregate_type s) (sv_orderbys s).
Definition set_sv_float (x : Z) (s : SemValue) : SemValue :=
  mkSemValue (sv_int s) (sv_bigint s) x (sv_datetime s) (sv_str s) (sv_strs s) (sv_node s) (sv_comp_op s) (sv_type_len s) (sv_field s) (sv_fields s) (sv_expr s) (sv_val s) (sv_vals s) (sv_col s) (sv_cols s) (sv_set_clause s) (sv_set_clauses s) (sv_cond s) (sv_conds s) (sv_orderby_dir s) (sv_orderby s) (sv_aggregate_type s) (sv_orderbys s).
Definition set_sv_datetime (x : list Z) (s : SemValue) : SemValue :=
  mkSemValue (sv_int s) (sv_bigint s) (sv_float s) x (sv_str s) (sv_strs s) (sv_node s) (sv_comp_op s) (sv_type_len s) (sv_field s) (sv_fields s) (sv_expr s) (sv_val s) (sv_vals s) (sv_col s) (sv_cols s) (sv_set_clause s) (sv_set_clauses s) (sv_cond s) (sv_conds s) (sv_orderby_dir s) (sv_orderby s) (sv_aggregate_type s) (sv_orderbys s).
Definition set_sv_str (x : string) (s : SemValue) : SemValue :=
  mkSemValue (sv_int s) (sv_bigint s) (sv_float s) (sv_datetime s) x (sv_strs s) (sv_node s) (sv_comp_op s) (sv_type_len s) (sv_field s) (sv_fields s) (sv_expr s) (sv_val s) (sv_vals s) (sv_col s) (sv_cols s) (sv_set_clause s) (sv_set_clauses s) (sv_cond s) (sv_conds s) (sv_orderby_dir s) (sv_orderby s) (sv_aggregate_type s) (sv_orderbys s).
Definition set_sv_strs (x : list string) (s : SemValue) : SemValue :=
  mkSemValue (sv_int s) (sv_bigint s) (sv_float s) (sv_datetime s) (sv_str s) x (sv_node s) (sv_comp_op s) (sv_type_len s) (sv_field s) (sv_fields s) (sv_expr s) (sv_val s) (sv_vals s) (sv_col s) (sv_cols s) (sv_set_clause s) (sv_set_clauses s) (sv_cond s) (sv_conds s) (sv_orderby_dir s) (sv_orderby s) (sv_aggregate_type s) (sv_orderbys s).
Definition set_sv_node (x : option Ast.TreeNode) (s : SemValue) : SemValue :=
  mkSemValue (sv_int s) (sv_bigint s) (sv_float s) (sv_datetime s) (sv_str s) (sv_strs s) x (sv_comp_op s) (sv_type_len s) (sv_field s) (sv_fields s) (sv_expr s) (sv_val s) (sv_vals s) (sv_col s) (sv_cols s) (sv_set_clause s) (sv_set_clauses s) (sv_cond s) (sv_conds s) (sv_orderby_dir s) (sv_orderby s) (sv_aggregate_type s) (sv_orderbys s).
Definition set_sv_comp_op (x : Ast.SvCompOp) (s : SemValue) : SemValue :=
  mkSemValue (sv_int s) (sv_bigint s) (sv_float s) (sv_datetime s) (sv_str s) (sv_strs s) (sv_node s) x (sv_type_len s) (sv_field s) (sv_fields s) (sv_expr s) (sv_val s) (sv_vals s) (sv_col s) (sv_cols s) (sv_set_clause s) (sv_set_clauses s) (sv_cond s) (sv_conds s) (sv_orderby_dir s) (sv_orderby s) (sv_aggregate_type s) (sv_orderbys s).
Definition set_sv_type_len (x : option Ast.TypeLen) (s : SemValue) : SemValue :=
  mkSemValue (sv_int s) (sv_bigint s) (sv_float s) (sv_datetime s) (sv_str s) (sv_strs s) (sv_node s) (sv_comp_op s) x (sv_field s) (sv_fields s) (sv_expr s) (sv_val s) (sv_vals s) (sv_col s) (sv_cols s) (sv_set_clause s) (sv_set_clauses s) (sv_cond s) (sv_conds s) (sv_orderby_dir s) (sv_orderby s) (sv_aggregate_type s) (sv_orderbys s).
Definition set_sv_field (x : option Ast.Field) (s : SemValue) : SemValue :=
  mkSemValue (sv_int s) (sv_bigint s) (sv_float s) (sv_datetime s) (sv_str s) (sv_strs s) (sv_node s) (sv_comp_op s) (sv_type_len s) x (sv_fields s) (sv_expr s) (sv_val s) (sv_vals s) (sv_col s) (sv_cols s) (sv_set_clause s) (sv_set_clauses s) (sv_cond s) (sv_conds s) (sv_orderby_dir s) (sv_orderby s) (sv_aggregate_type s) (sv_orderbys s).
Definition set_sv_fields (x : list Ast.Field) (s : SemValue) : SemValue :=
  mkSemValue (sv_int s) (sv_bigint s) (sv_float s) (sv_datetime s) (sv_str s) (sv_strs s) (sv_node s) (sv_comp_op s) (sv_type_len s) (sv_field s) x (sv_expr s) (sv_val s) (sv_vals s) (sv_col s) (sv_cols s) (sv_set_clause s) (sv_set_clauses s) (sv_cond s) (sv_conds s) (sv_orderby_dir s) (sv_orderby s) (sv_aggregate_type s) (sv_orderbys s).
Definition set_sv_expr (x : option Ast.Expr) (s : SemValue) : SemValue :=
  mkSemValue (sv_int s) (sv_bigint s) (sv_float s) (sv_datetime s) (sv_str s) (sv_strs s) (sv_node s) (sv_comp_op s) (sv_type_len s) (sv_field s) (sv_fields s) x (sv_val s) (sv_vals s) (sv_col s) (sv_cols s) (sv_set_clause s) (sv_set_clauses s) (sv_cond s) (sv_conds s) (sv_orderby_dir s) (sv_orderby s) (sv_aggregate_type s) (sv_orderbys s).
Definition set_sv_val (x : option Ast.Lit) (s : SemValue) : SemValue :=
  mkSemValue (sv_int s) (sv_bigint s) (sv_float s) (sv_datetime s) (sv_str s) (sv_strs s) (sv_node s) (sv_comp_op s) (sv_type_len s) (sv_field s) (sv_fields s) (sv_expr s) x (sv_vals s) (sv_col s) (sv_cols s) (sv_set_clause s) (sv_set_clauses s) (sv_cond s) (sv_conds s) (sv_orderby_dir s) (sv_orderby s) (sv_aggregate_type s) (sv_orderbys s).
Definition set_sv_vals (x : list Ast.Lit) (s : SemValue) : SemValue :=
  mkSemValue (sv_int s) (sv_bigint s) (sv_float s) (sv_datetime s) (sv_str s) (sv_strs s) (sv_node s) (sv_comp_op s) (sv_type_len s) (sv_field s) (sv_fields s) (sv_expr s) (sv_val s) x (sv_col s) (sv_cols s) (sv_set_clause s) (sv_set_clauses s) (sv_cond s) (sv_conds s) (sv_orderby_dir s) (sv_orderby s) (sv_aggregate_type s) (sv_orderbys s).
Definition set_sv_col (x : option Ast.Col) (s : SemValue) : SemValue :=
  mkSemValue (sv_int s) (sv_bigint s) (sv_float s) (sv_datetime s) (sv_str s) (sv_strs s) (sv_node s) (sv_comp_op s) (sv_type_len s) (sv_field s) (sv_fields s) (sv_expr s) (sv_val s) (sv_vals s) x (sv_cols s) (sv_set_clause s) (sv_set_clauses s) (sv_cond s) (sv_conds s) (sv_orderby_dir s) (sv_orderby s) (sv_aggregate_type s) (sv_orderbys s).
Definition set_sv_cols (x : list Ast.Col) (s : SemValue) : SemValue :=
  mkSemValue (sv_int s) (sv_bigint s) (sv_float s) (sv_datetime s) (sv_str s) (sv_strs s) (sv_node s) (sv_comp_op s) (sv_type_len s) (sv_field s) (sv_fields s) (sv_expr s) (sv_val s) (sv_vals s) (sv_col s) x (sv_set_clause s) (sv_set_clauses s) (sv_cond s) (sv_conds s) (sv_orderby_dir s) (sv_orderby s) (sv_aggregate_type s) (sv_orderbys s).
Definition set_sv_set_clause (x : option Ast.SetClause) (s : SemValue) : SemValue :=
  mkSemValue (sv_int s) (sv_bigint s) (sv_float s) (sv_datetime s) (sv_str s) (sv_strs s) (sv_node s) (sv_comp_op s) (sv_type_len s) (sv_field s) (sv_fields s) (sv_expr s) (sv_val s) (sv_vals s) (sv_col s) (sv_cols s) x (sv_set_clauses s) (sv_cond s) (sv_conds s) (sv_orderby_dir s) (sv_orderby s) (sv_aggregate_type s) (sv_orderbys s).
Definition set_sv_set_clauses (x : list Ast.SetClause) (s : SemValue) : SemValue :=
  mkSemValue (sv_int s) (sv_bigint s) (sv_float s) (sv_datetime s) (sv_str s) (sv_strs s) (sv_node s) (sv_comp_op s) (sv_type_len s) (sv_field s) (sv_fields s) (sv_expr s) (sv_val s) (sv_vals s) (sv_col s) (sv_cols s) (sv_set_clause s) x (sv_cond s) (sv_conds s) (sv_orderby_dir s) (sv_orderby s) (sv_aggregate_type s) (sv_orderbys s).
Definition set_sv_cond (x : option Ast.BinaryExpr) (s : SemValue) : SemValue :=
  mkSemValue (sv_int s) (sv_bigint s) (sv_float s) (sv_datetime s) (sv_str s) (sv_strs s) (sv_node s) (sv_comp_op s) (sv_type_len s) (sv_field s) (sv_fields s) (sv_expr s) (sv_val s) (sv_vals s) (sv_col s) (sv_cols s) (sv_set_clause s) (sv_set_clauses s) x (sv_conds s) (sv_orderby_dir s) (sv_orderby s) (sv_aggregate_type s) (sv_orderbys s).
Definition set_sv_conds (x : list Ast.BinaryExpr) (s : SemValue) : SemValue :=
  mkSemValue (sv_int s) (sv_bigint s) (sv_float s) (sv_datetime s) (sv_str s) (sv_strs s) (sv_node s) (sv_comp_op s) (sv_type_len s) (sv_field s) (sv_fields s) (sv_expr s) (sv_val s) (sv_vals s) (sv_col s) (sv_cols s) (sv_set_clause s) (sv_set_clauses s) (sv_cond s) x (sv_orderby_dir s) (sv_orderby s) (sv_aggregate_type s) (sv_orderbys s).
Definition set_sv_orderby_dir (x : Ast.OrderByDir) (s : SemValue) : SemValue :=
  mkSemValue (sv_int s) (sv_bigint s) (sv_float s) (sv_datetime s) (sv_str s) (sv_strs s) (sv_node s) (sv_comp_op s) (sv_type_len s) (sv_field s) (sv_fields s) (sv_expr s) (sv_val s) (sv_vals s) (sv_col s) (sv_cols s) (sv_set_clause s) (sv_set_clauses s) (sv_cond s) (sv_conds s) x (sv_orderby s) (sv_aggregate_type s) (sv_orderbys s).
Definition set_sv_orderby (x : option Ast.OrderBy) (s : SemValue) : SemValue :=
  mkSemValue (sv_int s) (sv_bigint s) (sv_float s) (sv_datetime s) (sv_str s) (sv_strs s) (sv_node s) (sv_comp_op s) (sv_type_len s) (sv_field s) (sv_fields s) (sv_expr s) (sv_val s) (sv_vals s) (sv_col s) (sv_cols s) (sv_set_clause s) (sv_set_clauses s) (sv_cond s) (sv_conds s) (sv_orderby_dir s) x (sv_aggregate_type s) (sv_orderbys s).
Definition set_sv_aggregate_type (x : Ast.AggregateType) (s : SemValue) : SemValue :=
  mkSemValue (sv_int s) (sv_bigint s) (sv_float s) (sv_datetime s) (sv_str s) (sv_strs s) (sv_node s) (sv_comp_op s) (sv_type_len s) (sv_field s) (sv_fields s) (sv_expr s) (sv_val s) (sv_vals s) (sv_col s) (sv_cols s) (sv_set_clause s) (sv_set_clauses s) (sv_cond s) (sv_conds s) (sv_orderby_dir s) (sv_orderby s) x (sv_orderbys s).
Definition set_sv_orderbys (x : list Ast.OrderBy) (s : SemValue) : SemValue :=
  mkSemValue (sv_int s) (sv_bigint s) (sv_float s) (sv_datetime s) (sv_str s) (sv_strs s) (sv_node s) (sv_comp_op s) (sv_type_len s) (sv_field s) (sv_fields s) (sv_expr s) (sv_val s) (sv_vals s) (sv_col s) (sv_cols s) (sv_set_clause s) (sv_set_clauses s) (sv_cond s) (sv_conds s) (sv_orderby_dir s) (sv_orderby s) (sv_aggregate_type s) x.

(** ** Semantic actions

    [v k] is [yyvsp[k]]; an action changes a copy of [yyval] or accepts with the
    tree it stores in [parse_tree]. *)

Inductive Reduced : Type :=
| Value_ (yyval : SemValue)
| Accept_ (tree : option Ast.TreeNode).

(** What a stored pointer points to. *)
Definition the {A} (o : option A) : outcome A := or_stuck NullDeref o.

Section action.
Context (v : Z -> outcome SemValue) (yyval : SemValue).
Let node (n : Ast.TreeNode) : outcome Reduced := Ret (Value_ (set_sv_node (Some n) yyval)).
Let type_len (t : Ast.SvType) (len : Z) : outcome Reduced := Ret (Value_ (set_sv_type_len (Some (Ast.mkTypeLen t len)) yyval)).
Let comp_op (op : Ast.SvCompOp) : outcome Reduced := Ret (Value_ (set_sv_comp_op op yyval)).
Let literal (x : Ast.Lit) : outcome Reduced := Ret (Value_ (set_sv_val (Some x) yyval)).
Let str (s : string) : outcome Reduced := Ret (Value_ (set_sv_str s yyval)).

Definition action (yyn : Z) : outcome Reduced :=
  match yyn with
  | 2 => x ← v (-1); Ret (Accept_ (sv_node x))
  | 3 => Ret (Accept_ (Some Ast.Help))
  | 4 => Ret (Accept_ None)
  | 5 => Ret (Accept_ None)
  | 10 => node Ast.TxnBegin
  | 11 => node Ast.TxnCommit
  | 12 => node Ast.TxnAbort
  | 13 => node Ast.TxnRollback
  | 14 => node Ast.ShowTables
  | 15 => t ← v 0; node (Ast.ShowIndex (sv_str t))
  | 16 => t ← v (-3); l ← v (-1); node (Ast.CreateTable (sv_str t) (sv_fields l))
  | 17 => t ← v 0; node (Ast.DropTable (sv_str t))
  | 18 => t ← v 0; node (Ast.DescTable (sv_str t))
  | 19 => t ← v (-3); l ← v (-1); node (Ast.CreateIndex (sv_str t) (sv_strs l))
  | 20 => t ← v (-3); l ← v (-1); node (Ast.DropIndex (sv_str t) (sv_strs l))
  | 21 => t ← v (-4); l ← v (-1); node (Ast.InsertStmt (sv_str t) (sv_vals l))
  | 22 => t ← v (-1); w ← v 0; node (Ast.DeleteStmt (sv_str t) (sv_conds w))
  | 23 => t ← v (-3); l ← v (-1); w ← v 0; node (Ast.UpdateStmt (sv_str t) (sv_set_clauses l) (sv_conds w))
  | 24 => c ← v (-5); t ← v (-3); w ← v (-2); o ← v (-1); l ← v 0;
      node (Ast.Select (Ast.order_select (sv_cols c) (sv_strs t) (sv_conds w) (sv_orderbys o) (sv_int l)))
  | 25 => c ← v (-6); t ← v (-1); w ← v 0; f ← v (-8); n ← v (-3);
      node (Ast.Select (Ast.aggregate_select (sv_cols c) (sv_strs t) (sv_conds w) (sv_aggregate_type f) (sv_str n)))
  | 26 => p ← v (-2); t ← v 0; node (Ast.LoadStmt (sv_str p) (sv_str t))
  | 27 => Ret (Value_ (set_sv_aggregate_type Ast.SV_COUNT yyval))
  | 28 => Ret (Value_ (set_sv_aggregate_type Ast.SV_MAX yyval))
  | 29 => Ret (Value_ (set_sv_aggregate_type Ast.SV_MIN yyval))
  | 30 => Ret (Value_ (set_sv_aggregate_type Ast.SV_SUM yyval))
  | 31 => x ← v 0; y ← the (sv_field x); Ret (Value_ (set_sv_fields [y] yyval))
  | 32 => x ← v 0; y ← the (sv_field x); Ret (Value_ (set_sv_fields (sv_fields yyval ++ [y]) yyval))
  | 33 => x ← v 0; Ret (Value_ (set_sv_strs [sv_str x] yyval))
  | 34 => x ← v 0; Ret (Value_ (set_sv_strs (sv_strs yyval ++ [sv_str x]) yyval))
  | 35 => c ← v (-1); t ← v 0; tl ← the (sv_type_len t); Ret (Value_ (set_sv_field (Some (Ast.ColDefField (sv_str c) tl)) yyval))
  | 36 => type_len Ast.SV_TYPE_INT 4
  | 37 => type_len Ast.SV_TYPE_BIGINT 8
  | 38 => n ← v (-1); type_len Ast.SV_TYPE_STRING (sv_int n)
  | 39 => type_len Ast.SV_TYPE_FLOAT 4
  | 40 => type_len Ast.SV_TYPE_DATETIME 20
  | 41 => x ← v 0; y ← the (sv_val x); Ret (Value_ (set_sv_vals [y] yyval))
  | 42 => x ← v 0; y ← the (sv_val x); Ret (Value_ (set_sv_vals (sv_vals yyval ++ [y]) yyval))
  | 43 => x ← v 0; literal (Ast.IntLit (sv_int x))
  | 44 => x ← v 0; literal (Ast.BigintLit (sv_bigint x))
  | 45 => x ← v 0; literal (Ast.FloatLit (sv_float x))
  | 46 => x ← v 0; literal (Ast.StringLit (bytes_of_string (sv_str x)))
  | 47 => x ← v 0; literal (Ast.DatetimeLit (sv_datetime x))
  | 48 => l ← v (-2); o ← v (-1); r ← v 0; c ← the (sv_col l); e ← the (sv_expr r);
      Ret (Value_ (set_sv_cond (Some (Ast.mkBinary c (sv_comp_op o) e)) yyval))
  | 50 => w ← v 0; Ret (Value_ (set_sv_conds (sv_conds w) yyval))
  | 51 => x ← v 0; y ← the (sv_cond x); Ret (Value_ (set_sv_conds [y] yyval))
  | 52 => x ← v 0; y ← the (sv_cond x); Ret (Value_ (set_sv_conds (sv_conds yyval ++ [y]) yyval))
  | 53 => t ← v (-2); c ← v 0; Ret (Value_ (set_sv_col (Some (Ast.mkAstCol (sv_str t) (sv_str c))) yyval))
  | 54 => c ← v 0; Ret (Value_ (set_sv_col (Some (Ast.mkAstCol "" (sv_str c))) yyval))
  | 55 => x ← v 0; y ← the (sv_col x); Ret (Value_ (set_sv_cols [y] yyval))
  | 56 => x ← v 0; y ← the (sv_col x); Ret (Value_ (set_sv_cols (sv_cols yyval ++ [y]) yyval))
  | 57 => comp_op Ast.SV_OP_EQ
  | 58 => comp_op Ast.SV_OP_LT
  | 59 => comp_op Ast.SV_OP_GT
  | 60 => comp_op Ast.SV_OP_NE
  | 61 => comp_op Ast.SV_OP_LE
  | 62 => comp_op Ast.SV_OP_GE
  | 63 => x ← v 0; Ret (Value_ (set_sv_expr (Ast.ValueExpr <$> sv_val x) yyval))
  | 64 => x ← v 0; Ret (Value_ (set_sv_expr (Ast.ColExpr <$> sv_col x) yyval))
  | 65 => x ← v 0; y ← the (sv_set_clause x); Ret (Value_ (set_sv_set_clauses [y] yyval))
  | 66 => x ← v 0; y ← the (sv_set_clause x); Ret (Value_ (set_sv_set_clauses (sv_set_clauses yyval ++ [y]) yyval))
  | 67 => c ← v (-2); x ← v 0; y ← the (sv_val x); Ret (Value_ (set_sv_set_clause (Some (Ast.mkAstSet (sv_str c) y false)) yyval))
  | 68 => c ← v (-3); x ← v 0; y ← the (sv_val x); Ret (Value_ (set_sv_set_clause (Some (Ast.mkAstSet (sv_str c) y true)) yyval))
  | 69 => Ret (Value_ (set_sv_cols [] yyval))
  | 71 => x ← v 0; Ret (Value_ (set_sv_strs [sv_str x] yyval))
  | 72 => x ← v 0; Ret (Value_ (set_sv_strs (sv_strs yyval ++ [sv_str x]) yyval))
  | 73 => x ← v 0; Ret (Value_ (set_sv_strs (sv_strs yyval ++ [sv_str x]) yyval))
  | 74 => l ← v 0; Ret (Value_ (set_sv_orderbys (sv_orderbys l) yyval))
  | 76 => n ← v 0; Ret (Value_ (set_sv_int (sv_int n) yyval))
  | 77 => Ret (Value_ (set_sv_int (-1) yyval))
  | 78 => x ← v 0; y ← the (sv_orderby x); Ret (Value_ (set_sv_orderbys [y] yyval))
  | 79 => x ← v 0; y ← the (sv_orderby x); Ret (Value_ (set_sv_orderbys (sv_orderbys yyval ++ [y]) yyval))
  | 80 => c ← v (-1); d ← v 0; x ← the (sv_col c); Ret (Value_ (set_sv_orderby (Some (Ast.mkOrderBy x (sv_orderby_dir d))) yyval))
  | 81 => Ret (Value_ (set_sv_orderby_dir Ast.OrderBy_ASC yyval))
  | 82 => Ret (Value_ (set_sv_orderby_dir Ast.OrderBy_DESC yyval))
  | 83 => Ret (Value_ (set_sv_orderby_dir Ast.OrderBy_DEFAULT yyval))
  | 86 => f ← v 0; str (sv_str f)
  | 87 => a ← v (-2); b ← v 0; str (sv_str a ++ "." ++ sv_str b)%string
  | 88 => a ← v (-2); b ← v 0; str (sv_str a ++ "/" ++ sv_str b)%string
  | 89 => b ← v 0; str ("../" ++ sv_str b)%string
  | 90 => b ← v 0; str ("./" ++ sv_str b)%string
  | _ => Ret (Value_ yyval)
  end.
End action.

(** ** The automaton *)

(** [YYTRANSLATE] *)
Definition yytranslated (yychar : Z) : outcome Z :=
  if (0 <=? yychar) && (yychar <=? YYMAXUTOK) then at_ yytranslate yychar else Ret Sym.YYUNDEF.

(** What to do in a state ([yybackup], [yydefault]): a state of which [needs] is
    false acts without a lookahead symbol. *)
Inductive Verdict : Type :=
| Shift (yystate : Z)
| Reduce (yyn : Z)
| SyntaxError.

Definition needs (yystate : Z) : outcome bool := yyn ← at_ yypact yystate; Ret (negb (yyn =? YYPACT_NINF)).

Definition yydefault (yystate : Z) : outcome Verdict :=
  yyn ← at_ yydefact yystate;
  Ret (if yyn =? 0 then SyntaxError else Reduce yyn).

Definition lookup_action (yystate yytoken : Z) : outcome Verdict :=
  yyn ← at_ yypact yystate;
  let yyn := yyn + yytoken in
  if (yyn <? 0) || (YYLAST <? yyn) then yydefault yystate
  else
    c ← at_ yycheck yyn;
    if negb (c =? yytoken) then yydefault yystate
    else
      yyn ← at_ yytable yyn;
      Ret (if yyn <=? 0 then Reduce (- yyn) else Shift yyn).

(** The state a reduction to the nonterminal [lhs] leads to. *)
Definition goto_state (lhs top : Z) : outcome Z :=
  let yylhs := lhs - YYNTOKENS in
  base ← at_ yypgoto yylhs;
  let yyi := base + top in
  if (0 <=? yyi) && (yyi <=? YYLAST) then
    c ← at_ yycheck yyi;
    if c =? top then at_ yytable yyi else at_ yydefgoto yylhs
  else at_ yydefgoto yylhs.

(** [yyerrlab1]: pop states until one shifts the error token; None: the stack has
    been emptied. *)
Definition error_shift (yystate : Z) : outcome Z :=
  yyn ← at_ yypact yystate;
  if yyn =? YYPACT_NINF then Ret 0
  else
    let yyn := yyn + Sym.YYerror in
    if (0 <=? yyn) && (yyn <=? YYLAST) then
      c ← at_ yycheck yyn;
      if c =? Sym.YYerror then at_ yytable yyn else Ret 0
    else Ret 0.
Fixpoint pop_until_error (yyss : list Z) : outcome (option (list Z * Z)) :=
  match yyss with
  | [] => Stuck OutOfBounds
  | yystate :: below =>
      yyn ← error_shift yystate;
      if 0 <? yyn then Ret (Some (yyss, yyn))
      else match below with [] => Ret None | _ => pop_until_error below end
  end.

(** The variables of [yyparse] and the global [parse_tree].  The state stack is a
    list, its top first; the value stack is the array, of which the slot with the
    index of a state holds the value of its symbol, and slots above the top keep
    what was left there. *)
Record Yacc (L : Type) : Type := mkYacc {
  lexer : L;
  yylval : SemValue;
  yychar : Z;
  yyerrstatus : Z;
  yyss : list Z;
  yyvs : list SemValue;
  parse_tree : option Ast.TreeNode
}.
Arguments mkYacc {L}.
Arguments lexer {L}.
Arguments yylval {L}.
Arguments yychar {L}.
Arguments yyerrstatus {L}.
Arguments yyss {L}.
Arguments yyvs {L}.
Arguments parse_tree {L}.

Section parser.
Context {L : Type} (yylex : M (L * SemValue) Z).

Definition put_lexer (p : L * SemValue) (s : Yacc L) : Yacc L := mkYacc p.1 p.2 (yychar s) (yyerrstatus s) (yyss s) (yyvs s) (parse_tree s).
Definition put_yychar (c : Z) (s : Yacc L) : Yacc L := mkYacc (lexer s) (yylval s) c (yyerrstatus s) (yyss s) (yyvs s) (parse_tree s).
Definition put_errstatus (e : Z) (s : Yacc L) : Yacc L := mkYacc (lexer s) (yylval s) (yychar s) e (yyss s) (yyvs s) (parse_tree s).
Definition put_stacks (ss : list Z) (vs : list SemValue) (s : Yacc L) : Yacc L := mkYacc (lexer s) (yylval s) (yychar s) (yyerrstatus s) ss vs (parse_tree s).
Definition put_tree (t : option Ast.TreeNode) (s : Yacc L) : Yacc L := mkYacc (lexer s) (yylval s) (yychar s) (yyerrstatus s) (yyss s) (yyvs s) t.

(** How an iteration goes on: with a state to push, or out of the function. *)
Inductive Next : Type :=
| NewState (yystate : Z)
| Return_ (yyresult : Z).

(** [*++yyvsp = x]: the slot above the state stack [ss]. *)
Definition push_value (ss : list Z) (x : SemValue) : M (Yacc L) unit :=
  vs ← gets yyvs;
  if (length ss <? length vs)%nat then modify (put_stacks ss (<[length ss := x]> vs)) else stuck OutOfBounds.

Definition yyerrlab1 : M (Yacc L) Next :=
  modify (put_errstatus 3) ;;
  ss ← gets yyss;
  r ← lift (pop_until_error ss);
  match r with
  | None => mret (Return_ 1)
  | Some (ss, yyn) => x ← gets yylval; push_value ss x ;; mret (NewState yyn)
  end.

Definition yyerrlab : M (Yacc L) Next :=
  e ← gets yyerrstatus;
  c ← gets yychar;
  if e =? 3 then
    if c <=? Tok.YYEOF then (if c =? Tok.YYEOF then mret (Return_ 1) else yyerrlab1)
    else modify (put_yychar Tok.YYEMPTY) ;; yyerrlab1
  else yyerrlab1.

(** [yyvsp[k]] *)
Definition slot (vs : list SemValue) (yyvsp k : Z) : outcome SemValue :=
  if yyvsp + k <? 0 then Stuck OutOfBounds else or_stuck OutOfBounds (vs !! Z.to_nat (yyvsp + k)).

(** [yyreduce]: [yyval] starts as the slot of the first symbol of the rule, or,
    when the rule is empty, as the slot above the top. *)
Definition yyreduce (yyn : Z) : M (Yacc L) Next :=
  yylen ← lift (at_ yyr2 yyn);
  ss ← gets yyss;
  vs ← gets yyvs;
  let yyvsp := Z.of_nat (length ss) - 1 in
  yyval ← lift (slot vs yyvsp (1 - yylen));
  r ← lift (action (slot vs yyvsp) yyval yyn);
  match r with
  | Accept_ tree => modify (put_tree tree) ;; mret (Return_ 0)
  | Value_ yyval =>
      let ss := drop (Z.to_nat yylen) ss in
      push_value ss yyval ;;
      top ← unwrap OutOfBounds (head ss);
      yylhs ← lift (at_ yyr1 yyn);
      yystate ← lift (goto_state yylhs top);
      mret (NewState yystate)
  end.

(** Take the verdict of a state. *)
Definition perform (v : Verdict) : M (Yacc L) Next :=
  match v with
  | SyntaxError => yyerrlab
  | Reduce yyn => yyreduce yyn
  | Shift yystate =>
      e ← gets yyerrstatus;
      modify (put_errstatus (if e =? 0 then 0 else e - 1)) ;;
      ss ← gets yyss;
      x ← gets yylval;
      push_value ss x ;;
      modify (put_yychar Tok.YYEMPTY) ;;
      mret (NewState yystate)
  end.

Definition yybackup (yystate : Z) : M (Yacc L) Next :=
  n ← lift (needs yystate);
  if (n : bool) then
    c ← gets yychar;
    (if c =? Tok.YYEMPTY then c ← zoom (fun s => (lexer s, yylval s)) put_lexer yylex; modify (put_yychar c) else mret tt) ;;
    c ← gets yychar;
    if c <=? Tok.YYEOF then
      modify (put_yychar Tok.YYEOF) ;;
      v ← lift (lookup_action yystate Sym.YYEOF); perform v
    else if c =? Tok.YYerror then modify (put_yychar Tok.YYUNDEF) ;; yyerrlab1
    else
      yytoken ← lift (yytranslated c);
      v ← lift (lookup_action yystate yytoken); perform v
  else v ← lift (yydefault yystate); perform v.

(** [yynewstate] and [yysetstate], then [yybackup].  The value type is not
    trivially copyable, so the stacks are not enlarged. *)
Fixpoint yyloop (fuel : nat) (yystate : Z) : M (Yacc L) Z :=
  match fuel with
  | O => stuck Diverges
  | S fuel =>
      ss ← gets yyss;
      vs ← gets yyvs;
      let ss := yystate :: ss in
      modify (put_stacks ss vs) ;;
      if YYINITDEPTH - 1 <=? Z.of_nat (length ss) - 1 then mret 2
      else if yystate =? YYFINAL then mret 0
      else
        n ← yybackup yystate;
        match n with NewState s => yyloop fuel s | Return_ r => mret r end
  end.

(** The function: [x] and [vs] are the values [yylval] and the array are
    constructed with, [tree] is the tree of the last statement. *)
Definition yyparse (fuel : nat) (x : SemValue) (vs : list SemValue) (l : L) (tree : option Ast.TreeNode) : outcome Z * Yacc L :=
  yyloop fuel 0 (mkYacc l x Tok.YYEMPTY 0 [] vs tree).
End parser.
