(* ===== verification/Grammar.v ===== *)
(** * The grammar ([parser/yacc.y])

    The rules of the grammar with their actions, on typed semantic values, and
    what it means that a sequence of tokens derives a symbol with a value.  This is
    what [Parser] is specified against. *)

From S2P Require Import Prelude Bytes Values SmMeta Ast Parser.

(** ** Values of symbols

    One constructor per member a [%type] or a typed [%token] names; [VTree] is
    for [start], whose actions set [parse_tree]. *)

Inductive value : Type :=
| VNone
| VTree (x : option Ast.TreeNode)
| VInt (x : Z)
| VBigint (x : Z)
| VFloat (x : Z)
| VDatetime (x : list Z)
| VStr (x : string)
| VStrs (x : list string)
| VNode (x : Ast.TreeNode)
| VOp (x : Ast.SvCompOp)
| VType (x : Ast.TypeLen)
| VField (x : Ast.Field)
| VFields (x : list Ast.Field)
| VExpr (x : Ast.Expr)
| VVal (x : Ast.Lit)
| VVals (x : list Ast.Lit)
| VCol (x : Ast.Col)
| VCols (x : list Ast.Col)
| VSet (x : Ast.SetClause)
| VSets (x : list Ast.SetClause)
| VCond (x : Ast.BinaryExpr)
| VConds (x : list Ast.BinaryExpr)
| VDir (x : Ast.OrderByDir)
| VOrder (x : Ast.OrderBy)
| VOrders (x : list Ast.OrderBy)
| VAgg (x : Ast.AggregateType).

(** ** Rules

    A rule is numbered by its place.  An action is given the values of the
    right-hand side; it is undefined on values of other types. *)

Record rule : Type := mkRule { lhs : Z; rhs : list Z; sem : list value -> option value }.
Definition first_ (vs : list value) : option value := match vs with [x] => Some x | _ => None end.
Definition node_ (n : Ast.TreeNode) : option value := Some (VNode n).
Definition const_ (v : value) (vs : list value) : option value := Some v.

Definition grammar : list rule := [
  mkRule Sym.YYUNDEF [] (const_ VNone);
  mkRule Sym.YYACCEPT [Sym.start; Sym.YYEOF] (const_ VNone);
  (* 2 *) mkRule Sym.start [Sym.stmt; Sym.semicolon] (fun vs => match vs with [VNode x; _] => Some (VTree (Some x)) | _ => None end);
  (* 3 *) mkRule Sym.start [Sym.HELP] (const_ (VTree (Some Ast.Help)));
  (* 4 *) mkRule Sym.start [Sym.EXIT] (const_ (VTree None));
  (* 5 *) mkRule Sym.start [Sym.T_EOF] (const_ (VTree None));
  (* 6 *) mkRule Sym.stmt [Sym.dbStmt] (first_);
  (* 7 *) mkRule Sym.stmt [Sym.ddl] (first_);
  (* 8 *) mkRule Sym.stmt [Sym.dml] (first_);
  (* 9 *) mkRule Sym.stmt [Sym.txnStmt] (first_);
  (* 10 *) mkRule Sym.txnStmt [Sym.TXN_BEGIN] (const_ (VNode Ast.TxnBegin));
  (* 11 *) mkRule Sym.txnStmt [Sym.TXN_COMMIT] (const_ (VNode Ast.TxnCommit));
  (* 12 *) mkRule Sym.txnStmt [Sym.TXN_ABORT] (const_ (VNode Ast.TxnAbort));
  (* 13 *) mkRule Sym.txnStmt [Sym.TXN_ROLLBACK] (const_ (VNode Ast.TxnRollback));
  (* 14 *) mkRule Sym.dbStmt [Sym.SHOW; Sym.TABLES] (const_ (VNode Ast.ShowTables));
  (* 15 *) mkRule Sym.dbStmt [Sym.SHOW; Sym.INDEX; Sym.FROM; Sym.tbName] (fun vs => match vs with [_; _; _; VStr t] => node_ (Ast.ShowIndex t) | _ => None end);
  (* 16 *) mkRule Sym.ddl [Sym.CREATE; Sym.TABLE; Sym.tbName; Sym.lparen; Sym.fieldList; Sym.rparen] (fun vs => match vs with [_; _; VStr t; _; VFields l; _] => node_ (Ast.CreateTable t l) | _ => None end);
  (* 17 *) mkRule Sym.ddl [Sym.DROP; Sym.TABLE; Sym.tbName] (fun vs => match vs with [_; _; VStr t] => node_ (Ast.DropTable t) | _ => None end);
  (* 18 *) mkRule Sym.ddl [Sym.DESC; Sym.tbName] (fun vs => match vs with [_; VStr t] => node_ (Ast.DescTable t) | _ => None end);
  (* 19 *) mkRule Sym.ddl [Sym.CREATE; Sym.INDEX; Sym.tbName; Sym.lparen; Sym.colNameList; Sym.rparen] (fun vs => match vs with [_; _; VStr t; _; VStrs l; _] => node_ (Ast.CreateIndex t l) | _ => None end);
  (* 20 *) mkRule Sym.ddl [Sym.DROP; Sym.INDEX; Sym.tbName; Sym.lparen; Sym.colNameList; Sym.rparen] (fun vs => match vs with [_; _; VStr t; _; VStrs l; _] => node_ (Ast.DropIndex t l) | _ => None end);
  (* 21 *) mkRule Sym.dml [Sym.INSERT; Sym.INTO; Sym.tbName; Sym.VALUES; Sym.lparen; Sym.valueList; Sym.rparen] (fun vs => match vs with [_; _; VStr t; _; _; VVals l; _] => node_ (Ast.InsertStmt t l) | _ => None end);
  (* 22 *) mkRule Sym.dml [Sym.DELETE; Sym.FROM; Sym.tbName; Sym.optWhereClause] (fun vs => match vs with [_; _; VStr t; VConds w] => node_ (Ast.DeleteStmt t w) | _ => None end);
  (* 23 *) mkRule Sym.dml [Sym.UPDATE; Sym.tbName; Sym.SET; Sym.setClauses; Sym.optWhereClause] (fun vs => match vs with [_; VStr t; _; VSets l; VConds w] => node_ (Ast.UpdateStmt t l w) | _ => None end);
  (* 24 *) mkRule Sym.dml [Sym.SELECT; Sym.selector; Sym.FROM; Sym.tableList; Sym.optWhereClause; Sym.opt_order_clause; Sym.opt_limit] (fun vs => match vs with [_; VCols c; _; VStrs t; VConds w; VOrders o; VInt l] => node_ (Ast.Select (Ast.order_select c t w o l)) | _ => None end);
  (* 25 *) mkRule Sym.dml [Sym.SELECT; Sym.aggregate_function; Sym.lparen; Sym.selector; Sym.rparen; Sym.AS; Sym.colName; Sym.FROM; Sym.tableList; Sym.optWhereClause] (fun vs => match vs with [_; VAgg f; _; VCols c; _; _; VStr n; _; VStrs t; VConds w] => node_ (Ast.Select (Ast.aggregate_select c t w f n)) | _ => None end);
  (* 26 *) mkRule Sym.dml [Sym.LOAD; Sym.path; Sym.INTO; Sym.tbName] (fun vs => match vs with [_; VStr p; _; VStr t] => node_ (Ast.LoadStmt p t) | _ => None end);
  (* 27 *) mkRule Sym.aggregate_function [Sym.COUNT] (const_ (VAgg Ast.SV_COUNT));
  (* 28 *) mkRule Sym.aggregate_function [Sym.MAX] (const_ (VAgg Ast.SV_MAX));
  (* 29 *) mkRule Sym.aggregate_function [Sym.MIN] (const_ (VAgg Ast.SV_MIN));
  (* 30 *) mkRule Sym.aggregate_function [Sym.SUM] (const_ (VAgg Ast.SV_SUM));
  (* 31 *) mkRule Sym.fieldList [Sym.field] (fun vs => match vs with [VField x] => Some (VFields [x]) | _ => None end);
  (* 32 *) mkRule Sym.fieldList [Sym.fieldList; Sym.comma; Sym.field] (fun vs => match vs with [VFields l; _; VField x] => Some (VFields (l ++ [x])) | _ => None end);
  (* 33 *) mkRule Sym.colNameList [Sym.colName] (fun vs => match vs with [VStr x] => Some (VStrs [x]) | _ => None end);
  (* 34 *) mkRule Sym.colNameList [Sym.colNameList; Sym.comma; Sym.colName] (fun vs => match vs with [VStrs l; _; VStr x] => Some (VStrs (l ++ [x])) | _ => None end);
  (* 35 *) mkRule Sym.field [Sym.colName; Sym.type_] (fun vs => match vs with [VStr c; VType t] => Some (VField (Ast.ColDefField c t)) | _ => None end);
  (* 36 *) mkRule Sym.type_ [Sym.INT] (const_ (VType (Ast.mkTypeLen Ast.SV_TYPE_INT 4)));
  (* 37 *) mkRule Sym.type_ [Sym.BIGINT] (const_ (VType (Ast.mkTypeLen Ast.SV_TYPE_BIGINT 8)));
  (* 38 *) mkRule Sym.type_ [Sym.CHAR; Sym.lparen; Sym.VALUE_INT; Sym.rparen] (fun vs => match vs with [_; _; VInt n; _] => Some (VType (Ast.mkTypeLen Ast.SV_TYPE_STRING n)) | _ => None end);
  (* 39 *) mkRule Sym.type_ [Sym.FLOAT] (const_ (VType (Ast.mkTypeLen Ast.SV_TYPE_FLOAT 4)));
  (* 40 *) mkRule Sym.type_ [Sym.DATETIME] (const_ (VType (Ast.mkTypeLen Ast.SV_TYPE_DATETIME 20)));
  (* 41 *) mkRule Sym.valueList [Sym.value] (fun vs => match vs with [VVal x] => Some (VVals [x]) | _ => None end);
  (* 42 *) mkRule Sym.valueList [Sym.valueList; Sym.comma; Sym.value] (fun vs => match vs with [VVals l; _; VVal x] => Some (VVals (l ++ [x])) | _ => None end);
  (* 43 *) mkRule Sym.value [Sym.VALUE_INT] (fun vs => match vs with [VInt x] => Some (VVal (Ast.IntLit x)) | _ => None end);
  (* 44 *) mkRule Sym.value [Sym.VALUE_BIGINT] (fun vs => match vs with [VBigint x] => Some (VVal (Ast.BigintLit x)) | _ => None end);
  (* 45 *) mkRule Sym.value [Sym.VALUE_FLOAT] (fun vs => match vs with [VFloat x] => Some (VVal (Ast.FloatLit x)) | _ => None end);
  (* 46 *) mkRule Sym.value [Sym.VALUE_STRING] (fun vs => match vs with [VStr x] => Some (VVal (Ast.StringLit (bytes_of_string x))) | _ => None end);
  (* 47 *) mkRule Sym.value [Sym.VALUE_DATETIME] (fun vs => match vs with [VDatetime x] => Some (VVal (Ast.DatetimeLit x)) | _ => None end);
  (* 48 *) mkRule Sym.condition [Sym.col; Sym.op; Sym.expr] (fun vs => match vs with [VCol l; VOp o; VExpr r] => Some (VCond (Ast.mkBinary l o r)) | _ => None end);
  (* 49 *) mkRule Sym.optWhereClause [] (const_ (VConds []));
  (* 50 *) mkRule Sym.optWhereClause [Sym.WHERE; Sym.whereClause] (fun vs => match vs with [_; VConds w] => Some (VConds w) | _ => None end);
  (* 51 *) mkRule Sym.whereClause [Sym.condition] (fun vs => match vs with [VCond x] => Some (VConds [x]) | _ => None end);
  (* 52 *) mkRule Sym.whereClause [Sym.whereClause; Sym.AND; Sym.condition] (fun vs => match vs with [VConds l; _; VCond x] => Some (VConds (l ++ [x])) | _ => None end);
  (* 53 *) mkRule Sym.col [Sym.tbName; Sym.dot; Sym.colName] (fun vs => match vs with [VStr t; _; VStr c] => Some (VCol (Ast.mkAstCol t c)) | _ => None end);
  (* 54 *) mkRule Sym.col [Sym.colName] (fun vs => match vs with [VStr c] => Some (VCol (Ast.mkAstCol "" c)) | _ => None end);
  (* 55 *) mkRule Sym.colList [Sym.col] (fun vs => match vs with [VCol x] => Some (VCols [x]) | _ => None end);
  (* 56 *) mkRule Sym.colList [Sym.colList; Sym.comma; Sym.col] (fun vs => match vs with [VCols l; _; VCol x] => Some (VCols (l ++ [x])) | _ => None end);
  (* 57 *) mkRule Sym.op [Sym.equal] (const_ (VOp Ast.SV_OP_EQ));
  (* 58 *) mkRule Sym.op [Sym.less] (const_ (VOp Ast.SV_OP_LT));
  (* 59 *) mkRule Sym.op [Sym.greater] (const_ (VOp Ast.SV_OP_GT));
  (* 60 *) mkRule Sym.op [Sym.NEQ] (const_ (VOp Ast.SV_OP_NE));
  (* 61 *) mkRule Sym.op [Sym.LEQ] (const_ (VOp Ast.SV_OP_LE));
  (* 62 *) mkRule Sym.op [Sym.GEQ] (const_ (VOp Ast.SV_OP_GE));
  (* 63 *) mkRule Sym.expr [Sym.value] (fun vs => match vs with [VVal x] => Some (VExpr (Ast.ValueExpr x)) | _ => None end);
  (* 64 *) mkRule Sym.expr [Sym.col] (fun vs => match vs with [VCol x] => Some (VExpr (Ast.ColExpr x)) | _ => None end);
  (* 65 *) mkRule Sym.setClauses [Sym.setClause] (fun vs => match vs with [VSet x] => Some (VSets [x]) | _ => None end);
  (* 66 *) mkRule Sym.setClauses [Sym.setClauses; Sym.comma; Sym.setClause] (fun vs => match vs with [VSets l; _; VSet x] => Some (VSets (l ++ [x])) | _ => None end);
  (* 67 *) mkRule Sym.setClause [Sym.colName; Sym.equal; Sym.value] (fun vs => match vs with [VStr c; _; VVal x] => Some (VSet (Ast.mkAstSet c x false)) | _ => None end);
  (* 68 *) mkRule Sym.setClause [Sym.colName; Sym.equal; Sym.colName; Sym.value] (fun vs => match vs with [VStr c; _; _; VVal x] => Some (VSet (Ast.mkAstSet c x true)) | _ => None end);
  (* 69 *) mkRule Sym.selector [Sym.star] (const_ (VCols []));
  (* 70 *) mkRule Sym.selector [Sym.colList] (first_);
  (* 71 *) mkRule Sym.tableList [Sym.tbName] (fun vs => match vs with [VStr x] => Some (VStrs [x]) | _ => None end);
  (* 72 *) mkRule Sym.tableList [Sym.tableList; Sym.comma; Sym.tbName] (fun vs => match vs with [VStrs l; _; VStr x] => Some (VStrs (l ++ [x])) | _ => None end);
  (* 73 *) mkRule Sym.tableList [Sym.tableList; Sym.JOIN; Sym.tbName] (fun vs => match vs with [VStrs l; _; VStr x] => Some (VStrs (l ++ [x])) | _ => None end);
  (* 74 *) mkRule Sym.opt_order_clause [Sym.ORDER; Sym.BY; Sym.order_clause_list] (fun vs => match vs with [_; _; VOrders l] => Some (VOrders l) | _ => None end);
  (* 75 *) mkRule Sym.opt_order_clause [] (const_ (VOrders []));
  (* 76 *) mkRule Sym.opt_limit [Sym.LIMIT; Sym.VALUE_INT] (fun vs => match vs with [_; VInt n] => Some (VInt n) | _ => None end);
  (* 77 *) mkRule Sym.opt_limit [] (const_ (VInt (-1)));
  (* 78 *) mkRule Sym.order_clause_list [Sym.order_clause] (fun vs => match vs with [VOrder x] => Some (VOrders [x]) | _ => None end);
  (* 79 *) mkRule Sym.order_clause_list [Sym.order_clause_list; Sym.comma; Sym.order_clause] (fun vs => match vs with [VOrders l; _; VOrder x] => Some (VOrders (l ++ [x])) | _ => None end);
  (* 80 *) mkRule Sym.order_clause [Sym.col; Sym.opt_asc_desc] (fun vs => match vs with [VCol c; VDir d] => Some (VOrder (Ast.mkOrderBy c d)) | _ => None end);
  (* 81 *) mkRule Sym.opt_asc_desc [Sym.ASC] (const_ (VDir Ast.OrderBy_ASC));
  (* 82 *) mkRule Sym.opt_asc_desc [Sym.DESC] (const_ (VDir Ast.OrderBy_DESC));
  (* 83 *) mkRule Sym.opt_asc_desc [] (const_ (VDir Ast.OrderBy_DEFAULT));
  (* 84 *) mkRule Sym.tbName [Sym.IDENTIFIER] (first_);
  (* 85 *) mkRule Sym.colName [Sym.IDENTIFIER] (first_);
  (* 86 *) mkRule Sym.path [Sym.filename] (first_);
  (* 87 *) mkRule Sym.path [Sym.filename; Sym.dot; Sym.filename] (fun vs => match vs with [VStr a; _; VStr b] => Some (VStr (a ++ "." ++ b)) | _ => None end);
  (* 88 *) mkRule Sym.path [Sym.filename; Sym.slash; Sym.path] (fun vs => match vs with [VStr a; _; VStr b] => Some (VStr (a ++ "/" ++ b)) | _ => None end);
  (* 89 *) mkRule Sym.path [Sym.dot; Sym.dot; Sym.slash; Sym.path] (fun vs => match vs with [_; _; _; VStr b] => Some (VStr ("../" ++ b)) | _ => None end);
  (* 90 *) mkRule Sym.path [Sym.dot; Sym.slash; Sym.path] (fun vs => match vs with [_; _; VStr b] => Some (VStr ("./" ++ b)) | _ => None end);
  (* 91 *) mkRule Sym.filename [Sym.IDENTIFIER] (first_)
]%string.

Definition rule_at (r : Z) : option rule := if r <? 0 then None else grammar !! Z.to_nat r.

(** ** Derivations

    A token is a symbol with its value.  The number is how many slots above
    those in use a parse from the bottom up takes: a rule needs as many as its
    right-hand side, whose symbols are stacked from left to right. *)

Abbreviation token := (Z * value)%type.

Inductive derives : nat -> Z -> list token -> value -> Prop :=
| derives_token t v : 0 <= t < YYNTOKENS -> derives 1 t [(t, v)] v
| derives_rule n r k w vs v : 2 <= n -> rule_at n = Some r -> derives_list k (rhs r) w vs -> sem r vs = Some v -> derives (Nat.max 1 k) (lhs r) w v
with derives_list : nat -> list Z -> list token -> list value -> Prop :=
| derives_nil : derives_list 0 [] [] []
| derives_cons X Xs k1 k2 w1 w2 v vs : derives k1 X w1 v -> derives_list k2 Xs w2 vs -> derives_list (Nat.max k1 (S k2)) (X :: Xs) (w1 ++ w2) (v :: vs).

Scheme derives_ind_2 := Minimality for derives Sort Prop
with derives_list_ind_2 := Minimality for derives_list Sort Prop.
Combined Scheme derives_mutind from derives_ind_2, derives_list_ind_2.

(** A statement: the tokens [w] are a sentence of the grammar whose tree is [t]. *)
Definition sentence (k : nat) (w : list token) (t : option Ast.TreeNode) : Prop := derives k Sym.start w (VTree t).

(** ** The member a symbol uses ([%type], [%token]) *)

Definition field (X : Z) (s : SemValue) : option value :=
  if decide (X ∈ [Sym.stmt; Sym.dbStmt; Sym.ddl; Sym.dml; Sym.txnStmt]) then VNode <$> sv_node s
  else if decide (X ∈ [Sym.tbName; Sym.colName; Sym.path; Sym.filename; Sym.IDENTIFIER; Sym.VALUE_STRING]) then Some (VStr (sv_str s))
  else if decide (X ∈ [Sym.tableList; Sym.colNameList]) then Some (VStrs (sv_strs s))
  else if decide (X ∈ [Sym.VALUE_INT; Sym.opt_limit]) then Some (VInt (sv_int s))
  else if decide (X = Sym.VALUE_BIGINT) then Some (VBigint (sv_bigint s))
  else if decide (X = Sym.VALUE_FLOAT) then Some (VFloat (sv_float s))
  else if decide (X = Sym.VALUE_DATETIME) then Some (VDatetime (sv_datetime s))
  else if decide (X = Sym.field) then VField <$> sv_field s
  else if decide (X = Sym.fieldList) then Some (VFields (sv_fields s))
  else if decide (X = Sym.type_) then VType <$> sv_type_len s
  else if decide (X = Sym.op) then Some (VOp (sv_comp_op s))
  else if decide (X = Sym.expr) then VExpr <$> sv_expr s
  else if decide (X = Sym.value) then VVal <$> sv_val s
  else if decide (X = Sym.valueList) then Some (VVals (sv_vals s))
  else if decide (X = Sym.col) then VCol <$> sv_col s
  else if decide (X ∈ [Sym.colList; Sym.selector]) then Some (VCols (sv_cols s))
  else if decide (X = Sym.setClause) then VSet <$> sv_set_clause s
  else if decide (X = Sym.setClauses) then Some (VSets (sv_set_clauses s))
  else if decide (X = Sym.condition) then VCond <$> sv_cond s
  else if decide (X ∈ [Sym.whereClause; Sym.optWhereClause]) then Some (VConds (sv_conds s))
  else if decide (X = Sym.order_clause) then VOrder <$> sv_orderby s
  else if decide (X = Sym.opt_asc_desc) then Some (VDir (sv_orderby_dir s))
  else if decide (X = Sym.aggregate_function) then Some (VAgg (sv_aggregate_type s))
  else if decide (X ∈ [Sym.order_clause_list; Sym.opt_order_clause]) then Some (VOrders (sv_orderbys s))
  else Some VNone.

(** ** Values and derivations

    The actions of the grammar are defined on values of the right types, and give
    such values; sequences of derivations grow at their end. *)

(** ** Values have the types of their symbols *)

Definition typed (X : Z) (v : value) : Prop := exists s, field X s = Some v.

Definition no_value : SemValue :=
  mkSemValue 0 0 0 [] "" [] None Ast.SV_OP_EQ None None [] None None [] None [] None [] None [] Ast.OrderBy_DEFAULT None Ast.SV_NONE [].
Definition value_of (v : value) : SemValue :=
  match v with
  | VNone | VTree _ => no_value
  | VInt x => set_sv_int x no_value
  | VBigint x => set_sv_bigint x no_value
  | VFloat x => set_sv_float x no_value
  | VDatetime x => set_sv_datetime x no_value
  | VStr x => set_sv_str x no_value
  | VStrs x => set_sv_strs x no_value
  | VNode x => set_sv_node (Some x) no_value
  | VOp x => set_sv_comp_op x no_value
  | VType x => set_sv_type_len (Some x) no_value
  | VField x => set_sv_field (Some x) no_value
  | VFields x => set_sv_fields x no_value
  | VExpr x => set_sv_expr (Some x) no_value
  | VVal x => set_sv_val (Some x) no_value
  | VVals x => set_sv_vals x no_value
  | VCol x => set_sv_col (Some x) no_value
  | VCols x => set_sv_cols x no_value
  | VSet x => set_sv_set_clause (Some x) no_value
  | VSets x => set_sv_set_clauses x no_value
  | VCond x => set_sv_cond (Some x) no_value
  | VConds x => set_sv_conds x no_value
  | VDir x => set_sv_orderby_dir x no_value
  | VOrder x => set_sv_orderby (Some x) no_value
  | VOrders x => set_sv_orderbys x no_value
  | VAgg x => set_sv_aggregate_type x no_value
  end.

Definition sem_ok (r : rule) : Prop :=
  forall vs, Forall2 typed (rhs r) vs -> exists v, sem r vs = Some v /\ if decide (lhs r = Sym.start) then exists t, v = VTree t else typed (lhs r) v.

(** Take the values of a right-hand side apart. *)
Ltac split_values :=
  repeat match goal with
  | H : Forall2 typed (_ :: _) _ |- _ =>
      let v := fresh "v" in let l := fresh "l" in let s := fresh "s" in let E := fresh "E" in
      apply Forall2_cons_inv_l in H as (v & l & [s E] & H & ->); vm_compute in E;
      repeat match type of E with context [match ?o with _ => _ end] => is_var s; destruct o; [|discriminate E] end;
      injection E as <-
  | H : Forall2 typed [] _ |- _ => apply Forall2_nil_inv_l in H as ->
  end.
Ltac finish_value :=
  eexists; split; [reflexivity|];
  match goal with
  | |- context [decide ?P] => let b := eval vm_compute in (bool_decide P) in
      match b with
      | true => rewrite decide_True by reflexivity; eauto
      | false => rewrite decide_False by (vm_compute; discriminate);
          match goal with |- typed _ ?v => exists (value_of v); vm_compute; reflexivity end
      end
  end.

Lemma all_sem_ok : Forall sem_ok (drop 2 grammar).
Proof.
  repeat (constructor; [intros vs Hvs; cbn [rhs] in Hvs; split_values; finish_value|]). constructor.
Qed.

Lemma sem_total n r vs : rule_at n = Some r -> 2 <= n -> Forall2 typed (rhs r) vs ->
  exists v, sem r vs = Some v /\ if decide (lhs r = Sym.start) then exists t, v = VTree t else typed (lhs r) v.
Proof.
  unfold rule_at. case_match; [done|]. intros Hr Hn. apply (Forall_lookup_1 _ _ (Z.to_nat n - 2) r all_sem_ok).
  rewrite lookup_drop, <-Hr. f_equal. lia.
Qed.

Lemma derives_list_snoc k1 Xs w1 vs k2 X w2 v :
  derives_list k1 Xs w1 vs -> derives k2 X w2 v -> derives_list (Nat.max k1 (length Xs + k2)) (Xs ++ [X]) (w1 ++ w2) (vs ++ [v]).
Proof.
  intros H HX. induction H as [|Y Ys a b u1 u2 y ys HY HYs IH].
  - assert (0 < k2)%nat by (destruct HX; lia). cbn [app]. rewrite <-(app_nil_r w2).
    replace (Nat.max 0 _) with (Nat.max k2 1) by (simpl; lia). apply (derives_cons _ _ _ 0); [done|constructor].
  - simpl. rewrite <-app_assoc.
    replace (Nat.max (Nat.max a (S b)) (S (length Ys + k2))) with (Nat.max a (S (Nat.max b (length Ys + k2)))) by lia.
    by constructor.
Qed.
