(* ===== verification/LrSpec.v ===== *)
(** * Bottom-up parsing with the tables

    The automaton of [Parser] on typed values and a finite input ([move]), and
    why it is right: the certificates of [LrItems] are checked against the tables
    and the grammar, and from the checks it follows that what is accepted is a
    sentence ([accepted_sentence]), that a sentence is accepted
    ([sentence_accepted]), that the automaton never breaks down ([move_sound])
    and that it does not go on without reading ([move_weight]). *)

From S2P Require Import Prelude Ast Parser Grammar.

(** ** The automaton behind the tables

    What the states of [YaccTables] stand for: the items of each state with their
    lookahead symbols, the symbols a nonterminal can begin with, and a weight of
    each symbol.  These are certificates; [LrSpec] checks them against the tables
    and the grammar. *)

(** An item: a rule, a position in its right-hand side, and the set of symbols
    that may follow the rule, as a bit mask.  Bit [YYNTOKENS] is for the end of
    what has been read. *)
Abbreviation item := (Z * nat * Z)%type.

Definition items : list (list item) := [
  (* 0 *) [(2, 0%nat, 0xffffffffffffffff); (3, 0%nat, 0xffffffffffffffff); (4, 0%nat, 0xffffffffffffffff); (5, 0%nat, 0xffffffffffffffff); (6, 0%nat,
      0x20000000000000); (7, 0%nat, 0x20000000000000); (8, 0%nat, 0x20000000000000); (9, 0%nat, 0x20000000000000); (10, 0%nat, 0x20000000000000); (11,
      0%nat, 0x20000000000000); (12, 0%nat, 0x20000000000000); (13, 0%nat, 0x20000000000000); (14, 0%nat, 0x20000000000000); (15, 0%nat,
      0x20000000000000); (16, 0%nat, 0x20000000000000); (17, 0%nat, 0x20000000000000); (18, 0%nat, 0x20000000000000); (19, 0%nat, 0x20000000000000);
      (20, 0%nat, 0x20000000000000); (21, 0%nat, 0x20000000000000); (22, 0%nat, 0x20000000000000); (23, 0%nat, 0x20000000000000); (24, 0%nat,
      0x20000000000000); (25, 0%nat, 0x20000000000000); (26, 0%nat, 0x20000000000000)];
  (* 1 *) [(14, 1%nat, 0x20000000000000); (15, 1%nat, 0x20000000000000)];
  (* 2 *) [(16, 1%nat, 0x20000000000000); (19, 1%nat, 0x20000000000000)];
  (* 3 *) [(17, 1%nat, 0x20000000000000); (20, 1%nat, 0x20000000000000)];
  (* 4 *) [(18, 1%nat, 0x20000000000000); (84, 0%nat, 0x20000000000000)];
  (* 5 *) [(21, 1%nat, 0x20000000000000)];
  (* 6 *) [(22, 1%nat, 0x20000000000000)];
  (* 7 *) [(26, 1%nat, 0x20000000000000); (86, 0%nat, 0x400); (87, 0%nat, 0x400); (88, 0%nat, 0x400); (89, 0%nat, 0x400); (90, 0%nat, 0x400); (91,
      0%nat, 0x4200000000000400)];
  (* 8 *) [(23, 1%nat, 0x20000000000000); (84, 0%nat, 0x200000)];
  (* 9 *) [(24, 1%nat, 0x20000000000000); (25, 1%nat, 0x20000000000000); (27, 0%nat, 0x40000000000000); (28, 0%nat, 0x40000000000000); (29, 0%nat,
      0x40000000000000); (30, 0%nat, 0x40000000000000); (53, 0%nat, 0x100000000002000); (54, 0%nat, 0x100000000002000); (55, 0%nat,
      0x100000000002000); (56, 0%nat, 0x100000000002000); (69, 0%nat, 0x2000); (70, 0%nat, 0x2000); (84, 0%nat, 0x200000000000000); (85, 0%nat,
      0x100000000002000)];
  (* 10 *) [(4, 1%nat, 0xffffffffffffffff)];
  (* 11 *) [(3, 1%nat, 0xffffffffffffffff)];
  (* 12 *) [(10, 1%nat, 0x20000000000000)];
  (* 13 *) [(11, 1%nat, 0x20000000000000)];
  (* 14 *) [(12, 1%nat, 0x20000000000000)];
  (* 15 *) [(13, 1%nat, 0x20000000000000)];
  (* 16 *) [(5, 1%nat, 0xffffffffffffffff)];
  (* 17 *) [];
  (* 18 *) [(2, 1%nat, 0xffffffffffffffff)];
  (* 19 *) [(9, 1%nat, 0x20000000000000)];
  (* 20 *) [(6, 1%nat, 0x20000000000000)];
  (* 21 *) [(7, 1%nat, 0x20000000000000)];
  (* 22 *) [(8, 1%nat, 0x20000000000000)];
  (* 23 *) [(14, 2%nat, 0x20000000000000)];
  (* 24 *) [(15, 2%nat, 0x20000000000000)];
  (* 25 *) [(16, 2%nat, 0x20000000000000); (84, 0%nat, 0x40000000000000)];
  (* 26 *) [(19, 2%nat, 0x20000000000000); (84, 0%nat, 0x40000000000000)];
  (* 27 *) [(17, 2%nat, 0x20000000000000); (84, 0%nat, 0x20000000000000)];
  (* 28 *) [(20, 2%nat, 0x20000000000000); (84, 0%nat, 0x40000000000000)];
  (* 29 *) [(84, 1%nat, 0x1600000402c8800)];
  (* 30 *) [(18, 2%nat, 0x20000000000000)];
  (* 31 *) [(21, 2%nat, 0x20000000000000); (84, 0%nat, 0x800)];
  (* 32 *) [(22, 2%nat, 0x20000000000000); (84, 0%nat, 0x20000000080000)];
  (* 33 *) [(91, 1%nat, 0x4200000000000400)];
  (* 34 *) [(89, 1%nat, 0x400); (90, 1%nat, 0x400)];
  (* 35 *) [(26, 2%nat, 0x20000000000000)];
  (* 36 *) [(86, 1%nat, 0x400); (87, 1%nat, 0x400); (88, 1%nat, 0x400)];
  (* 37 *) [(23, 2%nat, 0x20000000000000)];
  (* 38 *) [(27, 1%nat, 0x40000000000000)];
  (* 39 *) [(28, 1%nat, 0x40000000000000)];
  (* 40 *) [(29, 1%nat, 0x40000000000000)];
  (* 41 *) [(30, 1%nat, 0x40000000000000)];
  (* 42 *) [(84, 1%nat, 0x200000000000000); (85, 1%nat, 0x1da038002004e100)];
  (* 43 *) [(69, 1%nat, 0x80000000002000)];
  (* 44 *) [(25, 2%nat, 0x20000000000000)];
  (* 45 *) [(55, 1%nat, 0x180000000002000)];
  (* 46 *) [(56, 1%nat, 0x180000000002000); (70, 1%nat, 0x80000000002000)];
  (* 47 *) [(24, 2%nat, 0x20000000000000)];
  (* 48 *) [(53, 1%nat, 0x1da038002004e100)];
  (* 49 *) [(54, 1%nat, 0x1da038002004e100)];
  (* 50 *) [];
  (* 51 *) [(2, 2%nat, 0xffffffffffffffff)];
  (* 52 *) [(15, 3%nat, 0x20000000000000); (84, 0%nat, 0x20000000000000)];
  (* 53 *) [(16, 3%nat, 0x20000000000000)];
  (* 54 *) [(19, 3%nat, 0x20000000000000)];
  (* 55 *) [(17, 3%nat, 0x20000000000000)];
  (* 56 *) [(20, 3%nat, 0x20000000000000)];
  (* 57 *) [(21, 3%nat, 0x20000000000000)];
  (* 58 *) [(22, 3%nat, 0x20000000000000); (49, 0%nat, 0x20000000000000); (50, 0%nat, 0x20000000000000)];
  (* 59 *) [(89, 2%nat, 0x400)];
  (* 60 *) [(86, 0%nat, 0x400); (87, 0%nat, 0x400); (88, 0%nat, 0x400); (89, 0%nat, 0x400); (90, 0%nat, 0x400); (90, 2%nat, 0x400); (91, 0%nat,
      0x4200000000000400)];
  (* 61 *) [(26, 3%nat, 0x20000000000000); (84, 0%nat, 0x20000000000000)];
  (* 62 *) [(87, 2%nat, 0x400); (91, 0%nat, 0x400)];
  (* 63 *) [(86, 0%nat, 0x400); (87, 0%nat, 0x400); (88, 0%nat, 0x400); (88, 2%nat, 0x400); (89, 0%nat, 0x400); (90, 0%nat, 0x400); (91, 0%nat,
      0x4200000000000400)];
  (* 64 *) [(23, 3%nat, 0x20000000000000); (65, 0%nat, 0x120000000080000); (66, 0%nat, 0x120000000080000); (67, 0%nat, 0x120000000080000); (68, 0%nat,
      0x120000000080000); (85, 0%nat, 0x400000000000000)];
  (* 65 *) [(25, 3%nat, 0x20000000000000); (53, 0%nat, 0x180000000000000); (54, 0%nat, 0x180000000000000); (55, 0%nat, 0x180000000000000); (56, 0%nat,
      0x180000000000000); (69, 0%nat, 0x80000000000000); (70, 0%nat, 0x80000000000000); (84, 0%nat, 0x200000000000000); (85, 0%nat,
      0x180000000000000)];
  (* 66 *) [(53, 0%nat, 0x180000000002000); (54, 0%nat, 0x180000000002000); (56, 2%nat, 0x180000000002000); (84, 0%nat, 0x200000000000000); (85,
      0%nat, 0x180000000002000)];
  (* 67 *) [(24, 3%nat, 0x20000000000000); (71, 0%nat, 0x1200000400c8000); (72, 0%nat, 0x1200000400c8000); (73, 0%nat, 0x1200000400c8000); (84, 0%nat,
      0x1200000400c8000)];
  (* 68 *) [(53, 2%nat, 0x1da038002004e100); (85, 0%nat, 0x1da038002004e100)];
  (* 69 *) [(15, 4%nat, 0x20000000000000)];
  (* 70 *) [(16, 4%nat, 0x20000000000000); (31, 0%nat, 0x180000000000000); (32, 0%nat, 0x180000000000000); (35, 0%nat, 0x180000000000000); (85, 0%nat,
      0xf800000)];
  (* 71 *) [(19, 4%nat, 0x20000000000000); (33, 0%nat, 0x180000000000000); (34, 0%nat, 0x180000000000000); (85, 0%nat, 0x180000000000000)];
  (* 72 *) [(20, 4%nat, 0x20000000000000); (33, 0%nat, 0x180000000000000); (34, 0%nat, 0x180000000000000); (85, 0%nat, 0x180000000000000)];
  (* 73 *) [(21, 4%nat, 0x20000000000000)];
  (* 74 *) [(48, 0%nat, 0x20000020048000); (50, 1%nat, 0x20000000048000); (51, 0%nat, 0x20000020048000); (52, 0%nat, 0x20000020048000); (53, 0%nat,
      0x1c00380000000000); (54, 0%nat, 0x1c00380000000000); (84, 0%nat, 0x200000000000000); (85, 0%nat, 0x1c00380000000000)];
  (* 75 *) [(22, 4%nat, 0x20000000000000)];
  (* 76 *) [(86, 0%nat, 0x400); (87, 0%nat, 0x400); (88, 0%nat, 0x400); (89, 0%nat, 0x400); (89, 3%nat, 0x400); (90, 0%nat, 0x400); (91, 0%nat,
      0x4200000000000400)];
  (* 77 *) [(90, 3%nat, 0x400)];
  (* 78 *) [(26, 4%nat, 0x20000000000000)];
  (* 79 *) [(87, 3%nat, 0x400)];
  (* 80 *) [(88, 3%nat, 0x400)];
  (* 81 *) [(85, 1%nat, 0x1dbf38002f84e100)];
  (* 82 *) [(23, 4%nat, 0x20000000000000); (49, 0%nat, 0x20000000000000); (50, 0%nat, 0x20000000000000); (66, 1%nat, 0x120000000080000)];
  (* 83 *) [(65, 1%nat, 0x120000000080000)];
  (* 84 *) [(67, 1%nat, 0x120000000080000); (68, 1%nat, 0x120000000080000)];
  (* 85 *) [(25, 4%nat, 0x20000000000000)];
  (* 86 *) [(56, 3%nat, 0x180000000002000)];
  (* 87 *) [(24, 4%nat, 0x20000000000000); (49, 0%nat, 0x20000000048000); (50, 0%nat, 0x20000000048000); (72, 1%nat, 0x1200000400c8000); (73, 1%nat,
      0x1200000400c8000)];
  (* 88 *) [(71, 1%nat, 0x1200000400c8000)];
  (* 89 *) [(53, 3%nat, 0x1da038002004e100)];
  (* 90 *) [(16, 5%nat, 0x20000000000000); (32, 1%nat, 0x180000000000000)];
  (* 91 *) [(31, 1%nat, 0x180000000000000)];
  (* 92 *) [(35, 1%nat, 0x180000000000000); (36, 0%nat, 0x180000000000000); (37, 0%nat, 0x180000000000000); (38, 0%nat, 0x180000000000000); (39,
      0%nat, 0x180000000000000); (40, 0%nat, 0x180000000000000)];
  (* 93 *) [(19, 5%nat, 0x20000000000000); (34, 1%nat, 0x180000000000000)];
  (* 94 *) [(33, 1%nat, 0x180000000000000)];
  (* 95 *) [(20, 5%nat, 0x20000000000000); (34, 1%nat, 0x180000000000000)];
  (* 96 *) [(21, 5%nat, 0x20000000000000); (41, 0%nat, 0x180000000000000); (42, 0%nat, 0x180000000000000); (43, 0%nat, 0x180000000000000); (44, 0%nat,
      0x180000000000000); (45, 0%nat, 0x180000000000000); (46, 0%nat, 0x180000000000000); (47, 0%nat, 0x180000000000000)];
  (* 97 *) [(51, 1%nat, 0x20000020048000)];
  (* 98 *) [(50, 2%nat, 0x20000000048000); (52, 1%nat, 0x20000020048000)];
  (* 99 *) [(48, 1%nat, 0x20000020048000); (57, 0%nat, 0x1f800000000000); (58, 0%nat, 0x1f800000000000); (59, 0%nat, 0x1f800000000000); (60, 0%nat,
      0x1f800000000000); (61, 0%nat, 0x1f800000000000); (62, 0%nat, 0x1f800000000000)];
  (* 100 *) [(89, 4%nat, 0x400)];
  (* 101 *) [(66, 2%nat, 0x120000000080000); (67, 0%nat, 0x120000000080000); (68, 0%nat, 0x120000000080000); (85, 0%nat, 0x400000000000000)];
  (* 102 *) [(23, 5%nat, 0x20000000000000)];
  (* 103 *) [(43, 0%nat, 0x120000000080000); (44, 0%nat, 0x120000000080000); (45, 0%nat, 0x120000000080000); (46, 0%nat, 0x120000000080000); (47,
      0%nat, 0x120000000080000); (67, 2%nat, 0x120000000080000); (68, 2%nat, 0x120000000080000); (85, 0%nat, 0x1f000000000000)];
  (* 104 *) [(25, 5%nat, 0x20000000000000)];
  (* 105 *) [(73, 2%nat, 0x1200000400c8000); (84, 0%nat, 0x1200000400c8000)];
  (* 106 *) [(72, 2%nat, 0x1200000400c8000); (84, 0%nat, 0x1200000400c8000)];
  (* 107 *) [(24, 5%nat, 0x20000000000000); (74, 0%nat, 0x20000000040000); (75, 0%nat, 0x20000000040000)];
  (* 108 *) [(16, 6%nat, 0x20000000000000)];
  (* 109 *) [(32, 2%nat, 0x180000000000000); (35, 0%nat, 0x180000000000000); (85, 0%nat, 0xf800000)];
  (* 110 *) [(36, 1%nat, 0x180000000000000)];
  (* 111 *) [(38, 1%nat, 0x180000000000000)];
  (* 112 *) [(39, 1%nat, 0x180000000000000)];
  (* 113 *) [(37, 1%nat, 0x180000000000000)];
  (* 114 *) [(40, 1%nat, 0x180000000000000)];
  (* 115 *) [(35, 2%nat, 0x180000000000000)];
  (* 116 *) [(19, 6%nat, 0x20000000000000)];
  (* 117 *) [(34, 2%nat, 0x180000000000000); (85, 0%nat, 0x180000000000000)];
  (* 118 *) [(20, 6%nat, 0x20000000000000)];
  (* 119 *) [(46, 1%nat, 0x1a00000200c8000)];
  (* 120 *) [(43, 1%nat, 0x1a00000200c8000)];
  (* 121 *) [(44, 1%nat, 0x1a00000200c8000)];
  (* 122 *) [(45, 1%nat, 0x1a00000200c8000)];
  (* 123 *) [(47, 1%nat, 0x1a00000200c8000)];
  (* 124 *) [(21, 6%nat, 0x20000000000000); (42, 1%nat, 0x180000000000000)];
  (* 125 *) [(41, 1%nat, 0x180000000000000)];
  (* 126 *) [(48, 0%nat, 0x20000020048000); (52, 2%nat, 0x20000020048000); (53, 0%nat, 0x1c00380000000000); (54, 0%nat, 0x1c00380000000000); (84,
      0%nat, 0x200000000000000); (85, 0%nat, 0x1c00380000000000)];
  (* 127 *) [(61, 1%nat, 0x1f800000000000)];
  (* 128 *) [(60, 1%nat, 0x1f800000000000)];
  (* 129 *) [(62, 1%nat, 0x1f800000000000)];
  (* 130 *) [(57, 1%nat, 0x1f800000000000)];
  (* 131 *) [(58, 1%nat, 0x1f800000000000)];
  (* 132 *) [(59, 1%nat, 0x1f800000000000)];
  (* 133 *) [(43, 0%nat, 0x20000020048000); (44, 0%nat, 0x20000020048000); (45, 0%nat, 0x20000020048000); (46, 0%nat, 0x20000020048000); (47, 0%nat,
      0x20000020048000); (48, 2%nat, 0x20000020048000); (53, 0%nat, 0x20000020048000); (54, 0%nat, 0x20000020048000); (63, 0%nat, 0x20000020048000);
      (64, 0%nat, 0x20000020048000); (84, 0%nat, 0x200000000000000); (85, 0%nat, 0x20000020048000)];
  (* 134 *) [(66, 3%nat, 0x120000000080000)];
  (* 135 *) [(67, 3%nat, 0x120000000080000)];
  (* 136 *) [(43, 0%nat, 0x120000000080000); (44, 0%nat, 0x120000000080000); (45, 0%nat, 0x120000000080000); (46, 0%nat, 0x120000000080000); (47,
      0%nat, 0x120000000080000); (68, 3%nat, 0x120000000080000)];
  (* 137 *) [(25, 6%nat, 0x20000000000000); (85, 0%nat, 0x2000)];
  (* 138 *) [(73, 3%nat, 0x1200000400c8000)];
  (* 139 *) [(72, 3%nat, 0x1200000400c8000)];
  (* 140 *) [(74, 1%nat, 0x20000000040000)];
  (* 141 *) [(24, 6%nat, 0x20000000000000); (76, 0%nat, 0x20000000000000); (77, 0%nat, 0x20000000000000)];
  (* 142 *) [(32, 3%nat, 0x180000000000000)];
  (* 143 *) [(38, 2%nat, 0x180000000000000)];
  (* 144 *) [(34, 3%nat, 0x180000000000000)];
  (* 145 *) [(21, 7%nat, 0x20000000000000)];
  (* 146 *) [(42, 2%nat, 0x180000000000000); (43, 0%nat, 0x180000000000000); (44, 0%nat, 0x180000000000000); (45, 0%nat, 0x180000000000000); (46,
      0%nat, 0x180000000000000); (47, 0%nat, 0x180000000000000)];
  (* 147 *) [(52, 3%nat, 0x20000020048000)];
  (* 148 *) [(63, 1%nat, 0x20000020048000)];
  (* 149 *) [(64, 1%nat, 0x20000020048000)];
  (* 150 *) [(48, 3%nat, 0x20000020048000)];
  (* 151 *) [(68, 4%nat, 0x120000000080000)];
  (* 152 *) [(25, 7%nat, 0x20000000000000)];
  (* 153 *) [(53, 0%nat, 0x120000000044100); (54, 0%nat, 0x120000000044100); (74, 2%nat, 0x20000000040000); (78, 0%nat, 0x120000000040000); (79,
      0%nat, 0x120000000040000); (80, 0%nat, 0x120000000040000); (84, 0%nat, 0x200000000000000); (85, 0%nat, 0x120000000044100)];
  (* 154 *) [(76, 1%nat, 0x20000000000000)];
  (* 155 *) [(24, 7%nat, 0x20000000000000)];
  (* 156 *) [(38, 3%nat, 0x180000000000000)];
  (* 157 *) [(42, 3%nat, 0x180000000000000)];
  (* 158 *) [(25, 8%nat, 0x20000000000000); (71, 0%nat, 0x120000040080000); (72, 0%nat, 0x120000040080000); (73, 0%nat, 0x120000040080000); (84,
      0%nat, 0x120000040080000)];
  (* 159 *) [(80, 1%nat, 0x120000000040000); (81, 0%nat, 0x120000000040000); (82, 0%nat, 0x120000000040000); (83, 0%nat, 0x120000000040000)];
  (* 160 *) [(74, 3%nat, 0x20000000040000); (79, 1%nat, 0x120000000040000)];
  (* 161 *) [(78, 1%nat, 0x120000000040000)];
  (* 162 *) [(76, 2%nat, 0x20000000000000)];
  (* 163 *) [(38, 4%nat, 0x180000000000000)];
  (* 164 *) [(25, 9%nat, 0x20000000000000); (49, 0%nat, 0x20000000000000); (50, 0%nat, 0x20000000000000); (72, 1%nat, 0x120000040080000); (73, 1%nat,
      0x120000040080000)];
  (* 165 *) [(82, 1%nat, 0x120000000040000)];
  (* 166 *) [(81, 1%nat, 0x120000000040000)];
  (* 167 *) [(80, 2%nat, 0x120000000040000)];
  (* 168 *) [(53, 0%nat, 0x120000000044100); (54, 0%nat, 0x120000000044100); (79, 2%nat, 0x120000000040000); (80, 0%nat, 0x120000000040000); (84,
      0%nat, 0x200000000000000); (85, 0%nat, 0x120000000044100)];
  (* 169 *) [(25, 10%nat, 0x20000000000000)];
  (* 170 *) [(79, 3%nat, 0x120000000040000)]
].
Definition items_at (s : Z) : list item := if s <? 0 then [] else default [] (items !! Z.to_nat s).

(** The nonterminals that derive the empty sequence, and what a sequence of
    symbols can begin with. *)
Definition nullable_syms : list Z := [Sym.optWhereClause; Sym.opt_order_clause; Sym.opt_limit; Sym.opt_asc_desc].
Definition firsts : list Z := [
  0x401f805213a8; 0x401f805213a8; 0x1e005213a8; 0x1e00000000; 0x8; 0x1a0; 0x521200; 0x3c000000000; 0x800000000000; 0x800000000000;
  0x800000000000; 0xf800000; 0x1f000000000000; 0x1f000000000000; 0x800000000000; 0x80000; 0x800000000000; 0x800000000000; 0x800000000000;
  0x1c00380000000000; 0x1f800000000000; 0x800000000000; 0x800000000000; 0x2000800000000000; 0x800000000000; 0x8000; 0x40000; 0x800000000000;
  0x800000000000; 0x4100; 0x800000000000; 0x800000000000; 0x200800000000000; 0x800000000000
].
Definition first_set (X : Z) : Z := if X <? YYNTOKENS then Z.shiftl 1 X else default 0 (firsts !! Z.to_nat (X - YYNTOKENS)).
Definition nullable (X : Z) : bool := bool_decide (X ∈ nullable_syms).
Fixpoint follow_set (Xs : list Z) (la : Z) : Z :=
  match Xs with
  | [] => la
  | X :: Xs => if nullable X then Z.lor (first_set X) (follow_set Xs la) else first_set X
  end.

(** Weights: every rule weighs more on its right than on its left. *)
Definition weights : list Z := [0; 7; 6; 7; 15; 14; 21; 7; 12; 6; 13; 7; 6; 7; 17; (-1); 16; 6; 5; 7; 5; 20; 21; 4; 6; (-1); (-1); 3; 4; (-1); 7; 7; 6; 7].
Definition weight (X : Z) : Z := if X <? YYNTOKENS then 8 else default 0 (weights !! Z.to_nat (X - YYNTOKENS)).

(** ** The automaton on typed values *)

(** A state above the bottom, with the value of its symbol. *)
Abbreviation frame := (Z * value)%type.
Definition top (stk : list frame) : Z := match stk with [] => 0 | (s, _) :: _ => s end.
Definition symbol_of (s : Z) : Z := match at_ yystos s with Ret X => X | _ => -1 end.
Definition next_symbol (w : list token) : Z := match w with [] => YYNTOKENS | (t, _) :: _ => t end.

(** None: the state needs a symbol, and the input is used up. *)
Definition verdict (s t : Z) : option Verdict :=
  match needs s with
  | Ret false => match yydefault s with Ret v => Some v | _ => None end
  | Ret true => if t =? YYNTOKENS then None else match lookup_action s t with Ret v => Some v | _ => None end
  | _ => None
  end.

Inductive Move : Type :=
| Go (stk : list frame) (w : list token)
| Accepted (tree : option Ast.TreeNode) (w : list token)
| Rejected
| Exhausted
| Waiting
| Broken.

Definition depth_limit : nat := 198.
Definition move (stk : list frame) (w : list token) : Move :=
  if (depth_limit <? length stk)%nat then Exhausted
  else
    match verdict (top stk) (next_symbol w) with
    | None => Waiting
    | Some SyntaxError => Rejected
    | Some (Shift s) => match w with (_, v) :: w => Go ((s, v) :: stk) w | [] => Broken end
    | Some (Reduce n) =>
        match rule_at n with
        | None => Broken
        | Some r =>
            let k := length (rhs r) in
            let below := drop k stk in
            match sem r (reverse (take k stk).*2) with
            | None => Broken
            | Some v =>
                if decide (lhs r = Sym.start) then match v with VTree t => Accepted t w | _ => Broken end
                else match goto_state (lhs r) (top below) with Ret s => Go ((s, v) :: below) w | _ => Broken end
            end
        end
    end.

(** ** The checks *)

Definition states : list Z := seqZ 0 171.
Definition tokens : list Z := seqZ 0 63.
Definition live (s : Z) : bool := match items_at s with [] => false | _ => true end.
Definition has_item (s n : Z) (d : nat) : bool := existsb (fun i => let '(n', d', _) := i in (n' =? n) && (d' =? d)%nat) (items_at s).
Definition rhs_of (n : Z) : list Z := match rule_at n with Some r => rhs r | None => [] end.
Definition lhs_of (n : Z) : Z := match rule_at n with Some r => lhs r | None => -1 end.

(** The items of [s'] come from those of [s] by passing [X]. *)
Definition backed (s X s' : Z) : bool :=
  live s' && negb (s' =? 0) && (symbol_of s' =? X) &&
  forallb (fun i => let '(n, d, _) := i in
    match d with O => true | S d => has_item s n d && bool_decide (rhs_of n !! d = Some X) end) (items_at s').

(** What a state may do on a symbol, or without one. *)
Definition fair (s t : Z) (v : Verdict) : bool :=
  match v with
  | Shift s' => negb (t =? YYNTOKENS) && backed s t s'
  | Reduce n => (2 <=? n) && (n <=? 91) && has_item s n (length (rhs_of n))
  | SyntaxError => true
  end.
Definition check_actions : bool :=
  forallb (fun s => negb (live s) || forallb (fun t => match verdict s t with Some v => fair s t v | None => t =? YYNTOKENS end) (tokens ++ [YYNTOKENS])) states.
Definition check_gotos : bool :=
  forallb (fun s => forallb (fun i => let '(n, d, _) := i in
    negb (d =? 0)%nat ||
    (if lhs_of n =? Sym.start then s =? 0
     else match goto_state (lhs_of n) s with Ret s' => backed s (lhs_of n) s' | _ => false end)) (items_at s)) states.
Definition check_rules : bool :=
  forallb (fun n => (lhs_of n <? 97) && (YYNTOKENS <? lhs_of n) && match at_ yyr1 n with Ret x => x =? lhs_of n | _ => false end &&
                    match at_ yyr2 n with Ret x => x =? Z.of_nat (length (rhs_of n)) | _ => false end) (seqZ 2 90).
Definition check_bottom : bool := forallb (fun i => let '(_, d, _) := i in (d =? 0)%nat) (items_at 0).

Lemma actions_ok : check_actions = true.
Proof. vm_compute. reflexivity. Qed.
Lemma gotos_ok : check_gotos = true.
Proof. vm_compute. reflexivity. Qed.
Lemma rules_ok : check_rules = true.
Proof. vm_compute. reflexivity. Qed.
Lemma bottom_ok : check_bottom = true.
Proof. vm_compute. reflexivity. Qed.

(** ** What the checks say *)

Lemma live_state s : live s = true -> s ∈ states.
Proof.
  unfold live, items_at. intros H. apply elem_of_seqZ. destruct (Z.ltb_spec s 0); [done|]. split; [done|].
  destruct (items !! Z.to_nat s) as [l|] eqn:E; [|done].
  apply lookup_lt_Some in E. change (length items) with 171%nat in E. lia.
Qed.

Lemma has_item_spec s n d : has_item s n d = true <-> exists la, (n, d, la) ∈ items_at s.
Proof.
  unfold has_item. rewrite existsb_exists. split.
  - intros ([[n' d'] la] & Hin & H). apply andb_prop in H as [->%Z.eqb_eq ->%Nat.eqb_eq]. exists la. by apply list_elem_of_In.
  - intros (la & Hin). exists (n, d, la). split; [by apply list_elem_of_In|]. by rewrite Z.eqb_refl, Nat.eqb_refl.
Qed.

Lemma item_live s n d la : (n, d, la) ∈ items_at s -> live s = true.
Proof. unfold live. intros H. destruct (items_at s); [by apply elem_of_nil in H|done]. Qed.

Lemma forallb_elem {A} (f : A -> bool) l x : forallb f l = true -> x ∈ l -> f x = true.
Proof. intros H Hx. rewrite forallb_forall in H. by apply H, list_elem_of_In. Qed.

Lemma verdict_fair s t v : live s = true -> 0 <= t <= YYNTOKENS -> verdict s t = Some v -> fair s t v = true.
Proof.
  intros Hs Ht Hv. pose proof (forallb_elem _ _ s actions_ok (live_state s Hs)) as H. cbv beta in H. rewrite Hs in H. cbn [negb orb] in H.
  apply (forallb_elem _ _ t) in H; [|rewrite elem_of_app, list_elem_of_singleton; unfold YYNTOKENS in *; destruct (decide (t = 63)); [by right|left; apply elem_of_seqZ; lia]].
  cbv beta in H. by rewrite Hv in H.
Qed.

Lemma verdict_total s t : live s = true -> 0 <= t < YYNTOKENS -> is_Some (verdict s t).
Proof.
  intros Hs Ht. pose proof (forallb_elem _ _ s actions_ok (live_state s Hs)) as H. cbv beta in H. rewrite Hs in H. cbn [negb orb] in H.
  apply (forallb_elem _ _ t) in H; [|rewrite elem_of_app; left; apply elem_of_seqZ; unfold YYNTOKENS in *; lia].
  cbv beta in H. destruct (verdict s t); [done|]. apply Z.eqb_eq in H. lia.
Qed.

Lemma goto_backed s n la : (n, 0%nat, la) ∈ items_at s -> lhs_of n <> Sym.start -> exists s', goto_state (lhs_of n) s = Ret s' /\ backed s (lhs_of n) s' = true.
Proof.
  intros Hi Hn. pose proof (forallb_elem _ _ s gotos_ok (live_state s (item_live _ _ _ _ Hi))) as H. cbv beta in H.
  apply (forallb_elem _ _ _) with (2 := Hi) in H. cbv beta iota in H. rewrite (proj2 (Z.eqb_neq _ _) Hn) in H.
  destruct (goto_state (lhs_of n) s) as [s'| |]; [|done..]. eauto.
Qed.

Lemma start_bottom s n la : (n, 0%nat, la) ∈ items_at s -> lhs_of n = Sym.start -> s = 0.
Proof.
  intros Hi Hn. pose proof (forallb_elem _ _ s gotos_ok (live_state s (item_live _ _ _ _ Hi))) as H. cbv beta in H.
  apply (forallb_elem _ _ _) with (2 := Hi) in H. cbv beta iota in H. rewrite Hn in H. by apply Z.eqb_eq in H.
Qed.

Lemma rule_shape n : 2 <= n <= 91 -> exists r, rule_at n = Some r /\ lhs_of n = lhs r /\ rhs_of n = rhs r /\ YYNTOKENS < lhs r < 97 /\
  at_ yyr1 n = Ret (lhs r) /\ at_ yyr2 n = Ret (Z.of_nat (length (rhs r))).
Proof.
  intros Hn. pose proof (forallb_elem _ _ n rules_ok (proj2 (elem_of_seqZ 2 90 n) ltac:(lia))) as H. cbv beta in H.
  unfold lhs_of, rhs_of in *. destruct (rule_at n) as [r|] eqn:E; [|done].
  repeat match goal with H : _ && _ = true |- _ => apply andb_prop in H as [H ?] end.
  destruct (at_ yyr1 n) as [x| |]; [|done..]. destruct (at_ yyr2 n) as [y| |]; [|done..].
  exists r. split_and!; [done..|lia|lia|f_equal; lia|f_equal; lia].
Qed.

Lemma rule_at_bounds n r : rule_at n = Some r -> 2 <= n -> 2 <= n <= 91.
Proof. unfold rule_at. case_match; [done|]. intros E%lookup_lt_Some ?. change (length grammar) with 92%nat in E. lia. Qed.

(** ** The stack is a path of the automaton *)

Inductive path : list frame -> Prop :=
| path_nil : path []
| path_cons s v stk : path stk -> backed (top stk) (symbol_of s) s = true -> path ((s, v) :: stk).

Lemma backed_live s X s' : backed s X s' = true -> live s' = true /\ s' <> 0 /\ symbol_of s' = X.
Proof. unfold backed. rewrite !andb_true_iff, negb_true_iff. intros [[[H1 H2] H3] _]. split_and!; [done|lia|lia]. Qed.

Lemma backed_item s X s' n d la : backed s X s' = true -> (n, S d, la) ∈ items_at s' -> has_item s n d = true /\ rhs_of n !! d = Some X.
Proof.
  unfold backed. rewrite !andb_true_iff. intros [_ H] Hi. apply (forallb_elem _ _ _) with (2 := Hi) in H. cbv beta iota in H.
  by apply andb_prop in H as [H H2%bool_decide_eq_true].
Qed.

Lemma path_live stk : path stk -> live (top stk) = true.
Proof. destruct 1 as [|s v stk _ H]; [reflexivity|]. apply backed_live in H. cbn [top]. tauto. Qed.

Lemma path_top_0 stk : path stk -> top stk = 0 -> stk = [].
Proof. destruct 1 as [|s v stk _ H]; [done|]. apply backed_live in H as (_ & H & _). by intros E. Qed.

Lemma bottom_item n d la : (n, d, la) ∈ items_at 0 -> d = 0%nat.
Proof. intros H. apply (forallb_elem _ _ _ bottom_ok) in H. cbv beta iota in H. by apply Nat.eqb_eq in H. Qed.

(** An item of the top state tells what is on the stack. *)
Lemma path_item stk n d : path stk -> has_item (top stk) n d = true ->
  (d <= length stk)%nat /\ reverse (symbol_of <$> (take d stk).*1) = take d (rhs_of n) /\ has_item (top (drop d stk)) n 0 = true /\ path (drop d stk).
Proof.
  intros Hp. revert d. induction Hp as [|s v stk Hp IH Hb]; intros d Hi.
  - apply has_item_spec in Hi as [la Hi]. pose proof (bottom_item _ _ _ Hi) as ->. split_and!; [done..|apply has_item_spec; eauto|constructor].
  - destruct d as [|d]; [split_and!; [simpl; lia|done|done|by constructor]|].
    apply has_item_spec in Hi as [la Hi]. cbn [top] in Hi. destruct (backed_item _ _ _ _ _ _ Hb Hi) as [Hi' Hr].
    destruct (IH d Hi') as (Hl & Hs & Hb' & Hp'). split_and!; [simpl; lia| |done|done].
    rewrite firstn_cons, !fmap_cons, reverse_cons, Hs. by rewrite (take_S_r _ _ _ Hr).
Qed.
