(* ===== verification/LrCorrect.v ===== *)
(** * The automaton and the grammar

    Whatever the automaton accepts is a sentence, with the value the grammar gives
    it, and every sentence the stack has room for is accepted. *)

From S2P Require Import Prelude Ast Parser Grammar LrSpec.

(** ** What the automaton accepts

    The symbols on the stack derive what has been shifted, so an accepted input is
    a sentence; the automaton does not break down; and it reduces only finitely
    often before it shifts. *)

(** [w] has been shifted, and every frame derives its part of it. *)
Inductive built : list frame -> list token -> Prop :=
| built_nil : built [] []
| built_cons s v stk w w' k : built stk w -> derives k (symbol_of s) w' v -> (length stk + k <= depth_limit)%nat -> built ((s, v) :: stk) (w ++ w').

Lemma built_split stk w d : built stk w -> (d <= length stk <= depth_limit)%nat ->
  exists w1 w2 k, w = w1 ++ w2 /\ built (drop d stk) w1 /\ (length (drop d stk) + k <= depth_limit)%nat /\
    derives_list k (reverse (symbol_of <$> (take d stk).*1)) w2 (reverse (take d stk).*2).
Proof.
  intros H. revert d. induction H as [|s v stk w w' k H IH HX Hk]; intros d Hd.
  - destruct d; [|simpl in Hd; lia]. exists [], [], 0%nat. split_and!; [done|constructor|simpl; lia|constructor].
  - destruct d as [|d].
    + exists (w ++ w'), [], 0%nat. rewrite app_nil_r. split_and!; [done|by econstructor|simpl in *; lia|constructor].
    + destruct (IH d) as (w1 & w2 & k2 & -> & Hb & Hk2 & HXs); [simpl in Hd; lia|].
      exists w1, (w2 ++ w'), (Nat.max k2 (d + k)). simpl in Hd. rewrite firstn_cons, !fmap_cons, !reverse_cons. cbn [drop].
      split_and!; [by rewrite app_assoc|done|rewrite length_drop in *; lia|].
      pose proof (derives_list_snoc _ _ _ _ _ _ _ _ HXs HX) as Hs. rewrite length_reverse, !length_fmap, length_take in Hs.
      by replace (d `min` length stk)%nat with d in Hs by lia.
Qed.

Definition well_typed (stk : list frame) : Prop := Forall (fun f => typed (symbol_of f.1) f.2) stk.
Definition typed_input (w : list token) : Prop := Forall (fun t => 0 <= t.1 < YYNTOKENS /\ typed t.1 t.2) w.

(** What holds of the stack once [w] has been shifted.  Above the limit, the next
    move is the last. *)
Record stack_ok (stk : list frame) (w : list token) : Prop := mkStackOk {
  ok_path : path stk;
  ok_typed : well_typed stk;
  ok_built : (length stk <= depth_limit)%nat -> built stk w
}.

(** The weight of a stack. *)
Definition stack_weight (stk : list frame) : Z := foldr (fun f z => weight (symbol_of f.1) + z) 0 stk.

Definition check_weights : bool := forallb (fun n => weight (lhs_of n) <? foldr (fun X z => weight X + z) 0 (rhs_of n)) (seqZ 2 90).
Lemma weights_ok : check_weights = true.
Proof. vm_compute. reflexivity. Qed.

Lemma sum_reverse (l : list Z) : foldr (fun X z => weight X + z) 0 (reverse l) = foldr (fun X z => weight X + z) 0 l.
Proof.
  induction l as [|X l IH]; [done|]. rewrite reverse_cons, foldr_app. simpl. rewrite <-IH. generalize (reverse l). clear.
  intros l. induction l; simpl; lia.
Qed.
Lemma stack_weight_app k stk : stack_weight stk = foldr (fun X z => weight X + z) 0 (reverse (symbol_of <$> (take k stk).*1)) + stack_weight (drop k stk).
Proof.
  rewrite sum_reverse. revert k. induction stk as [|[s v] stk IH]; intros [|k]; try done.
  change (stack_weight ((s, v) :: stk)) with (weight (symbol_of s) + stack_weight stk). rewrite firstn_cons, !fmap_cons, (IH k).
  cbn [foldr drop fst]. lia.
Qed.

(** What a reduction takes off the stack. *)
Lemma reduce_frames stk w n : stack_ok stk w -> (length stk <= depth_limit)%nat -> fair (top stk) YYNTOKENS (Reduce n) = true ->
  exists r w1 w2 k v la, rule_at n = Some r /\ 2 <= n /\ w = w1 ++ w2 /\ let below := drop (length (rhs r)) stk in
    (length (rhs r) <= length stk)%nat /\ (n, 0%nat, la) ∈ items_at (top below) /\ lhs_of n = lhs r /\
    path below /\ well_typed below /\ built below w1 /\ sem r (reverse (take (length (rhs r)) stk).*2) = Some v /\
    derives (Nat.max 1 k) (lhs r) w2 v /\ (length below + k <= depth_limit)%nat /\
    (if decide (lhs r = Sym.start) then exists t, v = VTree t else typed (lhs r) v) /\
    stack_weight below + weight (lhs r) < stack_weight stk.
Proof.
  intros [Hp Ht Hb] Hlen Hf. specialize (Hb Hlen). unfold fair in Hf. rewrite !andb_true_iff in Hf. destruct Hf as [[Hn1 Hn2] Hi].
  assert (Hn : 2 <= n <= 91) by lia. destruct (rule_shape n Hn) as (r & Hr & Hl & Hrr & _). rewrite Hrr in Hi.
  destruct (path_item _ _ _ Hp Hi) as (Hd & Hsyms & [la Hla]%has_item_spec & Hp').
  rewrite Hrr, (take_ge (rhs r)) in Hsyms by lia.
  destruct (built_split _ _ (length (rhs r)) Hb) as (w1 & w2 & k & -> & Hb1 & Hk & HD); [lia|]. rewrite Hsyms in HD.
  destruct (sem_total n r (reverse (take (length (rhs r)) stk).*2)) as (v & Hv & Hty); [done|lia| |].
  { rewrite <-Hsyms at 1. rewrite <-list_fmap_compose. apply Forall2_reverse, Forall2_fmap_2, Forall_Forall2_diag. by apply Forall_take. }
  exists r, w1, w2, k, v, la. cbv zeta. split_and!; [done|lia|done..|by apply Forall_drop|done|done|by eapply derives_rule; [|done..]; lia|done|done|].
  rewrite (stack_weight_app (length (rhs r)) stk), Hsyms. pose proof (forallb_elem _ _ n weights_ok (proj2 (elem_of_seqZ 2 90 n) ltac:(lia))) as Hw.
  cbv beta in Hw. rewrite Hl, Hrr in Hw. apply Z.ltb_lt in Hw. lia.
Qed.

Lemma path_push s v stk X : path stk -> backed (top stk) X s = true -> path ((s, v) :: stk).
Proof. intros Hp Hb. constructor; [done|]. by destruct (backed_live _ _ _ Hb) as (_ & _ & ->). Qed.

(** A shift. *)
Lemma shift_ok stk w s t v : stack_ok stk w -> (length stk <= depth_limit)%nat -> 0 <= t < YYNTOKENS -> typed t v -> backed (top stk) t s = true ->
  stack_ok ((s, v) :: stk) (w ++ [(t, v)]) /\ stack_weight ((s, v) :: stk) = stack_weight stk + 8.
Proof.
  intros [Hp Hty Hb] Hl Ht Hv Hs. destruct (backed_live _ _ _ Hs) as (_ & _ & HX). split.
  - split; [by eapply path_push|constructor; [by rewrite <-HX in Hv|done]|]. intros Hl'. simpl in Hl'.
    eapply (built_cons _ _ _ _ _ 1); [by apply Hb|rewrite HX; by constructor|lia].
  - simpl. rewrite HX. unfold weight. rewrite (proj2 (Z.ltb_lt _ _)) by lia. unfold stack_weight. lia.
Qed.

(** A reduction to another symbol than [start]. *)
Lemma reduce_ok stk w1 w2 s X k v : path stk -> well_typed stk -> built stk w1 -> derives (Nat.max 1 k) X w2 v -> typed X v ->
  (length stk + k <= depth_limit)%nat -> backed (top stk) X s = true -> stack_ok ((s, v) :: stk) (w1 ++ w2) /\ stack_weight ((s, v) :: stk) = stack_weight stk + weight X.
Proof.
  intros Hp Hty Hb HX Hv Hk Hs. destruct (backed_live _ _ _ Hs) as (_ & _ & E). split.
  - split; [by eapply path_push|constructor; [by rewrite <-E in Hv|done]|]. intros Hl. simpl in Hl. econstructor; [done|by rewrite E|lia].
  - simpl. rewrite E. unfold stack_weight. lia.
Qed.

Lemma move_sound stk w0 w : stack_ok stk w0 -> typed_input w ->
  match move stk w with
  | Go stk' w' =>
      (exists t, w = t :: w' /\ stack_ok stk' (w0 ++ [t]) /\ stack_weight stk' = stack_weight stk + 8) \/
      (w' = w /\ stack_ok stk' w0 /\ stack_weight stk' < stack_weight stk)
  | Accepted t w' => w' = w /\ exists k, (k <= depth_limit)%nat /\ sentence k w0 t
  | Rejected => True
  | Exhausted => (depth_limit < length stk)%nat
  | Waiting => w = []
  | Broken => False
  end.
Proof.
  intros Hok Hw. unfold move. destruct (Nat.ltb_spec depth_limit (length stk)) as [|Hlen]; [done|].
  assert (Ht : 0 <= next_symbol w <= YYNTOKENS).
  { destruct w as [|[t v] w]; [done|]. apply Forall_cons in Hw as [[? _] _]. simpl in *. lia. }
  destruct (verdict _ _) as [[s|n|]|] eqn:Hv; [| |done|].
  - apply (verdict_fair _ _ _ (path_live _ (ok_path _ _ Hok)) Ht), andb_prop in Hv as [Hv1 Hs].
    destruct w as [|[t v] w]; [done|]. apply Forall_cons in Hw as [[Ht' Htv] _]. left. exists (t, v). split; [done|]. by apply shift_ok.
  - apply (verdict_fair _ _ _ (path_live _ (ok_path _ _ Hok)) Ht) in Hv.
    destruct (reduce_frames _ _ _ Hok Hlen Hv) as (r & w1 & w2 & k & v & la & -> & Hn & -> & Hd & Hi & Hl & Hp & Hty & Hb & Hsem & HD & Hk & Hvt & Hwt).
    cbv zeta. rewrite Hsem. rewrite <-Hl in Hvt |- *. case_decide as Hst.
    + destruct Hvt as [t ->]. split; [done|]. pose proof (start_bottom _ _ _ Hi Hst) as E0. apply path_top_0 in E0; [|done].
      rewrite E0 in Hb, Hk. inversion Hb; subst. exists (Nat.max 1 k). split; [simpl in Hk; unfold depth_limit in *; lia|].
      unfold sentence. rewrite <-Hst, Hl. exact HD.
    + destruct (goto_backed _ _ _ Hi Hst) as (s & -> & Hs). right. split; [done|]. rewrite Hl in Hs, Hvt.
      destruct (reduce_ok _ _ _ s _ _ _ Hp Hty Hb HD Hvt Hk Hs) as [H1 H2]. split; [done|]. lia.
  - destruct w as [|[t v] w]; [done|]. apply Forall_cons in Hw as [[Ht' _] _].
    destruct (verdict_total _ _ (path_live _ (ok_path _ _ Hok)) Ht') as [v' Hv']. cbn [next_symbol fst] in *. congruence.
Qed.

(** ** Every sentence is accepted

    The items of a state are closed under prediction and transitions, and a
    complete item is reduced on every symbol that may follow; so the automaton
    retraces a derivation. *)

(** ** The checks *)

Definition subset (a b : Z) : bool := Z.land a b =? a.
Definition trans (s X : Z) : option Z :=
  if X <? YYNTOKENS then match verdict s X with Some (Shift s') => Some s' | _ => None end
  else match goto_state X s with Ret s' => Some s' | _ => None end.
Definition item_in (s n : Z) (d : nat) (la : Z) : bool :=
  existsb (fun i => let '(n', d', la') := i in (n' =? n) && (d' =? d)%nat && subset la la') (items_at s).

Definition rule_numbers : list Z := seqZ 2 90.
Definition check_item (s : Z) (i : item) : bool :=
  let '(n, d, la) := i in
  (2 <=? n) && (n <=? 91) && (0 <=? la) && (la <? 2 ^ 64) &&
  match rhs_of n !! d with
  | Some X =>
      negb (X =? Sym.start) &&
      match trans s X with Some s' => item_in s' n (S d) la | None => false end &&
      forallb (fun m => negb (lhs_of m =? X) || item_in s m 0 (follow_set (drop (S d) (rhs_of n)) la)) rule_numbers
  | None =>
      (d =? length (rhs_of n))%nat &&
      forallb (fun t => negb (Z.testbit la t) || match verdict s t with Some (Reduce m) => m =? n | _ => false end) (seqZ 0 64)
  end.
Definition check_items : bool := forallb (fun s => forallb (check_item s) (items_at s)) states.
Definition check_start : bool := forallb (fun m => negb (lhs_of m =? Sym.start) || item_in 0 m 0 (2 ^ 64 - 1)) rule_numbers.
Definition check_firsts : bool :=
  forallb (fun m => subset (follow_set (rhs_of m) 0) (first_set (lhs_of m)) && (negb (forallb nullable (rhs_of m)) || nullable (lhs_of m))) rule_numbers.

Lemma items_ok : check_items = true.
Proof. vm_compute. reflexivity. Qed.
Lemma start_ok : check_start = true.
Proof. vm_compute. reflexivity. Qed.
Lemma firsts_ok : check_firsts = true.
Proof. vm_compute. reflexivity. Qed.

(** ** What the checks say *)

Lemma subset_testbit a b t : subset a b = true -> Z.testbit a t = true -> Z.testbit b t = true.
Proof. unfold subset. intros E%Z.eqb_eq H. rewrite <-E, Z.land_spec in H. by apply andb_prop in H as [_ H]. Qed.

Lemma item_in_spec s n d la : item_in s n d la = true -> exists la', (n, d, la') ∈ items_at s /\ subset la la' = true.
Proof.
  unfold item_in. rewrite existsb_exists. intros ([[n' d'] la'] & Hin & H).
  rewrite !andb_true_iff in H. destruct H as [[->%Z.eqb_eq ->%Nat.eqb_eq] H]. exists la'. split; [by apply list_elem_of_In|done].
Qed.

Lemma item_checked s n d la : (n, d, la) ∈ items_at s -> check_item s (n, d, la) = true.
Proof.
  intros Hi. pose proof (forallb_elem _ _ s items_ok (live_state s (item_live _ _ _ _ Hi))) as H. cbv beta in H.
  by apply (forallb_elem _ _ _) with (2 := Hi) in H.
Qed.

Lemma rule_number n r : rule_at n = Some r -> 2 <= n -> n ∈ rule_numbers.
Proof. intros H1 H2. pose proof (rule_at_bounds _ _ H1 H2). apply elem_of_seqZ. lia. Qed.

Lemma item_advance s n d la X : (n, d, la) ∈ items_at s -> rhs_of n !! d = Some X ->
  X <> Sym.start /\ exists s' la', trans s X = Some s' /\ (n, S d, la') ∈ items_at s' /\ subset la la' = true.
Proof.
  intros Hi HX. apply item_checked in Hi. unfold check_item in Hi. rewrite HX, !andb_true_iff in Hi. destruct Hi as [_ [[H1 H2] _]].
  split; [by apply negb_true_iff, Z.eqb_neq in H1|]. destruct (trans s X) as [s'|]; [|done].
  apply item_in_spec in H2 as (la' & H2 & H3). eauto.
Qed.

Lemma item_predict s n d la X m r : (n, d, la) ∈ items_at s -> rhs_of n !! d = Some X -> rule_at m = Some r -> 2 <= m -> lhs r = X ->
  exists la', (m, 0%nat, la') ∈ items_at s /\ subset (follow_set (drop (S d) (rhs_of n)) la) la' = true.
Proof.
  intros Hi HX Hm Hm2 Hl. apply item_checked in Hi. unfold check_item in Hi. rewrite HX, !andb_true_iff in Hi. destruct Hi as [_ [_ H]].
  apply (forallb_elem _ _ m) in H; [|by eapply rule_number]. unfold lhs_of in H. rewrite Hm, Hl, Z.eqb_refl in H. by apply item_in_spec.
Qed.

Lemma testbit_range a t : 0 <= a < 2 ^ 64 -> Z.testbit a t = true -> 0 <= t < 64.
Proof.
  intros Ha Ht. destruct (Z.leb_spec 0 t); [|by rewrite Z.testbit_neg_r in Ht]. destruct (Z.ltb_spec t 64); [done|].
  rewrite <-(Z.mod_small a (2 ^ 64)), Z.mod_pow2_bits_high in Ht by lia. done.
Qed.

Lemma item_reduce s n la t : (n, length (rhs_of n), la) ∈ items_at s -> Z.testbit la t = true -> verdict s t = Some (Reduce n).
Proof.
  intros Hi Ht. apply item_checked in Hi. unfold check_item in Hi. rewrite (lookup_ge_None_2 (rhs_of n)), !andb_true_iff in Hi by lia.
  destruct Hi as [[[_ Hla0] Hla] [_ H]]. apply (forallb_elem _ _ t) in H; [|apply elem_of_seqZ; eapply testbit_range in Ht; lia].
  cbv beta in H. rewrite Ht in H. cbn [negb orb] in H. destruct (verdict s t) as [[|m|]|]; [done| |done..]. by apply Z.eqb_eq in H as ->.
Qed.

(** ** What a sentence can begin with *)

Lemma follow_set_split Xs la t : Z.testbit (follow_set Xs la) t = Z.testbit (follow_set Xs 0) t || (forallb nullable Xs && Z.testbit la t).
Proof.
  induction Xs as [|X Xs IH]; simpl; [by rewrite Z.testbit_0_l|]. destruct (nullable X); simpl; [|by rewrite orb_false_r].
  by rewrite !Z.lor_spec, IH, orb_assoc.
Qed.

(** The symbol after [w] and what follows it is one the rule allows. *)
Lemma first_symbol : (forall k X w v, derives k X w v -> forall la rest,
    Z.testbit la (next_symbol rest) = true -> Z.testbit (follow_set [X] la) (next_symbol (w ++ rest)) = true) /\
  (forall k Xs w vs, derives_list k Xs w vs -> forall la rest,
    Z.testbit la (next_symbol rest) = true -> Z.testbit (follow_set Xs la) (next_symbol (w ++ rest)) = true).
Proof.
  apply derives_mutind.
  - intros t v Ht la rest Hla. cbn [app next_symbol]. assert (Hb : Z.testbit (first_set t) t = true).
    { unfold first_set. rewrite (proj2 (Z.ltb_lt _ _)), Z.shiftl_spec, Z.sub_diag by lia. done. }
    simpl. destruct (nullable t); [by rewrite Z.lor_spec, Hb|done].
  - intros n r k w vs v Hn Hr _ IH _ la rest Hla. specialize (IH la rest Hla). rewrite follow_set_split in IH. rewrite follow_set_split.
    pose proof (forallb_elem _ _ n firsts_ok (rule_number _ _ Hr Hn)) as H. cbv beta in H. unfold lhs_of, rhs_of in H. rewrite Hr in H.
    apply andb_prop in H as [Hf Hnull]. assert (Hff : forall t, Z.testbit (follow_set (rhs r) 0) t = true -> Z.testbit (follow_set [lhs r] 0) t = true).
    { intros t Ht. simpl. apply (subset_testbit _ _ _ Hf) in Ht. destruct (nullable (lhs r)); [by rewrite Z.lor_spec, Ht|done]. }
    apply orb_prop in IH as [IH|[IH1 IH2]%andb_prop]; [by rewrite (Hff _ IH)|]. rewrite IH1 in Hnull. cbn [negb orb] in Hnull.
    cbn [forallb]. rewrite Hnull, IH2. by rewrite orb_true_r.
  - done.
  - intros X Xs k1 k2 w1 w2 v vs _ IH1 _ IH2 la rest Hla. rewrite <-app_assoc. specialize (IH1 _ _ (IH2 _ _ Hla)). exact IH1.
Qed.

(** ** Retracing a derivation *)

Definition goes (a b : list frame * list token) : Prop := move a.1 a.2 = Go b.1 b.2.

Lemma derives_list_length k Xs w vs : derives_list k Xs w vs -> length Xs = length vs /\ (length Xs <= k)%nat.
Proof. induction 1; simpl; lia. Qed.

Lemma move_shift stk t v w s : (length stk <= depth_limit)%nat -> verdict (top stk) t = Some (Shift s) -> move stk ((t, v) :: w) = Go ((s, v) :: stk) w.
Proof. intros Hl Hv. unfold move. rewrite (proj2 (Nat.ltb_ge _ _)) by lia. cbn [next_symbol]. by rewrite Hv. Qed.

(** A reduction of the frames [fr] above [stk]. *)
Lemma move_reduce fr stk n r v w : (length (fr ++ stk) <= depth_limit)%nat -> verdict (top (fr ++ stk)) (next_symbol w) = Some (Reduce n) ->
  rule_at n = Some r -> length fr = length (rhs r) -> sem r (reverse fr.*2) = Some v ->
  move (fr ++ stk) w =
    if decide (lhs r = Sym.start) then match v with VTree t => Accepted t w | _ => Broken end
    else match goto_state (lhs r) (top stk) with Ret s => Go ((s, v) :: stk) w | _ => Broken end.
Proof.
  intros Hl Hv Hr Hf Hs. unfold move. rewrite (proj2 (Nat.ltb_ge _ _)) by lia. rewrite Hv, Hr. cbv zeta.
  rewrite <-Hf, take_app_length, drop_app_length, Hs. done.
Qed.

Definition retraced (k : nat) (X : Z) (w : list token) (v : value) : Prop :=
  forall stk n d la rest, (n, d, la) ∈ items_at (top stk) -> rhs_of n !! d = Some X -> (length stk + k <= depth_limit)%nat ->
    Z.testbit (follow_set (drop (S d) (rhs_of n)) la) (next_symbol rest) = true ->
    exists s, trans (top stk) X = Some s /\ rtc goes (stk, w ++ rest) ((s, v) :: stk, rest).
Definition retraced_list (k : nat) (Xs : list Z) (w : list token) (vs : list value) : Prop :=
  forall stk n d la rest, (n, d, la) ∈ items_at (top stk) -> drop d (rhs_of n) = Xs -> (d <= length (rhs_of n))%nat -> (length stk + k <= depth_limit)%nat ->
    Z.testbit la (next_symbol rest) = true ->
    exists fr la', rtc goes (stk, w ++ rest) (fr ++ stk, rest) /\ length fr = length Xs /\ reverse fr.*2 = vs /\
      (n, length (rhs_of n), la') ∈ items_at (top (fr ++ stk)) /\ Z.testbit la' (next_symbol rest) = true.

Lemma retrace_rule n r k w vs v : 2 <= n -> rule_at n = Some r -> derives_list k (rhs r) w vs -> retraced_list k (rhs r) w vs -> sem r vs = Some v ->
  retraced (Nat.max 1 k) (lhs r) w v.
Proof.
  intros Hn Hr HD IH Hs stk m d la rest Hi HX Hl Hf. destruct (derives_list_length _ _ _ _ HD) as [_ Hk].
  destruct (item_advance _ _ _ _ _ Hi HX) as (Hst & s & _ & Hs' & _). destruct (item_predict _ _ _ _ _ _ _ Hi HX Hr Hn eq_refl) as (la' & Hi' & Hsub).
  pose proof (subset_testbit _ _ _ Hsub Hf) as Hla'. assert (Hrr : rhs_of n = rhs r) by (unfold rhs_of; by rewrite Hr).
  destruct (IH stk n 0%nat la' rest Hi') as (fr & la2 & Hrun & Hlen & Hvs & Hi2 & Hla2); [done|lia|lia|done|].
  exists s. split; [done|]. eapply rtc_r; [exact Hrun|]. unfold goes. cbn [fst snd].
  rewrite (move_reduce _ _ n r v); [|rewrite length_app; lia|by apply (item_reduce _ _ la2)|done|done|by rewrite Hvs].
  rewrite decide_False by done. destruct (rule_shape n (rule_at_bounds _ _ Hr Hn)) as (r' & Hr' & _ & _ & Hb & _).
  assert (r' = r) as -> by congruence. unfold trans in Hs'. rewrite (proj2 (Z.ltb_ge _ _)) in Hs' by lia.
  destruct (goto_state _ _); [|done..]. by injection Hs' as ->.
Qed.

Lemma retrace : (forall k X w v, derives k X w v -> retraced k X w v) /\ (forall k Xs w vs, derives_list k Xs w vs -> derives_list k Xs w vs /\ retraced_list k Xs w vs).
Proof.
  apply derives_mutind.
  - intros t v Ht stk n d la rest Hi HX Hl _. destruct (item_advance _ _ _ _ _ Hi HX) as (_ & s & _ & Hs & _). exists s. split; [done|].
    apply rtc_once. unfold goes. cbn [fst snd app]. unfold trans in Hs. rewrite (proj2 (Z.ltb_lt _ _)) in Hs by lia.
    apply move_shift; [lia|]. destruct (verdict _ _) as [[s'| |]|]; [|done..]. by injection Hs as ->.
  - intros n r k w vs v Hn Hr _ [HD IH] Hs. by eapply retrace_rule.
  - split; [constructor|]. intros stk n d la rest Hi Hd Hd2 _ Hla. exists [], la. assert (d = length (rhs_of n)) as ->.
    { apply (f_equal length) in Hd. rewrite length_drop in Hd. simpl in Hd. lia. }
    split_and!; [constructor|done..].
  - intros X Xs k1 k2 w1 w2 v vs HX IH1 HXs0 [HXs IH2]. split; [by constructor|]. intros stk n d la rest Hi Hd Hd2 Hl Hla.
    assert (HdX : rhs_of n !! d = Some X). { rewrite <-(Nat.add_0_r d), <-lookup_drop, Hd. done. }
    assert (Hd' : drop (S d) (rhs_of n) = Xs). { rewrite (drop_S _ _ _ HdX) in Hd. by injection Hd. }
    rewrite <-app_assoc. destruct (IH1 stk n d la (w2 ++ rest) Hi HdX) as (s & Hs & Hrun1); [lia|rewrite Hd'; by apply (proj2 first_symbol _ _ _ _ HXs)|].
    destruct (item_advance _ _ _ _ _ Hi HdX) as (_ & s' & la' & Hs' & Hi' & Hsub). assert (s' = s) as -> by congruence.
    destruct (IH2 ((s, v) :: stk) n (S d) la' rest Hi' Hd') as (fr & la2 & Hrun2 & Hlen & Hvs & Hi2 & Hla2);
      [apply lookup_lt_Some in HdX; lia|simpl; lia|by eapply subset_testbit|].
    exists (fr ++ [(s, v)]), la2. rewrite <-!app_assoc. cbn [app].
    split_and!; [by etrans|rewrite length_app; simpl; lia|by rewrite fmap_app, reverse_app, Hvs|done|done].
Qed.

(** A sentence is accepted when the stack is high enough for it, and nothing behind
    it is looked at. *)
Lemma sentence_accepted k w t : sentence k w t -> (k <= depth_limit)%nat ->
  exists stk, rtc goes ([], w) (stk, []) /\ move stk [] = Accepted t [].
Proof.
  intros Hs Hk. unfold sentence in Hs. inversion Hs as [? ? Ht|n r k' ? vs ? Hn Hr HD Hsem Hk' Hl]; subst; [exfalso; unfold Sym.start, YYNTOKENS in Ht; lia|].
  assert (Hi : exists la, (n, 0%nat, la) ∈ items_at 0 /\ subset (2 ^ 64 - 1) la = true).
  { pose proof (forallb_elem _ _ n start_ok (rule_number _ _ Hr Hn)) as H. cbv beta in H. unfold lhs_of in H. rewrite Hr, Hl in H. by apply item_in_spec. }
  destruct Hi as (la & Hi & Hla). destruct (derives_list_length _ _ _ _ HD) as [_ Hlen].
  assert (Hrr : rhs_of n = rhs r) by (unfold rhs_of; by rewrite Hr).
  destruct (proj2 retrace _ _ _ _ HD) as [_ IH]. destruct (IH [] n 0%nat la []) as (fr & la2 & Hrun & Hf & Hvs & Hi2 & Hla2); [done|done|lia|simpl; lia| |].
  { eapply subset_testbit; [exact Hla|reflexivity]. }
  rewrite app_nil_r in Hrun, Hi2. exists fr. rewrite app_nil_r in Hrun. split; [done|]. rewrite <-(app_nil_r fr).
  rewrite (move_reduce _ _ n r (VTree t)); [|rewrite app_nil_r; lia|rewrite app_nil_r; by apply (item_reduce _ _ la2)|done|lia|by rewrite Hvs].
  by rewrite decide_True.
Qed.
