(* ===== verification/ParserSim.v ===== *)
(** * The generated parser runs the automaton

    [Parser.yybackup] on the array of semantic values does what [LrSpec.move] does
    on typed values: a frame's value is the member of its slot that its symbol
    uses, and the slot an empty rule picks up has not been written by a clause of
    the kind that is missing. *)

From S2P Require Import Prelude Ast Parser Grammar LrSpec LrCorrect.

(** ** The actions implement the grammar

    Each case of the generated [switch] computes, in the member its symbol uses,
    what the grammar says; and it leaves the members alone that the two empty rules
    without an action pick up from the slot above the stack. *)

(** The symbols whose presence on the stack allows conditions, or sort keys, to be
    left in the array. *)
Definition where_syms : list Z := [Sym.WHERE; Sym.whereClause; Sym.optWhereClause; Sym.dml; Sym.stmt; Sym.start].
Definition order_syms : list Z := [Sym.order_clause_list; Sym.opt_order_clause; Sym.dml; Sym.stmt; Sym.start].

Definition keeps_members (X : Z) (x y : SemValue) : Prop :=
  (X ∉ where_syms -> sv_conds y = sv_conds x) /\ (X ∉ order_syms -> sv_orderbys y = sv_orderbys x).

Definition action_ok (n : Z) (r : rule) : Prop := forall (v : Z -> outcome SemValue) (yyval : SemValue) (xs : list SemValue) (vs : list value),
  Forall2 (fun Xx v => field Xx.1 Xx.2 = Some v) (zip (rhs r) xs) vs -> length xs = length (rhs r) ->
  (forall i x, xs !! i = Some x -> v (Z.of_nat i - Z.of_nat (length xs) + 1) = Ret x) ->
  (match xs with x :: _ => yyval = x | [] => (n = 49 -> sv_conds yyval = []) /\ (n = 75 -> sv_orderbys yyval = []) end) ->
  exists z, sem r vs = Some z /\
    if decide (lhs r = Sym.start) then exists t, z = VTree t /\ action v yyval n = Ret (Accept_ t)
    else exists y, action v yyval n = Ret (Value_ y) /\ field (lhs r) y = Some z /\ keeps_members (lhs r) yyval y.

(** Evaluate [field] down to a member. *)
Ltac eval_field E :=
  lazy -[sv_int sv_bigint sv_float sv_datetime sv_str sv_strs sv_node sv_comp_op sv_type_len sv_field sv_fields sv_expr sv_val sv_vals sv_col sv_cols sv_set_clause sv_set_clauses sv_cond sv_conds sv_orderby_dir sv_orderby sv_aggregate_type sv_orderbys] in E.
(** Name the values of a right-hand side and look at their members. *)
Ltac name_values :=
  repeat match goal with
  | H : length ?l = length (_ :: _) |- _ => is_var l; destruct l; [discriminate H|cbn [length] in H; injection H as H]
  | H : length ?l = S _ |- _ => is_var l; destruct l; [discriminate H|cbn [length] in H; injection H as H]
  | H : length ?l = O |- _ => is_var l; apply nil_length_inv in H as ->
  | H : length ?l = length [] |- _ => is_var l; apply nil_length_inv in H as ->
  end; cbn [zip zip_with] in *;
  repeat match goal with
  | H : Forall2 _ (_ :: _) _ |- _ =>
      let z := fresh "z" in let l := fresh "l" in let E := fresh "E" in
      apply Forall2_cons_inv_l in H as (z & l & E & H & ->); cbn [fst snd] in E; eval_field E;
      repeat match type of E with context [match ?o with _ => _ end] => destruct o eqn:?; [|discriminate E] end;
      injection E as <-
  | H : Forall2 _ [] _ |- _ => apply Forall2_nil_inv_l in H as ->
  end.
Ltac name_slots Hv :=
  let rec go i :=
    try (let E := fresh "S" in pose proof (Hv i _ eq_refl) as E; cbn [length] in E;
         match type of E with ?f ?k = ?y => let k' := eval vm_compute in k in change (f k' = y) in E end; go (S i)) in
  go O; clear Hv.
Ltac run_action :=
  unfold action; cbv beta iota zeta;
  repeat match goal with H : ?f ?k = Ret _ |- context [?f ?k] => rewrite H end;
  unfold the, or_stuck, mbind, outcome_bind;
  repeat match goal with H : ?p ?s = Some _ |- context [?p ?s] => rewrite H end;
  reflexivity.
Ltac use_members := cbn; repeat match goal with H : ?p ?s = _ |- context [?p ?s] => rewrite H end; reflexivity.
Ltac prove_field :=
  match goal with |- ?f = _ => let H := fresh in let e := fresh in remember f as e eqn:H; eval_field H; subst e end; use_members.
Ltac prove_keeps :=
  split; intros HX; solve [use_members | exfalso; apply HX; apply (bool_decide_eq_true_1 _); vm_compute; reflexivity].
Ltac prove_action :=
  intros v yyval xs vs Hf Hlen Hv Hy; cbn [rhs lhs sem] in *; name_values; name_slots Hv; first [subst yyval | destruct Hy as [Hy1 Hy2]; try specialize (Hy1 eq_refl); try specialize (Hy2 eq_refl)];
  eexists; split; [reflexivity|];
  match goal with
  | |- context [decide ?P] => let b := eval vm_compute in (bool_decide P) in
      match b with
      | true => rewrite decide_True by reflexivity; eexists; split; [reflexivity|run_action]
      | false => rewrite decide_False by (vm_compute; discriminate); eexists; split; [run_action|split; [prove_field|prove_keeps]]
      end
  end.

Lemma all_actions_ok : Forall2 action_ok (seqZ 2 90) (drop 2 grammar).
Proof.
  let l := eval vm_compute in (seqZ 2 90) in change (seqZ 2 90) with l.
  repeat (constructor; [prove_action|]). constructor.
Qed.

Lemma action_correct n r : rule_at n = Some r -> 2 <= n -> action_ok n r.
Proof.
  intros Hr Hn. pose proof Hr as Hb. unfold rule_at in Hb. case_match; [done|]. pose proof (lookup_lt_Some _ _ _ Hb) as Hlt.
  change (length grammar) with 92%nat in Hlt. apply (Forall2_lookup_lr _ _ _ (Z.to_nat n - 2) n r all_actions_ok).
  - apply lookup_seqZ. lia.
  - rewrite lookup_drop, <-Hb. f_equal. lia.
Qed.

(** ** Slots left above the stack *)

(** The states that can lie above a symbol of a list. *)
Definition after_where : list Z :=
  [18; 22; 29; 42; 48; 49; 51; 68; 74; 75; 81; 89; 97; 98; 99; 102; 107; 119; 120; 121; 122; 123; 126; 127; 128; 129; 130;
   131; 132; 133; 140; 141; 147; 148; 149; 150; 153; 154; 155; 159; 160; 161; 162; 165; 166; 167; 168; 169; 170].
Definition after_order : list Z := [18; 22; 29; 42; 48; 49; 51; 68; 81; 89; 141; 154; 155; 159; 160; 162; 165; 166; 167; 168; 170].

Definition check_after (syms after : list Z) (n : Z) : bool :=
  forallb (fun s => negb (bool_decide (symbol_of s ∈ syms)) || negb (live s) || (s =? 0) || bool_decide (s ∈ after)) states &&
  forallb (fun s => forallb (fun s' => negb (backed s (symbol_of s') s') || bool_decide (s' ∈ after)) states) after &&
  forallb (fun s => negb (has_item s n 0)) after &&
  forallb (fun m => negb (existsb (fun X => bool_decide (X ∈ syms)) (rhs_of m)) || bool_decide (lhs_of m ∈ syms)) rule_numbers.
Lemma after_where_ok : check_after where_syms after_where 49 = true.
Proof. vm_compute. reflexivity. Qed.
Lemma after_order_ok : check_after order_syms after_order 75 = true.
Proof. vm_compute. reflexivity. Qed.

Definition without (syms : list Z) (stk : list frame) : Prop := Forall (fun f => symbol_of f.1 ∉ syms) stk.

Section after.
Context (syms after : list Z) (n : Z) (Hok : check_after syms after n = true).

Lemma after_cases stk : path stk -> without syms stk \/ top stk ∈ after.
Proof using Hok.
  unfold check_after in Hok. rewrite !andb_true_iff in Hok. destruct Hok as [[[H1 H2] _] _].
  induction 1 as [|s v stk Hp IH Hb]; [left; constructor|]. destruct (backed_live _ _ _ Hb) as (Hl & Hs0 & _). pose proof (live_state _ Hl) as Hs.
  destruct (decide (symbol_of s ∈ syms)) as [Hin|Hin].
  - right. apply (forallb_elem _ _ s) in H1; [|done]. cbv beta in H1. rewrite Hl, (bool_decide_eq_true_2 _ Hin), (proj2 (Z.eqb_neq _ _) Hs0) in H1.
    cbn [negb orb] in H1. by apply bool_decide_eq_true_1 in H1.
  - destruct IH as [IH|IH]; [left; by constructor|right]. apply (forallb_elem _ _ (top stk)) in H2; [|done]. cbv beta in H2.
    apply (forallb_elem _ _ s) in H2; [|done]. cbv beta in H2. rewrite Hb in H2. cbn [negb orb] in H2. by apply bool_decide_eq_true_1 in H2.
Qed.

(** The empty rule is only reduced before such a symbol. *)
Lemma empty_before stk la : path stk -> (n, 0%nat, la) ∈ items_at (top stk) -> without syms stk.
Proof using Hok.
  intros Hp Hi. destruct (after_cases stk Hp) as [|Ht]; [done|]. unfold check_after in Hok. rewrite !andb_true_iff in Hok. destruct Hok as [[_ H3] _].
  apply (forallb_elem _ _ _) with (2 := Ht) in H3. cbv beta in H3. apply negb_true_iff in H3.
  assert (has_item (top stk) n 0 = true) by (apply has_item_spec; eauto). congruence.
Qed.

(** Reducing does not lose such a symbol. *)
Lemma without_reduce m r fr stk : rule_at m = Some r -> 2 <= m -> reverse (symbol_of <$> fr.*1) = rhs r -> lhs r ∉ syms -> without syms stk -> without syms (fr ++ stk).
Proof using Hok.
  intros Hr Hm Hf Hl Hs. apply Forall_app. split; [|done]. unfold check_after in Hok. rewrite !andb_true_iff in Hok. destruct Hok as [_ H4].
  apply (forallb_elem _ _ m) in H4; [|by eapply rule_number]. cbv beta in H4. unfold rhs_of, lhs_of in H4. rewrite Hr, (bool_decide_eq_false_2 _ Hl), orb_false_r in H4.
  apply negb_true_iff in H4. apply Forall_forall. intros f Hin Hsy. assert (existsb (fun X => bool_decide (X ∈ syms)) (rhs r) = true); [|congruence].
  apply existsb_exists. exists (symbol_of f.1). split; [|by apply bool_decide_eq_true_2].
  rewrite <-Hf. apply list_elem_of_In, elem_of_reverse. by do 2 apply list_elem_of_fmap_2.
Qed.
End after.

(** ** Reading tokens *)

(** The symbol of what the scanner returned. *)
Definition kind_symbol (c : Z) : outcome Z := if c <=? Tok.YYEOF then Ret Sym.YYEOF else yytranslated c.

Definition check_kinds : bool := forallb (fun c => match yytranslated c with Ret t => (0 <=? t) && (t <? YYNTOKENS) | _ => false end) (seqZ 0 308).
Lemma kinds_ok : check_kinds = true.
Proof. vm_compute. reflexivity. Qed.

Lemma kind_symbol_range c : exists t, kind_symbol c = Ret t /\ 0 <= t < YYNTOKENS.
Proof.
  unfold kind_symbol. case_match; [by exists Sym.YYEOF|]. destruct (decide (c <= YYMAXUTOK)) as [Hc|Hc].
  - unfold YYMAXUTOK, Tok.YYEOF in *. pose proof (forallb_elem _ _ c kinds_ok (proj2 (elem_of_seqZ 0 308 c) ltac:(lia))) as H'. cbv beta in H'.
    destruct (yytranslated c) as [t| |]; [|done..]. exists t. split; [done|]. lia.
  - unfold yytranslated. rewrite (proj2 (Z.leb_gt c YYMAXUTOK)), andb_false_r by lia. by exists Sym.YYUNDEF.
Qed.

(** The member of a token is not a pointer. *)
Lemma token_field t x : 0 <= t < YYNTOKENS -> is_Some (field t x).
Proof.
  intros Ht. unfold field. repeat (case_decide; [first [by eexists | exfalso]|]); [..|by eexists].
  all: repeat match goal with H : _ ∈ _ |- _ => revert H; rewrite ?elem_of_cons, ?elem_of_nil; intros H end.
  all: unfold YYNTOKENS, Sym.stmt, Sym.dbStmt, Sym.ddl, Sym.dml, Sym.txnStmt, Sym.field, Sym.type_, Sym.expr, Sym.value, Sym.col, Sym.setClause, Sym.condition, Sym.order_clause in *; lia.
Qed.

Definition token_of (c : Z) (x : SemValue) : option token :=
  match kind_symbol c with Ret t => (fun v => (t, v)) <$> field t x | _ => None end.

Lemma token_of_some c x : exists t v, token_of c x = Some (t, v) /\ kind_symbol c = Ret t /\ field t x = Some v /\ 0 <= t < YYNTOKENS.
Proof.
  destruct (kind_symbol_range c) as (t & E & Ht). destruct (token_field t x Ht) as [v Hv]. exists t, v. unfold token_of. by rewrite E, Hv.
Qed.

(** What the parser relies on: the scanner does not hand out the error token, and
    it does not touch the two members the empty rules pick up. *)
Class ScannerLaws {L : Type} (yylex : M (L * SemValue) Z) : Prop := {
  scan_no_error : forall p c p', yylex p = (Ret c, p') -> c <> Tok.YYerror;
  scan_keeps : forall p c p', yylex p = (Ret c, p') -> sv_conds p'.2 = sv_conds p.2 /\ sv_orderbys p'.2 = sv_orderbys p.2
}.

Section reading.
Context {L : Type} (yylex : M (L * SemValue) Z).

(** Calling the scanner again and again gives the tokens [w]. *)
Inductive reads : L * SemValue -> list token -> L * SemValue -> Prop :=
| reads_nil p : reads p [] p
| reads_cons p c p' t w q : yylex p = (Ret c, p') -> token_of c p'.2 = Some t -> reads p' w q -> reads p (t :: w) q.

Lemma reads_app p w q w' q' : reads p w q -> reads q w' q' -> reads p (w ++ w') q'.
Proof. induction 1; [done|]. intros H'. econstructor; eauto. Qed.

Lemma reads_typed p w q : reads p w q -> typed_input w.
Proof.
  induction 1 as [|p c p' t w q H1 H2 H3 IH]; constructor; [|done].
  destruct (token_of_some c p'.2) as (t' & v & E & _ & Hv & Ht). rewrite E in H2. injection H2 as <-. split; [done|]. by exists p'.2.
Qed.
End reading.

(** ** The simulation *)

(** The array: an unused slot, the values of the frames, and what is above. *)
Record slots (stk : list frame) (vs : list SemValue) (xs rest : list SemValue) : Prop := mkSlots {
  slots_array : exists x0, vs = x0 :: reverse xs ++ rest;
  slots_values : Forall2 (fun f x => field (symbol_of f.1) x = Some f.2) stk xs;
  slots_size : length vs = 200%nat;
  slots_conds : without where_syms stk -> Forall (fun x => sv_conds x = []) vs;
  slots_orders : without order_syms stk -> Forall (fun x => sv_orderbys x = []) vs
}.

Lemma slots_length stk vs xs rest : slots stk vs xs rest -> length xs = length stk /\ length rest = (199 - length stk)%nat.
Proof.
  intros [[x0 ->] HF Hsz _ _]. apply Forall2_length in HF. simpl in Hsz. rewrite length_app, length_reverse in Hsz. lia.
Qed.

Definition no_clauses (x : SemValue) : Prop := sv_conds x = [] /\ sv_orderbys x = [].

(** Write the slot of a new frame that replaces the frames [fr]. *)
Lemma slots_push fr stk vs xs rest s x v :
  slots (fr ++ stk) vs xs rest -> (length stk < 199)%nat -> field (symbol_of s) x = Some v ->
  (symbol_of s ∉ where_syms -> without where_syms stk -> without where_syms (fr ++ stk) /\ sv_conds x = []) ->
  (symbol_of s ∉ order_syms -> without order_syms stk -> without order_syms (fr ++ stk) /\ sv_orderbys x = []) ->
  exists xs' rest', slots ((s, v) :: stk) (<[S (length stk) := x]> vs) xs' rest'.
Proof.
  intros Hsl Hlen Hf Hw Ho. destruct (slots_length _ _ _ _ Hsl) as [Hxs Hrest]. destruct Hsl as [[x0 Hvs] HF Hsz Hc Hor].
  apply Forall2_app_inv_l in HF as (xf & xb & Hff & Hfb & ->). pose proof (Forall2_length _ _ _ Hff) as Lf. pose proof (Forall2_length _ _ _ Hfb) as Lb.
  rewrite length_app in Hrest, Hxs. destruct (reverse xf ++ rest) as [|y rest'] eqn:E.
  { apply (f_equal length) in E. rewrite length_app, length_reverse in E. simpl in E. lia. }
  exists (x :: xb), rest'. split; [exists x0| | | |].
  - rewrite Hvs, reverse_app, <-app_assoc, E. change (x0 :: reverse xb ++ y :: rest') with ((x0 :: reverse xb) ++ y :: rest').
    rewrite insert_app_r_alt by (simpl; rewrite length_reverse; lia). cbn [length]. rewrite length_reverse, <-Lb, Nat.sub_diag, reverse_cons, <-app_assoc. done.
  - by constructor.
  - by rewrite length_insert.
  - intros [Hs Hst]%Forall_cons. destruct (Hw Hs Hst) as [H1 H2]. apply Forall_insert; [by apply Hc|done].
  - intros [Hs Hst]%Forall_cons. destruct (Ho Hs Hst) as [H1 H2]. apply Forall_insert; [by apply Hor|done].
Qed.

Definition check_no_error_shift : bool := forallb (fun s => match error_shift s with Ret n => n =? 0 | _ => false end) states.
Lemma no_error_shift_ok : check_no_error_shift = true.
Proof. vm_compute. reflexivity. Qed.

Section sim.
Context {L : Type} (yylex : M (L * SemValue) Z) {HL : ScannerLaws yylex}.

(** The tokens to come: the one that has been read ahead, and those the scanner
    will give up to [q]. *)
Definition pending (y : Yacc L) (w : list token) (q : L * SemValue) : Prop :=
  if decide (yychar y = Tok.YYEMPTY) then reads yylex (lexer y, yylval y) w q
  else exists t w', w = t :: w' /\ token_of (yychar y) (yylval y) = Some t /\ yychar y <> Tok.YYerror /\ reads yylex (lexer y, yylval y) w' q.

Record sim (y : Yacc L) (stk : list frame) (w : list token) (q : L * SemValue) : Prop := mkSim {
  sim_states : yyss y = stk.*1 ++ [0];
  sim_slots : exists xs rest, slots stk (yyvs y) xs rest;
  sim_status : yyerrstatus y = 0;
  sim_lval : no_clauses (yylval y);
  sim_pending : pending y w q
}.

Lemma sim_typed y stk w q : sim y stk w q -> typed_input w.
Proof.
  intros [_ _ _ _ Hp]. unfold pending in Hp. case_decide; [by eapply reads_typed|]. destruct Hp as (t & w' & -> & Ht & _ & Hr).
  constructor; [|by eapply reads_typed]. destruct (token_of_some (yychar y) (yylval y)) as (t' & v & E & _ & Hv & Hb). rewrite E in Ht. injection Ht as <-.
  split; [done|]. by exists (yylval y).
Qed.

Lemma length_states (stk : list frame) : length (stk.*1 ++ [0]) = S (length stk).
Proof. rewrite length_app, length_fmap. simpl. lia. Qed.
Lemma head_states (stk : list frame) : head (stk.*1 ++ [0]) = Some (top stk).
Proof. by destruct stk as [|[s v] stk]. Qed.

Lemma sim_height y stk w q : sim y stk w q -> length (yyss y) = S (length stk).
Proof. intros [-> _ _ _ _]. apply length_states. Qed.

(** The state after [yynewstate]. *)
Definition entered (s : Z) (y : Yacc L) : Yacc L := put_stacks (s :: yyss y) (yyvs y) y.

Lemma push_value_run ss x (y : Yacc L) : (length ss < length (yyvs y))%nat -> push_value ss x y = (Ret tt, put_stacks ss (<[length ss := x]> (yyvs y)) y).
Proof. intros H. unfold push_value, gets, mbind, M_bind. rewrite (proj2 (Nat.ltb_lt _ _)) by done. reflexivity. Qed.

(** *** Shifting *)

Lemma perform_shift y stk w q s t v : sim y stk ((t, v) :: w) q -> path stk -> (length stk <= depth_limit)%nat -> yychar y <> Tok.YYEMPTY ->
  backed (top stk) t s = true ->
  exists y', perform (Shift s) y = (Ret (NewState s), y') /\ sim (entered s y') ((s, v) :: stk) w q /\ parse_tree y' = parse_tree y.
Proof using HL.
  intros Hsim Hp Hlen Hc Hb. pose proof (sim_height _ _ _ _ Hsim) as Hh. destruct Hsim as [Hss (xs & rest & Hsl) Hst [Hl1 Hl2] Hpe].
  unfold pending in Hpe. rewrite decide_False in Hpe by done. destruct Hpe as (t' & w' & [= <- <-] & Ht & Hne & Hr).
  destruct (backed_live _ _ _ Hb) as (_ & _ & HX). unfold token_of in Ht. destruct (kind_symbol (yychar y)) as [u| |]; [|done..].
  destruct (field u (yylval y)) as [v'|] eqn:Hf; [|done]. injection Ht as -> ->. unfold perform, depth_limit in *.
  eexists. split; [|split].
  - rewrite (bind_run _ _ _ y (yyerrstatus y)) by reflexivity. rewrite Hst. cbn [Z.eqb]. erewrite bind_run by reflexivity.
    erewrite bind_run by reflexivity. erewrite bind_run by reflexivity. erewrite bind_run; [|apply push_value_run; cbn; rewrite (slots_size _ _ _ _ Hsl); lia].
    erewrite bind_run by reflexivity. reflexivity.
  - cbn. rewrite Hh. split; cbn; [by rewrite Hss| |done|done|by unfold pending; rewrite decide_True].
    apply (slots_push []) with (xs := xs) (rest := rest); [done|lia|by rewrite HX|done|done].
  - done.
Qed.

(** *** Reducing *)

Lemma frame_fields (l : list frame) (m : list SemValue) : Forall2 (fun f x => field (symbol_of f.1) x = Some f.2) l m ->
  Forall2 (fun Xx v => field Xx.1 Xx.2 = Some v) (zip (symbol_of <$> l.*1) m) l.*2.
Proof. induction 1 as [|f x l m Hf H IH]; [constructor|]. rewrite !fmap_cons. by constructor. Qed.

Lemma slot_lookup vs i k x : vs !! i = Some x -> Z.of_nat i = k -> forall t d, t + d = k -> slot vs t d = Ret x.
Proof. intros H <- t d E. unfold slot. rewrite E, (proj2 (Z.ltb_ge _ _)), Nat2Z.id, H by lia. done. Qed.

Lemma array_slot (x0 : SemValue) xf xb rest i : (x0 :: reverse (xf ++ xb) ++ rest) !! S (length xb + i) = (reverse xf ++ rest) !! i.
Proof.
  rewrite reverse_app, <-app_assoc. change (?x :: ?l) with ([x] ++ l). rewrite lookup_app_r by (simpl; lia). cbn [length].
  rewrite lookup_app_r by (rewrite length_reverse; lia). f_equal. rewrite length_reverse. lia.
Qed.

(** The member an empty rule leaves is empty where it is used. *)
Lemma stale_slot stk vs xs rest n la x : slots stk vs xs rest -> path stk -> (n, 0%nat, la) ∈ items_at (top stk) -> x ∈ vs ->
  (n = 49 -> sv_conds x = []) /\ (n = 75 -> sv_orderbys x = []).
Proof.
  intros Hsl Hp Hi Hx. split; intros ->.
  - pose proof (slots_conds _ _ _ _ Hsl (empty_before _ _ _ after_where_ok _ _ Hp Hi)) as H. rewrite Forall_forall in H. by apply H.
  - pose proof (slots_orders _ _ _ _ Hsl (empty_before _ _ _ after_order_ok _ _ Hp Hi)) as H. rewrite Forall_forall in H. by apply H.
Qed.

(** The action of a rule on the slots of its right-hand side. *)
Lemma reduce_action fr stk vs xs rest n r la : slots (fr ++ stk) vs xs rest -> path (fr ++ stk) -> (length (fr ++ stk) <= depth_limit)%nat ->
  rule_at n = Some r -> 2 <= n -> reverse (symbol_of <$> fr.*1) = rhs r -> (n, 0%nat, la) ∈ items_at (top stk) ->
  exists x z, vs !! S (length stk) = Some x /\ sem r (reverse fr.*2) = Some z /\
    let act := action (slot vs (Z.of_nat (length (fr ++ stk)))) x n in
    if decide (lhs r = Sym.start) then exists t, z = VTree t /\ act = Ret (Accept_ t)
    else exists y, act = Ret (Value_ y) /\ field (lhs r) y = Some z /\ keeps_members (lhs r) x y.
Proof.
  intros Hsl Hp Hlen Hr Hn Hrhs Hi. destruct (slots_length _ _ _ _ Hsl) as [_ Hrest]. destruct (slots_array _ _ _ _ Hsl) as [x0 Hvs].
  destruct (proj1 (Forall2_app_inv_l _ _ _ _) (slots_values _ _ _ _ Hsl)) as (xf & xb & Hff & Hfb & ->).
  pose proof (Forall2_length _ _ _ Hff) as Lf. pose proof (Forall2_length _ _ _ Hfb) as Lb. unfold depth_limit in Hlen.
  assert (Hlf : length (rhs r) = length fr) by (rewrite <-Hrhs, length_reverse, !length_fmap; done).
  destruct (lookup_lt_is_Some_2 (reverse xf ++ rest) 0) as [x Hx]; [rewrite length_app in *; lia|].
  pose proof (array_slot x0 xf xb rest) as Harr. rewrite <-Hvs, <-Lb in Harr. pose proof (Harr 0%nat) as Hx'. rewrite Nat.add_0_r, Hx in Hx'.
  destruct (action_correct n r Hr Hn (slot vs (Z.of_nat (length (fr ++ stk)))) x (reverse xf) (reverse fr.*2)) as (z & Hz & Hact).
  - rewrite <-Hrhs, <-!fmap_reverse. apply frame_fields, Forall2_reverse, Hff.
  - rewrite length_reverse. lia.
  - intros i x' Hi'. pose proof (lookup_lt_Some _ _ _ Hi') as Hlt. rewrite length_reverse in Hlt. eapply slot_lookup; [|reflexivity|].
    + rewrite Harr. by apply lookup_app_l_Some.
    + rewrite length_app, length_reverse. lia.
  - destruct (reverse xf) as [|x' l] eqn:E; [|simpl in Hx; congruence]. apply (f_equal length) in E. rewrite length_reverse in E. simpl in E.
    destruct fr; [|simpl in Lf; lia]. eapply stale_slot; [done..|]. by eapply list_elem_of_lookup_2.
  - exists x, z. done.
Qed.

Lemma perform_reduce y fr stk w q n r la : sim y (fr ++ stk) w q -> path (fr ++ stk) -> (length (fr ++ stk) <= depth_limit)%nat ->
  rule_at n = Some r -> 2 <= n -> reverse (symbol_of <$> fr.*1) = rhs r -> (n, 0%nat, la) ∈ items_at (top stk) ->
  exists z, sem r (reverse fr.*2) = Some z /\
    if decide (lhs r = Sym.start) then exists t, z = VTree t /\ perform (Reduce n) y = (Ret (Return_ 0), put_tree t y)
    else exists s y', goto_state (lhs r) (top stk) = Ret s /\ perform (Reduce n) y = (Ret (NewState s), y') /\
           sim (entered s y') ((s, z) :: stk) w q /\ parse_tree y' = parse_tree y.
Proof using.
  intros Hsim Hp Hlen Hr Hn Hrhs Hi. pose proof (sim_height _ _ _ _ Hsim) as Hh. destruct Hsim as [Hss (xs & rest & Hsl) Hst Hlv Hpe].
  destruct (rule_shape n (rule_at_bounds _ _ Hr Hn)) as (r' & Hr' & Hl & _ & _ & Hr1 & Hr2). rewrite Hr in Hr'. injection Hr' as <-.
  assert (Hlf : length (rhs r) = length fr) by (rewrite <-Hrhs, length_reverse, !length_fmap; done).
  destruct (reduce_action _ _ _ _ _ _ _ _ Hsl Hp Hlen Hr Hn Hrhs Hi) as (x & z & Hx & Hz & Hact). cbv zeta in Hact.
  assert (Hidx : Z.of_nat (length (yyss y)) - 1 = Z.of_nat (length (fr ++ stk))) by lia.
  assert (Hdrop : drop (Z.to_nat (Z.of_nat (length (rhs r)))) (yyss y) = stk.*1 ++ [0]).
  { rewrite Nat2Z.id, Hss, fmap_app, <-app_assoc, Hlf. apply drop_app_length'. by rewrite length_fmap. }
  exists z. split; [done|]. unfold perform, yyreduce. erewrite bind_run by (unfold lift; rewrite Hr2; reflexivity).
  erewrite bind_run by reflexivity. erewrite bind_run by reflexivity. cbv zeta. rewrite Hidx.
  erewrite bind_run; [|unfold lift; erewrite slot_lookup; [reflexivity|exact Hx|reflexivity|rewrite length_app; lia]].
  case_decide as Hs.
  - destruct Hact as (t & -> & Ht). exists t. split; [done|]. erewrite bind_run by (unfold lift; rewrite Ht; reflexivity). done.
  - destruct Hact as (x' & Ht & Hf & Hk1 & Hk2). rewrite <-Hl in Hs. destruct (goto_backed _ _ _ Hi Hs) as (s & Hg & Hb). rewrite Hl in Hg, Hb.
    exists s. destruct (backed_live _ _ _ Hb) as (_ & _ & HX). eexists. split; [done|]. split.
    + erewrite bind_run by (unfold lift; rewrite Ht; reflexivity). cbv zeta beta iota. rewrite Hdrop.
      erewrite bind_run; [|apply push_value_run; rewrite length_states, (slots_size _ _ _ _ Hsl), length_app in *; unfold depth_limit in *; lia].
      erewrite bind_run by (rewrite head_states; reflexivity). erewrite bind_run by (unfold lift; rewrite Hr1; reflexivity).
      erewrite bind_run by (unfold lift; rewrite Hg; reflexivity). reflexivity.
    + split; [|done]. split; cbn; [done| |done|done|done]. rewrite length_states.
      assert (Hx' : x ∈ yyvs y) by by eapply list_elem_of_lookup_2. rewrite length_app in Hlen. unfold depth_limit in Hlen.
      apply (slots_push fr) with (xs := xs) (rest := rest); [done|lia|by rewrite HX| |]; rewrite HX; intros Hn1 Hw; split.
      * by eapply (without_reduce _ _ _ after_where_ok n r).
      * rewrite Hk1 by done. pose proof (slots_conds _ _ _ _ Hsl) as H. rewrite Forall_forall in H. apply H; [|done]. by eapply (without_reduce _ _ _ after_where_ok n r).
      * by eapply (without_reduce _ _ _ after_order_ok n r).
      * rewrite Hk2 by done. pose proof (slots_orders _ _ _ _ Hsl) as H. rewrite Forall_forall in H. apply H; [|done]. by eapply (without_reduce _ _ _ after_order_ok n r).
Qed.

(** *** Errors *)

Lemma pop_all ss : Forall (fun s => error_shift s = Ret 0) ss -> ss <> [] -> pop_until_error ss = Ret None.
Proof.
  induction 1 as [|s ss Hs H IH]; [done|]. intros _. cbn [pop_until_error]. rewrite Hs. cbn. destruct ss; [done|]. by apply IH.
Qed.

Lemma path_states stk : path stk -> Forall (fun s => error_shift s = Ret 0) (stk.*1 ++ [0]).
Proof.
  induction 1 as [|s v stk Hp IH Hb]; [constructor; [reflexivity|constructor]|]. rewrite fmap_cons. constructor; [|done].
  destruct (backed_live _ _ _ Hb) as (Hl & _ & _). pose proof (forallb_elem _ _ s no_error_shift_ok (live_state _ Hl)) as H. cbv beta in H. cbn [fst].
  destruct (error_shift s) as [x| |]; [|done..]. by apply Z.eqb_eq in H as ->.
Qed.

Lemma errlab1_run (y : Yacc L) stk : yyss y = stk.*1 ++ [0] -> path stk -> yyerrlab1 y = (Ret (Return_ 1), put_errstatus 3 y).
Proof.
  intros Hss Hp. unfold yyerrlab1. erewrite bind_run by reflexivity. erewrite bind_run by reflexivity. cbn [yyss put_errstatus]. rewrite Hss.
  erewrite bind_run; [|unfold lift; rewrite pop_all; [reflexivity|by apply path_states|by destruct stk as [|[] ?]]]. done.
Qed.

Lemma perform_error y stk w q : sim y stk w q -> path stk -> perform SyntaxError y = (Ret (Return_ 1), put_errstatus 3 y).
Proof.
  intros [Hss _ Hst _ _] Hp. cbn [perform]. unfold yyerrlab. erewrite bind_run by reflexivity. erewrite bind_run by reflexivity. rewrite Hst. cbn [Z.eqb].
  by eapply errlab1_run.
Qed.

(** *** One iteration *)

(** What a move means for the run of an iteration. *)
Definition follows (m : Move) (q : L * SemValue) (y : Yacc L) (run : outcome Next * Yacc L) : Prop :=
  match m with
  | Go stk w => exists y', run = (Ret (NewState (top stk)), y') /\ sim (entered (top stk) y') stk w q /\ parse_tree y' = parse_tree y
  | Accepted t w => exists y', run = (Ret (Return_ 0), y') /\ parse_tree y' = t /\ pending y' w q
  | Rejected => exists y', run = (Ret (Return_ 1), y') /\ parse_tree y' = parse_tree y
  | _ => True
  end.

Lemma perform_move y stk w0 w q v : sim y stk w q -> stack_ok stk w0 -> (length stk <= depth_limit)%nat -> verdict (top stk) (next_symbol w) = Some v ->
  (forall s, v = Shift s -> yychar y <> Tok.YYEMPTY) -> follows (move stk w) q y (perform v y).
Proof using HL.
  intros Hsim Hok Hlen Hv Hc. pose proof (sim_typed _ _ _ _ Hsim) as Hty. assert (Ht : 0 <= next_symbol w <= YYNTOKENS).
  { destruct w as [|[t x] w]; [done|]. apply Forall_cons in Hty as [[? _] _]. simpl in *. lia. }
  pose proof (verdict_fair _ _ _ (path_live _ (ok_path _ _ Hok)) Ht Hv) as Hf. unfold move. rewrite (proj2 (Nat.ltb_ge _ _)) by lia. rewrite Hv.
  destruct v as [s|n|].
  - apply andb_prop in Hf as [Hf1 Hs]. destruct w as [|[t x] w]; [done|].
    destruct (perform_shift _ _ _ _ s t x Hsim (ok_path _ _ Hok) Hlen (Hc s eq_refl) Hs) as (y' & H1 & H2 & H3). by exists y'.
  - destruct (reduce_frames _ _ _ Hok Hlen Hf) as (r & w1 & w2 & k & z & la & Hr & Hn & -> & Hd & Hi & Hl & _). rewrite Hr. cbv zeta in *.
    assert (Hit : has_item (top stk) n (length (rhs_of n)) = true) by (unfold fair in Hf; rewrite !andb_true_iff in Hf; tauto).
    destruct (path_item _ _ _ (ok_path _ _ Hok) Hit) as (_ & Hsy & _). unfold rhs_of in Hsy. rewrite Hr, (take_ge (rhs r)) in Hsy by lia.
    rewrite <-(take_drop (length (rhs r)) stk) in Hsim, Hlen. pose proof (ok_path _ _ Hok) as Hp. rewrite <-(take_drop (length (rhs r)) stk) in Hp.
    destruct (perform_reduce _ _ _ _ _ _ _ _ Hsim Hp Hlen Hr Hn Hsy Hi) as (x & Hx & Hrun). rewrite Hx. case_decide.
    + destruct Hrun as (t & -> & Hrun). exists (put_tree t y). split; [done|]. split; [done|]. by apply (sim_pending _ _ _ _ Hsim).
    + destruct Hrun as (s & y' & -> & Hrun & Hsim' & Htree). by exists y'.
  - rewrite (perform_error _ _ _ _ Hsim (ok_path _ _ Hok)). by eexists.
Qed.

(** The lookahead symbol is there when it is needed. *)
Definition loaded (y : Yacc L) (t : token) (w : list token) (q : L * SemValue) : Prop :=
  token_of (yychar y) (yylval y) = Some t /\ yychar y <> Tok.YYerror /\ reads yylex (lexer y, yylval y) w q.

Lemma load_run y stk t w q : sim y stk (t :: w) q ->
  exists y1, (if yychar y =? Tok.YYEMPTY then c ← zoom (fun s => (lexer s, yylval s)) put_lexer yylex; modify (put_yychar c) else mret tt) y = (Ret tt, y1) /\
    loaded y1 t w q /\ no_clauses (yylval y1) /\ yyss y1 = yyss y /\ yyvs y1 = yyvs y /\ yyerrstatus y1 = yyerrstatus y /\ parse_tree y1 = parse_tree y.
Proof using HL.
  intros [Hss Hsl Hst Hlv Hpe]. unfold pending in Hpe. case_decide as Hc.
  - rewrite (proj2 (Z.eqb_eq _ _) Hc). inversion Hpe as [|? c p' ? ? ? Hlex Htok Hr]; subst.
    erewrite bind_run by (apply zoom_run; exact Hlex). eexists. split; [reflexivity|]. destruct p' as [l' x']. cbn. split_and!; [| |done..].
    + split_and!; [done|by eapply scan_no_error|done].
    + pose proof (scan_keeps _ _ _ Hlex) as [E1 E2]. destruct Hlv as [E3 E4]. cbn in E1, E2. split; cbn; congruence.
  - rewrite (proj2 (Z.eqb_neq _ _) Hc). destruct Hpe as (? & ? & [= <- <-] & Ht & Hne & Hr). exists y. done.
Qed.

Lemma fetch_run y stk t w q : sim y stk (t :: w) q -> needs (top stk) = Ret true ->
  exists y', yybackup yylex (top stk) y = (v ← lift (lookup_action (top stk) t.1); perform v) y' /\ sim y' stk (t :: w) q /\
    yychar y' <> Tok.YYEMPTY /\ parse_tree y' = parse_tree y.
Proof using HL.
  intros Hsim Hn. destruct (load_run _ _ _ _ _ Hsim) as (y1 & Hload & (Htok & Hne & Hr) & Hnc & E1 & E2 & E3 & E4). destruct Hsim as [Hss Hsl Hst _ _].
  unfold yybackup. erewrite bind_run by (unfold lift; rewrite Hn; reflexivity). cbv iota. erewrite bind_run by reflexivity.
  erewrite bind_run by exact Hload. erewrite bind_run by reflexivity. unfold token_of, kind_symbol in Htok. destruct (Z.leb_spec (yychar y1) Tok.YYEOF) as [Hle|Hle].
  - destruct (field Sym.YYEOF (yylval y1)) as [v|] eqn:Hf; [|done]. injection Htok as <-. exists (put_yychar Tok.YYEOF y1).
    split; [by erewrite bind_run by reflexivity|]. split; [|done]. split; cbn; [by rewrite E1|by rewrite E2|by rewrite E3|done|].
    unfold pending. rewrite decide_False by done. exists (Sym.YYEOF, v), w. split_and!; [done| |done|done]. cbn. unfold token_of, kind_symbol. cbn [Z.leb]. by rewrite Hf.
  - rewrite (proj2 (Z.eqb_neq _ _) Hne). destruct (yytranslated (yychar y1)) as [u| |] eqn:Hu; [|done..].
    destruct (field u (yylval y1)) as [v|] eqn:Hf; [|done]. injection Htok as <-. exists y1. split; [done|].
    assert (yychar y1 <> Tok.YYEMPTY) by (unfold Tok.YYEMPTY, Tok.YYEOF in *; lia).
    split; [|done]. split; [by rewrite E1|by rewrite E2|by rewrite E3|done|]. unfold pending. rewrite decide_False by done.
    exists (u, v), w. split_and!; [done| |done|done]. unfold token_of, kind_symbol. by rewrite (proj2 (Z.leb_gt _ _)), Hu, Hf by done.
Qed.

Lemma sim_move y stk w0 w q : sim y stk w q -> stack_ok stk w0 -> (length stk <= depth_limit)%nat -> follows (move stk w) q y (yybackup yylex (top stk) y).
Proof using HL.
  intros Hsim Hok Hlen. destruct (verdict (top stk) (next_symbol w)) as [v|] eqn:Hv.
  2: { unfold move. rewrite (proj2 (Nat.ltb_ge _ _)), Hv by lia. done. }
  pose proof Hv as Hv'. unfold verdict in Hv'. destruct (needs (top stk)) as [[]| |] eqn:Hn; [| |done..].
  - destruct w as [|t w]; [done|]. destruct (fetch_run _ _ _ _ _ Hsim Hn) as (y' & -> & Hsim' & Hc & Htree).
    destruct t as [t x]. cbn [next_symbol fst] in *. destruct (t =? YYNTOKENS); [done|]. destruct (lookup_action (top stk) t) as [v'| |] eqn:Hl; [|done..]. injection Hv' as ->.
    erewrite bind_run by reflexivity. pose proof (perform_move _ _ _ _ _ _ Hsim' Hok Hlen Hv (fun _ _ => Hc)) as Hm.
    unfold follows in *. by rewrite Htree in Hm.
  - unfold yybackup. erewrite bind_run by (unfold lift; rewrite Hn; reflexivity). cbv iota. destruct (yydefault (top stk)) as [v'| |] eqn:Hd; [|done..]. injection Hv' as ->.
    erewrite bind_run by reflexivity. eapply perform_move; [done..|]. intros s ->.
    unfold yydefault in Hd. destruct (at_ yydefact (top stk)); [|done..]. cbn in Hd. by case_match.
Qed.
End sim.
