(* ===== verification/ParserSpec.v ===== *)
(** * The parser accepts exactly the grammar

    [yyparse] returns 0 exactly when the scanner delivers a sentence of [yacc.y]
    that the stack is high enough for; the tree is the one the grammar gives, and
    nothing behind the sentence is read.  Otherwise it returns 1 or 2, or passes
    on what the scanner throws; it never breaks down, and it does not run without
    reading. *)

From S2P Require Import Prelude Parser Grammar LrSpec LrCorrect ParserSim Ast.

Definition check_accepting : bool :=
  forallb (fun s => forallb (fun n => negb (lhs_of n =? Sym.start) || negb (has_item s n (length (rhs_of n))) ||
    (match needs s with Ret b => negb b | _ => false end && (symbol_of s <? YYNTOKENS))) rule_numbers) states.
Lemma accepting_ok : check_accepting = true.
Proof. vm_compute. reflexivity. Qed.
Definition check_weight_bound : bool := forallb (fun X => -1 <=? weight X) (seqZ (-1) 98).
Lemma weight_bound_ok : check_weight_bound = true.
Proof. vm_compute. reflexivity. Qed.

Lemma symbol_range s : live s = true -> -1 <= symbol_of s < 97.
Proof.
  intros Hs%live_state. assert (H : forallb (fun s => (-1 <=? symbol_of s) && (symbol_of s <? 97)) states = true) by (vm_compute; reflexivity).
  apply (forallb_elem _ _ _) with (2 := Hs) in H. cbv beta in H. lia.
Qed.

Lemma stack_weight_bound stk : path stk -> - Z.of_nat (length stk) <= stack_weight stk.
Proof.
  induction 1 as [|s v stk Hp IH Hb]; [done|]. destruct (backed_live _ _ _ Hb) as (Hl & _ & _).
  pose proof (forallb_elem _ _ (symbol_of s) weight_bound_ok) as H. cbv beta in H. rewrite elem_of_seqZ in H. apply symbol_range in Hl.
  specialize (H ltac:(lia)). apply Z.leb_le in H. change (stack_weight ((s, v) :: stk)) with (weight (symbol_of s) + stack_weight stk). cbn [length]. lia.
Qed.

Definition check_tables_total : bool := forallb (fun s => match needs s, yydefault s with Ret _, Ret _ => true | _, _ => false end) states.
Lemma tables_total_ok : check_tables_total = true.
Proof. vm_compute. reflexivity. Qed.
Lemma needs_total stk w : stack_ok stk w -> exists b, needs (top stk) = Ret b.
Proof.
  intros Hok. pose proof (forallb_elem _ _ _ tables_total_ok (live_state _ (path_live _ (ok_path _ _ Hok)))) as H. cbv beta in H.
  destruct (needs (top stk)); [by eexists|done..].
Qed.
Lemma default_total stk w : stack_ok stk w -> exists v, yydefault (top stk) = Ret v.
Proof.
  intros Hok. pose proof (forallb_elem _ _ _ tables_total_ok (live_state _ (path_live _ (ok_path _ _ Hok)))) as H. cbv beta in H.
  destruct (needs (top stk)); [|done..]. destruct (yydefault (top stk)); [by eexists|done..].
Qed.

(** No symbol has been read ahead, or the state looked at it, or a reduction kept it. *)
Definition calm (stk : list frame) (w : list token) : Prop := w = [] \/ needs (top stk) = Ret true \/ YYNTOKENS <= symbol_of (top stk).

Lemma move_calm stk w0 w : stack_ok stk w0 -> typed_input w -> (length w <= 1)%nat -> calm stk w ->
  match move stk w with
  | Go stk' w' => (length w' <= 1)%nat /\ calm stk' w'
  | Accepted t w' => w' = []
  | _ => True
  end.
Proof.
  intros Hok Hty Hw Hc. pose proof (move_sound _ _ w Hok Hty) as Hm. assert (Ht : 0 <= next_symbol w <= YYNTOKENS).
  { destruct w as [|[t x] w]; [done|]. apply Forall_cons in Hty as [[? _] _]. simpl in *. lia. }
  unfold move in *. destruct (depth_limit <? length stk)%nat eqn:Hlen; [done|]. apply Nat.ltb_ge in Hlen.
  destruct (verdict (top stk) (next_symbol w)) as [[s|n|]|] eqn:Hv; [| |done..].
  - destruct w as [|[t x] w]; [done|]. simpl in Hw. destruct w; [|simpl in Hw; lia]. split; [simpl; lia|by left].
  - pose proof (verdict_fair _ _ _ (path_live _ (ok_path _ _ Hok)) Ht Hv) as Hf.
    destruct (reduce_frames _ _ _ Hok Hlen Hf) as (r & w1 & w2 & k & z & la & Hr & Hn & -> & Hd & Hi & Hl & _ & _ & _ & Hz & _). rewrite Hr in *. cbv zeta in *.
    rewrite Hz in *. case_decide as Hst.
    + destruct z; try done. destruct Hm as [_ _]. destruct Hc as [->|Hc]; [done|]. exfalso.
      pose proof (forallb_elem _ _ (top stk) accepting_ok (live_state _ (path_live _ (ok_path _ _ Hok)))) as H. cbv beta in H.
      apply (forallb_elem _ _ n) in H; [|by eapply rule_number]. cbv beta in H. rewrite Hl, Hst in H. unfold fair in Hf. rewrite !andb_true_iff in Hf. destruct Hf as [_ Hit].
      rewrite Hit in H. cbn [negb orb Z.eqb] in H. change (Sym.start =? Sym.start) with true in H. cbn [negb orb] in H. apply andb_prop in H as [H1 H2].
      destruct Hc as [Hc|Hc]; [by rewrite Hc in H1|lia].
    + rewrite <-Hl in Hst. destruct (goto_backed _ _ _ Hi Hst) as (s & Hg & Hb). rewrite Hl in Hg, Hb. rewrite Hg. split; [done|]. right. right.
      destruct (backed_live _ _ _ Hb) as (_ & _ & HX). cbn [top]. rewrite HX.
      destruct (rule_shape n (rule_at_bounds _ _ Hr Hn)) as (r' & Hr' & _ & _ & Hb' & _). rewrite Hr in Hr'. injection Hr' as <-. lia.
Qed.

(** [T_EOF] is only shifted as the first token, and then accepted. *)
Definition eof_last (stk : list frame) (w0 : list token) : Prop := Forall (fun t => t.1 <> Sym.T_EOF) w0 \/ (top stk = 16 /\ length w0 = 1%nat).
Definition check_eof : bool :=
  forallb (fun s => match verdict s Sym.T_EOF with Some (Shift s') => (s =? 0) && (s' =? 16) | _ => true end) states &&
  forallb (fun t => match verdict 16 t with Some (Reduce n) => lhs_of n =? Sym.start | _ => false end) (tokens ++ [YYNTOKENS]).
Lemma eof_ok : check_eof = true.
Proof. vm_compute. reflexivity. Qed.

Lemma move_eof stk w0 w stk' w' : stack_ok stk w0 -> typed_input w -> eof_last stk w0 -> move stk w = Go stk' w' ->
  (forall t, w = t :: w' -> eof_last stk' (w0 ++ [t])) /\ eof_last stk' w0.
Proof.
  intros Hok Hty He Hm. pose proof eof_ok as Hc. unfold check_eof in Hc. apply andb_prop in Hc as [Hc1 Hc2]. assert (Ht : 0 <= next_symbol w <= YYNTOKENS).
  { destruct w as [|[t x] w]; [done|]. apply Forall_cons in Hty as [[? _] _]. simpl in *. lia. }
  unfold move in Hm. destruct (Nat.ltb_spec depth_limit (length stk)) as [|Hlen]; [done|].
  destruct He as [He|[He _]].
  2: { exfalso. rewrite He in Hm. apply (forallb_elem _ _ (next_symbol w)) in Hc2.
       2: { rewrite elem_of_app, list_elem_of_singleton. unfold YYNTOKENS in *. destruct (decide (next_symbol w = 63)); [by right|left; apply elem_of_seqZ; lia]. }
       cbv beta in Hc2. destruct (verdict 16 (next_symbol w)) as [[|n|]|]; [done| |done..]. unfold lhs_of in Hc2. destruct (rule_at n) as [r|]; [|done].
       apply Z.eqb_eq in Hc2. destruct (sem r _) as [v|]; [|done]. rewrite decide_True in Hm by assumption. destruct v; discriminate Hm. }
  split; [|by left]. intros t ->. destruct t as [t x]. destruct (decide (t = Sym.T_EOF)) as [->|Hne]; [|left; apply Forall_app; split; [done|by constructor]].
  right. cbn [next_symbol] in Hm. pose proof (live_state _ (path_live _ (ok_path _ _ Hok))) as Hst. apply (forallb_elem _ _ _) with (2 := Hst) in Hc1. cbv beta in Hc1.
  destruct (verdict (top stk) Sym.T_EOF) as [[s|n|]|]; [| |done..].
  - injection Hm as <-. apply andb_prop in Hc1 as [H0%Z.eqb_eq ->%Z.eqb_eq]. split; [done|]. apply path_top_0 in H0; [|apply Hok]. subst stk.
    pose proof (ok_built _ _ Hok Hlen) as Hb. inversion Hb; subst. done.
  - exfalso. destruct (rule_at n) as [r|]; [|done]. cbv zeta in Hm. destruct (sem r _) as [v|]; [|done]. case_decide; [destruct v; discriminate Hm|].
    destruct (goto_state _ _); [|done..]. injection Hm as _ Hw. apply (f_equal length) in Hw. simpl in Hw. lia.
Qed.

(** Steps that do not call the scanner. *)
Create HintDb silence.

Section spec.
Context {L : Type} (yylex : M (L * SemValue) Z) {HL : ScannerLaws yylex}.

(** The array and [yylval] as they are constructed: members of class type are
    empty, the others are whatever was there. *)
Definition constructed (x : SemValue) (vs : list SemValue) : Prop := length vs = 200%nat /\ no_clauses x /\ Forall no_clauses vs.

Lemma sim_initial (l : L) x vs tree w q : constructed x vs -> reads yylex (l, x) w q ->
  sim yylex (entered 0 (mkYacc l x Tok.YYEMPTY 0 [] vs tree)) [] w q.
Proof.
  intros (Hlen & Hx & Hvs) Hr. split; cbn; [done| |done|done|by unfold pending; rewrite decide_True].
  destruct vs as [|x0 rest]; [done|]. exists [], rest. split; [by exists x0|by apply Forall2_nil|done| |].
  - intros _. apply (Forall_impl no_clauses); [done|]. by intros y [].
  - intros _. apply (Forall_impl no_clauses); [done|]. by intros y [].
Qed.

Lemma stack_ok_nil : stack_ok [] [].
Proof. split; [constructor|constructor|intros _; constructor]. Qed.

(** One turn of the loop. *)
Lemma loop_turn fuel y stk w q w0 : sim yylex (entered (top stk) y) stk w q -> stack_ok stk w0 ->
  yyloop yylex (S fuel) (top stk) y =
    if (depth_limit <? length stk)%nat then (Ret 2, entered (top stk) y)
    else (n ← yybackup yylex (top stk); match n with NewState s => yyloop yylex fuel s | Return_ r => mret r end) (entered (top stk) y).
Proof using.
  intros Hsim Hok. pose proof (sim_height _ _ _ _ _ Hsim) as Hh. cbn [yyss entered put_stacks] in Hh. simpl yyss in Hh. cbn [yyloop].
  erewrite bind_run by reflexivity. erewrite bind_run by reflexivity. cbv zeta. erewrite bind_run by reflexivity.
  fold (entered (top stk) y). rewrite Hh. unfold YYINITDEPTH, depth_limit in *. destruct (Nat.ltb_spec 198 (length stk)).
  - rewrite (proj2 (Z.leb_le _ _)) by lia. done.
  - rewrite (proj2 (Z.leb_gt _ _)) by lia. assert (top stk <> YYFINAL) as Hne%Z.eqb_neq; [|by rewrite Hne].
    intros E. pose proof (path_live _ (ok_path _ _ Hok)) as Hl. rewrite E in Hl. vm_compute in Hl. done.
Qed.

(** *** Sentences are accepted *)

Lemma loop_goes a b : rtc goes a b -> forall y q w0, sim yylex (entered (top a.1) y) a.1 a.2 q -> stack_ok a.1 w0 ->
  exists n y' w0', (forall fuel, yyloop yylex (n + fuel) (top a.1) y = yyloop yylex fuel (top b.1) y') /\
    sim yylex (entered (top b.1) y') b.1 b.2 q /\ stack_ok b.1 w0' /\
    Z.of_nat n + 9 * Z.of_nat (length b.2) + stack_weight b.1 <= 9 * Z.of_nat (length a.2) + stack_weight a.1.
Proof using HL.
  induction 1 as [a|a b c Hgo Hrest IH]; intros y q w0 Hsim Hok; [exists 0%nat, y, w0; split_and!; [done..|lia]|].
  destruct a as [stk w], b as [stk1 w1]. unfold goes in Hgo. cbn [fst snd] in *.
  pose proof (move_sound _ _ _ Hok (sim_typed _ _ _ _ _ Hsim)) as Hm. rewrite Hgo in Hm.
  assert (Hlen : (length stk <= depth_limit)%nat). { unfold move in Hgo. destruct (Nat.ltb_spec depth_limit (length stk)); [done|lia]. }
  pose proof (sim_move yylex _ _ _ _ _ Hsim Hok Hlen) as Hf. rewrite Hgo in Hf. destruct Hf as (y1 & Hrun & Hsim1 & _).
  assert (Hok1 : exists w0', stack_ok stk1 w0' /\ 1 + 9 * Z.of_nat (length w1) + stack_weight stk1 <= 9 * Z.of_nat (length w) + stack_weight stk).
  { destruct Hm as [(t & -> & H1 & H2)|(-> & H1 & H2)]; [exists (w0 ++ [t])|exists w0]; split; [done|simpl; lia|done|lia]. }
  destruct Hok1 as (w0' & Hok1 & HQ). destruct (IH y1 q w0' Hsim1 Hok1) as (n & y' & w2 & Hloop & Hsim2 & Hok2 & HQ2).
  exists (S n), y', w2. split_and!; [|done|done|lia]. intros fuel. cbn [Nat.add]. erewrite loop_turn by done. rewrite (proj2 (Nat.ltb_ge _ _)) by lia.
  rewrite (bind_run _ _ _ _ _ Hrun). apply Hloop.
Qed.

Lemma parser_accepts (k fuel : nat) (w : list token) (t tree : option Ast.TreeNode) (l : L) (x : SemValue) (vs : list SemValue) (q : L * SemValue) :
  constructed x vs -> reads yylex (l, x) w q -> sentence k w t -> (k <= depth_limit)%nat -> (9 * length w + 200 < fuel)%nat ->
  exists y, yyparse yylex fuel x vs l tree = (Ret 0, y) /\ parse_tree y = t /\ (lexer y, yylval y) = q.
Proof using HL.
  intros Hc Hr Hs Hk Hfuel. destruct (sentence_accepted _ _ _ Hs Hk) as (stk & Hgo & Hacc). pose proof (sim_initial _ _ _ tree _ _ Hc Hr) as Hsim.
  destruct (loop_goes _ _ Hgo _ _ _ Hsim stack_ok_nil) as (n & y1 & w0 & Hloop & Hsim1 & Hok1 & HQ). cbn [fst snd top] in *.
  assert (Hlen : (length stk <= depth_limit)%nat). { unfold move in Hacc. destruct (Nat.ltb_spec depth_limit (length stk)); [done|lia]. }
  pose proof (stack_weight_bound _ (ok_path _ _ Hok1)) as Hwb. change (stack_weight []) with 0 in HQ. simpl length in HQ. unfold depth_limit in *.
  unfold yyparse. replace fuel with (n + S (fuel - n - 1))%nat by lia. rewrite Hloop. erewrite loop_turn by done. unfold depth_limit. rewrite (proj2 (Nat.ltb_ge _ _)) by lia.
  pose proof (sim_move yylex _ _ _ _ _ Hsim1 Hok1 Hlen) as Hf. rewrite Hacc in Hf. destruct Hf as (y2 & Hrun & Ht & Hp).
  rewrite (bind_run _ _ _ _ _ Hrun). exists y2. split; [done|]. split; [done|]. unfold pending in Hp. case_decide; [by inversion Hp|].
  by destruct Hp as (? & ? & ? & _).
Qed.

(** *** What a run can end with *)

(** After [reads p0], a scanner's failure is passed on; 0 is returned for a
    sentence; the loop runs out of fuel only after more than [N] tokens, none of the
    first [N] being the end of the text. *)
Definition run_ok (p0 : L * SemValue) (N : nat) (tree : option Ast.TreeNode) (run : outcome Z * Yacc L) : Prop :=
  match run with
  | (Ret r, y) =>
      (r = 0 /\ exists w k, reads yylex p0 w (lexer y, yylval y) /\ (k <= depth_limit)%nat /\ sentence k w (parse_tree y)) \/
      ((r = 1 \/ r = 2) /\ parse_tree y = tree)
  | (Throw e, y) => exists w p, reads yylex p0 w p /\ yylex p = (Throw e, (lexer y, yylval y))
  | (Stuck f, _) => exists w p, reads yylex p0 w p /\ ((exists p', yylex p = (Stuck f, p')) \/
      (f = Diverges /\ (N < length w)%nat /\ Forall (fun t => t.1 <> Sym.T_EOF) (take N w)))
  end.

(** The automaton waits: the scanner is called. *)
Lemma waiting_backup y stk w0 w q : sim yylex y stk w q -> stack_ok stk w0 -> (length stk <= depth_limit)%nat -> move stk w = Waiting ->
  w = [] /\ needs (top stk) = Ret true /\ (lexer y, yylval y) = q /\ yychar y = Tok.YYEMPTY.
Proof using.
  intros Hsim Hok Hlen Hm. pose proof (move_sound _ _ _ Hok (sim_typed _ _ _ _ _ Hsim)) as Hw. rewrite Hm in Hw. subst w. split; [done|].
  assert (Hv : verdict (top stk) YYNTOKENS = None).
  { unfold move in Hm. rewrite (proj2 (Nat.ltb_ge _ _)) in Hm by lia. cbn [next_symbol] in Hm. destruct (verdict _ _) as [[| |]|]; [done| |done|done].
    repeat (case_match; try done). }
  split.
  - destruct (needs_total stk w0 Hok) as [[] Hn]; [done|]. exfalso. unfold verdict in Hv. rewrite Hn in Hv. destruct (default_total stk w0 Hok) as [v Hd]. by rewrite Hd in Hv.
  - pose proof (sim_pending _ _ _ _ _ Hsim) as Hp. unfold pending in Hp. case_decide; [by inversion Hp|]. by destruct Hp as (? & ? & ? & _).
Qed.

Lemma feed y stk w0 w q : sim yylex y stk w q -> stack_ok stk w0 -> (length stk <= depth_limit)%nat -> (length w <= 1)%nat -> calm stk w ->
  (exists w' q', sim yylex y stk w' q' /\ (w' = w /\ q' = q \/ w = [] /\ reads yylex q w' q') /\ move stk w' <> Waiting /\ (length w' <= 1)%nat /\ calm stk w') \/
  (w = [] /\ exists y', (exists e, yylex q = (Throw e, (lexer y', yylval y')) /\ yybackup yylex (top stk) y = (Throw e, y')) \/
                       (exists f p', yylex q = (Stuck f, p') /\ yybackup yylex (top stk) y = (Stuck f, y'))).
Proof using HL.
  intros Hsim Hok Hlen Hw Hc. assert (Hm : move stk w = Waiting \/ move stk w <> Waiting) by (destruct (move stk w); [right; discriminate..|by left|right; discriminate]).
  destruct Hm as [Hm|Hm]; [|left; exists w, q; tauto].
  destruct (waiting_backup _ _ _ _ _ Hsim Hok Hlen Hm) as (-> & Hn & Hq & Hy). destruct (yylex q) as [[c|e|f] p'] eqn:Hlex.
  - left. destruct (token_of_some c p'.2) as (t & v & Ht & _). exists [(t, v)], p'.
    assert (Hr : reads yylex q [(t, v)] p') by (econstructor; [done|done|constructor]). split_and!.
    + destruct Hsim as [H1 H2 H3 H4 _]. split; [done..|]. unfold pending. rewrite decide_True by done. by rewrite Hq.
    + by right.
    + intros Hm'. destruct (waiting_backup y stk w0 [(t, v)] p') as [? _]; [|done..]. destruct Hsim as [H1 H2 H3 H4 _]. split; [done..|].
      unfold pending. rewrite decide_True by done. by rewrite Hq.
    + simpl. lia.
    + right. by left.
  - right. split; [done|]. exists (put_lexer p' y). left. exists e. split; [by destruct p'|]. unfold yybackup. erewrite bind_run by (unfold lift; rewrite Hn; reflexivity). cbv iota.
    erewrite bind_run by reflexivity. rewrite Hy. cbn [Z.eqb]. apply bind_throw. apply bind_throw. apply zoom_run. rewrite Hq. exact Hlex.
  - right. split; [done|]. eexists. right. exists f, p'. split; [done|]. unfold yybackup. erewrite bind_run by (unfold lift; rewrite Hn; reflexivity). cbv iota.
    erewrite bind_run by reflexivity. rewrite Hy. cbn [Z.eqb]. apply bind_stuck. apply bind_stuck. apply zoom_run. rewrite Hq. exact Hlex.
Qed.

Lemma loop_total fuel : forall y stk w0 w q p0 N, sim yylex (entered (top stk) y) stk w q -> stack_ok stk w0 -> reads yylex p0 (w0 ++ w) q ->
  (length w <= 1)%nat -> calm stk w -> eof_last stk w0 ->
  ((length w0 <= N)%nat -> 9 * Z.of_nat (N - length w0) + stack_weight stk + 200 < Z.of_nat fuel) ->
  run_ok p0 N (parse_tree y) (yyloop yylex fuel (top stk) y).
Proof using HL.
  induction fuel as [|fuel IH]; intros y stk w0 w q p0 N Hsim Hok Hr Hw Hc He Hfuel.
  { cbn [yyloop]. exists (w0 ++ w), q. split; [done|]. right. split; [done|]. rewrite length_app. destruct (decide (length w0 <= N)%nat) as [HN|HN].
    2: { split; [lia|]. rewrite take_app_le by lia. destruct He as [He|[_ He]]; [by apply Forall_take|]. replace N with 0%nat by lia. constructor. }
    exfalso. specialize (Hfuel HN).
    pose proof (stack_weight_bound _ (ok_path _ _ Hok)). destruct (sim_slots _ _ _ _ _ Hsim) as (xs & rest & Hsl). pose proof (slots_size _ _ _ _ Hsl) as Hsz.
    destruct (slots_length _ _ _ _ Hsl) as [Hx _]. destruct (slots_array _ _ _ _ Hsl) as [x0 E]. rewrite E in Hsz. simpl in Hsz. rewrite length_app, length_reverse in Hsz. lia. }
  erewrite loop_turn by done. destruct (Nat.ltb_spec depth_limit (length stk)) as [|Hlen]; [right; by auto|].
  destruct (feed _ _ _ _ _ Hsim Hok Hlen Hw Hc) as [(w' & q' & Hsim' & Hwq & Hm & Hw' & Hc')|(-> & y' & Hfail)].
  - assert (Hr' : reads yylex p0 (w0 ++ w') q').
    { destruct Hwq as [[-> ->]|[-> Hq]]; [done|]. rewrite app_nil_r in Hr. by eapply reads_app. }
    pose proof (move_sound _ _ _ Hok (sim_typed _ _ _ _ _ Hsim')) as Hs. pose proof (sim_move yylex _ _ _ _ _ Hsim' Hok Hlen) as Hf.
    pose proof (move_calm _ _ _ Hok (sim_typed _ _ _ _ _ Hsim') Hw' Hc') as Hcalm.
    pose proof (fun stk1 w1 => move_eof stk w0 w' stk1 w1 Hok (sim_typed _ _ _ _ _ Hsim') He) as Heof.
    destruct (move stk w') as [stk1 w1|t w1| | | |]; [| | |lia|done|done].
    + destruct (Heof _ _ eq_refl) as [He1 He2]. destruct Hf as (y1 & Hrun & Hsim1 & Htree). rewrite (bind_run _ _ _ _ _ Hrun). destruct Hcalm as [Hw1 Hc1]. change (parse_tree y) with (parse_tree (entered (top stk) y)). rewrite <-Htree.
      destruct Hs as [(t & -> & Hok1 & Hwt)|(-> & Hok1 & Hwt)].
      * change (t :: w1) with ([t] ++ w1) in Hr'. rewrite app_assoc in Hr'. eapply IH; [done|done|exact Hr'|done|done|by apply He1|rewrite length_app; simpl length; lia].
      * eapply IH; [done|done|exact Hr'|done|done|done|lia].
    + destruct Hf as (y1 & Hrun & Ht & Hp). rewrite (bind_run _ _ _ _ _ Hrun). left. split; [done|]. destruct Hs as (-> & k & Hk & Hsen). subst w'. rewrite app_nil_r in Hr'.
      exists w0, k. rewrite Ht. unfold pending in Hp. case_decide; [|by destruct Hp as (? & ? & ? & _)]. inversion Hp; subst. done.
    + destruct Hf as (y1 & Hrun & Ht). rewrite (bind_run _ _ _ _ _ Hrun). right. auto.
  - rewrite app_nil_r in Hr. destruct Hfail as [(e & Hlex & Hrun)|(f & p' & Hlex & Hrun)].
    + rewrite (bind_throw _ _ _ _ _ Hrun). by exists w0, q.
    + rewrite (bind_stuck _ _ _ _ _ Hrun). exists w0, q. split; [done|]. left. by exists p'.
Qed.

(** *** The scanner at the end *)

(** A step that does not call the scanner leaves it alone. *)
Definition silent {A} (m : M (Yacc L) A) : Prop := forall y a y', m y = (Ret a, y') -> lexer y' = lexer y /\ yylval y' = yylval y.
Lemma silent_bind {A B} (m : M (Yacc L) A) (k : A -> M (Yacc L) B) : silent m -> (forall a, silent (k a)) -> silent (m ≫= k).
Proof. intros Hm Hk y b y' (a & y1 & H1 & H2)%bind_Ret_inv. apply Hm in H1 as [E1 E2]. apply Hk in H2 as [E3 E4]. split; congruence. Qed.
Lemma silent_lift {A} (o : outcome A) : silent (lift o).
Proof. intros y a y' H. injection H as _ <-. done. Qed.
Lemma silent_gets {A} (f : Yacc L -> A) : silent (gets f).
Proof. intros y a y' H. injection H as _ <-. done. Qed.
Lemma silent_ret {A} (a : A) : silent (mret a).
Proof. intros y b y' H. injection H as _ <-. done. Qed.
Lemma silent_put_yychar c : silent (modify (put_yychar c)).
Proof. intros y a y' H. injection H as _ <-. done. Qed.
Lemma silent_put_errstatus e : silent (modify (put_errstatus e)).
Proof. intros y a y' H. injection H as _ <-. done. Qed.
Lemma silent_put_tree t : silent (modify (put_tree t)).
Proof. intros y a y' H. injection H as _ <-. done. Qed.
Lemma silent_unwrap {A} w (o : option A) : silent (unwrap w o).
Proof. destruct o; [apply silent_ret|done]. Qed.
Lemma silent_push ss x : silent (push_value (L := L) ss x).
Proof. apply silent_bind; [apply silent_gets|]. intros vs. case_match; intros y a y' E; [injection E as _ <-; done|done]. Qed.
#[local] Hint Resolve silent_lift silent_gets silent_ret silent_put_yychar silent_put_errstatus silent_put_tree silent_unwrap silent_push : silence.
#[local] Hint Extern 1 (silent (_ ≫= _)) => apply silent_bind; [|intros ?] : silence.
#[local] Hint Extern 2 (silent (match ?x with _ => _ end)) => destruct x : silence.

Lemma silent_errlab1 : silent (yyerrlab1 (L := L)).
Proof. unfold yyerrlab1. auto 10 with silence. Qed.
#[local] Hint Resolve silent_errlab1 : silence.
Lemma silent_perform v : silent (perform (L := L) v).
Proof.
  destruct v as [s|n|]; cbn [perform]; [auto 20 with silence|unfold yyreduce; cbv zeta; auto 20 with silence|unfold yyerrlab; auto 20 with silence].
Qed.
#[local] Hint Resolve silent_perform : silence.

Lemma backup_reads s y n y' : yybackup yylex s y = (Ret n, y') -> exists w, reads yylex (lexer y, yylval y) w (lexer y', yylval y').
Proof using.
  intros H. apply bind_Ret_inv in H as (b & y0 & H0 & H). injection H0 as _ <-. assert (Hs : forall (m : M (Yacc L) Next) y1, m y1 = (Ret n, y') -> silent m -> (lexer y', yylval y') = (lexer y1, yylval y1)).
  { intros m y1 H1 Hm. apply Hm in H1 as [-> ->]. done. }
  destruct b.
  - apply bind_Ret_inv in H as (c & y0 & H0 & H). injection H0 as <- <-. apply bind_Ret_inv in H as ([] & y1 & H1 & H).
    assert (Hr : exists w, reads yylex (lexer y, yylval y) w (lexer y1, yylval y1)).
    { destruct (yychar y =? Tok.YYEMPTY); [|injection H1 as <-; exists []; constructor]. apply bind_Ret_inv in H1 as (c & y2 & H2 & H1). injection H1 as <-.
      unfold zoom in H2. destruct (yylex (lexer y, yylval y)) as [r p'] eqn:Hlex. injection H2 as -> <-. destruct (token_of_some c p'.2) as (t & v & Ht & _).
      exists [(t, v)]. econstructor; [done|done|]. destruct p'. constructor. }
    destruct Hr as [w Hr]. exists w. apply bind_Ret_inv in H as (c & y2 & H2 & H). injection H2 as <- <-.
    enough ((lexer y', yylval y') = (lexer y1, yylval y1)) as -> by done. destruct (yychar y1 <=? Tok.YYEOF); [|destruct (yychar y1 =? Tok.YYerror)].
    all: apply (Hs _ _ H); auto 10 with silence.
  - exists []. enough ((lexer y', yylval y') = (lexer y, yylval y)) as -> by constructor. apply (Hs _ _ H). auto with silence.
Qed.

Lemma loop_reads fuel : forall s y r y', yyloop yylex fuel s y = (Ret r, y') -> exists w, reads yylex (lexer y, yylval y) w (lexer y', yylval y').
Proof using.
  induction fuel as [|fuel IH]; intros s y r y' H; [done|]. cbn [yyloop] in H. apply bind_Ret_inv in H as (ss & y1 & H1 & H). injection H1 as <- <-.
  apply bind_Ret_inv in H as (vs & y1 & H1 & H). injection H1 as <- <-. cbv zeta in H. apply bind_Ret_inv in H as ([] & y1 & H1 & H). injection H1 as <-.
  destruct (_ <=? _); [injection H as _ <-; exists []; constructor|]. destruct (s =? YYFINAL); [injection H as _ <-; exists []; constructor|].
  apply bind_Ret_inv in H as (n & y1 & H1 & H). apply backup_reads in H1 as [w1 H1]. cbn in H1. destruct n as [s'|r']; [|injection H as _ <-; by exists w1].
  apply IH in H as [w2 H2]. exists (w1 ++ w2). by eapply reads_app.
Qed.

Lemma parser_outcome (fuel N : nat) (tree : option Ast.TreeNode) (l : L) (x : SemValue) (vs : list SemValue) :
  constructed x vs -> (9 * N + 200 < fuel)%nat -> run_ok (l, x) N tree (yyparse yylex fuel x vs l tree).
Proof using HL.
  intros Hc Hfuel. apply (loop_total fuel (mkYacc l x Tok.YYEMPTY 0 [] vs tree) [] [] [] (l, x)).
  - eapply sim_initial; [done|constructor].
  - apply stack_ok_nil.
  - constructor.
  - simpl. lia.
  - by left.
  - left. constructor.
  - intros _. cbn. lia.
Qed.

(** C3: the parser accepts exactly the grammar.  Over any scanner that keeps its
    promises, [yyparse] returns 0 with the tree of the sentence, having read nothing
    behind it, whenever the tokens form a sentence of [yacc.y] that the stack of 200
    has room for; it returns 0 for nothing else, and 1 or 2 leave the last tree alone.
    What the scanner throws is passed on, no table is read out of bounds, and the
    loop does not run for more than nine turns a token. *)
Theorem yyparse_exact (fuel N : nat) (tree : option Ast.TreeNode) (l : L) (x : SemValue) (vs : list SemValue) :
  constructed x vs -> (9 * N + 200 < fuel)%nat ->
  (forall k w t q, reads yylex (l, x) w q -> sentence k w t -> (k <= depth_limit)%nat -> (length w <= N)%nat ->
     exists y, yyparse yylex fuel x vs l tree = (Ret 0, y) /\ parse_tree y = t /\ (lexer y, yylval y) = q) /\
  run_ok (l, x) N tree (yyparse yylex fuel x vs l tree).
Proof using HL.
  intros Hc Hfuel. split; [|by apply parser_outcome]. intros k w t q Hr Hs Hk Hw. eapply parser_accepts; [done..|lia].
Qed.
End spec.
