(* ===== verification/Lexer.v ===== *)
(** * The scanner ([parser/lex.yy.cpp], generated from [parser/lex.l])

    [yylex] as flex generated it, on the buffer [yy_scan_string] makes of a
    request: the loop over the tables of [LexTables], the return to the last
    accepting position, the end of the buffer, and the actions of the rules.  The
    zero that ends [yytext] in place, and the character it hides, are not written
    to the buffer; locations and messages are not kept. *)

From Stdlib Require Import Floats.SpecFloat.
From S2P Require Import Prelude Bytes Values SmMeta Dml Ast Parser.

(** ** The tables of the generated scanner ([parser/lex.yy.cpp])

    The tables flex computed from [parser/lex.l], as they stand in the source. *)

Definition YY_END_OF_BUFFER : Z := 59.

(** The rule a state accepts; 0: none. *)
Definition yy_accept : list Z :=
  [0; 0; 0; 0; 0; 59; 57; 6; 7; 7; 57; 51; 51; 57; 51; 53; 51; 51; 52; 52; 52; 52; 52; 52; 52; 52; 52; 52; 52;
   52; 52; 52; 52; 52; 52; 52; 52; 3; 4; 6; 7; 0; 56; 0; 53; 5; 1; 54; 49; 50; 48; 52; 52; 52; 46; 52; 52; 40;
   52; 52; 52; 52; 52; 52; 52; 52; 52; 52; 52; 52; 52; 52; 52; 52; 52; 52; 52; 52; 52; 52; 52; 52; 52; 2; 0;
   5; 54; 52; 35; 41; 52; 52; 52; 52; 52; 52; 52; 52; 52; 52; 52; 52; 52; 52; 52; 52; 29; 52; 52; 52; 43; 44;
   52; 52; 52; 27; 52; 45; 52; 52; 52; 52; 0; 52; 52; 52; 32; 52; 52; 52; 52; 52; 19; 18; 37; 52; 24; 38; 52;
   52; 21; 36; 52; 9; 52; 52; 52; 0; 10; 52; 52; 52; 52; 0; 13; 11; 52; 52; 42; 52; 52; 52; 33; 34; 52; 47;
   39; 52; 52; 0; 17; 52; 52; 25; 0; 30; 12; 16; 52; 23; 20; 52; 28; 0; 15; 26; 22; 0; 52; 52; 0; 0; 31; 14;
   0; 0; 0; 0; 0; 0; 0; 0; 0; 0; 0; 0; 0; 0; 0; 0; 0; 0; 0; 0; 0; 0; 8; 0; 55; 0].

(** The equivalence class of a character. *)
Definition yy_ec : list Z :=
  [0; 1; 1; 1; 1; 1; 1; 1; 1; 2; 3; 1; 1; 4; 1; 1; 1; 1; 1; 1; 1; 1; 1; 1; 1; 1; 1; 1; 1; 1; 1; 1; 5; 1; 1; 1;
   1; 1; 1; 6; 7; 8; 9; 10; 11; 12; 13; 14; 15; 15; 15; 15; 15; 15; 15; 15; 15; 15; 16; 17; 18; 19; 20; 1; 1;
   21; 22; 23; 24; 25; 26; 27; 28; 29; 30; 31; 32; 33; 34; 35; 36; 37; 38; 39; 40; 41; 42; 43; 44; 45; 37; 1;
   1; 1; 1; 46; 1; 47; 48; 49; 50; 51; 52; 53; 54; 55; 56; 57; 58; 59; 60; 61; 62; 37; 63; 64; 65; 66; 67; 68;
   69; 70; 37; 1; 1; 1; 1; 1; 1; 1; 1; 1; 1; 1; 1; 1; 1; 1; 1; 1; 1; 1; 1; 1; 1; 1; 1; 1; 1; 1; 1; 1; 1; 1; 1;
   1; 1; 1; 1; 1; 1; 1; 1; 1; 1; 1; 1; 1; 1; 1; 1; 1; 1; 1; 1; 1; 1; 1; 1; 1; 1; 1; 1; 1; 1; 1; 1; 1; 1; 1; 1;
   1; 1; 1; 1; 1; 1; 1; 1; 1; 1; 1; 1; 1; 1; 1; 1; 1; 1; 1; 1; 1; 1; 1; 1; 1; 1; 1; 1; 1; 1; 1; 1; 1; 1; 1; 1;
   1; 1; 1; 1; 1; 1; 1; 1; 1; 1; 1; 1; 1; 1; 1; 1; 1; 1; 1; 1; 1; 1; 1; 1; 1; 1; 1; 1; 1].

(** The class to use in a template. *)
Definition yy_meta : list Z :=
  [0; 1; 1; 2; 1; 1; 1; 1; 1; 1; 1; 1; 1; 1; 1; 3; 1; 1; 1; 1; 1; 3; 3; 3; 3; 3; 3; 3; 3; 3; 3; 3; 3; 3; 3; 3;
   3; 3; 3; 3; 3; 3; 3; 3; 3; 3; 3; 3; 3; 3; 3; 3; 3; 3; 3; 3; 3; 3; 3; 3; 3; 3; 3; 3; 3; 3; 3; 3; 3; 3; 3].

(** Where in [yy_nxt] and [yy_chk] the transitions of a state are. *)
Definition yy_base : list Z :=
  [0; 0; 0; 411; 410; 418; 438; 69; 438; 413; 66; 438; 400; 61; 403; 62; 59; 391; 58; 57; 56; 62; 45; 58; 0;
   60; 64; 68; 91; 86; 67; 88; 103; 111; 98; 114; 108; 438; 395; 99; 438; 401; 438; 132; 80; 0; 438; 358; 438;
   438; 438; 0; 102; 115; 117; 115; 118; 0; 127; 118; 125; 113; 140; 120; 127; 129; 132; 138; 149; 146; 147;
   162; 141; 152; 167; 160; 162; 160; 164; 178; 179; 173; 182; 438; 209; 0; 291; 173; 0; 0; 179; 187; 181;
   189; 191; 207; 205; 207; 212; 201; 199; 219; 208; 207; 220; 221; 212; 215; 221; 228; 0; 0; 228; 223; 232;
   233; 216; 0; 228; 241; 224; 230; 274; 230; 240; 243; 0; 253; 245; 247; 251; 252; 0; 0; 0; 254; 0; 0; 252;
   259; 0; 0; 258; 0; 261; 279; 279; 269; 0; 280; 267; 284; 286; 308; 0; 0; 273; 275; 0; 293; 296; 301; 0; 0;
   289; 0; 0; 312; 296; 298; 302; 309; 303; 0; 340; 0; 0; 0; 310; 0; 0; 322; 0; 307; 0; 0; 0; 342; 324; 319;
   317; 350; 0; 0; 317; 359; 323; 362; 141; 376; 344; 384; 351; 378; 353; 381; 366; 386; 138; 388; 360; 392;
   374; 398; 376; 399; 438; 93; 438; 438; 428; 431; 85; 434].

(** The state to look in next. *)
Definition yy_def : list Z :=
  [0; 219; 1; 220; 220; 219; 219; 219; 219; 219; 221; 219; 219; 219; 219; 219; 219; 219; 222; 222; 222; 222;
   222; 222; 222; 222; 222; 222; 222; 222; 222; 222; 222; 222; 222; 222; 222; 219; 219; 219; 219; 221; 219;
   221; 219; 223; 219; 219; 219; 219; 219; 222; 222; 222; 222; 222; 222; 222; 222; 222; 222; 222; 222; 222;
   222; 222; 222; 222; 222; 222; 222; 222; 222; 222; 222; 222; 222; 222; 222; 222; 222; 222; 222; 219; 221;
   223; 219; 222; 222; 222; 222; 222; 222; 222; 222; 222; 222; 222; 222; 222; 222; 222; 222; 222; 222; 222;
   222; 222; 222; 222; 222; 222; 222; 222; 222; 222; 222; 222; 222; 222; 222; 222; 221; 222; 222; 222; 222;
   222; 222; 222; 222; 222; 222; 222; 222; 222; 222; 222; 222; 222; 222; 222; 222; 222; 222; 222; 222; 219;
   222; 222; 222; 222; 222; 221; 222; 222; 222; 222; 222; 222; 222; 222; 222; 222; 222; 222; 222; 222; 222;
   219; 222; 222; 222; 222; 221; 222; 222; 222; 222; 222; 222; 222; 222; 219; 222; 222; 222; 221; 222; 222;
   219; 221; 222; 222; 219; 221; 219; 221; 219; 221; 219; 221; 219; 221; 219; 221; 219; 221; 219; 221; 219;
   221; 219; 221; 219; 221; 219; 221; 219; 0; 219; 219; 219; 219].

(** The next state. *)
Definition yy_nxt : list Z :=
  [0; 6; 7; 8; 9; 7; 10; 11; 11; 11; 12; 11; 13; 11; 14; 15; 6; 11; 16; 11; 17; 18; 19; 20; 21; 22; 23; 24; 25;
   26; 27; 24; 28; 29; 24; 30; 24; 24; 31; 32; 33; 34; 35; 36; 24; 24; 6; 18; 19; 20; 21; 22; 23; 24; 25; 26;
   27; 24; 28; 29; 24; 30; 24; 31; 32; 33; 34; 35; 36; 24; 24; 39; 42; 45; 39; 47; 44; 44; 48; 49; 52; 43; 55;
   61; 58; 67; 56; 62; 51; 64; 65; 59; 53; 47; 60; 44; 66; 54; 68; 218; 63; 39; 57; 69; 39; 74; 52; 72; 55;
   61; 58; 67; 56; 62; 64; 73; 65; 59; 53; 60; 70; 66; 54; 75; 68; 63; 71; 57; 76; 69; 74; 77; 79; 72; 80; 81;
   82; 87; 42; 88; 89; 73; 90; 210; 78; 91; 70; 84; 92; 75; 95; 93; 71; 96; 76; 99; 100; 77; 79; 94; 80; 81;
   82; 87; 101; 88; 89; 102; 90; 78; 103; 91; 97; 104; 92; 107; 95; 93; 96; 98; 108; 99; 100; 109; 94; 110;
   111; 200; 105; 106; 101; 112; 113; 102; 114; 116; 103; 117; 97; 104; 118; 107; 115; 119; 98; 120; 108; 121;
   124; 109; 110; 123; 111; 105; 106; 42; 125; 112; 113; 126; 114; 116; 127; 117; 122; 128; 118; 115; 129;
   119; 130; 120; 131; 121; 124; 132; 123; 133; 147; 134; 135; 136; 125; 137; 126; 138; 139; 140; 127; 141;
   142; 128; 143; 144; 129; 145; 130; 146; 131; 148; 149; 132; 150; 133; 134; 151; 135; 136; 152; 137; 154;
   138; 139; 140; 155; 141; 142; 156; 143; 144; 42; 145; 157; 146; 148; 158; 149; 159; 150; 153; 151; 160;
   161; 152; 162; 154; 163; 164; 165; 166; 155; 167; 168; 156; 169; 170; 86; 171; 157; 172; 158; 173; 159;
   175; 42; 176; 160; 161; 177; 162; 174; 163; 164; 165; 166; 178; 179; 167; 168; 180; 169; 170; 171; 181;
   185; 172; 182; 173; 175; 183; 176; 184; 186; 188; 177; 189; 42; 190; 42; 192; 193; 178; 179; 194; 180; 187;
   42; 191; 196; 181; 185; 182; 195; 198; 183; 42; 184; 186; 42; 188; 202; 189; 190; 86; 197; 192; 193; 199;
   201; 194; 204; 201; 42; 196; 42; 206; 201; 42; 198; 201; 42; 208; 42; 205; 42; 212; 202; 207; 42; 203; 214;
   209; 216; 211; 42; 42; 204; 42; 213; 83; 50; 206; 46; 215; 217; 44; 40; 208; 219; 38; 38; 212; 219; 219;
   219; 219; 214; 219; 216; 37; 37; 37; 41; 41; 41; 85; 219; 85; 5; 219; 219; 219; 219; 219; 219; 219; 219;
   219; 219; 219; 219; 219; 219; 219; 219; 219; 219; 219; 219; 219; 219; 219; 219; 219; 219; 219; 219; 219;
   219; 219; 219; 219; 219; 219; 219; 219; 219; 219; 219; 219; 219; 219; 219; 219; 219; 219; 219; 219; 219;
   219; 219; 219; 219; 219; 219; 219; 219; 219; 219; 219; 219; 219; 219; 219; 219; 219; 219; 219; 219].

(** Whose entry it is. *)
Definition yy_chk : list Z :=
  [0; 1; 1; 1; 1; 1; 1; 1; 1; 1; 1; 1; 1; 1; 1; 1; 1; 1; 1; 1; 1; 1; 1; 1; 1; 1; 1; 1; 1; 1; 1; 1; 1; 1; 1; 1;
   1; 1; 1; 1; 1; 1; 1; 1; 1; 1; 1; 1; 1; 1; 1; 1; 1; 1; 1; 1; 1; 1; 1; 1; 1; 1; 1; 1; 1; 1; 1; 1; 1; 1; 1; 7;
   10; 13; 7; 15; 13; 15; 16; 16; 18; 10; 19; 21; 20; 25; 19; 21; 222; 22; 23; 20; 18; 44; 20; 44; 23; 18; 26;
   217; 21; 39; 19; 27; 39; 30; 18; 29; 19; 21; 20; 25; 19; 21; 22; 29; 23; 20; 18; 20; 28; 23; 18; 31; 26;
   21; 28; 19; 32; 27; 30; 32; 33; 29; 34; 35; 36; 52; 43; 53; 54; 29; 55; 208; 32; 56; 28; 43; 58; 31; 60;
   59; 28; 61; 32; 63; 64; 32; 33; 59; 34; 35; 36; 52; 65; 53; 54; 66; 55; 32; 67; 56; 62; 68; 58; 69; 60; 59;
   61; 62; 70; 63; 64; 71; 59; 72; 73; 198; 68; 68; 65; 74; 75; 66; 76; 77; 67; 78; 62; 68; 79; 69; 76; 80;
   62; 81; 70; 82; 90; 71; 72; 87; 73; 68; 68; 84; 91; 74; 75; 92; 76; 77; 93; 78; 84; 94; 79; 76; 95; 80; 96;
   81; 97; 82; 90; 98; 87; 99; 115; 100; 101; 102; 91; 103; 92; 104; 105; 106; 93; 107; 108; 94; 109; 112; 95;
   113; 96; 114; 97; 116; 118; 98; 119; 99; 100; 120; 101; 102; 121; 103; 123; 104; 105; 106; 124; 107; 108;
   125; 109; 112; 122; 113; 127; 114; 116; 128; 118; 129; 119; 122; 120; 130; 131; 121; 135; 123; 138; 139;
   142; 144; 124; 145; 146; 125; 147; 149; 86; 150; 127; 151; 128; 152; 129; 156; 153; 157; 130; 131; 159;
   135; 153; 138; 139; 142; 144; 160; 161; 145; 146; 164; 147; 149; 150; 167; 171; 151; 168; 152; 156; 169;
   157; 170; 172; 178; 159; 181; 174; 183; 187; 188; 189; 160; 161; 190; 164; 174; 191; 187; 194; 167; 171;
   168; 191; 196; 169; 195; 170; 172; 197; 178; 200; 181; 183; 47; 195; 188; 189; 197; 199; 190; 202; 199;
   199; 194; 203; 204; 201; 205; 196; 201; 201; 206; 207; 203; 209; 210; 200; 205; 211; 201; 212; 207; 214;
   209; 213; 215; 202; 41; 211; 38; 17; 204; 14; 213; 215; 12; 9; 206; 5; 4; 3; 210; 0; 0; 0; 0; 212; 0; 214;
   220; 220; 220; 221; 221; 221; 223; 0; 223; 219; 219; 219; 219; 219; 219; 219; 219; 219; 219; 219; 219; 219;
   219; 219; 219; 219; 219; 219; 219; 219; 219; 219; 219; 219; 219; 219; 219; 219; 219; 219; 219; 219; 219;
   219; 219; 219; 219; 219; 219; 219; 219; 219; 219; 219; 219; 219; 219; 219; 219; 219; 219; 219; 219; 219;
   219; 219; 219; 219; 219; 219; 219; 219; 219; 219; 219; 219; 219; 219; 219; 219].

(** ** State

    [yy_ch_buf] is the text and two end-of-buffer characters; positions are
    indexes into it.  [yy_start] and the last accepting position are global and
    survive from one request to the next; so does [output2file]. *)
Record Lex : Type := mkLex {
  yy_init : bool;
  yy_start : Z;
  yy_ch_buf : list Z;
  yy_n_chars : nat;
  yy_c_buf_p : nat;
  yy_last_accepting_state : Z;
  yy_last_accepting_cpos : nat;
  lex_output2file : bool
}.
Definition set_init (b : bool) (x : Z) (l : Lex) : Lex :=
  mkLex b x (yy_ch_buf l) (yy_n_chars l) (yy_c_buf_p l) (yy_last_accepting_state l) (yy_last_accepting_cpos l) (lex_output2file l).
Definition set_start (x : Z) (l : Lex) : Lex := set_init (yy_init l) x l.
Definition set_buf (b : list Z) (n p : nat) (l : Lex) : Lex :=
  mkLex (yy_init l) (yy_start l) b n p (yy_last_accepting_state l) (yy_last_accepting_cpos l) (lex_output2file l).
Definition set_pos (p : nat) (l : Lex) : Lex := set_buf (yy_ch_buf l) (yy_n_chars l) p l.
Definition set_last (s : Z) (p : nat) (l : Lex) : Lex :=
  mkLex (yy_init l) (yy_start l) (yy_ch_buf l) (yy_n_chars l) (yy_c_buf_p l) s p (lex_output2file l).
Definition set_output (b : bool) (l : Lex) : Lex :=
  mkLex (yy_init l) (yy_start l) (yy_ch_buf l) (yy_n_chars l) (yy_c_buf_p l) (yy_last_accepting_state l) (yy_last_accepting_cpos l) b.

(** [yy_scan_string]: a copy of the string, up to its zero. *)
Definition yy_scan_string (yystr : list Z) (l : Lex) : Lex :=
  let text := cstr yystr in set_buf (text ++ [0; 0]) (length text) 0 l.

(** ** The automaton *)

(** The transition on the class [c]; [fuel] bounds the chain of default states. *)
Fixpoint yy_trans (fuel : nat) (s c : Z) : outcome Z :=
  match fuel with
  | O => Stuck Diverges
  | S fuel =>
      base ← at_ yy_base s;
      chk ← at_ yy_chk (base + c);
      if chk =? s then at_ yy_nxt (base + c)
      else
        s ← at_ yy_def s;
        c ← (if 220 <=? s then at_ yy_meta c else Ret c);
        yy_trans fuel s c
  end.
Definition max_chain : nat := 4.

(** Remember an accepting state. *)
Definition note_accepting (s : Z) (cp : nat) : M Lex unit :=
  a ← lift (at_ yy_accept s);
  if a =? 0 then mret tt else modify (set_last s cp).

(** [yy_match]: to a state without further transitions. *)
Fixpoint yy_match (fuel : nat) (s : Z) (cp : nat) : M Lex (Z * nat) :=
  match fuel with
  | O => stuck Diverges
  | S fuel =>
      buf ← gets yy_ch_buf;
      b ← unwrap OutOfBounds (buf !! cp);
      c ← lift (at_ yy_ec b);
      note_accepting s cp ;;
      s ← lift (yy_trans max_chain s c);
      let cp := S cp in
      base ← lift (at_ yy_base s);
      if negb (base =? 438) then yy_match fuel s cp else mret (s, cp)
  end.

(** [yy_find_action]: the rule and where its text ends, which becomes the
    position of the scanner. *)
Definition yy_find_action (s : Z) (cp : nat) : M Lex (Z * nat) :=
  a ← lift (at_ yy_accept s);
  if a =? 0 then
    s ← gets yy_last_accepting_state;
    cp ← gets yy_last_accepting_cpos;
    a ← lift (at_ yy_accept s);
    modify (set_pos cp) ;; mret (a, cp)
  else modify (set_pos cp) ;; mret (a, cp).

(** [yy_get_previous_state]: the state after the [n] characters from [cp]. *)
Fixpoint yy_get_previous_state (n : nat) (s : Z) (cp : nat) : M Lex Z :=
  match n with
  | O => mret s
  | S n =>
      buf ← gets yy_ch_buf;
      b ← unwrap OutOfBounds (buf !! cp);
      c ← lift (if b =? 0 then Ret 1 else at_ yy_ec b);
      note_accepting s cp ;;
      s ← lift (yy_trans max_chain s c);
      yy_get_previous_state n s (S cp)
  end.

(** [yy_try_NUL_trans] *)
Definition yy_try_NUL_trans (s : Z) (cp : nat) : M Lex (option Z) :=
  note_accepting s cp ;;
  s ← lift (yy_trans max_chain s 1);
  mret (if s =? 219 then None else Some s).

(** What a scan from [bp] finds: a rule and the end of its text, or the end of
    the input.  At the end of the buffer ([YY_END_OF_BUFFER]) a zero inside the
    text is a character like others; otherwise [yy_get_next_buffer], which has
    nothing to fill the buffer with, says whether some text is left to match. *)
Inductive Scanned : Type :=
| Matched (rule : Z) (cp : nat)
| AtEnd.

Fixpoint yy_action (fuel : nat) (bp : nat) (found : Z * nat) : M Lex Scanned :=
  match fuel with
  | O => stuck Diverges
  | S fuel =>
      let '(act, cp) := found in
      if negb (act =? YY_END_OF_BUFFER) then mret (Matched act cp)
      else
        n ← gets yy_n_chars;
        p ← gets yy_c_buf_p;
        start ← gets yy_start;
        if (p <=? n)%nat then
          let cp := (bp + (cp - bp - 1))%nat in
          modify (set_pos cp) ;;
          s ← yy_get_previous_state (cp - bp) start bp;
          r ← yy_try_NUL_trans s cp;
          match r with
          | Some s =>
              modify (set_pos (S cp)) ;;
              buf ← gets yy_ch_buf;
              q ← yy_match (S (length buf)) s (S cp);
              found ← yy_find_action q.1 q.2;
              yy_action fuel bp found
          | None => found ← yy_find_action s cp; yy_action fuel bp found
          end
        else if (n + 1 <? p)%nat then stuck AssertFailed
        else if (p - bp =? 1)%nat then modify (set_pos bp) ;; mret AtEnd
        else
          modify (set_pos n) ;;
          s ← yy_get_previous_state (n - bp) start bp;
          found ← yy_find_action s n;
          yy_action fuel bp found
  end.

Definition scan_one : M Lex (nat * Scanned) :=
  bp ← gets yy_c_buf_p;
  start ← gets yy_start;
  buf ← gets yy_ch_buf;
  q ← yy_match (S (length buf)) start bp;
  found ← yy_find_action q.1 q.2;
  r ← yy_action (S (length buf)) bp found;
  mret (bp, r).

(** ** Literals *)

(** The optional sign and the digits behind it. *)
Definition split_sign (s : list Z) : bool * list Z :=
  match s with 45 :: s => (true, s) | 43 :: s => (false, s) | _ => (false, s) end.
Definition signed_digits (s : list Z) : Z :=
  let '(neg, d) := split_sign s in let n := digits_val (take_digits d) in if (neg : bool) then - n else n.

(** [atoi]: a value that does not fit is undefined.  [std::stoll] throws. *)
Definition atoi (s : list Z) : outcome Z := let n := signed_digits s in if in_i32 n then Ret n else Stuck SignedOverflow.
Definition stoll (s : list Z) : outcome Z := let n := signed_digits s in if in_i64 n then Ret n else Throw OutOfRange.

(** [atof] of digits, a point and digits, rounded to [double], then to [float]. *)
Definition atof (s : list Z) : spec_float :=
  let '(neg, d) := split_sign s in
  let int_part := take_digits d in
  let frac_part := take_digits (drop (S (length int_part)) d) in
  match digits_val (int_part ++ frac_part) with
  | Zpos m => SFdiv 53 1024 (S754_finite neg m 0) (S754_finite false (Z.to_pos (10 ^ Z.of_nat (length frac_part))) 0)
  | _ => S754_zero neg
  end.
Definition float_of_double (x : spec_float) : spec_float :=
  match x with S754_finite s m e => binary_round 24 128 s m e | _ => x end.

(** The texts an [int] literal is compared with; [sizeof] counts their zero. *)
Definition int_max : list Z := bytes_of_string "2147483647".
Definition int_min : list Z := bytes_of_string "2147483648".
Definition sizeof_int_max : Z := Z.of_nat (length int_max) + 1.
Definition sizeof_int_min : Z := Z.of_nat (length int_min) + 1.

(** Whether rule 53 reads its text as an [int]; [num_len - 1] is unsigned, but the
    text is not empty. *)
Definition fits_int (yytext : list Z) : bool :=
  let num_len := Z.of_nat (length yytext) in
  let by_length (len size : Z) (text limit : list Z) : bool :=
    if len <? size then true else if size <? len then false else strcmp text limit <=? 0 in
  match yytext with
  | 45 :: text => by_length (num_len - 1) sizeof_int_min text int_min
  | 43 :: text => by_length (num_len - 1) sizeof_int_max text int_max
  | text => by_length num_len sizeof_int_max text int_max
  end.

(** ** Actions *)

(** The token a keyword rule returns (rules 9 to 50). *)
Definition keywords : list Z := [
  Tok.LOAD; Tok.SHOW; Tok.TXN_BEGIN; Tok.TXN_COMMIT; Tok.TXN_ABORT; Tok.TXN_ROLLBACK; Tok.TABLES; Tok.CREATE; Tok.TABLE; Tok.DROP;
  Tok.DESC; Tok.INSERT; Tok.INTO; Tok.VALUES; Tok.DELETE; Tok.FROM; Tok.WHERE; Tok.UPDATE; Tok.SET; Tok.SELECT; Tok.INT; Tok.BIGINT;
  Tok.DATETIME; Tok.CHAR; Tok.FLOAT; Tok.INDEX; Tok.AND; Tok.JOIN; Tok.EXIT; Tok.HELP; Tok.ORDER; Tok.BY; Tok.ASC; Tok.COUNT; Tok.MAX;
  Tok.MIN; Tok.SUM; Tok.AS; Tok.LIMIT; Tok.GEQ; Tok.LEQ; Tok.NEQ].

(** What a rule makes of its text: the token, and the value with its member set;
    None: nothing is returned and the scanner goes on. *)
Definition rule_token (act : Z) (yytext : list Z) (yylval : SemValue) : outcome (option (Z * SemValue)) :=
  if (9 <=? act) && (act <=? 50) then c ← at_ keywords (act - 9); Ret (Some (c, yylval))
  else
    match act with
    | 51 => c ← at_ yytext 0; Ret (Some (wrap_s 8 c, yylval))
    | 52 => Ret (Some (Tok.IDENTIFIER, set_sv_str (string_of_bytes yytext) yylval))
    | 53 =>
        if fits_int yytext then n ← atoi yytext; Ret (Some (Tok.VALUE_INT, set_sv_int n yylval))
        else n ← stoll yytext; Ret (Some (Tok.VALUE_BIGINT, set_sv_bigint n yylval))
    | 54 => Ret (Some (Tok.VALUE_FLOAT, set_sv_float (bits_of_f32 (float_of_double (atof yytext))) yylval))
    | 55 => d ← to_bcd (slice 1 (length yytext - 2) yytext); Ret (Some (Tok.VALUE_DATETIME, set_sv_datetime d yylval))
    | 56 => Ret (Some (Tok.VALUE_STRING, set_sv_str (string_of_bytes (slice 1 (length yytext - 2) yytext)) yylval))
    | _ => Ret None
    end.

(** What a rule does to the scanner. *)
Definition rule_effect (act : Z) (l : Lex) : Lex :=
  match act with
  | 1 => set_start (1 + 2 * 1) l
  | 2 => set_start (1 + 2 * 0) l
  | 8 => set_output false l
  | _ => l
  end.

(** ** [yylex] *)

Definition on_lex {A} (m : M Lex A) : M (Lex * SemValue) A := zoom fst (fun l p => (l, p.2)) m.

(** The loop that ends with a token. *)
Fixpoint scan_loop (fuel : nat) : M (Lex * SemValue) Z :=
  match fuel with
  | O => stuck Diverges
  | S fuel =>
      r ← on_lex scan_one;
      match r.2 with
      | AtEnd => mret Tok.T_EOF
      | Matched act cp =>
          if (act <? 1) || (58 <? act) then stuck AssertFailed
          else
            buf ← on_lex (gets yy_ch_buf);
            yylval ← gets snd;
            t ← lift (rule_token act (slice r.1 (cp - r.1) buf) yylval);
            on_lex (modify (rule_effect act)) ;;
            match t with
            | Some (c, yylval) => modify (fun p => (p.1, yylval)) ;; mret c
            | None => scan_loop fuel
            end
      end
  end.

(** The first call ever sets the start state and looks at the buffer from its
    beginning. *)
Definition first_call (l : Lex) : Lex :=
  if yy_init l then l else set_pos 0 (set_init true (if yy_start l =? 0 then 1 else yy_start l) l).

Definition yylex : M (Lex * SemValue) Z :=
  on_lex (modify first_call) ;;
  buf ← on_lex (gets yy_ch_buf);
  scan_loop (S (length buf)).
