(* ===== verification/Frontend.v ===== *)
(** * From the bytes of a request to its processing ([src/src/rmdb.cpp])

    What [client_handler] does with the buffers it receives: the scanner is set
    on the text, the parser is run, and the outcome decides how the request goes on
    ([Server.request]).  The scanner and the last tree are global.  Parsing does not
    touch the database, so it is placed before [SetTransaction] here. *)

From S2P Require Import Prelude Bytes Posix Disk Replacer BufferPool PagePool Txn Lock Log TxnManager RmFile IxDefs Values SmMeta Managers Engine Ast Printer Portal Server Parser Lexer.
Import Engine.

(** What a request finds of its predecessors. *)
Record Front {R : Type} {FO : FileSystem} : Type := mkFront {
  fr_lex : Lex;
  fr_tree : option Ast.TreeNode;
  fr_stmt : Stmt (R := R)
}.
Arguments Front R {FO}.
Arguments mkFront {R FO}.

(** The flag of [config.h] that the scanner may clear. *)
Definition ctx_set_output2file (b : bool) (c : Context) : Context := mkCtx (data_send_ c) (offset_ c) (ellipsis_ c) b (output_txt c).

Section frontend.
Context (pfuel : nat) (x : SemValue) (vs : list SemValue) (strerror : list Z) (std_what : error -> list Z).

(** [yy_scan_string], then [yyparse() != 0 || ast::parse_tree == nullptr], or the
    text of the exception; [std_what] is what the standard library's say. *)
Definition parse_text (data_recv : list Z) (l : Lex) (tree : option Ast.TreeNode) : outcome Parsed * (Lex * option Ast.TreeNode) :=
  let '(r, y) := yyparse yylex pfuel x vs (yy_scan_string data_recv l) tree in
  (match r with
   | Ret n => Ret (if negb (n =? 0) then ParseFailed else match parse_tree y with Some t => ParseTree t | None => ParseFailed end)
   | Throw e => Ret (ParseThrew (default (std_what e) (what strerror e)))
   | Stuck w => Stuck w
   end, (lexer y, parse_tree y)).

Section request.
Context {R : Type} {RO : Replacer R} {FO : FileSystem}.
Context (g : Z) (r0 : Rid) (fuel : nat) (std_sort : (list Z -> list Z -> bool) -> list (list Z) -> list (list Z)).
Context (stof : list Z -> outcome Z) (csv : string -> option (list Z)) (order1 order2 order3 : list (PageId * Z)) (depth : nat) (garbage : bool).

Definition client_request (delivered : bool) (data_recv : list Z) (txn_id : Z) : M (Front R) Z := fun s =>
  let '(p, (l, tree)) := parse_text data_recv (fr_lex s) (fr_tree s) in
  match p with
  | Ret p =>
      let st := st_set_out (ctx_set_output2file (lex_output2file l) (st_out (fr_stmt s))) (fr_stmt s) in
      let '(r, st) := request g r0 fuel std_sort stof csv order1 order2 order3 depth strerror garbage delivered p txn_id st in
      (r, mkFront l tree st)
  | Throw e => (Throw e, mkFront l tree (fr_stmt s))
  | Stuck w => (Stuck w, mkFront l tree (fr_stmt s))
  end.

(** One turn of the loop of [client_handler]: [recv] is what [read] delivers into
    the zeroed buffer, None when it fails or the client has closed.  A buffer
    without a zero is read past its end. *)
Inductive Turn : Type :=
| Answered (txn_id : Z)
| Unanswered
| ClientGone
| ClientExit
| ServerCrash.

Definition received (recv : list Z) : list Z := recv ++ replicate (Z.to_nat BUFFER_LENGTH - length recv) 0.

Definition client_turn (delivered : bool) (recv : option (list Z)) (txn_id : Z) : M (Front R) Turn :=
  match recv with
  | None | Some [] => mret ClientGone
  | Some recv =>
      let data_recv := received recv in
      if negb (existsb (Z.eqb 0) data_recv) then lift (Stuck OutOfBounds)
      else if bool_decide (cstr data_recv = bytes_of_string "exit") then mret ClientExit
      else if bool_decide (cstr data_recv = bytes_of_string "crash") then mret ServerCrash
      else
        modify (fun s => mkFront (fr_lex s) (fr_tree s) (st_set_out (make_context (output2file (st_out (fr_stmt s))) (output_txt (st_out (fr_stmt s)))) (fr_stmt s))) ;;
        id ← client_request delivered data_recv txn_id;
        mret (if (delivered : bool) then Answered id else Unanswered)
  end.

(** The loop over what the client sends, from a client without a transaction. *)
Fixpoint client_loop (turns : list (option (list Z) * bool)) (txn_id : Z) : M (Front R) Turn :=
  match turns with
  | [] => mret (Answered txn_id)
  | (recv, delivered) :: turns =>
      t ← client_turn delivered recv txn_id;
      match t with Answered id => client_loop turns id | t => mret t end
  end.
Definition client_handler (turns : list (option (list Z) * bool)) : M (Front R) Turn := client_loop turns INVALID_TXN_ID.
End request.
End frontend.
