(* ===== verification/FrontendSpec.v ===== *)
(** * Texts and trees

    For every text the front end ends: with the tree of the sentence of [yacc.y]
    that the tokens of [lex.l] at its beginning form, or without a tree.  A text
    without such a sentence does nothing to the database. *)

From S2P Require Import Prelude Bytes Posix Disk Replacer BufferPool PagePool Txn Lock LockFacts LockSpec Log LogFacts LogSpec TxnManager RmFile IxDefs Values SmMeta Managers Engine Ast Printer PrinterSpec QlSpec Portal Server ServerSpec Parser Grammar LrSpec LrCorrect ParserSim ParserSpec Lexer LexerSpec Frontend.
Import Engine PoolInstance PrinterSpec QlSpec ServerSpec.

(** ** The tokens of a text *)

Inductive tokens_of : place * SemValue -> list token -> place * SemValue -> Prop :=
| tokens_nil p : tokens_of p [] p
| tokens_cons p x c p' y t w q : next_token p x (Ret c) p' y -> token_of c y = Some t -> tokens_of (p', y) w q -> tokens_of (p, x) (t :: w) q.

(** What the scanner delivers on a text is its tokens. *)
Lemma reads_tokens p w q : reads yylex p w q -> forall text pl, at_place p.1 text pl -> exists pl', tokens_of (pl, p.2) w (pl', q.2) /\ at_place q.1 text pl'.
Proof.
  induction 1 as [p|p c p' t w q Hlex Ht Hr IH]; intros text pl Hpl; [exists pl; split; [constructor|done]|].
  destruct p as [l x], p' as [l' y]. cbn [fst snd] in *. destruct (yylex_run l text pl x Hpl) as (r & l2 & y2 & pl' & Hrun & Hnext & Hpl').
  rewrite Hlex in Hrun. injection Hrun as <- <- <-. destruct (IH text pl' Hpl') as (pl2 & Htok & Hpl2). exists pl2. split; [|done]. by econstructor.
Qed.
Lemma tokens_reads p w q : tokens_of p w q -> forall l text, at_place l text p.1 -> exists l', reads yylex (l, p.2) w (l', q.2) /\ at_place l' text q.1.
Proof.
  induction 1 as [p|p x c p' y t w q Hn Ht Hr IH]; intros l text Hpl; [exists l; split; [constructor|done]|]. cbn [fst snd] in *.
  destruct (yylex_run l text p x Hpl) as (r & l2 & y2 & pl' & Hrun & Hnext & Hpl'). destruct (next_token_det _ _ _ _ _ Hn _ _ _ Hnext) as (-> & -> & ->).
  destruct (IH l2 text Hpl') as (l' & Hr' & Hpl2). exists l'. split; [|done]. by econstructor.
Qed.

(** Within as many tokens as there are characters, and one more, the text has ended. *)
Lemma tokens_bound p w q : tokens_of p w q -> (length p.1.2 < length w)%nat -> Exists (fun t => t.1 = Sym.T_EOF) (take (Datatypes.S (length p.1.2)) w).
Proof.
  induction 1 as [|p x c p' y t w q Hn Ht Hr IH]; [simpl; lia|]. cbn [fst snd length] in *. intros Hl. apply next_token_shorter in Hn as [[-> _]|Hlt].
  - left. vm_compute in Ht. by injection Ht as <-.
  - right. destruct (decide (length w <= length p'.2)%nat) as [Hle|Hgt]; [lia|]. specialize (IH ltac:(lia)). rewrite Exists_exists in *.
    destruct IH as (u & Hu & Eu). exists u. split; [|done]. apply elem_of_take in Hu as (i & Hu & Hi). apply elem_of_take. exists i. split; [done|lia].
Qed.

(** ** Between requests *)

(** The scanner is in the start condition [cond], the first call having been made
    or not. *)
Definition ready (l : Lex) (cond : Z) : Prop := yy_start (first_call l) = 1 + 2 * cond /\ (cond = INITIAL \/ cond = STATE_COMMENT).

Lemma cstr_bytes s : Forall (fun b => 0 <= b <= 255) s -> Forall (fun b => 1 <= b <= 255) (cstr s).
Proof.
  induction 1 as [|b s Hb H IH]; [constructor|]. cbn [cstr]. destruct (Z.eqb_spec b 0); [constructor|]. constructor; [lia|done].
Qed.

Lemma scan_string_place l cond data : ready l cond -> Forall (fun b => 0 <= b <= 255) data ->
  at_place (yy_scan_string data l) (cstr data) (cond, lex_output2file l, cstr data).
Proof.
  intros [Hs Hc] Hb%cstr_bytes. unfold at_place, placed, positioned, first_call, yy_scan_string in *. cbn [fst snd]. cbn in *.
  destruct (yy_init l) eqn:Hi; cbn in *; split_and!; auto; try lia; by split.
Qed.

Lemma place_ready l text p : at_place l text p -> ready l p.1.1.
Proof. intros (_ & (_ & Hc & Hs & _) & _). by split. Qed.

(** ** Sentences and the end of the text *)

Definition check_eof_rules : bool :=
  forallb (fun n => (negb (bool_decide (Sym.start ∈ rhs_of n))) && (negb (bool_decide (Sym.T_EOF ∈ rhs_of n)) || ((lhs_of n =? Sym.start) && bool_decide (rhs_of n = [Sym.T_EOF])))) (seqZ 2 90).
Lemma eof_rules_ok : check_eof_rules = true.
Proof. vm_compute. reflexivity. Qed.
Lemma eof_rule n r : rule_at n = Some r -> 2 <= n -> (Sym.start ∉ rhs r) /\ (Sym.T_EOF ∈ rhs r -> lhs r = Sym.start /\ rhs r = [Sym.T_EOF]).
Proof.
  intros Hr Hn. pose proof (rule_at_bounds _ _ Hr Hn). pose proof (forallb_elem _ _ n eof_rules_ok (proj2 (elem_of_seqZ 2 90 n) ltac:(lia))) as H'.
  cbv beta in H'. unfold lhs_of, rhs_of in H'. rewrite Hr in H'. apply andb_prop in H' as [H1 H2]. split; [by apply negb_true_iff, bool_decide_eq_false in H1|].
  intros Hin. rewrite (bool_decide_eq_true_2 _ Hin) in H2. cbn [negb orb] in H2. apply andb_prop in H2 as [->%Z.eqb_eq H2%bool_decide_eq_true]. done.
Qed.

Lemma no_eof : (forall k X w v, derives k X w v -> X <> Sym.T_EOF -> X <> Sym.start -> Forall (fun t => t.1 <> Sym.T_EOF) w) /\
  (forall k Xs w vs, derives_list k Xs w vs -> Sym.T_EOF ∉ Xs -> Sym.start ∉ Xs -> Forall (fun t => t.1 <> Sym.T_EOF) w).
Proof.
  apply derives_mutind.
  - intros t v Ht Hne _. by constructor.
  - intros n r k w vs v Hn Hr _ IH _ Hne Hst. destruct (eof_rule _ _ Hr Hn) as [H1 H2]. apply IH; [|done]. intros Hin%H2. tauto.
  - constructor.
  - intros X Xs k1 k2 w1 w2 v vs _ IH1 _ IH2 H1 H2. rewrite not_elem_of_cons in H1, H2. apply Forall_app. split; [apply IH1|apply IH2]; [intros ->; tauto|intros ->; tauto|tauto|tauto].
Qed.

(** A sentence with the end of the text in it is just that. *)
Lemma sentence_eof k w t : sentence k w t -> Forall (fun t => t.1 <> Sym.T_EOF) w \/ length w = 1%nat.
Proof.
  intros Hs. unfold sentence in Hs. inversion Hs as [? ? Ht|n r k' ? vs ? Hn Hr HD Hsem Hk' Hl]; subst; [by right|].
  destruct (eof_rule _ _ Hr Hn) as [H1 H2]. destruct (decide (Sym.T_EOF ∈ rhs r)) as [Hin|Hin]; [right|left; by apply (proj2 no_eof _ _ _ _ HD)].
  destruct (H2 Hin) as [_ E]. rewrite E in HD. inversion HD as [|? ? ? ? ? ? ? ? HX HXs]; subst. inversion HXs; subst. inversion HX; subst; [done|].
  match goal with E' : lhs ?r' = Sym.T_EOF, Hm : 2 <= ?m, Hr' : rule_at ?m = Some ?r' |- _ =>
    destruct (rule_shape m (rule_at_bounds _ _ Hr' Hm)) as (r2 & Hr2 & _ & _ & Hb & _); rewrite Hr' in Hr2; injection Hr2 as <-; rewrite E' in Hb end. unfold YYNTOKENS, Sym.T_EOF in Hb. lia.
Qed.

Lemma sentence_length k w t p x q : sentence k w t -> tokens_of (p, x) w q -> (length w <= length p.2 + 1)%nat.
Proof.
  intros Hs Hw. destruct (decide (length w <= length p.2)%nat); [lia|]. pose proof (tokens_bound _ _ _ Hw ltac:(cbn [fst]; lia)) as He. cbn [fst] in He.
  destruct (sentence_eof _ _ _ Hs) as [Hf|Hf]; [|lia]. exfalso. rewrite Exists_exists in He. destruct He as (u & Hu & Eu). apply elem_of_take in Hu as (i & Hu & _).
  by eapply Forall_lookup_1 in Hf.
Qed.

(** ** The front end *)

(** The tokens at the beginning of a text are a statement whose tree is [t]. *)
Definition statement_at (p : place) (x : SemValue) (t : option Ast.TreeNode) : Prop :=
  exists k w q, tokens_of (p, x) w q /\ (k <= depth_limit)%nat /\ sentence k w t.

Section frontend.
Context (pfuel : nat) (x : SemValue) (vs : list SemValue) (strerror : list Z) (std_what : error -> list Z).
Hypothesis (Hvs : constructed x vs).

Lemma statement_parsed l text p tree t : at_place l text p -> statement_at p x t -> (9 * (length p.2 + 1) + 200 < pfuel)%nat ->
  exists y, yyparse yylex pfuel x vs l tree = (Ret 0, y) /\ parse_tree y = t.
Proof using Hvs.
  intros Hpl (k & w & q & Hw & Hk & Hs) Hfuel. pose proof (sentence_length _ _ _ _ _ _ Hs Hw) as Hlen.
  destruct (tokens_reads _ _ _ Hw l text Hpl) as (l' & Hr & _). cbn [fst snd] in Hr.
  destruct (parser_accepts yylex k pfuel w t tree l x vs _ Hvs Hr Hs Hk ltac:(lia)) as (y & Hrun & Ht & _). by exists y.
Qed.

(** What the parser makes of a text: a result and where it leaves the scanner. *)
Lemma parse_result l text p tree : at_place l text p -> (9 * (length p.2 + 1) + 200 < pfuel)%nat ->
  match yyparse yylex pfuel x vs l tree with
  | (Ret n, y) => (exists p', at_place (lexer y) text p') /\ (n = 0 -> statement_at p x (parse_tree y))
  | (Throw e, y) => (exists p', at_place (lexer y) text p') /\ literal_error e = true
  | (Stuck f, _) => f = SignedOverflow
  end.
Proof using Hvs.
  intros Hpl Hfuel. pose proof (parser_outcome yylex pfuel (length p.2 + 1) tree l x vs Hvs Hfuel) as Hok.
  pose proof (fun n y => loop_reads yylex pfuel 0 (mkYacc l x Tok.YYEMPTY 0 [] vs tree) n y) as Hlast. fold (yyparse yylex pfuel x vs l tree) in Hlast.
  destruct (yyparse yylex pfuel x vs l tree) as [[n|e|f] y]; cbn [run_ok] in Hok.
  - split.
    + destruct (Hlast _ _ eq_refl) as [w Hr]. destruct (reads_tokens _ _ _ Hr text p Hpl) as (p' & _ & H). by exists p'.
    + intros ->. destruct Hok as [(_ & w & k & Hr & Hk & Hs)|[[] _]]; [|lia..]. destruct (reads_tokens _ _ _ Hr text p Hpl) as (p' & Hw & _). exists k, w, (p', yylval y). done.
  - destruct Hok as (w & [l1 x1] & Hr & Hlex). destruct (reads_tokens _ _ _ Hr text p Hpl) as (p1 & _ & Hp1). cbn [fst] in Hp1.
    destruct (yylex_run l1 text p1 x1 Hp1) as (r & l2 & y2 & p2 & Hrun & Hn & Hp2). rewrite Hlex in Hrun. injection Hrun as <- <- <-.
    split; [by exists p2|]. by apply next_token_errors in Hn.
  - destruct Hok as (w & [l1 x1] & Hr & Hf). destruct (reads_tokens _ _ _ Hr text p Hpl) as (p1 & Hw & Hp1). cbn [fst snd] in *. destruct Hf as [[p' Hlex]|(_ & Hlen & Hne)].
    + destruct (yylex_run l1 text p1 x1 Hp1) as (r & l2 & y2 & p2 & Hrun & Hn & Hp2). rewrite Hlex in Hrun. injection Hrun as <- _. by apply next_token_errors in Hn.
    + exfalso. pose proof (tokens_bound _ _ _ Hw ltac:(cbn [fst]; lia)) as He. cbn [fst] in He. rewrite Nat.add_1_r in Hne.
      rewrite Exists_exists in He. destruct He as (u & Hu & Eu). rewrite Forall_forall in Hne. by apply (Hne u Hu).
Qed.

Lemma front_end (data_recv : list Z) (l : Lex) (cond : Z) (tree : option Ast.TreeNode) :
  ready l cond -> Forall (fun b => 0 <= b <= 255) data_recv -> (9 * (length (cstr data_recv) + 1) + 200 < pfuel)%nat ->
  exists r l' tree', parse_text pfuel x vs strerror std_what data_recv l tree = (r, (l', tree')) /\
    (forall t, r = Ret (ParseTree t) <-> statement_at (cond, lex_output2file l, cstr data_recv) x (Some t)) /\
    match r with
    | Ret (ParseThrew msg) => (exists cond', ready l' cond') /\ exists e, literal_error e = true /\ msg = default (std_what e) (what strerror e)
    | Ret _ => exists cond', ready l' cond'
    | Throw _ => False
    | Stuck f => f = SignedOverflow
    end.
Proof using Hvs.
  intros Hl Hb Hfuel. pose proof (scan_string_place l cond data_recv Hl Hb) as Hpl.
  pose proof (fun t => statement_parsed _ _ _ tree (Some t) Hpl) as Hstmt. pose proof (parse_result _ _ _ tree Hpl Hfuel) as Hres. cbn [fst snd] in Hstmt.
  unfold parse_text. destruct (yyparse _ _ _ _ _ _) as [r y]. eexists _, _, _. split; [reflexivity|]. split.
  - intros t. split.
    + destruct r as [n|e|f]; [|done..]. destruct (Z.eqb_spec n 0) as [->|]; [|done]. cbn [negb]. destruct (parse_tree y) as [t'|] eqn:Et; [|done]. intros [= ->]. by apply Hres.
    + intros Hs. destruct (Hstmt t Hs Hfuel) as (y' & [= -> <-] & Ht). cbn [Z.eqb negb]. by rewrite Ht.
  - assert (Hready : (exists p', at_place (lexer y) (cstr data_recv) p') -> exists cond', ready (lexer y) cond') by (intros [p' Hp]; eexists; by eapply place_ready).
    destruct r as [n|e|f]; [|destruct Hres as [Hp He]; split; [by apply Hready|by exists e]|done].
    destruct Hres as [Hp _]. apply Hready in Hp. destruct (n =? 0); cbn [negb]; [by destruct (parse_tree y)|done].
Qed.

(** C35: the front end reads statements.  On every text, whatever the scanner was
    left with by the texts before, scanner and parser end; they deliver a tree
    exactly when the tokens of [lex.l] at the beginning of the text form a sentence of
    [yacc.y], up to the depth the stack has room for, and then the tree of that
    sentence.  An exception is that of a literal out of its range, undefined
    behaviour is a signed overflow in a literal, and the scanner can be set on the
    next text in every other case. *)
Theorem parse_text_correct (data_recv : list Z) (l : Lex) (cond : Z) (tree : option Ast.TreeNode) :
  ready l cond -> Forall (fun b => 0 <= b <= 255) data_recv -> (9 * (length (cstr data_recv) + 1) + 200 < pfuel)%nat ->
  exists r l' tree', parse_text pfuel x vs strerror std_what data_recv l tree = (r, (l', tree')) /\
    (forall t, r = Ret (ParseTree t) <-> statement_at (cond, lex_output2file l, cstr data_recv) x (Some t)) /\
    match r with
    | Ret (ParseThrew msg) => (exists cond', ready l' cond') /\ exists e, literal_error e = true /\ msg = default (std_what e) (what strerror e)
    | Ret _ => exists cond', ready l' cond'
    | Throw _ => False
    | Stuck f => f = SignedOverflow
    end.
Proof using Hvs. apply front_end. Qed.

(** ** Requests that are no statements *)

(** A request shorter than the buffer is followed by a zero. *)
Lemma received_cstr recv : Z.of_nat (length recv) < BUFFER_LENGTH -> existsb (Z.eqb 0) (received recv) = true /\ cstr (received recv) = cstr recv.
Proof using.
  intros Hlen. unfold received. destruct (Z.to_nat BUFFER_LENGTH - length recv)%nat as [|n] eqn:En; [lia|]. clear. induction recv as [|b recv [IH1 IH2]]; [done|].
  cbn [app existsb cstr]. rewrite IH1, IH2, orb_true_r. done.
Qed.
Lemma parse_text_cstr d d' l tree : cstr d = cstr d' -> parse_text pfuel x vs strerror std_what d l tree = parse_text pfuel x vs strerror std_what d' l tree.
Proof using. intros E. unfold parse_text, yy_scan_string. by rewrite E. Qed.

Section requests.
Context {R : Type} {RO : Replacer R} {FO : FileSystem} {FL : FileSystemLaws} {FR : FileSystemReliable}.
Context (g : Z) (r0 : Rid) (fuel : nat) (std_sort : (list Z -> list Z -> bool) -> list (list Z) -> list (list Z)).
Context (stof : list Z -> outcome Z) (csv : string -> option (list Z)) (order1 order2 order3 : list (PageId * Z)) (depth : nat) (garbage : bool).

(** The answer to a text without a statement: nothing, or the message of a literal
    that is none. *)
Definition no_statement_answer (c c' : Context) : Prop :=
  (sent c' = sent c /\ output_txt c' = output_txt c) \/
  exists e, literal_error e = true /\ sent c' = (bytes_of_string "Error: " ++ default (std_what e) (what strerror e)) ++ NL /\
    output_txt c' = output_txt c ++ (if output2file c' then bytes_of_string "failure" ++ NL else []).

(** What the request of such a text comes to, when the scanner meets no number it
    cannot convert. *)
Lemma unparsed_answer (data_recv : list Z) (cond : Z) (s : Front R) (p : Parsed) (l' : Lex) (tree' : option Ast.TreeNode) :
  let c := st_out (fr_stmt s) in
  ready (fr_lex s) cond -> Forall (fun b => 0 <= b <= 255) data_recv -> (9 * (length (cstr data_recv) + 1) + 200 < pfuel)%nat ->
  (forall t, ~ statement_at (cond, lex_output2file (fr_lex s), cstr data_recv) x (Some t)) ->
  parse_text pfuel x vs strerror std_what data_recv (fr_lex s) (fr_tree s) = (Ret p, (l', tree')) ->
  Z.of_nat (length (data_send_ c)) = BUFFER_LENGTH ->
  (forall e, literal_error e = true -> Z.of_nat (length (default (std_what e) (what strerror e))) + 9 <= BUFFER_LENGTH) ->
  let c0 := ctx_set_output2file (lex_output2file l') c in
  exists c1, no_statement_answer c c1 /\ (exists cond', ready l' cond') /\ forall (st : Stmt (R := R)) (id : Z), st_out st = c0 ->
    (match p with ParseFailed => mret tt | ParseThrew msg => on_error (bytes_of_string "Error: " ++ msg)
     | ParseTree tree => guarded fuel strerror (execute g r0 fuel std_sort stof csv order1 order2 order3 depth tree id) end) st = (Ret tt, st_set_out c1 st).
Proof using Hvs.
  intros c Hl Hb Hfuel Hno Hparse Hbuf Hmsg c0. destruct (front_end data_recv (fr_lex s) cond (fr_tree s) Hl Hb Hfuel) as (r & l2 & tree2 & Hp & Hiff & Hres).
  rewrite Hparse in Hp. injection Hp as <- <- <-. destruct p as [|msg|t]; [| |by destruct (Hno t); apply Hiff].
  - exists c0. split; [left; done|]. split; [done|]. intros st id <-. by destruct st.
  - destruct Hres as [Hr (e & He & ->)]. destruct (error_answered (R := R) (bytes_of_string "Error: " ++ default (std_what e) (what strerror e)) c0) as (c1 & E & Hs & Hf);
      [done|rewrite length_app; change (length (bytes_of_string "Error: ")) with 7%nat; specialize (Hmsg e He); lia|].
    exists c1. split; [|split; [done|intros st id; apply E]]. right. exists e. split; [done|]. split; [done|]. unfold file_of, written in Hf. injection Hf as H1 H2. rewrite H1, H2. cbn [output2file output_txt c0 ctx_set_output2file].
    destruct (lex_output2file l'); [done|by rewrite app_nil_r].
Qed.

Definition idle_outcome (m : TxnMgr.TransactionManager) (sys : System (R := R)) (s' : Front R) : Prop :=
  let id := TxnMgr.next_txn_id_ m in exists m' tx, st_sys (fr_stmt s') = put_mgr m' sys /\
    Lock.txns (TxnMgr.tm_locks m') !! id = Some tx /\ state_ tx = COMMITTED /\ (forall d k, ~ LockFacts.holds (TxnMgr.tm_locks m') id d k) /\
    (forall y d k, y <> id -> LockFacts.holds (TxnMgr.tm_locks m') y d k <-> LockFacts.holds (TxnMgr.tm_locks m) y d k).

Lemma unparsed_request (data_recv : list Z) (cond txn_id : Z) (lg : list Z) (s : Front R) :
  let m := the_mgr (st_sys (fr_stmt s)) in let c := st_out (fr_stmt s) in let id := TxnMgr.next_txn_id_ m in
  let turn := client_request pfuel x vs strerror std_what g r0 fuel std_sort stof csv order1 order2 order3 depth garbage true data_recv txn_id s in
  ready (fr_lex s) cond -> Forall (fun b => 0 <= b <= 255) data_recv -> (9 * (length (cstr data_recv) + 1) + 200 < pfuel)%nat ->
  (forall t, ~ statement_at (cond, lex_output2file (fr_lex s), cstr data_recv) x (Some t)) ->
  Z.of_nat (length (data_send_ c)) = BUFFER_LENGTH ->
  (forall e, literal_error e = true -> Z.of_nat (length (default (std_what e) (what strerror e))) + 9 <= BUFFER_LENGTH) ->
  match (parse_text pfuel x vs strerror std_what data_recv (fr_lex s) (fr_tree s)).1 with
  | Ret _ =>
      (idle txn_id m -> may_begin lg m -> exists s', turn = (Ret id, s') /\ (exists cond', ready (fr_lex s') cond') /\ fr_lex s' = (parse_text pfuel x vs strerror std_what data_recv (fr_lex s) (fr_tree s)).2.1 /\
         no_statement_answer c (st_out (fr_stmt s')) /\ idle_outcome m (st_sys (fr_stmt s)) s') /\
      (forall tx, running txn_id tx m -> exists s', turn = (Ret txn_id, s') /\ (exists cond', ready (fr_lex s') cond') /\ fr_lex s' = (parse_text pfuel x vs strerror std_what data_recv (fr_lex s) (fr_tree s)).2.1 /\
         no_statement_answer c (st_out (fr_stmt s')) /\ st_sys (fr_stmt s') = put_mgr m (st_sys (fr_stmt s)))
  | r => r = Stuck SignedOverflow /\ exists s', turn = (Stuck SignedOverflow, s') /\ fr_stmt s' = fr_stmt s
  end.
Proof using Hvs FL FR.
  intros m c id turn Hl Hb Hfuel Hno Hbuf Hmsg. pose proof (unparsed_answer data_recv cond s) as Hans.
  destruct (front_end data_recv (fr_lex s) cond (fr_tree s) Hl Hb Hfuel) as (r & l' & tree' & Hparse & _ & Hres).
  unfold turn, client_request. rewrite Hparse in *. cbn [fst snd]. destruct r as [p|e|f]; [|done|subst f; split; [done|by eexists]].
  destruct (Hans p l' tree' Hl Hb Hfuel Hno eq_refl Hbuf Hmsg) as (c1 & Ha & Hready & Hrun). set (c0 := ctx_set_output2file (lex_output2file l') c) in *. set (st0 := st_set_out c0 (fr_stmt s)).
  change (st_set_out (ctx_set_output2file (lex_output2file l') (st_out (fr_stmt s))) (fr_stmt s)) with st0. split.
  - intros Hidle Hmay. destruct (request_only_answers g r0 fuel std_sort stof csv order1 order2 order3 depth strerror garbage p txn_id lg c1 st0) as (st' & m' & tx & E & Ho & Hsys & Htx & Hcom & Hh & Hot & _);
      [done|done|intros m2; by apply Hrun|].
    exists (mkFront l' tree' st'). rewrite E. cbn [fr_lex fr_stmt]. rewrite Ho. split_and!; [done..|]. by exists m', tx.
  - intros tx Hr. destruct (request_running g r0 fuel std_sort stof csv order1 order2 order3 depth strerror garbage p txn_id tx c1 st0) as (st' & E & Ho & Hsys); [done|by apply Hrun|].
    exists (mkFront l' tree' st'). rewrite E. cbn [fr_lex fr_stmt]. rewrite Ho. done.
Qed.

End requests.
End frontend.

Module FrontendDemo.
Import PoolInstance Replacer.Lru Posix.MemFS.

(** The scanner before its first text, the array of the parser, and a zero-terminated
    text. *)
Definition lex0 : Lex := mkLex false 0 [] 0 0 0 0 true.
Definition slots0 : list SemValue := replicate 200 no_value.
Definition request_of (s : string) : list Z := bytes_of_string s ++ [0].
Definition parsed (s : string) : outcome Parsed := (parse_text 2000 no_value slots0 [] (fun _ => []) (request_of s) lex0 None).1.

Lemma slots0_constructed : constructed no_value slots0.
Proof. split; [done|]. split; [by split|]. apply Forall_replicate. by split. Qed.
Lemma lex0_ready : ready lex0 INITIAL.
Proof. split; [done|by left]. Qed.
Lemma byte_range s : forallb (fun b => (0 <=? b) && (b <=? 255)) s = true -> Forall (fun b => 0 <= b <= 255) s.
Proof. intros H. apply Forall_forall. intros b Hb. apply (forallb_elem _ _ b) in H; [cbv beta in H; lia|done]. Qed.
Lemma lex0_place s : forallb (fun b => (0 <=? b) && (b <=? 255)) (request_of s) = true ->
  at_place (yy_scan_string (request_of s) lex0) (cstr (request_of s)) (INITIAL, true, cstr (request_of s)).
Proof. intros H. apply (scan_string_place lex0 INITIAL); [apply lex0_ready|by apply byte_range]. Qed.

Definition show_tables : list token := [(Sym.SHOW, VNone); (Sym.TABLES, VNone); (Sym.semicolon, VNone)].

Lemma yyparse_exact_witness : exists q y, reads yylex (yy_scan_string (request_of "show tables;") lex0, no_value) show_tables q /\
  sentence 2 show_tables (Some Ast.ShowTables) /\
  yyparse yylex 300 no_value slots0 (yy_scan_string (request_of "show tables;") lex0) None = (Ret 0, y) /\ parse_tree y = Some Ast.ShowTables /\ (lexer y, yylval y) = q.
Proof.
  assert (Hs : sentence 2 show_tables (Some Ast.ShowTables)).
  { apply (derives_rule 2 (mkRule Sym.start [Sym.stmt; Sym.semicolon] (fun vs => match vs with [VNode x; _] => Some (VTree (Some x)) | _ => None end)) 2 _ [VNode Ast.ShowTables; VNone]); [lia|done| |done].
    apply (derives_cons _ _ 2 1 [(Sym.SHOW, VNone); (Sym.TABLES, VNone)] [(Sym.semicolon, VNone)]); [|apply (derives_cons _ _ 1 0 [(Sym.semicolon, VNone)] []); [by apply derives_token|constructor]].
    apply (derives_rule 6 (mkRule Sym.stmt [Sym.dbStmt] first_) 2 _ [VNode Ast.ShowTables]); [lia|done| |done].
    apply (derives_cons _ _ 2 0 [(Sym.SHOW, VNone); (Sym.TABLES, VNone)] []); [|constructor].
    apply (derives_rule 14 (mkRule Sym.dbStmt [Sym.SHOW; Sym.TABLES] (const_ (VNode Ast.ShowTables))) 2 _ [VNone; VNone]); [lia|done| |done].
    apply (derives_cons _ _ 1 1 [(Sym.SHOW, VNone)] [(Sym.TABLES, VNone)]); [by apply derives_token|].
    apply (derives_cons _ _ 1 0 [(Sym.TABLES, VNone)] []); [by apply derives_token|constructor]. }
  assert (Hr : exists q, reads yylex (yy_scan_string (request_of "show tables;") lex0, no_value) show_tables q).
  { eexists. do 3 (econstructor; [vm_compute; reflexivity|vm_compute; reflexivity|]). constructor. }
  destruct Hr as [q Hr]. exists q.
  destruct (proj1 (yyparse_exact yylex 300 3 None (yy_scan_string (request_of "show tables;") lex0) no_value slots0 slots0_constructed ltac:(lia)) 2%nat show_tables _ q Hr Hs) as (y & H); [unfold depth_limit; lia|done|].
  by exists y.
Defined.

(** A comment and blanks are passed over, and the longer of two operators is taken. *)
Lemma yylex_correct_witness : exists r l' y (p' : place), yylex (yy_scan_string (request_of "/* x */ <=3") lex0, no_value) = (r, (l', y)) /\ r = Ret Tok.LEQ /\ p'.2 = bytes_of_string "3".
Proof.
  destruct (yylex_correct (yy_scan_string (request_of "/* x */ <=3") lex0) _ _ no_value (lex0_place "/* x */ <=3" eq_refl)) as (r & l' & y & p' & Hrun & (_ & (_ & _ & _ & _ & Hp) & _) & _). exists r, l', y, p'. split; [exact Hrun|].
  revert Hp. vm_compute in Hrun. injection Hrun as <- <- _. intros <-. done.
Defined.

Lemma parse_text_correct_witness : statement_at (INITIAL, true, bytes_of_string "delete from t where a = 1; x") no_value
  (Some (Ast.DeleteStmt "t" [Ast.mkBinary (Ast.mkAstCol "" "a") Ast.SV_OP_EQ (Ast.ValueExpr (Ast.IntLit 1))])).
Proof.
  destruct (parse_text_correct 2000 no_value slots0 [] (fun _ => []) slots0_constructed (request_of "delete from t where a = 1; x") lex0 INITIAL None lex0_ready) as (r & l' & t' & Hrun & Hiff & _);
    [by apply byte_range|vm_compute; lia|]. apply Hiff. vm_compute in Hrun. by injection Hrun as <- _ _.
Defined.

(** No statement begins a text the parser refuses. *)
Lemma parsed_no_statement s : forallb (fun b => (0 <=? b) && (b <=? 255)) (request_of s) = true -> (length (cstr (request_of s)) <= 190)%nat ->
  parsed s = Ret ParseFailed -> forall t, ~ statement_at (INITIAL, true, cstr (request_of s)) no_value (Some t).
Proof.
  intros Hb Hlen Hp t Ht. destruct (front_end 2000 no_value slots0 [] (fun _ => []) slots0_constructed (request_of s) lex0 INITIAL None lex0_ready) as (r & l' & t' & Hrun & Hiff & _);
    [by apply byte_range|lia|]. apply Hiff in Ht. unfold parsed in Hp. rewrite Hrun in Hp. cbn [fst] in Hp. congruence.
Qed.

Definition front0 : Front LRUReplacer := mkFront lex0 None ServerDemo.stmt1.
Definition std_what0 (e : error) : list Z := match e with OutOfRange => bytes_of_string "stoull" | _ => [] end.

Lemma literal_messages_fit e : literal_error e = true -> Z.of_nat (length (default (std_what0 e) (what [] e))) + 9 <= BUFFER_LENGTH.
Proof.
  destruct e; try done; try (vm_compute; discriminate). intros ->%String.eqb_eq. vm_compute. discriminate.
Qed.


(** A session: a table there is not, a text that is no statement, and the word
    that ends it. *)
Example session :
  let '(r, s) := client_handler 2000 no_value slots0 [] std_what0 0 (mkRid 0 0) 10 (fun _ l => l) (fun _ => Throw InvalidArgument) (fun _ => None) [] [] [] 4 false
    [(Some (bytes_of_string "desc nosuch;"), true); (Some (bytes_of_string "selec a;"), true); (Some (bytes_of_string "exit"), true)] front0 in
  r = Ret ClientExit /\ output_txt (st_out (fr_stmt s)) = bytes_of_string "failure" ++ NL /\ sent (st_out (fr_stmt s)) = [].
Proof. vm_compute. done. Qed.

(** ** Texts that are not read as they look *)

(** A minus sign with a blank behind it is passed over, so one is added. *)
Example minus_lost : parsed "update t set a = a - 1;" = Ret (ParseTree (Ast.UpdateStmt "t" [Ast.mkAstSet "a" (Ast.IntLit 1) true] [])).
Proof. vm_compute. reflexivity. Qed.
(** The second column of a set clause is ignored. *)
Example selfadd_of_another_column : parsed "update t set a = b+1;" = Ret (ParseTree (Ast.UpdateStmt "t" [Ast.mkAstSet "a" (Ast.IntLit 1) true] [])).
Proof. vm_compute. reflexivity. Qed.
(** A number of ten digits is given to [atoi]. *)
Example ten_digits_overflow : parsed "insert into t values (3000000000);" = Stuck SignedOverflow.
Proof. vm_compute. reflexivity. Qed.
(** The text behind an unclosed comment is lost, and so is the next request. *)
Example comment_left_open :
  let l := (parse_text 2000 no_value slots0 [] (fun _ => []) (request_of "/* x") lex0 None).2.1 in
  (parse_text 2000 no_value slots0 [] (fun _ => []) (request_of "show tables;") l None).1 = Ret ParseFailed.
Proof. vm_compute. reflexivity. Qed.
(** A path of a hundred directories is too deep for the stack. *)
Example deep_path : parsed ("load " ++ String.concat "/" (replicate 100 "a"%string) ++ " into t;") = Ret ParseFailed /\
  parsed ("load " ++ String.concat "/" (replicate 90 "a"%string) ++ " into t;") <> Ret ParseFailed.
Proof. split; [vm_compute; reflexivity|vm_compute; discriminate]. Qed.
End FrontendDemo.
